(* ===== verification/_CoqProject ===== *)
-Q . S2P
Prelude.v
Programs.v
BytesCodec.v
AddrMangle.v
Proto.v
RendezvousCodec.v
Text.v
TextFacts.v
Regex.v
HostText.v
JsonTree.v
Auth.v
Database.v
Instances.v
Keys.v
ClientConfig.v
ClientConfigSpec.v
ClientIo.v
Bridge.v
KcpTunnel.v
PortForward.v
Socks5.v
Lan.v
LanSpec.v
Updater.v
UpdaterSpec.v
Mediator.v
ClientAuth.v
Ipc.v
Socks5Spec.v
KcpSpec.v
IpcSpec.v
Relay.v
RelaySpec.v
Peer.v
Rendezvous.v
RendezvousSpec.v
ClientServer.v
ClientCalls.v
PortForwardSpec.v
Subscription.v
Orders.v
DbInvariant.v
DbSpec.v
Api.v
Payment.v
PaymentSpec.v
SettingsApi.v
SettingsSpec.v
Web.v
WebSpec.v
ClientAuthSpec.v
AccountServer.v
UnixPath.v
FileIo.v
Transfer.v
FileWorld.v
TransferNames.v
TransferSend.v
TransferReceive.v
TransferSpec.v
CoreState.v
CoreConfig.v
CoreConfigSpec.v
CoreStoreSpec.v
Pages.v
ServerStart.v
ServerStartSpec.v
Secure.v
SecureSpec.v
Transport.v
TransportSpec.v
ProxySpec.v
Prefs.v
PrefsSpec.v
PeerConfigs.v
PeerConfigsSpec.v
AddressBooks.v
Gui.v
GuiSpec.v
