(* ===== verification/Prelude.v ===== *)
(** * nat-server: a rendezvous server, a relay and their web server, verified

    nat-server (a RustDesk-style server in Rust) has two servers: hbbs, the
    rendezvous server, where devices register and ask for each other, with a web
    server for accounts, subscriptions and payments on the same database; and
    hbbr, the relay, which joins two devices that cannot reach each other.
    nat-client is the program of the devices: it registers with hbbs, opens
    tunnels and proxies to other devices, and keeps an account with the web
    server.  This library translates their logic into Rocq functions and proves
    what they promise to each other, to the devices and to the users, and where
    the code does otherwise.

    ** Files

    - [Prelude]: bytes, machine integers, little-endian numbers, the result
      type, the state monad [M S A], times (instants and durations are
      nanoseconds in [Z]), [keeps I m] (the run of [m] keeps [I]) and [ensures]
      with their tactics.
    - [BytesCodec] (libs/core-common/src/bytes_codec.rs): the length-prefixed
      frames of the TCP streams.
    - [AddrMangle] (libs/core-common/src/lib.rs): addresses hidden from routers.
    - [Proto] (protos/rendezvous.proto) and [RendezvousCodec]
      (rendezvous_codec.rs): the messages and their two encodings.
    - [Text], [TextFacts]: trimming, splitting, numbers, UTF-8 and the texts of
      addresses as the Rust standard library has them; [Regex] and [HostText]
      (core-common's lib.rs, socket_client.rs): hosts, ports, ids, versions;
      [JsonTree]: the values of serde_json, the derived readers, and what readers
      and printers of texts promise ([JsonPlain]).
    - [Auth] (src/api.rs, src/peer.rs): claims and tokens.
    - [Database] (src/database.rs, src/database_simple.rs), [Subscription]
      (src/subscription.rs), [Orders] (the database methods of src/payment.rs):
      tables and methods.
    - [Keys] (src/common.rs and both [get_server_sk]): the key pair of a server.
    - [Peer] (src/peer.rs) and [Rendezvous] (src/rendezvous_server.rs): hbbs.
    - [Relay] (src/relay_server.rs): hbbr; [SettingsApi] also has its start
      (src/hbbr.rs).
    - [Api] (src/api.rs, src/device_api.rs, src/password_reset.rs), [Payment]
      (the handlers of src/payment.rs), [SettingsApi] (src/settings_api.rs),
      [Web] (src/web.rs): the web server.  [Web.route] is its router.
    - [ServerStart] (src/main.rs, src/common.rs, both [start], src/utils.rs) with
      [ServerStartSpec]: arguments, files, environment, sockets, the key
      utility and its checks of a server.  [Pages] (src/web.rs, src/i18n.rs): pages and languages.
    - [DbInvariant], [DbSpec], [RelaySpec], [RendezvousSpec], [PaymentSpec],
      [SettingsSpec], [WebSpec]: the theorems about them; [Instances]: simple
      implementations of the foreign classes the examples run with.
    - [ClientConfig] (nat-client/src/config.rs, as the files below) with
      [ClientConfigSpec]; [Programs]: interactive programs; [ClientIo]: the
      questions of the client's tasks; [Bridge]: the copying between streams;
      [KcpTunnel] (kcp_tunnel.rs) with [KcpSpec]; [PortForward]
      (port_forward.rs) with [PortForwardSpec]; [Socks5] (socks5.rs) with
      [Socks5Spec]; [Mediator] (rendezvous_mediator.rs); [Lan] (lan.rs) with
      [LanSpec]; [Updater] (updater.rs) with [UpdaterSpec]; [ClientAuth]
      (auth.rs) with [ClientAuthSpec]; [Ipc] (ipc.rs, main.rs) with [IpcSpec];
      [Gui] (ui/app.rs, ui/tray.rs, i18n.rs), the window, with [GuiSpec].
    - The client and the servers together: [ClientServer] and [ClientCalls] (the
      mediator and hbbs, the handshake with hbbr), [AccountServer] (the account
      calls and the web server).
    - File transfer (core-common's fs.rs and compress.rs): [UnixPath], paths as
      the standard library has them; [FileIo], messages and questions;
      [Transfer], directories, names and jobs; [FileWorld], a Unix file system
      with links, open files and faults; [TransferNames], what a peer cannot
      reach; [TransferSend], [TransferReceive] and [TransferSpec], that the
      files arrive, and how transfers fail.
    - The configuration of the RustDesk parts (core-common's config.rs,
      password_security.rs, [get_uuid] of lib.rs): [CoreState], records, files,
      keys and secrets; [CoreConfig], its operations; [CoreConfigSpec], the
      permanent password; [CoreStoreSpec], what the files give back, options;
      [Prefs], places of files and the settings of the interface, with
      [PrefsSpec]; [PeerConfigs], the settings of each peer, with
      [PeerConfigsSpec]; [AddressBooks].
    - Its connections: [Secure] (tcp.rs, websocket.rs and stream.rs: frames in
      secret boxes) with [SecureSpec]; [Transport] (tls.rs, proxy.rs,
      websocket.rs, socket_client.rs, udp.rs) with [TransportSpec], the caches
      and attempts at TLS, and [ProxySpec], tunnels and targets.

    ** State and interaction

    The database is [Database.Db]: one finite map per table, the counters of its
    keys, the clock and the random source its statements see.  [stmt] is one SQL
    statement; the list [faults] says which of the next statements fail, so that
    every error branch of a method can be taken.  A method is a computation over
    [Db] with a [result]; it is a sequence of statements, which is where two
    requests interleave ([Orders] keeps the two halves of [mark_order_paid]
    apart for that).  hbbs keeps a [Peer.World]: the peers in memory, the
    limiter, the parked TCP connections, the queue of outgoing messages, what
    was sent, and the database; the configuration is a [Rendezvous.Srv].  Its
    event loop is [io_loop] over a list of events (datagrams, streams, console
    commands, messages of the queue, answers of relay checks).  hbbr has the
    lists and limits ([Relay.Lists]), the pairing of connections as an
    interleaving of their tasks ([pair_step], [pair_reachable]) and the loop of
    one relayed pair over its events ([relay_loop]).  A web request runs on a
    [SettingsApi.Site]: the database and the files of the working directory.

    A task of the client is a [Programs.Prog]: a tree of questions to its
    environment (read the configuration, dial, send a frame, wait for the next)
    and what it does with each answer, for between two awaits every other task
    may change what is shared.  The questions of a part are an inductive family
    ([Net], [AuthIo], [LanIo], [UpdIo], [IpcIo], which embeds others, and [FsIo]
    of the file transfer, whose methods also pass their job along, [Job],
    [Link] of the transports, whose caches are what [sat] follows, [GuiIo] of the
    threads of the window, and [DocIo] of the key utility).  What a
    task does whatever the answers are is [wp] over the trace of questions and
    answers; what it does in one environment is [run] with a handler over a
    world, in which an answer that never comes leaves it waiting.  The handlers
    of the composed theorems run the code of the other side: the server's
    handlers in [ClientServer] and [AccountServer], the other machines in
    [LanSpec].  Shared copying loops are step relations ([Bridge]).  The
    configuration of core-common is a computation over [CoreState.Core], the
    globals of a process with its files and its machine; [CoreConfig.start] is
    the next process.

    ** What is a parameter

    Code of other crates is a class, with the documented behaviour a theorem
    uses in a second class of laws: bcrypt, uuid, serde_json ([Serde],
    [JsonText]), protobuf and capnp ([WireLib]), sodiumoxide and base64
    ([KeyLib]), jsonwebtoken ([Jwt]), the timestamps of sqlx and SQLite
    ([SqlTime]), chrono ([TimeStamp], [ParseTime], [DateText]), rsa, hmac,
    reqwest ([Http]), DNS and networks ([ServerLib]), the texts of floating
    point numbers ([FloatText]); for the client also TOML ([TomlLib]), JSON
    trees ([JsonLib]), URL base64 ([UrlBase64], [PaddedBase64]), sha2
    ([Sha256], [Sha2]), kcp ([KcpLib]), zstd ([Zstd]), confy ([Confy]), secret
    boxes ([Sodium], [SecretBox]), URLs ([UrlLib]), answers of HTTP (httparse),
    random numbers ([Rng]), directories ([Home], [ReadDir]), numbers with a
    fraction ([Float64]), the JSON of address books ([BookJson]) and texts of
    errors ([AnswerText], [IpcTexts], [ErrorText], [GuiTextLib]); [JsonReads] says
    what the reader of JSON makes of the texts the client writes.  The witnesses run with [Instances] and the
    instances beside them.

    ** What the theorems show

    - Streams and messages: frames survive any cutting of the stream, decoders
      stay within their limits, both encodings round trip, mangled addresses are
      read back.
    - The relay: whoever is relayed to whom asked for the same uuid; partners in
      time do meet; bytes arrive unchanged and in order; and three ways in which
      pairing and lists fail.
    - The rendezvous server: the limiter bounds registrations and its own
      memory; datagrams cannot take over an identity, TCP registrations can; a
      punch request and its answer reach the right addresses; online answers;
      relays take turns.
    - The database and the web server: consistency is kept by every method and
      every request, with any statements failing; devices stay under their
      limit; orders are paid once and only by signed callbacks; strangers are
      rejected; an administrator remains; logins and their tokens; resets.
    - Starts: which source of an argument wins; that a token secret in a file is
      not used; ports; starts that fail; failing sockets; printed keys; that the
      check of a server tries every port, and what ends it early.
    - Files: address lists written by the administrator are what the relay
      loads; the other limits never reach it.
    - The client: its configuration keeps its types and survives restarts; a
      registration brings it online; bridges copy in order and can stall; the
      proxies connect and end; a discovery finds the machines of a network; an
      update installs only what its hash allows; a login registers the machine
      and keeps only tokens it was given; every line of the control interface
      gets its answer, and every subcommand does what it is for.  And what does
      not work between client and servers: calls that never arrive, a handshake
      the relay refuses, notices, passwords and devices.
    - The window: it shows what the daemon has; whatever its environment does, a
      button that was pressed can be used again; a login typed into it arrives;
      and what it asks for in vain (payments, deleting rules, the fields of the
      proxy that are exchanged, the pages that stay Chinese).
    - File transfer: whatever a peer sends, files outside of the directory of a
      job stay as they are, unless a link stands in the place of a helper file;
      what a sender sends builds every file at the receiver; and ways in which
      a file is lost, replaced or left out, or the task ended.
    - Its connections: what was sent in secret boxes is what arrives, in order,
      and no frame of somebody else is taken; a certificate is left unchecked
      only where the settings allow it; attempts end; a tunnel begins after the
      answer of the proxy; and what the proxies and targets get wrong.
    - The configuration of core-common: a permanent password stays the password
      of the device; what was stored is what the next process on the machine
      has, with its secrets; options read back; and two ways in which a secret
      is lost or is none.  The settings of a peer come back as they were stored,
      are within their bounds whatever the file holds, and the list of peers is
      the list of the files; and how settings are lost, hidden or shared.

    ** Conventions and bounds

    Integers are [Z], wrapped where the code casts ([as_i32], [wrap_u]) and
    otherwise unbounded where no theorem depends on the width (counters of bits
    and rows).  Prices are hundredths.  The threshold of the relay is computed
    in integers where the code rounds a product of floating point numbers; the
    two agree below 2^53.  On the side of the servers the only fuelled functions
    are printers and parsers of texts, whose fuel is the length or the logarithm
    of their argument, with lemmas that it is enough.  Lists of events stand for
    schedules; a loop over a list ends when the list does.  A loop of the client
    that goes on until its environment ends it takes fuel and stops with
    [OutOfFuel]; theorems of termination give the fuel that is enough, theorems
    with [wp] hold for any.  The attempts of [Transport] call themselves with
    what they found out: four are enough ([TRIES], two with rustls), and the
    head of a proxy's answer ends within [HEADER_FUEL] bytes; [connections_end]
    proves both.

    ** Not modelled

    The options of sockets, the TLS libraries and their verifiers of
    certificates, WebRTC, signals and logs; HTML templates and their tables of
    texts; the layout of the window, its icons and logo and the Win32 calls that
    show it; the loading of peers ahead of time and the drafts that no binary
    reaches.  The functions of the configuration run one
    after the other, each holding its lock.  Of the file transfer: drives and hidden attributes of
    Windows, and the writes tokio still holds back when it says they are done.  The handlers of hbbs run one after the other here; the
    server may interleave the tasks of different connections at every lock. *)
From Stdlib Require Export ZArith Lia.
From stdpp Require Export base tactics list gmap strings option fin_maps numbers relations sorting.
#[global] Set Default Goal Selector "!".

Declare Scope nat_server_scope.
Delimit Scope nat_server_scope with ns.
#[global] Open Scope nat_server_scope.

(** ** Machine integers and bytes

    A byte string is a list of [Z], each byte in [0, 256); an integer of width
    [n] is a [Z] together with the wrap-around of its Rust type. *)
Abbreviation bytes := (list Z) (only parsing).

Definition u8_ok (b : Z) : Prop := (0 <= b < 256)%Z.
Definition bytes_ok (l : bytes) : Prop := Forall u8_ok l.

(** [x as uN] *)
Definition wrap_u (n z : Z) : Z := (z mod 2 ^ n)%Z.
(** [x as i32] *)
Definition as_i32 (z : Z) : Z := ((z + 2 ^ 31) mod 2 ^ 32 - 2 ^ 31)%Z.
(** [usize::MAX] on a 64-bit target *)
Definition usize_max : Z := (2 ^ 64 - 1)%Z.

Definition zlen {A} (l : list A) : Z := Z.of_nat (length l).

(** The [n] little-endian bytes of [z] ([to_le_bytes]). *)
Fixpoint le_bytes (n : nat) (z : Z) : bytes :=
  match n with
  | O => []
  | S k => (z mod 256)%Z :: le_bytes k (z / 256)%Z
  end.

(** The number a little-endian byte string stands for ([from_le_bytes]). *)
Fixpoint le_num (l : bytes) : Z :=
  match l with
  | [] => 0%Z
  | b :: r => (b + 256 * le_num r)%Z
  end.

(** ** Results

    [anyhow::Result]: the error text matters nowhere in the program, so the
    error is the reason the code names. *)
Inductive result (E A : Type) : Type :=
| Ok (a : A)
| Err (e : E).
Arguments Ok {E A} a.
Arguments Err {E A} e.

Definition is_ok {E A} (r : result E A) : bool :=
  match r with Ok _ => true | Err _ => false end.

(** ** State-passing computations

    The handlers run over a state [S] and return a value: [M S A]. stdpp's
    [x ← m; k] is their sequencing. *)
Definition M (S A : Type) : Type := S → A * S.

#[export] Instance M_ret S : MRet (M S) := λ A a s, (a, s).
#[export] Instance M_bind S : MBind (M S) := λ A B f m s, let '(a, s') := m s in f a s'.
#[export] Instance M_fmap S : FMap (M S) := λ A B f m s, let '(a, s') := m s in (f a, s').

Definition gets {S A} (f : S → A) : M S A := λ s, (f s, s).
Definition modify {S} (f : S → S) : M S unit := λ s, (tt, f s).

Lemma bind_run {S A B} (m : M S A) (f : A → M S B) s :
  (m ≫= f) s = let '(a, s') := m s in f a s'.
Proof. reflexivity. Qed.

Lemma bind_eq {S A B} (m : M S A) (f : A → M S B) s a s' :
  m s = (a, s') → (m ≫= f) s = f a s'.
Proof. intros E. rewrite bind_run, E. reflexivity. Qed.

(** ** Time

    [std::time::Instant] as nanoseconds on one monotonic clock; [elapsed]
    saturates at zero, [as_secs] and [as_millis] truncate. *)
Abbreviation Instant := Z (only parsing).
Definition elapsed (now t : Instant) : Z := Z.max 0 (now - t).
Definition as_secs (d : Z) : Z := (d / 1000000000)%Z.
Definition as_millis (d : Z) : Z := (d / 1000000)%Z.
Definition secs (n : Z) : Z := (n * 1000000000)%Z.
Definition millis (n : Z) : Z := (n * 1000000)%Z.

(** ** Automation *)
Create HintDb nat_server.
Create Rewrite HintDb nat_server.

(** Case on every [match] and [if] of the goal, simplifying what it learns. *)
Ltac case_all :=
  repeat first
    [ progress simplify_eq/=
    | case_match ].

(** Run a computation of the state monad one bind at a time. *)
Ltac run_monad := unfold mret, M_ret, mbind, M_bind, fmap, M_fmap, gets, modify in *; cbn [fst snd] in *.

(** Evaluate the closed [Z.of_nat] of the goal (stdpp keeps them folded). *)
Ltac eval_of_nat :=
  cbn [length];
  repeat match goal with
    | |- context [Z.of_nat ?n] =>
      let v := eval vm_compute in (Z.of_nat n) in
      lazymatch v with context [Z.of_nat] => fail | _ => change (Z.of_nat n) with v end
    end.

(** Boolean tests of the model as propositions. *)
Ltac bool_simp :=
  repeat match goal with
    | H : andb _ _ = true |- _ => apply andb_true_iff in H as [? ?]
    | H : orb _ _ = false |- _ => apply orb_false_iff in H as [? ?]
    | H : negb _ = true |- _ => apply negb_true_iff in H
    | H : negb _ = false |- _ => apply negb_false_iff in H
    | H : Z.ltb _ _ = true |- _ => apply Z.ltb_lt in H
    | H : Z.ltb _ _ = false |- _ => apply Z.ltb_ge in H
    | H : Z.leb _ _ = true |- _ => apply Z.leb_le in H
    | H : Z.leb _ _ = false |- _ => apply Z.leb_gt in H
    | H : Z.eqb _ _ = true |- _ => apply Z.eqb_eq in H
    | H : Z.eqb _ _ = false |- _ => apply Z.eqb_neq in H
    | H : bool_decide _ = true |- _ => apply bool_decide_eq_true in H
    | H : bool_decide _ = false |- _ => apply bool_decide_eq_false in H
    end.

(** ** Conditions a computation keeps *)

(** However it ends, [m] leads from states that satisfy [I] to such states. *)
Definition keeps {S A} (I : S → Prop) (m : M S A) : Prop := ∀ s, I s → I (m s).2.

Section keeps.
Context {S : Type} (I : S → Prop).

Lemma keeps_ret {A} (a : A) : keeps I (mret a).
Proof. by intros s ?. Qed.
Lemma keeps_bind {A B} (m : M S A) (k : A → M S B) :
  keeps I m → (∀ a, keeps I (k a)) → keeps I (m ≫= k).
Proof.
  intros Hm Hk s Hs. rewrite bind_run. specialize (Hm s Hs).
  destruct (m s) as [a s'] eqn:E. by apply Hk.
Qed.
Lemma keeps_gets {A} (f : S → A) : keeps I (gets f).
Proof. by intros s ?. Qed.
Lemma keeps_modify (f : S → S) : (∀ s, I s → I (f s)) → keeps I (modify f).
Proof. by intros Hf s ?; apply Hf. Qed.
End keeps.

(** [m], run from a state with [P], ends with a value and a state with [Q]. *)
Definition ensures {S A} (P : S → Prop) (m : M S A) (Q : A → S → Prop) : Prop :=
  ∀ s, P s → Q (m s).1 (m s).2.

Section ensures.
Context {S : Type}.
Implicit Types P : S → Prop.

Lemma ensures_bind {A B} P (m : M S A) Q (k : A → M S B) R :
  ensures P m Q → (∀ a, ensures (Q a) (k a) R) → ensures P (m ≫= k) R.
Proof.
  intros Hm Hk s Hs. rewrite bind_run. specialize (Hm s Hs).
  destruct (m s) as [a s'] eqn:E. by apply Hk.
Qed.
Lemma keeps_ensures {A} P (m : M S A) : keeps P m → ensures P m (λ _, P).
Proof. done. Qed.
Lemma ensures_weaken {A} P P' (m : M S A) Q Q' :
  ensures P' m Q' → (∀ s, P s → P' s) → (∀ a s, Q' a s → Q a s) → ensures P m Q.
Proof. unfold ensures. eauto. Qed.
End ensures.

(** Take a computation apart at its binds and its branches. *)
Ltac keeps_basic :=
  lazymatch goal with
  | |- keeps _ (mret _) => apply keeps_ret
  | |- keeps _ (gets _) => apply keeps_gets
  | |- keeps _ (gets _ ≫= _) => apply keeps_bind; [apply keeps_gets|intros ?]
  | |- keeps _ (_ ≫= _) => apply keeps_bind; [|intros ?]
  | |- keeps _ (if ?b then _ else _) => destruct b eqn:?
  | |- keeps _ (match ?x with _ => _ end) => destruct x eqn:?
  | |- keeps _ (let _ := _ in _) => cbv zeta
  end.
Ltac keeps_steps := repeat keeps_basic.
(** Go into the method a goal is about. *)
Ltac head_of t := lazymatch t with ?f _ => head_of f | _ => t end.
Ltac keeps_unfold :=
  lazymatch goal with |- keeps _ ?m => let h := head_of m in unfold h end.

(** ** Lemmas on bytes and numbers *)
Lemma zlen_app {A} (l1 l2 : list A) : zlen (l1 ++ l2) = (zlen l1 + zlen l2)%Z.
Proof. unfold zlen. rewrite length_app. lia. Qed.

Lemma zlen_nonneg {A} (l : list A) : (0 <= zlen l)%Z.
Proof. unfold zlen. lia. Qed.

Lemma length_le_bytes n z : length (le_bytes n z) = n.
Proof. revert z. induction n; intros; simpl; auto. Qed.

Lemma le_bytes_ok n z : bytes_ok (le_bytes n z).
Proof.
  revert z. induction n as [|n IH]; intros z; simpl; constructor; [|apply IH].
  apply Z.mod_pos_bound. lia.
Qed.

Lemma byte_mod b x : u8_ok b → ((b + 256 * x) mod 256 = b)%Z.
Proof.
  unfold u8_ok. intros. rewrite (Z.mul_comm 256), Z_mod_plus_full. apply Z.mod_small. lia.
Qed.

Lemma byte_div b x : u8_ok b → ((b + 256 * x) / 256 = x)%Z.
Proof.
  unfold u8_ok. intros. rewrite (Z.mul_comm 256), Z.div_add, Z.div_small by lia. lia.
Qed.

Lemma le_num_le_bytes n z : le_num (le_bytes n z) = (z mod 2 ^ (8 * Z.of_nat n))%Z.
Proof.
  revert z. induction n as [|n IH]; intros z.
  { simpl. rewrite Z.mod_1_r. reflexivity. }
  cbn [le_bytes le_num]. rewrite IH.
  replace (8 * Z.of_nat (S n))%Z with (8 + 8 * Z.of_nat n)%Z by lia.
  rewrite Z.pow_add_r by lia. change (2 ^ 8)%Z with 256%Z.
  rewrite Z.rem_mul_r by lia. lia.
Qed.

Lemma le_bytes_app n m z :
  le_bytes (n + m) z = le_bytes n z ++ le_bytes m (z / 2 ^ (8 * Z.of_nat n))%Z.
Proof.
  revert z. induction n as [|n IH]; intros z.
  { simpl. rewrite Z.div_1_r. reflexivity. }
  cbn [Nat.add le_bytes app]. rewrite IH, Z.div_div by lia. do 3 f_equal.
  replace (8 * Z.of_nat (S n))%Z with (8 + 8 * Z.of_nat n)%Z by lia.
  rewrite Z.pow_add_r by lia. reflexivity.
Qed.

Lemma le_bytes_mod n z : le_bytes n (z mod 2 ^ (8 * Z.of_nat n))%Z = le_bytes n z.
Proof.
  revert z. induction n as [|n IH]; intros z; [reflexivity|].
  cbn [le_bytes]. replace (8 * Z.of_nat (S n))%Z with (8 + 8 * Z.of_nat n)%Z by lia.
  rewrite Z.pow_add_r by lia. change (2 ^ 8)%Z with 256%Z.
  rewrite Z.rem_mul_r by lia. f_equal.
  - rewrite Z.mul_comm, Z_mod_plus_full. apply Z.mod_mod. lia.
  - rewrite Z.mul_comm, Z.div_add by lia.
    rewrite Z.div_small by (apply Z.mod_pos_bound; lia). apply IH.
Qed.

Lemma le_num_app l1 l2 :
  le_num (l1 ++ l2) = (le_num l1 + 2 ^ (8 * zlen l1) * le_num l2)%Z.
Proof.
  induction l1 as [|b l1 IH].
  { unfold zlen. simpl. lia. }
  cbn [app le_num]. rewrite IH. unfold zlen. cbn [length].
  replace (8 * Z.of_nat (S (length l1)))%Z with (8 + 8 * Z.of_nat (length l1))%Z by lia.
  rewrite Z.pow_add_r by lia. change (2 ^ 8)%Z with 256%Z. lia.
Qed.

Lemma le_num_replicate_0 n : le_num (replicate n 0%Z) = 0%Z.
Proof. induction n; simpl; lia. Qed.

Lemma wrap_u_small n z : (0 <= z < 2 ^ n)%Z → wrap_u n z = z.
Proof. intros H. unfold wrap_u. apply Z.mod_small. lia. Qed.

Lemma as_i32_small z : (- 2 ^ 31 <= z < 2 ^ 31)%Z → as_i32 z = z.
Proof. intros H. unfold as_i32. rewrite Z.mod_small; lia. Qed.

Lemma elapsed_nonneg now t : (0 <= elapsed now t)%Z.
Proof. unfold elapsed. lia. Qed.

Lemma lor_low_high a b k :
  (0 <= k)%Z → (0 <= a < 2 ^ k)%Z → Z.lor a (b * 2 ^ k) = (a + b * 2 ^ k)%Z.
Proof.
  intros Hk Ha. symmetry. rewrite <- Z.shiftl_mul_pow2 by lia.
  apply Z.add_nocarry_lor. apply Z.bits_inj'. intros i Hi.
  rewrite Z.land_spec, Z.bits_0. destruct (Z.ltb i k) eqn:E; bool_simp.
  - rewrite Z.shiftl_spec_low by lia. apply andb_false_r.
  - rewrite <- (Z.mod_small a (2 ^ k)) by lia.
    rewrite Z.mod_pow2_bits_high by lia. reflexivity.
Qed.

#[export] Hint Resolve zlen_nonneg le_bytes_ok elapsed_nonneg : nat_server.
#[export] Hint Rewrite @zlen_app length_le_bytes le_num_le_bytes : nat_server.
