(* ===== verification/Programs.v ===== *)
(** * Interactive programs

    A part of the system that waits for its environment is a [Prog]: it asks
    (an inductive family of questions [E], each with the type of its answers)
    and goes on with what it is answered.  What it does whatever the answers
    are is [wp] over the trace of questions and answers, or, when only the
    questions matter, [asks]; what it does in one environment is [run] with a
    handler, in which an answer that never comes leaves it waiting. *)
From S2P Require Import Prelude.
Local Open Scope Z_scope.

(** ** Programs *)

(** How a program can end without a value: a panic, or the end of the fuel. *)
Inductive Halt : Type := Panicked | OutOfFuel.

Inductive Prog (E : Type → Type) (A : Type) : Type :=
| Ret (a : A)
| Stop (h : Halt)
| Ask {X : Type} (e : E X) (k : X → Prog E A).
Arguments Ret {E A} a.
Arguments Stop {E A} h.
Arguments Ask {E A X} e k.

Definition ask {E X} (e : E X) : Prog E X := Ask e Ret.

Fixpoint prog_bind {E A B} (f : A → Prog E B) (p : Prog E A) : Prog E B :=
  match p with
  | Ret a => f a
  | Stop h => Stop h
  | Ask e k => Ask e (λ x, prog_bind f (k x))
  end.
#[export] Instance Prog_ret E : MRet (Prog E) := λ A, Ret.
#[export] Instance Prog_bind E : MBind (Prog E) := λ A B, prog_bind.
#[export] Instance Prog_fmap E : FMap (Prog E) := λ A B f, prog_bind (λ a, Ret (f a)).

(** The errors of the [anyhow] results. *)
Inductive Failure : Type :=
| Eof                    (* the stream ended *)
| Io                     (* an input/output error *)
| Elapsed                (* a timeout *)
| Failed (why : string).
#[export] Instance Failure_eq_dec : EqDecision Failure.
Proof. solve_decision. Defined.

(** The question mark. *)
Definition try_bind {E A B} (p : Prog E (result Failure A)) (k : A → Prog E (result Failure B))
    : Prog E (result Failure B) :=
  r ← p; match r with Ok a => k a | Err e => mret (Err e) end.
Notation "x ←? p ; k" := (try_bind p (λ x, k))
  (at level 20, p at level 100, k at level 200, format "x  ←?  p ;  '/' k").
Notation "'do?' p ; k" := (try_bind p (λ _, k)) (at level 20, p at level 100, k at level 200).
Definition or_else {E A} (e : Failure) (p : Prog E (option A)) : Prog E (result Failure A) :=
  r ← p; mret (match r with Some a => Ok a | None => Err e end).
Definition ensure {E : Type → Type} (e : Failure) (p : Prog E bool) : Prog E (result Failure unit) :=
  r ← p; mret (if r : bool then Ok tt else Err e).

(** ** Whatever the environment answers *)

(** A question with its answer. *)
Inductive Obs (E : Type → Type) : Type :=
| obs {X : Type} (e : E X) (x : X).
Arguments obs {E X} e x.
Definition Trace (E : Type → Type) : Type := list (Obs E).

(** [Q] holds of the trace and the value of every run that ends with one. *)
Fixpoint wp {E A} (p : Prog E A) (tr : Trace E) (Q : Trace E → A → Prop) : Prop :=
  match p with
  | Ret a => Q tr a
  | Stop _ => True
  | Ask e k => ∀ x, wp (k x) (tr ++ [obs e x]) Q
  end.

Lemma wp_bind {E A B} (p : Prog E A) (f : A → Prog E B) tr Q :
  wp (p ≫= f) tr Q ↔ wp p tr (λ tr' a, wp (f a) tr' Q).
Proof.
  revert tr. induction p as [a|h|X e k IH]; intros tr; [done|done|].
  cbn. split; intros Hx x; [apply IH, Hx|apply IH, Hx].
Qed.
Lemma wp_mono {E A} (p : Prog E A) tr (Q Q' : Trace E → A → Prop) :
  (∀ tr' a, Q tr' a → Q' tr' a) → wp p tr Q → wp p tr Q'.
Proof. intros HQ. revert tr. induction p; intros tr Hp; cbn in *; auto. Qed.
Lemma wp_try {E A B} (p : Prog E (result Failure A)) (k : A → Prog E (result Failure B)) tr Q :
  wp (try_bind p k) tr Q ↔
  wp p tr (λ tr' r, match r with Ok a => wp (k a) tr' Q | Err e => Q tr' (Err e) end).
Proof.
  unfold try_bind. rewrite wp_bind. split; apply wp_mono; by intros tr' [].
Qed.

(** A program all of whose questions are of a kind, whatever it is answered. *)
Fixpoint asks {E : Type → Type} {A} (P : ∀ X, E X → Prop) (p : Prog E A) : Prop :=
  match p with Ask e k => P _ e ∧ ∀ x, asks P (k x) | _ => True end.
Definition of_kind {E : Type → Type} (P : ∀ X, E X → Prop) (o : Obs E) : Prop :=
  match o with obs e _ => P _ e end.

Section asks.
Context {E : Type → Type} (P : ∀ X, E X → Prop).
Lemma asks_ret {A} (a : A) : asks P (mret a : Prog E A).
Proof. done. Qed.
Lemma asks_ask {X} (e : E X) : P _ e → asks P (ask e).
Proof. intros He. by split. Qed.
Lemma asks_bind {A B} (p : Prog E A) (f : A → Prog E B) : asks P p → (∀ a, asks P (f a)) → asks P (p ≫= f).
Proof.
  intros Hp Hf. induction p as [a|h|X e k IH]; [apply Hf|done|]. destruct Hp as [He Hk]. split; [done|].
  intros x. apply IH, Hk.
Qed.
Lemma asks_try {A B} (p : Prog E (result Failure A)) (f : A → Prog E (result Failure B)) :
  asks P p → (∀ a, asks P (f a)) → asks P (try_bind p f).
Proof. intros Hp Hf. apply asks_bind; [done|]. by intros [a|e]. Qed.
(** The trace grows by such questions. *)
Lemma wp_asks {A} (p : Prog E A) tr (Q : Trace E → A → Prop) :
  asks P p → (∀ tr2 a, Forall (of_kind P) tr2 → Q (tr ++ tr2) a) → wp p tr Q.
Proof.
  revert tr. induction p as [a|h|X e k IH]; intros tr Hp HQ.
  - cbn. rewrite <- (app_nil_r tr). by apply HQ.
  - done.
  - destruct Hp as [He Hk]. intros x. apply IH; [apply Hk|]. intros tr2 a H2.
    rewrite <- app_assoc. apply HQ. by constructor.
Qed.
End asks.

(** ** In one environment *)

(** How a program stands: it has a value, it stopped, or it waits for an answer. *)
Inductive Status (A : Type) : Type := Finished (a : A) | Stopped (h : Halt) | Waiting.
Arguments Finished {A} a.
Arguments Stopped {A} h.
Arguments Waiting {A}.

Definition Handler (E : Type → Type) (W : Type) : Type := ∀ X, E X → W → option (X * W).

Fixpoint run {E W A} (h : Handler E W) (p : Prog E A) (w : W) : Status A * W :=
  match p with
  | Ret a => (Finished a, w)
  | Stop s => (Stopped s, w)
  | Ask e k =>
    match h _ e w with
    | Some (x, w) => run h (k x) w
    | None => (Waiting, w)
    end
  end.

Lemma run_bind {E W A B} (h : Handler E W) (p : Prog E A) (f : A → Prog E B) w :
  run h (p ≫= f) w =
  match run h p w with
  | (Finished a, w) => run h (f a) w
  | (Stopped s, w) => (Stopped s, w)
  | (Waiting, w) => (Waiting, w)
  end.
Proof.
  revert w. induction p as [a|s|X e k IH]; intros w; [done|done|].
  cbn. destruct (h X e w) as [[x w']|]; [apply IH|done].
Qed.

Lemma run_bind_eq {E W A B} (h : Handler E W) (p : Prog E A) (f : A → Prog E B) w a w' :
  run h p w = (Finished a, w') → run h (p ≫= f) w = run h (f a) w'.
Proof. intros E'. by rewrite run_bind, E'. Qed.
Lemma run_try {E W A B} (h : Handler E W) (p : Prog E (result Failure A)) (k : A → Prog E (result Failure B)) w a w' :
  run h p w = (Finished (Ok a), w') → run h (try_bind p k) w = run h (k a) w'.
Proof. intros E'. unfold try_bind. by rewrite (run_bind_eq _ _ _ _ _ _ E'). Qed.
Lemma run_try_err {E W A B} (h : Handler E W) (p : Prog E (result Failure A)) (k : A → Prog E (result Failure B)) w e w' :
  run h p w = (Finished (Err e), w') → run h (try_bind p k) w = (Finished (Err e), w').
Proof. intros E'. unfold try_bind. by rewrite (run_bind_eq _ _ _ _ _ _ E'). Qed.
Lemma run_try_waiting {E W A B} (h : Handler E W) (p : Prog E (result Failure A)) (k : A → Prog E (result Failure B)) w w' :
  run h p w = (Waiting, w') → run h (try_bind p k) w = (Waiting, w').
Proof. intros E'. unfold try_bind. by rewrite run_bind, E'. Qed.

(** What holds of the world a run leaves, and of its value where it has one. *)
Definition after {E W A} (h : Handler E W) (p : Prog E A) (w : W) (Q : option A → W → Prop) : Prop :=
  match run h p w with (Finished a, w) => Q (Some a) w | (_, w) => Q None w end.
Lemma after_bind {E W A B} (h : Handler E W) (p : Prog E A) (f : A → Prog E B) w (Q : option B → W → Prop) :
  after h p w (λ a w, match a with Some a => after h (f a) w Q | None => Q None w end) → after h (p ≫= f) w Q.
Proof. unfold after. rewrite run_bind. by destruct (run h p w) as [[a|e|] w1]. Qed.
Lemma after_mono {E W A} (h : Handler E W) (p : Prog E A) w (Q Q' : option A → W → Prop) :
  (∀ a w, Q a w → Q' a w) → after h p w Q → after h p w Q'.
Proof. intros HQ. unfold after. destruct (run h p w) as [[a|e|] w1]; apply HQ. Qed.

(** A run that ends with a value, of which [Q] holds. *)
Definition ends {E W A} (h : Handler E W) (p : Prog E A) (w : W) (Q : A → W → Prop) : Prop :=
  ∃ a w', run h p w = (Finished a, w') ∧ Q a w'.
Lemma ends_ret {E W A} (h : Handler E W) (a : A) w (Q : A → W → Prop) : Q a w → ends h (mret a) w Q.
Proof. intros HQ. by exists a, w. Qed.
Lemma ends_ask {E : Type → Type} {W A} (h : Handler E W) (e : E A) w a w' (Q : A → W → Prop) :
  h A e w = Some (a, w') → Q a w' → ends h (ask e) w Q.
Proof. intros He HQ. exists a, w'. split; [|done]. cbn. by rewrite He. Qed.
Lemma ends_bind {E W A B} (h : Handler E W) (p : Prog E A) (f : A → Prog E B) w (Q : B → W → Prop) (Q' : A → W → Prop) :
  ends h p w Q' → (∀ a w', Q' a w' → ends h (f a) w' Q) → ends h (p ≫= f) w Q.
Proof.
  intros (a & w' & E1 & Ha) Hf. destruct (Hf a w' Ha) as (b & w2 & E2 & Hb).
  exists b, w2. split; [|done]. by rewrite (run_bind_eq _ _ _ _ _ _ E1).
Qed.
Lemma ends_run {E W A B} (h : Handler E W) (p : Prog E A) (f : A → Prog E B) w a w' (Q : B → W → Prop) :
  run h p w = (Finished a, w') → ends h (f a) w' Q → ends h (p ≫= f) w Q.
Proof. intros E1 (b & w2 & E2 & Hb). exists b, w2. split; [|done]. by rewrite (run_bind_eq _ _ _ _ _ _ E1). Qed.
Lemma ends_mono {E W A} (h : Handler E W) (p : Prog E A) w (Q Q' : A → W → Prop) :
  (∀ a w, Q a w → Q' a w) → ends h p w Q → ends h p w Q'.
Proof. intros HQ (a & w' & E1 & Ha). exists a, w'. auto. Qed.

(** A timeout around a program: before each of its questions the time may be
    over, and then the rest of it is dropped. *)
Fixpoint cancellable {E : Type → Type} {A} (over : E bool) (p : Prog E A) : Prog E (option A) :=
  match p with
  | Ret a => Ret (Some a)
  | Stop h => Stop h
  | Ask e k => Ask over (λ b, if b : bool then Ret None else Ask e (λ x, cancellable over (k x)))
  end.

Lemma asks_cancellable {E : Type → Type} (P : ∀ X, E X → Prop) {A} (over : E bool) (p : Prog E A) :
  P _ over → asks P p → asks P (cancellable over p).
Proof.
  intros Ho. induction p as [a|h|X e k IH]; [done|done|]. intros [He Hk]. split; [done|].
  intros [|]; [done|]. split; [done|]. intros x. apply IH, Hk.
Qed.
