(* ===== verification/BytesCodec.v ===== *)
(** * The frame codec: [libs/core-common/src/bytes_codec.rs]

    Every TCP connection of hbbs, hbbr and the client carries frames of this
    codec.  [decode] and [encode] are the [Decoder] and [Encoder] of
    [BytesCodec]; a codec is the record of its three fields and the receive
    buffer ([BytesMut]) is passed explicitly.  The theorems: the length header
    round-trips, a frame decodes to its payload whatever follows it, the limit
    on packets is enforced, and over any schedule of reads and decodes, however
    TCP cuts the stream, the receiver gets the sent messages in order. *)
From S2P Require Import Prelude.
Local Open Scope Z_scope.

Module BytesCodec.

(** The two states of the decoder: before a header, or a payload of [n]
    bytes is due. *)
Inductive DecodeState : Type :=
| Head
| Data (n : Z).

#[export] Instance DecodeState_eq_dec : EqDecision DecodeState.
Proof. solve_decision. Defined.

Record BytesCodec : Type := mkCodec {
  state : DecodeState;
  raw : bool;
  max_packet_length : Z;
}.

(** [io::ErrorKind] with the message, for the two errors of the codec. *)
Inductive CodecError : Type :=
| TooBigPacket   (* InvalidData, "Too big packet" *)
| Overflow.      (* InvalidInput, "Overflow" *)

Definition new : BytesCodec :=
  {| state := Head; raw := false; max_packet_length := usize_max |}.

Definition set_raw (c : BytesCodec) : BytesCodec :=
  {| state := state c; raw := true; max_packet_length := max_packet_length c |}.

Definition set_max_packet_length (n : Z) (c : BytesCodec) : BytesCodec :=
  {| state := state c; raw := raw c; max_packet_length := n |}.

Definition set_state (s : DecodeState) (c : BytesCodec) : BytesCodec :=
  {| state := s; raw := raw c; max_packet_length := max_packet_length c |}.

(** [src[i] as usize]; every use is guarded by a length test. *)
Definition byte_at (src : bytes) (i : nat) : Z := default 0 (src !! i).

(** The number of header bytes the first byte announces. *)
Definition head_len_of (b0 : Z) : Z := Z.land b0 3 + 1.

(** The bytes of the header put together: [n |= (src[i] as usize) << 8i]. *)
Definition head_value (head_len b0 : Z) (src : bytes) : Z :=
  let n := b0 in
  let n := if 1 <? head_len then Z.lor n (Z.shiftl (byte_at src 1) 8) else n in
  let n := if 2 <? head_len then Z.lor n (Z.shiftl (byte_at src 2) 16) else n in
  if 3 <? head_len then Z.lor n (Z.shiftl (byte_at src 3) 24) else n.

(** [decode_head]: the payload length and the buffer after the header, [None]
    while the header is incomplete. *)
Definition decode_head (c : BytesCodec) (src : bytes)
  : result CodecError (option (Z * bytes)) :=
  match src with
  | [] => Ok None
  | b0 :: _ =>
    let head_len := head_len_of b0 in
    if zlen src <? head_len then Ok None else
    let n := Z.shiftr (head_value head_len b0 src) 2 in
    if max_packet_length c <? n then Err TooBigPacket
    else Ok (Some (n, drop (Z.to_nat head_len) src))
  end.

(** [decode_data]: [split_to(n)] once [n] bytes are there. *)
Definition decode_data (n : Z) (src : bytes) : option (bytes * bytes) :=
  if zlen src <? n then None
  else Some (take (Z.to_nat n) src, drop (Z.to_nat n) src).

(** [Decoder::decode]: the codec and the buffer after the call, and its result. *)
Definition decode (c : BytesCodec) (src : bytes)
  : BytesCodec * bytes * result CodecError (option bytes) :=
  if raw c then
    match src with
    | [] => (c, src, Ok None)
    | _ => (c, [], Ok (Some src))
    end
  else
    let payload c n src :=
      match decode_data n src with
      | Some (data, rest) => (set_state Head c, rest, Ok (Some data))
      | None => (c, src, Ok None)
      end in
    match state c with
    | Head =>
      match decode_head c src with
      | Err e => (c, src, Err e)
      | Ok None => (c, src, Ok None)
      | Ok (Some (n, src)) => payload (set_state (Data n) c) n src
      end
    | Data n => payload c n src
    end.

(** The header [encode] writes before a payload of [n] bytes. *)
Definition encode_head (n : Z) : result CodecError bytes :=
  if n <=? 0x3F then Ok (le_bytes 1 (wrap_u 8 (Z.shiftl n 2)))
  else if n <=? 0x3FFF then Ok (le_bytes 2 (Z.lor (wrap_u 16 (Z.shiftl n 2)) 1))
  else if n <=? 0x3FFFFF then
    let h := Z.lor (wrap_u 32 (Z.shiftl n 2)) 2 in
    Ok (le_bytes 2 (wrap_u 16 (Z.land h 0xFFFF)) ++ le_bytes 1 (wrap_u 8 (Z.shiftr h 16)))
  else if n <=? 0x3FFFFFFF then Ok (le_bytes 4 (Z.lor (wrap_u 32 (Z.shiftl n 2)) 3))
  else Err Overflow.

(** [Encoder::encode]: the output buffer after the call, or the error. *)
Definition encode (c : BytesCodec) (data buf : bytes) : result CodecError bytes :=
  if raw c then Ok (buf ++ data)
  else match encode_head (zlen data) with
       | Ok h => Ok (buf ++ h ++ data)
       | Err e => Err e
       end.

(** ** The header *)

(** The number of bytes in the header [encode] writes for a payload length. *)
Definition head_size (n : Z) : nat :=
  if n <=? 0x3F then 1%nat else if n <=? 0x3FFF then 2%nat
  else if n <=? 0x3FFFFF then 3%nat else 4%nat.

(** Every header is the little-endian image of [4n + (bytes - 1)]. *)
Lemma encode_head_le n :
  0 <= n <= 0x3FFFFFFF →
  encode_head n = Ok (le_bytes (head_size n) (n * 4 + (Z.of_nat (head_size n) - 1))).
Proof.
  intros Hn. unfold encode_head, head_size.
  assert (Hor : ∀ k w, 0 <= k < 4 → 0 <= n * 4 < 2 ^ w → 
            Z.lor (wrap_u w (Z.shiftl n 2)) k = n * 4 + k).
  { intros k w Hk Hw. rewrite Z.shiftl_mul_pow2 by lia. change (2 ^ 2) with 4.
    rewrite wrap_u_small by lia. rewrite Z.lor_comm. change 4 with (2 ^ 2).
    rewrite lor_low_high by lia. lia. }
  repeat case_match; bool_simp; try lia.
  - replace (Z.shiftl n 2) with (n * 4 + 0) by (rewrite Z.shiftl_mul_pow2; lia).
    rewrite wrap_u_small by lia. reflexivity.
  - rewrite Hor by lia. reflexivity.
  - rewrite Hor by lia. rewrite Z.shiftr_div_pow2 by lia. change 0xFFFF with (Z.ones 16).
    rewrite Z.land_ones by lia. unfold wrap_u. rewrite Z.mod_mod by lia. f_equal.
    change 3%nat with (2 + 1)%nat at 1. rewrite le_bytes_app. f_equal.
    + apply (le_bytes_mod 2).
    + apply (le_bytes_mod 1).
  - rewrite Hor by lia. reflexivity.
Qed.

Lemma head_size_bounds n : (1 <= head_size n <= 4)%nat.
Proof. unfold head_size. repeat case_match; lia. Qed.

Lemma head_size_fits n :
  0 <= n <= 0x3FFFFFFF →
  0 <= n * 4 + (Z.of_nat (head_size n) - 1) < 2 ^ (8 * Z.of_nat (head_size n)).
Proof.
  intros Hn. unfold head_size. repeat case_match; bool_simp; simpl; lia.
Qed.

(** The header of a payload of [n] bytes, as [encode] writes it. *)
Definition header (n : Z) : bytes :=
  le_bytes (head_size n) (n * 4 + (Z.of_nat (head_size n) - 1)).

Lemma length_header n : length (header n) = head_size n.
Proof. apply length_le_bytes. Qed.

(** The header's first byte announces the header's length. *)
Lemma header_first n :
  0 <= n <= 0x3FFFFFFF →
  ∃ b0 h, header n = b0 :: h ∧ head_len_of b0 = Z.of_nat (head_size n).
Proof.
  intros Hn. unfold header. pose proof (head_size_bounds n) as Hk.
  destruct (head_size n) as [|k] eqn:E; [lia|]. cbn [le_bytes].
  eexists _, _. split; [reflexivity|]. unfold head_len_of.
  change 3 with (Z.ones 2). rewrite Z.land_ones by lia. change (2 ^ 2) with 4.
  change 256 with (4 * 64). rewrite Z.rem_mul_r by lia.
  rewrite (Z.mul_comm 4), Z_mod_plus_full, Z.mod_mod by lia.
  replace (n * 4 + (Z.of_nat (S k) - 1)) with (Z.of_nat k + n * 4) by lia.
  rewrite Z_mod_plus_full, Z.mod_small by lia. lia.
Qed.

(** The chain of shifts and ors reads the little-endian number. *)
Lemma head_value_le h rest :
  bytes_ok h → (1 <= length h <= 4)%nat →
  head_value (zlen h) (byte_at h 0) (h ++ rest) = le_num h.
Proof.
  intros Hok Hl. unfold bytes_ok in Hok.
  destruct h as [|b0 [|b1 [|b2 [|b3 [|]]]]]; simpl in Hl; try lia;
    rewrite ?Forall_cons in Hok; unfold u8_ok in Hok; destruct_and?;
    unfold head_value, zlen, byte_at; eval_of_nat; cbn -[Z.lor Z.shiftl Z.add Z.mul];
    rewrite ?Z.shiftl_mul_pow2 by lia; 
    rewrite ?(lor_low_high b0) by lia; rewrite ?(lor_low_high _ b2) by lia;
    rewrite ?(lor_low_high _ b3) by lia; lia.
Qed.

Lemma header_num n :
  0 <= n <= 0x3FFFFFFF → Z.shiftr (le_num (header n)) 2 = n.
Proof.
  intros Hn. unfold header. rewrite le_num_le_bytes, Z.mod_small by (by apply head_size_fits).
  pose proof (head_size_bounds n). rewrite Z.shiftr_div_pow2 by lia. change (2 ^ 2) with 4.
  rewrite Z.div_add_l by lia. rewrite Z.div_small by lia. lia.
Qed.

(** A complete header decodes to its length, subject to the packet limit. *)
Lemma decode_head_header c n rest :
  0 <= n <= 0x3FFFFFFF →
  decode_head c (header n ++ rest)
  = if max_packet_length c <? n then Err TooBigPacket else Ok (Some (n, rest)).
Proof.
  intros Hn. destruct (header_first n Hn) as (b0 & h & E & Hlen).
  pose proof (length_header n) as Hl. pose proof (head_size_bounds n) as Hk.
  pose proof (head_value_le (header n) rest (le_bytes_ok _ _) ltac:(lia)) as Hv.
  unfold zlen in Hv. rewrite Hl, <- Hlen in Hv.
  rewrite E in Hl, Hv |- *. cbn [app byte_at lookup list_lookup default] in Hv |- *.
  unfold decode_head. unfold zlen. rewrite Hlen. cbn [length] in *. rewrite length_app.
  rewrite (proj2 (Z.ltb_ge _ _)) by lia. rewrite <- Hlen.
  cbn [id] in Hv. rewrite Hv, <- E, header_num by done.
  case_match; [done|]. rewrite Hlen, Nat2Z.id. do 3 f_equal.
  change (b0 :: h ++ rest) with ((b0 :: h) ++ rest).
  rewrite <- E. apply drop_app_length'. rewrite length_header. done.
Qed.

(** An incomplete header is left alone. *)
Lemma decode_head_short c n src unread tail :
  0 <= n <= 0x3FFFFFFF → src ++ unread = header n ++ tail →
  (length src < head_size n)%nat → decode_head c src = Ok None.
Proof.
  intros Hn Heq Hlt. destruct (header_first n Hn) as (b0 & h & E & Hlen).
  destruct src as [|b src]; [reflexivity|]. rewrite E in Heq. simplify_eq/=.
  unfold decode_head. rewrite Hlen, (proj2 (Z.ltb_lt _ _)); [reflexivity|].
  unfold zlen. cbn [length] in *. lia.
Qed.

(** ** One frame *)

Definition frame (data : bytes) : bytes := header (zlen data) ++ data.
Definition frames (msgs : list bytes) : bytes := concat (map frame msgs).

Lemma encode_frame c data buf :
  raw c = false → zlen data <= 0x3FFFFFFF → encode c data buf = Ok (buf ++ frame data).
Proof.
  intros Hr Hd. unfold encode, frame, header. rewrite Hr, encode_head_le by (unfold zlen in *; lia).
  done.
Qed.

(** The payload after a decoded header. *)
Lemma decode_data_app data rest :
  decode_data (zlen data) (data ++ rest) = Some (data, rest).
Proof.
  unfold decode_data. rewrite zlen_app, (proj2 (Z.ltb_ge _ _)) by (unfold zlen; lia).
  unfold zlen. rewrite Nat2Z.id, take_app_length, drop_app_length. done.
Qed.

Lemma decode_data_short data src unread tail :
  src ++ unread = data ++ tail →
  decode_data (zlen data) src = None ∨
  ∃ rest, src = data ++ rest ∧ rest ++ unread = tail
          ∧ decode_data (zlen data) src = Some (data, rest).
Proof.
  intros Heq. destruct (decide (length src < length data)%nat) as [Hlt|Hge].
  - left. unfold decode_data. rewrite (proj2 (Z.ltb_lt _ _)); [done|]. unfold zlen. lia.
  - right. apply app_eq_inv in Heq as [(k & E1 & E2)|(k & E1 & E2)].
    + exists k. subst. split_and!; [done..|apply decode_data_app].
    + subst. rewrite length_app in Hge. assert (k = []) as -> by (destruct k; simpl in *; [done|lia]).
      rewrite app_nil_r in *. exists []. rewrite app_nil_r. split_and!; [done..|].
      rewrite <- (app_nil_r src) at 2. apply decode_data_app.
Qed.

(** ** A connection: any schedule of reads and decodes

    The receiver appends to its buffer whatever TCP hands it and calls [decode]
    whenever it likes; the wire holds what has not arrived yet. *)
Record receiver : Type := mkRx {
  rx_codec : BytesCodec;
  rx_buf : bytes;
  rx_got : list bytes;
  rx_wire : bytes;
}.

Inductive rx_step : receiver → receiver → Prop :=
| rx_read c buf got chunk wire :
    rx_step (mkRx c buf got (chunk ++ wire)) (mkRx c (buf ++ chunk) got wire)
| rx_decode c buf got wire c' buf' r :
    decode c buf = (c', buf', Ok r) →
    rx_step (mkRx c buf got wire) (mkRx c' buf' (got ++ option_list r) wire).

(** The sender: [encode] of each message onto the wire. *)
Fixpoint send_all (c : BytesCodec) (msgs : list bytes) (wire : bytes) : result CodecError bytes :=
  match msgs with
  | [] => Ok wire
  | m :: r => match encode c m wire with
              | Ok wire => send_all c r wire
              | Err e => Err e
              end
  end.

Definition fits (c : BytesCodec) (m : bytes) : Prop :=
  zlen m <= 0x3FFFFFFF ∧ zlen m <= max_packet_length c.

Lemma send_all_frames c msgs wire :
  raw c = false → Forall (λ m, zlen m <= 0x3FFFFFFF) msgs →
  send_all c msgs wire = Ok (wire ++ frames msgs).
Proof.
  intros Hr Hf. revert wire. induction Hf as [|m r Hm _ IH]; intros wire; simpl.
  { by rewrite app_nil_r. }
  rewrite encode_frame by done. rewrite IH. unfold frames. simpl. by rewrite app_assoc.
Qed.

Section stream.
Context (limit : Z) (msgs : list bytes).
Context (Hfits : Forall (λ m, zlen m <= 0x3FFFFFFF ∧ zlen m <= limit) msgs).

(** What the receiver still owes is exactly what is buffered and in flight. *)
Definition rx_inv (s : receiver) : Prop :=
  raw (rx_codec s) = false ∧ max_packet_length (rx_codec s) = limit ∧
  ∃ pending, msgs = rx_got s ++ pending ∧
    match state (rx_codec s) with
    | Head => rx_buf s ++ rx_wire s = frames pending
    | Data n => ∃ m rest, pending = m :: rest ∧ n = zlen m ∧
                  rx_buf s ++ rx_wire s = m ++ frames rest
    end.

Lemma pending_fits got m rest : msgs = got ++ m :: rest →
  zlen m <= 0x3FFFFFFF ∧ zlen m <= limit.
Proof.
  intros ->. rewrite Forall_app, Forall_cons in Hfits. tauto.
Qed.

(** Waiting for the payload of [m]: either not all there, or [m] comes out. *)
Lemma decode_payload c buf got wire m rest :
  raw c = false → max_packet_length c = limit → state c = Data (zlen m) →
  msgs = got ++ m :: rest → buf ++ wire = m ++ frames rest →
  ∃ c' buf' r, decode c buf = (c', buf', Ok r) ∧
    rx_inv (mkRx c' buf' (got ++ option_list r) wire) ∧ (r = None → wire ≠ []).
Proof.
  intros Hr Hl Hs Hm Heq. unfold decode. rewrite Hr, Hs.
  destruct (decode_data_short m buf wire (frames rest) Heq) as [E|(k & -> & Hk & E)]; rewrite E.
  - eexists _, _, _. split; [done|]. simpl. rewrite app_nil_r. split.
    + split_and!; [done..|]. exists (m :: rest). simpl. rewrite Hs.
      split; [done|]. exists m, rest. done.
    + intros _ ->. rewrite app_nil_r in Heq. subst.
      rewrite decode_data_app in E. done.
  - eexists _, _, _. split; [done|]. split; [|done]. split_and!; simpl; [done..|].
    exists rest. rewrite <- app_assoc. done.
Qed.

(** Under the invariant [decode] never fails, keeps the invariant, and only
    asks for more when there is more to come or all is delivered. *)
Lemma rx_inv_decode s : rx_inv s →
  ∃ c' buf' r, decode (rx_codec s) (rx_buf s) = (c', buf', Ok r) ∧
    rx_inv (mkRx c' buf' (rx_got s ++ option_list r) (rx_wire s)) ∧
    (r = None → rx_wire s = [] → rx_got s = msgs).
Proof.
  destruct s as [c buf got wire]. intros (Hr & Hl & pending & Hm & Hst); simpl in *.
  destruct (state c) as [|n] eqn:Es.
  2: { destruct Hst as (m & rest & -> & -> & Heq).
       destruct (decode_payload c buf got wire m rest) as (c' & buf' & r & ? & ? & Hn); [done..|].
       exists c', buf', r. split_and!; [done..|]. intros ? ?. by destruct Hn. }
  assert (Hdone : pending = [] → buf = []).
  { intros ->. destruct buf; done. }
  destruct pending as [|m rest].
  { rewrite Hdone in * by done. exists c, [], None. unfold decode. rewrite Hr, Es. simpl.
    rewrite app_nil_r. split_and!; [done|..|by rewrite app_nil_r in Hm].
    split_and!; [done..|]. exists []. simpl. rewrite Es. done. }
  pose proof (pending_fits _ _ _ Hm) as [Hm1 Hm2]. pose proof (zlen_nonneg m) as Hm0.
  assert (Hfr : frames (m :: rest) = header (zlen m) ++ m ++ frames rest).
  { unfold frames, frame. simpl. by rewrite <- app_assoc. }
  rewrite Hfr in Hst.
  destruct (decide (length buf < head_size (zlen m))%nat) as [Hlt|Hge].
  - exists c, buf, None. unfold decode. rewrite Hr, Es.
    rewrite (decode_head_short c (zlen m) buf wire (m ++ frames rest)) by done.
    split; [done|]. simpl. rewrite app_nil_r. split.
    + split_and!; [done..|]. exists (m :: rest). simpl. rewrite Es, Hfr. done.
    + intros _ ->. apply (f_equal length) in Hst.
      rewrite !length_app, length_header in Hst. simpl in Hst. lia.
  - apply app_eq_inv in Hst as [(k & -> & Hk)|(k & E1 & E2)].
    + destruct (decode_payload (set_state (Data (zlen m)) c) k got wire m rest)
        as (c' & buf' & r & Hd & Hi & Hn); [done..|].
      exists c', buf', r. split_and!; [|done|by intros ? ?; destruct Hn].
      rewrite <- Hd. unfold decode. simpl. rewrite Hr, Es, decode_head_header by lia.
      rewrite (proj2 (Z.ltb_ge _ _)) by lia. done.
    + assert (k = []) as ->.
      { apply (f_equal length) in E1. rewrite length_app, length_header in E1.
        destruct k; simpl in *; [done|lia]. }
      rewrite app_nil_r in E1. subst buf. simpl in E2.
      destruct (decode_payload (set_state (Data (zlen m)) c) [] got wire m rest)
        as (c' & buf' & r & Hd & Hi & Hn); [done..|].
      exists c', buf', r. split_and!; [|done|by intros ? ?; destruct Hn].
      rewrite <- Hd. unfold decode. simpl. rewrite Hr, Es.
      rewrite <- (app_nil_r (header _)), decode_head_header by lia.
      rewrite (proj2 (Z.ltb_ge _ _)) by lia. done.
Qed.

Lemma rx_inv_step s s' : rx_inv s → rx_step s s' → rx_inv s'.
Proof.
  intros Hi Hs. destruct Hs as [c buf got chunk wire|c buf got wire c' buf' r Hd].
  - destruct Hi as (? & ? & p & ? & Hst). split_and!; [done..|]. exists p. simpl in *.
    by rewrite <- app_assoc.
  - destruct (rx_inv_decode _ Hi) as (? & ? & ? & E & Hi' & _). simpl in *.
    rewrite Hd in E. by simplify_eq.
Qed.

Lemma rx_inv_reach s s' : rx_inv s → rtc rx_step s s' → rx_inv s'.
Proof. intros Hi. induction 1; eauto using rx_inv_step. Qed.
End stream.

(** ** Bounds of the decoder *)

(** A decoder waiting for a payload waits for one within its limit. *)
Definition codec_ok (c : BytesCodec) : Prop :=
  match state c with
  | Head => True
  | Data n => 0 <= n <= max_packet_length c
  end.

Lemma byte_at_nonneg src i : bytes_ok src → 0 <= byte_at src i.
Proof.
  intros Hok. unfold byte_at. destruct (src !! i) eqn:E; simpl; [|lia].
  eapply (proj1 (Forall_lookup _ _)) in Hok; [|exact E]. unfold u8_ok in Hok. lia.
Qed.

Lemma head_value_nonneg hl src b0 : bytes_ok src → 0 <= b0 → 0 <= head_value hl b0 src.
Proof.
  intros Hok Hb. pose proof (byte_at_nonneg src 1 Hok). pose proof (byte_at_nonneg src 2 Hok).
  pose proof (byte_at_nonneg src 3 Hok). unfold head_value.
  repeat case_match; rewrite ?Z.lor_nonneg, ?Z.shiftl_nonneg; lia.
Qed.

(** What [decode_head] returns, and what it leaves. *)
Lemma decode_head_spec c src :
  bytes_ok src →
  match decode_head c src with
  | Ok None => True
  | Ok (Some (n, rest)) => 0 <= n <= max_packet_length c ∧ ∃ h, src = h ++ rest ∧ (1 <= length h <= 4)%nat
  | Err _ => src ≠ []
  end.
Proof.
  intros Hok. unfold decode_head. destruct src as [|b0 src]; [done|].
  destruct (zlen (b0 :: src) <? head_len_of b0) eqn:E1; [done|]. bool_simp.
  assert (Hb : 0 <= b0) by (inversion Hok; unfold u8_ok in *; lia).
  assert (Hh : 1 <= head_len_of b0 <= 4).
  { unfold head_len_of. change 3 with (Z.ones 2). rewrite Z.land_ones by lia.
    pose proof (Z.mod_pos_bound b0 (2 ^ 2)). lia. }
  destruct (max_packet_length c <? _) eqn:E2; [done|]. bool_simp. split.
  { split; [|lia]. rewrite Z.shiftr_nonneg. by apply head_value_nonneg. }
  exists (take (Z.to_nat (head_len_of b0)) (b0 :: src)). rewrite take_drop.
  split; [done|]. rewrite length_take. unfold zlen in *. lia.
Qed.

Lemma decode_data_spec n src data rest :
  0 <= n → decode_data n src = Some (data, rest) → src = data ++ rest ∧ zlen data = n.
Proof.
  unfold decode_data. intros Hn. case_match; [done|]. intros [= <- <-]. bool_simp.
  rewrite take_drop. split; [done|]. unfold zlen in *. rewrite length_take. lia.
Qed.

(** ** Properties *)

(** A message within the two limits encodes, and decoding its frame gives
    the message back, leaves whatever follows it in the buffer and returns the
    codec to its header state. *)
Theorem frame_roundtrip (c : BytesCodec) (data buf rest : bytes) :
  raw c = false → state c = Head → fits c data →
  ∃ out, encode c data buf = Ok (buf ++ out) ∧
         decode c (out ++ rest) = (c, rest, Ok (Some data)).
Proof.
  intros Hr Hs [H1 H2]. exists (frame data). split; [by apply encode_frame|].
  pose proof (zlen_nonneg data). destruct c as [st rw lim]. simpl in *. subst.
  unfold decode, frame. simpl. rewrite <- app_assoc, decode_head_header by lia. simpl.
  rewrite (proj2 (Z.ltb_ge _ _)) by lia. rewrite decode_data_app. done.
Qed.

Lemma frame_roundtrip_witness :
  ∃ out, encode new [7; 8; 9] [1] = Ok ([1] ++ out) ∧
         decode new (out ++ [12; 5]) = (new, [12; 5], Ok (Some [7; 8; 9])).
Proof.
  apply (frame_roundtrip new [7; 8; 9] [1] [12; 5]); [reflexivity|reflexivity|].
  split; vm_compute; discriminate.
Defined.

(** C2. However TCP cuts the sent bytes and whenever the receiver decodes, what
    it has got is a prefix of what was sent, in order; no reachable decode is an
    error; and once everything has arrived and [decode] asks for more, every
    message has been delivered. *)
Theorem stream_in_order (c : BytesCodec) (msgs : list bytes) (wire : bytes) (s : receiver) :
  raw c = false → state c = Head → Forall (fits c) msgs →
  send_all c msgs [] = Ok wire →
  rtc rx_step (mkRx c [] [] wire) s →
  rx_got s `prefix_of` msgs ∧
  ∃ c' buf' r, decode (rx_codec s) (rx_buf s) = (c', buf', Ok r) ∧
    (r = None → rx_wire s = [] → rx_got s = msgs).
Proof.
  intros Hr Hs Hf Hsend Hreach.
  rewrite send_all_frames in Hsend; [|done|by eapply Forall_impl; [exact Hf|intros ? []]].
  simplify_eq/=.
  assert (Hi : rx_inv (max_packet_length c) msgs s).
  { eapply (rx_inv_reach _ _ Hf); [|exact Hreach]. split_and!; [done..|].
    exists msgs. simpl. rewrite Hs. done. }
  split.
  - destruct Hi as (_ & _ & p & -> & _). by eexists.
  - destruct (rx_inv_decode _ _ Hf s Hi) as (c' & buf' & r & ? & _ & ?). by exists c', buf', r.
Qed.

Lemma stream_in_order_witness :
  ∃ s, rx_got s `prefix_of` [[1]; [2; 3]] ∧
  ∃ c' buf' r, decode (rx_codec s) (rx_buf s) = (c', buf', Ok r) ∧
    (r = None → rx_wire s = [] → rx_got s = [[1]; [2; 3]]).
Proof.
  exists (mkRx new [8] [[1]] [2; 3]).
  apply (stream_in_order new [[1]; [2; 3]] [4; 1; 8; 2; 3]);
    [reflexivity|reflexivity| |vm_compute; reflexivity|].
  - repeat constructor; vm_compute; discriminate.
  - eapply rtc_l; [apply (rx_read new [] [] [4; 1; 8] [2; 3])|].
    eapply rtc_l; [apply (rx_decode new [4; 1; 8] [] [2; 3] new [8] (Some [1])); reflexivity|].
    apply rtc_refl.
Defined.

(** The decoder never delivers more than its packet limit and never waits
    for more: from a decoder whose pending length is within the limit, every
    outcome keeps that, a delivered payload is a contiguous piece of the buffer
    no longer than the limit, and an error leaves the buffer untouched. *)
Theorem decode_within_limit (c : BytesCodec) (src : bytes) (c' : BytesCodec) (src' : bytes) r :
  raw c = false → codec_ok c → bytes_ok src → decode c src = (c', src', r) →
  codec_ok c' ∧ raw c' = false ∧
  match r with
  | Ok (Some d) => zlen d <= max_packet_length c ∧ ∃ h, src = h ++ d ++ src' ∧ (length h <= 4)%nat
  | Ok None => src' `suffix_of` src
  | Err _ => src' = src ∧ c' = c
  end.
Proof.
  intros Hr Hc Hok. unfold decode. rewrite Hr.
  pose proof (decode_head_spec c src Hok) as Hh. destruct (state c) as [|n] eqn:Es.
  - destruct (decode_head c src) as [[[n rest]|]|] eqn:E.
    2: { intros. simplify_eq. rewrite Hr. split_and!; [|done..]. unfold codec_ok. by rewrite ?Es. }
    2: { intros. simplify_eq. rewrite Hr. split_and!; [|done..]. unfold codec_ok. by rewrite ?Es. }
    destruct Hh as (Hn & h & -> & Hl).
    destruct (decode_data n rest) as [[d rest']|] eqn:Ed; intros; simplify_eq; simpl.
    + apply decode_data_spec in Ed as [-> Hd]; [|lia]. split_and!; [done..|lia|].
      exists h. split; [done|lia].
    + split_and!; [|done|by exists h]. unfold codec_ok. simpl. lia.
  - unfold codec_ok in Hc. rewrite Es in Hc.
    destruct (decode_data n src) as [[d rest']|] eqn:Ed; intros; simplify_eq; simpl.
    + apply decode_data_spec in Ed as [-> Hd]; [|lia]. split_and!; [done..|lia|].
      exists []. split; [done|simpl; lia].
    + split_and!; [|done..]. unfold codec_ok. rewrite Es. lia.
Qed.

Lemma decode_within_limit_witness :
  let c := set_max_packet_length 2 new in
  codec_ok c ∧ raw c = false ∧ [12; 1; 2; 3] = [12; 1; 2; 3] ∧ c = c.
Proof.
  exact (decode_within_limit (set_max_packet_length 2 new) [12; 1; 2; 3] _ _ (Err TooBigPacket)
    eq_refl I (ltac:(repeat constructor; lia)) eq_refl).
Defined.

End BytesCodec.
