(* ===== verification/AddrMangle.v ===== *)
(** * Socket addresses and their mangling: [libs/core-common/src/lib.rs]

    The rendezvous protocol carries the address of one peer to the other inside
    a byte field, mangled with a timestamp so that routers do not recognise and
    rewrite it.  This file has the address types of [std::net] the server uses
    and [try_into_v4], [AddrMangle::encode] and [AddrMangle::decode], and shows
    that decoding undoes encoding at any time of day. *)
From S2P Require Import Prelude.
Local Open Scope Z_scope.

(** ** Addresses ([std::net]) *)

(** An IPv4 address is its four octets, an IPv6 address its sixteen. *)
Inductive IpAddr : Type :=
| IpV4 (a b c d : Z)
| IpV6 (octets : list Z).

(** [SocketAddr]; the flow label and scope of an IPv6 address are zero
    throughout the program. *)
Record SocketAddr : Type := mkAddr { ip : IpAddr; port : Z }.

#[export] Instance IpAddr_eq_dec : EqDecision IpAddr.
Proof. solve_decision. Defined.
#[export] Instance SocketAddr_eq_dec : EqDecision SocketAddr.
Proof. solve_decision. Defined.

#[export] Instance IpAddr_countable : Countable IpAddr.
Proof.
  refine (inj_countable' (λ x, match x with IpV4 a b c d => inl (a, b, c, d) | IpV6 o => inr o end)
    (λ y, match y with inl (a, b, c, d) => IpV4 a b c d | inr o => IpV6 o end) _).
  by intros [].
Defined.
#[export] Instance SocketAddr_countable : Countable SocketAddr.
Proof.
  refine (inj_countable' (λ a, (ip a, port a)) (λ p, mkAddr p.1 p.2) _). by intros [].
Defined.

Definition u16_ok (n : Z) : Prop := 0 <= n < 65536.

Definition ip_ok (i : IpAddr) : Prop :=
  match i with
  | IpV4 a b c d => bytes_ok [a; b; c; d]
  | IpV6 o => bytes_ok o ∧ length o = 16%nat
  end.

Definition addr_ok (a : SocketAddr) : Prop := ip_ok (ip a) ∧ u16_ok (port a).

Definition is_ipv4 (i : IpAddr) : bool := match i with IpV4 _ _ _ _ => true | IpV6 _ => false end.

(** [IpAddr::is_loopback]: 127.0.0.0/8, and [::1] alone. *)
Definition is_loopback (i : IpAddr) : bool :=
  match i with
  | IpV4 a _ _ _ => a =? 127
  | IpV6 o => bool_decide (o = replicate 15 0 ++ [1])
  end.

(** [Ipv6Addr::to_ipv4]: the addresses [::a.b.c.d] and [::ffff:a.b.c.d]. *)
Definition to_ipv4 (o : list Z) : option IpAddr :=
  let lead := take 10 o in
  let mid := take 2 (drop 10 o) in
  match drop 12 o with
  | [a; b; c; d] =>
    if bool_decide (lead = replicate 10 0) && (bool_decide (mid = [0; 0]) || bool_decide (mid = [255; 255]))
    then Some (IpV4 a b c d) else None
  | _ => None
  end.

(** [try_into_v4] *)
Definition try_into_v4 (addr : SocketAddr) : SocketAddr :=
  match ip addr with
  | IpV6 o =>
    if negb (is_loopback (ip addr)) then
      match to_ipv4 o with
      | Some v4 => mkAddr v4 (port addr)
      | None => addr
      end
    else addr
  | IpV4 _ _ _ _ => addr
  end.

Lemma to_ipv4_ok o i : bytes_ok o → to_ipv4 o = Some i → ip_ok i ∧ is_ipv4 i = true.
Proof.
  unfold to_ipv4. intros Ho. assert (Hd : bytes_ok (drop 12 o)) by (by apply Forall_drop).
  case_all; intros; simplify_eq; done.
Qed.

Lemma try_into_v4_ok addr : addr_ok addr → addr_ok (try_into_v4 addr).
Proof.
  destruct addr as [[a b c d|o] p]; intros [Hi Hp]; [done|]. unfold try_into_v4. cbn [ip port] in *.
  case_match; [|done]. case_match; [|done]. split; [|done].
  destruct Hi. by eapply to_ipv4_ok.
Qed.

(** [try_into_v4] is a normal form. *)
Lemma try_into_v4_idem addr : try_into_v4 (try_into_v4 addr) = try_into_v4 addr.
Proof.
  destruct addr as [[a b c d|o] p]; [done|]. unfold try_into_v4 at 2 3. cbn [ip port].
  destruct (negb _) eqn:E1; [|unfold try_into_v4; cbn [ip]; by rewrite E1].
  destruct (to_ipv4 o) as [i|] eqn:E2.
  - unfold to_ipv4 in E2. revert E2. case_all; intros; by simplify_eq.
  - unfold try_into_v4. cbn [ip]. by rewrite E1, E2.
Qed.

Module AddrMangle.

(** The padding bytes [encode] drops: the zero bytes at the high end. *)
Fixpoint strip_zeros_rev (l : bytes) : bytes :=
  match l with
  | b :: r => if b =? 0 then strip_zeros_rev r else l
  | [] => []
  end.
Definition strip_padding (l : bytes) : bytes := reverse (strip_zeros_rev (reverse l)).

(** The number [encode] packs: address, time and port. *)
Definition mangle (ip port tm : Z) : Z :=
  Z.lor (Z.lor (Z.shiftl (ip + tm) 49) (Z.shiftl tm 17)) (port + Z.land tm 0xFFFF).

(** [AddrMangle::encode] at clock reading [micros] (since the epoch). *)
Definition encode (micros : Z) (addr : SocketAddr) : bytes :=
  let addr := try_into_v4 addr in
  match ip addr with
  | IpV4 a b c d =>
    let tm := wrap_u 32 micros in
    let v := mangle (le_num [a; b; c; d]) (port addr) tm in
    strip_padding (le_bytes 16 v)
  | IpV6 o => o ++ le_bytes 2 (port addr)
  end.

(** [Config::get_any_listen_addr(false)]: the unspecified IPv6 address, port 0. *)
Definition any_addr_v6 : SocketAddr := mkAddr (IpV6 (replicate 16 0)) 0.

(** The octets of a number, [u32::to_le_bytes]. *)
Definition ip_of_u32 (n : Z) : IpAddr :=
  IpV4 (n mod 256) (n / 256 mod 256) (n / 256 / 256 mod 256) (n / 256 / 256 / 256 mod 256).

(** [AddrMangle::decode]; the two [u128] subtractions wrap as they do in a
    release build. *)
Definition decode (bs : bytes) : SocketAddr :=
  if 16 <? zlen bs then
    if negb (zlen bs =? 18) then any_addr_v6
    else mkAddr (IpV6 (take 16 bs)) (le_num (drop 16 bs))
  else
    let number := le_num (bs ++ replicate (16 - length bs) 0) in
    let tm := Z.land (Z.shiftr number 17) 0xFFFFFFFF in
    let ip := wrap_u 32 (wrap_u 128 (Z.shiftr number 49 - tm)) in
    let port := wrap_u 128 (Z.land number 0xFFFFFF - Z.land tm 0xFFFF) in
    mkAddr (ip_of_u32 ip) (wrap_u 16 port).

(** Whether the subtractions of [decode] stay above zero, so that a debug build
    does not panic. *)
Definition decode_no_underflow (bs : bytes) : bool :=
  if 16 <? zlen bs then true
  else
    let number := le_num (bs ++ replicate (16 - length bs) 0) in
    let tm := Z.land (Z.shiftr number 17) 0xFFFFFFFF in
    (tm <=? Z.shiftr number 49) && (Z.land tm 0xFFFF <=? Z.land number 0xFFFFFF).

(** ** Padding *)

Lemma strip_zeros_rev_split l : ∃ n, l = replicate n 0 ++ strip_zeros_rev l.
Proof.
  induction l as [|b r [n IH]]; [by exists 0%nat|]. simpl. case_match; bool_simp.
  - subst. exists (S n). simpl. by f_equal.
  - by exists 0%nat.
Qed.

Lemma strip_padding_split l : ∃ n, l = strip_padding l ++ replicate n 0.
Proof.
  unfold strip_padding. destruct (strip_zeros_rev_split (reverse l)) as [n E].
  exists n. rewrite <- (reverse_involutive l) at 1. rewrite E at 1.
  rewrite reverse_app, reverse_replicate. done.
Qed.

(** ** The packed number *)

Lemma land_ones_mod x k : 0 <= k → Z.land x (Z.ones k) = x mod 2 ^ k.
Proof. apply Z.land_ones. Qed.

Lemma mangle_arith ip port tm :
  0 <= ip < 2 ^ 32 → 0 <= port < 2 ^ 16 → 0 <= tm < 2 ^ 32 →
  mangle ip port tm = (port + tm mod 2 ^ 16) + (tm + (ip + tm) * 2 ^ 32) * 2 ^ 17.
Proof.
  intros Hip Hport Htm. unfold mangle. change 0xFFFF with (Z.ones 16).
  rewrite land_ones_mod by lia. pose proof (Z.mod_pos_bound tm (2 ^ 16) ltac:(lia)).
  rewrite Z.lor_comm, !Z.shiftl_mul_pow2 by lia.
  replace (2 ^ 49) with (2 ^ 32 * 2 ^ 17) by lia.
  rewrite (Z.lor_comm (_ * _) (tm * _)).
  rewrite Z.mul_assoc, <- !Z.shiftl_mul_pow2 with (n := 17) by lia.
  rewrite <- Z.shiftl_lor. rewrite lor_low_high by lia.
  rewrite Z.shiftl_mul_pow2 by lia. rewrite lor_low_high by lia. lia.
Qed.

Lemma mangle_bound ip port tm :
  0 <= ip < 2 ^ 32 → 0 <= port < 2 ^ 16 → 0 <= tm < 2 ^ 32 →
  0 <= mangle ip port tm < 2 ^ 128.
Proof.
  intros. rewrite mangle_arith by done. pose proof (Z.mod_pos_bound tm (2 ^ 16) ltac:(lia)). lia.
Qed.

(** The fields [decode] extracts from a packed number. *)
Lemma mangle_fields ip port tm :
  0 <= ip < 2 ^ 32 → 0 <= port < 2 ^ 16 → 0 <= tm < 2 ^ 32 →
  let v := mangle ip port tm in
  Z.land (Z.shiftr v 17) 0xFFFFFFFF = tm ∧ Z.shiftr v 49 = ip + tm ∧
  ∃ hi, 0 <= hi < 2 ^ 7 ∧ Z.land v 0xFFFFFF = port + tm mod 2 ^ 16 + hi * 2 ^ 17.
Proof.
  intros Hip Hport Htm v. pose proof (Z.mod_pos_bound tm (2 ^ 16) ltac:(lia)).
  unfold v. rewrite mangle_arith by done.
  change 0xFFFFFFFF with (Z.ones 32). change 0xFFFFFF with (Z.ones 24).
  rewrite !land_ones_mod, !Z.shiftr_div_pow2 by lia. split_and!.
  - rewrite Z.div_add by lia. rewrite (Z.div_small (port + _)) by lia.
    rewrite Z.add_0_l, Z_mod_plus_full, Z.mod_small by lia. done.
  - change (2 ^ 49) with (2 ^ 17 * 2 ^ 32). rewrite <- Z.div_div by lia.
    rewrite Z.div_add by lia. rewrite (Z.div_small (port + _)) by lia.
    rewrite Z.add_0_l, Z.div_add by lia. rewrite Z.div_small by lia. lia.
  - exists ((tm + (ip + tm) * 2 ^ 32) mod 2 ^ 7).
    pose proof (Z.mod_pos_bound (tm + (ip + tm) * 2 ^ 32) (2 ^ 7) ltac:(lia)).
    split; [lia|]. change (2 ^ 24) with (2 ^ 17 * 2 ^ 7). rewrite Z.rem_mul_r by lia.
    rewrite Z_mod_plus_full, Z.mod_small by lia. rewrite Z.div_add by lia.
    rewrite Z.div_small by lia. rewrite Z.add_0_l. lia.
Qed.

Lemma ip_of_le_num a b c d : bytes_ok [a; b; c; d] → ip_of_u32 (le_num [a; b; c; d]) = IpV4 a b c d.
Proof.
  unfold bytes_ok. rewrite !Forall_cons. intros. destruct_and?.
  unfold ip_of_u32. cbn [le_num]. by rewrite !byte_div, !byte_mod by done.
Qed.

Lemma le_num_bound l : bytes_ok l → 0 <= le_num l < 2 ^ (8 * zlen l).
Proof.
  induction 1 as [|b l Hb _ IH]; [done|]. unfold zlen in *. cbn [le_num length].
  replace (8 * Z.of_nat (S (length l))) with (8 + 8 * Z.of_nat (length l)) by lia.
  rewrite Z.pow_add_r by lia. change (2 ^ 8) with 256. unfold u8_ok in Hb. lia.
Qed.

(** Decoding the unpadded image of a packed number. *)
Lemma decode_strip ip port tm :
  0 <= ip < 2 ^ 32 → 0 <= port < 2 ^ 16 → 0 <= tm < 2 ^ 32 →
  let bs := strip_padding (le_bytes 16 (mangle ip port tm)) in
  decode bs = mkAddr (ip_of_u32 ip) port ∧ decode_no_underflow bs = true.
Proof.
  intros Hip Hport Htm bs. destruct (strip_padding_split (le_bytes 16 (mangle ip port tm))) as [n E].
  fold bs in E. pose proof (length_le_bytes 16 (mangle ip port tm)) as Hl.
  rewrite E, length_app, length_replicate in Hl.
  assert (Hpad : bs ++ replicate (16 - length bs) 0 = le_bytes 16 (mangle ip port tm)).
  { rewrite E. do 2 f_equal. lia. }
  destruct (mangle_fields ip port tm Hip Hport Htm) as (Ftm & Fip & hi & Hhi & Fport).
  pose proof (Z.mod_pos_bound tm (2 ^ 16) ltac:(lia)).
  unfold decode, decode_no_underflow. unfold zlen. rewrite (proj2 (Z.ltb_ge _ _)) by lia.
  rewrite Hpad, le_num_le_bytes, Z.mod_small by (by apply mangle_bound).
  rewrite Ftm, Fip, Fport. change 0xFFFF with (Z.ones 16). rewrite land_ones_mod by lia.
  split.
  - rewrite Z.add_simpl_r. rewrite (wrap_u_small 128 ip) by lia. rewrite (wrap_u_small 32) by lia.
    rewrite (wrap_u_small 128) by lia. f_equal. unfold wrap_u.
    replace (port + tm mod 2 ^ 16 + hi * 2 ^ 17 - tm mod 2 ^ 16) with (port + (hi * 2) * 2 ^ 16) by lia.
    rewrite Z_mod_plus_full. apply Z.mod_small. lia.
  - apply andb_true_iff. rewrite !Z.leb_le. lia.
Qed.

(** C19. Whatever the time of day, decoding a mangled address gives the address
    back (an IPv4-compatible IPv6 address as the IPv4 address it stands for),
    and no subtraction of [decode] underflows. *)
Theorem mangle_roundtrip (micros : Z) (addr : SocketAddr) :
  addr_ok addr →
  decode (encode micros addr) = try_into_v4 addr ∧
  decode_no_underflow (encode micros addr) = true.
Proof.
  intros Hok%try_into_v4_ok. unfold encode.
  destruct (try_into_v4 addr) as [[a b c d|o] p]; destruct Hok as [Hi Hp]; cbn [ip AddrMangle.port port] in *.
  - pose proof (le_num_bound _ Hi). destruct (decode_strip (le_num [a; b; c; d]) p (wrap_u 32 micros))
      as [E1 E2]; [done|done|apply Z.mod_pos_bound; lia|].
    rewrite E1, E2, ip_of_le_num by done. done.
  - destruct Hi as [Ho Hl]. unfold decode, decode_no_underflow, zlen.
    rewrite length_app, length_le_bytes, Hl. simpl Nat.add. eval_of_nat. simpl.
    split; [|done]. f_equal.
    + f_equal. rewrite <- Hl. apply take_app_length.
    + rewrite <- Hl, drop_app_length. change (le_num (le_bytes 2 p) = p).
      rewrite le_num_le_bytes. apply Z.mod_small. unfold u16_ok in Hp. lia.
Qed.

Lemma mangle_roundtrip_witness :
  let a := mkAddr (IpV6 [0;0;0;0;0;0;0;0;0;0;255;255;192;168;1;7]) 21116 in
  decode (encode 1700000000123456 a) = try_into_v4 a ∧
  decode_no_underflow (encode 1700000000123456 a) = true.
Proof.
  apply (mangle_roundtrip 1700000000123456
    (mkAddr (IpV6 [0;0;0;0;0;0;0;0;0;0;255;255;192;168;1;7]) 21116)).
  repeat split; simpl; repeat constructor; try lia; done.
Defined.

End AddrMangle.
