(* ===== verification/Proto.v ===== *)
(** * The rendezvous protocol: [libs/core-common/protos/rendezvous.proto]

    The messages hbbs, hbbr and the clients exchange, with the fields of the
    protocol file.  A proto3 enum field holds any [i32] on the wire, so it is a
    [Z] here, read through [enum_value]; [int32] fields are [Z]; a [string] is
    its UTF-8 bytes.  [default_*] are the values [..Default::default()] fills
    in. *)
From S2P Require Import Prelude.
Local Open Scope Z_scope.

(** ** Enumerations *)

Inductive NatType : Type :=
| UNKNOWN_NAT
| ASYMMETRIC
| SYMMETRIC.
#[export] Instance NatType_eq_dec : EqDecision NatType.
Proof. solve_decision. Defined.
(** [EnumOrUnknown::from] *)
Definition NatType_value (e : NatType) : Z :=
  match e with
  | UNKNOWN_NAT => 0
  | ASYMMETRIC => 1
  | SYMMETRIC => 2
  end.
(** [enum_value] *)
Definition NatType_enum (v : Z) : option NatType :=
  match v with
  | 0 => Some UNKNOWN_NAT
  | 1 => Some ASYMMETRIC
  | 2 => Some SYMMETRIC
  | _ => None
  end.
Lemma NatType_enum_value e : NatType_enum (NatType_value e) = Some e.
Proof. by destruct e. Qed.

Inductive ConnType : Type :=
| DEFAULT_CONN
| FILE_TRANSFER
| PORT_FORWARD
| RDP
| VIEW_CAMERA
| TERMINAL.
#[export] Instance ConnType_eq_dec : EqDecision ConnType.
Proof. solve_decision. Defined.
(** [EnumOrUnknown::from] *)
Definition ConnType_value (e : ConnType) : Z :=
  match e with
  | DEFAULT_CONN => 0
  | FILE_TRANSFER => 1
  | PORT_FORWARD => 2
  | RDP => 3
  | VIEW_CAMERA => 4
  | TERMINAL => 5
  end.
(** [enum_value] *)
Definition ConnType_enum (v : Z) : option ConnType :=
  match v with
  | 0 => Some DEFAULT_CONN
  | 1 => Some FILE_TRANSFER
  | 2 => Some PORT_FORWARD
  | 3 => Some RDP
  | 4 => Some VIEW_CAMERA
  | 5 => Some TERMINAL
  | _ => None
  end.
Lemma ConnType_enum_value e : ConnType_enum (ConnType_value e) = Some e.
Proof. by destruct e. Qed.

Inductive RegisterResult : Type :=
| OK
| UUID_MISMATCH
| ID_EXISTS
| TOO_FREQUENT
| INVALID_ID_FORMAT
| NOT_SUPPORT
| SERVER_ERROR.
#[export] Instance RegisterResult_eq_dec : EqDecision RegisterResult.
Proof. solve_decision. Defined.
(** [EnumOrUnknown::from] *)
Definition RegisterResult_value (e : RegisterResult) : Z :=
  match e with
  | OK => 0
  | UUID_MISMATCH => 2
  | ID_EXISTS => 3
  | TOO_FREQUENT => 4
  | INVALID_ID_FORMAT => 5
  | NOT_SUPPORT => 6
  | SERVER_ERROR => 7
  end.
(** [enum_value] *)
Definition RegisterResult_enum (v : Z) : option RegisterResult :=
  match v with
  | 0 => Some OK
  | 2 => Some UUID_MISMATCH
  | 3 => Some ID_EXISTS
  | 4 => Some TOO_FREQUENT
  | 5 => Some INVALID_ID_FORMAT
  | 6 => Some NOT_SUPPORT
  | 7 => Some SERVER_ERROR
  | _ => None
  end.
Lemma RegisterResult_enum_value e : RegisterResult_enum (RegisterResult_value e) = Some e.
Proof. by destruct e. Qed.

Inductive PunchFailure : Type :=
| ID_NOT_EXIST
| OFFLINE
| LICENSE_MISMATCH
| LICENSE_OVERUSE.
#[export] Instance PunchFailure_eq_dec : EqDecision PunchFailure.
Proof. solve_decision. Defined.
(** [EnumOrUnknown::from] *)
Definition PunchFailure_value (e : PunchFailure) : Z :=
  match e with
  | ID_NOT_EXIST => 0
  | OFFLINE => 2
  | LICENSE_MISMATCH => 3
  | LICENSE_OVERUSE => 4
  end.
(** [enum_value] *)
Definition PunchFailure_enum (v : Z) : option PunchFailure :=
  match v with
  | 0 => Some ID_NOT_EXIST
  | 2 => Some OFFLINE
  | 3 => Some LICENSE_MISMATCH
  | 4 => Some LICENSE_OVERUSE
  | _ => None
  end.
Lemma PunchFailure_enum_value e : PunchFailure_enum (PunchFailure_value e) = Some e.
Proof. by destruct e. Qed.

(** ** Messages *)

Record RegisterPeer : Type := mkRegisterPeer {
  rp_id : string;
  rp_serial : Z;
}.
#[export] Instance RegisterPeer_eq_dec : EqDecision RegisterPeer.
Proof. solve_decision. Defined.
Definition default_RegisterPeer : RegisterPeer :=
  {| rp_id := ""%string;
     rp_serial := 0 |}.

Record RegisterPeerResponse : Type := mkRegisterPeerResponse {
  rpr_request_pk : bool;
}.
#[export] Instance RegisterPeerResponse_eq_dec : EqDecision RegisterPeerResponse.
Proof. solve_decision. Defined.
Definition default_RegisterPeerResponse : RegisterPeerResponse :=
  {| rpr_request_pk := false |}.

Record PunchHoleRequest : Type := mkPunchHoleRequest {
  phq_id : string;
  phq_nat_type : Z;
  phq_licence_key : string;
  phq_conn_type : Z;
  phq_token : string;
  phq_version : string;
  phq_udp_port : Z;
  phq_force_relay : bool;
  phq_upnp_port : Z;
  phq_socket_addr_v6 : bytes;
}.
#[export] Instance PunchHoleRequest_eq_dec : EqDecision PunchHoleRequest.
Proof. solve_decision. Defined.
Definition default_PunchHoleRequest : PunchHoleRequest :=
  {| phq_id := ""%string;
     phq_nat_type := 0;
     phq_licence_key := ""%string;
     phq_conn_type := 0;
     phq_token := ""%string;
     phq_version := ""%string;
     phq_udp_port := 0;
     phq_force_relay := false;
     phq_upnp_port := 0;
     phq_socket_addr_v6 := [] |}.

Record PunchHole : Type := mkPunchHole {
  ph_socket_addr : bytes;
  ph_relay_server : string;
  ph_nat_type : Z;
  ph_udp_port : Z;
  ph_force_relay : bool;
  ph_upnp_port : Z;
  ph_socket_addr_v6 : bytes;
  ph_control_permissions : option Z;
}.
#[export] Instance PunchHole_eq_dec : EqDecision PunchHole.
Proof. solve_decision. Defined.
Definition default_PunchHole : PunchHole :=
  {| ph_socket_addr := [];
     ph_relay_server := ""%string;
     ph_nat_type := 0;
     ph_udp_port := 0;
     ph_force_relay := false;
     ph_upnp_port := 0;
     ph_socket_addr_v6 := [];
     ph_control_permissions := None |}.

Record TestNatRequest : Type := mkTestNatRequest {
  tnq_serial : Z;
}.
#[export] Instance TestNatRequest_eq_dec : EqDecision TestNatRequest.
Proof. solve_decision. Defined.
Definition default_TestNatRequest : TestNatRequest :=
  {| tnq_serial := 0 |}.

Record ConfigUpdate : Type := mkConfigUpdate {
  cu_serial : Z;
  cu_rendezvous_servers : list string;
}.
#[export] Instance ConfigUpdate_eq_dec : EqDecision ConfigUpdate.
Proof. solve_decision. Defined.
Definition default_ConfigUpdate : ConfigUpdate :=
  {| cu_serial := 0;
     cu_rendezvous_servers := [] |}.

Record TestNatResponse : Type := mkTestNatResponse {
  tnr_port : Z;
  tnr_cu : option ConfigUpdate;
}.
#[export] Instance TestNatResponse_eq_dec : EqDecision TestNatResponse.
Proof. solve_decision. Defined.
Definition default_TestNatResponse : TestNatResponse :=
  {| tnr_port := 0;
     tnr_cu := None |}.

Record PunchHoleSent : Type := mkPunchHoleSent {
  phs_socket_addr : bytes;
  phs_id : string;
  phs_relay_server : string;
  phs_nat_type : Z;
  phs_version : string;
  phs_upnp_port : Z;
  phs_socket_addr_v6 : bytes;
}.
#[export] Instance PunchHoleSent_eq_dec : EqDecision PunchHoleSent.
Proof. solve_decision. Defined.
Definition default_PunchHoleSent : PunchHoleSent :=
  {| phs_socket_addr := [];
     phs_id := ""%string;
     phs_relay_server := ""%string;
     phs_nat_type := 0;
     phs_version := ""%string;
     phs_upnp_port := 0;
     phs_socket_addr_v6 := [] |}.

Record RegisterPk : Type := mkRegisterPk {
  rk_id : string;
  rk_uuid : bytes;
  rk_pk : bytes;
  rk_old_id : string;
  rk_no_register_device : bool;
  rk_user_token : string;
}.
#[export] Instance RegisterPk_eq_dec : EqDecision RegisterPk.
Proof. solve_decision. Defined.
Definition default_RegisterPk : RegisterPk :=
  {| rk_id := ""%string;
     rk_uuid := [];
     rk_pk := [];
     rk_old_id := ""%string;
     rk_no_register_device := false;
     rk_user_token := ""%string |}.

Record RegisterPkResponse : Type := mkRegisterPkResponse {
  rkr_result : Z;
  rkr_keep_alive : Z;
}.
#[export] Instance RegisterPkResponse_eq_dec : EqDecision RegisterPkResponse.
Proof. solve_decision. Defined.
Definition default_RegisterPkResponse : RegisterPkResponse :=
  {| rkr_result := 0;
     rkr_keep_alive := 0 |}.

(** [PunchHoleResponse.union] *)
Inductive PunchHoleResponseUnion : Type :=
| PhrNatType (t : Z)
| PhrIsLocal (b : bool).
#[export] Instance PunchHoleResponseUnion_eq_dec : EqDecision PunchHoleResponseUnion.
Proof. solve_decision. Defined.

Record PunchHoleResponse : Type := mkPunchHoleResponse {
  phr_socket_addr : bytes;
  phr_pk : bytes;
  phr_failure : Z;
  phr_relay_server : string;
  phr_union : option PunchHoleResponseUnion;
  phr_other_failure : string;
  phr_feedback : Z;
  phr_is_udp : bool;
  phr_upnp_port : Z;
  phr_socket_addr_v6 : bytes;
}.
#[export] Instance PunchHoleResponse_eq_dec : EqDecision PunchHoleResponse.
Proof. solve_decision. Defined.
Definition default_PunchHoleResponse : PunchHoleResponse :=
  {| phr_socket_addr := [];
     phr_pk := [];
     phr_failure := 0;
     phr_relay_server := ""%string;
     phr_union := None;
     phr_other_failure := ""%string;
     phr_feedback := 0;
     phr_is_udp := false;
     phr_upnp_port := 0;
     phr_socket_addr_v6 := [] |}.

Record RequestRelay : Type := mkRequestRelay {
  rr_id : string;
  rr_uuid : string;
  rr_socket_addr : bytes;
  rr_relay_server : string;
  rr_secure : bool;
  rr_licence_key : string;
  rr_conn_type : Z;
  rr_token : string;
  rr_control_permissions : option Z;
}.
#[export] Instance RequestRelay_eq_dec : EqDecision RequestRelay.
Proof. solve_decision. Defined.
Definition default_RequestRelay : RequestRelay :=
  {| rr_id := ""%string;
     rr_uuid := ""%string;
     rr_socket_addr := [];
     rr_relay_server := ""%string;
     rr_secure := false;
     rr_licence_key := ""%string;
     rr_conn_type := 0;
     rr_token := ""%string;
     rr_control_permissions := None |}.

(** [RelayResponse.union] *)
Inductive RelayResponseUnion : Type :=
| RlrId (id : string)
| RlrPk (pk : bytes).
#[export] Instance RelayResponseUnion_eq_dec : EqDecision RelayResponseUnion.
Proof. solve_decision. Defined.

Record RelayResponse : Type := mkRelayResponse {
  rlr_socket_addr : bytes;
  rlr_uuid : string;
  rlr_relay_server : string;
  rlr_union : option RelayResponseUnion;
  rlr_refuse_reason : string;
  rlr_version : string;
  rlr_feedback : Z;
  rlr_socket_addr_v6 : bytes;
  rlr_upnp_port : Z;
}.
#[export] Instance RelayResponse_eq_dec : EqDecision RelayResponse.
Proof. solve_decision. Defined.
Definition default_RelayResponse : RelayResponse :=
  {| rlr_socket_addr := [];
     rlr_uuid := ""%string;
     rlr_relay_server := ""%string;
     rlr_union := None;
     rlr_refuse_reason := ""%string;
     rlr_version := ""%string;
     rlr_feedback := 0;
     rlr_socket_addr_v6 := [];
     rlr_upnp_port := 0 |}.

Record SoftwareUpdate : Type := mkSoftwareUpdate {
  su_url : string;
}.
#[export] Instance SoftwareUpdate_eq_dec : EqDecision SoftwareUpdate.
Proof. solve_decision. Defined.
Definition default_SoftwareUpdate : SoftwareUpdate :=
  {| su_url := ""%string |}.

Record FetchLocalAddr : Type := mkFetchLocalAddr {
  fla_socket_addr : bytes;
  fla_relay_server : string;
  fla_socket_addr_v6 : bytes;
  fla_control_permissions : option Z;
}.
#[export] Instance FetchLocalAddr_eq_dec : EqDecision FetchLocalAddr.
Proof. solve_decision. Defined.
Definition default_FetchLocalAddr : FetchLocalAddr :=
  {| fla_socket_addr := [];
     fla_relay_server := ""%string;
     fla_socket_addr_v6 := [];
     fla_control_permissions := None |}.

Record LocalAddr : Type := mkLocalAddr {
  la_socket_addr : bytes;
  la_local_addr : bytes;
  la_relay_server : string;
  la_id : string;
  la_version : string;
  la_socket_addr_v6 : bytes;
}.
#[export] Instance LocalAddr_eq_dec : EqDecision LocalAddr.
Proof. solve_decision. Defined.
Definition default_LocalAddr : LocalAddr :=
  {| la_socket_addr := [];
     la_local_addr := [];
     la_relay_server := ""%string;
     la_id := ""%string;
     la_version := ""%string;
     la_socket_addr_v6 := [] |}.

Record PeerDiscovery : Type := mkPeerDiscovery {
  pd_cmd : string;
  pd_mac : string;
  pd_id : string;
  pd_username : string;
  pd_hostname : string;
  pd_platform : string;
  pd_misc : string;
}.
#[export] Instance PeerDiscovery_eq_dec : EqDecision PeerDiscovery.
Proof. solve_decision. Defined.
Definition default_PeerDiscovery : PeerDiscovery :=
  {| pd_cmd := ""%string;
     pd_mac := ""%string;
     pd_id := ""%string;
     pd_username := ""%string;
     pd_hostname := ""%string;
     pd_platform := ""%string;
     pd_misc := ""%string |}.

Record OnlineRequest : Type := mkOnlineRequest {
  oq_id : string;
  oq_peers : list string;
}.
#[export] Instance OnlineRequest_eq_dec : EqDecision OnlineRequest.
Proof. solve_decision. Defined.
Definition default_OnlineRequest : OnlineRequest :=
  {| oq_id := ""%string;
     oq_peers := [] |}.

Record OnlineResponse : Type := mkOnlineResponse {
  or_states : bytes;
}.
#[export] Instance OnlineResponse_eq_dec : EqDecision OnlineResponse.
Proof. solve_decision. Defined.
Definition default_OnlineResponse : OnlineResponse :=
  {| or_states := [] |}.

Record KeyExchange : Type := mkKeyExchange {
  ke_keys : list bytes;
}.
#[export] Instance KeyExchange_eq_dec : EqDecision KeyExchange.
Proof. solve_decision. Defined.
Definition default_KeyExchange : KeyExchange :=
  {| ke_keys := [] |}.

Record HealthCheck : Type := mkHealthCheck {
  hc_token : string;
}.
#[export] Instance HealthCheck_eq_dec : EqDecision HealthCheck.
Proof. solve_decision. Defined.
Definition default_HealthCheck : HealthCheck :=
  {| hc_token := ""%string |}.

Record HttpProxyRequest : Type := mkHttpProxyRequest {
  hpq_method : string;
  hpq_path : string;
  hpq_headers : list (string * string);
  hpq_body : bytes;
}.
#[export] Instance HttpProxyRequest_eq_dec : EqDecision HttpProxyRequest.
Proof. solve_decision. Defined.
Definition default_HttpProxyRequest : HttpProxyRequest :=
  {| hpq_method := ""%string;
     hpq_path := ""%string;
     hpq_headers := [];
     hpq_body := [] |}.

Record HttpProxyResponse : Type := mkHttpProxyResponse {
  hpr_status : Z;
  hpr_headers : list (string * string);
  hpr_body : bytes;
  hpr_error : string;
}.
#[export] Instance HttpProxyResponse_eq_dec : EqDecision HttpProxyResponse.
Proof. solve_decision. Defined.
Definition default_HttpProxyResponse : HttpProxyResponse :=
  {| hpr_status := 0;
     hpr_headers := [];
     hpr_body := [];
     hpr_error := ""%string |}.

(** [rendezvous_message::Union]: the variants of a message. *)
Inductive Union : Type :=
| U_RegisterPeer (m : RegisterPeer)
| U_RegisterPeerResponse (m : RegisterPeerResponse)
| U_PunchHoleRequest (m : PunchHoleRequest)
| U_PunchHole (m : PunchHole)
| U_PunchHoleSent (m : PunchHoleSent)
| U_PunchHoleResponse (m : PunchHoleResponse)
| U_FetchLocalAddr (m : FetchLocalAddr)
| U_LocalAddr (m : LocalAddr)
| U_ConfigureUpdate (m : ConfigUpdate)
| U_RegisterPk (m : RegisterPk)
| U_RegisterPkResponse (m : RegisterPkResponse)
| U_SoftwareUpdate (m : SoftwareUpdate)
| U_RequestRelay (m : RequestRelay)
| U_RelayResponse (m : RelayResponse)
| U_TestNatRequest (m : TestNatRequest)
| U_TestNatResponse (m : TestNatResponse)
| U_PeerDiscovery (m : PeerDiscovery)
| U_OnlineRequest (m : OnlineRequest)
| U_OnlineResponse (m : OnlineResponse)
| U_KeyExchange (m : KeyExchange)
| U_Hc (m : HealthCheck)
| U_HttpProxyRequest (m : HttpProxyRequest)
| U_HttpProxyResponse (m : HttpProxyResponse).
#[export] Instance Union_eq_dec : EqDecision Union.
Proof. solve_decision. Defined.

(** [RendezvousMessage]; [None] is a message with no variant set. *)
Record RendezvousMessage : Type := mkMsg { union : option Union }.
#[export] Instance RendezvousMessage_eq_dec : EqDecision RendezvousMessage.
Proof. solve_decision. Defined.
