(* ===== verification/RendezvousCodec.v ===== *)
(** * The two wire encodings: [libs/core-common/src/rendezvous_codec.rs]

    A rendezvous message travels either as proto3 or as Cap'n Proto, told apart
    by its first byte.  The protobuf and capnp libraries (and the code the build
    generates from the schemas) are not part of the program: their readers and
    writers are the fields of the class [WireLib], and what the program relies on
    is the class [WireLaws].  The conversions between the two message types are
    the program's own: [capnp_to_proto3] and [to_capnp_msg] below.

    A [CapnpMsg] is a message of [protos/rendezvous.capnp] with its pointers
    read: where the code gives up on a malformed text or pointer ([.ok()?]),
    [capnp_read] has already failed, while an enumerant outside the schema and a
    malformed list element, which the code treats one by one, are [None] here.
    Structs whose fields are those of the proto3 message share its record. *)
From S2P Require Import Prelude Proto.
Local Open Scope Z_scope.

(** [codec::Protocol] *)
Inductive Protocol : Type := Proto3 | Capnp.
#[export] Instance Protocol_eq_dec : EqDecision Protocol.
Proof. solve_decision. Defined.

(** ** Cap'n Proto messages ([protos/rendezvous.capnp]) *)

Inductive CNatType : Type := UnknownNat | Asymmetric | Symmetric.
Inductive CConnType : Type := DefaultConn | FileTransfer | PortForward | Rdp | ViewCamera | Terminal.
Inductive CRegisterResult : Type :=
| CROk | UuidMismatch | IdExists | TooFrequent | InvalidIdFormat | NotSupport | ServerError.
Inductive CPunchHoleFailure : Type := IdNotExist | Offline | LicenseMismatch | LicenseOveruse.
#[export] Instance CNatType_eq_dec : EqDecision CNatType. Proof. solve_decision. Defined.
#[export] Instance CConnType_eq_dec : EqDecision CConnType. Proof. solve_decision. Defined.
#[export] Instance CRegisterResult_eq_dec : EqDecision CRegisterResult. Proof. solve_decision. Defined.
#[export] Instance CPunchHoleFailure_eq_dec : EqDecision CPunchHoleFailure. Proof. solve_decision. Defined.

Record CPunchHoleRequest : Type := mkCPunchHoleRequest {
  cphq_id : string;
  cphq_nat_type : option CNatType;
  cphq_licence_key : string;
  cphq_conn_type : option CConnType;
  cphq_token : string;
  cphq_version : string;
  cphq_udp_port : Z;
  cphq_force_relay : bool;
  cphq_upnp_port : Z;
  cphq_socket_addr_v6 : bytes;
}.
#[export] Instance CPunchHoleRequest_eq_dec : EqDecision CPunchHoleRequest.
Proof. solve_decision. Defined.

Record CPunchHole : Type := mkCPunchHole {
  cph_socket_addr : bytes;
  cph_relay_server : string;
  cph_nat_type : option CNatType;
  cph_udp_port : Z;
  cph_force_relay : bool;
  cph_upnp_port : Z;
  cph_socket_addr_v6 : bytes;
}.
#[export] Instance CPunchHole_eq_dec : EqDecision CPunchHole.
Proof. solve_decision. Defined.

Record CPunchHoleSent : Type := mkCPunchHoleSent {
  cphs_socket_addr : bytes;
  cphs_id : string;
  cphs_relay_server : string;
  cphs_nat_type : option CNatType;
  cphs_version : string;
  cphs_upnp_port : Z;
  cphs_socket_addr_v6 : bytes;
}.
#[export] Instance CPunchHoleSent_eq_dec : EqDecision CPunchHoleSent.
Proof. solve_decision. Defined.

Record CPunchHoleResponse : Type := mkCPunchHoleResponse {
  cphr_socket_addr : bytes;
  cphr_pk : bytes;
  cphr_failure : option CPunchHoleFailure;
  cphr_relay_server : string;
  cphr_nat_type : option CNatType;
  cphr_is_local : bool;
  cphr_other_failure : string;
  cphr_feedback : Z;
  cphr_is_udp : bool;
  cphr_upnp_port : Z;
  cphr_socket_addr_v6 : bytes;
}.
#[export] Instance CPunchHoleResponse_eq_dec : EqDecision CPunchHoleResponse.
Proof. solve_decision. Defined.

Record CFetchLocalAddr : Type := mkCFetchLocalAddr {
  cfla_socket_addr : bytes;
  cfla_relay_server : string;
  cfla_socket_addr_v6 : bytes;
}.
#[export] Instance CFetchLocalAddr_eq_dec : EqDecision CFetchLocalAddr.
Proof. solve_decision. Defined.

Record CConfigureUpdate : Type := mkCConfigureUpdate {
  ccu_serial : Z;
  ccu_rendezvous_servers : list (option string);
}.
#[export] Instance CConfigureUpdate_eq_dec : EqDecision CConfigureUpdate.
Proof. solve_decision. Defined.

Record CRegisterPkResponse : Type := mkCRegisterPkResponse {
  crkr_result : option CRegisterResult;
  crkr_keep_alive : Z;
}.
#[export] Instance CRegisterPkResponse_eq_dec : EqDecision CRegisterPkResponse.
Proof. solve_decision. Defined.

Record CRequestRelay : Type := mkCRequestRelay {
  crr_id : string;
  crr_uuid : string;
  crr_socket_addr : bytes;
  crr_relay_server : string;
  crr_secure : bool;
  crr_licence_key : string;
  crr_conn_type : option CConnType;
  crr_token : string;
}.
#[export] Instance CRequestRelay_eq_dec : EqDecision CRequestRelay.
Proof. solve_decision. Defined.

Record CRelayResponse : Type := mkCRelayResponse {
  crlr_socket_addr : bytes;
  crlr_uuid : string;
  crlr_relay_server : string;
  crlr_id : string;
  crlr_pk : bytes;
  crlr_refuse_reason : string;
  crlr_version : string;
  crlr_feedback : Z;
  crlr_socket_addr_v6 : bytes;
  crlr_upnp_port : Z;
}.
#[export] Instance CRelayResponse_eq_dec : EqDecision CRelayResponse.
Proof. solve_decision. Defined.

Record CTestNatResponse : Type := mkCTestNatResponse {
  ctnr_port : Z;
  ctnr_config_serial : Z;
  ctnr_rendezvous_servers : list (option string);
}.
#[export] Instance CTestNatResponse_eq_dec : EqDecision CTestNatResponse.
Proof. solve_decision. Defined.

Record COnlineRequest : Type := mkCOnlineRequest {
  coq_id : string;
  coq_peers : list (option string);
}.
#[export] Instance COnlineRequest_eq_dec : EqDecision COnlineRequest.
Proof. solve_decision. Defined.

Record CKeyExchange : Type := mkCKeyExchange {
  cke_keys : list (option bytes);
}.
#[export] Instance CKeyExchange_eq_dec : EqDecision CKeyExchange.
Proof. solve_decision. Defined.

(** The union of [RendezvousMessage]; [C_Other] are the variants the code does
    not convert (the HTTP proxy ones). *)
Inductive CapnpMsg : Type :=
| C_RegisterPeer (m : RegisterPeer)
| C_RegisterPeerResponse (m : RegisterPeerResponse)
| C_PunchHoleRequest (m : CPunchHoleRequest)
| C_PunchHole (m : CPunchHole)
| C_PunchHoleSent (m : CPunchHoleSent)
| C_PunchHoleResponse (m : CPunchHoleResponse)
| C_FetchLocalAddr (m : CFetchLocalAddr)
| C_LocalAddr (m : LocalAddr)
| C_ConfigureUpdate (m : CConfigureUpdate)
| C_RegisterPk (m : RegisterPk)
| C_RegisterPkResponse (m : CRegisterPkResponse)
| C_SoftwareUpdate (m : SoftwareUpdate)
| C_RequestRelay (m : CRequestRelay)
| C_RelayResponse (m : CRelayResponse)
| C_TestNatRequest (m : TestNatRequest)
| C_TestNatResponse (m : CTestNatResponse)
| C_PeerDiscovery (m : PeerDiscovery)
| C_OnlineRequest (m : COnlineRequest)
| C_OnlineResponse (m : OnlineResponse)
| C_KeyExchange (m : CKeyExchange)
| C_HealthCheck (m : HealthCheck)
| C_Other.
#[export] Instance CapnpMsg_eq_dec : EqDecision CapnpMsg.
Proof. solve_decision. Defined.

(** ** Conversions of enumerations *)

Definition capnp_nat_type (n : CNatType) : NatType :=
  match n with
  | Asymmetric => ASYMMETRIC
  | Symmetric => SYMMETRIC
  | _ => UNKNOWN_NAT
  end.

Definition proto3_nat_type (n : NatType) : CNatType :=
  match n with
  | ASYMMETRIC => Asymmetric
  | SYMMETRIC => Symmetric
  | _ => UnknownNat
  end.

Definition capnp_conn_type (c : CConnType) : ConnType :=
  match c with
  | FileTransfer => FILE_TRANSFER
  | PortForward => PORT_FORWARD
  | Rdp => RDP
  | ViewCamera => VIEW_CAMERA
  | Terminal => TERMINAL
  | _ => DEFAULT_CONN
  end.

Definition capnp_register_result (r : CRegisterResult) : RegisterResult :=
  match r with
  | CROk => OK
  | UuidMismatch => UUID_MISMATCH
  | IdExists => ID_EXISTS
  | TooFrequent => TOO_FREQUENT
  | InvalidIdFormat => INVALID_ID_FORMAT
  | NotSupport => NOT_SUPPORT
  | ServerError => SERVER_ERROR
  end.

Definition proto3_register_result (r : RegisterResult) : CRegisterResult :=
  match r with
  | OK => CROk
  | UUID_MISMATCH => UuidMismatch
  | ID_EXISTS => IdExists
  | TOO_FREQUENT => TooFrequent
  | INVALID_ID_FORMAT => InvalidIdFormat
  | NOT_SUPPORT => NotSupport
  | SERVER_ERROR => ServerError
  end.

Definition capnp_punch_failure (f : CPunchHoleFailure) : PunchFailure :=
  match f with
  | IdNotExist => ID_NOT_EXIST
  | Offline => OFFLINE
  | LicenseMismatch => LICENSE_MISMATCH
  | LicenseOveruse => LICENSE_OVERUSE
  end.

Definition proto3_punch_failure (f : PunchFailure) : CPunchHoleFailure :=
  match f with
  | ID_NOT_EXIST => IdNotExist
  | OFFLINE => Offline
  | LICENSE_MISMATCH => LicenseMismatch
  | LICENSE_OVERUSE => LicenseOveruse
  end.

(** [enum_value_or_default] *)
Definition nat_type_or_default (v : Z) : NatType := default UNKNOWN_NAT (NatType_enum v).
Definition register_result_or_default (v : Z) : RegisterResult := default OK (RegisterResult_enum v).
Definition punch_failure_or_default (v : Z) : PunchFailure := default ID_NOT_EXIST (PunchFailure_enum v).

(** The oneof accessors of [PunchHoleResponse]: [nat_type()] and [is_local()]
    give the default when the other variant is set. *)
Definition phr_nat_type (p : PunchHoleResponse) : NatType :=
  match phr_union p with Some (PhrNatType t) => nat_type_or_default t | _ => UNKNOWN_NAT end.
Definition phr_is_local (p : PunchHoleResponse) : bool :=
  match phr_union p with Some (PhrIsLocal b) => b | _ => false end.

(** ** Cap'n Proto to proto3 *)

Definition mk (u : Union) : RendezvousMessage := {| union := Some u |}.

(** [filter_map(|s| s.ok()...)]: malformed list elements are dropped. *)
Definition good {A} (l : list (option A)) : list A := omap id l.
#[global] Arguments good : simpl never.

Definition capnp_to_proto3 (msg : CapnpMsg) : option RendezvousMessage :=
  match msg with
  | C_RegisterPeer rp => Some (mk (U_RegisterPeer {| rp_id := rp_id rp; rp_serial := rp_serial rp |}))
  | C_RegisterPeerResponse rpr =>
    Some (mk (U_RegisterPeerResponse {| rpr_request_pk := rpr_request_pk rpr |}))
  | C_PunchHoleRequest phr =>
    nat_type ← cphq_nat_type phr;
    conn_type ← cphq_conn_type phr;
    Some (mk (U_PunchHoleRequest
      {| phq_id := cphq_id phr;
         phq_nat_type := NatType_value (capnp_nat_type nat_type);
         phq_licence_key := cphq_licence_key phr;
         phq_conn_type := ConnType_value (capnp_conn_type conn_type);
         phq_token := cphq_token phr;
         phq_version := cphq_version phr;
         phq_udp_port := cphq_udp_port phr;
         phq_force_relay := cphq_force_relay phr;
         phq_upnp_port := cphq_upnp_port phr;
         phq_socket_addr_v6 := cphq_socket_addr_v6 phr |}))
  | C_RegisterPk rk =>
    Some (mk (U_RegisterPk
      {| rk_id := rk_id rk; rk_uuid := rk_uuid rk; rk_pk := rk_pk rk; rk_old_id := rk_old_id rk;
         rk_no_register_device := rk_no_register_device rk; rk_user_token := rk_user_token rk |}))
  | C_TestNatRequest tnr => Some (mk (U_TestNatRequest {| tnq_serial := tnq_serial tnr |}))
  | C_FetchLocalAddr fla =>
    Some (mk (U_FetchLocalAddr
      {| fla_socket_addr := cfla_socket_addr fla; fla_relay_server := cfla_relay_server fla;
         fla_socket_addr_v6 := cfla_socket_addr_v6 fla; fla_control_permissions := None |}))
  | C_OnlineRequest or_ =>
    Some (mk (U_OnlineRequest {| oq_id := coq_id or_; oq_peers := good (coq_peers or_) |}))
  | C_RequestRelay rr =>
    conn_type ← crr_conn_type rr;
    Some (mk (U_RequestRelay
      {| rr_id := crr_id rr; rr_uuid := crr_uuid rr; rr_socket_addr := crr_socket_addr rr;
         rr_relay_server := crr_relay_server rr; rr_secure := crr_secure rr;
         rr_licence_key := crr_licence_key rr;
         rr_conn_type := ConnType_value (capnp_conn_type conn_type);
         rr_token := crr_token rr; rr_control_permissions := None |}))
  | C_PunchHoleSent phs =>
    nat_type ← cphs_nat_type phs;
    Some (mk (U_PunchHoleSent
      {| phs_socket_addr := cphs_socket_addr phs; phs_id := cphs_id phs;
         phs_relay_server := cphs_relay_server phs;
         phs_nat_type := NatType_value (capnp_nat_type nat_type);
         phs_version := cphs_version phs; phs_upnp_port := cphs_upnp_port phs;
         phs_socket_addr_v6 := cphs_socket_addr_v6 phs |}))
  | C_KeyExchange ke => Some (mk (U_KeyExchange {| ke_keys := good (cke_keys ke) |}))
  | C_HealthCheck hc => Some (mk (U_Hc {| hc_token := hc_token hc |}))
  | C_RegisterPkResponse rpr =>
    result ← crkr_result rpr;
    Some (mk (U_RegisterPkResponse
      {| rkr_result := RegisterResult_value (capnp_register_result result);
         rkr_keep_alive := crkr_keep_alive rpr |}))
  | C_PunchHole ph =>
    nat_type ← cph_nat_type ph;
    Some (mk (U_PunchHole
      {| ph_socket_addr := cph_socket_addr ph; ph_relay_server := cph_relay_server ph;
         ph_nat_type := NatType_value (capnp_nat_type nat_type);
         ph_udp_port := cph_udp_port ph; ph_force_relay := cph_force_relay ph;
         ph_upnp_port := cph_upnp_port ph; ph_socket_addr_v6 := cph_socket_addr_v6 ph;
         ph_control_permissions := None |}))
  | C_PunchHoleResponse phr =>
    failure ← cphr_failure phr;
    u ← (if cphr_is_local phr then Some (PhrIsLocal true)
         else t ← cphr_nat_type phr; Some (PhrNatType (NatType_value (capnp_nat_type t))));
    Some (mk (U_PunchHoleResponse
      {| phr_socket_addr := cphr_socket_addr phr; phr_pk := cphr_pk phr;
         phr_failure := PunchFailure_value (capnp_punch_failure failure);
         phr_relay_server := cphr_relay_server phr; phr_union := Some u;
         phr_other_failure := cphr_other_failure phr; phr_feedback := cphr_feedback phr;
         phr_is_udp := cphr_is_udp phr; phr_upnp_port := cphr_upnp_port phr;
         phr_socket_addr_v6 := cphr_socket_addr_v6 phr |}))
  | C_ConfigureUpdate cu =>
    Some (mk (U_ConfigureUpdate
      {| cu_serial := ccu_serial cu; cu_rendezvous_servers := good (ccu_rendezvous_servers cu) |}))
  | C_OnlineResponse or_ => Some (mk (U_OnlineResponse {| or_states := or_states or_ |}))
  | C_RelayResponse rr =>
    Some (mk (U_RelayResponse
      {| rlr_socket_addr := crlr_socket_addr rr; rlr_uuid := crlr_uuid rr;
         rlr_relay_server := crlr_relay_server rr;
         rlr_union := Some (if bool_decide (crlr_pk rr = []) then RlrId (crlr_id rr)
                            else RlrPk (crlr_pk rr));
         rlr_refuse_reason := crlr_refuse_reason rr; rlr_version := crlr_version rr;
         rlr_feedback := crlr_feedback rr; rlr_socket_addr_v6 := crlr_socket_addr_v6 rr;
         rlr_upnp_port := crlr_upnp_port rr |}))
  | C_LocalAddr la =>
    Some (mk (U_LocalAddr
      {| la_socket_addr := la_socket_addr la; la_local_addr := la_local_addr la;
         la_relay_server := la_relay_server la; la_id := la_id la; la_version := la_version la;
         la_socket_addr_v6 := la_socket_addr_v6 la |}))
  | C_SoftwareUpdate su => Some (mk (U_SoftwareUpdate {| su_url := su_url su |}))
  | C_TestNatResponse tnr =>
    Some (mk (U_TestNatResponse
      {| tnr_port := ctnr_port tnr;
         tnr_cu := Some {| cu_serial := ctnr_config_serial tnr;
                           cu_rendezvous_servers := good (ctnr_rendezvous_servers tnr) |} |}))
  | C_PeerDiscovery pd =>
    Some (mk (U_PeerDiscovery
      {| pd_cmd := pd_cmd pd; pd_mac := pd_mac pd; pd_id := pd_id pd; pd_username := pd_username pd;
         pd_hostname := pd_hostname pd; pd_platform := pd_platform pd; pd_misc := pd_misc pd |}))
  | C_Other => None
  end.

(** ** proto3 to Cap'n Proto *)

(** The message [to_capnp] builds, before it is written out; an unset field of
    the builder holds the schema's zero. *)
Definition to_capnp_msg (msg : RendezvousMessage) : option CapnpMsg :=
  u ← union msg;
  match u with
  | U_RegisterPeerResponse rpr =>
    Some (C_RegisterPeerResponse {| rpr_request_pk := rpr_request_pk rpr |})
  | U_RegisterPkResponse rpr =>
    Some (C_RegisterPkResponse
      {| crkr_result := Some (proto3_register_result (register_result_or_default (rkr_result rpr)));
         crkr_keep_alive := rkr_keep_alive rpr |})
  | U_PunchHoleResponse phr =>
    Some (C_PunchHoleResponse
      {| cphr_socket_addr := phr_socket_addr phr; cphr_pk := phr_pk phr;
         cphr_failure := Some (proto3_punch_failure (punch_failure_or_default (phr_failure phr)));
         cphr_relay_server := phr_relay_server phr; cphr_is_local := phr_is_local phr;
         cphr_nat_type := Some (proto3_nat_type (phr_nat_type phr));
         cphr_other_failure := phr_other_failure phr; cphr_feedback := phr_feedback phr;
         cphr_is_udp := phr_is_udp phr; cphr_upnp_port := phr_upnp_port phr;
         cphr_socket_addr_v6 := phr_socket_addr_v6 phr |})
  | U_PunchHole ph =>
    Some (C_PunchHole
      {| cph_socket_addr := ph_socket_addr ph; cph_relay_server := ph_relay_server ph;
         cph_nat_type := Some (proto3_nat_type (nat_type_or_default (ph_nat_type ph)));
         cph_udp_port := ph_udp_port ph; cph_force_relay := ph_force_relay ph;
         cph_upnp_port := ph_upnp_port ph; cph_socket_addr_v6 := ph_socket_addr_v6 ph |})
  | U_ConfigureUpdate cu =>
    Some (C_ConfigureUpdate
      {| ccu_serial := cu_serial cu; ccu_rendezvous_servers := Some <$> cu_rendezvous_servers cu |})
  | U_TestNatResponse tnr =>
    Some (C_TestNatResponse
      match tnr_cu tnr with
      | Some cu => {| ctnr_port := tnr_port tnr; ctnr_config_serial := cu_serial cu;
                      ctnr_rendezvous_servers := Some <$> cu_rendezvous_servers cu |}
      | None => {| ctnr_port := tnr_port tnr; ctnr_config_serial := 0; ctnr_rendezvous_servers := [] |}
      end)
  | U_OnlineResponse or_ => Some (C_OnlineResponse {| or_states := or_states or_ |})
  | U_RelayResponse rr =>
    let '(id, pk) := match rlr_union rr with
                     | Some (RlrId id) => (id, [])
                     | Some (RlrPk pk) => (""%string, pk)
                     | None => (""%string, [])
                     end in
    Some (C_RelayResponse
      {| crlr_socket_addr := rlr_socket_addr rr; crlr_uuid := rlr_uuid rr;
         crlr_relay_server := rlr_relay_server rr; crlr_id := id; crlr_pk := pk;
         crlr_refuse_reason := rlr_refuse_reason rr; crlr_version := rlr_version rr;
         crlr_feedback := rlr_feedback rr; crlr_socket_addr_v6 := rlr_socket_addr_v6 rr;
         crlr_upnp_port := rlr_upnp_port rr |})
  | U_LocalAddr la =>
    Some (C_LocalAddr
      {| la_socket_addr := la_socket_addr la; la_local_addr := la_local_addr la;
         la_relay_server := la_relay_server la; la_id := la_id la; la_version := la_version la;
         la_socket_addr_v6 := la_socket_addr_v6 la |})
  | U_SoftwareUpdate su => Some (C_SoftwareUpdate {| su_url := su_url su |})
  | U_PeerDiscovery pd =>
    Some (C_PeerDiscovery
      {| pd_cmd := pd_cmd pd; pd_mac := pd_mac pd; pd_id := pd_id pd; pd_username := pd_username pd;
         pd_hostname := pd_hostname pd; pd_platform := pd_platform pd; pd_misc := pd_misc pd |})
  | _ => None
  end.

(** ** The wire libraries *)

Class WireLib : Type := {
  (** [Message::parse_from_bytes(..).ok()] and [write_to_bytes().ok()] *)
  proto3_read : bytes → option RendezvousMessage;
  proto3_write : RendezvousMessage → option bytes;
  (** [capnp::serialize::read_message] with the getters, and [write_message] *)
  capnp_read : bytes → option CapnpMsg;
  capnp_write : CapnpMsg → option bytes;
  (** the number of segments the capnp builder spreads a message over *)
  capnp_segments : CapnpMsg → Z;
}.

(** What the libraries document: reading undoes writing; every field of the
    proto3 message has a number of at least one, so a proto3 encoding never
    starts with a zero byte; a capnp stream starts with the number of segments
    minus one, little-endian on four bytes. *)
Class WireLaws `{WireLib} : Prop := {
  proto3_read_write m b : proto3_write m = Some b → proto3_read b = Some m;
  proto3_first m b : proto3_write m = Some b → head b ≠ Some 0;
  capnp_read_write c b : capnp_write c = Some b → capnp_read b = Some c;
  capnp_first c b : capnp_write c = Some b → take 4 b = le_bytes 4 (capnp_segments c - 1);
}.

Section codec.
Context `{WireLib}.

(** [detect] *)
Definition detect (bs : bytes) : Protocol :=
  if bool_decide (head bs = Some 0) then Capnp else Proto3.

Definition from_capnp (bs : bytes) : option RendezvousMessage :=
  c ← capnp_read bs; capnp_to_proto3 c.

Definition to_capnp (msg : RendezvousMessage) : option bytes :=
  c ← to_capnp_msg msg; capnp_write c.

(** [parse] *)
Definition parse (bs : bytes) : option RendezvousMessage :=
  match detect bs with
  | Proto3 => proto3_read bs
  | Capnp => from_capnp bs
  end.

(** [serialize] *)
Definition serialize (msg : RendezvousMessage) (proto : Protocol) : option bytes :=
  match proto with
  | Proto3 => proto3_write msg
  | Capnp => to_capnp msg
  end.

(** The fallback of every sender in the program: [serialize] in the wanted
    encoding, else proto3. *)
Definition wire_bytes (msg : RendezvousMessage) (proto : Protocol) : option bytes :=
  match serialize msg proto with
  | Some b => Some b
  | None => proto3_write msg
  end.
End codec.

(** ** What survives Cap'n Proto *)

(** The message a Cap'n Proto peer understands by [m]: enumeration values
    outside the schema become the default, permissions are dropped, an unset
    oneof becomes its first variant with the default value, an empty public key
    becomes an empty id, and a missing configuration an empty one. *)
Definition norm_union (u : Union) : Union :=
  match u with
  | U_RegisterPkResponse m =>
    U_RegisterPkResponse
      {| rkr_result := RegisterResult_value (register_result_or_default (rkr_result m));
         rkr_keep_alive := rkr_keep_alive m |}
  | U_PunchHoleResponse m =>
    U_PunchHoleResponse
      {| phr_socket_addr := phr_socket_addr m; phr_pk := phr_pk m;
         phr_failure := PunchFailure_value (punch_failure_or_default (phr_failure m));
         phr_relay_server := phr_relay_server m;
         phr_union := Some (if phr_is_local m then PhrIsLocal true
                            else PhrNatType (NatType_value (phr_nat_type m)));
         phr_other_failure := phr_other_failure m; phr_feedback := phr_feedback m;
         phr_is_udp := phr_is_udp m; phr_upnp_port := phr_upnp_port m;
         phr_socket_addr_v6 := phr_socket_addr_v6 m |}
  | U_PunchHole m =>
    U_PunchHole
      {| ph_socket_addr := ph_socket_addr m; ph_relay_server := ph_relay_server m;
         ph_nat_type := NatType_value (nat_type_or_default (ph_nat_type m));
         ph_udp_port := ph_udp_port m; ph_force_relay := ph_force_relay m;
         ph_upnp_port := ph_upnp_port m; ph_socket_addr_v6 := ph_socket_addr_v6 m;
         ph_control_permissions := None |}
  | U_TestNatResponse m =>
    U_TestNatResponse
      {| tnr_port := tnr_port m; tnr_cu := Some (default default_ConfigUpdate (tnr_cu m)) |}
  | U_RelayResponse m =>
    U_RelayResponse
      {| rlr_socket_addr := rlr_socket_addr m; rlr_uuid := rlr_uuid m;
         rlr_relay_server := rlr_relay_server m;
         rlr_union := match rlr_union m with
                      | Some (RlrId id) => Some (RlrId id)
                      | Some (RlrPk (b :: pk)) => Some (RlrPk (b :: pk))
                      | _ => Some (RlrId "")
                      end;
         rlr_refuse_reason := rlr_refuse_reason m; rlr_version := rlr_version m;
         rlr_feedback := rlr_feedback m; rlr_socket_addr_v6 := rlr_socket_addr_v6 m;
         rlr_upnp_port := rlr_upnp_port m |}
  | _ => u
  end.

Definition capnp_norm (m : RendezvousMessage) : RendezvousMessage :=
  {| union := norm_union <$> union m |}.

(** The variants [to_capnp] has an arm for: what the server sends, and the
    client's local address, relay answer and discovery. *)
Definition capnp_supported (m : RendezvousMessage) : bool :=
  match union m with
  | Some (U_RegisterPeerResponse _ | U_RegisterPkResponse _ | U_PunchHoleResponse _ | U_PunchHole _
         | U_ConfigureUpdate _ | U_TestNatResponse _ | U_OnlineResponse _ | U_RelayResponse _
         | U_LocalAddr _ | U_SoftwareUpdate _ | U_PeerDiscovery _) => true
  | _ => false
  end.

Lemma good_fmap_Some {A} (l : list A) : good (Some <$> l) = l.
Proof. unfold good. induction l as [|x l IH]; [done|]. cbn. f_equal. exact IH. Qed.

Lemma nat_type_roundtrip n : capnp_nat_type (proto3_nat_type n) = n.
Proof. by destruct n. Qed.
Lemma register_result_roundtrip r : capnp_register_result (proto3_register_result r) = r.
Proof. by destruct r. Qed.
Lemma punch_failure_roundtrip f : capnp_punch_failure (proto3_punch_failure f) = f.
Proof. by destruct f. Qed.
#[export] Hint Rewrite @good_fmap_Some nat_type_roundtrip register_result_roundtrip
  punch_failure_roundtrip : nat_server.

Lemma capnp_supported_spec m : capnp_supported m = bool_decide (is_Some (to_capnp_msg m)).
Proof.
  destruct m as [[u|]]; [|done]. destruct u as [| | | | | | | | | | | | | m | | | | | | | | | ]; try done.
  by destruct m as [? ? ? [[]|]].
Qed.

Lemma to_capnp_msg_back m c :
  to_capnp_msg m = Some c → capnp_to_proto3 c = Some (capnp_norm m).
Proof.
  destruct m as [[u|]]; [|done]. unfold to_capnp_msg, capnp_norm, mk. cbn.
  destruct u as [[]|[]|[]|[]|[]|p|[]|[]|[]|[]|[]|[]|[]|r|[]|t|[]|[]|[]|[]|[]|[]|[]];
    intros; simplify_eq/=; autorewrite with nat_server; try done.
  - by destruct (phr_is_local p).
  - destruct r as [? ? ? [[|[]]|]]; by simplify_eq/=.
  - destruct t as [? [[]|]]; cbn; autorewrite with nat_server; done.
Qed.

Lemma norm_union_idem u : norm_union (norm_union u) = norm_union u.
Proof.
  destruct u as [| | | | | m | | | | | m | | | m | | | | | | | | | ]; try done; cbn;
    unfold register_result_or_default, punch_failure_or_default, nat_type_or_default;
    rewrite ?RegisterResult_enum_value, ?PunchFailure_enum_value, ?NatType_enum_value; try done.
  - do 2 f_equal. destruct (phr_is_local m); [done|]. unfold phr_nat_type at 1, phr_is_local. cbn.
    unfold nat_type_or_default. by rewrite NatType_enum_value.
  - destruct m as [? ? ? [[|[]]|]]; done.
Qed.

(** ** Properties *)

Lemma serialize_back `{WireLaws} (m : RendezvousMessage) (p : Protocol) (b : bytes) :
  serialize m p = Some b →
  (∀ c, p = Capnp → to_capnp_msg m = Some c → capnp_segments c = 1) →
  detect b = p ∧ parse b = Some (match p with Proto3 => m | Capnp => capnp_norm m end).
Proof.
  intros Hs Hseg. unfold parse, detect. destruct p; cbn in Hs.
  - rewrite bool_decide_eq_false_2 by (by eapply proto3_first). split; [done|].
    by apply proto3_read_write.
  - unfold to_capnp in Hs. destruct (to_capnp_msg m) as [c|] eqn:E; [|done]. cbn in Hs.
    rewrite bool_decide_eq_true_2.
    + split; [done|]. unfold from_capnp. rewrite (capnp_read_write _ _ Hs). by apply to_capnp_msg_back.
    + pose proof (capnp_first _ _ Hs) as Hf. rewrite (Hseg c) in Hf by done.
      destruct b; [done|]. cbn in Hf. by injection Hf as ->.
Qed.


(** A library for the witnesses: it writes two messages, in one segment. *)
Definition demo_msg : RendezvousMessage := mk (U_SoftwareUpdate {| su_url := "v1" |}).
Definition demo_capnp : CapnpMsg := C_SoftwareUpdate {| su_url := "v1" |}.
#[local] Instance DemoWire : WireLib := {
  proto3_read b := if bool_decide (b = [138; 1; 4]) then Some demo_msg else None;
  proto3_write m := if bool_decide (m = demo_msg) then Some [138; 1; 4] else None;
  capnp_read b := if bool_decide (b = [0; 0; 0; 0; 4]) then Some demo_capnp else None;
  capnp_write c := if bool_decide (c = demo_capnp) then Some [0; 0; 0; 0; 4] else None;
  capnp_segments _ := 1;
}.
#[local] Instance DemoLaws : WireLaws.
Proof. split; intros ? ?; cbn; case_bool_decide; intros; simplify_eq; done. Qed.


(** Cap'n Proto carries exactly the supported variants; what a round trip
    through it gives is stable, and a message already in that form comes back
    unchanged. *)
Theorem capnp_conversion (m : RendezvousMessage) :
  (to_capnp_msg m ≫= capnp_to_proto3) = (if capnp_supported m then Some (capnp_norm m) else None) ∧
  capnp_norm (capnp_norm m) = capnp_norm m.
Proof.
  split.
  - pose proof (capnp_supported_spec m) as Hs. destruct (to_capnp_msg m) as [c|] eqn:E; rewrite Hs.
    + rewrite bool_decide_eq_true_2 by eauto. by apply to_capnp_msg_back.
    + rewrite bool_decide_eq_false_2; [done|]. by intros [? ?].
  - unfold capnp_norm. destruct (union m) as [u|]; cbn; [|done]. by rewrite norm_union_idem.
Qed.

(** The requests of a client: what it registers, asks and announces with. *)
Definition is_client_request (m : RendezvousMessage) : bool :=
  match union m with
  | Some (U_RegisterPeer _ | U_RegisterPk _ | U_PunchHoleRequest _ | U_PunchHoleSent _
         | U_RequestRelay _ | U_TestNatRequest _ | U_OnlineRequest _) => true
  | _ => false
  end.

(** A client set to Cap'n Proto still registers, asks for a hole and reports
    one in proto3: those requests have no Cap'n Proto form, the sender falls
    back, and the server detects proto3. *)
Theorem client_requests_are_proto3 `{WireLaws} (m : RendezvousMessage) :
  is_client_request m = true →
  serialize m Capnp = None ∧ wire_bytes m Capnp = proto3_write m ∧
  ∀ b, wire_bytes m Capnp = Some b → detect b = Proto3.
Proof.
  intros Hm. assert (Hn : serialize m Capnp = None).
  { unfold serialize, to_capnp. destruct m as [[[]|]]; done. }
  unfold wire_bytes. rewrite Hn. split_and!; [done..|]. intros b Hb.
  unfold detect. rewrite bool_decide_eq_false_2; [done|]. by eapply proto3_first.
Qed.

Lemma client_requests_are_proto3_witness :
  let m := mk (U_RegisterPk default_RegisterPk) in
  serialize m Capnp = None ∧ wire_bytes m Capnp = proto3_write m ∧
  ∀ b, wire_bytes m Capnp = Some b → detect b = Proto3.
Proof.
  apply (client_requests_are_proto3 (mk (U_RegisterPk default_RegisterPk))). reflexivity.
Defined.

(** A Cap'n Proto message the library spreads over several segments (up to
    256) is taken for proto3: only a one-segment stream starts with a zero
    byte. *)
Theorem multi_segment_taken_for_proto3 `{WireLaws} (m : RendezvousMessage) (c : CapnpMsg) (b : bytes) :
  to_capnp_msg m = Some c → serialize m Capnp = Some b → 2 <= capnp_segments c <= 256 →
  detect b = Proto3 ∧ parse b = proto3_read b.
Proof.
  intros Hc Hs Hseg. cbn in Hs. unfold to_capnp in Hs. rewrite Hc in Hs. cbn in Hs.
  pose proof (capnp_first _ _ Hs) as Hf. unfold parse, detect.
  rewrite bool_decide_eq_false_2; [done|]. intros Hz.
  destruct b as [|x b]; [done|]. simpl in Hz. simplify_eq. cbn in Hf. injection Hf as Hf _.
  rewrite Z.mod_small in Hf by lia. lia.
Qed.

Definition SegWire : WireLib := {|
  proto3_read _ := None;
  proto3_write _ := None;
  capnp_read b := if bool_decide (b = [2; 0; 0; 0; 4]) then Some demo_capnp else None;
  capnp_write c := if bool_decide (c = demo_capnp) then Some [2; 0; 0; 0; 4] else None;
  capnp_segments _ := 3;
|}.
Lemma SegLaws : @WireLaws SegWire.
Proof. split; intros ? ?; cbn; try case_bool_decide; intros; simplify_eq; done. Qed.

Lemma multi_segment_taken_for_proto3_witness :
  @detect [2; 0; 0; 0; 4] = Proto3 ∧ @parse SegWire [2; 0; 0; 0; 4] = None.
Proof.
  apply (@multi_segment_taken_for_proto3 SegWire SegLaws demo_msg demo_capnp [2; 0; 0; 0; 4]);
    [reflexivity|vm_compute; reflexivity|]. cbn. lia.
Defined.

(** A library that knows the messages of a list: the byte 8 and the place. *)
Definition TableWire (l : list RendezvousMessage) : WireLib := {|
  proto3_read b := match b with [8; n] => l !! Z.to_nat n | _ => None end;
  proto3_write m := '(i, _) ← list_find (λ m', m' = m) l; Some [8; Z.of_nat i];
  capnp_read _ := None;
  capnp_write _ := None;
  capnp_segments _ := 1;
|}.
Lemma TableWireLaws l : @WireLaws (TableWire l).
Proof.
  split; cbn; [..|done|done].
  - intros m b. destruct (list_find _ l) as [[i m']|] eqn:E; cbn; [|done]. intros [= <-].
    apply list_find_Some in E as (Hi & -> & _). by rewrite Nat2Z.id.
  - intros m b. destruct (list_find _ l) as [[i m']|]; cbn; [|done]. by intros [= <-].
Qed.
