(* ===== verification/Text.v ===== *)
(** * Strings: the methods of [str] the program uses

    Texts are byte strings.  [trim], [to_uppercase] and the like act on the
    ASCII characters only; the program applies them to tokens, commands, host
    names and header values.  The file also has the decimal texts of integers
    ([to_string] and [parse]) and the texts of IP addresses. *)
From Stdlib Require Import Ascii.
From S2P Require Import Prelude AddrMangle.
Local Open Scope Z_scope.

Definition code (c : ascii) : Z := Z.of_nat (nat_of_ascii c).
Definition chr (n : Z) : ascii := ascii_of_nat (Z.to_nat n).

Definition is_space (c : ascii) : bool := (code c =? 32) || ((9 <=? code c) && (code c <=? 13)).

Fixpoint trim_start (s : string) : string :=
  match s with
  | String c r => if is_space c then trim_start r else s
  | EmptyString => ""
  end.
(** The text without its trailing blanks. *)
Fixpoint trim_end (s : string) : string :=
  match s with
  | EmptyString => ""
  | String c r =>
    match trim_end r with
    | EmptyString => if is_space c then "" else String c ""
    | r' => String c r'
    end
  end.
Definition trim (s : string) : string := trim_end (trim_start s).

Fixpoint strip_prefix (p s : string) : option string :=
  match p, s with
  | EmptyString, _ => Some s
  | String a p, String b s => if Ascii.eqb a b then strip_prefix p s else None
  | String _ _, EmptyString => None
  end.
Definition starts_with (p s : string) : bool := bool_decide (is_Some (strip_prefix p s)).
Fixpoint contains (p s : string) : bool :=
  starts_with p s || match s with EmptyString => false | String _ r => contains p r end.

(** [s.split(c)] *)
Fixpoint split_on (c : ascii) (s : string) : list string :=
  match s with
  | EmptyString => [""]
  | String a r =>
    if Ascii.eqb a c then "" :: split_on c r
    else match split_on c r with
         | w :: ws => String a w :: ws
         | [] => [String a ""]
         end
  end%string.

(** [l.join(sep)] *)
Fixpoint join (sep : string) (l : list string) : string :=
  match l with
  | [] => ""
  | [w] => w
  | w :: ws => w +:+ sep +:+ join sep ws
  end.

Fixpoint map_chars (f : ascii → ascii) (s : string) : string :=
  match s with EmptyString => "" | String c r => String (f c) (map_chars f r) end.
Definition to_uppercase : string → string :=
  map_chars (λ c, if (97 <=? code c) && (code c <=? 122) then chr (code c - 32) else c).
Definition to_lowercase : string → string :=
  map_chars (λ c, if (65 <=? code c) && (code c <=? 90) then chr (code c + 32) else c).

(** ** Integers *)

Definition digit (c : ascii) : option Z :=
  if (48 <=? code c) && (code c <=? 57) then Some (code c - 48) else None.
Fixpoint digits_from (acc : Z) (s : string) : option Z :=
  match s with
  | EmptyString => Some acc
  | String c r => d ← digit c; digits_from (10 * acc + d) r
  end.
Definition digits (s : string) : option Z :=
  match s with EmptyString => None | _ => digits_from 0 s end.

Definition within (lo hi n : Z) : option Z := if (lo <=? n) && (n <=? hi) then Some n else None.

(** [s.parse()] at a type with the given bounds. *)
Definition parse_int (lo hi : Z) (s : string) : option Z :=
  match s with
  | String "+" r => n ← digits r; within lo hi n
  | String "-" r => if lo <? 0 then n ← digits r; within lo hi (- n) else None
  | _ => n ← digits s; within lo hi n
  end.
Definition parse_i64 : string → option Z := parse_int (- 2 ^ 63) (2 ^ 63 - 1).
Definition parse_i32 : string → option Z := parse_int (- 2 ^ 31) (2 ^ 31 - 1).
Definition parse_usize : string → option Z := parse_int 0 usize_max.

(** [to_string] of a number, digit by digit from the low end. *)
Fixpoint dec_nonneg (fuel : nat) (n : Z) (acc : string) : string :=
  let acc := String (chr (48 + n mod 10)) acc in
  match fuel with
  | S fuel => if n <? 10 then acc else dec_nonneg fuel (n / 10) acc
  | O => acc
  end.
Definition to_string (n : Z) : string :=
  let m := Z.abs n in
  let s := dec_nonneg (Z.to_nat (Z.log2 m)) m "" in
  if n <? 0 then String "-" s else s.

Lemma code_chr n : 0 <= n < 256 → code (chr n) = n.
Proof. intros. unfold code, chr. rewrite nat_ascii_embedding by lia. lia. Qed.

Lemma digit_chr d : 0 <= d < 10 → digit (chr (48 + d)) = Some d.
Proof.
  intros. unfold digit. rewrite code_chr by lia.
  destruct (48 <=? 48 + d) eqn:E1, (48 + d <=? 57) eqn:E2; bool_simp; try lia. cbn; f_equal; lia.
Qed.

(** The fuel is enough: every step divides by ten. *)
Lemma digits_dec_nonneg fuel n acc :
  0 <= n < 2 ^ Z.of_nat (S fuel) → digits_from 0 (dec_nonneg fuel n acc) = digits_from n acc.
Proof.
  revert n acc. induction fuel as [|fuel IH]; intros n acc Hn; cbn [dec_nonneg].
  - change (2 ^ Z.of_nat 1) with 2 in Hn. cbn [digits_from].
    rewrite Z.mod_small, digit_chr by lia. cbn; f_equal; lia.
  - destruct (n <? 10) eqn:E; bool_simp.
    + cbn [digits_from]. rewrite Z.mod_small, digit_chr by lia. cbn; f_equal; lia.
    + rewrite IH.
      * cbn [digits_from]. rewrite digit_chr by (apply Z.mod_pos_bound; lia). cbn. f_equal.
        pose proof (Z.div_mod n 10). lia.
      * rewrite Nat2Z.inj_succ, Z.pow_succ_r in Hn by lia. split; [apply Z.div_pos; lia|].
        apply Z.div_lt_upper_bound; lia.
Qed.

Lemma dec_nonneg_cons fuel n acc :
  0 <= n → ∃ d s, 0 <= d < 10 ∧ dec_nonneg fuel n acc = String (chr (48 + d)) s.
Proof.
  revert n acc. induction fuel as [|fuel IH]; intros n acc Hn; cbn [dec_nonneg].
  - exists (n mod 10), acc. split; [apply Z.mod_pos_bound; lia|done].
  - destruct (n <? 10); [|apply IH, Z.div_pos; lia].
    exists (n mod 10), acc. split; [apply Z.mod_pos_bound; lia|done].
Qed.

Lemma digits_to_string_nonneg n : 0 <= n → digits (dec_nonneg (Z.to_nat (Z.log2 n)) n "") = Some n.
Proof.
  intros Hn. destruct (dec_nonneg_cons (Z.to_nat (Z.log2 n)) n "" Hn) as (d & s & Hd & E).
  unfold digits. rewrite E, <- E. rewrite digits_dec_nonneg; [done|].
  rewrite Nat2Z.inj_succ, Z2Nat.id by apply Z.log2_nonneg.
  destruct (decide (n = 0)) as [->|]; [done|]. split; [done|]. apply Z.log2_spec. lia.
Qed.

(** Parsing the decimal text of a number gives it back. *)
Lemma parse_to_string lo hi n :
  lo <= n <= hi → lo < 0 ∨ 0 <= n → parse_int lo hi (to_string n) = Some n.
Proof.
  intros Hb Hs. unfold to_string. destruct (n <? 0) eqn:E; bool_simp.
  - cbn [parse_int]. destruct (lo <? 0) eqn:El; bool_simp; [|lia].
    rewrite digits_to_string_nonneg by lia. cbn. unfold within.
    replace (- Z.abs n) with n by lia.
    destruct (lo <=? n) eqn:E1, (n <=? hi) eqn:E2; bool_simp; done || lia.
  - rewrite Z.abs_eq by lia. unfold parse_int.
    destruct (dec_nonneg_cons (Z.to_nat (Z.log2 n)) n "" E) as (d & s & Hd & Es).
    pose proof (digits_to_string_nonneg n E) as Hn. rewrite Es in Hn |- *.
    assert (within lo hi n = Some n) as Hw.
    { unfold within. destruct (lo <=? n) eqn:E1, (n <=? hi) eqn:E2; bool_simp; done || lia. }
    assert (d = 0 ∨ d = 1 ∨ d = 2 ∨ d = 3 ∨ d = 4 ∨ d = 5 ∨ d = 6 ∨ d = 7 ∨ d = 8 ∨ d = 9) as D by lia.
    destruct_or! D; subst d; cbn - [digits within] in Hn |- *; rewrite Hn; exact Hw.
Qed.

(** ** Texts without blanks *)
Fixpoint no_space (s : string) : bool :=
  match s with EmptyString => true | String c r => negb (is_space c) && no_space r end.

Lemma trim_end_no_space s : no_space s = true → trim_end s = s.
Proof.
  induction s as [|c r IH]; cbn; [done|]. intros [Hc Hr]%andb_true_iff. rewrite IH by done.
  destruct r; [|done]. bool_simp. by rewrite Hc.
Qed.
Lemma trim_no_space s : no_space s = true → trim s = s.
Proof.
  intros Hs. unfold trim. rewrite <- (trim_end_no_space s Hs) at 2. f_equal.
  destruct s as [|c r]; [done|]. cbn in *. bool_simp. by rewrite H.
Qed.

Lemma is_space_digit d : 0 <= d < 10 → is_space (chr (48 + d)) = false.
Proof.
  intros Hd. unfold is_space. rewrite code_chr by lia.
  destruct (48 + d =? 32) eqn:E1, (9 <=? 48 + d), (48 + d <=? 13) eqn:E2; bool_simp; done || lia.
Qed.
Lemma no_space_dec fuel n acc : no_space acc = true → no_space (dec_nonneg fuel n acc) = true.
Proof.
  assert (∀ n acc, no_space acc = true → no_space (String (chr (48 + n mod 10)) acc) = true) as Hc.
  { intros m a Ha. cbn. rewrite Ha, is_space_digit; [done|]. apply Z.mod_pos_bound. lia. }
  revert n acc. induction fuel as [|fuel IH]; intros n acc Ha; cbn [dec_nonneg]; [by apply Hc|].
  destruct (n <? 10); [by apply Hc|]. by apply IH, Hc.
Qed.
Lemma no_space_to_string n : no_space (to_string n) = true.
Proof.
  unfold to_string. pose proof (no_space_dec (Z.to_nat (Z.log2 (Z.abs n))) (Z.abs n) "" eq_refl).
  by destruct (n <? 0).
Qed.

(** ** Texts of addresses *)

Definition hex_digit (n : Z) : ascii := chr (if n <? 10 then 48 + n else 87 + n).
(** [{:x}] of a 16-bit number. *)
Fixpoint hex_nonneg (fuel : nat) (n : Z) (acc : string) : string :=
  let acc := String (hex_digit (n mod 16)) acc in
  match fuel with
  | S fuel => if n <? 16 then acc else hex_nonneg fuel (n / 16) acc
  | O => acc
  end.
Definition hex16 (n : Z) : string := hex_nonneg 3 n "".

Definition ipv4_string (a b c d : Z) : string :=
  join "." [to_string a; to_string b; to_string c; to_string d].

(** The eight 16-bit segments of the sixteen octets. *)
Fixpoint segments (o : list Z) : list Z :=
  match o with a :: b :: r => (256 * a + b) :: segments r | _ => [] end.

(** The longest run of zero segments, the first of several: where it starts and
    how long it is. *)
Fixpoint longest_zeros (i cur_start cur_len best_start best_len : nat) (l : list Z) : nat * nat :=
  match l with
  | [] => (best_start, best_len)
  | x :: r =>
    if x =? 0 then
      let cur_start := if Nat.eqb cur_len 0 then i else cur_start in
      let cur_len := S cur_len in
      if Nat.ltb best_len cur_len
      then longest_zeros (S i) cur_start cur_len cur_start cur_len r
      else longest_zeros (S i) cur_start cur_len best_start best_len r
    else longest_zeros (S i) 0 0 best_start best_len r
  end.

(** [Ipv6Addr::fmt]: an IPv4-mapped address keeps its dotted form, the longest
    run of at least two zero segments is written [::]. *)
Definition ipv6_string (o : list Z) : string :=
  if bool_decide (take 10 o = replicate 10 0) && bool_decide (take 2 (drop 10 o) = [255; 255]) then
    match drop 12 o with
    | [a; b; c; d] => "::ffff:" +:+ ipv4_string a b c d
    | _ => ""
    end
  else
    let s := segments o in
    let '(start, len) := longest_zeros 0 0 0 0 0 s in
    if Nat.ltb 1 len
    then join ":" (hex16 <$> take start s) +:+ "::" +:+ join ":" (hex16 <$> drop (start + len) s)
    else join ":" (hex16 <$> s).

(** [IpAddr::to_string] *)
Definition ip_string (i : IpAddr) : string :=
  match i with
  | IpV4 a b c d => ipv4_string a b c d
  | IpV6 o => ipv6_string o
  end.

Example ip_string_v6 :
  ip_string (IpV6 [32;1;13;184;0;0;0;0;0;0;0;0;0;0;0;1]) = "2001:db8::1"%string
  ∧ ip_string (IpV6 (replicate 15 0 ++ [1])) = "::1"%string
  ∧ ip_string (IpV6 (replicate 10 0 ++ [255; 255; 10; 0; 0; 7])) = "::ffff:10.0.0.7"%string.
Proof. vm_compute. done. Qed.

(** ** Reading addresses ([IpAddr::from_str]) *)

(** A decimal octet: no leading zero, at most 255. *)
Definition parse_octet (s : string) : option Z :=
  match s with
  | String "0" (String _ _) => None
  | _ => if Nat.ltb 3 (String.length s) then None else n ← digits s; within 0 255 n
  end.
Definition parse_ipv4 (s : string) : option (list Z) :=
  match split_on "." s with
  | [a; b; c; d] =>
    a ← parse_octet a; b ← parse_octet b; c ← parse_octet c; d ← parse_octet d;
    Some [a; b; c; d]
  | _ => None
  end.

Definition hex_value (c : ascii) : option Z :=
  let n := code c in
  if (48 <=? n) && (n <=? 57) then Some (n - 48)
  else if (97 <=? n) && (n <=? 102) then Some (n - 87)
  else if (65 <=? n) && (n <=? 70) then Some (n - 55)
  else None.
Fixpoint hex_from (acc : Z) (s : string) : option Z :=
  match s with
  | EmptyString => Some acc
  | String c r => d ← hex_value c; hex_from (16 * acc + d) r
  end.
(** One to four hexadecimal digits, as two octets. *)
Definition parse_h16 (s : string) : option (list Z) :=
  if Nat.ltb 4 (String.length s) || bool_decide (s = ""%string) then None
  else n ← hex_from 0 s; Some [n / 256; n mod 256].

(** Groups separated by colons; the last may be a dotted address. *)
Fixpoint parse_groups (v4 : bool) (l : list string) : option (list Z) :=
  match l with
  | [] => Some []
  | [g] =>
    match parse_h16 g with
    | Some o => Some o
    | None => if v4 then parse_ipv4 g else None
    end
  | g :: l => o ← parse_h16 g; r ← parse_groups v4 l; Some (o ++ r)
  end.
Definition groups (v4 : bool) (s : string) : option (list Z) :=
  if bool_decide (s = ""%string) then Some [] else parse_groups v4 (split_on ":" s).

(** The text before and after the first [::]. *)
Fixpoint split_dcolon (s : string) : option (string * string) :=
  match s with
  | String ":" (String ":" r) => Some (""%string, r)
  | String c r => p ← split_dcolon r; Some (String c p.1, p.2)
  | EmptyString => None
  end.

Definition parse_ipv6 (s : string) : option (list Z) :=
  match split_dcolon s with
  | None => o ← groups true s; if Nat.eqb (length o) 16 then Some o else None
  | Some (l, r) =>
    a ← groups false l; b ← groups true r;
    if Nat.leb (length a + length b) 14
    then Some (a ++ replicate (16 - length a - length b) 0 ++ b) else None
  end.

Definition parse_ip (s : string) : option IpAddr :=
  match parse_ipv4 s with
  | Some [a; b; c; d] => Some (IpV4 a b c d)
  | _ => IpV6 <$> parse_ipv6 s
  end.

Example parse_ip_v6 :
  parse_ip "2001:db8::1" = Some (IpV6 [32;1;13;184;0;0;0;0;0;0;0;0;0;0;0;1])
  ∧ parse_ip "::ffff:10.0.0.7" = Some (IpV6 (replicate 10 0 ++ [255; 255; 10; 0; 0; 7]))
  ∧ parse_ip "10.0.07.1" = None ∧ parse_ip "1::2::3" = None.
Proof. vm_compute. done. Qed.
