(* ===== verification/TextFacts.v ===== *)
(** * Texts: searching, cutting, and their bytes

    More methods of [str] ([split_once], [rsplit_once], [rfind], splitting at a
    longer separator), texts as their UTF-8 bytes with [from_utf8] and
    [from_utf8_lossy], hexadecimal texts, and the lemmas the components share. *)
From Stdlib Require Import Ascii.
From S2P Require Import Prelude AddrMangle Text.
Local Open Scope Z_scope.

(** Append, computed on its first argument. *)
Ltac str_simp :=
  repeat match goal with
    | |- context [String ?c ?a +:+ ?b] => change (String c a +:+ b) with (String c (a +:+ b))
    | |- context [EmptyString +:+ ?b] => change (EmptyString +:+ b) with b
    | H : context [String ?c ?a +:+ ?b] |- _ => change (String c a +:+ b) with (String c (a +:+ b)) in H
    | H : context [EmptyString +:+ ?b] |- _ => change (EmptyString +:+ b) with b in H
    end.

Lemma app_cons c s t : String c s +:+ t = String c (s +:+ t).
Proof. done. Qed.
Lemma app_nil_eq s t : s +:+ t = ""%string → s = ""%string ∧ t = ""%string.
Proof. destruct s; [intros E; by split|done]. Qed.
Lemma app_string_assoc s t u : (s +:+ t) +:+ u = s +:+ t +:+ u.
Proof. induction s as [|c s IH]; str_simp; [done|]. by rewrite IH. Qed.
Lemma app_string_nil s : s +:+ "" = s.
Proof. induction s as [|c s IH]; str_simp; [done|]. by rewrite IH. Qed.
Lemma length_string_app s t : String.length (s +:+ t) = (String.length s + String.length t)%nat.
Proof. induction s as [|c s IH]; str_simp; [done|]. cbn. by rewrite IH. Qed.

Fixpoint all_chars (p : ascii → bool) (s : string) : bool :=
  match s with EmptyString => true | String c r => p c && all_chars p r end.
Lemma all_chars_app p s t : all_chars p (s +:+ t) = all_chars p s && all_chars p t.
Proof. induction s as [|c s IH]; str_simp; [done|]. cbn. rewrite IH. apply andb_assoc. Qed.

(** ** Occurrences of a character *)
Fixpoint has_char (c : ascii) (s : string) : bool :=
  match s with EmptyString => false | String a r => bool_decide (a = c) || has_char c r end.

Lemma split_on_nonempty c s : split_on c s ≠ [].
Proof. destruct s as [|a s]; cbn; [done|]. destruct (Ascii.eqb a c); [done|]. by destruct (split_on c s). Qed.

Lemma split_on_app c a b : split_on c (a +:+ String c b) = split_on c a ++ split_on c b.
Proof.
  induction a as [|x a IH].
  - change (("" +:+ String c b)%string) with (String c b). cbn [split_on]. by rewrite Ascii.eqb_refl.
  - change ((String x a +:+ String c b)%string) with (String x (a +:+ String c b)). cbn [split_on].
    rewrite IH. destruct (Ascii.eqb x c); [done|].
    pose proof (split_on_nonempty c a). by destruct (split_on c a).
Qed.

Lemma split_on_none c s : has_char c s = false → split_on c s = [s].
Proof.
  induction s as [|a s IH]; cbn; [done|]. intros [Ha Hs]%orb_false_iff. bool_simp.
  rewrite (proj2 (Ascii.eqb_neq a c)) by done. by rewrite IH.
Qed.

Lemma split_on_head c a b : has_char c a = false → ∃ ws, split_on c (a +:+ String c b) = a :: ws.
Proof. intros Ha. rewrite split_on_app, split_on_none by done. by eexists. Qed.

Lemma split_on_no_char c s : Forall (λ w, has_char c w = false) (split_on c s).
Proof.
  induction s as [|a s IH]; cbn; [by repeat constructor|].
  destruct (Ascii.eqb a c) eqn:E; [by constructor|].
  destruct (split_on c s) as [|w ws]; [by repeat constructor; cbn; rewrite bool_decide_eq_false_2 by by apply Ascii.eqb_neq|].
  apply Forall_cons in IH as [Hw Hws]. constructor; [|done]. cbn.
  rewrite bool_decide_eq_false_2; [done|by apply Ascii.eqb_neq].
Qed.

Lemma has_char_app c a b : has_char c (a +:+ b) = has_char c a || has_char c b.
Proof.
  induction a as [|x a IH]; [done|]. change (bool_decide (x = c) || has_char c (a +:+ b) = bool_decide (x = c) || has_char c a || has_char c b).
  by rewrite IH, orb_assoc.
Qed.

Lemma has_char_no_space c s : no_space s = true → is_space c = true → has_char c s = false.
Proof.
  intros Hs Hc. induction s as [|x s IH]; [done|]. cbn in *. bool_simp. rewrite IH by done.
  rewrite bool_decide_eq_false_2; [done|]. intros ->. congruence.
Qed.

Fixpoint cut (c : ascii) (s : string) : option (string * string) :=
  match s with
  | EmptyString => None
  | String a r => if bool_decide (a = c) then Some (""%string, r) else p ← cut c r; Some (String a p.1, p.2)
  end.

Lemma cut_app c a b : has_char c a = false → cut c (a +:+ String c b) = Some (a, b).
Proof.
  induction a as [|x a IH]; intros H.
  - change (cut c (String c b) = Some (""%string, b)). cbn. by rewrite bool_decide_eq_true_2.
  - change (cut c (String x (a +:+ String c b)) = Some (String x a, b)). cbn in *. bool_simp.
    rewrite bool_decide_eq_false_2 by done. by rewrite IH.
Qed.

Lemma cut_none c s : has_char c s = false → cut c s = None.
Proof.
  induction s as [|x s IH]; [done|]. cbn. intros H. bool_simp. rewrite bool_decide_eq_false_2 by done. by rewrite IH.
Qed.

Lemma has_char_all c p s : all_chars p s = true → p c = false → has_char c s = false.
Proof.
  intros Hs Hc. induction s as [|x s IH]; [done|]. cbn in *. bool_simp. rewrite IH by done.
  rewrite bool_decide_eq_false_2; [done|]. intros ->. congruence.
Qed.

(** The text before and after the last [c] ([rfind], [rsplit_once]). *)
Fixpoint rcut (c : ascii) (s : string) : option (string * string) :=
  match s with
  | EmptyString => None
  | String a r =>
    match rcut c r with
    | Some (x, y) => Some (String a x, y)
    | None => if bool_decide (a = c) then Some (""%string, r) else None
    end
  end.
Lemma rcut_none c s : has_char c s = false → rcut c s = None.
Proof.
  induction s as [|a s IH]; [done|]. cbn. intros H. bool_simp. rewrite IH by done.
  by rewrite bool_decide_eq_false_2.
Qed.
Lemma rcut_app c a b : has_char c b = false → rcut c (a +:+ String c b) = Some (a, b).
Proof.
  intros Hb. induction a as [|x a IH]; str_simp; cbn; [|by rewrite IH].
  rewrite rcut_none by done. by rewrite bool_decide_eq_true_2.
Qed.
Lemma rcut_some c s a b : rcut c s = Some (a, b) → s = a +:+ String c b ∧ has_char c b = false.
Proof.
  revert a b. induction s as [|x s IH]; intros a b; cbn; [done|].
  destruct (rcut c s) as [[a' b']|] eqn:E.
  - intros [= <- <-]. destruct (IH a' b' eq_refl) as [-> Hb]. by str_simp.
  - case_bool_decide; [|done]. intros [= <- <-]. subst x. split; [done|].
    clear IH. induction s as [|y s IH]; [done|]. cbn in *.
    destruct (rcut c s) as [[? ?]|]; [done|]. case_bool_decide; [done|].
    cbn. by apply IH.
Qed.

(** [s.split(c)], a cut that a later [c] cannot move. *)
Lemma cut_some c s a b : cut c s = Some (a, b) → s = a +:+ String c b ∧ has_char c a = false.
Proof.
  revert a b. induction s as [|x s IH]; intros a b; cbn; [done|].
  case_bool_decide; [intros [= <- <-]; by subst|].
  destruct (cut c s) as [[a' b']|] eqn:E; cbn; [|done]. intros [= <- <-].
  destruct (IH a' b' eq_refl) as [-> Ha]. cbn. by rewrite bool_decide_eq_false_2, Ha.
Qed.

(** [s.splitn(3, c)] *)
Definition splitn3 (c : ascii) (s : string) : list string :=
  match cut c s with
  | None => [s]
  | Some (a, r) => match cut c r with None => [a; r] | Some (b, t) => [a; b; t] end
  end.

Lemma splitn3_three c a b t :
  has_char c a = false → has_char c b = false → splitn3 c (a +:+ String c (b +:+ String c t)) = [a; b; t].
Proof. intros Ha Hb. unfold splitn3. by rewrite !cut_app by done. Qed.

(** The text before and after the first [p], and [s.split(p)] for a longer
    separator. *)
Fixpoint cut_str (p s : string) : option (string * string) :=
  match strip_prefix p s with
  | Some r => Some (""%string, r)
  | None => match s with
            | EmptyString => None
            | String a s => q ← cut_str p s; Some (String a q.1, q.2)
            end
  end.
Fixpoint split_str_fuel (fuel : nat) (p s : string) : list string :=
  match fuel with
  | O => [s]
  | S fuel => match cut_str p s with None => [s] | Some (a, r) => a :: split_str_fuel fuel p r end
  end.
(** Every cut with a separator that is not empty makes the text shorter. *)
Definition split_str (p s : string) : list string := split_str_fuel (String.length s) p s.
(** [s.replace(p, new)] *)
Definition replace (p new s : string) : string := join new (split_str p s).

(** [s.split_whitespace()] *)
Definition split_whitespace (s : string) : list string :=
  filter (λ w, w ≠ ""%string)
    (split_on " " (map_chars (λ c, if is_space c then " "%char else c) s)).

(** [trim_end_matches(c)] *)
Fixpoint trim_end_char (c : ascii) (s : string) : string :=
  match s with
  | EmptyString => ""
  | String a r =>
    match trim_end_char c r with
    | EmptyString => if bool_decide (a = c) then "" else String a ""
    | r' => String a r'
    end
  end.

(** ** Lines *)

Definition newline : ascii := chr 10.
Definition nl : string := String newline "".
Fixpoint strip_cr (s : string) : string :=
  match s with
  | EmptyString => ""
  | String c "" => if bool_decide (c = chr 13) then "" else s
  | String c r => String c (strip_cr r)
  end.
(** A carriage return before a newline goes with it; what follows the last
    newline is a line if it is not empty. *)
Fixpoint line_pieces (l : list string) : list string :=
  match l with
  | [] => []
  | [w] => if bool_decide (w = ""%string) then [] else [w]
  | w :: l => strip_cr w :: line_pieces l
  end.
(** [s.lines()] *)
Definition lines (s : string) : list string := line_pieces (split_on newline s).

(** ** Decimal texts *)
Definition digit_char (c : ascii) : bool := (48 <=? code c) && (code c <=? 57).
Lemma digit_char_chr n : 0 <= n < 10 → digit_char (chr (48 + n)) = true.
Proof.
  intros. unfold digit_char. rewrite code_chr by lia.
  destruct (48 <=? 48 + n) eqn:E1, (48 + n <=? 57) eqn:E2; bool_simp; done || lia.
Qed.
Lemma all_digits_dec fuel n acc :
  all_chars digit_char acc = true → all_chars digit_char (dec_nonneg fuel n acc) = true.
Proof.
  assert (∀ n acc, all_chars digit_char acc = true →
    all_chars digit_char (String (chr (48 + n mod 10)) acc) = true) as Hc.
  { intros m a Ha. cbn. rewrite Ha, digit_char_chr; [done|]. apply Z.mod_pos_bound. lia. }
  revert n acc. induction fuel as [|fuel IH]; intros n acc Ha; cbn [dec_nonneg]; [by apply Hc|].
  destruct (n <? 10); [by apply Hc|]. by apply IH, Hc.
Qed.
Lemma all_digits_to_string n : 0 <= n → all_chars digit_char (to_string n) = true.
Proof.
  intros Hn. unfold to_string. destruct (n <? 0) eqn:E; bool_simp; [lia|]. by apply all_digits_dec.
Qed.
Lemma to_string_nonempty n : to_string n ≠ ""%string.
Proof.
  unfold to_string. destruct (dec_nonneg_cons (Z.to_nat (Z.log2 (Z.abs n))) (Z.abs n) "") as (d & s & _ & ->); [lia|].
  by destruct (n <? 0).
Qed.
Lemma has_char_to_string c n : 0 <= n → digit_char c = false → has_char c (to_string n) = false.
Proof. intros Hn Hc. eapply has_char_all; [by apply all_digits_to_string|done]. Qed.
Lemma parse_int_to_string lo hi n : lo <= n <= hi → 0 <= n → parse_int lo hi (to_string n) = Some n.
Proof. intros. apply parse_to_string; [done|by right]. Qed.

Definition parse_u16 : string → option Z := parse_int 0 65535.
Definition parse_u32 : string → option Z := parse_int 0 (2 ^ 32 - 1).
Definition parse_u64 : string → option Z := parse_int 0 (2 ^ 64 - 1).

(** ** Hexadecimal *)
(** [{:02x}] of a byte *)
Definition hex2 (n : Z) : string := String (hex_digit (n / 16)) (String (hex_digit (n mod 16)) "").
(** [from_str_radix(16)]: an optional plus, at least one digit. *)
Definition parse_hex (hi : Z) (s : string) : option Z :=
  let s := match s with String "+" r => r | _ => s end in
  if bool_decide (s = ""%string) then None else n ← hex_from 0 s; within 0 hi n.

(** ** Texts and bytes *)
Fixpoint str_bytes (s : string) : bytes :=
  match s with EmptyString => [] | String c r => code c :: str_bytes r end.
Fixpoint bytes_str (l : bytes) : string :=
  match l with [] => ""%string | b :: l => String (chr b) (bytes_str l) end.

Lemma bytes_str_str_bytes s : bytes_str (str_bytes s) = s.
Proof.
  induction s as [|c s IH]; cbn; [done|]. rewrite IH. f_equal. unfold chr, code.
  by rewrite Nat2Z.id, ascii_nat_embedding.
Qed.
Lemma str_bytes_bytes_str l : bytes_ok l → str_bytes (bytes_str l) = l.
Proof. induction 1 as [|b l Hb _ IH]; cbn; [done|]. by rewrite IH, code_chr. Qed.
Lemma length_str_bytes s : length (str_bytes s) = String.length s.
Proof. induction s as [|c s IH]; cbn; [done|]. by rewrite IH. Qed.
Lemma str_bytes_app s t : str_bytes (s +:+ t) = str_bytes s ++ str_bytes t.
Proof. induction s as [|c s IH]; str_simp; [done|]. cbn. by rewrite IH. Qed.
Lemma code_ok c : u8_ok (code c).
Proof. unfold u8_ok, code. pose proof (nat_ascii_bounded c). lia. Qed.
Lemma str_bytes_ok s : bytes_ok (str_bytes s).
Proof. induction s as [|c s IH]; constructor; [apply code_ok|done]. Qed.

(** The first character of a byte string: of how many bytes, or how many bytes
    the longest start of a character has that goes wrong. *)
Definition cont (b : option Z) : bool := match b with Some b => (128 <=? b) && (b <=? 191) | None => false end.
Definition between_ (lo hi : Z) (b : option Z) : bool := match b with Some b => (lo <=? b) && (b <=? hi) | None => false end.
Definition utf8_first (l : bytes) : option (nat + nat) :=
  match l with
  | [] => None
  | b :: r =>
    let b1 := r !! 0%nat in let b2 := r !! 1%nat in let b3 := r !! 2%nat in
    Some
      (if b <? 128 then inl 1%nat
       else if (194 <=? b) && (b <=? 223) then if cont b1 then inl 2%nat else inr 1%nat
       else if (224 <=? b) && (b <=? 239) then
         let lo := if b =? 224 then 160 else 128 in let hi := if b =? 237 then 159 else 191 in
         if negb (between_ lo hi b1) then inr 1%nat
         else if negb (cont b2) then inr 2%nat else inl 3%nat
       else if (240 <=? b) && (b <=? 244) then
         let lo := if b =? 240 then 144 else 128 in let hi := if b =? 244 then 143 else 191 in
         if negb (between_ lo hi b1) then inr 1%nat
         else if negb (cont b2) then inr 2%nat
         else if negb (cont b3) then inr 3%nat else inl 4%nat
       else inr 1%nat)
  end.

(** [String::from_utf8(..).ok()]; the fuel is the length. *)
Fixpoint utf8_valid_fuel (fuel : nat) (l : bytes) : bool :=
  match fuel with
  | O => true
  | S fuel => match utf8_first l with
              | None => true
              | Some (inl n) => utf8_valid_fuel fuel (drop n l)
              | Some (inr _) => false
              end
  end.
Definition from_utf8 (l : bytes) : option string :=
  if utf8_valid_fuel (length l) l then Some (bytes_str l) else None.

(** [String::from_utf8_lossy]: what is no character becomes U+FFFD. *)
Fixpoint lossy_fuel (fuel : nat) (l : bytes) : bytes :=
  match fuel with
  | O => []
  | S fuel => match utf8_first l with
              | None => []
              | Some (inl n) => take n l ++ lossy_fuel fuel (drop n l)
              | Some (inr n) => [239; 191; 189] ++ lossy_fuel fuel (drop n l)
              end
  end.
Definition from_utf8_lossy (l : bytes) : string := bytes_str (lossy_fuel (length l) l).

(** A text the program holds in a [String]. *)
Definition is_utf8 (s : string) : Prop := utf8_valid_fuel (String.length s) (str_bytes s) = true.
Lemma from_utf8_bytes s : is_utf8 s → from_utf8 (str_bytes s) = Some s.
Proof.
  unfold is_utf8, from_utf8. rewrite length_str_bytes. intros ->. by rewrite bytes_str_str_bytes.
Qed.
Lemma from_utf8_some l s : bytes_ok l → from_utf8 l = Some s → str_bytes s = l ∧ is_utf8 s.
Proof.
  intros Hl. unfold from_utf8. destruct (utf8_valid_fuel _ _) eqn:E; [|done]. intros [= <-].
  split; [by apply str_bytes_bytes_str|]. unfold is_utf8.
  rewrite <- length_str_bytes, str_bytes_bytes_str by done. done.
Qed.

Lemma utf8_first_le l n : utf8_first l = Some (inl n) → (1 <= n <= length l)%nat.
Proof.
  destruct l as [|b r]; cbn [utf8_first length]; [done|]. intros E.
  assert (∀ i x, r !! i = Some x → (i < length r)%nat) as Hlen by (intros; by eapply lookup_lt_Some).
  assert (∀ i, cont (r !! i) = true → (i < length r)%nat) as Hc.
  { intros i. destruct (r !! i) eqn:Ei; [|done]. eauto. }
  revert E. repeat case_match; intros; simplify_eq; bool_simp; try lia;
    repeat match goal with H : cont (r !! ?i) = true |- _ => apply Hc in H end; lia.
Qed.
Lemma from_utf8_lossy_valid_fuel fuel l :
  (length l <= fuel)%nat → utf8_valid_fuel fuel l = true → lossy_fuel fuel l = l.
Proof.
  revert l. induction fuel as [|fuel IH]; intros l Hl; cbn; [by destruct l; cbn in *; [|lia]|].
  destruct (utf8_first l) as [[n|n]|] eqn:E; [|done|].
  - intros Hv. pose proof (utf8_first_le l n E) as Hn. rewrite IH; [apply take_drop| |done].
    rewrite length_drop. lia.
  - intros _. by destruct l.
Qed.
(** A valid text is its own lossy reading. *)
Lemma from_utf8_lossy_bytes s : is_utf8 s → from_utf8_lossy (str_bytes s) = s.
Proof.
  intros Hs. unfold from_utf8_lossy. rewrite from_utf8_lossy_valid_fuel; [apply bytes_str_str_bytes|lia|].
  rewrite length_str_bytes. exact Hs.
Qed.

Definition is_ascii (c : ascii) : bool := code c <? 128.
Lemma ascii_utf8 s : all_chars is_ascii s = true → is_utf8 s.
Proof.
  unfold is_utf8. induction s as [|c s IH]; [done|]. cbn [all_chars]. intros [Hc Hs]%andb_true_iff.
  unfold is_ascii in Hc. cbn [String.length str_bytes utf8_valid_fuel utf8_first]. rewrite Hc. cbn [drop].
  by apply IH.
Qed.

Lemma cont_app r m i : cont (r !! i) = true → (r ++ m) !! i = r !! i.
Proof. intros Hc. destruct (r !! i) eqn:E; [|done]. by apply lookup_app_l_Some. Qed.
Lemma between_app lo hi r m i : between_ lo hi (r !! i) = true → (r ++ m) !! i = r !! i.
Proof. intros Hc. destruct (r !! i) eqn:E; [|done]. by apply lookup_app_l_Some. Qed.
Lemma utf8_first_app l m n : utf8_first l = Some (inl n) → utf8_first (l ++ m) = Some (inl n).
Proof.
  destruct l as [|b r]; [done|]. cbn [utf8_first app]. intros [= E]. rewrite <- E. revert E.
  repeat case_match; intros; try done; bool_simp;
    repeat match goal with
      | H : cont (r !! _) = true |- _ => pose proof (cont_app _ m _ H); revert H
      | H : between_ _ _ (r !! _) = true |- _ => pose proof (between_app _ _ _ m _ H); revert H
      end; intros; congruence.
Qed.
Lemma utf8_valid_more l f : (length l <= f)%nat → utf8_valid_fuel f l = true → utf8_valid_fuel (S f) l = true.
Proof.
  revert l. induction f as [|f IH]; intros l Hl; [by destruct l; cbn in *; [|lia]|].
  cbn [utf8_valid_fuel]. destruct (utf8_first l) as [[n|n]|] eqn:E; [|done|done].
  intros Hv. pose proof (utf8_first_le l n E). apply (IH (drop n l)); [|done]. rewrite length_drop. lia.
Qed.
Lemma utf8_valid_app a b f g :
  (length a <= f)%nat → (length b <= g)%nat → utf8_valid_fuel f a = true → utf8_valid_fuel g b = true →
  utf8_valid_fuel (f + g) (a ++ b) = true.
Proof.
  intros Ha Hb. revert a Ha. induction f as [|f IH]; intros a Ha; [by destruct a; cbn in *; [|lia]|].
  intros Hva Hvb. destruct a as [|x a].
  - cbn [app]. clear IH Hva Ha. induction (S f) as [|k IH]; [done|]. cbn [Nat.add].
    apply utf8_valid_more; [lia|done].
  - cbn [Nat.add utf8_valid_fuel] in *. destruct (utf8_first (x :: a)) as [[n|n]|] eqn:E; [|done|done].
    rewrite (utf8_first_app _ b _ E). pose proof (utf8_first_le _ _ E) as Hn.
    rewrite drop_app_le by lia. apply IH; [rewrite length_drop; lia|done|done].
Qed.
Lemma all_chars_weaken (p q : ascii → bool) s :
  (∀ c, p c = true → q c = true) → all_chars p s = true → all_chars q s = true.
Proof. intros Hpq. induction s as [|c s IH]; [done|]. cbn. intros H. bool_simp. by rewrite Hpq, IH. Qed.
Lemma to_string_utf8 n : 0 <= n → is_utf8 (to_string n).
Proof.
  intros Hn. apply ascii_utf8, (all_chars_weaken digit_char); [|by apply all_digits_to_string].
  intros c. unfold digit_char, is_ascii. intros Hd. bool_simp. apply Z.ltb_lt. lia.
Qed.
Lemma is_utf8_app s t : is_utf8 s → is_utf8 t → is_utf8 (s +:+ t).
Proof.
  unfold is_utf8. intros Hs Ht. rewrite length_string_app, str_bytes_app.
  apply utf8_valid_app; rewrite ?length_str_bytes; done || lia.
Qed.

Example lossy_example :
  from_utf8_lossy (str_bytes "ab" ++ [255; 195; 40; 226; 130]) = bytes_str (str_bytes "ab" ++ [239; 191; 189; 239; 191; 189; 40; 239; 191; 189])
  ∧ from_utf8 [226; 130; 172] = Some (bytes_str [226; 130; 172]) ∧ from_utf8 [237; 160; 128] = None
  ∧ split_str "]:" "[1:2]:12" = ["[1:2"; "12"]%string ∧ replace "1.1" "x" "1.1.1.1:80" = "x.x:80"%string.
Proof. vm_compute. done. Qed.

(** ** Searching for a separator *)
Lemma strip_prefix_app p s : strip_prefix p (p +:+ s) = Some s.
Proof. induction p as [|c p IH]; str_simp; [done|]. cbn. by rewrite Ascii.eqb_refl. Qed.
Lemma strip_prefix_some p s r : strip_prefix p s = Some r → s = p +:+ r.
Proof.
  revert s. induction p as [|c p IH]; intros s; cbn; [by intros [= ->]|].
  destruct s as [|x s]; [done|]. destruct (Ascii.eqb c x) eqn:E; [|done].
  apply Ascii.eqb_eq in E as ->. intros H. str_simp. f_equal. by apply IH.
Qed.
Lemma contains_char c s : contains (String c "") s = has_char c s.
Proof.
  induction s as [|x s IH]; [done|]. cbn [contains has_char]. rewrite IH. f_equal.
  unfold starts_with. cbn [strip_prefix]. destruct (Ascii.eqb c x) eqn:E.
  - apply Ascii.eqb_eq in E as ->. rewrite !bool_decide_eq_true_2 by (done || by eexists). done.
  - apply Ascii.eqb_neq in E. rewrite !bool_decide_eq_false_2; [done|congruence|by intros [? [=]]].
Qed.
Lemma starts_with_cons c s x : starts_with (String c "") (String x s) = Ascii.eqb c x.
Proof.
  unfold starts_with. cbn. destruct (Ascii.eqb c x); [by apply bool_decide_eq_true_2|].
  apply bool_decide_eq_false_2. by intros [? [=]].
Qed.

Lemma cut_str_none c q s : has_char c s = false → cut_str (String c q) s = None.
Proof.
  induction s as [|x s IH]; [done|]. cbn. intros H. bool_simp.
  rewrite (proj2 (Ascii.eqb_neq c x)) by congruence. by rewrite IH.
Qed.
Lemma cut_str_app c q a b : has_char c a = false → cut_str (String c q) (a +:+ String c q +:+ b) = Some (a, b).
Proof.
  induction a as [|x a IH].
  - intros _. change ("" +:+ String c q +:+ b) with (String c q +:+ b).
    pose proof (strip_prefix_app (String c q) b) as E. str_simp. cbn [cut_str]. by rewrite E.
  - intros H. change (String x a +:+ String c q +:+ b) with (String x (a +:+ String c q +:+ b)).
    cbn in H |- *. bool_simp. rewrite (proj2 (Ascii.eqb_neq c x)) by congruence. by rewrite IH.
Qed.
Lemma split_str_none c q s : has_char c s = false → split_str (String c q) s = [s].
Proof.
  intros H. unfold split_str. destruct (String.length s); [done|]. cbn [split_str_fuel].
  by rewrite cut_str_none.
Qed.
Lemma split_str_two c q a b :
  has_char c a = false → has_char c b = false →
  split_str (String c q) (a +:+ String c q +:+ b) = [a; b].
Proof.
  intros Ha Hb. unfold split_str. rewrite length_string_app.
  change (String.length (String c q +:+ b)) with (S (String.length (q +:+ b))).
  rewrite Nat.add_succ_r. cbn [split_str_fuel]. rewrite cut_str_app by done.
  destruct (_ + _)%nat; [done|]. cbn [split_str_fuel]. by rewrite cut_str_none.
Qed.
