(* ===== verification/Regex.v ===== *)
(** * Regular expressions

    The program tests host names, addresses and ids against fixed patterns of
    the [regex] crate.  A pattern is a value of [re]; [is_match] decides by
    derivatives whether a whole text matches (the patterns are all anchored at
    both ends), and [is_match_spec] says that it decides the language [matches]
    defines.  The classes [\d] and [\w] are taken on ASCII texts. *)
From Stdlib Require Import Ascii.
From S2P Require Import Prelude AddrMangle Text TextFacts.
Local Open Scope Z_scope.

Inductive re : Type :=
| Nothing
| Empty
| Char (p : ascii → bool)
| Seq (a b : re)
| Alt (a b : re)
| Star (a : re).

(** ** The language of a pattern *)
Inductive matches : re → string → Prop :=
| m_empty : matches Empty ""
| m_char p c : p c = true → matches (Char p) (String c "")
| m_seq a b s t : matches a s → matches b t → matches (Seq a b) (s +:+ t)
| m_alt_l a b s : matches a s → matches (Alt a b) s
| m_alt_r a b s : matches b s → matches (Alt a b) s
| m_star_nil a : matches (Star a) ""
| m_star a s t : matches a s → matches (Star a) t → matches (Star a) (s +:+ t).

(** ** Deciding it *)
Fixpoint nullable (r : re) : bool :=
  match r with
  | Nothing | Char _ => false
  | Empty | Star _ => true
  | Seq a b => nullable a && nullable b
  | Alt a b => nullable a || nullable b
  end.

(** What is left to match after the character [c]. *)
Fixpoint deriv (c : ascii) (r : re) : re :=
  match r with
  | Nothing | Empty => Nothing
  | Char p => if p c then Empty else Nothing
  | Seq a b => if nullable a then Alt (Seq (deriv c a) b) (deriv c b) else Seq (deriv c a) b
  | Alt a b => Alt (deriv c a) (deriv c b)
  | Star a => Seq (deriv c a) (Star a)
  end.

Fixpoint is_match (r : re) (s : string) : bool :=
  match s with
  | EmptyString => nullable r
  | String c s => is_match (deriv c r) s
  end.

Lemma nullable_spec r : nullable r = true ↔ matches r "".
Proof.
  split.
  - induction r; cbn; intros E; try done.
    + constructor.
    + bool_simp. apply (m_seq _ _ "" ""); auto.
    + apply orb_true_iff in E as [E|E]; [apply m_alt_l|apply m_alt_r]; auto.
    + constructor.
  - remember ""%string as s eqn:Es. induction 1; cbn; try done.
    + apply app_nil_eq in Es as [-> ->]. by rewrite IHmatches1, IHmatches2.
    + by rewrite IHmatches.
    + rewrite IHmatches by done. apply orb_true_r.
Qed.

Lemma deriv_sound r c s : matches (deriv c r) s → matches r (String c s).
Proof.
  revert s. induction r as [| |p|a IHa b IHb|a IHa b IHb|a IHa]; cbn; intros s Hm.
  1,2: inversion Hm.
  - destruct (p c) eqn:E; inversion Hm; subst. by constructor.
  - destruct (nullable a) eqn:En.
    + inversion Hm as [| | |? ? ? H1|? ? ? H1| |]; subst.
      * inversion H1; subst. rewrite <- app_cons. constructor; auto.
      * apply (m_seq _ _ "" (String c s)); [by apply nullable_spec|auto].
    + inversion Hm; subst. rewrite <- app_cons. constructor; auto.
  - inversion Hm; subst; [apply m_alt_l|apply m_alt_r]; auto.
  - inversion Hm; subst. rewrite <- app_cons. constructor; auto.
Qed.

Lemma deriv_complete r c s : matches r (String c s) → matches (deriv c r) s.
Proof.
  remember (String c s) as u eqn:Eu. intros Hm. revert s Eu.
  induction Hm as [|p x Hp|a b s1 t H1 IH1 H2 IH2|a b t H IH|a b t H IH| |a s1 t H1 IH1 H2 IH2];
    intros s Eu; cbn; try done.
  - injection Eu as -> <-. rewrite Hp. constructor.
  - destruct s1 as [|x s1].
    + change (t = String c s) in Eu. subst t. rewrite (proj2 (nullable_spec a)) by done. apply m_alt_r. by apply IH2.
    + injection Eu as -> <-. assert (matches (Seq (deriv c a) b) (s1 +:+ t)).
      { constructor; [by apply IH1|done]. }
      destruct (nullable a); [by apply m_alt_l|done].
  - apply m_alt_l. by apply IH.
  - apply m_alt_r. by apply IH.
  - destruct s1 as [|x s1]; [by apply IH2|]. injection Eu as -> <-.
    constructor; [by apply IH1|done].
Qed.

(** [is_match] decides whether the pattern matches the whole text. *)
Lemma is_match_spec r s : is_match r s = true ↔ matches r s.
Proof.
  revert r. induction s as [|c s IH]; intros r; cbn; [apply nullable_spec|].
  rewrite IH. split; [apply deriv_sound|apply deriv_complete].
Qed.

(** ** Pattern notations of the crate *)
Definition lit (c : ascii) : re := Char (Ascii.eqb c).
Definition opt (a : re) : re := Alt Empty a.
Definition plus (a : re) : re := Seq a (Star a).
(** [a{n}], [a{lo,hi}] *)
Fixpoint times (n : nat) (a : re) : re := match n with O => Empty | S n => Seq a (times n a) end.
Fixpoint at_most (n : nat) (a : re) : re := match n with O => Empty | S n => opt (Seq a (at_most n a)) end.
Definition between (lo hi : nat) (a : re) : re := Seq (times lo a) (at_most (hi - lo) a).

Definition in_range (lo hi : Z) (c : ascii) : bool := (lo <=? code c) && (code c <=? hi).
Definition is_digit : ascii → bool := in_range 48 57.
Definition is_lower : ascii → bool := in_range 97 122.
Definition is_upper : ascii → bool := in_range 65 90.
Definition is_alpha (c : ascii) : bool := is_lower c || is_upper c.
Definition is_hex (c : ascii) : bool := in_range 97 102 c || in_range 65 70 c || is_digit c.
Definition is_word (c : ascii) : bool := is_alpha c || is_digit c || Ascii.eqb c "_".
Definition d : re := Char is_digit.

(** ** Facts on languages *)
Lemma matches_seq a b s : matches (Seq a b) s → ∃ s1 s2, s = s1 +:+ s2 ∧ matches a s1 ∧ matches b s2.
Proof. inversion 1; subst; eauto. Qed.
Lemma matches_alt a b s : matches (Alt a b) s → matches a s ∨ matches b s.
Proof. inversion 1; subst; eauto. Qed.
Lemma matches_char p s : matches (Char p) s → ∃ c, s = String c "" ∧ p c = true.
Proof. inversion 1; subst; eauto. Qed.
Lemma matches_lit c s : matches (lit c) s → s = String c "".
Proof. intros (x & -> & E)%matches_char. apply Ascii.eqb_eq in E. by subst. Qed.
Lemma matches_lit_intro c : matches (lit c) (String c "").
Proof. constructor. apply Ascii.eqb_refl. Qed.

(** A text over the class [p], of any length, of at least one, of so many. *)
Lemma matches_star_char p s : matches (Star (Char p)) s ↔ all_chars p s = true.
Proof.
  split.
  - remember (Star (Char p)) as r eqn:Er. induction 1; simplify_eq/=; [done|].
    apply matches_char in H as (c & -> & Hc). str_simp. cbn. by rewrite Hc, IHmatches2.
  - induction s as [|c s IH]; cbn; intros E; [constructor|]. bool_simp.
    apply (m_star _ (String c "") s); [by constructor|auto].
Qed.
Lemma matches_plus_char p s : matches (plus (Char p)) s ↔ all_chars p s = true ∧ s ≠ ""%string.
Proof.
  unfold plus. split.
  - intros (s1 & s2 & -> & (c & -> & Hc)%matches_char & H2%matches_star_char)%matches_seq.
    str_simp. cbn. by rewrite Hc, H2.
  - intros [Hs Hne]. destruct s as [|c s]; [done|]. cbn in Hs. bool_simp.
    apply (m_seq _ _ (String c "") s); [by constructor|by apply matches_star_char].
Qed.
Lemma matches_times_char n p s :
  matches (times n (Char p)) s ↔ all_chars p s = true ∧ String.length s = n.
Proof.
  revert s. induction n as [|n IH]; cbn; intros s.
  - split; [inversion 1; done|]. intros [_ E]. destruct s; [constructor|done].
  - split.
    + intros (s1 & s2 & -> & (c & -> & Hc)%matches_char & [H2 Hl]%IH)%matches_seq. str_simp. cbn. rewrite Hc, H2. by rewrite Hl.
    + intros [Hs Hl]. destruct s as [|c s]; [done|]. cbn in *. bool_simp.
      apply (m_seq _ _ (String c "") s); [by constructor|]. apply IH. split; [done|lia].
Qed.
Lemma matches_at_most_char n p s :
  matches (at_most n (Char p)) s ↔ all_chars p s = true ∧ (String.length s <= n)%nat.
Proof.
  revert s. induction n as [|n IH]; cbn; intros s.
  - split; [inversion 1; done|]. intros [_ E]. destruct s; [constructor|cbn in E; lia].
  - split.
    + intros [E|E]%matches_alt; [inversion E; subst; split; [done|cbn; lia]|].
      apply matches_seq in E as (s1 & s2 & -> & (c & -> & Hc)%matches_char & [H2 Hl]%IH).
      str_simp. cbn. rewrite Hc, H2. split; [done|lia].
    + intros [Hs Hl]. destruct s as [|c s]; [apply m_alt_l; constructor|]. apply m_alt_r. cbn in *. bool_simp.
      apply (m_seq _ _ (String c "") s); [by constructor|]. apply IH. split; [done|lia].
Qed.
Lemma matches_between_char lo hi p s :
  (lo <= hi)%nat →
  matches (between lo hi (Char p)) s ↔ all_chars p s = true ∧ (lo <= String.length s <= hi)%nat.
Proof.
  intros Hle. unfold between. split.
  - intros (s1 & s2 & -> & [H1 E1]%matches_times_char & [H2 E2]%matches_at_most_char)%matches_seq.
    rewrite all_chars_app, length_string_app, H1, H2. split; [done|lia].
  - intros [Hs Hl]. assert (∃ s1 s2, s = s1 +:+ s2 ∧ String.length s1 = lo) as (s1 & s2 & -> & E1).
    { clear - Hl. destruct Hl as [Hl _]. revert s Hl. induction lo as [|lo IH]; intros s Hl; [by exists ""%string, s|].
      destruct s as [|c s]; [cbn in Hl; lia|]. destruct (IH s) as (s1 & s2 & -> & E); [cbn in Hl; lia|].
      exists (String c s1), s2. split; [done|]. cbn. by rewrite E. }
    rewrite all_chars_app in Hs. rewrite length_string_app in Hl. bool_simp.
    constructor; [by apply matches_times_char|]. apply matches_at_most_char. split; [done|lia].
Qed.
