(* ===== verification/HostText.v ===== *)
(** * Hosts, ports and versions: [libs/core-common/src/lib.rs], [socket_client.rs]

    The text functions every connection of the client goes through: what counts
    as an IPv4 or IPv6 address or a domain with a port, how a default port is
    added, taken off and moved, and how version texts become numbers.  The
    patterns are those of the source, decided by [Regex.is_match].  Theorems: a
    host and a port written with [check_port] are read back by
    [split_host_port] and moved by [increase_port], except for the names that
    look like a group of an IPv6 address; version numbers order like their
    components as long as the components are small. *)
From Stdlib Require Import Ascii.
From S2P Require Import Prelude AddrMangle Text TextFacts Regex.
Local Open Scope Z_scope.

(** ** Patterns *)

(** [25[0-5]|2[0-4][0-9]|[01]?[0-9][0-9]?] *)
Definition OCTET : re :=
  Alt (Seq (lit "2") (Seq (lit "5") (Char (in_range 48 53))))
      (Alt (Seq (lit "2") (Seq (Char (in_range 48 52)) d))
           (Seq (opt (Char (in_range 48 49))) (Seq d (opt d)))).
Definition IPV4 : re :=
  Seq OCTET (Seq (lit ".") (Seq OCTET (Seq (lit ".") (Seq OCTET (Seq (lit ".") (Seq OCTET
    (opt (Seq (lit ":") (plus d))))))))).
Definition is_ipv4_str : string → bool := is_match IPV4.

(** [([a-fA-F0-9]{1,4}:{1,2})+[a-fA-F0-9]{1,4}] *)
Definition HEX14 : re := between 1 4 (Char is_hex).
Definition COLONS : re := between 1 2 (lit ":").
Definition GROUPS : re := Seq (plus (Seq HEX14 COLONS)) HEX14.
Definition IPV6 : re :=
  Alt GROUPS (Seq (lit "[") (Seq GROUPS (Seq (lit "]") (Seq (lit ":") (plus d))))).
Definition is_ipv6_str : string → bool := is_match IPV6.

Definition is_ip_str (id : string) : bool := is_ipv4_str id || is_ipv6_str id.

(** [([a-z0-9]([a-z0-9-]{0,61}[a-z0-9])?\.)+[a-z][a-z-]{0,61}[a-z]:\d{1,5}],
    without regard to case. *)
Definition alnum (c : ascii) : bool := is_alpha c || is_digit c.
Definition DOMAIN_PORT : re :=
  Seq (plus (Seq (Char alnum)
               (Seq (opt (Seq (between 0 61 (Char (λ c, alnum c || Ascii.eqb c "-"))) (Char alnum))) (lit "."))))
    (Seq (Char is_alpha) (Seq (between 0 61 (Char (λ c, is_alpha c || Ascii.eqb c "-")))
      (Seq (Char is_alpha) (Seq (lit ":") (between 1 5 d))))).
Definition is_domain_port_str : string → bool := is_match DOMAIN_PORT.

(** [[a-zA-Z][\w-]{5,15}] *)
Definition CUSTOM_ID : re :=
  Seq (Char is_alpha) (between 5 15 (Char (λ c, is_word c || Ascii.eqb c "-"))).
Definition is_valid_custom_id : string → bool := is_match CUSTOM_ID.

Example ip_texts :
  forallb is_ipv4_str ["1.2.3.4"; "1.2.3.4:90"; "0.0.0.0"; "255.255.255.255"]
  ∧ existsb is_ipv4_str ["256.0.0.0"; "1:2:"; "192.168.0.256"; "192.168.0.1/24"; "192.168.0."; "192.168..1"] = false
  ∧ forallb is_ipv6_str ["1:2:3"; "[ab:2:3]:12"; "[ABEF:2a:3]:12"; "1:2::0"; "[1:2::0]:1"]
  ∧ existsb is_ipv6_str ["[ABEG:2a:3]:12"; "1[ab:2:3]:12"; "1.1.1.1"; "1:2:"; "[1:2::0]:"; "1:2::0]:1"] = false
  ∧ forallb is_domain_port_str ["test.com:12"; "test-UPPER.com:12"; "some-other.domain.com:12"; "test.com:98989"]
  ∧ existsb is_domain_port_str ["a:12"; "a.b.c:12"; "under_score:12"; "1.1.1.1:12"; "a.b.c:123456"; "---:12"; ".:12"] = false.
Proof. vm_compute. done. Qed.

(** ** Ports *)

Definition check_port (host : string) (port : Z) : string :=
  if is_ipv6_str host then
    if starts_with "[" host then host
    else "[" +:+ host +:+ "]:" +:+ to_string port
  else if negb (contains ":" host) then host +:+ ":" +:+ to_string port
  else host.

(** The two pieces around a separator, with a positive port in the second. *)
Definition host_and_port (sep host : string) : option (string * Z) :=
  match split_str sep host with
  | [a; b] => let port := default 0 (parse_i32 b) in if 0 <? port then Some (a, port) else None
  | _ => None
  end.

(** [port + offset] is an [i32]; it wraps in a release build. *)
Definition increase_port (host : string) (offset : Z) : string :=
  if is_ipv6_str host then
    if starts_with "[" host then
      match host_and_port "]:" host with
      | Some (a, port) => a +:+ "]:" +:+ to_string (as_i32 (port + offset))
      | None => host
      end
    else host
  else if contains ":" host then
    match host_and_port ":" host with
    | Some (a, port) => a +:+ ":" +:+ to_string (as_i32 (port + offset))
    | None => host
    end
  else host.

Definition split_host_port (host : string) : option (string * Z) :=
  if is_ipv6_str host then
    if starts_with "[" host then
      match host_and_port "]:" host with Some (a, port) => Some (a +:+ "]", port) | None => None end
    else None
  else if contains ":" host then host_and_port ":" host
  else None.

Definition ipv4_to_ipv6 (addr : string) (ipv4 : bool) : string :=
  if negb ipv4 && is_ipv4_str addr then
    match split_on ":" addr with
    | ip :: _ => replace ip (ip +:+ ".nip.io") addr
    | [] => addr
    end
  else addr.

Example port_texts :
  [check_port "[1:2]:12" 32; check_port "1:2" 32; check_port "z1:2" 32; check_port "1.1.1.1" 32;
   check_port "1.1.1.1:32" 32; check_port "test.com:32" 0; increase_port "[1:2]:12" 1;
   increase_port "1.2.2.4:12" 1; increase_port "1.2.2.4" 1; increase_port "test.com" 1;
   increase_port "test.com:13" 4; increase_port "1:13" 4; increase_port "22:1:13" 4; increase_port "z1:2" 1;
   ipv4_to_ipv6 "1.1.1.1" true; ipv4_to_ipv6 "1.1.1.1" false; ipv4_to_ipv6 "1.1.1.1:8080" false;
   ipv4_to_ipv6 "rustdesk.com" false]
  = ["[1:2]:12"; "[1:2]:32"; "z1:2"; "1.1.1.1:32"; "1.1.1.1:32"; "test.com:32"; "[1:2]:13"; "1.2.2.4:13";
     "1.2.2.4"; "test.com"; "test.com:17"; "1:13"; "22:1:13"; "z1:3"; "1.1.1.1"; "1.1.1.1.nip.io";
     "1.1.1.1.nip.io:8080"; "rustdesk.com"]%string.
Proof. vm_compute. done. Qed.

(** ** Versions *)

(** [i64] arithmetic of a release build. *)
Definition as_i64 (z : Z) : Z := (z + 2 ^ 63) mod 2 ^ 64 - 2 ^ 63.
Definition part (x : string) : Z := default 0 (parse_i64 x).

Definition version_step (acc : Z * Z) (x : string) : Z * Z :=
  let last := part x in (as_i64 (as_i64 (acc.1 * 1000) + last), last).
Definition get_version_number (v : string) : Z :=
  match split_on "-" v with
  | [] => 0
  | v :: versions =>
    let '(n, last) := foldl version_step (0, 0) (split_on "." v) in
    let n := as_i64 (as_i64 (n - last) + as_i64 (last * 10)) in
    match versions with
    | v :: _ => as_i64 (n + part v)
    | [] => n
    end
  end.

(** [get_version_from_url]: what follows the last hyphen, up to the last full
    stop unless a number follows it. *)
Definition get_version_from_url (url : string) : string :=
  match rcut "-" url, rcut "." url with
  | Some (_, after), Some (_, ext) =>
    if Nat.ltb (String.length ext) (String.length after) then
      if is_Some_dec (parse_i32 ext) then after
      else String.substring 0 (String.length after - String.length ext - 1) after
    else after
  | _, _ => ""
  end.

Example version_texts :
  get_version_number <$> ["1.1.10"; "1.1.10-1"; "1.1.11-1"; "1.2.3"; "1.3.0-2-rc"; ""]%string
    = [1001100; 1001101; 1001111; 1002030; 1003002; 0]
  ∧ get_version_from_url "https://x/rustdesk-1.1.9.exe" = "1.1.9"%string
  ∧ get_version_from_url "https://x/rustdesk-1.1.9" = "1.1.9"%string.
Proof. vm_compute. done. Qed.

(** ** The languages of the patterns *)

Definition v6_char (c : ascii) : bool := is_hex c || Ascii.eqb c ":".

Lemma hex14_spec s : matches HEX14 s ↔ all_chars is_hex s = true ∧ (1 <= String.length s <= 4)%nat.
Proof. apply matches_between_char. lia. Qed.

Lemma hex_v6 s : all_chars is_hex s = true → all_chars v6_char s = true.
Proof. apply all_chars_weaken. intros c H. unfold v6_char. by rewrite H. Qed.

(** One or two colons. *)
Lemma colons_spec s : matches COLONS s → ∃ s', s = String ":" s' ∧ all_chars v6_char s = true.
Proof.
  intros H%matches_between_char; [|lia]. destruct H as [H Hl].
  destruct s as [|c s]; [cbn in Hl; lia|]. exists s.
  assert (all_chars v6_char (String c s) = true) as Hv.
  { eapply all_chars_weaken; [|exact H]. intros x E. unfold v6_char.
    rewrite (Ascii.eqb_sym x), E. apply orb_true_r. }
  apply andb_true_iff in H as [<-%Ascii.eqb_eq _]. done.
Qed.

(** The groups of an IPv6 address: hexadecimal digits and colons, one group
    before the first colon. *)
Lemma groups_spec s :
  matches GROUPS s → all_chars v6_char s = true ∧ ∃ g r, s = g +:+ String ":" r ∧ matches HEX14 g.
Proof.
  intros (s1 & s2 & -> & (x & y & -> & Hx & Hy)%matches_seq & H2)%matches_seq.
  assert (∀ z, matches (Seq HEX14 COLONS) z → all_chars v6_char z = true ∧
            ∃ g r, z = g +:+ String ":" r ∧ matches HEX14 g) as Hg.
  { intros z (g & c & -> & Hgm & Hc)%matches_seq. destruct (colons_spec c Hc) as (c' & -> & Hc').
    pose proof (proj1 (hex14_spec g) Hgm) as [Hh _]. rewrite all_chars_app, hex_v6, Hc' by done. eauto. }
  destruct (Hg x Hx) as [Hxv (g & r & -> & Hgm)]. split.
  - rewrite !all_chars_app in *. rewrite Hxv.
    pose proof (proj1 (hex14_spec s2) H2) as [H2h _]. rewrite (hex_v6 s2) by done.
    rewrite andb_true_r. cbn [andb]. clear - Hy Hg.
    remember (Star (Seq HEX14 COLONS)) as R eqn:ER. induction Hy; simplify_eq; [done|].
    rewrite all_chars_app. destruct (Hg s) as [-> _]; [done|]. auto.
  - exists g, (r +:+ y +:+ s2). split; [|done].
    rewrite !app_string_assoc. str_simp. by rewrite ?app_string_assoc.
Qed.

Lemma is_ipv6_cases s :
  is_ipv6_str s = true ↔
  matches GROUPS s ∨ ∃ g n, s = "[" +:+ g +:+ "]:" +:+ n ∧ matches GROUPS g ∧ all_chars is_digit n = true ∧ n ≠ ""%string.
Proof.
  unfold is_ipv6_str. rewrite is_match_spec. split.
  - intros [H|H]%matches_alt; [by left|right].
    apply matches_seq in H as (o & s' & -> & ->%matches_lit & H).
    apply matches_seq in H as (g & s & -> & Hg & H).
    apply matches_seq in H as (o & s' & -> & ->%matches_lit & H).
    apply matches_seq in H as (o & n & -> & ->%matches_lit & [Hn Hne]%matches_plus_char).
    by exists g, n.
  - intros [H|(g & n & -> & Hg & Hn & Hne)]; [by apply m_alt_l|apply m_alt_r].
    apply (m_seq _ _ "["); [apply matches_lit_intro|]. constructor; [done|].
    apply (m_seq _ _ "]" (String ":" n)); [apply matches_lit_intro|].
    apply (m_seq _ _ ":" n); [apply matches_lit_intro|]. by apply matches_plus_char.
Qed.

Lemma v6_not_bracket s x : all_chars v6_char s = true → s ≠ String "[" x.
Proof. intros H ->. by cbn in H. Qed.
Lemma has_char_first c x s : has_char c s = true → has_char c (x +:+ s) = true.
Proof. intros H. by rewrite has_char_app, H, orb_true_r. Qed.

(** ** Hosts with a port *)

(** A host name that holds no colon and does not look like a group of an IPv6
    address, and an IPv6 address without brackets. *)
Definition plain_host (h : string) : bool := negb (has_char ":" h) && negb (is_match HEX14 h).
Definition v6_host : string → bool := is_match GROUPS.

Lemma colon_cut_unique h t g r :
  has_char ":" h = false → h +:+ String ":" t = g +:+ String ":" r → has_char ":" g = false → h = g.
Proof.
  intros Hh E Hg. pose proof (cut_app ":" h t Hh) as E1. rewrite E, cut_app in E1 by done. by injection E1.
Qed.
Lemma hex_no_colon g : all_chars is_hex g = true → has_char ":" g = false.
Proof. intros H. by eapply has_char_all. Qed.

Lemma plain_not_v6 h t :
  plain_host h = true → has_char ":" t = false →
  is_ipv6_str h = false ∧ is_ipv6_str (h +:+ String ":" t) = false.
Proof.
  intros [Hh Hx]%andb_true_iff Ht. bool_simp. split; apply not_true_iff_false; intros [H|H]%is_ipv6_cases.
  - apply groups_spec in H as [_ (g & r & -> & _)]. rewrite has_char_app in Hh. cbn in Hh.
    by rewrite orb_true_r in Hh.
  - destruct H as (g & n & -> & _). rewrite !has_char_app in Hh. cbn in Hh.
    by rewrite !orb_true_r in Hh.
  - apply groups_spec in H as [_ (g & r & E & Hg)].
    assert (h = g) as ->. { eapply colon_cut_unique; [done|exact E|]. apply hex_no_colon. by apply hex14_spec. }
    by apply is_match_spec in Hg; congruence.
  - destruct H as (g & n & E & [_ (x & r & -> & Hx')]%groups_spec & _).
    pose proof (cut_app ":" h t Hh) as E1. rewrite E in E1.
    replace ("[" +:+ (x +:+ String ":" r) +:+ "]:" +:+ n)
      with (String "[" x +:+ String ":" (r +:+ "]:" +:+ n)) in E1
      by (str_simp; by rewrite app_string_assoc; str_simp).
    rewrite cut_app in E1.
    + injection E1 as <- <-. rewrite has_char_app in Ht. str_simp. cbn in Ht. by rewrite orb_true_r in Ht.
    + cbn. apply hex_no_colon. by apply hex14_spec.
Qed.

(** A host as it stands before its port. *)
Definition host_text (h : string) : string := if v6_host h then "[" +:+ h +:+ "]" else h.

Lemma digit_no_colon n : 0 <= n → has_char ":" (to_string n) = false.
Proof. intros. by apply has_char_to_string. Qed.

Lemma plain_port h t :
  plain_host h = true → has_char ":" t = false → t ≠ ""%string →
  let s := h +:+ String ":" t in
  is_ipv6_str s = false ∧ contains ":" s = true ∧ split_str ":" s = [h; t].
Proof.
  intros Hh Ht _. destruct (plain_not_v6 h t Hh Ht) as [_ H6].
  unfold plain_host in Hh. bool_simp. cbn zeta.
  rewrite contains_char, has_char_app. cbn [has_char]. rewrite bool_decide_eq_true_2 by done.
  rewrite orb_true_r. split_and!; [done|done|]. by apply (split_str_two ":" "").
Qed.

Lemma v6_port h p :
  v6_host h = true → 0 <= p →
  let s := "[" +:+ h +:+ "]:" +:+ to_string p in
  is_ipv6_str s = true ∧ starts_with "[" s = true ∧ split_str "]:" s = ["[" +:+ h; to_string p].
Proof.
  intros Hh Hp. apply is_match_spec in Hh. cbn zeta. split_and!.
  - apply is_ipv6_cases. right. exists h, (to_string p). split_and!; [done|done| |apply to_string_nonempty].
    eapply all_chars_weaken; [|by apply all_digits_to_string]. done.
  - str_simp. by rewrite starts_with_cons.
  - apply (split_str_two "]" ":" (String "[" h)).
    + apply groups_spec in Hh as [Hh _]. cbn. by eapply has_char_all.
    + by apply has_char_to_string.
Qed.

Lemma host_and_port_two sep a p s :
  split_str sep s = [a; to_string p] → 0 < p < 2 ^ 31 → host_and_port sep s = Some (a, p).
Proof.
  intros E Hp. unfold host_and_port. rewrite E. unfold parse_i32.
  rewrite parse_int_to_string by lia. cbn [default from_option id].
  by rewrite (proj2 (Z.ltb_lt 0 p)) by lia.
Qed.

Lemma check_port_eq h p :
  plain_host h = true ∨ v6_host h = true → check_port h p = host_text h +:+ ":" +:+ to_string p.
Proof.
  intros [Hh|Hh]; unfold check_port, host_text.
  - destruct (plain_not_v6 h "" Hh eq_refl) as [H6 _]. rewrite H6.
    assert (v6_host h = false) as ->.
    { apply not_true_iff_false. intros Hv%is_match_spec. rewrite (proj2 (is_ipv6_cases h)) in H6 by by left. done. }
    unfold plain_host in Hh. bool_simp. rewrite contains_char.
    match goal with H : has_char _ _ = false |- _ => rewrite H end. done.
  - rewrite Hh. apply is_match_spec in Hh. rewrite (proj2 (is_ipv6_cases h)) by by left.
    apply groups_spec in Hh as [Hv _]. destruct (starts_with "[" h) eqn:E.
    + destruct h as [|c h]; [done|]. rewrite starts_with_cons in E. apply Ascii.eqb_eq in E as <-. done.
    + by rewrite app_string_assoc, app_string_assoc.
Qed.

(** A default port is added once, read back and moved: for a host name
    without colons that is not of one to four hexadecimal digits, and for an
    IPv6 address, which gets brackets. *)
Theorem check_port_roundtrip h p q k :
  plain_host h = true ∨ v6_host h = true → 0 < p < 2 ^ 31 →
  let s := check_port h p in
  split_host_port s = Some (host_text h, p) ∧ check_port s q = s
  ∧ increase_port s k = host_text h +:+ ":" +:+ to_string (as_i32 (p + k)).
Proof.
  intros Hh Hp. cbn zeta. rewrite check_port_eq by done.
  assert (has_char ":" (to_string p) = false) as Hc by (apply digit_no_colon; lia).
  destruct (v6_host h) eqn:Ev.
  - destruct (v6_port h p Ev ltac:(lia)) as (H6 & Hb & Hs).
    unfold host_text. rewrite Ev. rewrite !app_string_assoc.
    change ("]" +:+ ":" +:+ to_string p) with ("]:" +:+ to_string p).
    unfold split_host_port, check_port, increase_port. rewrite H6, Hb.
    rewrite (host_and_port_two _ _ _ _ Hs Hp). split_and!; [by rewrite app_string_assoc|done|].
    by rewrite app_string_assoc.
  - destruct Hh as [Hh|]; [|congruence].
    destruct (plain_port h (to_string p) Hh Hc (to_string_nonempty p)) as (H6 & Hb & Hs).
    unfold host_text. rewrite Ev.
    change (h +:+ ":" +:+ to_string p) with (h +:+ String ":" (to_string p)).
    unfold split_host_port, check_port, increase_port. rewrite H6, Hb.
    by rewrite (host_and_port_two _ _ _ _ Hs Hp).
Qed.

(** A host named by one to four hexadecimal digits with a port of at most
    four digits is taken for an IPv6 address: the port is neither found nor
    moved, and the default port is added behind it. *)
Theorem hex_host_misread h p q k :
  is_match HEX14 h = true → 0 <= p → (String.length (to_string p) <= 4)%nat →
  let s := h +:+ ":" +:+ to_string p in
  split_host_port s = None ∧ increase_port s k = s
  ∧ check_port s q = "[" +:+ s +:+ "]:" +:+ to_string q.
Proof.
  intros Hh Hp Hl. apply is_match_spec in Hh. cbn zeta.
  assert (matches GROUPS (h +:+ ":" +:+ to_string p)) as Hg.
  { rewrite <- app_string_assoc. constructor.
    - rewrite <- (app_string_nil (h +:+ ":")). apply m_seq; [|constructor].
      constructor; [done|]. apply matches_between_char; [lia|]. split; [done|cbn; lia].
    - apply hex14_spec. split.
      + eapply all_chars_weaken; [|by apply all_digits_to_string].
        intros c H. unfold is_hex. change (digit_char c) with (is_digit c) in H. rewrite H. apply orb_true_r.
      + split; [|done]. pose proof (to_string_nonempty p). destruct (to_string p); [done|cbn; lia]. }
  assert (starts_with "[" (h +:+ ":" +:+ to_string p) = false) as Hb.
  { apply groups_spec in Hg as [Hv _]. destruct (h +:+ ":" +:+ to_string p) as [|c x]; [done|].
    rewrite starts_with_cons. apply Ascii.eqb_neq. intros <-. done. }
  unfold split_host_port, check_port, increase_port.
  rewrite (proj2 (is_ipv6_cases _)) by by left. by rewrite Hb.
Qed.

(** ** IPv4 texts *)

Lemma octet_text n : 0 <= n < 256 → matches OCTET (to_string n).
Proof.
  intros Hn. apply is_match_spec.
  assert (forallb (λ n, is_match OCTET (to_string n)) (seqZ 0 256) = true) as F by (vm_compute; done).
  rewrite List.forallb_forall in F. apply F, list_elem_of_In, elem_of_seqZ. lia.
Qed.

Lemma has_char_ipv4 a b c e :
  bytes_ok [a; b; c; e] → has_char ":" (ipv4_string a b c e) = false.
Proof.
  intros H. unfold bytes_ok in H. rewrite !Forall_cons in H. destruct H as (Ha & Hb & Hc & He & _). unfold u8_ok in *.
  unfold ipv4_string. cbn [join]. rewrite !has_char_app, !digit_no_colon by lia. done.
Qed.

(** Every address the program writes is recognised, with and without a port. *)
Lemma ipv4_text_recognized a b c e p :
  bytes_ok [a; b; c; e] → 0 <= p →
  is_ipv4_str (ipv4_string a b c e) = true
  ∧ is_ipv4_str (ipv4_string a b c e +:+ ":" +:+ to_string p) = true.
Proof.
  intros H Hp. unfold bytes_ok in H. rewrite !Forall_cons in H. destruct H as (Ha & Hb & Hc & He & _). unfold u8_ok in *.
  assert (∀ x, matches (opt (Seq (lit ":") (plus d))) x →
    matches IPV4 ((to_string a +:+ "." +:+ to_string b +:+ "." +:+ to_string c +:+ "." +:+ to_string e) +:+ x)) as M.
  { intros x Hx. rewrite !app_string_assoc. unfold IPV4.
    repeat (constructor; [first [apply octet_text; lia|apply matches_lit_intro]|]). done. }
  unfold is_ipv4_str, ipv4_string. rewrite !is_match_spec. cbn [join]. split.
  - rewrite <- (app_string_nil (to_string a +:+ _)). apply M. apply m_alt_l. constructor.
  - apply M. apply m_alt_r. apply (m_seq _ _ ":"); [apply matches_lit_intro|].
    apply matches_plus_char. split; [|apply to_string_nonempty].
    eapply all_chars_weaken; [|by apply all_digits_to_string]. done.
Qed.

(** ** Versions *)

Definition version_text (v : Z * Z * Z) (patch : Z) : string :=
  let '(a, b, c) := v in
  join "." [to_string a; to_string b; to_string c] +:+ "-" +:+ to_string patch.

Lemma as_i64_small z : - 2 ^ 63 <= z < 2 ^ 63 → as_i64 z = z.
Proof. intros. unfold as_i64. rewrite Z.mod_small; lia. Qed.

Lemma part_to_string n : 0 <= n < 2 ^ 63 → part (to_string n) = n.
Proof. intros. unfold part, parse_i64. by rewrite parse_int_to_string by lia. Qed.

Lemma version_step_eq n l x :
  0 <= n < 2 ^ 50 → 0 <= x < 1000000000 → version_step (n, l) (to_string x) = (n * 1000 + x, x).
Proof.
  intros Hn Hx. unfold version_step. cbn [fst]. rewrite part_to_string by lia.
  by rewrite (as_i64_small (n * 1000)), as_i64_small by lia.
Qed.

Lemma version_number_eq a b c p :
  0 <= a < 1000000000 → 0 <= b < 1000000000 → 0 <= c < 1000000000 → 0 <= p < 1000000000 →
  get_version_number (version_text (a, b, c) p) = 1000000 * a + 1000 * b + 10 * c + p.
Proof.
  intros Ha Hb Hc Hp. unfold get_version_number, version_text. cbn [join].
  assert (∀ n s, 0 <= n → split_on "." (to_string n +:+ String "." s) = to_string n :: split_on "." s) as Hdot.
  { intros n s Hn. rewrite split_on_app, split_on_none; [done|]. by apply has_char_to_string. }
  change ("-" +:+ to_string p) with (String "-" (to_string p)).
  rewrite split_on_app, !split_on_none.
  - cbn [app].
    change ("." +:+ to_string b +:+ "." +:+ to_string c) with (String "." (to_string b +:+ String "." (to_string c))).
    rewrite !Hdot, split_on_none by (first [lia|apply has_char_to_string; [lia|done]]).
    cbn [foldl]. rewrite !version_step_eq by lia.
    rewrite part_to_string by lia. set (n := ((0 * 1000 + a) * 1000 + b) * 1000 + c).
    rewrite (as_i64_small (n - c)), (as_i64_small (c * 10)) by lia.
    rewrite (as_i64_small (n - c + c * 10)), as_i64_small by lia. lia.
  - apply has_char_to_string; [lia|done].
  - rewrite !has_char_app, !has_char_to_string by (lia || done). done.
Qed.

(** The order of versions: component by component, then the patch. *)
Definition version_lt (v w : Z * Z * Z) (p q : Z) : Prop :=
  let '(a, b, c) := v in let '(a', b', c') := w in
  a < a' ∨ a = a' ∧ (b < b' ∨ b = b' ∧ (c < c' ∨ c = c' ∧ p < q)).
Definition version_ok (v : Z * Z * Z) (p : Z) : Prop :=
  let '(a, b, c) := v in 0 <= a < 1000000000 ∧ 0 <= b < 1000 ∧ 0 <= c < 100 ∧ 0 <= p < 10.

(** The numbers of versions order like the versions, when the second
    component is below 1000, the third below 100 and the patch below 10; a third
    component of 100 is the number of the next second component. *)
Theorem version_number_order v w p q :
  version_ok v p → version_ok w q →
  (get_version_number (version_text v p) < get_version_number (version_text w q) ↔ version_lt v w p q)
  ∧ get_version_number "1.1.100-0" = get_version_number "1.2.0-0".
Proof.
  destruct v as [[a b] c], w as [[a' b'] c']. intros (Ha & Hb & Hc & Hp) (Ha' & Hb' & Hc' & Hq).
  split; [|done]. rewrite !version_number_eq by lia. unfold version_lt. lia.
Qed.

(** ** The theorems at concrete inputs *)
Lemma check_port_roundtrip_witness :
  split_host_port (check_port "hbbs.example" 21116) = Some ("hbbs.example"%string, 21116)
  ∧ increase_port (check_port "fe80::1" 21116) 1 = "[fe80::1]:21117"%string.
Proof.
  split.
  - apply (check_port_roundtrip "hbbs.example" 21116 0 1); [left; by vm_compute|lia].
  - apply (check_port_roundtrip "fe80::1" 21116 0 1); [right; by vm_compute|lia].
Defined.

Lemma hex_host_misread_witness :
  split_host_port "cafe:8000" = None ∧ check_port "cafe:8000" 21116 = "[cafe:8000]:21116"%string.
Proof.
  destruct (hex_host_misread "cafe" 8000 21116 1) as (H1 & _ & H2); [by vm_compute|lia|by vm_compute; lia|].
  split; [exact H1|exact H2].
Defined.

Lemma version_number_order_witness :
  get_version_number "1.2.3-1" < get_version_number "1.10.0-0" ↔ version_lt (1, 2, 3) (1, 10, 0) 1 0.
Proof. apply (version_number_order (1, 2, 3) (1, 10, 0) 1 0); cbn; lia. Defined.
