(* ===== verification/JsonTree.v ===== *)
(** * JSON values and the derived deserializers

    The values of [serde_json], how the client reads them ([v["k"]], [get],
    [as_str], [as_i64]) and the reading of a struct as serde derives it: from an
    object whose fields are looked up by name, fields the struct does not name
    being ignored.  (A derived reader also takes an array of the fields in
    order, which no part of the program writes.)  Parsing and printing of the
    texts are the parameter [JsonLib].  [JsonPlain] has texts as they are
    written: [flat_text] is the text of an object of texts and numbers without
    spaces, which is how the window of the client makes its lines, and
    [JsonReads] says that the library reads it; [PlainJson] is a reader and a
    printer of all values for the examples, and what it prints it reads. *)
From Stdlib Require Import Ascii.
From S2P Require Import Prelude Text TextFacts.
Local Open Scope Z_scope.

Inductive JVal : Type :=
| VNull
| VBool (b : bool)
| VNum (n : Z)      (* an integer *)
| VReal             (* any other number *)
| VText (s : string)
| VList (l : list JVal)
| VObj (l : list (string * JVal)).

(** [from_str] and [to_string]: what is written is read back, on one line. *)
Class JsonLib : Type := {
  json_parse : string → option JVal;
  json_text : JVal → string;
}.
Class JsonLaws `{JsonLib} : Prop := {
  json_roundtrip v : json_parse (json_text v) = Some v;
  json_one_line v : has_char (chr 10) (json_text v) = false;
  json_not_blank v : trim (json_text v) = json_text v ∧ json_text v ≠ ""%string;
}.

(** ** Values *)

(** [Value::get]; the index [v[k]] is null where there is none. *)
Definition jget (k : string) (v : JVal) : option JVal :=
  match v with VObj l => snd <$> List.find (λ e, String.eqb e.1 k) l | _ => None end.
Definition jindex (k : string) (v : JVal) : JVal := default VNull (jget k v).
Definition as_str (v : JVal) : option string := match v with VText s => Some s | _ => None end.
Definition as_i64_val (v : JVal) : option Z :=
  match v with VNum n => within (- 2 ^ 63) (2 ^ 63 - 1) n | _ => None end.

(** ** Readers *)

Definition dec_str : JVal → option string := as_str.
Definition dec_bool (v : JVal) : option bool := match v with VBool b => Some b | _ => None end.
Definition dec_int (lo hi : Z) (v : JVal) : option Z := match v with VNum n => within lo hi n | _ => None end.
Definition dec_i64 : JVal → option Z := dec_int (- 2 ^ 63) (2 ^ 63 - 1).
Definition dec_u16 : JVal → option Z := dec_int 0 65535.
Definition dec_value : JVal → option JVal := Some.
Definition dec_list {A} (d : JVal → option A) (v : JVal) : option (list A) :=
  match v with VList l => mapM d l | _ => None end.

(** A field that must be there, one of type [Option], one with a default. *)
Definition required {A} (d : JVal → option A) (k : string) (v : JVal) : option A := jget k v ≫= d.
Definition optional {A} (d : JVal → option A) (k : string) (v : JVal) : option (option A) :=
  match jget k v with None | Some VNull => Some None | Some x => Some <$> d x end.
Definition defaulted {A} (d : JVal → option A) (a : A) (k : string) (v : JVal) : option A :=
  match jget k v with None => Some a | Some x => d x end.

(** ** Writers *)

Definition enc_opt {A} (e : A → JVal) (o : option A) : JVal := match o with Some a => e a | None => VNull end.
(** [skip_serializing_if = "Option::is_none"] *)
Definition skip_none {A} (e : A → JVal) (k : string) (o : option A) : list (string * JVal) :=
  match o with Some a => [(k, e a)] | None => [] end.

Example json_reading :
  let v := VObj [("a", VNum 1); ("b", VNull); ("c", VText "x")]%string in
  required dec_i64 "a" v = Some 1 ∧ optional dec_i64 "b" v = Some None ∧ optional dec_i64 "d" v = Some None ∧
  optional dec_i64 "c" v = None ∧ defaulted dec_bool true "d" v = Some true ∧ jindex "d" v = VNull ∧
  as_str (jindex "c" v) = Some "x"%string ∧ jindex "a" (VNum 3) = VNull.
Proof. vm_compute. done. Qed.

(** ** A library for the witnesses: the number of the value in decimal *)

Definition JVal_leaf : Type := unit + (bool + (Z + string)).
Fixpoint JVal_tree (v : JVal) : gen_tree JVal_leaf :=
  match v with
  | VNull => GenNode 0 []
  | VReal => GenNode 1 []
  | VBool b => GenLeaf (inr (inl b))
  | VNum n => GenLeaf (inr (inr (inl n)))
  | VText s => GenLeaf (inr (inr (inr s)))
  | VList l => GenNode 2 (JVal_tree <$> l)
  | VObj l => GenNode 3 ((λ e, GenNode 4 [GenLeaf (inr (inr (inr e.1))); JVal_tree e.2]) <$> l)
  end.
Fixpoint tree_JVal (t : gen_tree JVal_leaf) : JVal :=
  match t with
  | GenNode 0 _ => VNull
  | GenLeaf (inr (inl b)) => VBool b
  | GenLeaf (inr (inr (inl n))) => VNum n
  | GenLeaf (inr (inr (inr s))) => VText s
  | GenNode 2 l => VList (tree_JVal <$> l)
  | GenNode 3 l =>
    VObj ((λ t, match t with GenNode 4 [GenLeaf (inr (inr (inr k))); u] => (k, tree_JVal u) | _ => (""%string, VNull) end) <$> l)
  | _ => VReal
  end.
Lemma tree_JVal_tree : ∀ v, tree_JVal (JVal_tree v) = v.
Proof.
  fix IH 1. intros [| | | | |l|l]; try reflexivity.
  - cbn. f_equal. induction l as [|x l IHl]; [reflexivity|]. cbn. by rewrite IH, IHl.
  - cbn. f_equal. induction l as [|[k x] l IHl]; [reflexivity|]. cbn. by rewrite IH, IHl.
Qed.
Definition TestJson : JsonLib :=
  {| json_text v := to_string (Zpos (encode (JVal_tree v)));
     json_parse s := n ← digits s; tree_JVal <$> decode (Z.to_pos n) |}.
Lemma TestJsonLaws : @JsonLaws TestJson.
Proof.
  split; intros v; cbn [json_parse json_text TestJson].
  - unfold to_string. change (Z.pos (encode (JVal_tree v)) <? 0) with false. cbv iota.
    rewrite digits_to_string_nonneg by lia. cbn [mbind option_bind].
    change (Z.to_pos (Z.abs (Z.pos (encode (JVal_tree v))))) with (encode (JVal_tree v)). rewrite decode_encode. cbn [fmap option_fmap option_map]. by rewrite tree_JVal_tree.
  - by apply has_char_to_string.
  - split; [apply trim_no_space, no_space_to_string|apply to_string_nonempty].
Qed.

(** ** Texts as they are written *)

Module JsonPlain.
Definition dquote : ascii := chr 34.

(** A character inside of a text: serde_json writes the short escapes and four
    hexadecimal digits for the other control characters. *)
Definition json_escape_char (c : ascii) : string :=
  let n := code c in
  if n =? 34 then String "\" (String dquote "")
  else if n =? 92 then "\\"
  else if n =? 8 then "\b" else if n =? 9 then "\t" else if n =? 10 then "\n"
  else if n =? 12 then "\f" else if n =? 13 then "\r"
  else if n <? 32 then "\u00" +:+ hex2 n
  else String c "".
Fixpoint json_escape (s : string) : string :=
  match s with EmptyString => "" | String c r => json_escape_char c +:+ json_escape r end.
Definition quoted (s : string) : string := String dquote (json_escape s +:+ String dquote "").

(** Values without parts, and an object of them. *)
Inductive Flat : Type := FText (s : string) | FNum (n : Z).
Definition flat_val (f : Flat) : JVal := match f with FText s => VText s | FNum n => VNum n end.
Definition flat_str (f : Flat) : string := match f with FText s => quoted s | FNum n => to_string n end.
Definition flat_text (l : list (string * Flat)) : string :=
  "{" +:+ join "," (List.map (λ e, quoted e.1 +:+ ":" +:+ flat_str e.2) l) +:+ "}".
Class JsonReads `{JsonLib} : Prop :=
  json_reads l : json_parse (flat_text l) = Some (VObj (List.map (λ e, (e.1, flat_val e.2)) l)).

(** *** Printing *)

Fixpoint print (v : JVal) : string :=
  match v with
  | VNull => "null"
  | VBool b => if b then "true" else "false"
  | VNum n => to_string n
  | VReal => "0.5"
  | VText s => quoted s
  | VList l => "[" +:+ join "," (List.map print l) +:+ "]"
  | VObj l => "{" +:+ join "," (List.map (λ e, quoted e.1 +:+ ":" +:+ print e.2) l) +:+ "}"
  end.

(** *** Reading *)

Definition json_space (c : ascii) : bool := let n := code c in (n =? 32) || (n =? 9) || (n =? 10) || (n =? 13).
Fixpoint skip_ws (s : string) : string :=
  match s with String c r => if json_space c then skip_ws r else s | EmptyString => s end.
Fixpoint span (p : ascii → bool) (s : string) : string * string :=
  match s with
  | String c r => if p c then let '(a, b) := span p r in (String c a, b) else (""%string, s)
  | EmptyString => (""%string, ""%string)
  end.
(** The bytes of a code point of the first plane. *)
Definition utf8_char (n : Z) : string :=
  if n <? 128 then String (chr n) ""
  else if n <? 2048 then String (chr (192 + n / 64)) (String (chr (128 + n mod 64)) "")
  else String (chr (224 + n / 4096)) (String (chr (128 + n / 64 mod 64)) (String (chr (128 + n mod 64)) "")).
Definition short_escape (e : ascii) : option ascii :=
  let n := code e in
  if n =? 34 then Some dquote else if n =? 92 then Some "\"%char else if n =? 47 then Some "/"%char
  else if n =? 98 then Some (chr 8) else if n =? 116 then Some (chr 9) else if n =? 110 then Some (chr 10)
  else if n =? 102 then Some (chr 12) else if n =? 114 then Some (chr 13) else None.
(** After the first quote: the text and what follows the last one. *)
Fixpoint p_string (s : string) : option (string * string) :=
  match s with
  | EmptyString => None
  | String c r =>
    if code c =? 34 then Some (""%string, r)
    else if code c =? 92 then
      match r with
      | EmptyString => None
      | String e r =>
        if code e =? 117 then
          match r with
          | String a (String b (String c (String d r))) =>
            n ← hex_from 0 (String a (String b (String c (String d ""))));
            if (55296 <=? n) && (n <? 57344) then None else '(t, r) ← p_string r; Some (utf8_char n +:+ t, r)
          | _ => None
          end
        else x ← short_escape e; '(t, r) ← p_string r; Some (String x t, r)
      end
    else if code c <? 32 then None
    else '(t, r) ← p_string r; Some (String c t, r)
  end.
Definition num_char (c : ascii) : bool := digit_char c || has_char c "+-.eE".
Definition p_number (t : string) : option JVal :=
  if has_char "." t || has_char "e" t || has_char "E" t then Some VReal
  else VNum <$> match t with String "-" d => Z.opp <$> digits d | _ => digits t end.
Definition literal (p : string) (v : JVal) (s : string) : option (JVal * string) := r ← strip_prefix p s; Some (v, r).

Fixpoint p_value (fuel : nat) (s : string) : option (JVal * string) :=
  match fuel with
  | O => None
  | S fuel =>
    match skip_ws s with
    | EmptyString => None
    | String c r =>
      if Ascii.eqb c dquote then '(t, r) ← p_string r; Some (VText t, r)
      else if Ascii.eqb c "[" then
        match skip_ws r with
        | String "]" r => Some (VList [], r)
        | _ => '(l, r) ← p_items fuel r; Some (VList l, r)
        end
      else if Ascii.eqb c "{" then
        match skip_ws r with
        | String "}" r => Some (VObj [], r)
        | _ => '(l, r) ← p_fields fuel r; Some (VObj l, r)
        end
      else if Ascii.eqb c "n" then literal "ull" VNull r
      else if Ascii.eqb c "t" then literal "rue" (VBool true) r
      else if Ascii.eqb c "f" then literal "alse" (VBool false) r
      else let '(t, r) := span num_char (String c r) in v ← p_number t; Some (v, r)
    end
  end
with p_items (fuel : nat) (s : string) : option (list JVal * string) :=
  match fuel with
  | O => None
  | S fuel =>
    '(v, r) ← p_value fuel s;
    match skip_ws r with
    | String "," r => '(l, r) ← p_items fuel r; Some (v :: l, r)
    | String "]" r => Some ([v], r)
    | _ => None
    end
  end
with p_fields (fuel : nat) (s : string) : option (list (string * JVal) * string) :=
  match fuel with
  | O => None
  | S fuel =>
    match skip_ws s with
    | EmptyString => None
    | String c r =>
      if negb (Ascii.eqb c dquote) then None else
      '(k, r) ← p_string r;
      match skip_ws r with
      | String ":" r =>
        '(v, r) ← p_value fuel r;
        match skip_ws r with
        | String "," r => '(l, r) ← p_fields fuel r; Some ((k, v) :: l, r)
        | String "}" r => Some ([(k, v)], r)
        | _ => None
        end
      | _ => None
      end
    end
  end.
Definition PlainJson : JsonLib :=
  {| json_parse s := '(v, r) ← p_value (S (String.length s)) s; if String.eqb (skip_ws r) "" then Some v else None;
     json_text := print |}.

(** *** What is printed is read *)

Lemma p_string_char c s :
  p_string (json_escape_char c +:+ s) = '(t, r) ← p_string s; Some (String c t, r).
Proof. destruct c as [[] [] [] [] [] [] [] []]; reflexivity. Qed.
Lemma p_string_escape s r : p_string (json_escape s +:+ String dquote r) = Some (s, r).
Proof.
  induction s as [|c s IH]; [reflexivity|]. cbn [json_escape]. by rewrite app_string_assoc, p_string_char, IH.
Qed.
Lemma span_app p a r : all_chars p a = true → match r with String c _ => p c = false | _ => True end → span p (a +:+ r) = (a, r).
Proof.
  intros Ha Hr. induction a as [|c a IH].
  - change (""%string +:+ r) with r. destruct r as [|c r]; [done|]. cbn. by rewrite Hr.
  - cbn in Ha. apply andb_true_iff in Ha as [Hc Ha]. rewrite app_cons. cbn. by rewrite Hc, IH.
Qed.

(** What may follow a value: the end, a comma or a closing bracket. *)
Definition stops (r : string) : bool :=
  match r with EmptyString => true | String c _ => has_char c ",]}" end.
Lemma stops_char c r : stops (String c r) = true → num_char c = false ∧ json_space c = false.
Proof. destruct c as [[] [] [] [] [] [] [] []]; cbn; try done. Qed.
Lemma digits_num t : all_chars digit_char t = true → all_chars num_char t = true.
Proof. apply all_chars_weaken. intros c Hc. unfold num_char. by rewrite Hc. Qed.

Lemma p_number_to_string n : p_number (to_string n) = Some (VNum n).
Proof.
  assert (∀ m, 0 <= m → ∃ c t, dec_nonneg (Z.to_nat (Z.log2 m)) m "" = String c t ∧ all_chars digit_char (String c t) = true) as Hd.
  { intros m Hm. pose proof (all_digits_to_string m Hm) as Ha. pose proof (to_string_nonempty m) as Hn. unfold to_string in *.
    rewrite (proj2 (Z.ltb_ge m 0)) in * by lia. rewrite Z.abs_eq in * by lia.
    destruct (dec_nonneg _ m "") as [|c t]; [done|]. eauto. }
  destruct (Hd (Z.abs n) (Z.abs_nonneg n)) as (c & t & E & Ha). pose proof (digits_to_string_nonneg (Z.abs n) (Z.abs_nonneg n)) as Hn.
  unfold p_number, to_string. rewrite E in *.
  assert (∀ x, digit_char x = false → has_char x (String c t) = false) as Hx by (intros x; by apply has_char_all).
  destruct (Z.ltb_spec n 0) as [Hneg|Hpos].
  - change (has_char ?x (String "-" (String c t))) with (Ascii.eqb x "-" || has_char x (String c t)). rewrite !Hx by done.
    cbn [orb Ascii.eqb Bool.eqb]. rewrite Hn. cbn. do 2 f_equal. lia.
  - rewrite !Hx by done. cbn [orb]. cbn [all_chars] in Ha. apply andb_true_iff in Ha as [Hc _].
    assert (match String c t with String "-" d => Z.opp <$> digits d | _ => digits (String c t) end = digits (String c t)) as ->.
    { destruct c as [[] [] [] [] [] [] [] []]; done. }
    rewrite Hn. cbn. do 2 f_equal. lia.
Qed.

(** The first character of a printed value, which no other kind of value has. *)
Lemma skip_ws_visible c s : json_space c = false → skip_ws (String c s) = String c s.
Proof. intros Hc. cbn. by rewrite Hc. Qed.
Lemma skip_ws_stops r : stops r = true → skip_ws r = r.
Proof. destruct r as [|c r]; [done|]. intros [_ Hc]%stops_char. by apply skip_ws_visible. Qed.
Lemma num_first n : ∃ c t, to_string n = String c t ∧ num_char c = true ∧ all_chars num_char t = true ∧ c ≠ "+"%char ∧ c ≠ "."%char.
Proof.
  pose proof (all_digits_to_string (Z.abs n) (Z.abs_nonneg n)) as Ha. pose proof (to_string_nonempty (Z.abs n)) as Hn.
  unfold to_string in *. rewrite (proj2 (Z.ltb_ge (Z.abs n) 0)) in * by lia. rewrite Z.abs_involutive in *.
  destruct (dec_nonneg _ (Z.abs n) "") as [|c t]; [done|]. destruct (n <? 0).
  - exists "-"%char, (String c t). split_and!; try done. by apply digits_num.
  - exists c, t. cbn in Ha. apply andb_true_iff in Ha as [Hc Ht]. split; [done|]. unfold num_char at 1. rewrite Hc.
    split; [done|]. split; [by apply digits_num|]. split; intros ->; done.
Qed.
Definition opens (c : ascii) : bool :=
  Ascii.eqb c dquote || Ascii.eqb c "[" || Ascii.eqb c "{" || Ascii.eqb c "n" || Ascii.eqb c "t" || Ascii.eqb c "f".
Lemma num_not_open c : num_char c = true → opens c = false ∧ json_space c = false ∧ c ≠ "]"%char.
Proof. destruct c as [[] [] [] [] [] [] [] []]; cbn; intros E; try done; by vm_compute in E. Qed.
Lemma p_value_number fuel t c s r v :
  t = String c s → num_char c = true → all_chars num_char s = true → p_number t = Some v → stops r = true →
  p_value (S fuel) (t +:+ r) = Some (v, r).
Proof.
  intros -> Hc Hs Hv Hr. destruct (num_not_open c Hc) as (Ho & Hsp & _). unfold opens in Ho.
  rewrite !orb_false_iff in Ho. destruct Ho as (((((H1 & H2) & H3) & H4) & H5) & H6). cbn [p_value]. rewrite app_cons, skip_ws_visible by done.
  rewrite H1, H2, H3, H4, H5, H6. rewrite <- app_cons, span_app; [by rewrite Hv| |].
  - cbn. by rewrite Hc.
  - destruct r as [|d r]; [done|]. by apply stops_char in Hr as [-> _].
Qed.
Lemma print_first v : ∃ c s, print v = String c s ∧ json_space c = false ∧ c ≠ "]"%char ∧ c ≠ "}"%char.
Proof.
  destruct v as [|[]|n| |s|l|l]; try (cbn; by eauto 8).
  destruct (num_first n) as (c & t & E & Hc & _). destruct (num_not_open c Hc) as (_ & Hs & Hb). exists c, t. split_and!; try done.
  by intros ->.
Qed.

Section read_back.
(** What is read of one value that was printed. *)
Definition back (v : JVal) : Prop :=
  ∀ fuel r, (String.length (print v) <= fuel)%nat → stops r = true → p_value fuel (print v +:+ r) = Some (v, r).

Lemma items_back l : Forall back l → ∀ fuel r, l ≠ [] → (String.length (join "," (List.map print l)) < fuel)%nat →
  p_items fuel (join "," (List.map print l) +:+ String "]" r) = Some (l, r).
Proof.
  induction 1 as [|v l Hv _ IH]; intros fuel r Hn Hf; [done|]. destruct fuel as [|fuel]; [lia|]. cbn [p_items].
  destruct l as [|w l].
  - cbn [List.map join] in *. rewrite Hv by (done || lia). reflexivity.
  - change (join "," (List.map print (v :: w :: l))) with (print v +:+ "," +:+ join "," (List.map print (w :: l))) in *.
    rewrite !length_string_app in Hf. cbn [String.length] in Hf. rewrite !app_string_assoc, Hv by (done || lia).
    cbn [mbind option_bind]. change ("," +:+ ?x) with (String "," x). cbn [skip_ws json_space].
    change (json_space ",") with false. cbv iota. rewrite IH by (done || lia). reflexivity.
Qed.
Definition entry_text (e : string * JVal) : string := quoted e.1 +:+ ":" +:+ print e.2.
Lemma fields_back l : Forall (λ e, back e.2) l → ∀ fuel r, l ≠ [] → (String.length (join "," (List.map entry_text l)) < fuel)%nat →
  p_fields fuel (join "," (List.map entry_text l) +:+ String "}" r) = Some (l, r).
Proof.
  induction 1 as [|[k v] l Hv _ IH]; intros fuel r Hn Hf; [done|]. destruct fuel as [|fuel]; [lia|]. cbn [snd] in Hv.
  assert (∀ t, (String.length (print v) <= fuel)%nat → stops t = true →
    p_fields (S fuel) (entry_text (k, v) +:+ t) =
    match skip_ws t with
    | String "," r => '(l, r) ← p_fields fuel r; Some ((k, v) :: l, r)
    | String "}" r => Some ([(k, v)], r)
    | _ => None
    end) as Hone.
  { intros t Ht Hst. unfold entry_text, quoted. cbn [fst snd]. rewrite !app_string_assoc, app_cons, !app_string_assoc. cbn [p_fields].
    rewrite skip_ws_visible by done. rewrite Ascii.eqb_refl. cbn [negb]. rewrite app_cons, p_string_escape. cbn [mbind option_bind].
    change (""%string +:+ ?x) with x. change (":" +:+ ?x) with (String ":" x). rewrite skip_ws_visible by done. by rewrite Hv. }
  assert (String.length (entry_text (k, v)) >= String.length (print v))%nat as Hlen.
  { unfold entry_text. cbn [fst snd]. rewrite !length_string_app. lia. }
  destruct l as [|w l].
  - cbn [List.map join] in *. rewrite Hone by (done || lia). reflexivity.
  - change (join "," (List.map entry_text ((k, v) :: w :: l))) with (entry_text (k, v) +:+ "," +:+ join "," (List.map entry_text (w :: l))) in *.
    rewrite !length_string_app in Hf. cbn [String.length] in Hf. rewrite !app_string_assoc, Hone by (done || lia).
    change ("," +:+ ?x) with (String "," x). rewrite skip_ws_visible by done. rewrite IH by (done || lia). reflexivity.
Qed.
Lemma print_back : ∀ v, back v.
Proof.
  fix IH 1. intros v fuel r Hf Hr.
  destruct fuel as [|fuel]; [destruct (print_first v) as (c & s & E & _); rewrite E in Hf; cbn in Hf; lia|].
  destruct v as [|b|n| |s|l|l].
  - reflexivity.
  - by destruct b.
  - destruct (num_first n) as (c & t & E & Hc & Ht & _). cbn [print].
    pose proof (p_number_to_string n) as Hn. rewrite E in *. by eapply p_value_number.
  - cbn [print]. by eapply p_value_number.
  - cbn [print]. unfold quoted. rewrite app_cons, app_string_assoc. cbn [p_value]. rewrite skip_ws_visible, Ascii.eqb_refl by done.
    rewrite app_cons, p_string_escape. reflexivity.
  - assert (Forall back l) as Hl by (clear Hf Hr; induction l; constructor; [apply IH|assumption]). clear IH.
    cbn [print] in *. rewrite !length_string_app in Hf. cbn [String.length] in Hf. rewrite !app_string_assoc, app_cons. cbn [p_value].
    rewrite skip_ws_visible by done. cbn [Ascii.eqb Bool.eqb dquote]. change (""%string +:+ ?x) with x. change ("]" +:+ r) with (String "]" r).
    destruct l as [|v l]; [reflexivity|].
    pose proof (items_back _ Hl fuel r ltac:(done) ltac:(lia)) as Hi.
    destruct (print_first v) as (c & s & E & Hs & Hb & _).
    assert (∃ s', join "," (List.map print (v :: l)) +:+ String "]" r = String c s') as [s' Es].
    { cbn [List.map join]. destruct (List.map print l); rewrite E, ?app_cons; eauto. }
    rewrite Es in *. rewrite skip_ws_visible by done. rewrite Hi.
    destruct c as [[] [] [] [] [] [] [] []]; (reflexivity || done).
  - assert (Forall (λ e, back e.2) l) as Hl by (clear Hf Hr; induction l; constructor; [apply IH|assumption]). clear IH.
    change (print (VObj l)) with ("{" +:+ join "," (List.map entry_text l) +:+ "}") in *.
    rewrite !length_string_app in Hf. cbn [String.length] in Hf. rewrite !app_string_assoc, app_cons. cbn [p_value].
    rewrite skip_ws_visible by done. cbn [Ascii.eqb Bool.eqb dquote]. change (""%string +:+ ?x) with x. change ("}" +:+ r) with (String "}" r).
    destruct l as [|v l]; [reflexivity|].
    pose proof (fields_back _ Hl fuel r ltac:(done) ltac:(lia)) as Hi.
    assert (∃ s', join "," (List.map entry_text (v :: l)) +:+ String "}" r = String dquote s') as [s' Es].
    { cbn [List.map join]. destruct (List.map entry_text l); unfold entry_text, quoted; rewrite ?app_cons; eauto. }
    rewrite Es in *. rewrite skip_ws_visible by done. by rewrite Hi.
Qed.
End read_back.

(** *** The laws *)

Lemma print_text v : json_text (JsonLib := PlainJson) v = print v.
Proof. done. Qed.
Lemma escape_one_line s : has_char newline (json_escape s) = false.
Proof.
  induction s as [|c s IH]; [done|]. cbn [json_escape]. rewrite has_char_app, IH, orb_false_r.
  by destruct c as [[] [] [] [] [] [] [] []].
Qed.
Lemma quoted_one_line s : has_char newline (quoted s) = false.
Proof.
  unfold quoted. change (has_char newline (json_escape s +:+ String dquote "") = false). by rewrite has_char_app, escape_one_line.
Qed.
Lemma join_one_line l : Forall (λ s, has_char newline s = false) l → has_char newline (join "," l) = false.
Proof.
  induction 1 as [|s l Hs Hl IH]; [done|]. destruct l as [|t l]; [done|].
  change (join "," (s :: t :: l)) with (s +:+ "," +:+ join "," (t :: l)). by rewrite !has_char_app, Hs, IH.
Qed.
Lemma number_one_line n : has_char newline (to_string n) = false.
Proof.
  destruct (num_first n) as (c & t & -> & Hc & Ht & _). apply (has_char_all _ num_char); [|done]. cbn. by rewrite Hc.
Qed.
Lemma print_one_line : ∀ v, has_char newline (print v) = false.
Proof.
  fix IH 1. intros v. destruct v as [|b|n| |s|l|l].
  - done.
  - by destruct b.
  - apply number_one_line.
  - done.
  - apply quoted_one_line.
  - assert (Forall (λ s, has_char newline s = false) (List.map print l)) as Hl by (induction l; constructor; [apply IH|assumption]).
    cbn [print]. by rewrite !has_char_app, join_one_line.
  - assert (Forall (λ s, has_char newline s = false) (List.map entry_text l)) as Hl.
    { induction l as [|[k v] l IHl]; constructor; [|exact IHl]. unfold entry_text. cbn [fst snd]. by rewrite !has_char_app, quoted_one_line, IH. }
    change (print (VObj l)) with ("{" +:+ join "," (List.map entry_text l) +:+ "}"). by rewrite !has_char_app, join_one_line.
Qed.
Lemma trim_end_visible s d : is_space d = false → trim_end (s +:+ String d "") = s +:+ String d "".
Proof.
  intros Hd. induction s as [|c s IH].
  - change (trim_end (String d "") = String d ""). cbn. by rewrite Hd.
  - rewrite app_cons. cbn [trim_end]. rewrite IH. by destruct s.
Qed.
Lemma print_last v : no_space (print v) = true ∨ ∃ s d, print v = s +:+ String d "" ∧ is_space d = false.
Proof.
  destruct v as [|b|n| |s|l|l].
  - by left.
  - left. by destruct b.
  - left. apply no_space_to_string.
  - by left.
  - right. by exists (String dquote (json_escape s)), dquote.
  - right. exists ("[" +:+ join "," (List.map print l)), "]"%char. by rewrite app_string_assoc.
  - right. exists ("{" +:+ join "," (List.map entry_text l)), "}"%char. by rewrite app_string_assoc.
Qed.
Lemma print_trim v : trim (print v) = print v.
Proof.
  destruct (print_last v) as [Hn|(s & d & E & Hd)]; [by apply trim_no_space|].
  destruct (print_first v) as (c & t & Ec & Hc & _). unfold trim.
  assert (trim_start (print v) = print v) as ->; [|rewrite E; by apply trim_end_visible].
  rewrite Ec. cbn [trim_start]. destruct (is_space c) eqn:Es; [|done]. exfalso. clear s d E Hd.
  destruct v as [|[]|n| |s|l|l]; try (cbn in Ec; injection Ec as <- _; done).
  destruct (num_first n) as (c' & t' & E & Hn & _). cbn [print] in Ec. rewrite E in Ec. injection Ec as -> _.
  destruct c as [[] [] [] [] [] [] [] []]; vm_compute in Hn, Es; done.
Qed.
Lemma PlainJsonLaws : @JsonLaws PlainJson.
Proof.
  split; intros v; rewrite ?print_text.
  - cbn [json_parse PlainJson]. pose proof (print_back v (S (String.length (print v))) "" ltac:(lia) eq_refl) as Hb.
    rewrite app_string_nil in Hb. by rewrite Hb.
  - apply print_one_line.
  - split; [apply print_trim|]. by destruct (print_first v) as (c & s & -> & _).
Qed.
Lemma PlainJsonReads : @JsonReads PlainJson.
Proof.
  intros l. rewrite <- (@json_roundtrip _ PlainJsonLaws). f_equal. rewrite print_text. unfold flat_text. cbn [print]. do 3 f_equal.
  rewrite map_map. apply map_ext. intros [k f]. cbn. by destruct f.
Qed.
End JsonPlain.
