(* ===== verification/Auth.v ===== *)
(** * Tokens and the environment

    JSON web tokens as the servers use them (jsonwebtoken): a token is the text
    of a claims object under a secret, and decoding it checks the signature and
    the expiry.  [Claims] is the struct of src/api.rs.  The environment
    variables a method reads are a function from their names. *)
From S2P Require Import Prelude Text.
Local Open Scope Z_scope.

(** What the program reads of a JSON value: [null], a number with its
    [as_i64], a string. *)
Inductive Json : Type :=
| JNull
| JNum (n : option Z)
| JStr (s : string)
| JOther.

(** [encode] and [decode] under a secret; decoding is done at a time. *)
Class Jwt : Type := {
  jwt_encode : string → gmap string Json → option string;
  jwt_decode : string → Z → string → option (gmap string Json);
}.
(** A token decodes to its claims until it expires (and, by the default leeway,
    for a minute more at most), always to the same. *)
Class JwtLaws `{Jwt} : Prop := {
  jwt_decode_encode secret m t e now :
    jwt_encode secret m = Some t → m !! "exp"%string = Some (JNum (Some e)) → now <= e →
    jwt_decode secret now t = Some m;
  jwt_decode_expired secret now t m :
    jwt_decode secret now t = Some m →
    ∃ e, m !! "exp"%string = Some (JNum (Some e)) ∧ now <= e + 60;
  jwt_decode_same secret now now' t m m' :
    jwt_decode secret now t = Some m → jwt_decode secret now' t = Some m' → m = m';
}.

(** [std::env::var(..).ok()] *)
Class Env : Type := env_var : string → option string.

(** [Claims] of src/api.rs. *)
Record Claims : Type := mkClaims {
  c_sub : string;
  c_username : string;
  c_exp : Z;
  c_iat : Z;
  c_udid : option Z;
  c_role : string;
}.
Definition default_claim_role : string := "user".

(** The derived [Serialize] and [Deserialize]: [udid] is left out when it is
    [None] and may be absent or null, [role] has a default. *)
Definition claims_json (c : Claims) : gmap string Json :=
  let m := {["sub" := JStr (c_sub c); "username" := JStr (c_username c);
             "exp" := JNum (Some (c_exp c)); "iat" := JNum (Some (c_iat c));
             "role" := JStr (c_role c)]} in
  match c_udid c with Some n => <["udid" := JNum (Some n)]> m | None => m end%string.

Definition json_str (v : Json) : option string := match v with JStr s => Some s | _ => None end.
Definition json_i64 (v : Json) : option Z := match v with JNum (Some n) => Some n | _ => None end.

Definition claims_of_json (m : gmap string Json) : option Claims :=
  sub ← m !! "sub" ≫= json_str;
  name ← m !! "username" ≫= json_str;
  exp ← m !! "exp" ≫= json_i64;
  iat ← m !! "iat" ≫= json_i64;
  udid ← match m !! "udid" with
         | None | Some JNull => Some None
         | Some (JNum (Some n)) => Some (Some n)
         | Some _ => None
         end;
  role ← match m !! "role" with
         | None => Some default_claim_role
         | Some v => json_str v
         end;
  Some (mkClaims sub name exp iat udid role)%string.

Lemma claims_roundtrip c : claims_of_json (claims_json c) = Some c.
Proof. destruct c as [s u e i [d|] r]; unfold claims_of_json, claims_json; simplify_map_eq; done. Qed.

(** ** A concrete scheme

    A token is the number of the pair of its secret and its claims. *)
#[export] Instance Json_eq_dec : EqDecision Json.
Proof. solve_decision. Defined.
#[export] Instance Json_countable : Countable Json.
Proof.
  refine (inj_countable'
    (λ v, match v with
          | JNull => inl (inl ()) | JNum n => inl (inr n)
          | JStr s => inr (inl s) | JOther => inr (inr ()) end)
    (λ x, match x with
          | inl (inl _) => JNull | inl (inr n) => JNum n
          | inr (inl s) => JStr s | inr (inr _) => JOther end) _).
  by intros [].
Defined.

Definition demo_encode (secret : string) (m : gmap string Json) : option string :=
  Some (to_string (Zpos (encode (secret, m)))).
Definition demo_decode (secret : string) (now : Z) (t : string) : option (gmap string Json) :=
  n ← digits t;
  p ← decode (Z.to_pos n);
  let '(s, m) := p : string * gmap string Json in
  e ← m !! "exp"%string ≫= json_i64;
  if bool_decide (s = secret) && (now <=? e) then Some m else None.

Definition DemoJwt : Jwt := {| jwt_encode := demo_encode; jwt_decode := demo_decode |}.

Lemma DemoJwtLaws : @JwtLaws DemoJwt.
Proof.
  split; cbn; unfold demo_encode, demo_decode.
  - intros secret m t e now [= <-] He Hnow. unfold to_string. cbn [Z.ltb Z.compare Z.abs].
    rewrite digits_to_string_nonneg by lia. cbn [mbind option_bind Z.to_pos].
    change (Z.to_pos (Z.abs (Zpos (encode (secret, m))))) with (encode (secret, m)).
    rewrite decode_encode. cbn [mbind option_bind]. rewrite He. cbn [mbind option_bind json_i64].
    rewrite bool_decide_true by done. destruct (now <=? e) eqn:E; bool_simp; [done|lia].
  - intros secret now t m E. destruct (digits t) as [n|]; [|done]. cbn in E.
    destruct (decode (Z.to_pos n)) as [[s m']|]; [|done]. cbn [mbind option_bind] in E.
    destruct (m' !! "exp"%string) as [v|] eqn:Ev; [|done]. cbn in E.
    destruct v as [|[x|]| |]; try done. cbn in E.
    destruct (bool_decide (s = secret)), (now <=? x) eqn:El; simplify_eq/=.
    exists x. bool_simp. split; [done|lia].
  - intros secret now now' t m m'. destruct (digits t) as [n|]; [|done]. cbn [mbind option_bind].
    destruct (decode (Z.to_pos n)) as [[s m0]|]; [|done]. cbn [mbind option_bind].
    destruct (_ ≫= json_i64) as [e|]; [|done]. cbn [mbind option_bind].
    by repeat case_match; intros; simplify_eq.
Qed.
