(* ===== verification/Database.v ===== *)
(** * The database layer: [src/database.rs], [src/database_simple.rs]

    The tables of the SQLite database as finite maps from their primary key to
    their rows, and one definition per method of [Database].  A method is a
    sequence of SQL statements; each statement runs atomically and may fail
    ([faults] says which of the next statements do), in which case it changes
    nothing and the method takes its error path.  SQLite's autoincrement keys,
    unique constraints, [insert or replace] and foreign keys ([on delete
    cascade]) are those of the [create table] statements of the source.  The
    tables of [subscription.rs] and [payment.rs] are here too; their methods are
    in Subscription.v and Payment.v. *)
From S2P Require Import Prelude.
Local Open Scope Z_scope.

(** ** Rows *)

(** [Peer] of database.rs, a row of table [peer] ([bound_user_id] and
    [bound_device_row_id] are columns [user_id] and [device_id]). *)
Record DbPeer : Type := mkDbPeer {
  dp_guid : bytes;
  dp_id : string;
  dp_uuid : bytes;
  dp_pk : bytes;
  dp_user : option bytes;
  dp_info : string;
  dp_status : option Z;
  dp_created_at : Z;
  bound_user_id : option Z;
  bound_device_row_id : option Z;
}.

Definition USER_ROLE_USER : string := "user".
Definition USER_ROLE_ADMIN : string := "admin".

(** [User], a row of table [users]. *)
Record User : Type := mkUser {
  user_id : Z;
  username : string;
  email : string;
  password_hash : string;
  user_created_at : Z;
  user_updated_at : Z;
  user_is_active : bool;
  role : string;
}.

(** [UserDevice], a row of table [user_devices]. *)
Record UserDevice : Type := mkUserDevice {
  ud_id : Z;
  ud_user_id : Z;
  ud_device_id : string;
  ud_device_name : option string;
  ud_created_at : Z;
  ud_is_active : bool;
}.

(** A row of table [password_reset_tokens]. *)
Record ResetToken : Type := mkResetToken {
  rt_user_id : Z;
  rt_token : string;
  rt_expires_at : Z;
  rt_is_used : bool;
}.

(** [SubscriptionPlan], a row of table [subscription_plans]; the price in
    hundredths. *)
Record SubscriptionPlan : Type := mkPlan {
  sp_id : Z;
  sp_name : string;
  sp_display_name : string;
  sp_device_limit : Z;
  sp_speed_limit_kbps : Z;
  sp_price_monthly : Z;
  sp_description : string;
  sp_is_active : bool;
}.

(** A row of table [user_subscriptions]. *)
Record SubRow : Type := mkSubRow {
  us_id : Z;
  us_user_id : Z;
  us_plan_id : Z;
  us_started_at : Z;
  us_expires_at : option Z;
  us_is_active : bool;
  us_notes : option string;
  us_created_at : Z;
}.

(** A row of table [orders]. *)
Record Order : Type := mkOrder {
  o_id : Z;
  o_order_no : string;
  o_user_id : Z;
  o_plan_id : Z;
  o_amount : string;
  o_currency : string;
  o_payment_method : string;
  o_status : string;
  o_gateway_order_id : option string;
  o_gateway_qr : option string;
  o_stripe_checkout_url : option string;
  o_paid_at : option Z;
  o_created_at : Z;
}.

(** [CreateUserRequest] and [CreateDeviceRequest]. *)
Record CreateUserRequest : Type := mkCreateUser {
  cur_username : string; cur_email : string; cur_password : string }.
Record CreateDeviceRequest : Type := mkCreateDevice {
  cdr_user_id : Z; cdr_device_id : string; cdr_device_name : option string }.

(** The database, with the clock and the random source its statements see. *)
Record Db : Type := mkDb {
  peers : gmap string DbPeer;  (* unique index on id *)
  users : gmap Z User;
  next_user : Z;  (* autoincrement counters *)
  devices : gmap Z UserDevice;
  next_device : Z;
  tokens : gmap Z ResetToken;
  next_token : Z;
  plans : gmap Z SubscriptionPlan;
  next_plan : Z;
  subs : gmap Z SubRow;
  next_sub : Z;
  orders : gmap Z Order;
  next_order : Z;
  settings : gmap string string;
  draws : Z;  (* random draws made: uuids and salts *)
  clock : Z;  (* current_timestamp, in seconds *)
  faults : list bool;  (* whether the next statements fail *)
}.

Definition upd_peers (f : gmap string DbPeer → gmap string DbPeer) (d : Db) : Db :=
  {| peers := f (peers d);
     users := users d;
     next_user := next_user d;
     devices := devices d;
     next_device := next_device d;
     tokens := tokens d;
     next_token := next_token d;
     plans := plans d;
     next_plan := next_plan d;
     subs := subs d;
     next_sub := next_sub d;
     orders := orders d;
     next_order := next_order d;
     settings := settings d;
     draws := draws d;
     clock := clock d;
     faults := faults d |}.
Definition upd_users (f : gmap Z User → gmap Z User) (d : Db) : Db :=
  {| peers := peers d;
     users := f (users d);
     next_user := next_user d;
     devices := devices d;
     next_device := next_device d;
     tokens := tokens d;
     next_token := next_token d;
     plans := plans d;
     next_plan := next_plan d;
     subs := subs d;
     next_sub := next_sub d;
     orders := orders d;
     next_order := next_order d;
     settings := settings d;
     draws := draws d;
     clock := clock d;
     faults := faults d |}.
Definition upd_next_user (f : Z → Z) (d : Db) : Db :=
  {| peers := peers d;
     users := users d;
     next_user := f (next_user d);
     devices := devices d;
     next_device := next_device d;
     tokens := tokens d;
     next_token := next_token d;
     plans := plans d;
     next_plan := next_plan d;
     subs := subs d;
     next_sub := next_sub d;
     orders := orders d;
     next_order := next_order d;
     settings := settings d;
     draws := draws d;
     clock := clock d;
     faults := faults d |}.
Definition upd_devices (f : gmap Z UserDevice → gmap Z UserDevice) (d : Db) : Db :=
  {| peers := peers d;
     users := users d;
     next_user := next_user d;
     devices := f (devices d);
     next_device := next_device d;
     tokens := tokens d;
     next_token := next_token d;
     plans := plans d;
     next_plan := next_plan d;
     subs := subs d;
     next_sub := next_sub d;
     orders := orders d;
     next_order := next_order d;
     settings := settings d;
     draws := draws d;
     clock := clock d;
     faults := faults d |}.
Definition upd_next_device (f : Z → Z) (d : Db) : Db :=
  {| peers := peers d;
     users := users d;
     next_user := next_user d;
     devices := devices d;
     next_device := f (next_device d);
     tokens := tokens d;
     next_token := next_token d;
     plans := plans d;
     next_plan := next_plan d;
     subs := subs d;
     next_sub := next_sub d;
     orders := orders d;
     next_order := next_order d;
     settings := settings d;
     draws := draws d;
     clock := clock d;
     faults := faults d |}.
Definition upd_tokens (f : gmap Z ResetToken → gmap Z ResetToken) (d : Db) : Db :=
  {| peers := peers d;
     users := users d;
     next_user := next_user d;
     devices := devices d;
     next_device := next_device d;
     tokens := f (tokens d);
     next_token := next_token d;
     plans := plans d;
     next_plan := next_plan d;
     subs := subs d;
     next_sub := next_sub d;
     orders := orders d;
     next_order := next_order d;
     settings := settings d;
     draws := draws d;
     clock := clock d;
     faults := faults d |}.
Definition upd_next_token (f : Z → Z) (d : Db) : Db :=
  {| peers := peers d;
     users := users d;
     next_user := next_user d;
     devices := devices d;
     next_device := next_device d;
     tokens := tokens d;
     next_token := f (next_token d);
     plans := plans d;
     next_plan := next_plan d;
     subs := subs d;
     next_sub := next_sub d;
     orders := orders d;
     next_order := next_order d;
     settings := settings d;
     draws := draws d;
     clock := clock d;
     faults := faults d |}.
Definition upd_plans (f : gmap Z SubscriptionPlan → gmap Z SubscriptionPlan) (d : Db) : Db :=
  {| peers := peers d;
     users := users d;
     next_user := next_user d;
     devices := devices d;
     next_device := next_device d;
     tokens := tokens d;
     next_token := next_token d;
     plans := f (plans d);
     next_plan := next_plan d;
     subs := subs d;
     next_sub := next_sub d;
     orders := orders d;
     next_order := next_order d;
     settings := settings d;
     draws := draws d;
     clock := clock d;
     faults := faults d |}.
Definition upd_next_plan (f : Z → Z) (d : Db) : Db :=
  {| peers := peers d;
     users := users d;
     next_user := next_user d;
     devices := devices d;
     next_device := next_device d;
     tokens := tokens d;
     next_token := next_token d;
     plans := plans d;
     next_plan := f (next_plan d);
     subs := subs d;
     next_sub := next_sub d;
     orders := orders d;
     next_order := next_order d;
     settings := settings d;
     draws := draws d;
     clock := clock d;
     faults := faults d |}.
Definition upd_subs (f : gmap Z SubRow → gmap Z SubRow) (d : Db) : Db :=
  {| peers := peers d;
     users := users d;
     next_user := next_user d;
     devices := devices d;
     next_device := next_device d;
     tokens := tokens d;
     next_token := next_token d;
     plans := plans d;
     next_plan := next_plan d;
     subs := f (subs d);
     next_sub := next_sub d;
     orders := orders d;
     next_order := next_order d;
     settings := settings d;
     draws := draws d;
     clock := clock d;
     faults := faults d |}.
Definition upd_next_sub (f : Z → Z) (d : Db) : Db :=
  {| peers := peers d;
     users := users d;
     next_user := next_user d;
     devices := devices d;
     next_device := next_device d;
     tokens := tokens d;
     next_token := next_token d;
     plans := plans d;
     next_plan := next_plan d;
     subs := subs d;
     next_sub := f (next_sub d);
     orders := orders d;
     next_order := next_order d;
     settings := settings d;
     draws := draws d;
     clock := clock d;
     faults := faults d |}.
Definition upd_orders (f : gmap Z Order → gmap Z Order) (d : Db) : Db :=
  {| peers := peers d;
     users := users d;
     next_user := next_user d;
     devices := devices d;
     next_device := next_device d;
     tokens := tokens d;
     next_token := next_token d;
     plans := plans d;
     next_plan := next_plan d;
     subs := subs d;
     next_sub := next_sub d;
     orders := f (orders d);
     next_order := next_order d;
     settings := settings d;
     draws := draws d;
     clock := clock d;
     faults := faults d |}.
Definition upd_next_order (f : Z → Z) (d : Db) : Db :=
  {| peers := peers d;
     users := users d;
     next_user := next_user d;
     devices := devices d;
     next_device := next_device d;
     tokens := tokens d;
     next_token := next_token d;
     plans := plans d;
     next_plan := next_plan d;
     subs := subs d;
     next_sub := next_sub d;
     orders := orders d;
     next_order := f (next_order d);
     settings := settings d;
     draws := draws d;
     clock := clock d;
     faults := faults d |}.
Definition upd_settings (f : gmap string string → gmap string string) (d : Db) : Db :=
  {| peers := peers d;
     users := users d;
     next_user := next_user d;
     devices := devices d;
     next_device := next_device d;
     tokens := tokens d;
     next_token := next_token d;
     plans := plans d;
     next_plan := next_plan d;
     subs := subs d;
     next_sub := next_sub d;
     orders := orders d;
     next_order := next_order d;
     settings := f (settings d);
     draws := draws d;
     clock := clock d;
     faults := faults d |}.
Definition upd_draws (f : Z → Z) (d : Db) : Db :=
  {| peers := peers d;
     users := users d;
     next_user := next_user d;
     devices := devices d;
     next_device := next_device d;
     tokens := tokens d;
     next_token := next_token d;
     plans := plans d;
     next_plan := next_plan d;
     subs := subs d;
     next_sub := next_sub d;
     orders := orders d;
     next_order := next_order d;
     settings := settings d;
     draws := f (draws d);
     clock := clock d;
     faults := faults d |}.
Definition upd_clock (f : Z → Z) (d : Db) : Db :=
  {| peers := peers d;
     users := users d;
     next_user := next_user d;
     devices := devices d;
     next_device := next_device d;
     tokens := tokens d;
     next_token := next_token d;
     plans := plans d;
     next_plan := next_plan d;
     subs := subs d;
     next_sub := next_sub d;
     orders := orders d;
     next_order := next_order d;
     settings := settings d;
     draws := draws d;
     clock := f (clock d);
     faults := faults d |}.
Definition upd_faults (f : list bool → list bool) (d : Db) : Db :=
  {| peers := peers d;
     users := users d;
     next_user := next_user d;
     devices := devices d;
     next_device := next_device d;
     tokens := tokens d;
     next_token := next_token d;
     plans := plans d;
     next_plan := next_plan d;
     subs := subs d;
     next_sub := next_sub d;
     orders := orders d;
     next_order := next_order d;
     settings := settings d;
     draws := draws d;
     clock := clock d;
     faults := f (faults d) |}.

Definition empty_db : Db :=
  {| peers := ∅; users := ∅; next_user := 1; devices := ∅; next_device := 1; tokens := ∅;
     next_token := 1; plans := ∅; next_plan := 1; subs := ∅; next_sub := 1; orders := ∅; next_order := 1;
     settings := ∅; draws := 0; clock := 0; faults := [] |}.

(** ** Statements *)

(** Why a method fails: the statement or the pool failed, a constraint was
    violated, the statement names a column that does not exist, or the code
    itself gave up with the given reason. *)
Inductive DbError : Type :=
| SqlFailure
| Constraint
| NoSuchColumn
| HashFailure
| Refused (reason : string).

Abbreviation DbM A := (M Db (result DbError A)).

(** One SQL statement. *)
Definition stmt {A} (f : Db → result DbError A * Db) : DbM A := λ d,
  match faults d with
  | true :: r => (Err SqlFailure, upd_faults (λ _, r) d)
  | false :: r => f (upd_faults (λ _, r) d)
  | [] => f d
  end.

(** A query, and an update that cannot violate a constraint. *)
Definition query {A} (f : Db → A) : DbM A := stmt (λ d, (Ok (f d), d)).
Definition update (f : Db → Db) : DbM unit := stmt (λ d, (Ok tt, f d)).

(** [self.pool.get().await?], where the method treats a pool that fails unlike a
    statement that fails; elsewhere the two are one step. *)
Definition pool_get : DbM unit := query (λ _, tt).

(** [m.await?] *)
Definition rbind {A B} (m : DbM A) (k : A → DbM B) : DbM B :=
  r ← m; match r with Ok a => k a | Err e => mret (Err e) end.
Notation "x ←? m ; k" := (rbind m (λ x, k))
  (at level 20, m at level 100, k at level 200, only parsing) : nat_server_scope.
(** [m.await.unwrap_or(d)] *)
Definition unwrap_or {A} (d : A) (m : DbM A) : DbM A :=
  r ← m; mret (Ok match r with Ok a => a | Err _ => d end).

(** Rows selected by a condition. *)
Definition rows_where {K} `{Countable K} {A} (P : A → bool) (m : gmap K A) : list A :=
  filter (λ a, P a = true) (map_to_list m).*2.
Definition find_row {K} `{Countable K} {A} (P : A → bool) (m : gmap K A) : option A :=
  head (rows_where P m).
Definition count_where {K} `{Countable K} {A} (P : A → bool) (m : gmap K A) : Z :=
  zlen (rows_where P m).
(** Rows changed by an [update ... where]. *)
Definition update_where {K} `{Countable K} {A} (P : A → bool) (f : A → A) (m : gmap K A) : gmap K A :=
  (λ a, if P a then f a else a) <$> m.
(** Rows left by a [delete ... where]. *)
Definition delete_where {K} `{Countable K} {A} (P : A → bool) (m : gmap K A) : gmap K A :=
  filter (λ kv, P kv.2 = false) m.
(** [order by created_at desc limit ? offset ?]. *)
Definition newer {A} (created : A → Z) (a b : A) : Prop := created b <= created a.
#[export] Instance newer_dec {A} (created : A → Z) : RelDecision (newer created).
Proof. unfold newer. solve_decision. Defined.
Definition sql_page {A} (created : A → Z) (limit offset : Z) (l : list A) : list A :=
  let l := merge_sort (newer created) l in
  let l := drop (Z.to_nat offset) l in
  if limit <? 0 then l else take (Z.to_nat limit) l.

Abbreviation seqb a b := (bool_decide (a = b)).

(** ** What the methods use of other crates *)

(** bcrypt: a salted hash (the salt is the given draw) and the check. *)
Class Bcrypt : Type := {
  bcrypt_hash : Z → string → option string;
  bcrypt_verify : string → string → bool;
}.
(** A password verifies against its own hash. *)
Class BcryptLaws `{Bcrypt} : Prop := {
  bcrypt_verify_hash n pw h : bcrypt_hash n pw = Some h → bcrypt_verify pw h = true;
}.

(** [Uuid::new_v4]: the bytes and the text of the given draw. *)
Class Uuid : Type := {
  uuid_bytes : Z → bytes;
  uuid_string : Z → string;
}.
Class UuidLaws `{Uuid} : Prop := {
  uuid_bytes_inj n m : uuid_bytes n = uuid_bytes m → n = m;
  uuid_bytes_nonempty n : uuid_bytes n ≠ [];
  uuid_string_inj n m : uuid_string n = uuid_string m → n = m;
}.

(** serde_json on the [info] column: the JSON text of a [PeerInfo] with the
    given ip, and that text read back as a JSON string or as a [PeerInfo]. *)
Class Serde : Type := {
  json_of_peer_info : string → string;
  json_as_string : string → option string;
  json_as_peer_info : string → option string;
}.
(** A [PeerInfo] serializes to a JSON object: it reads back as a [PeerInfo] and
    is not a JSON string; the empty text is no JSON value. *)
Class SerdeLaws `{Serde} : Prop := {
  peer_info_roundtrip ip : json_as_peer_info (json_of_peer_info ip) = Some ip;
  peer_info_not_string ip : json_as_string (json_of_peer_info ip) = None;
  empty_not_peer_info : json_as_peer_info "" = None;
}.

(** sqlx and SQLite on timestamps: the text sqlx binds for a [DateTime<Utc>]
    and the text of [datetime('now')], which a condition compares bytewise. *)
Class SqlTime : Type := {
  datetime_text : Z → string;
  now_text : Z → string;
}.
(** The days from 1970 to the end of the year 9999. *)
Definition max_day : Z := 2932897.
(** RFC 3339 separates date and time by a [T], SQLite by a blank; both start
    with the same ten characters of the date, which sort like the day. *)
Class SqlTimeLaws `{SqlTime} (date_text : Z → string) : Prop := {
  datetime_text_split t : ∃ s, datetime_text t = date_text (t / 86400) +:+ "T" +:+ s;
  now_text_split t : ∃ s, now_text t = date_text (t / 86400) +:+ " " +:+ s;
  date_text_order d d' x y : 0 <= d < d' → d' < max_day →
    String.compare (date_text d +:+ x) (date_text d' +:+ y) = Lt;
}.

(** [a > b] on text columns. *)
Definition text_gt (a b : string) : bool :=
  match String.compare a b with Gt => true | _ => false end.

Section database.
Context `{Bcrypt} `{Uuid} `{Serde} `{SqlTime}.

(** ** Peers *)

Definition get_peer (id : string) : DbM (option DbPeer) :=
  row ←? query (λ d, peers d !! id);
  mret (Ok (
    row ← row;
    Some {| dp_guid := dp_guid row; dp_id := dp_id row; dp_uuid := dp_uuid row; dp_pk := dp_pk row;
            dp_user := dp_user row;
            dp_info := default "" (json_as_string (dp_info row));
            dp_status := dp_status row; dp_created_at := dp_created_at row;
            bound_user_id := bound_user_id row;
            bound_device_row_id := bound_device_row_id row |})).

(** The [insert or replace] drops the rows with the same guid or the same id. *)
Definition replace_peer (r : DbPeer) (d : Db) : Db :=
  upd_peers (λ m, <[dp_id r := r]> (delete_where (λ q, seqb (dp_guid q) (dp_guid r)) m)) d.

Definition insert_peer_with_user (id : string) (uuid pk : bytes) (info : string)
    (user_id device_id : option Z) : DbM bytes :=
  n ← gets draws;
  modify (upd_draws Z.succ);;
  let guid := uuid_bytes n in
  _ ←? update (λ d, replace_peer
        {| dp_guid := guid; dp_id := id; dp_uuid := uuid; dp_pk := pk; dp_user := None;
           dp_info := info; dp_status := None; dp_created_at := clock d;
           bound_user_id := user_id; bound_device_row_id := device_id |} d);
  mret (Ok guid).

Definition insert_peer (id : string) (uuid pk : bytes) (info : string) : DbM bytes :=
  insert_peer_with_user id uuid pk info None None.

Definition set_pk_info (pk : bytes) (info : string) (r : DbPeer) : DbPeer :=
  {| dp_guid := dp_guid r; dp_id := dp_id r; dp_uuid := dp_uuid r; dp_pk := pk;
     dp_user := dp_user r; dp_info := info; dp_status := dp_status r;
     dp_created_at := dp_created_at r; bound_user_id := bound_user_id r;
     bound_device_row_id := bound_device_row_id r |}.

Definition set_bound (user_id device_id : option Z) (r : DbPeer) : DbPeer :=
  {| dp_guid := dp_guid r; dp_id := dp_id r; dp_uuid := dp_uuid r; dp_pk := dp_pk r;
     dp_user := dp_user r; dp_info := dp_info r; dp_status := dp_status r;
     dp_created_at := dp_created_at r; bound_user_id := user_id;
     bound_device_row_id := device_id |}.

Definition peer_key (guid : bytes) (id : string) (r : DbPeer) : bool :=
  seqb (dp_guid r) guid && seqb (dp_id r) id.

Definition update_pk (guid : bytes) (id : string) (pk : bytes) (info : string) : DbM unit :=
  update (upd_peers (update_where (peer_key guid id) (set_pk_info pk info))).

Definition update_pk_with_user (guid : bytes) (id : string) (pk : bytes) (info : string)
    (user_id device_id : option Z) : DbM unit :=
  update (upd_peers (update_where (peer_key guid id)
    (λ r, set_bound user_id device_id (set_pk_info pk info r)))).

(** ** Users *)

Definition get_user_by_id (id : Z) : DbM (option User) := query (λ d, users d !! id).
Definition get_user_by_username (name : string) : DbM (option User) :=
  query (λ d, find_row (λ u, seqb (username u) name) (users d)).
Definition get_user_by_email (mail : string) : DbM (option User) :=
  query (λ d, find_row (λ u, seqb (email u) mail) (users d)).

(** The unique columns of [users]: is the name or the mail taken by another? *)
Definition user_taken (name mail : string) (except : option Z) (d : Db) : bool :=
  bool_decide (rows_where (λ u, negb (seqb (Some (user_id u)) except)
                 && (seqb (username u) name || seqb (email u) mail)) (users d) ≠ []).

Definition insert_user (name mail hash : string) : DbM Z :=
  stmt (λ d,
    if user_taken name mail None d then (Err Constraint, d)
    else let id := next_user d in
      (Ok id,
       upd_next_user Z.succ (upd_users <[id :=
         {| user_id := id; username := name; email := mail; password_hash := hash;
            user_created_at := clock d; user_updated_at := clock d; user_is_active := true;
            role := USER_ROLE_USER |}]> d))).

(** [bcrypt::hash(.., DEFAULT_COST).map_err(..)?] *)
Definition hash_password (pw : string) : DbM string :=
  n ← gets draws;
  modify (upd_draws Z.succ);;
  mret (match bcrypt_hash n pw with Some h => Ok h | None => Err HashFailure end).

Definition create_user (request : CreateUserRequest) : DbM Z :=
  hash ←? hash_password (cur_password request);
  insert_user (cur_username request) (cur_email request) hash.

Definition set_role (r : string) (now : Z) (u : User) : User :=
  {| user_id := user_id u; username := username u; email := email u;
     password_hash := password_hash u; user_created_at := user_created_at u;
     user_updated_at := now; user_is_active := user_is_active u; role := r |}.

Definition set_password_hash (h : string) (now : Z) (u : User) : User :=
  {| user_id := user_id u; username := username u; email := email u;
     password_hash := h; user_created_at := user_created_at u;
     user_updated_at := now; user_is_active := user_is_active u; role := role u |}.

Definition set_names (name mail : option string) (now : Z) (u : User) : User :=
  {| user_id := user_id u; username := default (username u) name;
     email := default (email u) mail; password_hash := password_hash u;
     user_created_at := user_created_at u; user_updated_at := now;
     user_is_active := user_is_active u; role := role u |}.

Definition is_admin_row (u : User) : bool := seqb (role u) USER_ROLE_ADMIN.

Definition count_admins : DbM Z := query (λ d, count_where is_admin_row (users d)).

Definition set_user_role (id : Z) (r : string) : DbM unit :=
  let r := if seqb r USER_ROLE_ADMIN then USER_ROLE_ADMIN else USER_ROLE_USER in
  update (λ d, upd_users (alter (set_role r (clock d)) id) d).

(** [update_user]: the unique columns may refuse the new values. *)
Definition update_user (id : Z) (name mail : option string) : DbM unit :=
  stmt (λ d,
    match users d !! id with
    | Some u =>
      if user_taken (default (username u) name) (default (email u) mail) (Some id) d
      then (Err Constraint, d)
      else (Ok tt, upd_users (alter (set_names name mail (clock d)) id) d)
    | None => (Ok tt, d)
    end).

(** [delete from users where id = ?], with the cascades. *)
Definition delete_user (id : Z) : DbM unit :=
  update (λ d,
    upd_orders (delete_where (λ o, o_user_id o =? id))
    (upd_subs (delete_where (λ s, us_user_id s =? id))
    (upd_tokens (delete_where (λ t, rt_user_id t =? id))
    (upd_devices (delete_where (λ v, ud_user_id v =? id))
    (upd_users (delete id) d))))).

Definition list_users (limit offset : option Z) : DbM (list User) :=
  query (λ d, sql_page user_created_at (default 50 limit) (default 0 offset) (map_to_list (users d)).*2).

(** The smallest id of a user ([select min(id)]). *)
Definition min_user_id (d : Db) : option Z :=
  foldr (λ u acc, Some (match acc with Some m => Z.min (user_id u) m | None => user_id u end))
    None (map_to_list (users d)).*2.

(** [bootstrap_admin_if_none]; [name] is [BOOTSTRAP_ADMIN_USERNAME], trimmed,
    when it is set. *)
Definition bootstrap_admin_if_none (name : option string) : DbM unit :=
  _ ←? pool_get;
  admin_n ←? unwrap_or 0 count_admins;
  if 0 <? admin_n then mret (Ok tt) else
  total ←? unwrap_or 0 (query (λ d, zlen (map_to_list (users d))));
  if total =? 0 then mret (Ok tt) else
  promoted ←? (match name with
    | Some n =>
      if seqb n "" then mret (Ok 0)
      else stmt (λ d, (Ok (count_where (λ u, seqb (username u) n) (users d)),
             upd_users (update_where (λ u, seqb (username u) n) (λ u, set_role USER_ROLE_ADMIN (user_updated_at u) u)) d))
    | None => mret (Ok 0)
    end);
  if promoted =? 0 then
    update (λ d, upd_users (update_where (λ u, seqb (Some (user_id u)) (min_user_id d))
                              (λ u, set_role USER_ROLE_ADMIN (user_updated_at u) u)) d)
  else mret (Ok tt).

(** ** Devices *)

Definition active_device (uid : Z) (v : UserDevice) : bool := (ud_user_id v =? uid) && ud_is_active v.
Definition active_device_id (uid : Z) (did : string) (v : UserDevice) : bool :=
  active_device uid v && seqb (ud_device_id v) did.

Definition resolve_peer_device_binding (uid : Z) (udid_from_claim : option Z) (peer_id : string) : DbM Z :=
  match udid_from_claim with
  | Some udid =>
    dev ←? query (λ d, v ← devices d !! udid;
                       if active_device uid v then Some (ud_device_id v) else None);
    match dev with
    | None => mret (Err (Refused "JWT udid is not a valid device for this user"))
    | Some dev =>
      if negb (seqb dev peer_id)
      then mret (Err (Refused "JWT device does not match registering peer id"))
      else mret (Ok udid)
    end
  | None =>
    row ←? query (λ d, ud_id <$> find_row (active_device_id uid peer_id) (devices d));
    match row with
    | None => mret (Err (Refused "Peer id is not registered as a device for this user"))
    | Some id => mret (Ok id)
    end
  end.

Definition get_user_device_row_id (uid : Z) (did : string) : DbM (option Z) :=
  query (λ d, ud_id <$> find_row (active_device_id uid did) (devices d)).

(** [insert or replace into user_devices]: the unique pair (user, device id)
    replaces its old row, and the user must exist. *)
Definition replace_device (req : CreateDeviceRequest) : DbM Z :=
  stmt (λ d,
    match users d !! cdr_user_id req with
    | None => (Err Constraint, d)
    | Some _ =>
      let id := next_device d in
      (Ok id,
       upd_next_device Z.succ (upd_devices (λ m, <[id :=
         {| ud_id := id; ud_user_id := cdr_user_id req; ud_device_id := cdr_device_id req;
            ud_device_name := cdr_device_name req; ud_created_at := clock d; ud_is_active := true |}]>
         (delete_where (λ v, (ud_user_id v =? cdr_user_id req) && seqb (ud_device_id v) (cdr_device_id req)) m)) d))
    end).

Definition get_user_devices (uid : Z) : DbM (list UserDevice) :=
  query (λ d, sql_page ud_created_at (-1) 0 (rows_where (active_device uid) (devices d))).

Definition validate_device_ownership (uid : Z) (did : string) : DbM bool :=
  _ ←? pool_get;
  count ←? unwrap_or 0 (query (λ d, count_where (active_device_id uid did) (devices d)));
  mret (Ok (0 <? count)).

Definition deactivate_device (uid : Z) (did : string) : Db → Db :=
  upd_devices (update_where (λ v, (ud_user_id v =? uid) && seqb (ud_device_id v) did)
    (λ v, {| ud_id := ud_id v; ud_user_id := ud_user_id v; ud_device_id := ud_device_id v;
             ud_device_name := ud_device_name v; ud_created_at := ud_created_at v;
             ud_is_active := false |})).

(** The columns [create_tables] gives [user_devices]; no migration adds any. *)
Definition user_devices_columns : list string :=
  ["id"; "user_id"; "device_id"; "device_name"; "created_at"; "is_active"].

(** An [update user_devices set cols ..]: preparing it fails when a column does
    not exist. *)
Definition update_devices (cols : list string) (f : Db → Db) : DbM unit :=
  stmt (λ d, if forallb (λ c, bool_decide (c ∈ user_devices_columns)) cols
             then (Ok tt, f d) else (Err NoSuchColumn, d)).

(** [remove_device_from_user]: [set is_active = 0, deleted_at = current_timestamp]. *)
Definition remove_device_from_user (uid : Z) (did : string) : DbM unit :=
  update_devices ["is_active"; "deleted_at"] (deactivate_device uid did).

(** [remove_device_from_user_simple]: [set is_active = 0]. *)
Definition remove_device_from_user_simple (uid : Z) (did : string) : DbM unit :=
  update_devices ["is_active"] (deactivate_device uid did).

(** The owner of a device: an active user with an active device of that id. *)
Definition get_device_owner (did : string) : DbM (option User) :=
  query (λ d,
    head (omap (λ v, u ← users d !! ud_user_id v;
                     if ud_is_active v && seqb (ud_device_id v) did && user_is_active u then Some u else None)
            (map_to_list (devices d)).*2)).

(** ** Passwords *)

Definition verify_password (pw hash : string) : DbM bool := mret (Ok (bcrypt_verify pw hash)).

Definition create_password_reset_token (uid : Z) : DbM string :=
  n ← gets draws;
  modify (upd_draws Z.succ);;
  let token := uuid_string n in
  _ ←? stmt (λ d,
    match users d !! uid with
    | None => (Err Constraint, d)
    | Some _ =>
      if bool_decide (rows_where (λ t, seqb (rt_token t) token) (tokens d) ≠ []) then (Err Constraint, d)
      else (Ok tt, upd_next_token Z.succ (upd_tokens <[next_token d :=
             {| rt_user_id := uid; rt_token := token; rt_expires_at := clock d + 3600;
                rt_is_used := false |}]> d))
    end);
  mret (Ok token).

Definition token_valid (now : Z) (token : string) (t : ResetToken) : bool :=
  seqb (rt_token t) token && text_gt (datetime_text (rt_expires_at t)) (now_text now)
  && negb (rt_is_used t).

Definition validate_password_reset_token (token : string) : DbM (option Z) :=
  query (λ d, rt_user_id <$> find_row (token_valid (clock d) token) (tokens d)).

Definition use_token (t : ResetToken) : ResetToken :=
  {| rt_user_id := rt_user_id t; rt_token := rt_token t; rt_expires_at := rt_expires_at t;
     rt_is_used := true |}.

(** [reset_password]: one transaction, so the two updates happen together or,
    when a statement or the commit fails, not at all. *)
Definition reset_password (uid : Z) (new_password : string) : DbM unit :=
  hash ←? hash_password new_password;
  update (λ d,
    upd_tokens (update_where (λ t, (rt_user_id t =? uid) && negb (rt_is_used t)) use_token)
      (upd_users (alter (set_password_hash hash (clock d)) uid) d)).

Definition change_password (uid : Z) (new_password : string) : DbM unit :=
  hash ←? hash_password new_password;
  update (λ d, upd_users (alter (set_password_hash hash (clock d)) uid) d).

Definition update_password (uid : Z) (old_password new_password : string) : DbM unit :=
  u ←? get_user_by_id uid;
  match u with
  | None => mret (Err (Refused "user does not exist"))
  | Some u =>
    if negb (bcrypt_verify old_password (password_hash u))
    then mret (Err (Refused "wrong old password"))
    else change_password uid new_password
  end.

(** ** Settings *)

Definition default_settings : list (string * string) :=
  [("smtp_enabled", "false"); ("smtp_port", "465"); ("smtp_tls", "true"); ("smtp_host", "");
   ("smtp_user", ""); ("smtp_pass", ""); ("smtp_from", "")]%string.

(** [insert or ignore] of each default. *)
Fixpoint seed_settings (l : list (string * string)) : DbM unit :=
  match l with
  | [] => mret (Ok tt)
  | (k, v) :: l =>
    _ ←? update (upd_settings (λ m, match m !! k with Some _ => m | None => <[k := v]> m end));
    seed_settings l
  end.
Definition migrate_settings : DbM unit := seed_settings default_settings.

Definition get_all_settings : DbM (gmap string string) := query settings.
Definition get_setting (key : string) : DbM (option string) := query (λ d, settings d !! key).
Definition set_setting (key value : string) : DbM unit := update (upd_settings <[key := value]>).

End database.

(** ** Rows selected and changed *)
Section rows.
Context {K : Type} `{Countable K} {A : Type}.
Implicit Types (m : gmap K A) (P : A → bool).

Lemma elem_of_rows_where P m a :
  a ∈ rows_where P m ↔ P a = true ∧ ∃ k, m !! k = Some a.
Proof.
  unfold rows_where. rewrite list_elem_of_filter, list_elem_of_fmap. split.
  - intros (? & [k v] & -> & ?%elem_of_map_to_list); eauto.
  - intros (? & k & ?). split; [done|]. exists (k, a). by rewrite elem_of_map_to_list.
Qed.

Lemma rows_where_nil P m : rows_where P m = [] ↔ ∀ k a, m !! k = Some a → P a = false.
Proof.
  split.
  - intros E k a Ha. destruct (P a) eqn:EP; [|done].
    assert (a ∈ rows_where P m) as C by (apply elem_of_rows_where; eauto).
    rewrite E in C. by destruct (not_elem_of_nil a).
  - intros F. destruct (rows_where P m) as [|a l] eqn:E; [done|].
    assert (a ∈ rows_where P m) as [? [k Hk]]%elem_of_rows_where by (rewrite E; left).
    apply F in Hk. congruence.
Qed.

Lemma find_row_Some P m a : find_row P m = Some a → P a = true ∧ ∃ k, m !! k = Some a.
Proof.
  unfold find_row. intros E. apply elem_of_rows_where.
  destruct (rows_where P m); simplify_eq/=. left.
Qed.

Lemma find_row_None P m : find_row P m = None ↔ ∀ k a, m !! k = Some a → P a = false.
Proof. rewrite <- rows_where_nil. unfold find_row. by destruct (rows_where P m). Qed.

(** The only row of its kind is the row found. *)
Lemma find_row_unique P m k a :
  m !! k = Some a → P a = true →
  (∀ k' a', m !! k' = Some a' → P a' = true → a' = a) → find_row P m = Some a.
Proof.
  intros Hk HP U. destruct (find_row P m) as [b|] eqn:E.
  - apply find_row_Some in E as (? & k' & ?). f_equal. eauto.
  - eapply find_row_None in E; [|done]. congruence.
Qed.

Lemma count_where_size P m : count_where P m = Z.of_nat (size (filter (λ kv, P kv.2 = true) m)).
Proof.
  unfold count_where, rows_where, zlen. f_equal.
  rewrite map_filter_alt, map_size_list_to_map.
  2:{ apply (sublist_NoDup _ _ (NoDup_fst_map_to_list m)), fmap_sublist, sublist_filter. }
  induction (map_to_list m) as [|[k v] l IH]; [done|]. cbn [fmap list_fmap].
  rewrite !filter_cons. cbn [snd]. destruct (decide (P v = true)); cbn; by rewrite IH.
Qed.

Lemma count_where_nonneg P m : 0 <= count_where P m.
Proof. apply zlen_nonneg. Qed.

Lemma count_where_pos P m : 0 < count_where P m ↔ ∃ k a, m !! k = Some a ∧ P a = true.
Proof.
  unfold count_where, zlen. split.
  - destruct (rows_where P m) as [|a l] eqn:E; cbn; [lia|]. intros _.
    assert (a ∈ rows_where P m) as [? [k ?]]%elem_of_rows_where by (rewrite E; left). eauto.
  - intros (k & a & Hk & HP). destruct (rows_where P m) eqn:E; cbn; [|lia].
    eapply rows_where_nil in E; [|done]. congruence.
Qed.

(** A new row raises the count by at most one, removing rows never raises it. *)
Lemma count_where_insert P m k a :
  count_where P (<[k := a]> m) <= count_where P m + 1.
Proof.
  rewrite !count_where_size. destruct (decide (P a = true)) as [E|E].
  - rewrite map_filter_insert_True by done. rewrite map_size_insert.
    destruct (filter _ m !! k); cbn; lia.
  - rewrite map_filter_insert_False by done. rewrite map_filter_delete, map_size_delete.
    destruct (filter _ m !! k); cbn; lia.
Qed.

Lemma count_where_subseteq P m1 m2 : m1 ⊆ m2 → count_where P m1 <= count_where P m2.
Proof.
  intros S. rewrite !count_where_size. apply inj_le, map_subseteq_size.
  by apply map_filter_subseteq_mono.
Qed.

Lemma count_where_update P Q f m :
  (∀ a, P (f a) = true → P a = true) → count_where P (update_where Q f m) <= count_where P m.
Proof.
  intros HP. rewrite !count_where_size. unfold update_where.
  rewrite map_filter_fmap, map_size_fmap. apply inj_le, map_subseteq_size.
  apply map_filter_subseteq_ext. intros k a _. cbn. destruct (Q a); auto.
Qed.

Lemma delete_where_subseteq P m : delete_where P m ⊆ m.
Proof. apply map_filter_subseteq. Qed.

Lemma lookup_delete_where P m k a :
  delete_where P m !! k = Some a ↔ m !! k = Some a ∧ P a = false.
Proof. unfold delete_where. by rewrite map_lookup_filter_Some. Qed.

Lemma lookup_update_where P f m k a :
  update_where P f m !! k = Some a ↔
  ∃ b, m !! k = Some b ∧ a = if P b then f b else b.
Proof. unfold update_where. rewrite lookup_fmap_Some. split; intros (b & ? & ?); exists b; done. Qed.

End rows.
#[export] Hint Rewrite @lookup_delete_where @lookup_update_where : nat_server.
#[export] Hint Resolve count_where_nonneg : nat_server.

(** ** Tables *)

(** Rows sit under their own key, below the autoincrement counter; no two rows
    are related by [R] (a unique column); each row refers to a row of [t] (a
    foreign key); each row satisfies a condition. *)
Definition keyed {A} (id : A → Z) (m : gmap Z A) (next : Z) : Prop :=
  ∀ k a, m !! k = Some a → id a = k ∧ k < next.
Definition unique_by {K} `{Countable K} {A} (R : A → A → Prop) (m : gmap K A) : Prop :=
  ∀ k k' a a', m !! k = Some a → m !! k' = Some a' → R a a' → k = k'.
Definition refers {A B} (f : A → Z) (m : gmap Z A) (t : gmap Z B) : Prop :=
  ∀ k a, m !! k = Some a → is_Some (t !! f a).

Section tables.
Context {A B : Type}.
Implicit Types (m : gmap Z A) (t : gmap Z B) (R : A → A → Prop).

Lemma keyed_empty (id : A → Z) next : keyed id ∅ next.
Proof. intros k a C. by rewrite lookup_empty in C. Qed.
Lemma keyed_insert (id : A → Z) m next a :
  keyed id m next → id a = next → keyed id (<[next := a]> m) (Z.succ next).
Proof.
  intros Hm <- k b [[<- <-]|[? Hk]]%lookup_insert_Some; [lia|]. apply Hm in Hk. lia.
Qed.
Lemma keyed_subseteq (id : A → Z) m m' next : m' ⊆ m → keyed id m next → keyed id m' next.
Proof. intros S Hm k a Hk. eapply Hm, lookup_weaken; eauto. Qed.
Lemma keyed_update (id : A → Z) P f m next :
  (∀ a, id (f a) = id a) → keyed id m next → keyed id (update_where P f m) next.
Proof.
  intros Hf Hm k a (b & Hb & ->)%lookup_update_where. apply Hm in Hb.
  destruct (P b); rewrite ?Hf; done.
Qed.
Lemma keyed_alter (id : A → Z) f i m next :
  (∀ a, id (f a) = id a) → keyed id m next → keyed id (alter f i m) next.
Proof.
  intros Hf Hm k a [(-> & b & Hb & ->)|[? Hk]]%lookup_alter_Some; [|eauto].
  apply Hm in Hb. by rewrite Hf.
Qed.
Lemma keyed_fresh (id : A → Z) m next : keyed id m next → m !! next = None.
Proof.
  intros Hm. destruct (m !! next) eqn:E; [|done]. apply Hm in E. lia.
Qed.

Lemma unique_empty R : unique_by R (∅ : gmap Z A).
Proof. intros k k' a a' C. by rewrite lookup_empty in C. Qed.
Lemma unique_insert R m k a :
  unique_by R m → (∀ k' a', m !! k' = Some a' → ¬ R a a' ∧ ¬ R a' a) →
  unique_by R (<[k := a]> m).
Proof.
  intros Hm Ha k1 k2 a1 a2 [[? ?]|[? ?]]%lookup_insert_Some
    [[? ?]|[? ?]]%lookup_insert_Some HR; subst; [done| | |by eapply Hm];
    exfalso; naive_solver.
Qed.
Lemma unique_subseteq R m m' : m' ⊆ m → unique_by R m → unique_by R m'.
Proof. intros S Hm k k' a a' Hk Hk'. eapply Hm; eapply lookup_weaken; eauto. Qed.
Lemma unique_update R (P : A → bool) (f : A → A) m :
  (∀ a b, R (if P a then f a else a) (if P b then f b else b) → R a b) →
  unique_by R m → unique_by R (update_where P f m).
Proof.
  intros Hf Hm k k' a a' (b & Hb & ->)%lookup_update_where (b' & Hb' & ->)%lookup_update_where HR.
  eauto.
Qed.
Lemma unique_alter R f i m :
  unique_by R m →
  (∀ b k a, m !! i = Some b → m !! k = Some a → k ≠ i → ¬ R (f b) a ∧ ¬ R a (f b)) →
  unique_by R (alter f i m).
Proof.
  intros Hm Hf k k' a a' [(-> & b & Hb & ->)|[? Hk]]%lookup_alter_Some
    [(-> & b' & Hb' & ->)|[? Hk']]%lookup_alter_Some HR;
    [done| | |by eapply Hm]; exfalso; naive_solver.
Qed.

Lemma refers_empty (f : A → Z) t : refers f ∅ t.
Proof. intros k a C. by rewrite lookup_empty in C. Qed.
Lemma refers_insert (f : A → Z) m t k a :
  refers f m t → is_Some (t !! f a) → refers f (<[k := a]> m) t.
Proof. intros Hm Ha k' a' [[<- <-]|[? ?]]%lookup_insert_Some; eauto. Qed.
Lemma refers_subseteq (f : A → Z) m m' t : m' ⊆ m → refers f m t → refers f m' t.
Proof. intros S Hm k a Hk. eapply Hm, lookup_weaken; eauto. Qed.
Lemma refers_update (f : A → Z) P g m t :
  (∀ a, f (g a) = f a) → refers f m t → refers f (update_where P g m) t.
Proof.
  intros Hg Hm k a (b & Hb & ->)%lookup_update_where. apply Hm in Hb.
  destruct (P b); rewrite ?Hg; done.
Qed.
Lemma refers_alter (f : A → Z) g i m t :
  (∀ a, f (g a) = f a) → refers f m t → refers f (alter g i m) t.
Proof.
  intros Hg Hm k a [(-> & b & Hb & ->)|[? Hk]]%lookup_alter_Some; [|eauto].
  rewrite Hg. eauto.
Qed.
(** The referred table may grow or change in place; deleting the row [i] needs
    the rows that refer to it to go. *)
Lemma refers_to (f : A → Z) m t t' :
  (∀ k, is_Some (t !! k) → is_Some (t' !! k)) → refers f m t → refers f m t'.
Proof. intros Ht Hm k a Hk. apply Ht. eauto. Qed.
Lemma refers_cascade (f : A → Z) m t i :
  refers f m t → refers f (delete_where (λ a, f a =? i) m) (delete i t).
Proof.
  intros Hm k a [Hk Hi]%lookup_delete_where. bool_simp. rewrite lookup_delete_ne by done. eauto.
Qed.

Lemma is_Some_insert t k b i : is_Some (t !! i) → is_Some (<[k := b]> t !! i).
Proof. intros. destruct (decide (k = i)) as [->|]; by rewrite ?lookup_insert_eq, ?lookup_insert_ne. Qed.
Lemma is_Some_alter t g k i : is_Some (t !! i) → is_Some (alter g k t !! i).
Proof.
  intros [b E]. destruct (decide (k = i)) as [->|];
    rewrite ?lookup_alter_eq, ?lookup_alter_ne by done; rewrite E; cbn; eauto.
Qed.
Lemma is_Some_update t P g i : is_Some (t !! i) → is_Some (update_where P g t !! i).
Proof. intros [b E]. unfold update_where. rewrite lookup_fmap, E. cbn; eauto. Qed.
End tables.

(** ** Running methods *)

(** The condition says nothing of the faults to come. *)
Class FaultBlind (I : Db → Prop) : Prop := fault_blind f d : I d → I (upd_faults f d).

Section keeps.
Context (I : Db → Prop) `{FaultBlind I}.

Lemma keeps_stmt {A} (f : Db → result DbError A * Db) : keeps I f → keeps I (stmt f).
Proof.
  intros Hf d Hd. unfold stmt. destruct (faults d) as [|[] r]; cbn.
  - by apply Hf.
  - by apply fault_blind.
  - by apply Hf, fault_blind.
Qed.
Lemma keeps_query {A} (f : Db → A) : keeps I (query f).
Proof. apply keeps_stmt. by intros d ?. Qed.
Lemma keeps_update (f : Db → Db) : (∀ d, I d → I (f d)) → keeps I (update f).
Proof. intros Hf. apply keeps_stmt. intros d ?. by apply Hf. Qed.
Lemma keeps_rbind {A B} (m : DbM A) (k : A → DbM B) :
  keeps I m → (∀ a, keeps I (k a)) → keeps I (rbind m k).
Proof.
  intros Hm Hk. apply keeps_bind; [done|]. intros [a|e]; [apply Hk|apply keeps_ret].
Qed.
Lemma keeps_unwrap_or {A} (a : A) (m : DbM A) : keeps I m → keeps I (unwrap_or a m).
Proof. intros Hm. apply keeps_bind; [done|]. intros r. apply keeps_ret. Qed.
End keeps.

Create Rewrite HintDb db_run.
(** Take a method apart, one statement at a time. *)
Ltac keeps_steps ::=
  repeat lazymatch goal with
    | |- keeps _ (rbind _ _) => apply keeps_rbind; [|intros ?]
    | |- keeps _ (unwrap_or _ _) => apply keeps_unwrap_or
    | |- keeps _ (query _) => apply keeps_query; apply _
    | _ => progress keeps_basic
    end.

(** One statement and one bind of a run. *)
Lemma stmt_ok {A} (f : Db → result DbError A * Db) d : faults d = [] → stmt f d = f d.
Proof. unfold stmt. by intros ->. Qed.
Lemma query_ok {A} (f : Db → A) d : faults d = [] → query f d = (Ok (f d), d).
Proof. intros E. unfold query. by rewrite stmt_ok. Qed.
Lemma update_ok (f : Db → Db) d : faults d = [] → update f d = (Ok tt, f d).
Proof. intros E. unfold update. by rewrite stmt_ok. Qed.
Lemma rbind_run {A B} (m : DbM A) (k : A → DbM B) d :
  rbind m k d = match m d with (Ok a, d') => k a d' | (Err e, d') => (Err e, d') end.
Proof. unfold rbind. rewrite bind_run. by destruct (m d) as [[] ?]. Qed.
Lemma unwrap_or_run {A} (a : A) (m : DbM A) d :
  unwrap_or a m d = (Ok match (m d).1 with Ok b => b | Err _ => a end, (m d).2).
Proof. unfold unwrap_or. rewrite bind_run. by destruct (m d). Qed.
#[export] Hint Rewrite @stmt_ok @query_ok @update_ok using (assumption || reflexivity) : db_run.
#[export] Hint Rewrite @rbind_run @unwrap_or_run @bind_run : db_run.

(** Run a method on a database without faults to come. *)
Ltac db_run :=
  repeat (progress (autorewrite with db_run) || (progress cbn beta iota zeta match delta [fst snd])
          || unfold gets, modify, mret, M_ret).
