(* ===== verification/Instances.v ===== *)
(** * Concrete libraries for the witnesses

    The crates the model takes as parameters (bcrypt, uuid, serde_json, sqlx's
    timestamps) by simple functions that satisfy the laws the theorems assume,
    so that every theorem is applied at inputs it can compute with. *)
From Stdlib Require Import Ascii.
From S2P Require Import Prelude Text Auth Database.
Local Open Scope Z_scope.

(** ** Passwords and uuids *)
Definition TestBcrypt : Bcrypt :=
  {| bcrypt_hash := λ n pw, Some pw; bcrypt_verify := λ pw h, bool_decide (pw = h) |}.
Lemma TestBcryptLaws : @BcryptLaws TestBcrypt.
Proof. split. cbn. intros n pw h [= ->]. by apply bool_decide_true. Qed.

Definition TestUuid : Uuid := {| uuid_bytes := λ n, [n]; uuid_string := to_string |}.
Lemma to_string_inj n m : to_string n = to_string m → n = m.
Proof.
  intros E. set (k := Z.abs n + Z.abs m).
  assert (∀ x, - k <= x <= k → parse_int (- k - 1) k (to_string x) = Some x) as P.
  { intros x Hx. apply parse_to_string; lia. }
  pose proof (P n) as Pn. pose proof (P m) as Pm. rewrite E, Pm in Pn by lia.
  injection Pn; lia.
Qed.
Lemma TestUuidLaws : @UuidLaws TestUuid.
Proof. split; cbn; [by intros n m [= ->]|done|apply to_string_inj]. Qed.

(** ** JSON *)
Definition TestSerde : Serde :=
  {| json_of_peer_info := λ ip, "{" +:+ ip;
     json_as_string := λ s, if starts_with "{" s then None else Some s;
     json_as_peer_info := strip_prefix "{" |}%string.
Lemma TestSerdeLaws : @SerdeLaws TestSerde.
Proof. split; done. Qed.

(** ** Timestamps: the day in ten digits *)
Fixpoint fixed (n : nat) (z : Z) : string :=
  match n with
  | O => ""
  | S k => String (chr (48 + z / 10 ^ Z.of_nat k mod 10)) (fixed k z)
  end.

Lemma compare_digits a b :
  0 <= a < 10 → 0 <= b < 10 → Ascii.compare (chr (48 + a)) (chr (48 + b)) = (a ?= b).
Proof.
  assert (Forall (λ a, Forall (λ b, Ascii.compare (chr (48 + a)) (chr (48 + b)) = (a ?= b)) (seqZ 0 10))
            (seqZ 0 10)) as F by (vm_compute; repeat constructor).
  intros Ha Hb. rewrite Forall_forall in F. specialize (F a). rewrite elem_of_seqZ, Forall_forall in F.
  apply F; [lia|]. rewrite elem_of_seqZ. lia.
Qed.

Lemma compare_fixed n x y : ∀ z z',
  z mod 10 ^ Z.of_nat n < z' mod 10 ^ Z.of_nat n →
  String.compare (fixed n z +:+ x) (fixed n z' +:+ y) = Lt.
Proof.
  induction n as [|n IH]; intros z z' Hz.
  { change (10 ^ Z.of_nat 0) with 1 in Hz. rewrite !Z.mod_1_r in Hz. lia. }
  rewrite Nat2Z.inj_succ, Z.pow_succ_r, Z.mul_comm in Hz by lia.
  assert (0 < 10 ^ Z.of_nat n) by lia.
  rewrite !Z.rem_mul_r in Hz by lia.
  pose proof (Z.mod_pos_bound z (10 ^ Z.of_nat n)). pose proof (Z.mod_pos_bound z' (10 ^ Z.of_nat n)).
  set (a := z / 10 ^ Z.of_nat n mod 10) in *. set (a' := z' / 10 ^ Z.of_nat n mod 10) in *.
  assert (0 <= a < 10) by (apply Z.mod_pos_bound; lia).
  assert (0 <= a' < 10) by (apply Z.mod_pos_bound; lia).
  change (match Ascii.compare (chr (48 + a)) (chr (48 + a')) with
          | Eq => String.compare (fixed n z +:+ x) (fixed n z' +:+ y) | c => c end = Lt).
  rewrite compare_digits by done.
  destruct (Z.compare_spec a a') as [E|E|E]; [|done|nia].
  apply IH. rewrite E in Hz. lia.
Qed.

Definition test_date (d : Z) : string := fixed 7 d.
Definition TestSqlTime : SqlTime :=
  {| datetime_text := λ t, test_date (t / 86400) +:+ "T" +:+ fixed 5 (t mod 86400);
     now_text := λ t, test_date (t / 86400) +:+ " " +:+ fixed 5 (t mod 86400) |}%string.
Lemma TestSqlTimeLaws : @SqlTimeLaws TestSqlTime test_date.
Proof.
  split; [by eexists|by eexists|]. intros d d' x y Hd Hd'. apply compare_fixed.
  change (10 ^ Z.of_nat 7) with 10000000. unfold max_day in Hd'. rewrite !Z.mod_small by lia. lia.
Qed.

Definition TestEnv : Env := λ _, None.

(** A user, and a database with one user and one subscription. *)
Definition demo_user : CreateUserRequest := mkCreateUser "ann" "ann@x" "secret".
