(* ===== verification/Keys.v ===== *)
(** * Server keys: [src/common.rs] ([gen_sk]), [get_server_sk] of both servers

    The Ed25519 key of the servers: [gen_sk] reads it from the file [id_ed25519]
    or generates it and writes it there; the rendezvous and the relay server
    each turn the key given on the command line into the key clients must show
    and, for the rendezvous server, the key it signs with. *)
From S2P Require Import Prelude Text.
Local Open Scope Z_scope.

Definition SECRETKEYBYTES : nat := 64.

(** base64, and the key pairs [sign::gen_keypair] draws. *)
Class KeyLib : Type := {
  b64_encode : bytes → string;
  b64_decode : string → option bytes;
  gen_keypair : nat → bytes * bytes;
}.
(** What base64 encodes it decodes, without blanks around; a secret key is 64
    bytes long and ends with its public key. *)
Class KeyLaws `{KeyLib} : Prop := {
  b64_roundtrip b : b64_decode (b64_encode b) = Some b;
  b64_trim b : trim (b64_encode b) = b64_encode b;
  keypair_length n : length (gen_keypair n).2 = SECRETKEYBYTES;
  keypair_public n : drop 32 (gen_keypair n).2 = (gen_keypair n).1;
}.

(** The file [id_ed25519]: absent, or its text ([None] when it cannot be read
    as UTF-8); and whether the directory can be written. *)
Record KeyFiles : Type := mkKeyFiles {
  sk_file : option (option string);
  pub_file : option string;
  writable : bool;
  key_draws : nat;
}.

Inductive GenSk : Type :=
| Exit  (* [std::process::exit(1)] *)
| Key (pk : string) (sk : option bytes).

Section keys.
Context `{KeyLib}.

Definition gen_func (n : nat) : string * bytes :=
  let '(pk, sk) := gen_keypair n in (b64_encode pk, sk).

(** Draw again, up to [tries] times, while the text of the key holds [/] or
    [:]: the pair and the draws made. *)
Fixpoint gen_valid (tries n : nat) : (string * bytes) * nat :=
  let p := gen_func n in
  match tries with
  | S tries => if contains "/" p.1 || contains ":" p.1 then gen_valid tries (S n) else (p, S n)
  | O => (p, S n)
  end.

(** [gen_sk]; when the public key file cannot be created, neither is the
    other. *)
Definition gen_sk (f : KeyFiles) : GenSk * KeyFiles :=
  match sk_file f with
  | Some (Some contents) =>
    let sk := default [] (b64_decode (trim contents)) in
    if Nat.eqb (length sk) SECRETKEYBYTES
    then (Key (b64_encode (drop 32 sk)) (Some sk), f)
    else (Exit, f)
  | Some None => (Key "" None, f)
  | None =>
    let '((pk, sk), n) := gen_valid 300 (key_draws f) in
    if writable f
    then (Key pk (Some sk), {| sk_file := Some (Some (b64_encode sk)); pub_file := Some pk;
                               writable := true; key_draws := n |})
    else (Key "" None, {| sk_file := None; pub_file := pub_file f; writable := false; key_draws := n |})
  end.

(** A secret key given as the key: its public half. *)
Definition secret_given (key : string) : option (string * bytes) :=
  sk ← b64_decode key;
  if Nat.eqb (length sk) SECRETKEYBYTES then Some (b64_encode (drop 32 sk), sk) else None.

Definition asks_generation (key : string) : bool :=
  bool_decide (key = "-"%string) || bool_decide (key = "_"%string).

(** [get_server_sk] of rendezvous_server.rs: the key clients must show and the
    key to sign with; [None] when the process exits. *)
Definition rendezvous_server_sk (key : string) (f : KeyFiles) : option (string * option bytes) * KeyFiles :=
  let '(key, out_sk) := match secret_given key with
                        | Some (pk, sk) => (pk, Some sk) | None => (key, None) end in
  if bool_decide (key = ""%string) || asks_generation key then
    match gen_sk f with
    | (Exit, f) => (None, f)
    | (Key pk sk, f) => (Some (if bool_decide (key = ""%string) then key else pk, sk), f)
    end
  else (Some (key, out_sk), f).

(** [get_server_sk] of relay_server.rs: the key clients must show. *)
Definition relay_server_sk (key : string) (f : KeyFiles) : option string * KeyFiles :=
  let key := match secret_given key with Some (pk, _) => pk | None => key end in
  if asks_generation key then
    match gen_sk f with
    | (Exit, f) => (None, f)
    | (Key pk _, f) => (Some pk, f)
    end
  else (Some key, f).

(** ** Properties *)

Lemma gen_valid_drawn tries n : ∃ k, (gen_valid tries n).1 = gen_func k.
Proof.
  revert n. induction tries as [|tries IH]; intros n; cbn [gen_valid]; [by exists n|].
  destruct (_ || _); [apply IH|by exists n].
Qed.

(** A generated key survives a restart: once [gen_sk] has written its key,
    every later call reads the same pair back and leaves the files alone. *)
Theorem gen_sk_reload `{!KeyLaws} f pk sk f' :
  gen_sk f = (Key pk (Some sk), f') → gen_sk f' = (Key pk (Some sk), f').
Proof.
  unfold gen_sk at 1. destruct (sk_file f) as [[contents|]|] eqn:Ef; [|done|].
  - destruct (Nat.eqb _ _) eqn:El; [|done]. intros [= <- <- <-].
    unfold gen_sk. by rewrite Ef, El.
  - destruct (gen_valid 300 (key_draws f)) as [[pk' sk'] n] eqn:Eg.
    destruct (writable f); [|done]. intros [= -> -> <-].
    destruct (gen_valid_drawn 300 (key_draws f)) as [k Hk]. rewrite Eg in Hk. cbn [fst] in Hk.
    unfold gen_func in Hk. destruct (gen_keypair k) as [p s] eqn:Ek. simplify_eq.
    pose proof (keypair_length k) as Hlen. pose proof (keypair_public k) as Hpub. rewrite Ek in Hlen, Hpub.
    unfold gen_sk. cbn [sk_file]. rewrite b64_trim, b64_roundtrip. cbn [default from_option id].
    cbn [snd fst] in Hlen, Hpub. by rewrite Hlen, Nat.eqb_refl, Hpub.
Qed.

(** The two servers agree on the key a client must show, whatever key they
    are started with and whichever of them starts first: what one of them
    leaves in the key file, the other reads. *)
Theorem servers_agree_on_key `{!KeyLaws} key f k sk f' :
  key ≠ ""%string → (∀ s, secret_given key = Some s → s.1 ≠ ""%string) →
  rendezvous_server_sk key f = (Some (k, Some sk), f') →
  relay_server_sk key f' = (Some k, f') ∧ ∃ f'', relay_server_sk key f = (Some k, f'').
Proof.
  intros Hne Hs. unfold rendezvous_server_sk, relay_server_sk.
  destruct (secret_given key) as [[pk s]|] eqn:Eg.
  - specialize (Hs _ eq_refl). cbn in Hs.
    rewrite (bool_decide_false (pk = ""%string)) by done. cbn [orb].
    destruct (asks_generation pk); [|intros [= <- <- <-]; eauto].
    destruct (gen_sk f) as [[|pk' sk'] f1] eqn:E; [done|]. intros [= <- -> <-].
    rewrite (gen_sk_reload f pk' sk f1) by done. eauto.
  - rewrite (bool_decide_false (key = ""%string)) by done. cbn [orb].
    destruct (asks_generation key); [|intros [= <- <-]].
    destruct (gen_sk f) as [[|pk' sk'] f1] eqn:E; [done|]. intros [= <- -> <-].
    rewrite (gen_sk_reload f pk' sk f1) by done. eauto.
Qed.
End keys.

(** ** The theorems at concrete inputs *)
Definition TestKeys : KeyLib :=
  {| b64_encode := λ b, to_string (Zpos (encode b));
     b64_decode := λ s, n ← digits s; decode (Z.to_pos n);
     gen_keypair := λ n, (replicate 32 (Z.of_nat n), replicate 64 (Z.of_nat n)) |}.
Lemma TestKeysLaws : @KeyLaws TestKeys.
Proof.
  split; cbn - [replicate to_string].
  - intros b. unfold to_string. change (Z.pos (encode b) <? 0) with false. cbn iota.
    rewrite digits_to_string_nonneg by lia. cbn [mbind option_bind]. apply decode_encode.
  - intros b. apply trim_no_space, no_space_to_string.
  - intros n. apply length_replicate.
  - intros n. by rewrite drop_replicate.
Qed.

Definition no_files : KeyFiles := {| sk_file := None; pub_file := None; writable := true; key_draws := 0 |}.

Lemma gen_sk_reload_witness :
  let f' := (@gen_sk TestKeys no_files).2 in
  @gen_sk TestKeys f' = (Key (@b64_encode TestKeys (replicate 32 0)) (Some (replicate 64 0)), f').
Proof.
  apply (@gen_sk_reload TestKeys TestKeysLaws no_files
    (@b64_encode TestKeys (replicate 32 0)) (replicate 64 0)).
  vm_compute. reflexivity.
Defined.

Lemma servers_agree_on_key_witness :
  let '(r, f') := @rendezvous_server_sk TestKeys "-" no_files in
  (@relay_server_sk TestKeys "-" f').1 = fst <$> r.
Proof.
  destruct (@rendezvous_server_sk TestKeys "-" no_files) as [r f'] eqn:E.
  assert (r = Some (@b64_encode TestKeys (replicate 32 0), Some (replicate 64 0))) as ->.
  { change r with (r, f').1. rewrite <- E. vm_compute. reflexivity. }
  destruct (@servers_agree_on_key TestKeys TestKeysLaws "-" no_files
    (@b64_encode TestKeys (replicate 32 0)) (replicate 64 0) f') as [Hr _];
    [done|vm_compute; by intros ? [=]|exact E|]. by rewrite Hr.
Defined.
