(* ===== verification/ClientConfig.v ===== *)
(** * The configuration of the client: [nat-client/src/config.rs]

    [ClientConfig] with its accessors, the rules for port forwarding, and the
    file it is kept in.  The global [CONFIG] and its file are a [Store]; every
    mutation goes through [update], which also writes the file.  The [toml]
    crate prints and parses tables ([TomlLib]); how the fields go in and out of
    a table, with the defaults of absent ones, is the derived code and is
    modelled.  Theorems are in [ClientConfigSpec]. *)
From Stdlib Require Import Ascii.
From S2P Require Import Prelude AddrMangle Text TextFacts HostText Proto RendezvousCodec Database Keys.
Local Open Scope Z_scope.

(** ** Data *)

Inductive RendezvousWireProtocol : Type := WProto3 | WCapnp.
#[export] Instance RendezvousWireProtocol_eq_dec : EqDecision RendezvousWireProtocol.
Proof. solve_decision. Defined.
Definition to_codec (w : RendezvousWireProtocol) : Protocol :=
  match w with WProto3 => Proto3 | WCapnp => Capnp end.

Record ForwardRule : Type := mkForwardRule {
  fr_id : string;
  fr_name : string;
  fr_peer_id : string;
  fr_target_host : string;
  fr_target_port : Z;
  fr_enabled : bool;
}.
#[export] Instance ForwardRule_eq_dec : EqDecision ForwardRule.
Proof. solve_decision. Defined.

Definition default_target_host : string := "127.0.0.1".
Definition default_true : bool := true.
Definition default_language : string := "zh".
Definition default_ipc_port : Z := 21114.
Definition default_socks5_port : Z := 1080.
Definition default_http_proxy_port : Z := 8118.

(** [ForwardRule::new]; the id is a fresh uuid. *)
Definition new_rule (id name : string) (target_port : Z) : ForwardRule :=
  {| fr_id := id; fr_name := name; fr_peer_id := ""; fr_target_host := "127.0.0.1";
     fr_target_port := target_port; fr_enabled := true |}.

Record ClientConfig : Type := mkClientConfig {
  cc_id : string;
  cc_uuid : string;
  cc_sk : string;
  cc_pk : string;
  cc_key_confirmed : bool;
  cc_host_keys_confirmed : gmap string bool;
  cc_rendezvous_servers : string;
  cc_rendezvous_wire_protocol : RendezvousWireProtocol;
  cc_relay_server : string;
  cc_ipc_port : Z;
  cc_direct_listen_port : Z;
  cc_nat_type : Z;
  cc_api_url : string;
  cc_auth_token : string;
  cc_auth_token_expires : Z;
  cc_auth_user_id : Z;
  cc_auth_username : string;
  cc_auth_role : string;
  cc_auth_device_row_id : Z;
  cc_forward_rules : list ForwardRule;
  cc_language : string;
  cc_dark_mode : bool;
  cc_socks5_enabled : bool;
  cc_socks5_port : Z;
  cc_socks5_exit_peer : string;
  cc_http_proxy_enabled : bool;
  cc_http_proxy_port : Z;
}.
(** The derived [Default]. *)
Definition default_config : ClientConfig :=
  {| cc_id := ""%string;
     cc_uuid := ""%string;
     cc_sk := ""%string;
     cc_pk := ""%string;
     cc_key_confirmed := false;
     cc_host_keys_confirmed := ∅;
     cc_rendezvous_servers := ""%string;
     cc_rendezvous_wire_protocol := WProto3;
     cc_relay_server := ""%string;
     cc_ipc_port := 0;
     cc_direct_listen_port := 0;
     cc_nat_type := 0;
     cc_api_url := ""%string;
     cc_auth_token := ""%string;
     cc_auth_token_expires := 0;
     cc_auth_user_id := 0;
     cc_auth_username := ""%string;
     cc_auth_role := ""%string;
     cc_auth_device_row_id := 0;
     cc_forward_rules := [];
     cc_language := ""%string;
     cc_dark_mode := false;
     cc_socks5_enabled := false;
     cc_socks5_port := 0;
     cc_socks5_exit_peer := ""%string;
     cc_http_proxy_enabled := false;
     cc_http_proxy_port := 0 |}.

(** Assignments to the fields. *)
Definition set_id (v : string) (c : ClientConfig) : ClientConfig :=
  {| cc_id := v; cc_uuid := cc_uuid c; cc_sk := cc_sk c; cc_pk := cc_pk c;
     cc_key_confirmed := cc_key_confirmed c;
     cc_host_keys_confirmed := cc_host_keys_confirmed c;
     cc_rendezvous_servers := cc_rendezvous_servers c;
     cc_rendezvous_wire_protocol := cc_rendezvous_wire_protocol c;
     cc_relay_server := cc_relay_server c; cc_ipc_port := cc_ipc_port c;
     cc_direct_listen_port := cc_direct_listen_port c; cc_nat_type := cc_nat_type c;
     cc_api_url := cc_api_url c; cc_auth_token := cc_auth_token c;
     cc_auth_token_expires := cc_auth_token_expires c; cc_auth_user_id := cc_auth_user_id c;
     cc_auth_username := cc_auth_username c; cc_auth_role := cc_auth_role c;
     cc_auth_device_row_id := cc_auth_device_row_id c; cc_forward_rules := cc_forward_rules c;
     cc_language := cc_language c; cc_dark_mode := cc_dark_mode c;
     cc_socks5_enabled := cc_socks5_enabled c; cc_socks5_port := cc_socks5_port c;
     cc_socks5_exit_peer := cc_socks5_exit_peer c;
     cc_http_proxy_enabled := cc_http_proxy_enabled c;
     cc_http_proxy_port := cc_http_proxy_port c |}.
Definition set_uuid (v : string) (c : ClientConfig) : ClientConfig :=
  {| cc_id := cc_id c; cc_uuid := v; cc_sk := cc_sk c; cc_pk := cc_pk c;
     cc_key_confirmed := cc_key_confirmed c;
     cc_host_keys_confirmed := cc_host_keys_confirmed c;
     cc_rendezvous_servers := cc_rendezvous_servers c;
     cc_rendezvous_wire_protocol := cc_rendezvous_wire_protocol c;
     cc_relay_server := cc_relay_server c; cc_ipc_port := cc_ipc_port c;
     cc_direct_listen_port := cc_direct_listen_port c; cc_nat_type := cc_nat_type c;
     cc_api_url := cc_api_url c; cc_auth_token := cc_auth_token c;
     cc_auth_token_expires := cc_auth_token_expires c; cc_auth_user_id := cc_auth_user_id c;
     cc_auth_username := cc_auth_username c; cc_auth_role := cc_auth_role c;
     cc_auth_device_row_id := cc_auth_device_row_id c; cc_forward_rules := cc_forward_rules c;
     cc_language := cc_language c; cc_dark_mode := cc_dark_mode c;
     cc_socks5_enabled := cc_socks5_enabled c; cc_socks5_port := cc_socks5_port c;
     cc_socks5_exit_peer := cc_socks5_exit_peer c;
     cc_http_proxy_enabled := cc_http_proxy_enabled c;
     cc_http_proxy_port := cc_http_proxy_port c |}.
Definition set_sk (v : string) (c : ClientConfig) : ClientConfig :=
  {| cc_id := cc_id c; cc_uuid := cc_uuid c; cc_sk := v; cc_pk := cc_pk c;
     cc_key_confirmed := cc_key_confirmed c;
     cc_host_keys_confirmed := cc_host_keys_confirmed c;
     cc_rendezvous_servers := cc_rendezvous_servers c;
     cc_rendezvous_wire_protocol := cc_rendezvous_wire_protocol c;
     cc_relay_server := cc_relay_server c; cc_ipc_port := cc_ipc_port c;
     cc_direct_listen_port := cc_direct_listen_port c; cc_nat_type := cc_nat_type c;
     cc_api_url := cc_api_url c; cc_auth_token := cc_auth_token c;
     cc_auth_token_expires := cc_auth_token_expires c; cc_auth_user_id := cc_auth_user_id c;
     cc_auth_username := cc_auth_username c; cc_auth_role := cc_auth_role c;
     cc_auth_device_row_id := cc_auth_device_row_id c; cc_forward_rules := cc_forward_rules c;
     cc_language := cc_language c; cc_dark_mode := cc_dark_mode c;
     cc_socks5_enabled := cc_socks5_enabled c; cc_socks5_port := cc_socks5_port c;
     cc_socks5_exit_peer := cc_socks5_exit_peer c;
     cc_http_proxy_enabled := cc_http_proxy_enabled c;
     cc_http_proxy_port := cc_http_proxy_port c |}.
Definition set_pk (v : string) (c : ClientConfig) : ClientConfig :=
  {| cc_id := cc_id c; cc_uuid := cc_uuid c; cc_sk := cc_sk c; cc_pk := v;
     cc_key_confirmed := cc_key_confirmed c;
     cc_host_keys_confirmed := cc_host_keys_confirmed c;
     cc_rendezvous_servers := cc_rendezvous_servers c;
     cc_rendezvous_wire_protocol := cc_rendezvous_wire_protocol c;
     cc_relay_server := cc_relay_server c; cc_ipc_port := cc_ipc_port c;
     cc_direct_listen_port := cc_direct_listen_port c; cc_nat_type := cc_nat_type c;
     cc_api_url := cc_api_url c; cc_auth_token := cc_auth_token c;
     cc_auth_token_expires := cc_auth_token_expires c; cc_auth_user_id := cc_auth_user_id c;
     cc_auth_username := cc_auth_username c; cc_auth_role := cc_auth_role c;
     cc_auth_device_row_id := cc_auth_device_row_id c; cc_forward_rules := cc_forward_rules c;
     cc_language := cc_language c; cc_dark_mode := cc_dark_mode c;
     cc_socks5_enabled := cc_socks5_enabled c; cc_socks5_port := cc_socks5_port c;
     cc_socks5_exit_peer := cc_socks5_exit_peer c;
     cc_http_proxy_enabled := cc_http_proxy_enabled c;
     cc_http_proxy_port := cc_http_proxy_port c |}.
Definition set_key_confirmed (v : bool) (c : ClientConfig) : ClientConfig :=
  {| cc_id := cc_id c; cc_uuid := cc_uuid c; cc_sk := cc_sk c; cc_pk := cc_pk c;
     cc_key_confirmed := v; cc_host_keys_confirmed := cc_host_keys_confirmed c;
     cc_rendezvous_servers := cc_rendezvous_servers c;
     cc_rendezvous_wire_protocol := cc_rendezvous_wire_protocol c;
     cc_relay_server := cc_relay_server c; cc_ipc_port := cc_ipc_port c;
     cc_direct_listen_port := cc_direct_listen_port c; cc_nat_type := cc_nat_type c;
     cc_api_url := cc_api_url c; cc_auth_token := cc_auth_token c;
     cc_auth_token_expires := cc_auth_token_expires c; cc_auth_user_id := cc_auth_user_id c;
     cc_auth_username := cc_auth_username c; cc_auth_role := cc_auth_role c;
     cc_auth_device_row_id := cc_auth_device_row_id c; cc_forward_rules := cc_forward_rules c;
     cc_language := cc_language c; cc_dark_mode := cc_dark_mode c;
     cc_socks5_enabled := cc_socks5_enabled c; cc_socks5_port := cc_socks5_port c;
     cc_socks5_exit_peer := cc_socks5_exit_peer c;
     cc_http_proxy_enabled := cc_http_proxy_enabled c;
     cc_http_proxy_port := cc_http_proxy_port c |}.
Definition set_host_keys_confirmed (v : gmap string bool) (c : ClientConfig) : ClientConfig :=
  {| cc_id := cc_id c; cc_uuid := cc_uuid c; cc_sk := cc_sk c; cc_pk := cc_pk c;
     cc_key_confirmed := cc_key_confirmed c; cc_host_keys_confirmed := v;
     cc_rendezvous_servers := cc_rendezvous_servers c;
     cc_rendezvous_wire_protocol := cc_rendezvous_wire_protocol c;
     cc_relay_server := cc_relay_server c; cc_ipc_port := cc_ipc_port c;
     cc_direct_listen_port := cc_direct_listen_port c; cc_nat_type := cc_nat_type c;
     cc_api_url := cc_api_url c; cc_auth_token := cc_auth_token c;
     cc_auth_token_expires := cc_auth_token_expires c; cc_auth_user_id := cc_auth_user_id c;
     cc_auth_username := cc_auth_username c; cc_auth_role := cc_auth_role c;
     cc_auth_device_row_id := cc_auth_device_row_id c; cc_forward_rules := cc_forward_rules c;
     cc_language := cc_language c; cc_dark_mode := cc_dark_mode c;
     cc_socks5_enabled := cc_socks5_enabled c; cc_socks5_port := cc_socks5_port c;
     cc_socks5_exit_peer := cc_socks5_exit_peer c;
     cc_http_proxy_enabled := cc_http_proxy_enabled c;
     cc_http_proxy_port := cc_http_proxy_port c |}.
Definition set_rendezvous_servers (v : string) (c : ClientConfig) : ClientConfig :=
  {| cc_id := cc_id c; cc_uuid := cc_uuid c; cc_sk := cc_sk c; cc_pk := cc_pk c;
     cc_key_confirmed := cc_key_confirmed c;
     cc_host_keys_confirmed := cc_host_keys_confirmed c; cc_rendezvous_servers := v;
     cc_rendezvous_wire_protocol := cc_rendezvous_wire_protocol c;
     cc_relay_server := cc_relay_server c; cc_ipc_port := cc_ipc_port c;
     cc_direct_listen_port := cc_direct_listen_port c; cc_nat_type := cc_nat_type c;
     cc_api_url := cc_api_url c; cc_auth_token := cc_auth_token c;
     cc_auth_token_expires := cc_auth_token_expires c; cc_auth_user_id := cc_auth_user_id c;
     cc_auth_username := cc_auth_username c; cc_auth_role := cc_auth_role c;
     cc_auth_device_row_id := cc_auth_device_row_id c; cc_forward_rules := cc_forward_rules c;
     cc_language := cc_language c; cc_dark_mode := cc_dark_mode c;
     cc_socks5_enabled := cc_socks5_enabled c; cc_socks5_port := cc_socks5_port c;
     cc_socks5_exit_peer := cc_socks5_exit_peer c;
     cc_http_proxy_enabled := cc_http_proxy_enabled c;
     cc_http_proxy_port := cc_http_proxy_port c |}.
Definition set_rendezvous_wire_protocol (v : RendezvousWireProtocol) (c : ClientConfig) : ClientConfig :=
  {| cc_id := cc_id c; cc_uuid := cc_uuid c; cc_sk := cc_sk c; cc_pk := cc_pk c;
     cc_key_confirmed := cc_key_confirmed c;
     cc_host_keys_confirmed := cc_host_keys_confirmed c;
     cc_rendezvous_servers := cc_rendezvous_servers c; cc_rendezvous_wire_protocol := v;
     cc_relay_server := cc_relay_server c; cc_ipc_port := cc_ipc_port c;
     cc_direct_listen_port := cc_direct_listen_port c; cc_nat_type := cc_nat_type c;
     cc_api_url := cc_api_url c; cc_auth_token := cc_auth_token c;
     cc_auth_token_expires := cc_auth_token_expires c; cc_auth_user_id := cc_auth_user_id c;
     cc_auth_username := cc_auth_username c; cc_auth_role := cc_auth_role c;
     cc_auth_device_row_id := cc_auth_device_row_id c; cc_forward_rules := cc_forward_rules c;
     cc_language := cc_language c; cc_dark_mode := cc_dark_mode c;
     cc_socks5_enabled := cc_socks5_enabled c; cc_socks5_port := cc_socks5_port c;
     cc_socks5_exit_peer := cc_socks5_exit_peer c;
     cc_http_proxy_enabled := cc_http_proxy_enabled c;
     cc_http_proxy_port := cc_http_proxy_port c |}.
Definition set_relay_server (v : string) (c : ClientConfig) : ClientConfig :=
  {| cc_id := cc_id c; cc_uuid := cc_uuid c; cc_sk := cc_sk c; cc_pk := cc_pk c;
     cc_key_confirmed := cc_key_confirmed c;
     cc_host_keys_confirmed := cc_host_keys_confirmed c;
     cc_rendezvous_servers := cc_rendezvous_servers c;
     cc_rendezvous_wire_protocol := cc_rendezvous_wire_protocol c; cc_relay_server := v;
     cc_ipc_port := cc_ipc_port c; cc_direct_listen_port := cc_direct_listen_port c;
     cc_nat_type := cc_nat_type c; cc_api_url := cc_api_url c;
     cc_auth_token := cc_auth_token c; cc_auth_token_expires := cc_auth_token_expires c;
     cc_auth_user_id := cc_auth_user_id c; cc_auth_username := cc_auth_username c;
     cc_auth_role := cc_auth_role c; cc_auth_device_row_id := cc_auth_device_row_id c;
     cc_forward_rules := cc_forward_rules c; cc_language := cc_language c;
     cc_dark_mode := cc_dark_mode c; cc_socks5_enabled := cc_socks5_enabled c;
     cc_socks5_port := cc_socks5_port c; cc_socks5_exit_peer := cc_socks5_exit_peer c;
     cc_http_proxy_enabled := cc_http_proxy_enabled c;
     cc_http_proxy_port := cc_http_proxy_port c |}.
Definition set_ipc_port (v : Z) (c : ClientConfig) : ClientConfig :=
  {| cc_id := cc_id c; cc_uuid := cc_uuid c; cc_sk := cc_sk c; cc_pk := cc_pk c;
     cc_key_confirmed := cc_key_confirmed c;
     cc_host_keys_confirmed := cc_host_keys_confirmed c;
     cc_rendezvous_servers := cc_rendezvous_servers c;
     cc_rendezvous_wire_protocol := cc_rendezvous_wire_protocol c;
     cc_relay_server := cc_relay_server c; cc_ipc_port := v;
     cc_direct_listen_port := cc_direct_listen_port c; cc_nat_type := cc_nat_type c;
     cc_api_url := cc_api_url c; cc_auth_token := cc_auth_token c;
     cc_auth_token_expires := cc_auth_token_expires c; cc_auth_user_id := cc_auth_user_id c;
     cc_auth_username := cc_auth_username c; cc_auth_role := cc_auth_role c;
     cc_auth_device_row_id := cc_auth_device_row_id c; cc_forward_rules := cc_forward_rules c;
     cc_language := cc_language c; cc_dark_mode := cc_dark_mode c;
     cc_socks5_enabled := cc_socks5_enabled c; cc_socks5_port := cc_socks5_port c;
     cc_socks5_exit_peer := cc_socks5_exit_peer c;
     cc_http_proxy_enabled := cc_http_proxy_enabled c;
     cc_http_proxy_port := cc_http_proxy_port c |}.
Definition set_nat_type (v : Z) (c : ClientConfig) : ClientConfig :=
  {| cc_id := cc_id c; cc_uuid := cc_uuid c; cc_sk := cc_sk c; cc_pk := cc_pk c;
     cc_key_confirmed := cc_key_confirmed c;
     cc_host_keys_confirmed := cc_host_keys_confirmed c;
     cc_rendezvous_servers := cc_rendezvous_servers c;
     cc_rendezvous_wire_protocol := cc_rendezvous_wire_protocol c;
     cc_relay_server := cc_relay_server c; cc_ipc_port := cc_ipc_port c;
     cc_direct_listen_port := cc_direct_listen_port c; cc_nat_type := v;
     cc_api_url := cc_api_url c; cc_auth_token := cc_auth_token c;
     cc_auth_token_expires := cc_auth_token_expires c; cc_auth_user_id := cc_auth_user_id c;
     cc_auth_username := cc_auth_username c; cc_auth_role := cc_auth_role c;
     cc_auth_device_row_id := cc_auth_device_row_id c; cc_forward_rules := cc_forward_rules c;
     cc_language := cc_language c; cc_dark_mode := cc_dark_mode c;
     cc_socks5_enabled := cc_socks5_enabled c; cc_socks5_port := cc_socks5_port c;
     cc_socks5_exit_peer := cc_socks5_exit_peer c;
     cc_http_proxy_enabled := cc_http_proxy_enabled c;
     cc_http_proxy_port := cc_http_proxy_port c |}.
Definition set_api_url (v : string) (c : ClientConfig) : ClientConfig :=
  {| cc_id := cc_id c; cc_uuid := cc_uuid c; cc_sk := cc_sk c; cc_pk := cc_pk c;
     cc_key_confirmed := cc_key_confirmed c;
     cc_host_keys_confirmed := cc_host_keys_confirmed c;
     cc_rendezvous_servers := cc_rendezvous_servers c;
     cc_rendezvous_wire_protocol := cc_rendezvous_wire_protocol c;
     cc_relay_server := cc_relay_server c; cc_ipc_port := cc_ipc_port c;
     cc_direct_listen_port := cc_direct_listen_port c; cc_nat_type := cc_nat_type c;
     cc_api_url := v; cc_auth_token := cc_auth_token c;
     cc_auth_token_expires := cc_auth_token_expires c; cc_auth_user_id := cc_auth_user_id c;
     cc_auth_username := cc_auth_username c; cc_auth_role := cc_auth_role c;
     cc_auth_device_row_id := cc_auth_device_row_id c; cc_forward_rules := cc_forward_rules c;
     cc_language := cc_language c; cc_dark_mode := cc_dark_mode c;
     cc_socks5_enabled := cc_socks5_enabled c; cc_socks5_port := cc_socks5_port c;
     cc_socks5_exit_peer := cc_socks5_exit_peer c;
     cc_http_proxy_enabled := cc_http_proxy_enabled c;
     cc_http_proxy_port := cc_http_proxy_port c |}.
Definition set_auth_token (v : string) (c : ClientConfig) : ClientConfig :=
  {| cc_id := cc_id c; cc_uuid := cc_uuid c; cc_sk := cc_sk c; cc_pk := cc_pk c;
     cc_key_confirmed := cc_key_confirmed c;
     cc_host_keys_confirmed := cc_host_keys_confirmed c;
     cc_rendezvous_servers := cc_rendezvous_servers c;
     cc_rendezvous_wire_protocol := cc_rendezvous_wire_protocol c;
     cc_relay_server := cc_relay_server c; cc_ipc_port := cc_ipc_port c;
     cc_direct_listen_port := cc_direct_listen_port c; cc_nat_type := cc_nat_type c;
     cc_api_url := cc_api_url c; cc_auth_token := v;
     cc_auth_token_expires := cc_auth_token_expires c; cc_auth_user_id := cc_auth_user_id c;
     cc_auth_username := cc_auth_username c; cc_auth_role := cc_auth_role c;
     cc_auth_device_row_id := cc_auth_device_row_id c; cc_forward_rules := cc_forward_rules c;
     cc_language := cc_language c; cc_dark_mode := cc_dark_mode c;
     cc_socks5_enabled := cc_socks5_enabled c; cc_socks5_port := cc_socks5_port c;
     cc_socks5_exit_peer := cc_socks5_exit_peer c;
     cc_http_proxy_enabled := cc_http_proxy_enabled c;
     cc_http_proxy_port := cc_http_proxy_port c |}.
Definition set_auth_token_expires (v : Z) (c : ClientConfig) : ClientConfig :=
  {| cc_id := cc_id c; cc_uuid := cc_uuid c; cc_sk := cc_sk c; cc_pk := cc_pk c;
     cc_key_confirmed := cc_key_confirmed c;
     cc_host_keys_confirmed := cc_host_keys_confirmed c;
     cc_rendezvous_servers := cc_rendezvous_servers c;
     cc_rendezvous_wire_protocol := cc_rendezvous_wire_protocol c;
     cc_relay_server := cc_relay_server c; cc_ipc_port := cc_ipc_port c;
     cc_direct_listen_port := cc_direct_listen_port c; cc_nat_type := cc_nat_type c;
     cc_api_url := cc_api_url c; cc_auth_token := cc_auth_token c; cc_auth_token_expires := v;
     cc_auth_user_id := cc_auth_user_id c; cc_auth_username := cc_auth_username c;
     cc_auth_role := cc_auth_role c; cc_auth_device_row_id := cc_auth_device_row_id c;
     cc_forward_rules := cc_forward_rules c; cc_language := cc_language c;
     cc_dark_mode := cc_dark_mode c; cc_socks5_enabled := cc_socks5_enabled c;
     cc_socks5_port := cc_socks5_port c; cc_socks5_exit_peer := cc_socks5_exit_peer c;
     cc_http_proxy_enabled := cc_http_proxy_enabled c;
     cc_http_proxy_port := cc_http_proxy_port c |}.
Definition set_auth_user_id (v : Z) (c : ClientConfig) : ClientConfig :=
  {| cc_id := cc_id c; cc_uuid := cc_uuid c; cc_sk := cc_sk c; cc_pk := cc_pk c;
     cc_key_confirmed := cc_key_confirmed c;
     cc_host_keys_confirmed := cc_host_keys_confirmed c;
     cc_rendezvous_servers := cc_rendezvous_servers c;
     cc_rendezvous_wire_protocol := cc_rendezvous_wire_protocol c;
     cc_relay_server := cc_relay_server c; cc_ipc_port := cc_ipc_port c;
     cc_direct_listen_port := cc_direct_listen_port c; cc_nat_type := cc_nat_type c;
     cc_api_url := cc_api_url c; cc_auth_token := cc_auth_token c;
     cc_auth_token_expires := cc_auth_token_expires c; cc_auth_user_id := v;
     cc_auth_username := cc_auth_username c; cc_auth_role := cc_auth_role c;
     cc_auth_device_row_id := cc_auth_device_row_id c; cc_forward_rules := cc_forward_rules c;
     cc_language := cc_language c; cc_dark_mode := cc_dark_mode c;
     cc_socks5_enabled := cc_socks5_enabled c; cc_socks5_port := cc_socks5_port c;
     cc_socks5_exit_peer := cc_socks5_exit_peer c;
     cc_http_proxy_enabled := cc_http_proxy_enabled c;
     cc_http_proxy_port := cc_http_proxy_port c |}.
Definition set_auth_username (v : string) (c : ClientConfig) : ClientConfig :=
  {| cc_id := cc_id c; cc_uuid := cc_uuid c; cc_sk := cc_sk c; cc_pk := cc_pk c;
     cc_key_confirmed := cc_key_confirmed c;
     cc_host_keys_confirmed := cc_host_keys_confirmed c;
     cc_rendezvous_servers := cc_rendezvous_servers c;
     cc_rendezvous_wire_protocol := cc_rendezvous_wire_protocol c;
     cc_relay_server := cc_relay_server c; cc_ipc_port := cc_ipc_port c;
     cc_direct_listen_port := cc_direct_listen_port c; cc_nat_type := cc_nat_type c;
     cc_api_url := cc_api_url c; cc_auth_token := cc_auth_token c;
     cc_auth_token_expires := cc_auth_token_expires c; cc_auth_user_id := cc_auth_user_id c;
     cc_auth_username := v; cc_auth_role := cc_auth_role c;
     cc_auth_device_row_id := cc_auth_device_row_id c; cc_forward_rules := cc_forward_rules c;
     cc_language := cc_language c; cc_dark_mode := cc_dark_mode c;
     cc_socks5_enabled := cc_socks5_enabled c; cc_socks5_port := cc_socks5_port c;
     cc_socks5_exit_peer := cc_socks5_exit_peer c;
     cc_http_proxy_enabled := cc_http_proxy_enabled c;
     cc_http_proxy_port := cc_http_proxy_port c |}.
Definition set_auth_role (v : string) (c : ClientConfig) : ClientConfig :=
  {| cc_id := cc_id c; cc_uuid := cc_uuid c; cc_sk := cc_sk c; cc_pk := cc_pk c;
     cc_key_confirmed := cc_key_confirmed c;
     cc_host_keys_confirmed := cc_host_keys_confirmed c;
     cc_rendezvous_servers := cc_rendezvous_servers c;
     cc_rendezvous_wire_protocol := cc_rendezvous_wire_protocol c;
     cc_relay_server := cc_relay_server c; cc_ipc_port := cc_ipc_port c;
     cc_direct_listen_port := cc_direct_listen_port c; cc_nat_type := cc_nat_type c;
     cc_api_url := cc_api_url c; cc_auth_token := cc_auth_token c;
     cc_auth_token_expires := cc_auth_token_expires c; cc_auth_user_id := cc_auth_user_id c;
     cc_auth_username := cc_auth_username c; cc_auth_role := v;
     cc_auth_device_row_id := cc_auth_device_row_id c; cc_forward_rules := cc_forward_rules c;
     cc_language := cc_language c; cc_dark_mode := cc_dark_mode c;
     cc_socks5_enabled := cc_socks5_enabled c; cc_socks5_port := cc_socks5_port c;
     cc_socks5_exit_peer := cc_socks5_exit_peer c;
     cc_http_proxy_enabled := cc_http_proxy_enabled c;
     cc_http_proxy_port := cc_http_proxy_port c |}.
Definition set_auth_device_row_id (v : Z) (c : ClientConfig) : ClientConfig :=
  {| cc_id := cc_id c; cc_uuid := cc_uuid c; cc_sk := cc_sk c; cc_pk := cc_pk c;
     cc_key_confirmed := cc_key_confirmed c;
     cc_host_keys_confirmed := cc_host_keys_confirmed c;
     cc_rendezvous_servers := cc_rendezvous_servers c;
     cc_rendezvous_wire_protocol := cc_rendezvous_wire_protocol c;
     cc_relay_server := cc_relay_server c; cc_ipc_port := cc_ipc_port c;
     cc_direct_listen_port := cc_direct_listen_port c; cc_nat_type := cc_nat_type c;
     cc_api_url := cc_api_url c; cc_auth_token := cc_auth_token c;
     cc_auth_token_expires := cc_auth_token_expires c; cc_auth_user_id := cc_auth_user_id c;
     cc_auth_username := cc_auth_username c; cc_auth_role := cc_auth_role c;
     cc_auth_device_row_id := v; cc_forward_rules := cc_forward_rules c;
     cc_language := cc_language c; cc_dark_mode := cc_dark_mode c;
     cc_socks5_enabled := cc_socks5_enabled c; cc_socks5_port := cc_socks5_port c;
     cc_socks5_exit_peer := cc_socks5_exit_peer c;
     cc_http_proxy_enabled := cc_http_proxy_enabled c;
     cc_http_proxy_port := cc_http_proxy_port c |}.
Definition set_forward_rules (v : list ForwardRule) (c : ClientConfig) : ClientConfig :=
  {| cc_id := cc_id c; cc_uuid := cc_uuid c; cc_sk := cc_sk c; cc_pk := cc_pk c;
     cc_key_confirmed := cc_key_confirmed c;
     cc_host_keys_confirmed := cc_host_keys_confirmed c;
     cc_rendezvous_servers := cc_rendezvous_servers c;
     cc_rendezvous_wire_protocol := cc_rendezvous_wire_protocol c;
     cc_relay_server := cc_relay_server c; cc_ipc_port := cc_ipc_port c;
     cc_direct_listen_port := cc_direct_listen_port c; cc_nat_type := cc_nat_type c;
     cc_api_url := cc_api_url c; cc_auth_token := cc_auth_token c;
     cc_auth_token_expires := cc_auth_token_expires c; cc_auth_user_id := cc_auth_user_id c;
     cc_auth_username := cc_auth_username c; cc_auth_role := cc_auth_role c;
     cc_auth_device_row_id := cc_auth_device_row_id c; cc_forward_rules := v;
     cc_language := cc_language c; cc_dark_mode := cc_dark_mode c;
     cc_socks5_enabled := cc_socks5_enabled c; cc_socks5_port := cc_socks5_port c;
     cc_socks5_exit_peer := cc_socks5_exit_peer c;
     cc_http_proxy_enabled := cc_http_proxy_enabled c;
     cc_http_proxy_port := cc_http_proxy_port c |}.
Definition set_language (v : string) (c : ClientConfig) : ClientConfig :=
  {| cc_id := cc_id c; cc_uuid := cc_uuid c; cc_sk := cc_sk c; cc_pk := cc_pk c;
     cc_key_confirmed := cc_key_confirmed c;
     cc_host_keys_confirmed := cc_host_keys_confirmed c;
     cc_rendezvous_servers := cc_rendezvous_servers c;
     cc_rendezvous_wire_protocol := cc_rendezvous_wire_protocol c;
     cc_relay_server := cc_relay_server c; cc_ipc_port := cc_ipc_port c;
     cc_direct_listen_port := cc_direct_listen_port c; cc_nat_type := cc_nat_type c;
     cc_api_url := cc_api_url c; cc_auth_token := cc_auth_token c;
     cc_auth_token_expires := cc_auth_token_expires c; cc_auth_user_id := cc_auth_user_id c;
     cc_auth_username := cc_auth_username c; cc_auth_role := cc_auth_role c;
     cc_auth_device_row_id := cc_auth_device_row_id c; cc_forward_rules := cc_forward_rules c;
     cc_language := v; cc_dark_mode := cc_dark_mode c;
     cc_socks5_enabled := cc_socks5_enabled c; cc_socks5_port := cc_socks5_port c;
     cc_socks5_exit_peer := cc_socks5_exit_peer c;
     cc_http_proxy_enabled := cc_http_proxy_enabled c;
     cc_http_proxy_port := cc_http_proxy_port c |}.
Definition set_dark_mode (v : bool) (c : ClientConfig) : ClientConfig :=
  {| cc_id := cc_id c; cc_uuid := cc_uuid c; cc_sk := cc_sk c; cc_pk := cc_pk c;
     cc_key_confirmed := cc_key_confirmed c;
     cc_host_keys_confirmed := cc_host_keys_confirmed c;
     cc_rendezvous_servers := cc_rendezvous_servers c;
     cc_rendezvous_wire_protocol := cc_rendezvous_wire_protocol c;
     cc_relay_server := cc_relay_server c; cc_ipc_port := cc_ipc_port c;
     cc_direct_listen_port := cc_direct_listen_port c; cc_nat_type := cc_nat_type c;
     cc_api_url := cc_api_url c; cc_auth_token := cc_auth_token c;
     cc_auth_token_expires := cc_auth_token_expires c; cc_auth_user_id := cc_auth_user_id c;
     cc_auth_username := cc_auth_username c; cc_auth_role := cc_auth_role c;
     cc_auth_device_row_id := cc_auth_device_row_id c; cc_forward_rules := cc_forward_rules c;
     cc_language := cc_language c; cc_dark_mode := v;
     cc_socks5_enabled := cc_socks5_enabled c; cc_socks5_port := cc_socks5_port c;
     cc_socks5_exit_peer := cc_socks5_exit_peer c;
     cc_http_proxy_enabled := cc_http_proxy_enabled c;
     cc_http_proxy_port := cc_http_proxy_port c |}.
Definition set_socks5_enabled (v : bool) (c : ClientConfig) : ClientConfig :=
  {| cc_id := cc_id c; cc_uuid := cc_uuid c; cc_sk := cc_sk c; cc_pk := cc_pk c;
     cc_key_confirmed := cc_key_confirmed c;
     cc_host_keys_confirmed := cc_host_keys_confirmed c;
     cc_rendezvous_servers := cc_rendezvous_servers c;
     cc_rendezvous_wire_protocol := cc_rendezvous_wire_protocol c;
     cc_relay_server := cc_relay_server c; cc_ipc_port := cc_ipc_port c;
     cc_direct_listen_port := cc_direct_listen_port c; cc_nat_type := cc_nat_type c;
     cc_api_url := cc_api_url c; cc_auth_token := cc_auth_token c;
     cc_auth_token_expires := cc_auth_token_expires c; cc_auth_user_id := cc_auth_user_id c;
     cc_auth_username := cc_auth_username c; cc_auth_role := cc_auth_role c;
     cc_auth_device_row_id := cc_auth_device_row_id c; cc_forward_rules := cc_forward_rules c;
     cc_language := cc_language c; cc_dark_mode := cc_dark_mode c; cc_socks5_enabled := v;
     cc_socks5_port := cc_socks5_port c; cc_socks5_exit_peer := cc_socks5_exit_peer c;
     cc_http_proxy_enabled := cc_http_proxy_enabled c;
     cc_http_proxy_port := cc_http_proxy_port c |}.
Definition set_socks5_port (v : Z) (c : ClientConfig) : ClientConfig :=
  {| cc_id := cc_id c; cc_uuid := cc_uuid c; cc_sk := cc_sk c; cc_pk := cc_pk c;
     cc_key_confirmed := cc_key_confirmed c;
     cc_host_keys_confirmed := cc_host_keys_confirmed c;
     cc_rendezvous_servers := cc_rendezvous_servers c;
     cc_rendezvous_wire_protocol := cc_rendezvous_wire_protocol c;
     cc_relay_server := cc_relay_server c; cc_ipc_port := cc_ipc_port c;
     cc_direct_listen_port := cc_direct_listen_port c; cc_nat_type := cc_nat_type c;
     cc_api_url := cc_api_url c; cc_auth_token := cc_auth_token c;
     cc_auth_token_expires := cc_auth_token_expires c; cc_auth_user_id := cc_auth_user_id c;
     cc_auth_username := cc_auth_username c; cc_auth_role := cc_auth_role c;
     cc_auth_device_row_id := cc_auth_device_row_id c; cc_forward_rules := cc_forward_rules c;
     cc_language := cc_language c; cc_dark_mode := cc_dark_mode c;
     cc_socks5_enabled := cc_socks5_enabled c; cc_socks5_port := v;
     cc_socks5_exit_peer := cc_socks5_exit_peer c;
     cc_http_proxy_enabled := cc_http_proxy_enabled c;
     cc_http_proxy_port := cc_http_proxy_port c |}.
Definition set_socks5_exit_peer (v : string) (c : ClientConfig) : ClientConfig :=
  {| cc_id := cc_id c; cc_uuid := cc_uuid c; cc_sk := cc_sk c; cc_pk := cc_pk c;
     cc_key_confirmed := cc_key_confirmed c;
     cc_host_keys_confirmed := cc_host_keys_confirmed c;
     cc_rendezvous_servers := cc_rendezvous_servers c;
     cc_rendezvous_wire_protocol := cc_rendezvous_wire_protocol c;
     cc_relay_server := cc_relay_server c; cc_ipc_port := cc_ipc_port c;
     cc_direct_listen_port := cc_direct_listen_port c; cc_nat_type := cc_nat_type c;
     cc_api_url := cc_api_url c; cc_auth_token := cc_auth_token c;
     cc_auth_token_expires := cc_auth_token_expires c; cc_auth_user_id := cc_auth_user_id c;
     cc_auth_username := cc_auth_username c; cc_auth_role := cc_auth_role c;
     cc_auth_device_row_id := cc_auth_device_row_id c; cc_forward_rules := cc_forward_rules c;
     cc_language := cc_language c; cc_dark_mode := cc_dark_mode c;
     cc_socks5_enabled := cc_socks5_enabled c; cc_socks5_port := cc_socks5_port c;
     cc_socks5_exit_peer := v; cc_http_proxy_enabled := cc_http_proxy_enabled c;
     cc_http_proxy_port := cc_http_proxy_port c |}.

(** ** Tables *)

Inductive Scalar : Type := SStr (s : string) | SInt (n : Z) | SBool (b : bool) | SOther.
Inductive Toml : Type :=
| TScalar (s : Scalar)
| TTable (t : gmap string Scalar)
| TArray (l : list (gmap string Scalar)).

Class TomlLib : Type := {
  toml_print : gmap string Toml → option string;
  toml_parse : string → option (gmap string Toml);
}.
Class TomlLaws `{TomlLib} : Prop := {
  toml_parse_print t s : toml_print t = Some s → toml_parse s = Some t;
  toml_prints t : is_Some (toml_print t);
}.

(** A field with a default: what is absent is the default, what is there must
    have the type. *)
Definition field {A T} (t : gmap string T) (k : string) (dflt : A) (f : T → option A) : option A :=
  match t !! k with None => Some dflt | Some v => f v end.

Definition sc_str (v : Scalar) : option string := match v with SStr s => Some s | _ => None end.
Definition sc_bool (v : Scalar) : option bool := match v with SBool b => Some b | _ => None end.
Definition sc_int (lo hi : Z) (v : Scalar) : option Z := match v with SInt n => within lo hi n | _ => None end.
Definition toml_scalar {A} (f : Scalar → option A) (v : Toml) : option A :=
  match v with TScalar s => f s | _ => None end.
Definition toml_str : Toml → option string := toml_scalar sc_str.
Definition toml_bool : Toml → option bool := toml_scalar sc_bool.
Definition toml_u16 : Toml → option Z := toml_scalar (sc_int 0 65535).
Definition toml_i32 : Toml → option Z := toml_scalar (sc_int (- 2 ^ 31) (2 ^ 31 - 1)).
Definition toml_i64 : Toml → option Z := toml_scalar (sc_int (- 2 ^ 63) (2 ^ 63 - 1)).
(** [HashMap<String, bool>]: every value a boolean. *)
Definition toml_bools (v : Toml) : option (gmap string bool) :=
  match v with
  | TTable t => list_to_map <$> mapM (λ kv, b ← sc_bool kv.2; Some (kv.1, b)) (map_to_list t)
  | _ => None
  end.
(** [rename_all = "lowercase"] *)
Definition wire_name (w : RendezvousWireProtocol) : string :=
  match w with WProto3 => "proto3" | WCapnp => "capnp" end.
Definition toml_wire (v : Toml) : option RendezvousWireProtocol :=
  s ← toml_str v;
  if bool_decide (s = "proto3"%string) then Some WProto3
  else if bool_decide (s = "capnp"%string) then Some WCapnp else None.

Definition rule_table (r : ForwardRule) : gmap string Scalar :=
  list_to_map
    [("id", SStr (fr_id r)); ("name", SStr (fr_name r)); ("peer_id", SStr (fr_peer_id r));
     ("target_host", SStr (fr_target_host r)); ("target_port", SInt (fr_target_port r));
     ("enabled", SBool (fr_enabled r))]%string.
Definition rule_of_table (t : gmap string Scalar) : option ForwardRule :=
  id ← t !! "id"%string ≫= sc_str;
  name ← t !! "name"%string ≫= sc_str;
  peer_id ← field t "peer_id" ""%string sc_str;
  target_host ← field t "target_host" default_target_host sc_str;
  target_port ← t !! "target_port"%string ≫= sc_int 0 65535;
  enabled ← field t "enabled" default_true sc_bool;
  Some (mkForwardRule id name peer_id target_host target_port enabled).
Definition toml_rules (v : Toml) : option (list ForwardRule) :=
  match v with TArray l => mapM rule_of_table l | _ => None end.

Definition config_table (c : ClientConfig) : gmap string Toml :=
  list_to_map
    [("id", TScalar (SStr (cc_id c)));
     ("uuid", TScalar (SStr (cc_uuid c)));
     ("sk", TScalar (SStr (cc_sk c)));
     ("pk", TScalar (SStr (cc_pk c)));
     ("key_confirmed", TScalar (SBool (cc_key_confirmed c)));
     ("host_keys_confirmed", TTable (SBool <$> cc_host_keys_confirmed c));
     ("rendezvous_servers", TScalar (SStr (cc_rendezvous_servers c)));
     ("rendezvous_wire_protocol", TScalar (SStr (wire_name (cc_rendezvous_wire_protocol c))));
     ("relay_server", TScalar (SStr (cc_relay_server c)));
     ("ipc_port", TScalar (SInt (cc_ipc_port c)));
     ("direct_listen_port", TScalar (SInt (cc_direct_listen_port c)));
     ("nat_type", TScalar (SInt (cc_nat_type c)));
     ("api_url", TScalar (SStr (cc_api_url c)));
     ("auth_token", TScalar (SStr (cc_auth_token c)));
     ("auth_token_expires", TScalar (SInt (cc_auth_token_expires c)));
     ("auth_user_id", TScalar (SInt (cc_auth_user_id c)));
     ("auth_username", TScalar (SStr (cc_auth_username c)));
     ("auth_role", TScalar (SStr (cc_auth_role c)));
     ("auth_device_row_id", TScalar (SInt (cc_auth_device_row_id c)));
     ("forward_rules", TArray (rule_table <$> cc_forward_rules c));
     ("language", TScalar (SStr (cc_language c)));
     ("dark_mode", TScalar (SBool (cc_dark_mode c)));
     ("socks5_enabled", TScalar (SBool (cc_socks5_enabled c)));
     ("socks5_port", TScalar (SInt (cc_socks5_port c)));
     ("socks5_exit_peer", TScalar (SStr (cc_socks5_exit_peer c)));
     ("http_proxy_enabled", TScalar (SBool (cc_http_proxy_enabled c)));
     ("http_proxy_port", TScalar (SInt (cc_http_proxy_port c)))]%string.

Definition config_of_table (t : gmap string Toml) : option ClientConfig :=
  v_id ← field t "id" ""%string toml_str;
  v_uuid ← field t "uuid" ""%string toml_str;
  v_sk ← field t "sk" ""%string toml_str;
  v_pk ← field t "pk" ""%string toml_str;
  v_key_confirmed ← field t "key_confirmed" false toml_bool;
  v_host_keys_confirmed ← field t "host_keys_confirmed" ∅ toml_bools;
  v_rendezvous_servers ← field t "rendezvous_servers" ""%string toml_str;
  v_rendezvous_wire_protocol ← field t "rendezvous_wire_protocol" WProto3 toml_wire;
  v_relay_server ← field t "relay_server" ""%string toml_str;
  v_ipc_port ← field t "ipc_port" default_ipc_port toml_u16;
  v_direct_listen_port ← field t "direct_listen_port" 0 toml_u16;
  v_nat_type ← field t "nat_type" 0 toml_i32;
  v_api_url ← field t "api_url" ""%string toml_str;
  v_auth_token ← field t "auth_token" ""%string toml_str;
  v_auth_token_expires ← field t "auth_token_expires" 0 toml_i64;
  v_auth_user_id ← field t "auth_user_id" 0 toml_i64;
  v_auth_username ← field t "auth_username" ""%string toml_str;
  v_auth_role ← field t "auth_role" ""%string toml_str;
  v_auth_device_row_id ← field t "auth_device_row_id" 0 toml_i64;
  v_forward_rules ← field t "forward_rules" [] toml_rules;
  v_language ← field t "language" default_language toml_str;
  v_dark_mode ← field t "dark_mode" default_true toml_bool;
  v_socks5_enabled ← field t "socks5_enabled" false toml_bool;
  v_socks5_port ← field t "socks5_port" default_socks5_port toml_u16;
  v_socks5_exit_peer ← field t "socks5_exit_peer" ""%string toml_str;
  v_http_proxy_enabled ← field t "http_proxy_enabled" false toml_bool;
  v_http_proxy_port ← field t "http_proxy_port" default_http_proxy_port toml_u16;
  Some {| cc_id := v_id; cc_uuid := v_uuid; cc_sk := v_sk; cc_pk := v_pk; cc_key_confirmed :=
     v_key_confirmed; cc_host_keys_confirmed := v_host_keys_confirmed; cc_rendezvous_servers :=
     v_rendezvous_servers; cc_rendezvous_wire_protocol := v_rendezvous_wire_protocol;
     cc_relay_server := v_relay_server; cc_ipc_port := v_ipc_port; cc_direct_listen_port :=
     v_direct_listen_port; cc_nat_type := v_nat_type; cc_api_url := v_api_url; cc_auth_token :=
     v_auth_token; cc_auth_token_expires := v_auth_token_expires; cc_auth_user_id :=
     v_auth_user_id; cc_auth_username := v_auth_username; cc_auth_role := v_auth_role;
     cc_auth_device_row_id := v_auth_device_row_id; cc_forward_rules := v_forward_rules;
     cc_language := v_language; cc_dark_mode := v_dark_mode; cc_socks5_enabled := v_socks5_enabled;
     cc_socks5_port := v_socks5_port; cc_socks5_exit_peer := v_socks5_exit_peer;
     cc_http_proxy_enabled := v_http_proxy_enabled; cc_http_proxy_port := v_http_proxy_port |}.

(** ** The store *)

(** What creating and writing the file comes to: it works, it cannot be
    created, or it is created and the writing fails. *)
Inductive Disk : Type := DiskOk | DiskReadOnly | DiskFull.

(** [CONFIG], and the contents of [config_path()]. *)
Record Store : Type := mkStore {
  CONFIG : ClientConfig;
  config_file : option string;
  disk : Disk;
}.

Section config.
Context `{TomlLib}.

Definition load (file : option string) : ClientConfig :=
  match s ← file; t ← toml_parse s; config_of_table t with
  | Some cfg => cfg
  | None => default_config
  end.

Definition save (c : ClientConfig) (st : Store) : Store :=
  match toml_print (config_table c) with
  | Some s =>
    {| CONFIG := CONFIG st;
       config_file := match disk st with
                      | DiskOk => Some s
                      | DiskReadOnly => config_file st
                      | DiskFull => Some ""%string
                      end;
       disk := disk st |}
  | None => st
  end.

(** [update]: the change, then the file. *)
Definition update (f : ClientConfig → ClientConfig) (st : Store) : Store :=
  let c := f (CONFIG st) in
  save c {| CONFIG := c; config_file := config_file st; disk := disk st |}.

(** The program starts: [CONFIG] is what [load] finds. *)
Definition restart_store (st : Store) : Store :=
  {| CONFIG := load (config_file st); config_file := config_file st; disk := disk st |}.

(** ** Accessors *)

Definition get_id (st : Store) : string := cc_id (CONFIG st).
Definition set_id_ (id : string) : Store → Store := update (set_id id).
Definition get_key_confirmed (st : Store) : bool := cc_key_confirmed (CONFIG st).
Definition set_key_confirmed_ (v : bool) : Store → Store := update (set_key_confirmed v).
Definition get_host_key_confirmed (prefix : string) (st : Store) : bool :=
  default false (cc_host_keys_confirmed (CONFIG st) !! prefix).
Definition set_host_key_confirmed (prefix : string) (v : bool) : Store → Store :=
  update (λ c, set_host_keys_confirmed (<[prefix := v]> (cc_host_keys_confirmed c)) c).
Definition get_rendezvous_servers (st : Store) : list string :=
  trim <$> filter (λ s, trim s ≠ ""%string) (split_on "," (cc_rendezvous_servers (CONFIG st))).
Definition get_rendezvous_wire_protocol (st : Store) : Protocol :=
  to_codec (cc_rendezvous_wire_protocol (CONFIG st)).
Definition get_relay_server (st : Store) : string := cc_relay_server (CONFIG st).
Definition get_ipc_port (st : Store) : Z := cc_ipc_port (CONFIG st).
Definition get_nat_type (st : Store) : Z := cc_nat_type (CONFIG st).
Definition set_nat_type_ (t : Z) : Store → Store := update (set_nat_type t).

(** The token, unless it expires within thirty seconds of [now] (in seconds);
    an expiry of zero is no expiry. *)
Definition get_auth_token (now : Z) (st : Store) : option string :=
  let cfg := CONFIG st in
  if bool_decide (cc_auth_token cfg = ""%string) then None
  else if (0 <? cc_auth_token_expires cfg) && (as_i64 (cc_auth_token_expires cfg - 30) <=? now) then None
  else Some (cc_auth_token cfg).
Definition is_logged_in (now : Z) (st : Store) : bool := bool_decide (is_Some (get_auth_token now st)).

Definition save_login (token : string) (expires user_id : Z) (username role : string) (device_row_id : Z)
    : Store → Store :=
  update (λ c, set_auth_device_row_id device_row_id (set_auth_role role (set_auth_username username
    (set_auth_user_id user_id (set_auth_token_expires expires (set_auth_token token c)))))).
Definition clear_login : Store → Store :=
  update (λ c, set_auth_device_row_id 0 (set_auth_role "" (set_auth_username ""
    (set_auth_user_id 0 (set_auth_token_expires 0 (set_auth_token "" c)))))).

(** [get_api_url]: the configured one, else port 8080 of the first server. *)
Definition get_api_url (st : Store) : string :=
  let url := cc_api_url (CONFIG st) in
  if negb (bool_decide (url = ""%string)) then url else
  match get_rendezvous_servers st with
  | first :: _ =>
    let host := if contains ":" first then default first (head (split_on ":" first)) else first in
    "http://" +:+ host +:+ ":8080"
  | [] => ""
  end.
Definition set_api_url_ (url : string) : Store → Store := update (set_api_url url).
Definition get_language (st : Store) : string := cc_language (CONFIG st).
Definition set_language_ (lang : string) : Store → Store := update (set_language lang).
Definition get_dark_mode (st : Store) : bool := cc_dark_mode (CONFIG st).
Definition set_dark_mode_ (dark : bool) : Store → Store := update (set_dark_mode dark).
Definition get_socks5_config (st : Store) : bool * Z * string :=
  let cfg := CONFIG st in (cc_socks5_enabled cfg, cc_socks5_port cfg, cc_socks5_exit_peer cfg).
Definition get_http_proxy_config (st : Store) : bool * Z :=
  (cc_http_proxy_enabled (CONFIG st), cc_http_proxy_port (CONFIG st)).

(** ** Rules *)

Definition get_rules (st : Store) : list ForwardRule := cc_forward_rules (CONFIG st).
Definition same_rule (r r' : ForwardRule) : bool :=
  bool_decide (fr_name r = fr_name r') && (fr_target_port r =? fr_target_port r').
Definition add_rule (rule : ForwardRule) : Store → Store :=
  update (λ c, if existsb (λ r, same_rule r rule) (cc_forward_rules c) then c
               else set_forward_rules (cc_forward_rules c ++ [rule]) c).
Definition remove_rule (rule_id : string) : Store → Store :=
  update (λ c, set_forward_rules (filter (λ r, fr_id r ≠ rule_id) (cc_forward_rules c)) c).

(** The first enabled rule of the peer, else the first for any peer. *)
Definition find_target_for_peer (peer_id : string) (st : Store) : option (string * Z) :=
  let enabled := filter (λ r, fr_enabled r = true) (cc_forward_rules (CONFIG st)) in
  let target r := (fr_target_host r, fr_target_port r) in
  match List.find (λ r, negb (bool_decide (fr_peer_id r = ""%string)) && bool_decide (fr_peer_id r = peer_id)) enabled with
  | Some r => Some (target r)
  | None => target <$> List.find (λ r, bool_decide (fr_peer_id r = ""%string)) enabled
  end.

(** ** Start *)

(** [{:09}] *)
Fixpoint zeros (n : nat) : string := match n with O => "" | S n => String "0" (zeros n) end.
Definition pad9 (s : string) : string := zeros (9 - String.length s) +:+ s.
(** Of a random number and the nanoseconds of the clock, both 32 bits wide. *)
Definition generate_id (r t : Z) : string := pad9 (to_string (Z.lxor r t mod 1000000000)).
End config.

Section start.
Context `{TomlLib} `{KeyLib} `{Uuid}.

Definition base64_encode : bytes → string := b64_encode.
Definition base64_decode : string → option bytes := b64_decode.
Definition get_uuid_bytes (st : Store) : bytes := default [] (base64_decode (cc_uuid (CONFIG st))).
Definition get_key_pair (st : Store) : bytes * bytes :=
  (default [] (base64_decode (cc_sk (CONFIG st))), default [] (base64_decode (cc_pk (CONFIG st)))).

(** What [init] draws: a number and a time for the id, a uuid, a key pair. *)
Record Draws : Type := mkDraws { dr_random : Z; dr_nanos : Z; dr_uuid : Z; dr_key : nat }.

(** What the command line sets. *)
Definition overrides (rendezvous_servers relay_server id_override : option string) (ipc_port : option Z)
    (rendezvous_wire : option RendezvousWireProtocol) (cfg : ClientConfig) : ClientConfig :=
  let cfg := match rendezvous_servers with Some s => set_rendezvous_servers s cfg | None => cfg end in
  let cfg := match relay_server with Some s => set_relay_server s cfg | None => cfg end in
  let cfg := match ipc_port with Some p => set_ipc_port p cfg | None => cfg end in
  let cfg := match rendezvous_wire with Some w => set_rendezvous_wire_protocol w cfg | None => cfg end in
  match id_override with Some id => set_id id cfg | None => cfg end.
(** What is missing of id, uuid and keys. *)
Definition make_identity (dr : Draws) (cfg : ClientConfig) : ClientConfig :=
  let cfg := if bool_decide (cc_id cfg = ""%string) then set_id (generate_id (dr_random dr) (dr_nanos dr)) cfg else cfg in
  let cfg := if bool_decide (cc_uuid cfg = ""%string) then set_uuid (base64_encode (uuid_bytes (dr_uuid dr))) cfg else cfg in
  if bool_decide (cc_sk cfg = ""%string) || bool_decide (cc_pk cfg = ""%string) then
    let '(pk_bytes, sk) := gen_keypair (dr_key dr) in
    set_key_confirmed false (set_pk (base64_encode pk_bytes) (set_sk (base64_encode sk) cfg))
  else cfg.
Definition init_config (rendezvous_servers relay_server id_override : option string) (ipc_port : option Z)
    (rendezvous_wire : option RendezvousWireProtocol) (dr : Draws) (cfg : ClientConfig) : ClientConfig :=
  make_identity dr (overrides rendezvous_servers relay_server id_override ipc_port rendezvous_wire cfg).

(** [init] *)
Definition init (rendezvous_servers relay_server id_override : option string) (ipc_port : option Z)
    (rendezvous_wire : option RendezvousWireProtocol) (dr : Draws) : Store → Store :=
  update (init_config rendezvous_servers relay_server id_override ipc_port rendezvous_wire dr).
End start.
