(* ===== verification/ClientConfigSpec.v ===== *)
(** * What the configuration of the client promises

    Theorems about [ClientConfig]: the fields keep their machine types under
    every operation; what is in memory is what the next start reads; the first
    start makes an identity and keeps it; which rule a peer is forwarded by. *)
From Stdlib Require Import Ascii.
From S2P Require Import Prelude AddrMangle Text TextFacts HostText Proto RendezvousCodec Database Instances Keys ClientConfig.
Local Open Scope Z_scope.
(** ** Types *)

Definition u16_ok (n : Z) : Prop := 0 <= n <= 65535.
Definition i32_ok (n : Z) : Prop := - 2 ^ 31 <= n <= 2 ^ 31 - 1.
Definition i64_ok (n : Z) : Prop := - 2 ^ 63 <= n <= 2 ^ 63 - 1.
Definition config_ok (c : ClientConfig) : Prop :=
  u16_ok (cc_ipc_port c) ∧ u16_ok (cc_direct_listen_port c) ∧ i32_ok (cc_nat_type c) ∧
  i64_ok (cc_auth_token_expires c) ∧ i64_ok (cc_auth_user_id c) ∧ i64_ok (cc_auth_device_row_id c) ∧
  Forall (λ r, u16_ok (fr_target_port r)) (cc_forward_rules c) ∧
  u16_ok (cc_socks5_port c) ∧ u16_ok (cc_http_proxy_port c).

(** ** The table of a configuration *)

Lemma within_some lo hi n : lo <= n <= hi → within lo hi n = Some n.
Proof. unfold within. intros ?. by rewrite (proj2 (Z.leb_le _ _)), (proj2 (Z.leb_le _ _)) by lia. Qed.
Lemma field_found {A T} (t : gmap string T) k (d : A) f v : t !! k = Some v → field t k d f = f v.
Proof. unfold field. by intros ->. Qed.

Lemma rule_roundtrip r : u16_ok (fr_target_port r) → rule_of_table (rule_table r) = Some r.
Proof.
  intros Hp. unfold rule_of_table.
  assert (rule_table r !! "id"%string = Some (SStr (fr_id r))) as -> by reflexivity.
  assert (rule_table r !! "name"%string = Some (SStr (fr_name r))) as -> by reflexivity.
  assert (rule_table r !! "target_port"%string = Some (SInt (fr_target_port r))) as -> by reflexivity.
  rewrite (field_found _ "peer_id" _ _ (SStr (fr_peer_id r))) by reflexivity.
  rewrite (field_found _ "target_host" _ _ (SStr (fr_target_host r))) by reflexivity.
  rewrite (field_found _ "enabled" _ _ (SBool (fr_enabled r))) by reflexivity.
  cbn [mbind option_bind sc_str sc_bool sc_int]. rewrite within_some by done. by destruct r.
Qed.
Lemma rules_roundtrip l :
  Forall (λ r, u16_ok (fr_target_port r)) l → toml_rules (TArray (rule_table <$> l)) = Some l.
Proof.
  unfold toml_rules. induction 1 as [|r l Hr _ IH]; [done|].
  cbn [fmap list_fmap mapM]. rewrite rule_roundtrip by done. cbn [mbind option_bind].
  by rewrite IH.
Qed.
Lemma bools_roundtrip m : toml_bools (TTable (SBool <$> m)) = Some m.
Proof.
  unfold toml_bools. rewrite map_to_list_fmap.
  assert (mapM (λ kv : string * Scalar, b ← sc_bool kv.2; Some (kv.1, b)) (prod_map id SBool <$> map_to_list m)
          = Some (map_to_list m)) as ->.
  { induction (map_to_list m) as [|[k b] l IH]; [done|]. cbn [fmap list_fmap mapM prod_map fst snd sc_bool mbind option_bind].
    by rewrite IH. }
  cbn [fmap option_fmap option_map]. by rewrite list_to_map_to_list.
Qed.
Lemma wire_roundtrip w : toml_wire (TScalar (SStr (wire_name w))) = Some w.
Proof. by destruct w. Qed.

Lemma config_roundtrip c : config_ok c → config_of_table (config_table c) = Some c.
Proof.
  intros (Hi & Hd & Hn & He & Hu & Hr & Hf & Hs & Hh). unfold config_of_table.
  repeat (erewrite field_found; [|reflexivity]). cbn [snd].
  rewrite bools_roundtrip, wire_roundtrip, rules_roundtrip by done.
  unfold toml_str, toml_bool, toml_u16, toml_i32, toml_i64. cbn [toml_scalar sc_str sc_bool sc_int].
  rewrite !within_some by done. cbn [mbind option_bind]. by destruct c.
Qed.

(** ** Operations *)

(** The mutations of the configuration.  [OpUpdate] is any closure given to
    [ClientConfig::update] by the other parts of the client. *)
Inductive ConfigOp : Type :=
| OpSetId (id : string)
| OpKeyConfirmed (v : bool)
| OpHostKeyConfirmed (prefix : string) (v : bool)
| OpNatType (t : Z)
| OpSaveLogin (token : string) (expires user_id : Z) (username role : string) (row_id : Z)
| OpClearLogin
| OpApiUrl (url : string)
| OpLanguage (lang : string)
| OpDarkMode (dark : bool)
| OpAddRule (r : ForwardRule)
| OpRemoveRule (id : string)
| OpInit (rendezvous_servers relay_server id_override : option string) (ipc_port : option Z)
    (wire : option RendezvousWireProtocol) (dr : Draws)
| OpUpdate (f : ClientConfig → ClientConfig).

(** The arguments have the types of the parameters. *)
Definition op_ok (o : ConfigOp) : Prop :=
  match o with
  | OpNatType t => i32_ok t
  | OpSaveLogin _ expires user_id _ _ row_id => i64_ok expires ∧ i64_ok user_id ∧ i64_ok row_id
  | OpAddRule r => u16_ok (fr_target_port r)
  | OpInit _ _ _ (Some p) _ _ => u16_ok p
  | OpUpdate f => ∀ c, config_ok c → config_ok (f c)
  | _ => True
  end.

Section ops.
Context `{TomlLib} `{KeyLib} `{Uuid}.

(** What the operation does to [CONFIG]. *)
Definition op_config (o : ConfigOp) : ClientConfig → ClientConfig :=
  match o with
  | OpSetId id => set_id id
  | OpKeyConfirmed v => set_key_confirmed v
  | OpHostKeyConfirmed p v => λ c, set_host_keys_confirmed (<[p := v]> (cc_host_keys_confirmed c)) c
  | OpNatType t => set_nat_type t
  | OpSaveLogin token expires user_id username role row_id =>
    λ c, set_auth_device_row_id row_id (set_auth_role role (set_auth_username username
      (set_auth_user_id user_id (set_auth_token_expires expires (set_auth_token token c)))))
  | OpClearLogin =>
    λ c, set_auth_device_row_id 0 (set_auth_role "" (set_auth_username ""
      (set_auth_user_id 0 (set_auth_token_expires 0 (set_auth_token "" c)))))
  | OpApiUrl url => set_api_url url
  | OpLanguage lang => set_language lang
  | OpDarkMode d => set_dark_mode d
  | OpAddRule r =>
    λ c, if existsb (λ r', same_rule r' r) (cc_forward_rules c) then c
         else set_forward_rules (cc_forward_rules c ++ [r]) c
  | OpRemoveRule id => λ c, set_forward_rules (filter (λ r, fr_id r ≠ id) (cc_forward_rules c)) c
  | OpInit s r i p w dr => init_config s r i p w dr
  | OpUpdate f => f
  end.

(** The operation as the code has it. *)
Definition run_op (o : ConfigOp) : Store → Store :=
  match o with
  | OpSetId id => set_id_ id
  | OpKeyConfirmed v => set_key_confirmed_ v
  | OpHostKeyConfirmed p v => set_host_key_confirmed p v
  | OpNatType t => set_nat_type_ t
  | OpSaveLogin token expires user_id username role row_id =>
    save_login token expires user_id username role row_id
  | OpClearLogin => clear_login
  | OpApiUrl url => set_api_url_ url
  | OpLanguage lang => set_language_ lang
  | OpDarkMode d => set_dark_mode_ d
  | OpAddRule r => add_rule r
  | OpRemoveRule id => remove_rule id
  | OpInit s r i p w dr => init s r i p w dr
  | OpUpdate f => update f
  end.
Definition run_ops (l : list ConfigOp) (st : Store) : Store := foldl (λ st o, run_op o st) st l.

Lemma run_op_update o st : run_op o st = update (op_config o) st.
Proof. by destruct o. Qed.
Lemma update_CONFIG f st : CONFIG (update f st) = f (CONFIG st).
Proof. unfold update, save. by case_match. Qed.
Lemma update_disk f st : disk (update f st) = disk st.
Proof. unfold update, save. by case_match. Qed.

Lemma rules_filter_ok id l :
  Forall (λ r, u16_ok (fr_target_port r)) l →
  Forall (λ r, u16_ok (fr_target_port r)) (filter (λ r, fr_id r ≠ id) l).
Proof. rewrite !Forall_forall. intros Hl x [_ ?]%list_elem_of_filter. by apply Hl. Qed.

Ltac config_goal :=
  intros (?&?&?&?&?&?&?&?&?); unfold config_ok; cbn; split_and!; done.
Lemma set_ipc_port_ok p c : u16_ok p → config_ok c → config_ok (set_ipc_port p c).
Proof. intros Hp. config_goal. Qed.
Lemma set_nat_type_ok t c : i32_ok t → config_ok c → config_ok (set_nat_type t c).
Proof. intros Ht. config_goal. Qed.
Lemma set_forward_rules_ok l c :
  Forall (λ r, u16_ok (fr_target_port r)) l → config_ok c → config_ok (set_forward_rules l c).
Proof. intros Hl. config_goal. Qed.
Lemma login_ok expires user_id row_id token username role c :
  i64_ok expires → i64_ok user_id → i64_ok row_id → config_ok c →
  config_ok (set_auth_device_row_id row_id (set_auth_role role (set_auth_username username
    (set_auth_user_id user_id (set_auth_token_expires expires (set_auth_token token c)))))).
Proof. intros He Hu Hr. config_goal. Qed.
Lemma config_ok_rules c : config_ok c → Forall (λ r, u16_ok (fr_target_port r)) (cc_forward_rules c).
Proof. by intros (?&?&?&?&?&?&?&?&?). Qed.

Lemma overrides_ok s r i p w c :
  match p with Some p => u16_ok p | None => True end → config_ok c → config_ok (overrides s r i p w c).
Proof.
  intros Hp Hc.
  destruct s, r, i, p, w; first [exact Hc | exact (set_ipc_port_ok _ c Hp Hc)].
Qed.
Lemma make_identity_ok dr c : config_ok c → config_ok (make_identity dr c).
Proof.
  intros Hc. unfold make_identity. destruct (gen_keypair _). cbv zeta. repeat case_match; exact Hc.
Qed.

Lemma op_config_ok o c : op_ok o → config_ok c → config_ok (op_config o c).
Proof.
  intros Ho Hc. pose proof (config_ok_rules c Hc) as Hl.
  destruct o; try exact Hc; cbn [op_config op_ok] in *.
  - by apply set_nat_type_ok.
  - destruct Ho as (?&?&?). by apply login_ok.
  - by apply login_ok.
  - case_match; [done|]. apply set_forward_rules_ok; [|done]. apply Forall_app. by split; [|constructor].
  - by apply set_forward_rules_ok; [apply rules_filter_ok|].
  - by apply make_identity_ok, overrides_ok.
  - by apply Ho.
Qed.


(** ** The file *)

Lemma run_op_file `{!TomlLaws} o st :
  disk st = DiskOk → config_file (run_op o st) = toml_print (config_table (CONFIG (run_op o st))).
Proof.
  intros Hd. rewrite run_op_update, update_CONFIG. unfold update, save. cbn [disk config_file].
  destruct (toml_prints (config_table (op_config o (CONFIG st)))) as [s Hs].
  rewrite Hs, Hd. done.
Qed.
Lemma run_op_disk o st : disk (run_op o st) = disk st.
Proof. by rewrite run_op_update, update_disk. Qed.

Lemma load_printed `{!TomlLaws} c : config_ok c → load (toml_print (config_table c)) = c.
Proof.
  intros Hc. unfold load. destruct (toml_prints (config_table c)) as [s Hs]. rewrite Hs.
  cbn [mbind option_bind]. rewrite (toml_parse_print _ _ Hs). cbn [mbind option_bind].
  by rewrite config_roundtrip.
Qed.

(** Nothing is lost by a restart: after at least one operation on a disk that
    works, what the program starts from is the configuration it had, field by
    field. *)
Theorem restart_finds_config `{!TomlLaws} l o st :
  disk st = DiskOk → Forall op_ok (l ++ [o]) → config_ok (CONFIG st) →
  restart_store (run_ops (l ++ [o]) st) = run_ops (l ++ [o]) st.
Proof.
  intros Hd Hl Hst.
  assert (config_ok (CONFIG (run_ops (l ++ [o]) st))) as Hc.
  { clear Hd. revert st Hst. induction Hl as [|x l' Hx _ IH]; intros st Hst; [done|].
    cbn. apply IH. rewrite run_op_update, update_CONFIG. by apply op_config_ok. }
  unfold run_ops in *. rewrite foldl_app in *. cbn [foldl] in *.
  set (st1 := foldl _ st l) in *.
  assert (disk st1 = DiskOk) as Hd1.
  { subst st1. clear -Hd. revert st Hd. induction l as [|x l IH]; intros st Hd; [done|].
    cbn. apply IH. by rewrite run_op_disk. }
  unfold restart_store. rewrite (run_op_file o st1 Hd1), (load_printed _ Hc).
  rewrite <- (run_op_file o st1 Hd1). by destruct (run_op o st1).
Qed.

(** The first start uses the derived default, not the defaults of the fields:
    without a file and without a port on the command line the port for IPC is 0
    and the language empty, and that is what the file then says; the port and
    the language of an empty file are 21114 and Chinese. *)
Theorem first_start_defaults d s dr :
  toml_parse "" = Some ∅ →
  let start file := init s None None None None dr (restart_store (mkStore default_config file d)) in
  get_ipc_port (start None) = 0 ∧ get_language (start None) = ""%string ∧
  get_ipc_port (start (Some ""%string)) = 21114 ∧ get_language (start (Some ""%string)) = "zh"%string.
Proof.
  intros Hempty. cbv zeta beta. unfold get_ipc_port, get_language, init. rewrite !update_CONFIG.
  unfold restart_store, load. cbn [CONFIG config_file mbind option_bind]. rewrite Hempty.
  cbn [mbind option_bind]. unfold init_config, make_identity.
  destruct s, (gen_keypair (dr_key dr)); split_and!; reflexivity.
Qed.

(** ** Identity *)

Lemma zeros_length n : String.length (zeros n) = n.
Proof. induction n as [|n IH]; [done|]. cbn. by rewrite IH. Qed.

Lemma pad9_length s : (String.length s <= 9)%nat → String.length (pad9 s) = 9%nat.
Proof. intros. unfold pad9. rewrite length_string_app, zeros_length. lia. Qed.

Lemma length_dec fuel n acc k :
  0 <= n < 10 ^ Z.of_nat (S k) →
  (String.length (dec_nonneg fuel n acc) <= S k + String.length acc)%nat.
Proof.
  revert n acc k. induction fuel as [|fuel IH]; intros n acc k Hn; [cbn; lia|].
  cbn [dec_nonneg]. case_match; [cbn; lia|].
  destruct k as [|k].
  { exfalso. change (10 ^ Z.of_nat 1) with 10 in Hn. bool_simp. lia. }
  specialize (IH (n / 10) (String (chr (48 + n mod 10)) acc) k).
  assert (0 <= n / 10 < 10 ^ Z.of_nat (S k)) as Hq.
  { rewrite (Nat2Z.inj_succ (S k)), Z.pow_succ_r in Hn by lia.
    split; [apply Z.div_pos; lia|apply Z.div_lt_upper_bound; lia]. }
  specialize (IH Hq). cbn [String.length] in IH. lia.
Qed.
Lemma generate_id_length r t : String.length (generate_id r t) = 9%nat.
Proof.
  unfold generate_id. apply pad9_length.
  pose proof (Z.mod_pos_bound (Z.lxor r t) 1000000000 ltac:(lia)) as Hb.
  unfold to_string. rewrite (proj2 (Z.ltb_ge _ 0)), Z.abs_eq by lia.
  pose proof (length_dec (Z.to_nat (Z.log2 (Z.lxor r t mod 1000000000))) (Z.lxor r t mod 1000000000) "" 8 Hb) as H8.
  exact H8.
Qed.
Lemma nonempty_length s n : String.length s = S n → s ≠ ""%string.
Proof. by intros H1' ->. Qed.

(** What every start asks of the identity it finds or makes. *)
Definition has_identity (c : ClientConfig) : Prop :=
  cc_id c ≠ ""%string ∧ cc_uuid c ≠ ""%string ∧ cc_sk c ≠ ""%string ∧ cc_pk c ≠ ""%string.

Lemma overrides_fields s r i p w c :
  let c' := overrides s r i p w c in
  cc_id c' = default (cc_id c) i ∧ cc_uuid c' = cc_uuid c ∧ cc_sk c' = cc_sk c ∧ cc_pk c' = cc_pk c ∧
  cc_key_confirmed c' = cc_key_confirmed c.
Proof. by destruct s, r, i, p, w. Qed.

Lemma make_identity_makes dr c :
  base64_encode (uuid_bytes (dr_uuid dr)) ≠ ""%string →
  base64_encode (gen_keypair (dr_key dr)).2 ≠ ""%string → base64_encode (gen_keypair (dr_key dr)).1 ≠ ""%string →
  generate_id (dr_random dr) (dr_nanos dr) ≠ ""%string →
  let c' := make_identity dr c in
  has_identity c' ∧
  (cc_sk c = ""%string ∨ cc_pk c = ""%string →
   cc_sk c' = base64_encode (gen_keypair (dr_key dr)).2 ∧ cc_pk c' = base64_encode (gen_keypair (dr_key dr)).1 ∧
   cc_key_confirmed c' = false).
Proof.
  intros Hu Hs Hp Hid. unfold make_identity, has_identity. destruct (gen_keypair (dr_key dr)) as [pkb sk].
  cbn [fst snd] in *. repeat (case_bool_decide; cbn in *); split_and!; tauto || congruence.
Qed.
Lemma make_identity_keeps dr c : has_identity c → make_identity dr c = c.
Proof.
  intros (Hi & Hu & Hs & Hp). unfold make_identity.
  cbn [fst snd] in *. repeat (case_bool_decide; cbn in *); naive_solver.
Qed.

(** A start gives the client an identity and the next one keeps it: after
    [init] none of id, uuid and keys is empty, the keys are a pair that was
    drawn together if either was missing, and then unconfirmed; a second
    [init], whatever it draws and without an id on its command line, changes
    none of them. *)
Theorem start_keeps_identity `{!KeyLaws} s r i p w dr s' r' p' w' dr' st :
  (∀ b, b ≠ [] → b64_encode b ≠ ""%string) → uuid_bytes (dr_uuid dr) ≠ [] →
  let st1 := init s r i p w dr st in
  let st2 := init s' r' None p' w' dr' st1 in
  has_identity (CONFIG st1) ∧
  ((cc_sk (CONFIG st) = ""%string ∨ cc_pk (CONFIG st) = ""%string) →
   get_key_pair st1 = ((gen_keypair (dr_key dr)).2, (gen_keypair (dr_key dr)).1) ∧
   get_key_confirmed st1 = false) ∧
  (get_id st2, cc_uuid (CONFIG st2), get_key_pair st2, get_key_confirmed st2) =
  (get_id st1, cc_uuid (CONFIG st1), get_key_pair st1, get_key_confirmed st1).
Proof.
  intros Henc Huuid. cbv zeta.
  pose proof (keypair_length (dr_key dr)) as Hlen. pose proof (keypair_public (dr_key dr)) as Hpub.
  assert (b64_encode (gen_keypair (dr_key dr)).2 ≠ ""%string) as Hsk.
  { apply Henc. intros E. by rewrite E in Hlen. }
  assert (b64_encode (gen_keypair (dr_key dr)).1 ≠ ""%string) as Hpk.
  { apply Henc. rewrite <- Hpub. intros E. apply (f_equal length) in E. rewrite length_drop, Hlen in E. done. }
  assert (generate_id (dr_random dr) (dr_nanos dr) ≠ ""%string) as Hid.
  { eapply nonempty_length, generate_id_length. }
  specialize (Henc _ Huuid).
  destruct (make_identity_makes dr (overrides s r i p w (CONFIG st)) Henc Hsk Hpk Hid) as (Hhas & Hkeys).
  destruct (overrides_fields s r i p w (CONFIG st)) as (_ & _ & Es & Ep & _). rewrite Es, Ep in Hkeys.
  unfold get_id, get_key_pair, get_key_confirmed, init. rewrite !update_CONFIG. unfold init_config.
  set (c1 := make_identity dr _) in *.
  destruct (overrides_fields s' r' None p' w' c1) as (F1 & F2 & F3 & F4 & F5).
  rewrite (make_identity_keeps dr') by (unfold has_identity; by rewrite F1, F2, F3, F4).
  split; [done|]. split.
  - intros Hmiss. destruct (Hkeys Hmiss) as (-> & -> & ->).
    unfold base64_encode, base64_decode. by rewrite !b64_roundtrip.
  - by rewrite F1, F2, F3, F4, F5.
Qed.

(** ** Rules *)

Definition rule_key (r : ForwardRule) : string * Z := (fr_name r, fr_target_port r).

(** No two rules have the same name and port, whatever is added and removed. *)
Lemma rules_distinct o c :
  (match o with OpAddRule _ | OpRemoveRule _ => True | _ => False end) →
  NoDup (rule_key <$> cc_forward_rules c) → NoDup (rule_key <$> cc_forward_rules (op_config o c)).
Proof.
  destruct o; try done; intros _ Hnd; cbn [op_config].
  - destruct (existsb _ _) eqn:E; [done|]. cbn. rewrite fmap_app. apply NoDup_app. split; [done|].
    split; [|apply NoDup_singleton].
    intros k [r' [-> Hin]]%list_elem_of_fmap Hk. apply list_elem_of_singleton in Hk.
    assert (existsb (λ r'0, same_rule r'0 r) (cc_forward_rules c) = true) as E'; [|congruence].
    apply existsb_exists. exists r'. split; [by apply list_elem_of_In|].
    unfold rule_key in Hk. unfold same_rule. rewrite bool_decide_eq_true_2 by congruence. cbn.
    apply Z.eqb_eq. congruence.
  - cbn. induction (cc_forward_rules c) as [|x l IH]; [done|].
    rewrite fmap_cons in Hnd. apply NoDup_cons in Hnd as [Hx Hl]. rewrite filter_cons. case_decide; [|by apply IH].
    rewrite fmap_cons. constructor; [|by apply IH]. intros Hin. apply Hx.
    apply list_elem_of_fmap in Hin as (y & -> & Hy). apply list_elem_of_filter in Hy as [_ Hy].
    by apply list_elem_of_fmap_2.
Qed.

(** Which rule forwards a peer: one that is enabled and names the peer goes
    before every rule for all peers; a rule that names another peer is never
    used; without an applicable rule there is no target. *)
Theorem target_for_peer_spec peer st :
  let exact r := fr_enabled r = true ∧ fr_peer_id r = peer ∧ peer ≠ ""%string in
  let wild r := fr_enabled r = true ∧ fr_peer_id r = ""%string in
  match find_target_for_peer peer st with
  | Some t => ∃ r, r ∈ get_rules st ∧ t = (fr_target_host r, fr_target_port r) ∧
      (exact r ∨ wild r ∧ ∀ r', r' ∈ get_rules st → ¬ exact r')
  | None => ∀ r, r ∈ get_rules st → ¬ exact r ∧ ¬ wild r
  end.
Proof.
  cbv zeta. unfold find_target_for_peer, get_rules. set (l := cc_forward_rules (CONFIG st)).
  set (fe := λ r, negb (bool_decide (fr_peer_id r = ""%string)) && bool_decide (fr_peer_id r = peer)).
  assert (∀ r, fe r = true ↔ fr_peer_id r = peer ∧ peer ≠ ""%string) as Hfe.
  { intros r. subst fe. cbv beta. rewrite andb_true_iff, negb_true_iff, bool_decide_eq_false, bool_decide_eq_true.
    split; intros [A B]; [subst; done|]. rewrite A. done. }
  assert (∀ r, r ∈ filter (λ r, fr_enabled r = true) l ↔ fr_enabled r = true ∧ r ∈ l) as Hen
    by (intros r; apply (list_elem_of_filter (λ r, fr_enabled r = true))).
  destruct (List.find fe _) as [r|] eqn:E1.
  - apply List.find_some in E1 as [Hin Hr]. apply list_elem_of_In, Hen in Hin as [? ?].
    apply Hfe in Hr as [? ?]. exists r. split; [done|]. split; [done|]. left. done.
  - assert (∀ r, r ∈ l → ¬ (fr_enabled r = true ∧ fr_peer_id r = peer ∧ peer ≠ ""%string)) as Hno.
    { intros r Hr (He & Hp). eapply List.find_none in E1; [|apply list_elem_of_In, Hen; eauto].
      apply Hfe in Hp. congruence. }
    clear E1.
    clear Hfe. destruct (List.find (λ r, bool_decide (fr_peer_id r = ""%string)) _) as [r|] eqn:E2;
      cbn [fmap option_fmap option_map].
    + apply List.find_some in E2 as [Hin Hr]. apply list_elem_of_In, Hen in Hin as [? ?].
      apply bool_decide_eq_true in Hr. exists r. split; [done|]. split; [done|]. right. split; [done|]. exact Hno.
    + intros r Hr. split; [by apply Hno|]. intros [He Hp].
      eapply List.find_none in E2; [|apply list_elem_of_In, Hen; eauto].
      apply bool_decide_eq_false in E2. done.
Qed.

(** The address of the account server is guessed from the first rendezvous
    server up to its first colon, so an IPv6 server in brackets, the form that
    [check_port] makes, gives a URL with a piece of its host. *)
Theorem api_url_of_ipv6 st a b rest :
  cc_api_url (CONFIG st) = ""%string → has_char ":" a = false →
  get_rendezvous_servers st = ("[" +:+ a +:+ ":" +:+ b) :: rest →
  get_api_url st = "http://[" +:+ a +:+ ":8080".
Proof.
  intros Hu Ha Hs. unfold get_api_url. rewrite Hu, Hs. cbv zeta. rewrite bool_decide_eq_true_2 by done. cbn [negb].
  change ("[" +:+ a +:+ ":" +:+ b) with (String "[" (a +:+ String ":" b)).
  rewrite contains_char. cbn [has_char]. rewrite has_char_app. cbn [has_char].
  rewrite ?orb_true_r. cbn [orb].
  assert (has_char ":" (String "[" a) = false) as Ha' by (cbn [has_char]; by rewrite Ha).
  change (String "[" (a +:+ String ":" b)) with (String "[" a +:+ String ":" b).
  destruct (split_on_head ":" (String "[" a) b Ha') as [ws ->]. cbn. by str_simp.
Qed.
End ops.

(** ** The theorems at concrete inputs *)

Definition scalar_code (v : Scalar) : string + (Z + (bool + unit)) :=
  match v with SStr s => inl s | SInt n => inr (inl n) | SBool b => inr (inr (inl b)) | SOther => inr (inr (inr tt)) end.
Definition scalar_decode (x : string + (Z + (bool + unit))) : Scalar :=
  match x with inl s => SStr s | inr (inl n) => SInt n | inr (inr (inl b)) => SBool b | inr (inr (inr _)) => SOther end.
#[export] Instance Scalar_eq_dec : EqDecision Scalar.
Proof. solve_decision. Defined.
#[export] Instance Scalar_countable : Countable Scalar.
Proof. apply (inj_countable' scalar_code scalar_decode). by intros []. Defined.
#[export] Instance Toml_eq_dec : EqDecision Toml.
Proof. solve_decision. Defined.
#[export] Instance Toml_countable : Countable Toml.
Proof.
  apply (inj_countable'
    (λ v, match v with TScalar s => inl s | TTable t => inr (inl t) | TArray l => inr (inr l) end)
    (λ x, match x with inl s => TScalar s | inr (inl t) => TTable t | inr (inr l) => TArray l end)).
  by intros [].
Defined.

(** A printer: the number of the table in decimal; an empty text parses too. *)
Definition TestToml : TomlLib :=
  {| toml_print t := Some (to_string (Zpos (encode t)));
     toml_parse s := if bool_decide (s = ""%string) then Some ∅ else n ← digits s; decode (Z.to_pos n) |}.
Lemma TestTomlLaws : @TomlLaws TestToml.
Proof.
  split.
  - intros t s [= <-]. unfold toml_parse, TestToml.
    rewrite bool_decide_eq_false_2 by apply to_string_nonempty.
    unfold to_string. change (Z.pos (encode t) <? 0) with false. cbn iota.
    rewrite digits_to_string_nonneg by lia. cbn [mbind option_bind]. apply decode_encode.
  - intros t. by eexists.
Qed.

Definition demo_store : Store := mkStore default_config None DiskOk.
Definition demo_draws : Draws := {| dr_random := 305419896; dr_nanos := 7; dr_uuid := 5; dr_key := 3 |}.
Definition demo_rule : ForwardRule := new_rule "r1" "ssh" 22.
Definition demo_ops : list ConfigOp :=
  [OpInit (Some "hbbs.example:21116"%string) None None (Some 21114) None demo_draws;
   OpAddRule demo_rule; OpSaveLogin "t" 1700000000 7 "ann" "user" 3].
Lemma default_config_ok : config_ok default_config.
Proof. unfold config_ok, u16_ok, i32_ok, i64_ok; cbn; split_and!; lia || constructor. Qed.
Lemma demo_ops_ok : Forall op_ok demo_ops.
Proof. repeat constructor; cbn; lia. Qed.


Lemma restart_finds_config_witness :
  let st := @run_ops TestToml TestKeys TestUuid (demo_ops ++ [OpDarkMode true]) demo_store in
  @restart_store TestToml st = st.
Proof.
  apply (@restart_finds_config TestToml TestKeys TestUuid TestTomlLaws demo_ops (OpDarkMode true) demo_store);
    [reflexivity| |apply default_config_ok].
  apply Forall_app. split; [apply demo_ops_ok|by repeat constructor].
Defined.

Lemma first_start_defaults_witness :
  let start file := @init TestToml TestKeys TestUuid None None None None None demo_draws
                      (@restart_store TestToml (mkStore default_config file DiskOk)) in
  get_ipc_port (start None) = 0 ∧ get_language (start None) = ""%string ∧
  get_ipc_port (start (Some ""%string)) = 21114 ∧ get_language (start (Some ""%string)) = "zh"%string.
Proof. apply (@first_start_defaults TestToml TestKeys TestUuid). reflexivity. Defined.

Lemma start_keeps_identity_witness :
  let st1 := @init TestToml TestKeys TestUuid None None None None None demo_draws demo_store in
  let st2 := @init TestToml TestKeys TestUuid None None None None None (mkDraws 1 2 3 4) st1 in
  has_identity (CONFIG st1) ∧
  ((cc_sk (CONFIG demo_store) = ""%string ∨ cc_pk (CONFIG demo_store) = ""%string) →
   @get_key_pair TestKeys st1 =
     ((@gen_keypair TestKeys 3).2, (@gen_keypair TestKeys 3).1) ∧ get_key_confirmed st1 = false) ∧
  (get_id st2, cc_uuid (CONFIG st2), @get_key_pair TestKeys st2, get_key_confirmed st2) =
  (get_id st1, cc_uuid (CONFIG st1), @get_key_pair TestKeys st1, get_key_confirmed st1).
Proof.
  apply (@start_keeps_identity TestToml TestKeys TestUuid TestKeysLaws None None None None None demo_draws
    None None None None (mkDraws 1 2 3 4) demo_store).
  - intros b _. apply to_string_nonempty.
  - done.
Defined.

Lemma api_url_of_ipv6_witness :
  let st := mkStore (set_rendezvous_servers "[2001:db8::1]:21116" default_config) None DiskOk in
  get_api_url st = "http://[2001:8080"%string.
Proof.
  apply (api_url_of_ipv6 (mkStore (set_rendezvous_servers "[2001:db8::1]:21116" default_config) None DiskOk)
    "2001" "db8::1]:21116" []); reflexivity.
Defined.
