(* ===== verification/ClientIo.v ===== *)
(** * Interactive programs of the client

    The tasks of [nat-client] are asynchronous functions: between two of their
    awaits every other task may run.  A task is a [Programs.Prog] over the
    questions [Net]: read the configuration, dial, send a frame, wait for one,
    and so on.  A loop without a bound of its own takes fuel and says so when it
    is out. *)
From Stdlib Require Import Ascii.
From S2P Require Import Prelude Programs AddrMangle Text TextFacts HostText Proto RendezvousCodec Database Keys ClientConfig.
Local Open Scope Z_scope.

(** ** The state the tasks share, besides the configuration *)

(** The flags of [rendezvous_mediator.rs]. *)
Inductive Flag : Type := ONLINE | SHOULD_EXIT | MANUAL_RESTARTED | NAT_DETECTED.
#[export] Instance Flag_eq_dec : EqDecision Flag.
Proof. solve_decision. Defined.

(** [port_forward::ConnType] *)
Inductive TunnelType : Type := Direct | Relayed.
#[export] Instance TunnelType_eq_dec : EqDecision TunnelType.
Proof. solve_decision. Defined.

(** [close_tx] is the channel that ends the tunnel; it is known by its uuid. *)
Record ActiveConn : Type := mkActiveConn {
  ac_uuid : string;
  ac_conn_type : TunnelType;
  ac_peer_addr : string;
  ac_local_port : option Z;
  ac_bytes_sent : Z;
  ac_bytes_recv : Z;
  ac_created_at : Z;
}.

(** ** Questions *)

(** Framed connections ([Stream]), plain streams ([TcpStream]) and UDP sockets
    are known by numbers. *)
Inductive Recv : Type := Frame (b : bytes) | Ended | Broken | TimedOut.

Inductive Net : Type → Type :=
| GetStore : Net Store
| PutStore (f : Store → Store) : Net unit
| GetFlag (f : Flag) : Net bool
| SetFlag (f : Flag) (b : bool) : Net unit
| RegisterConn (c : ActiveConn) : Net unit
| RemoveConn (uuid : string) : Net unit
(** the clocks (seconds, microseconds; monotonic in nanoseconds), a random byte, a fresh uuid, the passing of time *)
| UnixNow : Net Z
| Micros : Net Z
| Clock : Net Instant
| RandomByte : Net Z
| NewUuid : Net string
| Sleep (ms : Z) : Net unit
| Over (ms : Z) : Net bool
(** [connect_tcp]: the connection and its local address; [connect_tcp_local] for
    the packet that opens a mapping *)
| ConnectTcp (addr : string) : Net (option (nat * SocketAddr))
| PunchSyn (peer from : SocketAddr) : Net unit
| SendBytes (c : nat) (b : bytes) : Net bool
| NextFrame (c : nat) (ms : option Z) : Net Recv
(** [select!] between the next frame and the timer ([None]) *)
| Select (c : nat) : Net (option Recv)
(** a task for every server, and all their ends *)
| RunServers (hosts : list string) : Net unit
(** [TcpListener] and [TcpStream] *)
| Bind (addr : string) : Net (option (nat * Z))
| Accept (l : nat) (ms : option Z) : Net (option nat)
| Dial (addr : string) (ms : option Z) : Net (result Failure nat)
| ReadExact (s n : nat) : Net (option bytes)
| WriteAll (s : nat) (b : bytes) : Net bool
(** [UdpSocket] *)
| BindUdp : Net (option nat)
| SendTo (u : nat) (b : bytes) (to : SocketAddr) : Net bool
| RecvFrom (u : nat) (ms : Z) : Net (option (bytes * SocketAddr))
(** a task that runs beside *)
| Spawn (t : SpawnedTask) : Net unit
(** the copying between a stream and a relay, between two streams, between a
    stream and a KCP tunnel, until either direction ends or [close] is called *)
| BridgeRelay (s c : nat) (close : option string) : Net unit
| BridgeStreams (a b : nat) (close : option string) : Net unit
| BridgeKcp (s k : nat) : Net unit
with SpawnedTask : Type :=
| T_detect_nat_type (host : string) (wire : Protocol)
| T_punch_hole (host : string) (wire : Protocol) (ph : PunchHole)
| T_request_relay (host : string) (wire : Protocol) (rr : RequestRelay)
| T_fetch_local_addr (host : string) (wire : Protocol) (fla : FetchLocalAddr)
| T_bridge (s c : nat)
| T_inbound (local_addr peer_addr : SocketAddr) (uuid target_host : string) (target_port : Z)
| T_relay (uuid : string) (peer_addr : SocketAddr) (c : nat) (target_host : string) (target_port : Z)
| T_outbound_direct (l : nat) (port : Z) (peer_addr : SocketAddr)
| T_outbound_relay (l : nat) (port : Z) (c : nat) (uuid : string)
| T_tunnel (a b : nat) (uuid : string)
| T_inbound_kcp (k : nat) (uuid target_host : string) (target_port : Z)
| T_outbound_kcp (l k : nat)
| T_kcp_driver (u : nat) (peer : SocketAddr).

(** The tasks a run started. *)
Definition spawned (tr : Trace Net) : list SpawnedTask :=
  omap (λ o, match o with obs (Spawn t) _ => Some t | _ => None end) tr.

Abbreviation IO := (Prog Net).
(** A fallible task. *)
Abbreviation Fallible A := (Prog Net (result Failure A)).

Definition store : IO Store := ask GetStore.
Definition config {A} (f : Store → A) : IO A := st ← store; mret (f st).

(** [conn.send_bytes] of a message in the wanted encoding, else of its proto3
    bytes ([conn.send]): the frame codec adds the header. *)
Definition send_rendezvous `{WireLib} (c : nat) (msg : RendezvousMessage) (wire : Protocol) : Fallible unit :=
  match wire_bytes msg wire with
  | Some b => ensure Io (ask (SendBytes c b))
  | None => mret (Err (Failed "serialize"))
  end.

(** The first bytes on a relay connection: the length of the uuid, cut to eight
    bits, and the uuid. *)
Definition uuid_handshake (uuid : string) : bytes :=
  let uuid_bytes := str_bytes uuid in wrap_u 8 (zlen uuid_bytes) :: uuid_bytes.

(** [env!("CARGO_PKG_VERSION")] *)
Definition CARGO_PKG_VERSION : string := "0.1.0".
Definition RENDEZVOUS_PORT : Z := 21116.
Definition CONNECT_TIMEOUT : Z := 18000.
Definition REG_INTERVAL : Z := 15000.

(** The [i]-th byte of a buffer that was filled. *)
Definition octet (b : bytes) (i : nat) : Z := default 0 (b !! i).

(** [SocketAddr]'s [Display] and [FromStr]; a scope is read and dropped. *)
Definition socket_addr_string (a : SocketAddr) : string :=
  if is_ipv4 (ip a) then ip_string (ip a) +:+ ":" +:+ to_string (port a)
  else "[" +:+ ip_string (ip a) +:+ "]:" +:+ to_string (port a).
Definition parse_port (s : string) : option Z := n ← digits s; within 0 65535 n.
Definition parse_v6_scoped (s : string) : option (list Z) :=
  match cut "%"%char s with
  | Some (a, scope) => n ← digits scope; within 0 (2 ^ 32 - 1) n;; parse_ipv6 a
  | None => parse_ipv6 s
  end.
Definition parse_socket_addr (s : string) : option SocketAddr :=
  match strip_prefix "[" s with
  | Some rest =>
    '(a, p) ← cut_str "]:" rest; o ← parse_v6_scoped a; n ← parse_port p; Some (mkAddr (IpV6 o) n)
  | None =>
    '(a, p) ← cut ":"%char s; o ← parse_ipv4 a; n ← parse_port p;
    match o with [a; b; c; d] => Some (mkAddr (IpV4 a b c d) n) | _ => None end
  end.
Example socket_addrs :
  parse_socket_addr "10.0.0.1:80" = Some (mkAddr (IpV4 10 0 0 1) 80) ∧
  parse_socket_addr "[::1%4]:80" = Some (mkAddr (IpV6 (replicate 15 0 ++ [1])) 80) ∧
  parse_socket_addr "10.0.0.1" = None ∧ parse_socket_addr "10.0.0.1:65536" = None ∧
  parse_socket_addr "example.com:80" = None ∧
  socket_addr_string (mkAddr (IpV6 (replicate 15 0 ++ [1])) 80) = "[::1]:80"%string.
Proof. vm_compute. done. Qed.
