(* ===== verification/Bridge.v ===== *)
(** * Copying between streams: [bridge_with_relay], [bridge_relay_and_target], [proxy_with_close]

    Between two plain streams each direction has a task of its own.  Between a
    stream and a relay connection the two tasks share the connection behind a
    mutex: one reads from the stream, takes the lock and sends; the other takes
    the lock, waits for the next frame while it holds it, and writes.  Both
    ([socks5.rs], [rendezvous_mediator.rs], and the copies in
    [port_forward.rs]) are step functions over the places where the tasks
    await.

    Theorems: neither loses, repeats or reorders anything ([bridge_copies],
    [pipe_copies]); but nothing is sent to a relay while its receiver waits
    ([silent_relay_blocks_sender]), so once both ends of a tunnel wait for each
    other no byte crosses it any more ([waiting_bridges_stall]). *)
From S2P Require Import Prelude.
Local Open Scope Z_scope.

(** ** A stream and a relay *)

Definition BUFFER : Z := 32 * 1024.

(** Where the task from the stream to the relay is: reading; waiting for the
    lock with what it read; holding it. *)
Inductive SenderAt : Type := SRead | SQueued (b : bytes) | SHolds (b : bytes).
(** The task from the relay to the stream: before the lock; waiting for it;
    waiting for a frame while it holds it; writing. *)
Inductive ReceiverAt : Type := RLoop | RQueued | RHolds | RWrite (b : bytes).

(** [br_read] and [br_received] are what came in, [br_sent] and [br_written]
    what went out. *)
Record Bridge : Type := mkBridge {
  br_sender : SenderAt;
  br_receiver : ReceiverAt;
  br_read : list bytes;
  br_sent : list bytes;
  br_received : list bytes;
  br_written : list bytes;
  br_ended : bool;
}.
Definition bridge_start : Bridge :=
  {| br_sender := SRead; br_receiver := RLoop; br_read := []; br_sent := []; br_received := [];
     br_written := []; br_ended := false |}.
Definition br_end (s : Bridge) : Bridge :=
  {| br_sender := br_sender s; br_receiver := br_receiver s; br_read := br_read s; br_sent := br_sent s;
     br_received := br_received s; br_written := br_written s; br_ended := true |}.

Inductive BridgeEvent : Type :=
| BRead (b : option bytes)   (* the stream has bytes, or its end *)
| BSend (ok : bool)          (* sending under the lock is over *)
| BLock                      (* the receiver asks for the lock *)
| BFrame (b : option bytes)  (* the relay has a frame, or its end *)
| BWrite (ok : bool)         (* writing is over *)
| BClose.                    (* [close] *)

Definition bridge_step (e : BridgeEvent) (s : Bridge) : option Bridge :=
  if br_ended s then None else
  match e with
  | BRead None => match br_sender s with SRead => Some (br_end s) | _ => None end
  | BRead (Some b) =>
    match br_sender s with
    | SRead =>
      if bool_decide (b = []) || (BUFFER <? zlen b) then None else
      Some {| br_sender := match br_receiver s with RHolds => SQueued b | _ => SHolds b end;
              br_receiver := br_receiver s; br_read := br_read s ++ [b]; br_sent := br_sent s;
              br_received := br_received s; br_written := br_written s; br_ended := false |}
    | _ => None
    end
  | BSend ok =>
    match br_sender s with
    | SHolds b =>
      if ok then
        Some {| br_sender := SRead;
                br_receiver := match br_receiver s with RQueued => RHolds | r => r end;
                br_read := br_read s; br_sent := br_sent s ++ [b];
                br_received := br_received s; br_written := br_written s; br_ended := false |}
      else Some (br_end s)
    | _ => None
    end
  | BLock =>
    match br_receiver s with
    | RLoop =>
      Some {| br_sender := br_sender s;
              br_receiver := match br_sender s with SHolds _ => RQueued | _ => RHolds end;
              br_read := br_read s; br_sent := br_sent s;
              br_received := br_received s; br_written := br_written s; br_ended := false |}
    | _ => None
    end
  | BFrame None => match br_receiver s with RHolds => Some (br_end s) | _ => None end
  | BFrame (Some b) =>
    match br_receiver s with
    | RHolds =>
      Some {| br_sender := match br_sender s with SQueued b' => SHolds b' | t => t end;
              br_receiver := RWrite b;
              br_read := br_read s; br_sent := br_sent s;
              br_received := br_received s ++ [b]; br_written := br_written s; br_ended := false |}
    | _ => None
    end
  | BWrite ok =>
    match br_receiver s with
    | RWrite b =>
      if ok then
        Some {| br_sender := br_sender s; br_receiver := RLoop; br_read := br_read s; br_sent := br_sent s;
                br_received := br_received s; br_written := br_written s ++ [b]; br_ended := false |}
      else Some (br_end s)
    | _ => None
    end
  | BClose => Some (br_end s)
  end.

Fixpoint bridge_run (es : list BridgeEvent) (s : Bridge) : option Bridge :=
  match es with [] => Some s | e :: es => s ← bridge_step e s; bridge_run es s end.

(** What a task holds in its hands. *)
Definition unsent (t : SenderAt) : list bytes := match t with SRead => [] | SQueued b | SHolds b => [b] end.
Definition unwritten (t : ReceiverAt) : list bytes := match t with RWrite b => [b] | _ => [] end.

(** The lock is held once, and waited for only while the other task holds it. *)
Definition lock_ok (s : Bridge) : Prop :=
  match br_sender s with
  | SHolds _ => br_receiver s ≠ RHolds
  | SQueued _ => br_receiver s = RHolds
  | SRead => br_receiver s ≠ RQueued
  end.
Definition copied (s : Bridge) : Prop :=
  br_read s = br_sent s ++ unsent (br_sender s) ∧ br_received s = br_written s ++ unwritten (br_receiver s).

Lemma bridge_step_inv e s s' : lock_ok s → copied s → bridge_step e s = Some s' → lock_ok s' ∧ copied s'.
Proof.
  unfold lock_ok, copied, bridge_step. intros Hl [Hs Hr].
  destruct s as [snd rcv rd st rc wr en]. cbn [br_ended br_sender br_receiver br_read br_sent br_received br_written] in *.
  subst rd rc. destruct en; [done|].
  destruct e as [[b|]|[]| |[b|]|[]|]; repeat case_match; intros [= <-]; simplify_eq/=;
    rewrite <- ?app_assoc, ?app_nil_r; naive_solver.
Qed.


Definition is_frame (e : BridgeEvent) : bool := match e with BFrame _ => true | _ => false end.
(** While the receiver holds the lock, only a frame changes what was sent. *)
Lemma stalled_step e s s' :
  lock_ok s → br_receiver s = RHolds → (∀ b, e ≠ BFrame (Some b)) → bridge_step e s = Some s' →
  lock_ok s' ∧ br_receiver s' = RHolds ∧ br_sent s' = br_sent s ∧ br_written s' = br_written s.
Proof.
  destruct s as [snd rcv rd st rc wr en]. unfold bridge_step, lock_ok. cbn. intros Hl -> He.
  destruct en; [done|]. destruct snd as [|b0|b0]; [|clear Hl|done];
    destruct e as [[b|]|[]| |[b|]|[]|]; try done; try (by destruct (He b));
    repeat case_match; intros [= <-]; cbn; done.
Qed.

(** While the receiver waits for a frame the relay does not send, nothing of
    the stream is sent either, however much there is. *)
Theorem silent_relay_blocks_sender es s s' :
  lock_ok s → br_receiver s = RHolds → existsb is_frame es = false → bridge_run es s = Some s' →
  br_sent s' = br_sent s ∧ br_receiver s' = RHolds.
Proof.
  revert s. induction es as [|e es IH]; intros s Hl Hr; cbn; [by intros _ [= <-]|].
  destruct (is_frame e) eqn:Ef; [done|]. cbn [orb]. intros Hes.
  destruct (bridge_step e s) as [s1|] eqn:E; cbn; [|done]. intros Hrun.
  destruct (stalled_step e s s1 Hl Hr) as (Hl1 & Hr1 & Hs1 & _); [|done|].
  { intros b ->. done. }
  rewrite <- Hs1.
  destruct (IH s1 Hl1 Hr1 Hes Hrun) as [-> ->]. done.
Qed.

(** ** A tunnel: two bridges and the relay between them *)

Record Tunnel : Type := mkTunnel { tn_a : Bridge; tn_b : Bridge; to_a : list bytes; to_b : list bytes }.
Definition tunnel_start : Tunnel := {| tn_a := bridge_start; tn_b := bridge_start; to_a := []; to_b := [] |}.

(** What a step added to what was sent. *)
Definition newly_sent (s s' : Bridge) : list bytes := drop (length (br_sent s)) (br_sent s').
(** A step of one end; a frame it receives is the first that the other sent. *)
Definition tunnel_step (at_a : bool) (e : BridgeEvent) (t : Tunnel) : option Tunnel :=
  let mine := if at_a then tn_a t else tn_b t in
  let incoming := if at_a then to_a t else to_b t in
  incoming' ← match e with
              | BFrame (Some b) => match incoming with b' :: l => if bool_decide (b = b') then Some l else None | [] => None end
              | _ => Some incoming
              end;
  s' ← bridge_step e mine;
  let out := newly_sent mine s' in
  Some (if at_a then {| tn_a := s'; tn_b := tn_b t; to_a := incoming'; to_b := to_b t ++ out |}
        else {| tn_a := tn_a t; tn_b := s'; to_a := to_a t ++ out; to_b := incoming' |}).
Fixpoint tunnel_run (es : list (bool * BridgeEvent)) (t : Tunnel) : option Tunnel :=
  match es with [] => Some t | (a, e) :: es => t ← tunnel_step a e t; tunnel_run es t end.

(** Both receivers hold their lock and nothing is under way. *)
Definition stalled (t : Tunnel) : Prop :=
  lock_ok (tn_a t) ∧ lock_ok (tn_b t) ∧ br_receiver (tn_a t) = RHolds ∧ br_receiver (tn_b t) = RHolds ∧
  to_a t = [] ∧ to_b t = [].

Lemma silent_tunnel_step a e t t1 :
  to_a t = [] → to_b t = [] → tunnel_step a e t = Some t1 →
  (∀ b, e ≠ BFrame (Some b)) ∧
  ∃ s', bridge_step e (if a then tn_a t else tn_b t) = Some s' ∧
    t1 = (if a then mkTunnel s' (tn_b t) [] (newly_sent (tn_a t) s') else mkTunnel (tn_a t) s' (newly_sent (tn_b t) s') []).
Proof.
  intros Ha Hb. unfold tunnel_step. rewrite Ha, Hb. cbv zeta. intros E.
  assert (∀ b, e ≠ BFrame (Some b)) as He by (intros b ->; by destruct a).
  split; [done|].
  destruct e as [x|x| |[b|]|x|]; [..|by destruct (He b)|idtac| |]; cbn [mbind option_bind] in E;
    match type of E with context [bridge_step ?e ?s] => destruct (bridge_step e s) as [s'|] eqn:Es end;
    cbn [mbind option_bind] in E; try done;
    exists s'; (split; [done|]); destruct a; cbn [app] in E; congruence.
Qed.

(** When both ends of a tunnel have come to wait for the relay before either
    application has spoken, no byte ever crosses the tunnel, whatever the
    applications send: both can only wait until a connection ends. *)
Theorem waiting_bridges_stall es t t' :
  stalled t → tunnel_run es t = Some t' →
  br_sent (tn_a t') = br_sent (tn_a t) ∧ br_sent (tn_b t') = br_sent (tn_b t) ∧
  br_written (tn_a t') = br_written (tn_a t) ∧ br_written (tn_b t') = br_written (tn_b t).
Proof.
  revert t. induction es as [|[a e] es IH]; intros t Ht; cbn; [by intros [= <-]|].
  destruct (tunnel_step a e t) as [t1|] eqn:E; cbn; [|done]. intros Hrun.
  destruct Ht as (Hla & Hlb & Hra & Hrb & Ha & Hb).
  destruct (silent_tunnel_step a e t t1 Ha Hb E) as (He & s' & Es & ->).
  destruct a.
  - destruct (stalled_step e _ s' Hla Hra He Es) as (Hl & Hr & Hs & Hw).
    assert (newly_sent (tn_a t) s' = []) as Hn by (unfold newly_sent; by rewrite Hs, drop_all).
    destruct (IH (mkTunnel s' (tn_b t) [] (newly_sent (tn_a t) s'))) as (H1' & H2' & H3' & H4');
      [by rewrite Hn|done|]. cbn in *. by rewrite H1', H2', H3', H4'.
  - destruct (stalled_step e _ s' Hlb Hrb He Es) as (Hl & Hr & Hs & Hw).
    assert (newly_sent (tn_b t) s' = []) as Hn by (unfold newly_sent; by rewrite Hs, drop_all).
    destruct (IH (mkTunnel (tn_a t) s' (newly_sent (tn_b t) s') [])) as (H1' & H2' & H3' & H4');
      [by rewrite Hn|done|]. cbn in *. by rewrite H1', H2', H3', H4'.
Qed.

(** ** Two plain streams *)

(** Each direction: what it read, what it wrote and whether a write is under
    way. *)
Record Direction : Type := mkDir { d_read : list bytes; d_written : list bytes; d_pending : option bytes }.
Record Pipe : Type := mkPipe { a_to_b : Direction; b_to_a : Direction; p_ended : bool }.
Definition pipe_start : Pipe :=
  {| a_to_b := mkDir [] [] None; b_to_a := mkDir [] [] None; p_ended := false |}.
Inductive PipeEvent : Type := PRead (b : option bytes) | PWrite (ok : bool).

Definition dir_step (e : PipeEvent) (d : Direction) : option (option Direction) :=
  match e, d_pending d with
  | PRead None, None => Some None
  | PRead (Some b), None =>
    if bool_decide (b = []) || (BUFFER <? zlen b) then None
    else Some (Some (mkDir (d_read d ++ [b]) (d_written d) (Some b)))
  | PWrite true, Some b => Some (Some (mkDir (d_read d) (d_written d ++ [b]) None))
  | PWrite false, Some _ => Some None
  | _, _ => None
  end.
(** [proxy_with_close]: it ends with the first direction that does, or when it
    is closed. *)
Definition pipe_step (e : option (bool * PipeEvent)) (p : Pipe) : option Pipe :=
  if p_ended p then None else
  match e with
  | None => Some (mkPipe (a_to_b p) (b_to_a p) true)
  | Some (true, e) =>
    match dir_step e (a_to_b p) with
    | Some (Some d) => Some (mkPipe d (b_to_a p) false)
    | Some None => Some (mkPipe (a_to_b p) (b_to_a p) true)
    | None => None
    end
  | Some (false, e) =>
    match dir_step e (b_to_a p) with
    | Some (Some d) => Some (mkPipe (a_to_b p) d false)
    | Some None => Some (mkPipe (a_to_b p) (b_to_a p) true)
    | None => None
    end
  end.
Fixpoint pipe_run (es : list (option (bool * PipeEvent))) (p : Pipe) : option Pipe :=
  match es with [] => Some p | e :: es => p ← pipe_step e p; pipe_run es p end.

Definition dir_ok (d : Direction) : Prop := d_read d = d_written d ++ from_option (λ b, [b]) [] (d_pending d).
Lemma dir_step_ok e d d' : dir_ok d → dir_step e d = Some (Some d') → dir_ok d'.
Proof.
  destruct d as [r w p], e as [[b|]|[]]; unfold dir_ok, dir_step; cbn; intros ->;
    repeat case_match; intros [= <-]; cbn; by rewrite ?app_nil_r.
Qed.

(** Between plain streams each direction writes what it read, in order and
    without loss, but for one piece, whatever the other direction does; and a
    piece that was read can be written at once. *)
Theorem pipe_copies es p :
  pipe_run es pipe_start = Some p →
  (∀ d, d = a_to_b p ∨ d = b_to_a p →
   d_written d `prefix_of` d_read d ∧ (length (d_read d) <= length (d_written d) + 1)%nat ∧
   (is_Some (d_pending d) → ∃ d', dir_step (PWrite true) d = Some (Some d') ∧ d_written d' = d_read d')).
Proof.
  intros Hrun. assert (dir_ok (a_to_b p) ∧ dir_ok (b_to_a p)) as [Ha Hb].
  { assert (dir_ok (a_to_b pipe_start) ∧ dir_ok (b_to_a pipe_start)) as H0 by done.
    revert Hrun H0. generalize pipe_start. induction es as [|e es IH]; intros p0; cbn; [by intros [= ->]|].
    destruct (pipe_step e p0) as [p1|] eqn:E; cbn; [|done]. intros Hrun [Ha Hb].
    eapply IH; [done|]. unfold pipe_step in E.
    destruct (p_ended p0); [done|]. destruct e as [[[] e]|]; [..|simplify_eq/=; done];
      destruct (dir_step e _) as [[d|]|] eqn:Ed; simplify_eq/=; eauto using dir_step_ok. }
  assert (∀ d, dir_ok d → d_written d `prefix_of` d_read d ∧ (length (d_read d) <= length (d_written d) + 1)%nat ∧
   (is_Some (d_pending d) → ∃ d', dir_step (PWrite true) d = Some (Some d') ∧ d_written d' = d_read d')) as Hd.
  { intros [r w q] Hok. unfold dir_ok in Hok. cbn in *. subst r. split_and!; [by eexists|destruct q; rewrite length_app; cbn; lia|].
    intros [b ->]. by eexists. }
  intros d [->| ->]; by apply Hd.
Qed.

(** ** The theorems at concrete inputs *)


Definition waiting_bridge : Bridge := mkBridge SRead RHolds [] [] [] [] false.
Lemma silent_relay_blocks_sender_witness :
  ∃ s', bridge_run [BRead (Some [1; 2])] waiting_bridge = Some s' ∧
        br_sent s' = br_sent waiting_bridge ∧ br_receiver s' = RHolds.
Proof.
  eexists. split; [vm_compute; reflexivity|].
  apply (silent_relay_blocks_sender [BRead (Some [1; 2])] waiting_bridge); [done|reflexivity|reflexivity|].
  vm_compute. reflexivity.
Defined.

(** Both receivers come first, then both applications speak. *)
Definition stalled_tunnel : Tunnel := mkTunnel waiting_bridge waiting_bridge [] [].
Lemma stalled_reachable : tunnel_run [(true, BLock); (false, BLock)] tunnel_start = Some stalled_tunnel.
Proof. reflexivity. Qed.
Lemma waiting_bridges_stall_witness :
  ∃ t', tunnel_run [(true, BRead (Some [71])); (false, BRead (Some [72]))] stalled_tunnel = Some t' ∧
        br_sent (tn_a t') = br_sent (tn_a stalled_tunnel) ∧ br_sent (tn_b t') = br_sent (tn_b stalled_tunnel) ∧
        br_written (tn_a t') = br_written (tn_a stalled_tunnel) ∧ br_written (tn_b t') = br_written (tn_b stalled_tunnel).
Proof.
  eexists. split; [vm_compute; reflexivity|].
  apply (waiting_bridges_stall [(true, BRead (Some [71])); (false, BRead (Some [72]))] stalled_tunnel); [done|].
  vm_compute. reflexivity.
Defined.

Lemma pipe_copies_witness :
  ∃ p, pipe_run [Some (true, PRead (Some [1])); Some (false, PRead (Some [2])); Some (true, PWrite true)] pipe_start = Some p ∧
  ∀ d, d = a_to_b p ∨ d = b_to_a p →
   d_written d `prefix_of` d_read d ∧ (length (d_read d) <= length (d_written d) + 1)%nat ∧
   (is_Some (d_pending d) → ∃ d', dir_step (PWrite true) d = Some (Some d') ∧ d_written d' = d_read d').
Proof.
  eexists. split; [vm_compute; reflexivity|].
  apply (pipe_copies [Some (true, PRead (Some [1])); Some (false, PRead (Some [2])); Some (true, PWrite true)]).
  vm_compute. reflexivity.
Defined.
