(* ===== verification/KcpTunnel.v ===== *)
(** * Tunnels over UDP: [nat-client/src/kcp_tunnel.rs]

    The port a server sees, the probes that open a mapping, and the handshake
    that starts a KCP session; a session is known by its socket.  The driver
    moves packets between the socket, the KCP state machine (the [kcp] crate,
    class [KcpLib]) and the channels of the application.  Theorems are in
    [KcpSpec]. *)
From S2P Require Import Prelude AddrMangle Text TextFacts Proto RendezvousCodec ClientConfig Programs ClientIo.
Local Open Scope Z_scope.

Definition CONNECT_MAGIC : bytes := 1 :: str_bytes "KCP_CONNECT".
Definition ACCEPT_MAGIC : bytes := 1 :: str_bytes "KCP_ACCEPT".
Definition PUNCH_MARKER : bytes := 0 :: str_bytes "PUNCH".
Definition PROBE_INTERVAL_MS : Z := 50.
Definition PROBE_COUNT : nat := 10.
Definition HANDSHAKE_TIMEOUT_MS : Z := 1500.

Section kcp.
Context `{WireLib}.

(** ** The port a server sees *)

(** Three tries; an error of sending or a datagram that does not parse ends
    them. *)
Fixpoint query_port_tries (tries : nat) (buf : bytes) (sock : nat) (hbbs_addr : SocketAddr) : IO (option Z) :=
  match tries with
  | O => mret None
  | S tries =>
    sent ← ask (SendTo sock buf hbbs_addr);
    if negb (sent : bool) then mret None else
    got ← ask (RecvFrom sock 500);
    match got with
    | None => query_port_tries tries buf sock hbbs_addr
    | Some (d, _) =>
      match proto3_read (take 1024 d) with
      | None => mret None
      | Some resp =>
        match union resp with
        | Some (U_TestNatResponse r) => mret (Some (wrap_u 16 (tnr_port r)))
        | _ => query_port_tries tries buf sock hbbs_addr
        end
      end
    end
  end.
Definition query_udp_public_port (sock : nat) (hbbs_addr : SocketAddr) : IO (option Z) :=
  match proto3_write (mk (U_TestNatRequest default_TestNatRequest)) with
  | None => mret None
  | Some buf => query_port_tries 3 buf sock hbbs_addr
  end.

Fixpoint repeat_io (n : nat) (p : IO unit) : IO unit :=
  match n with O => mret tt | S n => p;; repeat_io n p end.
Definition send_udp_probes (sock : nat) (peer : SocketAddr) : IO unit :=
  repeat_io PROBE_COUNT (ask (SendTo sock PUNCH_MARKER peer);; ask (Sleep PROBE_INTERVAL_MS)).

(** ** The handshake *)

(** What a datagram that answers within [ms] says: from [peer], exactly [magic],
    in a buffer of 256 bytes. *)
Definition recv_magic (sock : nat) (ms : Z) (peer : SocketAddr) (magic : bytes) : IO bool :=
  got ← ask (RecvFrom sock ms);
  mret (match got with
        | Some (d, src) => bool_decide (src = peer) && bool_decide (take 256 d = magic)
        | None => false
        end).

Fixpoint kcp_connect_loop (fuel : nat) (sock : nat) (peer : SocketAddr) (deadline : Instant) : IO (option nat) :=
  match fuel with
  | O => Stop OutOfFuel
  | S fuel =>
    now ← ask Clock;
    if deadline <? now then mret None else
    ask (SendTo sock CONNECT_MAGIC peer);;
    ok ← recv_magic sock 100 peer ACCEPT_MAGIC;
    if ok : bool then ask (Spawn (T_kcp_driver sock peer));; mret (Some sock)
    else kcp_connect_loop fuel sock peer deadline
  end.
Definition kcp_connect (fuel : nat) (sock : nat) (peer : SocketAddr) : IO (option nat) :=
  now ← ask Clock; kcp_connect_loop fuel sock peer (now + millis HANDSHAKE_TIMEOUT_MS).

Fixpoint kcp_accept_loop (fuel : nat) (sock : nat) (peer : SocketAddr) (deadline : Instant) : IO (option nat) :=
  match fuel with
  | O => Stop OutOfFuel
  | S fuel =>
    now ← ask Clock;
    if deadline <? now then mret None else
    ok ← recv_magic sock 200 peer CONNECT_MAGIC;
    if ok : bool then
      ask (SendTo sock ACCEPT_MAGIC peer);;
      ask (Spawn (T_kcp_driver sock peer));;
      mret (Some sock)
    else kcp_accept_loop fuel sock peer deadline
  end.
Definition kcp_accept (fuel : nat) (sock : nat) (peer : SocketAddr) : IO (option nat) :=
  now ← ask Clock; kcp_accept_loop fuel sock peer (now + millis HANDSHAKE_TIMEOUT_MS).
End kcp.

(** ** The driver *)

(** The state machine of the [kcp] crate: each call returns the new state and
    the packets it wrote to the output; [kcp_recv] takes the next message. *)
Class KcpLib (K : Type) : Type := {
  kcp_new : K;
  kcp_update : Z → K → K * list bytes;
  kcp_input : bytes → K → K * list bytes;
  kcp_send : bytes → K → K * list bytes;
  kcp_recv : K → option (bytes * K);
}.

Section driver.
Context {K : Type} `{!KcpLib K}.

(** The state machine, the packets that wait to be sent, those that were sent
    to [peer], and what was handed to the application. *)
Record Driver : Type := mkDriver {
  dv_kcp : K;
  dv_outq : list bytes;
  dv_sent : list bytes;
  dv_app : list bytes;
}.
Definition driver_start : Driver := {| dv_kcp := kcp_new; dv_outq := []; dv_sent := []; dv_app := [] |}.

(** What [select!] returns, at the time [now_ms]. *)
Inductive DriverEvent : Type :=
| DTick
| DPacket (p : bytes) (src : SocketAddr)
| DSend (d : bytes)
| DClosed.

Definition dv_apply (f : K → K * list bytes) (d : Driver) : Driver :=
  let '(k, out) := f (dv_kcp d) in
  {| dv_kcp := k; dv_outq := dv_outq d ++ out; dv_sent := dv_sent d; dv_app := dv_app d |}.
Definition flush_outq (d : Driver) : Driver :=
  {| dv_kcp := dv_kcp d; dv_outq := []; dv_sent := dv_sent d ++ dv_outq d; dv_app := dv_app d |}.
(** Every message that is complete, until [recv] has none. *)
Fixpoint recv_all (fuel : nat) (d : Driver) : option Driver :=
  match fuel with
  | O => None
  | S fuel =>
    match kcp_recv (dv_kcp d) with
    | None => Some d
    | Some (m, k) =>
      recv_all fuel {| dv_kcp := k; dv_outq := dv_outq d; dv_sent := dv_sent d; dv_app := dv_app d ++ [m] |}
    end
  end.

(** One round of [kcp_driver]: [None] is its end; [Some None] that [recv_all]
    needs more fuel. *)
Definition kcp_driver_step (fuel : nat) (peer : SocketAddr) (now_ms : Z) (e : DriverEvent) (d : Driver)
    : option (option Driver) :=
  match e with
  | DTick => Some (Some (flush_outq (dv_apply (kcp_update now_ms) d)))
  | DPacket p src =>
    Some (if negb (bool_decide (src = peer)) then Some d
          else if bool_decide (head p = Some 0) then Some d
          else flush_outq <$> recv_all fuel (dv_apply (kcp_update now_ms) (dv_apply (kcp_input p) d)))
  | DSend m => Some (Some (flush_outq (dv_apply (kcp_update now_ms) (dv_apply (kcp_send m) d))))
  | DClosed => None
  end.
End driver.
Arguments Driver K : clear implicits.
