(* ===== verification/PortForward.v ===== *)
(** * Tunnels and services: [nat-client/src/port_forward.rs]

    The table of active connections, the tasks that accept a peer or a local
    application and join the streams, the copying itself, and the scan of the
    services that listen on this machine.  Theorems are in [PortForwardSpec]. *)
From Stdlib Require Import Ascii.
From S2P Require Import Prelude AddrMangle Text TextFacts Proto RendezvousCodec Database Keys ClientConfig Programs ClientIo.
Local Open Scope Z_scope.

(** ** The table of connections *)

Definition ConnTable : Type := gmap string ActiveConn.
Definition register_conn (c : ActiveConn) : ConnTable → ConnTable := <[ac_uuid c := c]>.
Definition remove_conn (uuid : string) : ConnTable → ConnTable := delete uuid.
Definition get_active_connections (m : ConnTable) : list ActiveConn := (map_to_list m).*2.

(** The record of a tunnel that begins now. *)
Definition new_conn (uuid : string) (t : TunnelType) (peer_addr : string) (local_port : option Z) : IO unit :=
  now ← ask UnixNow;
  ask (RegisterConn {| ac_uuid := uuid; ac_conn_type := t; ac_peer_addr := peer_addr;
    ac_local_port := local_port; ac_bytes_sent := 0; ac_bytes_recv := 0; ac_created_at := now |}).

Definition host_port (host : string) (port : Z) : string := host +:+ ":" +:+ to_string port.

(** ** A peer connects to this machine *)

Definition register_inbound (local_addr peer_addr : SocketAddr) (uuid target_host : string) (target_port : Z) : IO unit :=
  ask (Spawn (T_inbound local_addr peer_addr uuid target_host target_port)).

Definition accept_inbound (local_addr peer_addr : SocketAddr) (uuid target_host : string) (target_port : Z)
    : Fallible unit :=
  listener ←? or_else Io (ask (Bind (socket_addr_string local_addr)));
  stream ←? or_else Elapsed (ask (Accept listener.1 (Some 30000)));
  new_conn uuid Direct (socket_addr_string peer_addr) (Some (port local_addr));;
  r ← ask (Dial (host_port target_host target_port) None);
  match r with
  | Ok local_svc => ask (BridgeStreams stream local_svc (Some uuid))
  | Err _ => mret tt
  end;;
  ask (RemoveConn uuid);;
  mret (Ok tt).

(** ** This machine connects to a peer *)

Definition create_outbound_direct (local_port : Z) (peer_addr : SocketAddr) : Fallible Z :=
  listener ←? or_else Io (ask (Bind (host_port "127.0.0.1" local_port)));
  ask (Spawn (T_outbound_direct listener.1 listener.2 peer_addr));;
  mret (Ok listener.2).

(** One application that connected to the port. *)
Definition outbound_direct_conn (local_stream : nat) (actual_port : Z) (peer_addr : SocketAddr) : IO unit :=
  uuid ← ask NewUuid;
  r ← ask (Dial (socket_addr_string peer_addr) None);
  match r with
  | Ok remote_stream =>
    new_conn uuid Direct (socket_addr_string peer_addr) (Some actual_port);;
    ask (Spawn (T_tunnel local_stream remote_stream uuid))
  | Err _ => mret tt
  end.
Fixpoint outbound_direct_loop (fuel : nat) (listener : nat) (actual_port : Z) (peer_addr : SocketAddr) : IO unit :=
  match fuel with
  | O => Stop OutOfFuel
  | S fuel =>
    a ← ask (Accept listener None);
    match a with
    | Some local_stream =>
      outbound_direct_conn local_stream actual_port peer_addr;;
      outbound_direct_loop fuel listener actual_port peer_addr
    | None => mret tt
    end
  end.
(** The task of one tunnel. *)
Definition tunnel (a b : nat) (uuid : string) : IO unit :=
  ask (BridgeStreams a b (Some uuid));; ask (RemoveConn uuid).

(** ** Relays *)

Definition register_relay (uuid : string) (peer_addr : SocketAddr) (relay_conn : nat)
    (target_host : string) (target_port : Z) : IO unit :=
  ask (Spawn (T_relay uuid peer_addr relay_conn target_host target_port)).

(** Frames are received and dropped until the connection ends. *)
Fixpoint drain (fuel : nat) (c : nat) : IO unit :=
  match fuel with
  | O => Stop OutOfFuel
  | S fuel =>
    r ← ask (NextFrame c None);
    match r with Frame _ => drain fuel c | _ => mret tt end
  end.

(** The task of [register_relay]. *)
Definition relay_task (fuel : nat) (uuid : string) (peer_addr : SocketAddr) (relay_conn : nat)
    (target_host : string) (target_port : Z) : IO unit :=
  sent ← ask (SendBytes relay_conn (uuid_handshake uuid));
  if negb (sent : bool) then mret tt
  else if target_port =? 0 then
    new_conn uuid Relayed (socket_addr_string peer_addr) None;;
    drain fuel relay_conn;;
    ask (RemoveConn uuid)
  else
    r ← ask (Dial (host_port target_host target_port) None);
    match r with
    | Err _ => mret tt
    | Ok local_svc =>
      new_conn uuid Relayed (socket_addr_string peer_addr) None;;
      ask (BridgeRelay local_svc relay_conn (Some uuid));;
      ask (RemoveConn uuid)
    end.

Definition create_outbound_relay (local_port : Z) (relay_conn : nat) (uuid : string) : Fallible Z :=
  do? ensure Io (ask (SendBytes relay_conn (uuid_handshake uuid)));
  listener ←? or_else Io (ask (Bind (host_port "127.0.0.1" local_port)));
  ask (Spawn (T_outbound_relay listener.1 listener.2 relay_conn uuid));;
  mret (Ok listener.2).
(** Its task: the first application, and no other. *)
Definition outbound_relay_task (listener : nat) (actual_port : Z) (relay_conn : nat) (uuid : string) : IO unit :=
  a ← ask (Accept listener None);
  match a with
  | Some local_stream =>
    new_conn uuid Relayed "relay" (Some actual_port);;
    ask (BridgeRelay local_stream relay_conn (Some uuid));;
    ask (RemoveConn uuid)
  | None => mret tt
  end.

(** ** KCP *)

Definition register_inbound_kcp (k : nat) (uuid target_host : string) (target_port : Z) : IO unit :=
  ask (Spawn (T_inbound_kcp k uuid target_host target_port)).
Definition inbound_kcp_task (k : nat) (target_host : string) (target_port : Z) : IO unit :=
  r ← ask (Dial (host_port target_host target_port) None);
  match r with
  | Ok stream => ask (BridgeKcp stream k)
  | Err _ => mret tt
  end.
Definition create_outbound_kcp (local_port : Z) (k : nat) : Fallible Z :=
  listener ←? or_else Io (ask (Bind (host_port "127.0.0.1" local_port)));
  ask (Spawn (T_outbound_kcp listener.1 k));;
  mret (Ok listener.2).
Definition outbound_kcp_task (listener k : nat) : IO unit :=
  a ← ask (Accept listener None);
  match a with
  | Some stream => ask (BridgeKcp stream k)
  | None => mret tt
  end.

(** ** Services of this machine *)

Record ServiceInfo : Type := mkServiceInfo {
  sv_port : Z;
  sv_name : string;
  sv_target : string;
  sv_bind_addr : string;
  sv_pid : option Z;
  sv_process_name : string;
}.

Definition WELL_KNOWN : list (Z * string) :=
  [(21, "FTP"); (22, "SSH"); (23, "Telnet"); (25, "SMTP"); (53, "DNS"); (80, "HTTP"); (110, "POP3");
   (143, "IMAP"); (443, "HTTPS"); (1433, "MSSQL"); (1521, "Oracle"); (3306, "MySQL"); (3389, "RDP");
   (5432, "PostgreSQL"); (5900, "VNC"); (6379, "Redis"); (8080, "HTTP-Alt"); (8443, "HTTPS-Alt");
   (8888, "Jupyter"); (9200, "Elasticsearch"); (27017, "MongoDB"); (5000, "HTTP-Dev"); (8000, "HTTP-Dev");
   (4000, "HTTP-Dev"); (9000, "HTTP-Dev")]%string.
Definition well_known_name (port : Z) : string :=
  default ""%string (snd <$> List.find (λ e, e.1 =? port) WELL_KNOWN).

(** [sort_by_key], which keeps the order of equal keys, and [dedup_by_key],
    which keeps the first of neighbours with equal keys. *)
Fixpoint insert_by {A} (key : A → Z) (x : A) (l : list A) : list A :=
  match l with
  | [] => [x]
  | y :: l' => if key x <=? key y then x :: l else y :: insert_by key x l'
  end.
Definition sort_by_key {A} (key : A → Z) (l : list A) : list A := foldr (insert_by key) [] l.
Fixpoint dedup_from {A} (key : A → Z) (x : A) (l : list A) : list A :=
  match l with
  | [] => []
  | y :: l => if key y =? key x then dedup_from key x l else y :: dedup_from key y l
  end.
Definition dedup_by_key {A} (key : A → Z) (l : list A) : list A :=
  match l with [] => [] | x :: l => x :: dedup_from key x l end.

(** [scan_local_services]: of the known ports those that answer within the
    time. *)
Definition PORTS : list Z :=
  [21; 22; 23; 80; 443; 1433; 3306; 3389; 5432; 5900; 6379; 8080; 8443; 8888; 9200; 27017; 5000; 8000; 4000; 9000].
Definition scan_local_services (answers : Z → bool) : list ServiceInfo :=
  sort_by_key sv_port
    ((λ p, {| sv_port := p; sv_name := well_known_name p; sv_target := host_port "127.0.0.1" p;
              sv_bind_addr := ""; sv_pid := None; sv_process_name := "" |})
     <$> filter (λ p, answers p = true) PORTS).

(** ** Linux *)

(** Pieces of [n] characters, the last one shorter. *)
Fixpoint chunks_fuel (fuel n : nat) (s : string) : list string :=
  match fuel, s with
  | S fuel, String _ _ => String.substring 0 n s :: chunks_fuel fuel n (String.substring n (String.length s - n) s)
  | _, _ => []
  end.
Definition chunks (n : nat) (s : string) : list string := chunks_fuel (String.length s) n s.

Definition v6_group (val : Z) : string :=
  match le_bytes 4 val with
  | [a; b; c; d] => hex2 a +:+ hex2 b +:+ ":" +:+ hex2 c +:+ hex2 d
  | _ => ""
  end.
Definition parse_proc_net_addr (s : string) (is_v6 : bool) : string * Z :=
  match split_on ":" s with
  | [hex; p] =>
    let port := default 0 (parse_hex 65535 p) in
    let ip :=
      if is_v6 then
        if (String.length hex =? 32)%nat then
          "[" +:+ join ":" (v6_group <$> omap (parse_hex (2 ^ 32 - 1)) (chunks 8 hex)) +:+ "]"
        else ""%string
      else match parse_hex (2 ^ 32 - 1) hex with
           | Some v => join "." (to_string <$> le_bytes 4 v)
           | None => ""%string
           end in
    (ip, port)
  | _ => (""%string, 0)
  end.

(** One line of [/proc/net/tcp] or [tcp6] after the first; [comm] is the text of
    [/proc/<pid>/comm]. *)
Definition service (port : Z) (bind_addr : string) (pid : option Z) (process_name : string) : ServiceInfo :=
  {| sv_port := port; sv_name := well_known_name port; sv_target := host_port "127.0.0.1" port;
     sv_bind_addr := bind_addr; sv_pid := pid; sv_process_name := process_name |}.
Definition proc_line (is_v6 : bool) (inode_pid : gmap Z Z) (comm : Z → option string) (line : string) : option ServiceInfo :=
  let cols := split_whitespace line in
  if (length cols <? 10)%nat then None
  else if negb (bool_decide (cols !! 3%nat = Some "0A"%string)) then None
  else
    let '(bind_ip, port) := parse_proc_net_addr (default ""%string (cols !! 1%nat)) is_v6 in
    if port =? 0 then None
    else
      let inode := default 0 (parse_u64 (default ""%string (cols !! 9%nat))) in
      let pid := inode_pid !! inode in
      Some (service port bind_ip pid (default ""%string (trim <$> (pid ≫= comm)))).
Definition proc_file (is_v6 : bool) (inode_pid : gmap Z Z) (comm : Z → option string) (content : option string)
    : list ServiceInfo :=
  match content with
  | Some c => omap (proc_line is_v6 inode_pid comm) (drop 1 (lines c))
  | None => []
  end.
Definition scan_full_linux (inode_pid : gmap Z Z) (comm : Z → option string) (tcp tcp6 : option string)
    : list ServiceInfo :=
  dedup_by_key sv_port (sort_by_key sv_port
    (proc_file false inode_pid comm tcp ++ proc_file true inode_pid comm tcp6)).

(** [build_inode_pid_map]: of the entries of [/proc] that are numbers, the
    targets of the links in [fd]; the first process of a socket counts. *)
Definition socket_inode (target : string) : option Z :=
  rest ← strip_prefix "socket:[" target;
  '(inner, last) ← rcut "]" rest;
  if bool_decide (last = ""%string) then parse_u64 inner else None.
Definition add_inodes (pid : Z) (fds : list string) (m : gmap Z Z) : gmap Z Z :=
  foldl (λ m t, match socket_inode t with
                | Some i => match m !! i with None => <[i := pid]> m | Some _ => m end
                | None => m
                end) m fds.
Definition build_inode_pid_map (proc : list (string * option (list string))) : gmap Z Z :=
  foldl (λ m e, match parse_u32 e.1, e.2 with Some pid, Some fds => add_inodes pid fds m | _, _ => m end) ∅ proc.

(** ** Windows and macOS *)

Definition quote : ascii := chr 34.
Fixpoint trim_start_char (c : ascii) (s : string) : string :=
  match s with String a r => if bool_decide (a = c) then trim_start_char c r else s | EmptyString => ""%string end.
Definition trim_char (c : ascii) (s : string) : string := trim_end_char c (trim_start_char c s).

(** A line of [netstat -ano]: port, address and process of a listening socket. *)
Definition netstat_line (line : string) : option (Z * string * Z) :=
  match split_whitespace line with
  | c0 :: local :: _ :: state :: p :: _ =>
    if negb (bool_decide (c0 = "TCP"%string)) then None
    else if negb (bool_decide (to_uppercase state = "LISTENING"%string)) then None
    else
      let pid := default 0 (parse_u32 p) in
      '(bind_addr, port) ←
        (if starts_with "[" local then
           '(a, rest) ← rcut "]" local;
           let port_str := match rest with String _ r => r | EmptyString => "0"%string end in
           Some (a +:+ "]", default 0 (parse_u16 port_str))
         else '(a, p) ← rcut ":" local; Some (a, default 0 (parse_u16 p)));
      if port =? 0 then None else Some (port, bind_addr, pid)
  | _ => None
  end.
(** The names of [tasklist /fo csv /nh]. *)
Definition tasklist_line (m : gmap Z string) (line : string) : gmap Z string :=
  match split_on "," line with
  | a :: b :: _ =>
    let name := trim_char quote a in
    let pid := default 0 (parse_u32 (trim_char quote b)) in
    if pid =? 0 then m else <[pid := name]> m
  | _ => m
  end.
Definition scan_full_windows (netstat : string) (tasklist : option string) : list ServiceInfo :=
  let pid_name := match tasklist with Some t => foldl tasklist_line ∅ (lines t) | None => ∅ end in
  dedup_by_key sv_port (sort_by_key sv_port
    ((λ e : Z * string * Z, let '(port, bind_addr, pid) := e in
        service port bind_addr (Some pid) (default ""%string (pid_name !! pid)))
     <$> omap netstat_line (lines netstat))).

(** [trim_end_matches] of a text. *)
Fixpoint trim_end_str_fuel (fuel : nat) (p s : string) : string :=
  match fuel with
  | O => s
  | S fuel =>
    let n := (String.length s - String.length p)%nat in
    if (String.length p <=? String.length s)%nat && bool_decide (String.substring n (String.length p) s = p)
    then trim_end_str_fuel fuel p (String.substring 0 n s) else s
  end.
Definition trim_end_matches (p s : string) : string := trim_end_str_fuel (String.length s) p s.
(** A line of [lsof -i TCP -s TCP:LISTEN -P -n]. *)
Definition lsof_line (line : string) : option ServiceInfo :=
  let cols := split_whitespace line in
  if (length cols <? 9)%nat then None else
  let process_name := default ""%string (cols !! 0%nat) in
  let pid := default 0 (parse_u32 (default ""%string (cols !! 1%nat))) in
  let addr_part := trim_end_matches " (LISTEN)" (default ""%string (cols !! 8%nat)) in
  '(host, p) ← rcut ":" addr_part;
  let port := default 0 (parse_u16 p) in
  let bind_addr := if bool_decide (host = "*"%string) then "0.0.0.0"%string else host in
  if port =? 0 then None else Some (service port bind_addr (Some pid) process_name).
Definition scan_full_macos (lsof : string) : list ServiceInfo :=
  dedup_by_key sv_port (sort_by_key sv_port (omap lsof_line (drop 1 (lines lsof)))).

Example proc_addrs :
  parse_proc_net_addr "0100007F:0016" false = ("127.0.0.1"%string, 22) ∧
  parse_proc_net_addr "00000000000000000000000001000000:1F90" true
  = ("[0000:0000:0000:0000:0000:0000:0000:0001]"%string, 8080) ∧
  parse_proc_net_addr "0100007F" false = (""%string, 0).
Proof. vm_compute. done. Qed.
