(* ===== verification/Socks5.v ===== *)
(** * The proxy server: [nat-client/src/socks5.rs]

    SOCKS5 (RFC 1928) and HTTP CONNECT on a local port: [handle_client] tells the
    two apart, reads the target, asks for a relay to the exit node under a uuid
    that carries the target, and joins the two streams.  The exit node reads
    the target back ([Mediator.handle_proxy_relay]).  Theorems are in
    [Socks5Spec]. *)
From Stdlib Require Import Ascii.
From S2P Require Import Prelude AddrMangle Text TextFacts HostText Proto RendezvousCodec BytesCodec Database Keys ClientConfig Programs ClientIo.
Local Open Scope Z_scope.

(** base64's [URL_SAFE_NO_PAD] engine. *)
Class UrlBase64 : Type := {
  url_encode : bytes → string;
  url_decode : string → option bytes;
}.
(** It decodes what it encodes, and its alphabet is of letters, digits, [-] and
    [_]. *)
Definition url_char (c : ascii) : bool :=
  digit_char c || ((65 <=? code c) && (code c <=? 90)) || ((97 <=? code c) && (code c <=? 122))
  || (code c =? 45) || (code c =? 95).
Class UrlBase64Laws `{UrlBase64} : Prop := {
  url_roundtrip b : url_decode (url_encode b) = Some b;
  url_alphabet b : all_chars url_char (url_encode b) = true;
}.

Section socks5.
Context `{WireLib} `{UrlBase64}.

(** ** A relay to the target *)

Definition proxy_uuid (target_host : string) (target_port : Z) (hex8 : string) : string :=
  "proxy:" +:+ url_encode (str_bytes (target_host +:+ ":" +:+ to_string target_port)) +:+ ":" +:+ hex8.

(** Four random bytes in hexadecimal. *)
Fixpoint random_hex (n : nat) : IO string :=
  match n with
  | O => mret ""%string
  | S n => b ← ask RandomByte; s ← random_hex n; mret (hex2 b +:+ s)
  end.

Definition connect_via_relay (exit_peer target_host : string) (target_port : Z) : Fallible nat :=
  hex8 ← random_hex 4;
  let uuid := proxy_uuid target_host target_port hex8 in
  servers ← config get_rendezvous_servers;
  match servers with
  | [] => mret (Err (Failed "no rendezvous server"))
  | server :: _ =>
    let hbbs_addr := check_port server RENDEZVOUS_PORT in
    relay_cfg ← config ClientConfig.get_relay_server;
    let relay_server := if bool_decide (relay_cfg = ""%string) then increase_port server 1 else relay_cfg in
    wire ← config get_rendezvous_wire_protocol;
    hbbs ←? or_else Io (ask (ConnectTcp hbbs_addr));
    do? send_rendezvous hbbs.1 (mk (U_RelayResponse
      {| rlr_socket_addr := []; rlr_uuid := uuid; rlr_relay_server := relay_server;
         rlr_union := Some (RlrId exit_peer); rlr_refuse_reason := ""; rlr_version := CARGO_PKG_VERSION;
         rlr_feedback := 0; rlr_socket_addr_v6 := []; rlr_upnp_port := 0 |})) wire;
    relay ←? or_else Io (ask (ConnectTcp (check_port relay_server (RENDEZVOUS_PORT + 1))));
    do? ensure Io (ask (SendBytes relay.1 (uuid_handshake uuid)));
    mret (Ok relay.1)
  end.

(** ** SOCKS5 *)

Definition read_exact (s n : nat) : Fallible bytes := or_else Eof (ask (ReadExact s n)).
Definition write_all (s : nat) (b : bytes) : Fallible unit := ensure Io (ask (WriteAll s b)).

(** [{:02x}{:02x}] of each two bytes, separated by colons. *)
Fixpoint hex_groups (l : bytes) : list string :=
  match l with
  | a :: b :: l => (hex2 a +:+ hex2 b) :: hex_groups l
  | _ => []
  end.
Definition dotted (l : bytes) : string := join "." (to_string <$> l).

Definition parse_socks5_addr (s : nat) (atyp : Z) : Fallible (string * Z) :=
  host ←?
    (if atyp =? 1 then
       ip ←? read_exact s 4; mret (Ok (dotted ip))
     else if atyp =? 3 then
       len ←? read_exact s 1;
       domain ←? read_exact s (Z.to_nat (octet len 0));
       mret (match from_utf8 domain with Some h => Ok h | None => Err (Failed "domain") end)
     else if atyp =? 4 then
       ip ←? read_exact s 16; mret (Ok (join ":" (hex_groups ip)))
     else mret (Err (Failed "address type")));
  port_bytes ←? read_exact s 2;
  mret (Ok (host, octet port_bytes 0 * 256 + octet port_bytes 1)).

(** A reply without an address. *)
Definition socks_reply (code : Z) : bytes := [5; code; 0; 1; 0; 0; 0; 0; 0; 0].

Definition handle_socks5 (s : nat) (exit_peer : string) : Fallible unit :=
  nmethods ←? read_exact s 1;
  methods ←? read_exact s (Z.to_nat (octet nmethods 0));
  do? write_all s [5; 0];
  req_header ←? read_exact s 4;
  if negb (octet req_header 0 =? 5) then mret (Err (Failed "version"))
  else if negb (octet req_header 1 =? 1) then
    do? write_all s (socks_reply 7);
    mret (Err (Failed "command"))
  else
    target ←? parse_socks5_addr s (octet req_header 3);
    r ← connect_via_relay exit_peer target.1 target.2;
    match r with
    | Ok relay_conn =>
      do? write_all s (socks_reply 0);
      ask (BridgeRelay s relay_conn None);;
      mret (Ok tt)
    | Err e =>
      ask (WriteAll s (socks_reply 5));;
      mret (Err e)
    end.

(** ** HTTP CONNECT *)

(** [first_line[..first_line.len().min(20)]] panics inside a character. *)
Definition cut_panics (s : string) : bool :=
  match str_bytes s !! 20%nat with Some b => (128 <=? b) && (b <? 192) | None => false end.

(** Read until the last four bytes are the end of the headers. *)
Fixpoint absorb_headers (fuel : nat) (s : nat) (tail : bytes) : Fallible unit :=
  match fuel with
  | O => Stop OutOfFuel
  | S fuel =>
    b ←? read_exact s 1;
    let tail := drop 1 tail ++ [octet b 0] in
    if bool_decide (tail = [13; 10; 13; 10]) then mret (Ok tt) else absorb_headers fuel s tail
  end.

Definition connect_target (first_line : string) : option (string * Z) :=
  match splitn3 " " first_line with
  | _ :: host_port :: _ =>
    Some (match rcut ":" host_port with
          | Some (h, p) => (h, default 80 (parse_u16 p))
          | None => (host_port, 80)
          end)
  | _ => None
  end.

Definition http_ok : bytes :=
  str_bytes ("HTTP/1.1 200 Connection established" +:+ bytes_str [13; 10; 13; 10]).
Definition http_bad_gateway : bytes :=
  str_bytes ("HTTP/1.1 502 Bad Gateway" +:+ bytes_str [13; 10; 13; 10]).

Definition handle_http_connect (fuel s : nat) (exit_peer first_line : string) : Fallible unit :=
  let first_line := trim_end first_line in
  if negb (starts_with "CONNECT " (to_uppercase first_line)) then
    if cut_panics first_line then Stop Panicked else mret (Err (Failed "method"))
  else
    do? absorb_headers fuel s [0; 0; 0; 0];
    match connect_target first_line with
    | None => mret (Err (Failed "format"))
    | Some (host, port) =>
      r ← connect_via_relay exit_peer host port;
      match r with
      | Ok relay_conn =>
        do? write_all s http_ok;
        ask (BridgeRelay s relay_conn None);;
        mret (Ok tt)
      | Err e =>
        ask (WriteAll s http_bad_gateway);;
        mret (Err e)
      end
    end.

(** ** A connection *)

Definition MAX_LINE : nat := Z.to_nat 8192.
Definition ends_crlf (line : bytes) : bool :=
  match rev line with 10 :: 13 :: _ => true | _ => false end.

(** The rest of the first line; its length bounds the reading. *)
Fixpoint read_line (fuel : nat) (s : nat) (line : bytes) : Fallible bytes :=
  match fuel with
  | O => Stop OutOfFuel
  | S fuel =>
    b ←? read_exact s 1;
    let line := line ++ [octet b 0] in
    if ends_crlf line then mret (Ok line)
    else if (MAX_LINE <? length line)%nat then mret (Err (Failed "request line"))
    else read_line fuel s line
  end.

Definition handle_client (fuel s : nat) (exit_peer : string) : Fallible unit :=
  first ←? read_exact s 1;
  if octet first 0 =? 5 then handle_socks5 s exit_peer
  else
    line ←? read_line MAX_LINE s first;
    handle_http_connect fuel s exit_peer (from_utf8_lossy line).

(** [start_proxy_server]: a task for every connection that is accepted. *)
Definition proxy_addr (port : Z) : string := "127.0.0.1:" +:+ to_string port.
End socks5.
