(* ===== verification/Lan.v ===== *)
(** * Discovery of machines on the local network: [nat-client/src/lan.rs]

    A client listens on UDP port 21119 and answers every ping that is not its
    own with a pong; to discover others it broadcasts a ping from every
    interface and collects the pongs for three seconds, a thread for each
    socket.  What was found is kept in [DISCOVERED_PEERS].  Theorems are in
    [LanSpec]. *)
From Stdlib Require Import Ascii.
From stdpp Require Import sorting.
From S2P Require Import Prelude AddrMangle Text TextFacts HostText Proto RendezvousCodec Database Keys ClientConfig Programs ClientIo.
Local Open Scope Z_scope.

Record DiscoveredPeer : Type := mkDiscoveredPeer {
  dp_id : string;
  dp_ip : string;
  dp_mac : string;
  dp_hostname : string;
  dp_username : string;
  dp_platform : string;
  dp_online : bool;
  dp_last_seen : option Instant;
}.
Abbreviation PeerTable := (gmap string DiscoveredPeer).

(** [Bind] of an address with its port, a read timeout, sending, receiving
    within the timeout of the socket; [whoami]; [Probe] is the local address of
    a UDP socket connected to a peer; [Resolve] gives the IPv4 addresses of the
    own name; [Turn] says which of the threads runs next. *)
Inductive LanIo : Type → Type :=
| LStore : LanIo Store
| LPeers : LanIo PeerTable
| LPutPeers (f : PeerTable → PeerTable) : LanIo unit
| LClock : LanIo Instant
| LBind (a : IpAddr) (port : Z) (broadcast : bool) : LanIo (option nat)
| LReadTimeout (s : nat) (ms : Z) : LanIo bool
| LSend (s : nat) (b : bytes) (to : SocketAddr) : LanIo bool
| LRecv (s : nat) : LanIo (option (bytes * SocketAddr))
| LProbe (peer : SocketAddr) : LanIo (option IpAddr)
| LHostname : LanIo (option string)
| LUsername : LanIo string
| LPlatform : LanIo string
| LResolve (name : string) : LanIo (option (list IpAddr))
| LTurn (threads : nat) : LanIo nat.
Abbreviation LProg A := (Prog LanIo A).

(** ** The table *)

(** [upsert_peer] *)
Definition upsert_peer (peer : DiscoveredPeer) (now : Instant) : PeerTable → PeerTable :=
  λ m, <[dp_id peer := {| dp_id := default (dp_id peer) (dp_id <$> m !! dp_id peer);
                          dp_ip := dp_ip peer; dp_mac := dp_mac peer; dp_hostname := dp_hostname peer;
                          dp_username := dp_username peer; dp_platform := dp_platform peer;
                          dp_online := true; dp_last_seen := Some now |}]> m.

(** What is older than 60 whole seconds counts as away. *)
Definition mark_offline (now : Instant) (p : DiscoveredPeer) : DiscoveredPeer :=
  match dp_last_seen p with
  | Some t =>
    if 60 <? Z.max 0 (now - t) / 10 ^ 9 then
      {| dp_id := dp_id p; dp_ip := dp_ip p; dp_mac := dp_mac p; dp_hostname := dp_hostname p;
         dp_username := dp_username p; dp_platform := dp_platform p; dp_online := false;
         dp_last_seen := dp_last_seen p |}
    else p
  | None => p
  end.
Definition id_le (a b : DiscoveredPeer) : Prop := String.leb (dp_id a) (dp_id b) = true.
#[export] Instance id_le_dec : RelDecision id_le.
Proof. intros a b. unfold id_le. apply _. Defined.
(** [get_peers] of a table at a time. *)
Definition peers_at (now : Instant) (m : PeerTable) : list DiscoveredPeer :=
  merge_sort id_le (mark_offline now <$> (map_to_list m).*2).
Definition get_peers : LProg (list DiscoveredPeer) := m ← ask LPeers; now ← ask LClock; mret (peers_at now m).

Section lan.
Context `{WireLib}.

Definition broadcast_port : Z := (RENDEZVOUS_PORT + 3) mod 2 ^ 16.
Definition serialize_lan_message (msg : RendezvousMessage) (wire : Protocol) : bytes := default [] (wire_bytes msg wire).
Definition discovery (cmd id hostname username platform mac : string) : RendezvousMessage :=
  mk (U_PeerDiscovery {| pd_cmd := cmd; pd_mac := mac; pd_id := id; pd_username := username;
                         pd_hostname := hostname; pd_platform := platform; pd_misc := "" |}).

(** ** The listener *)

Definition get_local_mac (peer : SocketAddr) : LProg string := a ← ask (LProbe peer); mret (default "" (ip_string <$> a)).
Definition known_name (hostname : option string) : string :=
  let hostname := default "unknown"%string hostname in
  if String.eqb hostname "localhost" then "unknown" else hostname.

(** The body of its loop, with a datagram. *)
Definition answer_datagram (socket : nat) (buf : bytes) (from_addr : SocketAddr) : LProg unit :=
  let reply_proto := detect buf in
  match parse buf with
  | Some {| union := Some (U_PeerDiscovery p) |} =>
    if negb (String.eqb (pd_cmd p) "ping") then mret tt else
    st ← ask LStore;
    let my_id := get_id st in
    if String.eqb (pd_id p) my_id then mret tt else
    hostname ← ask LHostname; username ← ask LUsername; platform ← ask LPlatform; mac ← get_local_mac from_addr;
    let bytes := serialize_lan_message (discovery "pong" my_id (known_name hostname) username platform mac) reply_proto in
    match bytes with
    | [] => mret tt
    | _ => ask (LSend socket bytes from_addr);; mret tt
    end
  | _ => mret tt
  end.
(** A buffer takes 2048 bytes of a datagram. *)
Definition recv_from (socket : nat) : LProg (option (bytes * SocketAddr)) :=
  r ← ask (LRecv socket); mret (match r with Some (buf, from_addr) => Some (take 2048 buf, from_addr) | None => None end).
Fixpoint listen_loop (fuel : nat) (socket : nat) : LProg unit :=
  match fuel with
  | O => Stop OutOfFuel
  | S fuel =>
    r ← recv_from socket;
    match r with
    | Some (buf, from_addr) => answer_datagram socket buf from_addr;; listen_loop fuel socket
    | None => listen_loop fuel socket
    end
  end.
Definition start_listening (fuel : nat) : LProg (result Failure unit) :=
  s ← ask (LBind (IpV4 0 0 0 0) broadcast_port false);
  match s with
  | None => mret (Err Io)
  | Some socket =>
    ok ← ask (LReadTimeout socket 1000);
    if negb ok then mret (Err Io) else listen_loop fuel socket;; mret (Ok tt)
  end.

(** ** Discovery *)

(** A pong of another machine. *)
Definition take_pong (my_id : string) (buf : bytes) (from_addr : SocketAddr) (now : Instant) : option DiscoveredPeer :=
  match parse buf with
  | Some {| union := Some (U_PeerDiscovery p) |} =>
    if negb (String.eqb (pd_cmd p) "pong") || String.eqb (pd_id p) my_id then None
    else Some {| dp_id := pd_id p; dp_ip := ip_string (ip from_addr); dp_mac := pd_mac p; dp_hostname := pd_hostname p;
                 dp_username := pd_username p; dp_platform := pd_platform p; dp_online := true;
                 dp_last_seen := Some now |}
  | _ => None
  end.

(** [collect_responses]: what comes before the loop, and one turn of it: [None]
    when the time is over, else what was pushed. *)
Definition COLLECT_NS : Z := 3 * 10 ^ 9.
Definition collect_start (socket : nat) : LProg (option Instant) :=
  ok ← ask (LReadTimeout socket 50);
  if negb ok then mret None else now ← ask LClock; mret (Some (now + COLLECT_NS)).
Definition collect_turn (socket : nat) (deadline : Instant) (my_id : string) : LProg (option (list DiscoveredPeer)) :=
  now ← ask LClock;
  if deadline <=? now then mret None else
  r ← recv_from socket;
  match r with
  | None => mret (Some [])
  | Some (buf, from_addr) => now ← ask LClock; mret (Some (option_list (take_pong my_id buf from_addr now)))
  end.

(** The threads, each at a turn of its loop, and what they have pushed. *)
Fixpoint gather (fuel : nat) (my_id : string) (live : list (nat * Instant)) (out : list DiscoveredPeer)
    : LProg (list DiscoveredPeer) :=
  match live with
  | [] => mret out
  | first :: _ =>
    match fuel with
    | O => Stop OutOfFuel
    | S fuel =>
      i ← ask (LTurn (length live));
      let i := Nat.modulo i (length live) in
      let '(socket, deadline) := default first (live !! i) in
      r ← collect_turn socket deadline my_id;
      match r with
      | None => gather fuel my_id (take i live ++ drop (S i) live) out
      | Some found => gather fuel my_id live (out ++ found)
      end
    end
  end.
Fixpoint start_threads (sockets : list nat) : LProg (list (nat * Instant)) :=
  match sockets with
  | [] => mret []
  | s :: sockets =>
    d ← collect_start s; live ← start_threads sockets;
    mret (match d with Some d => (s, d) :: live | None => live end)
  end.

(** [create_broadcast_sockets] *)
Fixpoint bind_all (ips : list IpAddr) : LProg (list nat) :=
  match ips with
  | [] => mret []
  | a :: ips => s ← ask (LBind a 0 true); rest ← bind_all ips; mret (option_list s ++ rest)
  end.
Definition create_broadcast_sockets : LProg (list nat) :=
  hostname ← ask LHostname;
  addrs ← ask (LResolve (default "localhost"%string hostname));
  bind_all (default [] addrs ++ [IpV4 0 0 0 0]).

Fixpoint send_all (sockets : list nat) (out : bytes) (to : SocketAddr) : LProg unit :=
  match sockets with [] => mret tt | s :: sockets => ask (LSend s out to);; send_all sockets out to end.
Fixpoint upsert_all (fresh : list DiscoveredPeer) : LProg unit :=
  match fresh with
  | [] => mret tt
  | p :: fresh => now ← ask LClock; ask (LPutPeers (upsert_peer p now));; upsert_all fresh
  end.

Definition discover (fuel : nat) : LProg (list DiscoveredPeer) :=
  sockets ← create_broadcast_sockets;
  match sockets with
  | [] => get_peers
  | _ =>
    st ← ask LStore;
    let wire := get_rendezvous_wire_protocol st in
    st ← ask LStore;
    let my_id := get_id st in
    let out := serialize_lan_message (discovery "ping" my_id "" "" "" "") wire in
    send_all sockets out (mkAddr (IpV4 255 255 255 255) broadcast_port);;
    live ← start_threads sockets;
    fresh ← gather fuel my_id live [];
    upsert_all fresh;;
    get_peers
  end.
End lan.
