(* ===== verification/LanSpec.v ===== *)
(** * A discovery finds the machines of the local network

    A machine with one interface broadcasts its ping in a network of others
    that listen; each of them handles the datagram with [answer_datagram], and
    what it sends arrives at the socket of the first.  Theorem: the discovery
    ends after three seconds and lists every other machine, online, as it
    described itself, in the order of the ids. *)
From Stdlib Require Import Ascii.
From stdpp Require Import sorting.
From S2P Require Import Prelude AddrMangle Text TextFacts HostText Proto RendezvousCodec Database Keys ClientConfig Programs ClientIo Lan.
Local Open Scope Z_scope.

(** ** The network *)

Record Neighbour : Type := mkNeighbour {
  nb_store : Store;
  nb_addr : SocketAddr;
  nb_hostname : option string;
  nb_username : string;
  nb_platform : string;
  nb_local : option IpAddr;
}.
Definition neighbour_handler (n : Neighbour) : Handler LanIo (list bytes) := λ X e sent,
  match e in LanIo X return option (X * list bytes) with
  | LStore => Some (nb_store n, sent)
  | LHostname => Some (nb_hostname n, sent)
  | LUsername => Some (nb_username n, sent)
  | LPlatform => Some (nb_platform n, sent)
  | LProbe _ => Some (nb_local n, sent)
  | LSend _ b _ => Some (true, sent ++ [b])
  | _ => None
  end.

Record LanWorld : Type := mkLanWorld {
  lw_store : Store;
  lw_peers : PeerTable;
  lw_clock : Instant;
  lw_addr : SocketAddr;
  lw_others : list Neighbour;
  lw_inbox : list (bytes * SocketAddr);
}.
Definition TICK : Z := 50 * 10 ^ 6.

Section lan_spec.
Context `{WireLib}.

(** What a machine sends when a datagram arrives. *)
Definition replies (buf : bytes) (from : SocketAddr) (n : Neighbour) : list (bytes * SocketAddr) :=
  (λ b, (b, nb_addr n)) <$> (run (neighbour_handler n) (answer_datagram 0 (take 2048 buf) from) []).2.

(** A broadcast reaches every machine; a read without a datagram takes 50
    milliseconds. *)
Definition lan_handler : Handler LanIo LanWorld := λ X e w,
  match e in LanIo X return option (X * LanWorld) with
  | LStore => Some (lw_store w, w)
  | LPeers => Some (lw_peers w, w)
  | LPutPeers f => Some (tt, mkLanWorld (lw_store w) (f (lw_peers w)) (lw_clock w) (lw_addr w) (lw_others w) (lw_inbox w))
  | LClock => Some (lw_clock w, w)
  | LBind _ _ _ => Some (Some O, w)
  | LReadTimeout _ _ => Some (true, w)
  | LSend _ b to =>
    let arrived := if bool_decide (to = mkAddr (IpV4 255 255 255 255) broadcast_port)
                   then lw_others w ≫= replies b (lw_addr w) else [] in
    Some (true, mkLanWorld (lw_store w) (lw_peers w) (lw_clock w) (lw_addr w) (lw_others w) (lw_inbox w ++ arrived))
  | LRecv _ =>
    match lw_inbox w with
    | d :: rest => Some (Some d, mkLanWorld (lw_store w) (lw_peers w) (lw_clock w) (lw_addr w) (lw_others w) rest)
    | [] => Some (None, mkLanWorld (lw_store w) (lw_peers w) (lw_clock w + TICK) (lw_addr w) (lw_others w) [])
    end
  | LHostname => Some (None, w)
  | LResolve _ => Some (None, w)
  | LTurn _ => Some (O, w)
  | _ => None
  end.
Definition at_time (t : Instant) (inbox : list (bytes * SocketAddr)) (w : LanWorld) : LanWorld :=
  mkLanWorld (lw_store w) (lw_peers w) t (lw_addr w) (lw_others w) inbox.
Definition with_peers (m : PeerTable) (w : LanWorld) : LanWorld :=
  mkLanWorld (lw_store w) m (lw_clock w) (lw_addr w) (lw_others w) (lw_inbox w).

(** ** The messages *)

(** A message of the discovery arrives as it was, in either encoding. *)
Definition readable (m : RendezvousMessage) : Prop :=
  ∀ c, to_capnp_msg m = Some c → capnp_segments c = 1.
Lemma discovery_arrives `{!WireLaws} cmd id h u p mac wire b :
  let m := discovery cmd id h u p mac in
  readable m → wire_bytes m wire = Some b → parse b = Some m.
Proof.
  cbv zeta. set (m := discovery cmd id h u p mac). intros Hr Hb.
  assert (∃ q, serialize m q = Some b) as [q Hq].
  { unfold wire_bytes in Hb. destruct (serialize m wire) eqn:E; [exists wire; congruence|by exists Proto3]. }
  destruct (serialize_back m q b Hq) as [_ Hp]; [by intros c _ Hc; apply Hr|]. rewrite Hp. by destruct q.
Qed.

(** How a machine describes itself. *)
Definition pong_of (n : Neighbour) : RendezvousMessage :=
  discovery "pong" (get_id (nb_store n)) (known_name (nb_hostname n)) (nb_username n) (nb_platform n)
    (default "" (ip_string <$> nb_local n))%string.
Definition seen_as (n : Neighbour) (now : Instant) : DiscoveredPeer :=
  {| dp_id := get_id (nb_store n); dp_ip := ip_string (ip (nb_addr n));
     dp_mac := default ""%string (ip_string <$> nb_local n);
     dp_hostname := known_name (nb_hostname n); dp_username := nb_username n; dp_platform := nb_platform n;
     dp_online := true; dp_last_seen := Some now |}.
(** Its answer fits the buffer. *)
Definition answers_well (n : Neighbour) : Prop :=
  readable (pong_of n) ∧ ∀ p, ∃ b, wire_bytes (pong_of n) p = Some b ∧ b ≠ [] ∧ (length b <= 2048)%nat.

Lemma neighbour_replies `{!WireLaws} my_id b from n :
  parse b = Some (discovery "ping" my_id "" "" "" "") → (length b <= 2048)%nat → get_id (nb_store n) ≠ my_id →
  answers_well n →
  ∃ a, replies b from n = [(a, nb_addr n)] ∧ (length a <= 2048)%nat ∧ parse a = Some (pong_of n).
Proof.
  intros Hb Hl Hid [Hr Ha]. unfold replies, answer_datagram. rewrite take_ge by done. rewrite Hb. cbn [union discovery mk pd_cmd pd_id].
  cbn [String.eqb Ascii.eqb Bool.eqb negb]. cbn [mbind Prog_bind prog_bind ask run neighbour_handler].
  destruct (String.eqb_spec my_id (get_id (nb_store n))) as [->|_]; [done|].
  cbn [mbind Prog_bind prog_bind ask run neighbour_handler get_local_mac mret Prog_ret].
  fold (pong_of n). destruct (Ha (detect b)) as (a & Hw & Hne & Hla). unfold serialize_lan_message. rewrite Hw.
  cbn [default from_option]. exists a. destruct a as [|x a]; [done|]. cbn.
  split; [done|]. split; [done|]. eapply discovery_arrives; [exact Hr|exact Hw].
Qed.
Lemma pong_taken my_id a n now :
  parse a = Some (pong_of n) → get_id (nb_store n) ≠ my_id → take_pong my_id a (nb_addr n) now = Some (seen_as n now).
Proof.
  intros Ha Hid. unfold take_pong. rewrite Ha. cbn [union pong_of discovery mk pd_cmd pd_id].
  cbn [String.eqb Ascii.eqb Bool.eqb negb orb]. destruct (String.eqb_spec (get_id (nb_store n)) my_id); done.
Qed.

(** ** The three seconds *)

Definition taken (my_id : string) (now : Instant) (inbox : list (bytes * SocketAddr)) : list DiscoveredPeer :=
  omap (λ d, take_pong my_id (take 2048 d.1) d.2 now) inbox.

Lemma gather_waits fuel k my_id deadline out w :
  lw_inbox w = [] → deadline = lw_clock w + Z.of_nat k * TICK → (k < fuel)%nat →
  run lan_handler (gather fuel my_id [(O, deadline)] out) w = (Finished out, at_time deadline [] w).
Proof.
  revert fuel w. induction k as [|k IH]; intros [|fuel] w Hi Hd Hf; try lia.
  - cbn. rewrite Hd, Z.mul_0_l, Z.add_0_r, Z.leb_refl. cbn. unfold at_time. rewrite <- Hi. by destruct w, fuel.
  - cbn. rewrite (proj2 (Z.leb_gt _ _)) by (unfold TICK in *; lia). cbn. rewrite Hi. cbn. rewrite app_nil_r.
    rewrite IH; [by unfold at_time|done|cbn; lia|lia].
Qed.
Lemma gather_reads inbox fuel k my_id deadline out w :
  lw_inbox w = inbox → deadline = lw_clock w + Z.of_nat (S k) * TICK → (length inbox + S k < fuel)%nat →
  run lan_handler (gather fuel my_id [(O, deadline)] out) w =
  (Finished (out ++ taken my_id (lw_clock w) inbox), at_time deadline [] w).
Proof.
  revert fuel out w. induction inbox as [|[b from] inbox IH]; intros [|fuel] out w Hi Hd Hf; try (cbn in Hf; lia).
  - rewrite (gather_waits _ (S k)) by (first [done|cbn in Hf; lia]). cbn. by rewrite app_nil_r.
  - cbn. rewrite (proj2 (Z.leb_gt _ _)) by (unfold TICK in *; lia). cbn. rewrite Hi. cbn.
    rewrite IH by (first [done|cbn in *; lia]). cbn. f_equal. rewrite <- app_assoc. f_equal.
    by destruct (take_pong _ _ _ _).
Qed.

(** ** The table *)

Lemma upsert_all_run fresh w :
  run lan_handler (upsert_all fresh) w =
  (Finished tt, with_peers (foldl (λ m p, upsert_peer p (lw_clock w) m) (lw_peers w) fresh) w).
Proof.
  revert w. induction fresh as [|p fresh IH]; intros w; [by destruct w|]. cbn. by rewrite IH.
Qed.
(** A table is kept under the ids. *)
Definition table_ok (m : PeerTable) : Prop := ∀ k p, m !! k = Some p → dp_id p = k.
Definition refreshed (now : Instant) (p : DiscoveredPeer) : DiscoveredPeer :=
  {| dp_id := dp_id p; dp_ip := dp_ip p; dp_mac := dp_mac p; dp_hostname := dp_hostname p;
     dp_username := dp_username p; dp_platform := dp_platform p; dp_online := true; dp_last_seen := Some now |}.
Lemma upsert_refreshes p now m : table_ok m → upsert_peer p now m = <[dp_id p := refreshed now p]> m.
Proof.
  intros Hm. unfold upsert_peer. destruct (m !! dp_id p) as [q|] eqn:E; [|done]. cbn. by rewrite (Hm _ _ E).
Qed.
Lemma upsert_ok p now m : table_ok m → table_ok (upsert_peer p now m).
Proof.
  intros Hm. rewrite upsert_refreshes by done. intros k q Hq. apply lookup_insert_Some in Hq as [[<- <-]|[_ Hq]]; [done|by apply Hm].
Qed.
Lemma upserted fresh now m : table_ok m → NoDup (dp_id <$> fresh) →
  ∀ p, p ∈ fresh → foldl (λ m p, upsert_peer p now m) m fresh !! dp_id p = Some (refreshed now p).
Proof.
  assert (∀ fresh m k, k ∉ dp_id <$> fresh → foldl (λ m p, upsert_peer p now m) m fresh !! k = m !! k) as Hout.
  { clear. induction fresh as [|q fresh IH]; intros m k Hk; [done|]. cbn in Hk |- *. apply not_elem_of_cons in Hk as [Hq Hk].
    rewrite IH by done. unfold upsert_peer. by rewrite lookup_insert_ne. }
  revert m. induction fresh as [|q fresh IH]; intros m Hm Hnd p Hp; [by apply elem_of_nil in Hp|].
  cbn in Hnd |- *. apply NoDup_cons in Hnd as [Hq Hnd]. apply elem_of_cons in Hp as [->|Hp].
  - rewrite Hout by done. rewrite upsert_refreshes by done. by rewrite lookup_insert_eq.
  - apply IH; [by apply upsert_ok|done|done].
Qed.

Lemma peers_listed now m q : q ∈ peers_at now m ↔ ∃ k p, m !! k = Some p ∧ q = mark_offline now p.
Proof.
  unfold peers_at. rewrite merge_sort_Permutation, list_elem_of_fmap. split.
  - intros (p & -> & Hp). apply list_elem_of_fmap in Hp as ([k p'] & -> & Hkp). apply elem_of_map_to_list in Hkp. eauto.
  - intros (k & p & Hk & ->). exists p. split; [done|]. apply list_elem_of_fmap. exists (k, p).
    split; [done|by apply elem_of_map_to_list].
Qed.
#[export] Instance id_le_total : Total id_le.
Proof.
  intros a b. unfold id_le, String.leb. rewrite String.compare_antisym.
  by destruct (String.compare (dp_id b) (dp_id a)); [left|right|left].
Qed.

(** C29. The discovery of a machine whose name does not resolve, so that it has one
    socket, in a network of others that listen: it ends three seconds later,
    with the machines in the order of their ids; each of the others is there,
    online, under the address it answered from and as it describes itself. *)
Theorem discovery_finds_neighbours `{!WireLaws} fuel w out :
  let my_id := get_id (lw_store w) in
  let ping := discovery "ping" my_id "" "" "" "" in
  readable ping → wire_bytes ping (get_rendezvous_wire_protocol (lw_store w)) = Some out → (length out <= 2048)%nat →
  Forall (λ n, get_id (nb_store n) ≠ my_id ∧ answers_well n) (lw_others w) →
  NoDup ((λ n, get_id (nb_store n)) <$> lw_others w) → lw_inbox w = [] → table_ok (lw_peers w) →
  (length (lw_others w) + 60 < fuel)%nat →
  ∃ l, (run lan_handler (discover fuel) w).1 = Finished l ∧
    lw_clock (run lan_handler (discover fuel) w).2 = lw_clock w + COLLECT_NS ∧
    Sorted id_le l ∧
    ∀ n, n ∈ lw_others w → seen_as n (lw_clock w + COLLECT_NS) ∈ l.
Proof.
  cbv zeta. set (my_id := get_id (lw_store w)). set (t := lw_clock w). intros Hping Hout Hlen Hn Hnd Hi Ht Hfuel.
  pose proof (discovery_arrives _ _ _ _ _ _ _ _ Hping Hout) as Hp.
  assert (∃ inbox, lw_others w ≫= replies out (lw_addr w) = inbox ∧ length inbox = length (lw_others w) ∧
    taken my_id t inbox = (λ n, seen_as n t) <$> lw_others w) as (inbox & Hin & Hlin & Htaken).
  { clear Hnd Hfuel. induction Hn as [|n others [Hid Hw] _ (inbox & E & El & Etk)]; [by exists []|].
    destruct (neighbour_replies my_id out (lw_addr w) n Hp Hlen Hid Hw) as (a & Ea & Hla & Hpa).
    eexists. split; [done|]. cbn [mbind list_bind]. rewrite Ea, E. split; [cbn; by rewrite El|].
    cbn. rewrite take_ge, (pong_taken my_id a n t Hpa Hid) by done. f_equal. exact Etk. }
  set (m := foldl (λ m p, upsert_peer p (t + COLLECT_NS) m) (lw_peers w) ((λ n, seen_as n t) <$> lw_others w)).
  assert (run lan_handler (discover fuel) w =
    (Finished (peers_at (t + COLLECT_NS) m), with_peers m (at_time (t + COLLECT_NS) [] w))) as ->.
  { unfold discover. cbn [mbind Prog_bind prog_bind ask mret Prog_ret run lan_handler create_broadcast_sockets default
      from_option app bind_all option_list send_all start_threads collect_start negb].
    change (option_list (Some 0%nat) ++ []) with [0%nat].
    cbn [mbind Prog_bind prog_bind ask mret Prog_ret run lan_handler send_all start_threads collect_start negb].
    fold my_id. unfold serialize_lan_message. rewrite Hout. cbn [default from_option id].
    rewrite bool_decide_eq_true_2 by done. rewrite Hin, Hi. cbn [app].
    set (w1 := mkLanWorld _ _ _ _ _ inbox).
    erewrite run_bind_eq.
    2: { apply (gather_reads inbox fuel 59); [done|unfold w1, COLLECT_NS, TICK; cbn; lia|lia]. }
    rewrite app_nil_l. change (lw_clock w1) with t. rewrite Htaken.
    erewrite run_bind_eq by apply upsert_all_run. done. }
  eexists. split; [done|]. split; [done|]. split; [apply Sorted_merge_sort; apply _|].
  intros n Hm. apply peers_listed. exists (get_id (nb_store n)), (seen_as n (t + COLLECT_NS)). split.
  - assert (NoDup (dp_id <$> ((λ n, seen_as n t) <$> lw_others w))) as Hnd'.
    { rewrite <- list_fmap_compose. exact Hnd. }
    assert (seen_as n t ∈ (λ n, seen_as n t) <$> lw_others w) as Hel by (apply list_elem_of_fmap; eauto).
    exact (upserted _ (t + COLLECT_NS) (lw_peers w) Ht Hnd' (seen_as n t) Hel).
  - unfold mark_offline, seen_as. cbn. by rewrite Z.sub_diag.
Qed.
End lan_spec.

(** ** Two machines *)
Section witnesses.
Definition here : Store := mkStore (set_id "100000001" default_config) None DiskOk.
Definition there : Neighbour :=
  mkNeighbour (mkStore (set_id "200000002" default_config) None DiskOk) (mkAddr (IpV4 192 168 1 7) 21119)
    (Some "localhost"%string) "ann" "Linux" (Some (IpV4 192 168 1 7)).
#[local] Instance LanWire : WireLib := TableWire [discovery "ping" "100000001" "" "" "" ""; pong_of there].
#[local] Instance LanWireLaws : WireLaws := TableWireLaws _.
Definition lan_world : LanWorld := mkLanWorld here ∅ 0 (mkAddr (IpV4 192 168 1 3) 50000) [there] [].

Lemma discovery_finds_neighbours_witness :
  ∃ l, (run lan_handler (discover 62) lan_world).1 = Finished l ∧ seen_as there (3 * 10 ^ 9) ∈ l.
Proof.
  destruct (discovery_finds_neighbours 62 lan_world [8; 0]) as (l & Hl & _ & _ & Hn).
  - intros c _. reflexivity.
  - vm_compute. reflexivity.
  - cbn. lia.
  - constructor; [|constructor]. split; [discriminate|]. split; [intros c _; reflexivity|].
    intros p. exists [8; 1]. split_and!; [destruct p; vm_compute; reflexivity|discriminate|cbn; lia].
  - apply NoDup_singleton.
  - reflexivity.
  - intros k p Hk. vm_compute in Hk. discriminate.
  - cbn. lia.
  - exists l. split; [exact Hl|]. apply (Hn there). by apply list_elem_of_singleton.
Defined.
End witnesses.
