(* ===== verification/Updater.v ===== *)
(** * Updates of the client: [nat-client/src/updater.rs]

    The query for the latest version, the thread that asks once a day, and the
    download: a file of the right size is not fetched again, its hash is
    compared when the server gives one, and it takes the place of the running
    program.  Functions are programs over [UpdIo].  Theorems are in
    [UpdaterSpec]. *)
From Stdlib Require Import Ascii.
From S2P Require Import Prelude Text TextFacts HostText JsonTree Database Keys ClientConfig Programs ClientIo.
Local Open Scope Z_scope.

Record UpdateInfo : Type := mkUpdateInfo { up_version : string; up_download_url : string; up_sha256 : string; up_changelog : string }.
#[export] Instance UpdateInfo_eq_dec : EqDecision UpdateInfo.
Proof. solve_decision. Defined.
Inductive UpdateMsg : Type := CheckUpdate | ExitUpdate.
(** The platform the client was built for. *)
Inductive Target : Type := Windows | Macos | Linux.

(** An answer to a request: whether its status is a success, the length it
    announces, its body as JSON, and a number to read the body by. *)
Record HttpAnswer : Type := mkHttpAnswer { ha_success : bool; ha_length : option Z; ha_json : option JVal; ha_body : nat }.
Inductive HttpVerb : Type := HttpGet | HttpHead.
(** [recv_timeout] *)
Inductive Received : Type := Message (m : UpdateMsg) | Timeout | Disconnected.

(** Files are named by their paths.  [UExec] has an answer only when it failed,
    and [UExit] none. *)
Inductive UpdIo : Type → Type :=
| UHttp (v : HttpVerb) (url : string) : UpdIo (option HttpAnswer)
| UReadBody (h : nat) : UpdIo (option bytes)
| UClock : UpdIo Instant
| URecv (wait : Z) : UpdIo Received
| USleep (ms : Z) : UpdIo unit
| UFound (info : UpdateInfo) : UpdIo unit
| UStore (info : UpdateInfo) : UpdIo unit
| UProgress (downloaded total : Z) : UpdIo unit
| UTempDir : UpdIo string
| UExists (p : string) : UpdIo bool
| USize (p : string) : UpdIo (option Z)
| URead (p : string) : UpdIo (option bytes)
| UCreate (p : string) : UpdIo bool
| UAppend (p : string) (b : bytes) : UpdIo bool
| URemove (p : string) : UpdIo bool
| UWritable (p : string) : UpdIo bool
| UCopy (src dest : string) : UpdIo bool
| UChmod (p : string) : UpdIo bool
| UCurrentExe : UpdIo (option string)
| USpawn (p : string) (args : list string) : UpdIo bool
| UExec (p : string) : UpdIo unit
| UExit (code : Z) : UpdIo Empty_set.
Abbreviation UProg A := (Prog UpdIo (result Failure A)).

(** The times, in nanoseconds. *)
Definition INITIAL_DELAY : Z := 30 * 10 ^ 9.
Definition AUTO_CHECK_INTERVAL : Z := 24 * 3600 * 10 ^ 9.
Definition MIN_CHECK_INTERVAL : Z := 10 * 60 * 10 ^ 9.

(** ** Versions *)

Definition version_numbers (s : string) : list Z := (λ p, default 0 (parse_u64 p)) <$> split_on "." s.
(** [Vec]'s order. *)
Fixpoint list_gt (a b : list Z) : bool :=
  match a, b with
  | [], _ => false
  | _ :: _, [] => true
  | x :: a, y :: b => if x =? y then list_gt a b else y <? x
  end.
Definition is_newer (latest current : string) : bool := list_gt (version_numbers latest) (version_numbers current).

(** [trim_end_matches('/')] *)
Definition trim_slashes : string → string := trim_end_char "/".

Definition platform_suffix (t : Target) : string :=
  match t with Windows => "windows" | Macos => "macos" | Linux => "linux" end.
Definition platform_field (t : Target) (json : JVal) (prefix : string) : string :=
  default "" (as_str (jindex (prefix +:+ "_" +:+ platform_suffix t) json)).

(** SHA-256, in lower-case hexadecimal. *)
Class Sha256 : Type := sha256_hex : bytes → string.

Section updater.
Context `{Sha256}.
Variable target : Target.

(** ** The query *)

Definition check_update (api_url : string) : UProg (option UpdateInfo) :=
  r ← ask (UHttp HttpGet (trim_slashes api_url +:+ "/api/client/version"));
  mret (match r with
        | None => Err Io
        | Some a =>
          if negb (ha_success a) then Err (Failed "服务器返回") else
          match ha_json a with
          | None => Err (Failed "响应解析失败")
          | Some json =>
            let latest := default ""%string (as_str (jindex "version" json)) in
            if bool_decide (latest = ""%string) then Err (Failed "服务器未配置客户端版本信息")
            else if negb (is_newer latest CARGO_PKG_VERSION) then Ok None
            else
              let download_url := platform_field target json "download_url" in
              if bool_decide (download_url = ""%string) then Err (Failed "服务器未提供当前平台的下载链接")
              else Ok (Some (mkUpdateInfo latest download_url (platform_field target json "sha256")
                               (default ""%string (as_str (jindex "changelog" json)))))
          end
        end).

Definition do_auto_check (api_url : string) : Prog UpdIo unit :=
  r ← check_update api_url;
  match r with
  | Ok (Some info) => ask (UStore info);; ask (UFound info)
  | _ => mret tt
  end.

(** The thread of [start_auto_update_check]. *)
Fixpoint auto_check_loop (fuel : nat) (api_url : string) (last_check_time : Instant) : Prog UpdIo unit :=
  match fuel with
  | O => Stop OutOfFuel
  | S fuel =>
    now ← ask UClock;
    r ← ask (URecv (Z.max 0 (AUTO_CHECK_INTERVAL - elapsed now last_check_time)));
    match r with
    | Message CheckUpdate =>
      now ← ask UClock;
      if MIN_CHECK_INTERVAL <=? elapsed now last_check_time then
        do_auto_check api_url;; now ← ask UClock; auto_check_loop fuel api_url now
      else auto_check_loop fuel api_url last_check_time
    | Message ExitUpdate | Disconnected => mret tt
    | Timeout => do_auto_check api_url;; now ← ask UClock; auto_check_loop fuel api_url now
    end
  end.
Definition auto_update_thread (fuel : nat) (api_url : string) : Prog UpdIo unit :=
  r ← ask (URecv INITIAL_DELAY);
  match r with
  | Message ExitUpdate | Disconnected => mret tt
  | _ => do_auto_check api_url;; now ← ask UClock; auto_check_loop fuel api_url now
  end.

(** ** Download *)

Definition get_download_path (url : string) : Prog UpdIo string :=
  tmp ← ask UTempDir;
  mret (tmp +:+ "/" +:+ default "nat-client-update"%string (last (split_on "/" url))).
Definition head_content_length (url : string) : UProg (option Z) :=
  r ← ask (UHttp HttpHead url); mret (match r with Some a => Ok (ha_length a) | None => Err Io end).

Fixpoint copy_body (fuel : nat) (h : nat) (dest : string) (total downloaded : Z) : UProg unit :=
  match fuel with
  | O => Stop OutOfFuel
  | S fuel =>
    r ← ask (UReadBody h);
    match r with
    | None => mret (Err Io)
    | Some [] => ask (UProgress 1 1);; mret (Ok tt)
    | Some b =>
      do? ensure Io (ask (UAppend dest b));
      let downloaded := downloaded + zlen b in
      (if 0 <? total then ask (UProgress downloaded total) else mret tt);;
      copy_body fuel h dest total downloaded
    end
  end.
Definition download_to_file (fuel : nat) (url dest : string) : UProg unit :=
  r ← ask (UHttp HttpGet url);
  match r with
  | None => mret (Err Io)
  | Some a =>
    if negb (ha_success a) then mret (Err (Failed "下载失败")) else
    let total := default 0 (ha_length a) in
    do? ensure Io (ask (UCreate dest));
    copy_body fuel (ha_body a) dest total 0
  end.

Definition verify_sha256 (path expected : string) : UProg unit :=
  r ← ask (URead path);
  match r with
  | None => mret (Err Io)
  | Some data =>
    let hash := sha256_hex data in
    if negb (String.eqb (to_lowercase hash) (to_lowercase (trim expected))) then
      ask (URemove path);; mret (Err (Failed "SHA256"))
    else mret (Ok tt)
  end.

(** ** Replacement *)

Definition apply_windows (new_binary : string) : UProg unit :=
  exe ← ask UCurrentExe;
  match exe with
  | None => mret (Err Io)
  | Some current =>
    ok ← ask (USpawn new_binary ["--apply-update"; current]%string);
    if (ok : bool) then code ← ask (UExit 0); match (code : Empty_set) with end
    else ask (URemove new_binary);; mret (Err Io)
  end.
Definition apply_unix (new_binary : string) : UProg unit :=
  exe ← ask UCurrentExe;
  match exe with
  | None => mret (Err Io)
  | Some current =>
    do? ensure Io (ask (UCopy new_binary current));
    do? ensure Io (ask (UChmod current));
    ask (URemove new_binary);;
    ask (UExec current);;
    mret (Err (Failed "exec"))
  end.
Definition apply_update (new_binary : string) : UProg unit :=
  match target with Windows => apply_windows new_binary | _ => apply_unix new_binary end.

Definition download_and_apply (fuel : nat) (info : UpdateInfo) : UProg unit :=
  tmp ← get_download_path (up_download_url info);
  remote_size ←? head_content_length (up_download_url info);
  exists_ ← ask (UExists tmp);
  already_downloaded ← (if (exists_ : bool) then
                          match remote_size with
                          | Some s => n ← ask (USize tmp); mret (bool_decide (n = Some s))
                          | None => mret false
                          end
                        else mret false);
  do? (if (already_downloaded : bool) then ask (UProgress 1 1);; mret (Ok tt)
       else download_to_file fuel (up_download_url info) tmp);
  do? (if bool_decide (up_sha256 info = ""%string) then mret (Ok tt) else verify_sha256 tmp (up_sha256 info));
  apply_update tmp.

(** The new program on Windows, started by the old one. *)
Fixpoint wait_writable (fuel : nat) (old_path : string) (deadline : Instant) : Prog UpdIo unit :=
  match fuel with
  | O => Stop OutOfFuel
  | S fuel =>
    now ← ask UClock;
    if deadline <=? now then code ← ask (UExit 1); match (code : Empty_set) with end else
    ok ← ask (UWritable old_path);
    if (ok : bool) then mret tt else ask (USleep 500);; wait_writable fuel old_path deadline
  end.
Definition apply_update_from_cli (fuel : nat) (old_exe_path : string) : Prog UpdIo Empty_set :=
  match target with
  | Windows =>
    now ← ask UClock;
    wait_writable fuel old_exe_path (now + 30 * 10 ^ 9);;
    exe ← ask UCurrentExe;
    match exe with
    | None => ask (UExit 1)
    | Some current =>
      ok ← ask (UCopy current old_exe_path);
      if negb ok then ask (UExit 1) else
      ok ← ask (USpawn old_exe_path []);
      if negb ok then Stop Panicked else ask (UExit 0)
    end
  | _ => ask (UExit 1)
  end.
End updater.

Example versions_compared :
  is_newer "0.2.0" "0.1.9" = true ∧ is_newer "0.1.10" "0.1.9" = true ∧ is_newer "0.1.0" "0.1.0" = false ∧
  is_newer "v1.0" "0.1.0" = false ∧ is_newer "0.1.0.0" "0.1.0" = true.
Proof. vm_compute. done. Qed.
