(* ===== verification/UpdaterSpec.v ===== *)
(** * What an update installs, and when one is looked for

    The programs of [Updater] over a disk whose writes may fail and a server
    that answers what it likes: whatever it answers, a program with a hash that
    the server announced is replaced only by one with this hash; a download that
    was left damaged is thrown away by one attempt and fetched by the next.  And
    over a clock and the messages to the thread: its queries are ten minutes
    apart or more, and a day or less. *)
From Stdlib Require Import Ascii.
From S2P Require Import Prelude Text TextFacts HostText JsonTree Database Keys ClientConfig Programs ClientIo Updater.
Local Open Scope Z_scope.

(** ** A disk and a server *)

(** [uw_faults] says which writes fail, a copy after [uw_cut] bytes;
    [uw_busy] that the system refuses to write to a running program, as Linux
    does (ETXTBSY); [uw_started] are the programs started, by their contents. *)
Record UpdWorld : Type := mkUpdWorld {
  uw_files : gmap string bytes;
  uw_faults : list bool;
  uw_cut : nat;
  uw_busy : bool;
  uw_tmp : string;
  uw_exe : string;
  uw_head : string → option HttpAnswer;
  uw_get : string → option (HttpAnswer * bytes);
  uw_body : option bytes;
  uw_started : list bytes;
}.
Definition with_files (f : gmap string bytes) (w : UpdWorld) : UpdWorld :=
  mkUpdWorld f (drop 1 (uw_faults w)) (uw_cut w) (uw_busy w) (uw_tmp w) (uw_exe w) (uw_head w) (uw_get w) (uw_body w) (uw_started w).
Definition with_body (b : option bytes) (w : UpdWorld) : UpdWorld :=
  mkUpdWorld (uw_files w) (uw_faults w) (uw_cut w) (uw_busy w) (uw_tmp w) (uw_exe w) (uw_head w) (uw_get w) b (uw_started w).
Definition with_started (b : bytes) (w : UpdWorld) : UpdWorld :=
  mkUpdWorld (uw_files w) (uw_faults w) (uw_cut w) (uw_busy w) (uw_tmp w) (uw_exe w) (uw_head w) (uw_get w) (uw_body w) (uw_started w ++ [b]).
(** A write that may fail. *)
Definition disk_write (f : gmap string bytes → gmap string bytes) (w : UpdWorld) : bool * UpdWorld :=
  match uw_faults w with
  | true :: _ => (false, with_files (uw_files w) w)
  | _ => (true, with_files (f (uw_files w)) w)
  end.

Definition upd_handler : Handler UpdIo UpdWorld := λ X e w,
  match e in UpdIo X return option (X * UpdWorld) with
  | UHttp HttpHead url => Some (uw_head w url, w)
  | UHttp HttpGet url =>
    Some (fst <$> uw_get w url, with_body (snd <$> uw_get w url) w)
  | UReadBody _ =>
    match uw_body w with
    | Some b => Some (Some (take (Z.to_nat 65536) b), with_body (Some (drop (Z.to_nat 65536) b)) w)
    | None => Some (None, w)
    end
  | UStore _ | UFound _ | UProgress _ _ | USleep _ => Some (tt, w)
  | UTempDir => Some (uw_tmp w, w)
  | UExists p => Some (bool_decide (is_Some (uw_files w !! p)), w)
  | USize p => Some (zlen <$> uw_files w !! p, w)
  | URead p => Some (uw_files w !! p, w)
  | UCreate p => Some (disk_write <[p := []]> w)
  | UAppend p b => Some (disk_write (alter (λ f, f ++ b) p) w)
  | URemove p => Some (disk_write (delete p) w)
  | UCopy src dest =>
    match uw_files w !! src with
    | Some b =>
      if bool_decide (dest = uw_exe w) && uw_busy w then Some (false, w) else
      match uw_faults w with
      | true :: _ => Some (false, with_files (<[dest := take (uw_cut w) b]> (uw_files w)) w)
      | _ => Some (true, with_files (<[dest := b]> (uw_files w)) w)
      end
    | None => Some (false, w)
    end
  | UChmod _ => Some (true, w)
  | UWritable _ => Some (true, w)
  | UCurrentExe => Some (Some (uw_exe w), w)
  | USpawn p _ =>
    match uw_files w !! p with Some b => Some (true, with_started b w) | None => Some (false, w) end
  | UExec _ => None
  | UExit _ => None
  | _ => None
  end.

Section updater_spec.
Context `{Sha256}.

Definition matches (expected : string) (data : bytes) : Prop :=
  to_lowercase (sha256_hex data) = to_lowercase (trim expected).

(** The path of the download. *)
Definition download_path (url : string) (w : UpdWorld) : string :=
  uw_tmp w +:+ "/" +:+ default "nat-client-update"%string (last (split_on "/" url)).

(** What a step on the way may do: the names of things stay, no program starts,
    the program on the disk stays. *)
Definition untouched (w w' : UpdWorld) : Prop :=
  uw_exe w' = uw_exe w ∧ uw_started w' = uw_started w ∧ uw_files w' !! uw_exe w = uw_files w !! uw_exe w ∧
  uw_tmp w' = uw_tmp w ∧ uw_busy w' = uw_busy w ∧ uw_get w' = uw_get w ∧ uw_head w' = uw_head w.
#[export] Instance untouched_preorder : PreOrder untouched.
Proof.
  split; [by intros w; unfold untouched|]. unfold untouched.
  intros a b c (E1 & E2 & E3 & E4 & E5 & E6 & E7) (F1 & F2 & F3 & F4 & F5 & F6 & F7). rewrite E1 in F3. split_and!; congruence.
Qed.
Lemma disk_write_untouched f w :
  (∀ m, f m !! uw_exe w = m !! uw_exe w) → untouched w (disk_write f w).2.
Proof. intros Hf. unfold disk_write, untouched. by destruct (uw_faults w) as [|[] l]; cbn; rewrite ?Hf. Qed.

(** A program whose runs leave a world in a relation to the one before. *)
Definition keeps_world {A} (p : Prog UpdIo A) (w : UpdWorld) : Prop := untouched w (run upd_handler p w).2.
Lemma untouched_bind {A B} (p : Prog UpdIo A) (f : A → Prog UpdIo B) w :
  keeps_world p w → (∀ a w', untouched w w' → keeps_world (f a) w') → keeps_world (p ≫= f) w.
Proof.
  intros Hp Hf. unfold keeps_world in *. rewrite run_bind. destruct (run upd_handler p w) as [[a|h|] w1]; cbn in *; [|done..].
  etrans; [exact Hp|]. by apply Hf.
Qed.
Lemma untouched_try {A B} (p : UProg A) (f : A → UProg B) w :
  keeps_world p w → (∀ a w', untouched w w' → keeps_world (f a) w') → keeps_world (try_bind p f) w.
Proof. intros Hp Hf. apply untouched_bind; [done|]. intros [a|e] w' Hw; [by apply Hf|]. unfold keeps_world. cbn. done. Qed.

Lemma copy_body_keeps fuel h dest total : ∀ n w, dest ≠ uw_exe w → keeps_world (copy_body fuel h dest total n) w.
Proof.
  induction fuel as [|fuel IH]; intros n w Hd; [by unfold keeps_world|]. cbn [copy_body]. apply untouched_bind.
  { unfold keeps_world. cbn. by destruct (uw_body w). }
  intros [[|x b]|] w1 Hw1; [by unfold keeps_world| |by unfold keeps_world].
  assert (dest ≠ uw_exe w1) as Hd1 by (destruct Hw1 as (-> & _); done).
  apply untouched_try.
  { unfold ensure. apply untouched_bind; [|intros [] w2 _; by unfold keeps_world].
    unfold keeps_world. cbn. pose proof (disk_write_untouched (alter (λ f, f ++ x :: b) dest) w1) as Hu.
    destruct (disk_write _ w1) as [ok w2]. apply Hu. intros m. by rewrite lookup_alter_ne. }
  intros [] w2 Hw2. apply untouched_bind; [by unfold keeps_world; destruct (0 <? total)|].
  intros [] w3 Hw3. apply IH. destruct Hw2 as (E2 & _), Hw3 as (E3 & _). congruence.
Qed.
Lemma download_keeps fuel url dest w : dest ≠ uw_exe w → keeps_world (download_to_file fuel url dest) w.
Proof.
  intros Hd. unfold download_to_file. apply untouched_bind; [by unfold keeps_world|].
  intros [a|] w1 Hw1; [|by unfold keeps_world]. destruct (negb _); [by unfold keeps_world|].
  assert (dest ≠ uw_exe w1) as Hd1 by (destruct Hw1 as (-> & _); done).
  apply untouched_try.
  { unfold ensure. apply untouched_bind; [|intros [] w2 _; by unfold keeps_world].
    unfold keeps_world. cbn. pose proof (disk_write_untouched <[dest := []]> w1) as Hu.
    destruct (disk_write _ w1) as [ok w2]. apply Hu. intros m. by rewrite lookup_insert_ne. }
  intros [] w2 Hw2. apply copy_body_keeps. destruct Hw2 as (-> & _). done.
Qed.

(** ** Verification and replacement *)

Lemma verify_passed path expected w w' :
  run upd_handler (verify_sha256 path expected) w = (Finished (Ok tt), w') →
  w' = w ∧ ∃ data, uw_files w !! path = Some data ∧ matches expected data.
Proof.
  unfold verify_sha256. cbn. destruct (uw_files w !! path) as [data|] eqn:E; [|done].
  destruct (String.eqb_spec (to_lowercase (sha256_hex data)) (to_lowercase (trim expected))) as [He|]; cbn.
  - intros [= <-]. split; [done|]. by exists data.
  - by destruct (disk_write _ w).
Qed.
Lemma verify_keeps path expected w : path ≠ uw_exe w → keeps_world (verify_sha256 path expected) w.
Proof.
  intros Hp. unfold keeps_world, verify_sha256. cbn. destruct (uw_files w !! path) as [data|]; [|done].
  destruct (negb _); cbn; [|done].
  pose proof (disk_write_untouched (delete path) w) as Hu. destruct (disk_write _ w) as [ok w1].
  apply Hu. intros m. by rewrite lookup_delete_ne.
Qed.

(** The program on the disk and those started, after a replacement by the file
    at a path: a copy that breaks off leaves a beginning of it. *)
Definition replaced_by (data : bytes) (w w' : UpdWorld) : Prop :=
  (uw_files w' !! uw_exe w = uw_files w !! uw_exe w ∨ ∃ n, uw_files w' !! uw_exe w = Some (take n data)) ∧
  ∃ k, uw_started w' = uw_started w ++ replicate k data.
Lemma replaced_same data w w' : untouched w w' → replaced_by data w w'.
Proof. intros (_ & Hs & Hf & _). split; [by left|]. exists O. by rewrite Hs, app_nil_r. Qed.
Lemma replaced_written data f path w1 w2 : path ≠ uw_exe w1 →
  replaced_by data w1 w2 → uw_exe w2 = uw_exe w1 → (∀ m, f m !! uw_exe w1 = m !! uw_exe w1) →
  replaced_by data w1 (disk_write f w2).2.
Proof.
  intros Hp [Hf Hs] He Hm. unfold disk_write, replaced_by. by destruct (uw_faults w2) as [|[] l]; cbn; rewrite ?Hm.
Qed.

Lemma apply_replaces target path data w : path ≠ uw_exe w → uw_files w !! path = Some data →
  replaced_by data w (run upd_handler (apply_update target path) w).2.
Proof.
  intros Hp Hd. assert (apply_update target path = apply_windows path ∨ apply_update target path = apply_unix path) as [-> | ->]
    by (destruct target; [by left|by right..]).
  - unfold apply_windows. cbn. rewrite Hd. cbn. split; [by left|]. by exists 1%nat.
  - unfold apply_unix, ensure, try_bind. cbn. rewrite Hd.
    destruct (bool_decide (uw_exe w = uw_exe w) && uw_busy w); [by apply replaced_same|].
    assert (∀ n, replaced_by data w (with_files (<[uw_exe w := take n data]> (uw_files w)) w)) as Hn.
    { intros n. split; [right; exists n; cbn; by rewrite lookup_insert_eq|exists O; by rewrite app_nil_r]. }
    assert (replaced_by data w (with_files (<[uw_exe w := data]> (uw_files w)) w)) as Hall.
    { split; [right; exists (length data); cbn; by rewrite lookup_insert_eq, firstn_all|exists O; by rewrite app_nil_r]. }
    assert (∀ m : gmap string bytes, delete path m !! uw_exe w = m !! uw_exe w) as Hdel by (intros m; by rewrite lookup_delete_ne).
    pose proof (replaced_written data (delete path) path w _ Hp Hall eq_refl Hdel) as Hrm.
    destruct (uw_faults w) as [|[] l]; cbn; [|apply Hn|]; by destruct (disk_write (delete path) _).
Qed.

(** ** Only what the hash allows *)

(** The steps before the replacement, then the rest. *)
Lemma run_after {A B} (R : UpdWorld → Prop) (p : Prog UpdIo A) (f : A → Prog UpdIo B) w :
  keeps_world p w → (∀ w', untouched w w' → R w') →
  (∀ a w', run upd_handler p w = (Finished a, w') → untouched w w' → R (run upd_handler (f a) w').2) →
  R (run upd_handler (p ≫= f) w).2.
Proof.
  intros Hp Hr Hf. rewrite run_bind. unfold keeps_world in Hp.
  destruct (run upd_handler p w) as [[a|h|] w1] eqn:E; cbn in *; [by apply Hf|by apply Hr..].
Qed.
Lemma run_after_try {A B} (R : UpdWorld → Prop) (p : UProg A) (f : A → UProg B) w :
  keeps_world p w → (∀ w', untouched w w' → R w') →
  (∀ a w', run upd_handler p w = (Finished (Ok a), w') → untouched w w' → R (run upd_handler (f a) w').2) →
  R (run upd_handler (try_bind p f) w).2.
Proof.
  intros Hp Hr Hf. unfold try_bind. apply (run_after R); [done|done|]. intros [a|e] w' E Hw; [by apply Hf|by apply Hr].
Qed.

(** The end of an update: what is on the disk where the program is, and what was
    started. *)
Definition allowed (P : bytes → Prop) (w w' : UpdWorld) : Prop :=
  (uw_files w' !! uw_exe w = uw_files w !! uw_exe w ∨
   ∃ data n, uw_files w' !! uw_exe w = Some (take n data) ∧ P data) ∧
  ∃ l, uw_started w' = uw_started w ++ l ∧ Forall P l.
Lemma allowed_untouched P w w' : untouched w w' → allowed P w w'.
Proof. intros (_ & Hs & Hf & _). split; [by left|]. exists []. by rewrite Hs, app_nil_r. Qed.

Lemma before_apply (P : bytes → Prop) target fuel info w :
  let path := download_path (up_download_url info) w in
  path ≠ uw_exe w →
  (∀ w', untouched w w' → 
    (if bool_decide (up_sha256 info = ""%string) then True
     else ∃ data, uw_files w' !! path = Some data ∧ matches (up_sha256 info) data) →
    allowed P w (run upd_handler (apply_update target path) w').2) →
  allowed P w (run upd_handler (download_and_apply target fuel info) w).2.
Proof.
  cbv zeta. set (path := download_path (up_download_url info) w). intros Hp Hend.
  pose proof (allowed_untouched P w) as Hsame.
  unfold download_and_apply. apply (run_after (allowed P w)); [by unfold keeps_world|done|]. intros tmp w1 [= <- <-] _. fold path.
  apply (run_after_try (allowed P w)); [|done|].
  { unfold keeps_world, head_content_length. cbn. done. }
  intros size w1 E1 Hw1.
  apply (run_after (allowed P w)).
  { done. }
  { intros w2 Hw2. apply Hsame. by etrans. }
  intros ex w2 E2 Hw2. assert (untouched w w2) as Hu2 by by etrans.
  apply (run_after (allowed P w)).
  { unfold keeps_world. destruct ex; [destruct size|]; done. }
  { intros w3 Hw3. apply Hsame. by etrans. }
  intros already w3 E3 Hw3. assert (untouched w w3) as Hu3 by by etrans.
  assert (path ≠ uw_exe w3) as Hp3 by (destruct Hu3 as (-> & _); done).
  apply (run_after_try (allowed P w)).
  { destruct already; [by unfold keeps_world|by apply download_keeps]. }
  { intros w4 Hw4. apply Hsame. by etrans. }
  intros [] w4 E4 Hw4. assert (untouched w w4) as Hu4 by by etrans.
  assert (path ≠ uw_exe w4) as Hp4 by (destruct Hu4 as (-> & _); done).
  apply (run_after_try (allowed P w)).
  { destruct (bool_decide _); [by unfold keeps_world|by apply verify_keeps]. }
  { intros w5 Hw5. apply Hsame. by etrans. }
  intros [] w5 E5 Hw5. apply Hend; [by etrans|].
  destruct (bool_decide _); [done|]. by apply verify_passed in E5 as [-> ?].
Qed.


(** Linux refuses to write to a program that runs, so that there no update is
    ever installed: the program on the disk stays, and none is started, however
    good the download is. *)
Theorem running_program_stays fuel info w :
  uw_busy w = true → download_path (up_download_url info) w ≠ uw_exe w →
  let w' := (run upd_handler (download_and_apply Linux fuel info) w).2 in
  uw_files w' !! uw_exe w = uw_files w !! uw_exe w ∧ uw_started w' = uw_started w.
Proof.
  intros Hb Hp. cbv zeta.
  enough (allowed (λ _, False) w (run upd_handler (download_and_apply Linux fuel info) w).2) as [[Hf|(?&?&?&[])] (l & Hl & Hall)].
  { split; [done|]. destruct l as [|x l]; [by rewrite app_nil_r in Hl|]. by apply Forall_cons in Hall as [[] _]. }
  apply before_apply; [done|]. intros w' Hw _. destruct Hw as (He & Hst & Hf & _ & Hbusy & _).
  enough ((run upd_handler (apply_update Linux (download_path (up_download_url info) w)) w').2 = w') as ->.
  { split; [by left|]. exists []. by rewrite Hst, app_nil_r. }
  unfold apply_update, apply_unix, ensure, try_bind. cbn.
  destruct (uw_files w' !! download_path (up_download_url info) w) as [b|]; [|reflexivity]. rewrite bool_decide_eq_true_2 by done. rewrite Hbusy, Hb. reflexivity.
Qed.

(** ** A damaged download *)

Definition fetched (dest : string) (b : bytes) (w : UpdWorld) : UpdWorld :=
  mkUpdWorld (<[dest := b]> (uw_files w)) [] (uw_cut w) (uw_busy w) (uw_tmp w) (uw_exe w) (uw_head w) (uw_get w) (Some [])
    (uw_started w).
Lemma copy_body_run fuel h dest total : ∀ n b acc w,
  uw_faults w = [] → uw_body w = Some b → uw_files w !! dest = Some acc → (length b < fuel)%nat →
  run upd_handler (copy_body fuel h dest total n) w = (Finished (Ok tt), fetched dest (acc ++ b) w).
Proof.
  induction fuel as [|fuel IH]; intros n b acc w Hf Hb Hd Hl; [lia|]. cbn [copy_body].
  set (chunk := take (Z.to_nat 65536) b). set (rest := drop (Z.to_nat 65536) b).
  set (w1 := with_body (Some rest) w).
  erewrite (run_bind_eq _ _ _ w (Some chunk) w1) by (cbn; by rewrite Hb).
  assert (chunk ++ rest = b) as Hcr by apply take_drop.
  destruct chunk as [|x c] eqn:Ec.
  - assert (b = []) as ->.
    { destruct b as [|y b]; [done|]. unfold chunk in Ec. destruct (Z.to_nat 65536) eqn:E; [lia|done]. }
    cbn. subst w1 rest. rewrite drop_nil, app_nil_r. unfold with_body, fetched. cbn.
    rewrite insert_id by done. by rewrite Hf.
  - assert (length rest < length b)%nat as Hlen by (rewrite <- Hcr, length_app; cbn; lia).
    set (w2 := with_files (alter (λ f, f ++ x :: c) dest (uw_files w1)) w1).
    erewrite (run_try _ _ _ w1 tt w2).
    2: { unfold ensure. subst w2 w1. cbn. unfold disk_write. cbn. by rewrite Hf. }
    erewrite (run_bind_eq _ _ _ w2 tt w2) by by destruct (0 <? total).
    rewrite (IH _ rest (acc ++ x :: c) w2); [|by subst w2 w1; cbn; rewrite Hf|done| |lia].
    + unfold fetched. subst w2 w1. cbn. rewrite <- app_assoc, Hcr. do 2 f_equal.
      apply map_eq. intros k. destruct (decide (k = dest)) as [->|Hk]; [by rewrite !lookup_insert_eq|].
      by rewrite !lookup_insert_ne, lookup_alter_ne by done.
    + subst w2 w1. cbn. by rewrite lookup_alter_eq, Hd.
Qed.
Lemma fetch_run fuel url dest a b w :
  uw_faults w = [] → uw_get w url = Some (a, b) → ha_success a = true → (length b < fuel)%nat →
  run upd_handler (download_to_file fuel url dest) w = (Finished (Ok tt), fetched dest b w).
Proof.
  intros Hf Hg Ha Hl. unfold download_to_file.
  set (w1 := with_body (Some b) w).
  erewrite (run_bind_eq _ _ _ w (Some a) w1) by (cbn; by rewrite Hg). rewrite Ha. cbn [negb].
  set (w2 := with_files (<[dest := []]> (uw_files w1)) w1).
  erewrite (run_try _ _ _ w1 tt w2).
  2: { unfold ensure. subst w2 w1. cbn. unfold disk_write. cbn. by rewrite Hf. }
  rewrite (copy_body_run _ _ _ _ _ b [] w2); [|by subst w2 w1; cbn; rewrite Hf|done|by cbn; rewrite lookup_insert_eq|done].
  unfold fetched. subst w2 w1. cbn. by rewrite insert_insert_eq.
Qed.
Lemma verify_fails path expected data w :
  uw_faults w = [] → uw_files w !! path = Some data → ¬ matches expected data →
  run upd_handler (verify_sha256 path expected) w =
  (Finished (Err (Failed "SHA256")), with_files (delete path (uw_files w)) w).
Proof.
  intros Hf Hd Hm. unfold verify_sha256. cbn. rewrite Hd.
  destruct (String.eqb_spec (to_lowercase (sha256_hex data)) (to_lowercase (trim expected))) as [He|]; [done|].
  cbn. unfold disk_write. by rewrite Hf.
Qed.
Lemma verify_succeeds path expected data w :
  uw_files w !! path = Some data → matches expected data →
  run upd_handler (verify_sha256 path expected) w = (Finished (Ok tt), w).
Proof.
  intros Hd Hm. unfold verify_sha256. cbn. rewrite Hd. unfold matches in Hm. by rewrite Hm, String.eqb_refl.
Qed.

(** A file of the announced size and other contents under the name of the
    download is not fetched again; the hash finds it out, and it is deleted.
    The next attempt fetches the right one and, on Windows, starts it. *)
Theorem damaged_download_recovers fuel info bad good size a w :
  let url := up_download_url info in let path := download_path url w in
  up_sha256 info ≠ ""%string → uw_faults w = [] → uw_files w !! path = Some bad →
  uw_head w url = Some size → ha_length size = Some (zlen bad) → ¬ matches (up_sha256 info) bad →
  uw_get w url = Some (a, good) → ha_success a = true → matches (up_sha256 info) good → (length good < fuel)%nat →
  let r1 := run upd_handler (download_and_apply Windows fuel info) w in
  let r2 := run upd_handler (download_and_apply Windows fuel info) r1.2 in
  r1.1 = Finished (Err (Failed "SHA256")) ∧ uw_started r1.2 = uw_started w ∧
  r2.1 = Waiting ∧ uw_started r2.2 = uw_started w ++ [good].
Proof.
  cbv zeta. set (url := up_download_url info). set (path := download_path url w).
  intros Hs Hf Hbad Hh Hsize Hm Hg Ha Hgood Hfuel.
  assert (run upd_handler (download_and_apply Windows fuel info) w =
    (Finished (Err (Failed "SHA256")), with_files (delete path (uw_files w)) w)) as ->.
  { unfold download_and_apply. fold url.
    erewrite (run_bind_eq _ _ _ w path w) by done.
    erewrite (run_try _ _ _ w (Some (zlen bad)) w) by (cbn; by rewrite Hh, Hsize).
    erewrite (run_bind_eq _ _ _ w true w) by (cbn; by rewrite Hbad).
    erewrite (run_bind_eq _ _ _ w true w) by (cbn; rewrite Hbad; cbn; by rewrite bool_decide_eq_true_2).
    erewrite (run_try _ _ _ w tt w) by done. rewrite bool_decide_eq_false_2 by done.
    erewrite run_try_err; [done|]. by apply verify_fails with bad. }
  set (w1 := with_files (delete path (uw_files w)) w). cbn [fst snd].
  assert (uw_faults w1 = []) as Hf1 by (subst w1; cbn; by rewrite Hf).
  assert (run upd_handler (download_and_apply Windows fuel info) w1 = (Waiting, with_started good (fetched path good w1))) as ->; [|done].
  unfold download_and_apply. fold url.
  erewrite (run_bind_eq _ _ _ w1 path w1) by done.
  erewrite (run_try _ _ _ w1 (Some (zlen bad)) w1) by (subst w1; cbn; by rewrite Hh, Hsize).
  erewrite (run_bind_eq _ _ _ w1 false w1) by (subst w1; cbn; by rewrite lookup_delete_eq).
  erewrite (run_bind_eq _ _ _ w1 false w1) by done.
  erewrite (run_try _ _ _ w1 tt (fetched path good w1)) by (by apply fetch_run with a).
  rewrite bool_decide_eq_false_2 by done.
  erewrite (run_try _ _ _ (fetched path good w1) tt (fetched path good w1))
    by (apply verify_succeeds with good; [by cbn; rewrite lookup_insert_eq|done]).
  unfold apply_update, apply_windows. cbn. by rewrite lookup_insert_eq.
Qed.
End updater_spec.

(** ** The times of the queries *)

(** A clock, the messages with the times they arrive at, how long each query
    takes, and the times at which one began. *)
Record AutoWorld : Type := mkAutoWorld {
  au_clock : Instant;
  au_msgs : list (Instant * UpdateMsg);
  au_takes : list Z;
  au_checks : list Instant;
}.
Definition au_at (t : Instant) (msgs : list (Instant * UpdateMsg)) (w : AutoWorld) : AutoWorld :=
  mkAutoWorld t msgs (au_takes w) (au_checks w).
Definition auto_handler : Handler UpdIo AutoWorld := λ X e w,
  match e in UpdIo X return option (X * AutoWorld) with
  | UHttp _ _ =>
    Some (None, mkAutoWorld (au_clock w + default 0 (head (au_takes w))) (au_msgs w) (tail (au_takes w))
                  (au_checks w ++ [au_clock w]))
  | UClock => Some (au_clock w, w)
  | URecv d =>
    match au_msgs w with
    | (t, m) :: msgs =>
      if t <=? au_clock w + d then Some (Message m, au_at (Z.max (au_clock w) t) msgs w)
      else Some (Timeout, au_at (au_clock w + d) (au_msgs w) w)
    | [] => Some (Timeout, au_at (au_clock w + d) [] w)
    end
  | UFound _ | UStore _ => Some (tt, w)
  | _ => None
  end.

(** Queries each of which begins between ten minutes and a day after the end of
    the one before. *)
Fixpoint spaced (last : Instant) (takes : list Z) (cs : list Instant) : Prop :=
  match cs with
  | [] => True
  | c :: cs =>
    last + MIN_CHECK_INTERVAL <= c <= last + AUTO_CHECK_INTERVAL ∧
    spaced (c + default 0 (head takes)) (tail takes) cs
  end.

Section auto.
Variables (target : Target) (api_url : string).

Definition after_query (w : AutoWorld) : AutoWorld :=
  mkAutoWorld (au_clock w + default 0 (head (au_takes w))) (au_msgs w) (tail (au_takes w)) (au_checks w ++ [au_clock w]).
Lemma query_run {A} (k : Instant → Prog UpdIo A) w :
  run auto_handler (do_auto_check target api_url;; now ← ask UClock; k now) w =
  run auto_handler (k (au_clock (after_query w))) (after_query w).
Proof. done. Qed.

Lemma auto_loop_spaced fuel : ∀ last w,
  Forall (λ d, 0 <= d) (au_takes w) → last <= au_clock w <= last + AUTO_CHECK_INTERVAL →
  ∃ cs, au_checks (run auto_handler (auto_check_loop target fuel api_url last) w).2 = au_checks w ++ cs ∧
    spaced last (au_takes w) cs.
Proof.
  induction fuel as [|fuel IH]; intros last w Ht Hl; [exists []; by rewrite app_nil_r|].
  cbn [auto_check_loop]. rewrite (run_bind_eq _ _ _ w (au_clock w) w) by done. unfold elapsed.
  set (d := Z.max 0 (AUTO_CHECK_INTERVAL - Z.max 0 (au_clock w - last))).
  assert (0 <= d ∧ au_clock w + d = last + AUTO_CHECK_INTERVAL) as [Hd Hend] by (subst d; lia).
  assert (∀ w1, au_takes w1 = au_takes w → au_checks w1 = au_checks w →
    last + MIN_CHECK_INTERVAL <= au_clock w1 <= last + AUTO_CHECK_INTERVAL →
    ∃ cs, au_checks (run auto_handler (do_auto_check target api_url;; now ← ask UClock;
        auto_check_loop target fuel api_url now) w1).2 = au_checks w ++ cs ∧ spaced last (au_takes w) cs) as Hquery.
  { intros w1 E1 E2 Hc. rewrite query_run. destruct (IH (au_clock (after_query w1)) (after_query w1)) as (cs & -> & Hcs).
    - cbn. rewrite E1. destruct (au_takes w); [done|]. by apply Forall_cons in Ht as [_ ?].
    - unfold AUTO_CHECK_INTERVAL. lia.
    - exists (au_clock w1 :: cs). cbn in *. rewrite E1 in *. rewrite E2, <- app_assoc. done. }
  assert (run auto_handler (ask (URecv d)) w = (Finished Timeout, au_at (last + AUTO_CHECK_INTERVAL) (au_msgs w) w) ∨
    ∃ t m msgs, t <= au_clock w + d ∧
      run auto_handler (ask (URecv d)) w = (Finished (Message m), au_at (Z.max (au_clock w) t) msgs w))
    as [Hr|(t & m & msgs & Hle & Hr)].
  { rewrite <- Hend. cbn. destruct (au_msgs w) as [|[t m] msgs]; [by left|].
    destruct (Z.leb_spec t (au_clock w + d)); [right; by exists t, m, msgs|by left]. }
  - rewrite (run_bind_eq _ _ _ _ _ _ Hr). apply Hquery; [done|done|]. cbn. unfold MIN_CHECK_INTERVAL, AUTO_CHECK_INTERVAL. lia.
  - rewrite (run_bind_eq _ _ _ _ _ _ Hr). set (w1 := au_at _ msgs w).
    assert (last <= au_clock w1 <= last + AUTO_CHECK_INTERVAL) as Hw1 by (subst w1; cbn; lia).
    destruct m; [|exists []; by rewrite app_nil_r].
    rewrite (run_bind_eq _ _ _ w1 (au_clock w1) w1) by done. cbv beta.
    destruct (Z.leb_spec MIN_CHECK_INTERVAL (Z.max 0 (au_clock w1 - last))) as [Hm|Hm].
    + apply Hquery; [done|done|]. unfold MIN_CHECK_INTERVAL in *. lia.
    + exact (IH last w1 Ht Hw1).
Qed.

(** Whatever messages come and however long the queries take: the thread asks
    for the first time within thirty seconds, and then again and again, ten
    minutes after the end of a query at the earliest and a day after it at the
    latest. *)
Theorem queries_are_spaced fuel w :
  Forall (λ d, 0 <= d) (au_takes w) → au_checks w = [] →
  match au_checks (run auto_handler (auto_update_thread target fuel api_url) w).2 with
  | [] => ∃ t msgs, au_msgs w = (t, ExitUpdate) :: msgs ∧ t <= au_clock w + INITIAL_DELAY
  | c :: cs =>
    c <= au_clock w + INITIAL_DELAY ∧
    spaced (c + default 0 (head (au_takes w))) (tail (au_takes w)) cs
  end.
Proof.
  intros Ht Hc. unfold auto_update_thread.
  assert (∀ w1, au_takes w1 = au_takes w → au_checks w1 = [] → au_clock w1 <= au_clock w + INITIAL_DELAY →
    match au_checks (run auto_handler (do_auto_check target api_url;; now ← ask UClock;
        auto_check_loop target fuel api_url now) w1).2 with
    | [] => False
    | c :: cs => c <= au_clock w + INITIAL_DELAY ∧
                 spaced (c + default 0 (head (au_takes w))) (tail (au_takes w)) cs
    end) as Hquery.
  { intros w1 E1 E2 Hw1. rewrite query_run.
    destruct (auto_loop_spaced fuel (au_clock (after_query w1)) (after_query w1)) as (cs & -> & Hcs).
    - cbn. rewrite E1. destruct (au_takes w); [done|]. by apply Forall_cons in Ht as [_ ?].
    - unfold AUTO_CHECK_INTERVAL. lia.
    - cbn in *. rewrite E1, E2 in *. done. }
  cbn [mbind Prog_bind prog_bind ask run auto_handler].
  destruct (au_msgs w) as [|[t m] msgs] eqn:Em.
  - specialize (Hquery (au_at (au_clock w + INITIAL_DELAY) [] w) eq_refl Hc ltac:(cbn; unfold INITIAL_DELAY in *; lia)).
    cbn in Hquery |- *. by case_match.
  - destruct (Z.leb_spec t (au_clock w + INITIAL_DELAY)) as [Hle|Hle].
    + destruct m.
      * specialize (Hquery (au_at (Z.max (au_clock w) t) msgs w) eq_refl Hc ltac:(cbn; unfold INITIAL_DELAY in *; lia)).
        cbn in Hquery |- *. by case_match.
      * cbn. rewrite Hc. by exists t, msgs.
    + specialize (Hquery (au_at (au_clock w + INITIAL_DELAY) ((t, m) :: msgs) w) eq_refl Hc ltac:(cbn; unfold INITIAL_DELAY in *; lia)).
      cbn in Hquery |- *. by case_match.
Qed.
End auto.

(** ** Versions *)

Lemma list_gt_irrefl a : list_gt a a = false.
Proof. induction a as [|x a IH]; [done|]. cbn. by rewrite Z.eqb_refl. Qed.
Lemma list_gt_trans a : ∀ b c, list_gt a b = true → list_gt b c = true → list_gt a c = true.
Proof.
  induction a as [|x a IH]; intros [|y b] [|z c]; cbn; try done.
  destruct (Z.eqb_spec x y), (Z.eqb_spec y z), (Z.eqb_spec x z); intros Hab Hbc; bool_simp; subst; try lia; eauto.
  all: apply Z.ltb_lt; lia.
Qed.
Lemma list_gt_total a : ∀ b, a = b ∨ list_gt a b = true ∨ list_gt b a = true.
Proof.
  induction a as [|x a IH]; intros [|y b]; cbn; [by left|by right; right|by right; left|].
  rewrite (Z.eqb_sym y x). destruct (Z.eqb_spec x y) as [->|Hne].
  - destruct (IH b) as [->|[H|H]]; eauto.
  - right. destruct (Z.ltb_spec y x); [by left|right]. apply Z.ltb_lt. lia.
Qed.

Lemma list_gt_more a x : list_gt (a ++ [x]) a = true.
Proof. induction a as [|y a IH]; [done|]. cbn. by rewrite Z.eqb_refl. Qed.

(** The order of versions is strict and total, up to the numbers they are read
    as; the number of parts counts: a version followed by [.0] is newer than the
    version, so that a client of 0.1.0 is offered a 0.1.0.0, and offered it
    again after the update. *)
Theorem versions_are_ordered a b c :
  is_newer a a = false ∧ (is_newer a b = true → is_newer b c = true → is_newer a c = true) ∧
  (version_numbers a = version_numbers b ∨ is_newer a b = true ∨ is_newer b a = true) ∧
  is_newer (a +:+ ".0") a = true.
Proof.
  unfold is_newer. split_and!; [apply list_gt_irrefl|apply list_gt_trans|apply list_gt_total|].
  change (".0")%string with (String "." "0"). unfold version_numbers. rewrite split_on_app, fmap_app. apply list_gt_more.
Qed.

(** ** At concrete inputs *)
Section witnesses.
(** A hash by the number of the bytes, in decimal. *)
#[local] Instance TestSha : Sha256 := λ b, to_string (zlen b + foldr Z.add 0 b).
Definition upd_info : UpdateInfo := mkUpdateInfo "0.2.0" "http://s/nat-client.exe" "10" "".
Definition upd_world (busy : bool) (cached : bytes) : UpdWorld :=
  mkUpdWorld {["/tmp/nat-client.exe"%string := cached; "/bin/nat"%string := [1]]} [] 0 busy "/tmp" "/bin/nat"
    (λ _, Some (mkHttpAnswer true (Some 3) None 0)) (λ _, Some (mkHttpAnswer true (Some 3) None 0, [2; 2; 3])) None [].


Lemma running_program_stays_witness :
  let r := run upd_handler (download_and_apply Linux 9 upd_info) (upd_world true [2; 2; 3]) in
  r.1 = Finished (Err Io) ∧ uw_files r.2 !! "/bin/nat"%string = Some [1].
Proof.
  cbv zeta. split; [vm_compute; reflexivity|].
  refine (eq_trans (proj1 (running_program_stays 9 upd_info (upd_world true [2; 2; 3]) eq_refl _)) _);
    vm_compute; [discriminate|reflexivity].
Defined.

Lemma damaged_download_recovers_witness :
  let r1 := run upd_handler (download_and_apply Windows 9 upd_info) (upd_world false [9; 9; 9]) in
  let r2 := run upd_handler (download_and_apply Windows 9 upd_info) r1.2 in
  r1.1 = Finished (Err (Failed "SHA256")) ∧ uw_started r2.2 = [[2; 2; 3]].
Proof.
  destruct (damaged_download_recovers 9 upd_info [9; 9; 9] [2; 2; 3] (mkHttpAnswer true (Some 3) None 0)
    (mkHttpAnswer true (Some 3) None 0) (upd_world false [9; 9; 9])) as (H1 & _ & _ & H2);
    try solve [discriminate|reflexivity|vm_compute; reflexivity|vm_compute; discriminate|cbn; lia].
  exact (conj H1 H2).
Defined.

Definition au_world : AutoWorld := mkAutoWorld 0 [(40 * 10 ^ 9, CheckUpdate); (3600 * 10 ^ 9, CheckUpdate)] [10 ^ 9] [].
Lemma queries_are_spaced_witness :
  au_checks (run auto_handler (auto_update_thread Linux 4 "http://s") au_world).2 =
    [30 * 10 ^ 9; 3600 * 10 ^ 9; 90000 * 10 ^ 9; 176400 * 10 ^ 9] ∧
  spaced (31 * 10 ^ 9) [] [3600 * 10 ^ 9; 90000 * 10 ^ 9; 176400 * 10 ^ 9].
Proof.
  split; [vm_compute; reflexivity|].
  pose proof (queries_are_spaced Linux "http://s" 4 au_world) as H. vm_compute in H.
  apply H; [repeat constructor; discriminate|reflexivity].
Defined.

Lemma versions_are_ordered_witness : is_newer "0.3" "0.1" = true.
Proof. apply (versions_are_ordered "0.3" "0.2" "0.1"); vm_compute; reflexivity. Defined.
End witnesses.
