(* ===== verification/Mediator.v ===== *)
(** * The mediator: [nat-client/src/rendezvous_mediator.rs]

    The connection to the rendezvous server: registration and keep-alive, the
    messages of the server, and what they start: the punching of holes, relays,
    proxied connections, the exchange of local addresses, the detection of the
    NAT; and the requests of this machine for a peer.  Theorems are in
    [ClientServer], [ClientCalls] and [PortForwardSpec]. *)
From Stdlib Require Import Ascii.
From S2P Require Import Prelude AddrMangle Text TextFacts HostText Proto RendezvousCodec Database Keys ClientConfig Programs ClientIo KcpTunnel PortForward Socks5.
Local Open Scope Z_scope.

(** [RendezvousMediator]; [host] is with its port. *)
Record Mediator : Type := mkMediator { rz_host : string; rz_host_prefix : string; rz_wire : Protocol }.

(** ** Helpers *)

Definition get_host_prefix (host : string) : string :=
  let host_only := match rcut ":" host with Some (h, _) => h | None => host end in
  match split_on "." host_only with
  | x :: _ => match parse_i32 x with Some _ => host_only | None => x end
  | [] => host_only
  end.

Section mediator.
Context `{WireLib} `{UrlBase64} `{KeyLib} `{TomlLib}.

(** The configured relay, else the server's, else the next port of the host. *)
Definition get_relay_server (host provided : string) : IO string :=
  local ← config ClientConfig.get_relay_server;
  mret (if negb (bool_decide (local = ""%string)) then local
        else if negb (bool_decide (provided = ""%string)) then provided
        else increase_port host 1).

Definition probe_udp_public_port (host : string) : IO (option Z) :=
  match parse_socket_addr (check_port host RENDEZVOUS_PORT) with
  | None => mret None
  | Some hbbs_addr =>
    s ← ask BindUdp;
    match s with None => mret None | Some sock => query_udp_public_port sock hbbs_addr end
  end.

(** ** Registration *)

Definition register_peer (rz : Mediator) (conn : nat) : Fallible unit :=
  id ← config get_id;
  send_rendezvous conn (mk (U_RegisterPeer {| rp_id := id; rp_serial := 0 |})) (rz_wire rz).

Definition register_pk (rz : Mediator) (conn : nat) : Fallible unit :=
  id ← config get_id;
  pk ← config (λ st, (get_key_pair st).2);
  uuid ← config get_uuid_bytes;
  now ← ask UnixNow;
  user_token ← config (λ st, default ""%string (get_auth_token now st));
  send_rendezvous conn (mk (U_RegisterPk
    {| rk_id := id; rk_uuid := uuid; rk_pk := pk; rk_old_id := ""; rk_no_register_device := false;
       rk_user_token := user_token |})) (rz_wire rz).

(** ** The type of the NAT *)

Definition query_nat_port (host : string) (wire : Protocol) : Fallible Z :=
  conn ←? or_else Io (ask (ConnectTcp host));
  do? send_rendezvous conn.1 (mk (U_TestNatRequest {| tnq_serial := 0 |})) wire;
  r ← ask (NextFrame conn.1 (Some CONNECT_TIMEOUT));
  match r with
  | TimedOut => mret (Err Elapsed)
  | Ended => mret (Err Eof)
  | Broken => mret (Err Io)
  | Frame b =>
    match parse b with
    | None => mret (Err (Failed "parse"))
    | Some resp =>
      match union resp with
      | Some (U_TestNatResponse tnr) => mret (Ok (tnr_port tnr))
      | _ => mret (Err (Failed "unexpected"))
      end
    end
  end.
(** 1 (asymmetric) when two connections show the same port, 2 (symmetric) when
    they do not. *)
Definition detect_nat_type_inner (host : string) (wire : Protocol) : Fallible Z :=
  port1 ←? query_nat_port host wire;
  port2 ←? query_nat_port host wire;
  mret (Ok (if (0 <? port1) && (0 <? port2) then if port1 =? port2 then 1 else 2 else 0)).
Definition detect_nat_type (host : string) (wire : Protocol) : IO unit :=
  r ← detect_nat_type_inner host wire;
  match r with
  | Ok nat_type => ask (PutStore (set_nat_type_ nat_type));; ask (SetFlag NAT_DETECTED true)
  | Err _ => mret tt
  end.
(** After every successful registration, until it has been detected. *)
Definition spawn_detection (rz : Mediator) : IO unit :=
  detected ← ask (GetFlag NAT_DETECTED);
  if detected : bool then mret tt else ask (Spawn (T_detect_nat_type (rz_host rz) (rz_wire rz))).

(** ** The messages of the server *)

Definition restart : IO unit := ask (SetFlag SHOULD_EXIT true);; ask (SetFlag MANUAL_RESTARTED true).

(** The result is the new [last_register_sent]. *)
Definition handle_msg (rz : Mediator) (msg : option Union) (conn : nat) (last_register_sent : option Instant)
    : Fallible (option Instant) :=
  match msg with
  | Some (U_RegisterPeerResponse rpr) =>
    if rpr_request_pk rpr then do? register_pk rz conn; mret (Ok None)
    else ask (SetFlag ONLINE true);; spawn_detection rz;; mret (Ok None)
  | Some (U_RegisterPkResponse rpr) =>
    match RegisterResult_enum (rkr_result rpr) with
    | Some OK =>
      ask (PutStore (set_key_confirmed_ true));;
      ask (PutStore (set_host_key_confirmed (rz_host_prefix rz) true));;
      ask (SetFlag ONLINE true);;
      spawn_detection rz;;
      mret (Ok last_register_sent)
    | Some UUID_MISMATCH =>
      ask (PutStore (set_key_confirmed_ false));;
      do? register_pk rz conn;
      mret (Ok last_register_sent)
    | _ => mret (Ok last_register_sent)
    end
  | Some (U_PunchHole ph) =>
    ask (Spawn (T_punch_hole (rz_host rz) (rz_wire rz) ph));; mret (Ok last_register_sent)
  | Some (U_RequestRelay rr) =>
    ask (Spawn (T_request_relay (rz_host rz) (rz_wire rz) rr));; mret (Ok last_register_sent)
  | Some (U_FetchLocalAddr fla) =>
    ask (Spawn (T_fetch_local_addr (rz_host rz) (rz_wire rz) fla));; mret (Ok last_register_sent)
  | Some (U_ConfigureUpdate cu) =>
    let servers := join "," (cu_rendezvous_servers cu) in
    old ← config (λ st, join "," (get_rendezvous_servers st));
    (if negb (bool_decide (servers = ""%string)) && negb (bool_decide (servers = old)) then
       ask (PutStore (update (set_rendezvous_servers servers)));; restart
     else mret tt);;
    mret (Ok last_register_sent)
  | _ => mret (Ok last_register_sent)
  end.

(** ** The connection *)

(** The two times of the loop. *)
Record Timers : Type := mkTimers { last_register_sent : option Instant; last_recv_msg : Instant }.

(** A frame of the server; an empty one is a heartbeat that goes back. *)
Definition on_frame (rz : Mediator) (conn : nat) (res : Recv) (t : Timers) : Fallible Timers :=
  now ← ask Clock;
  match res with
  | Frame [] =>
    do? ensure Io (ask (SendBytes conn []));
    mret (Ok (mkTimers (last_register_sent t) now))
  | Frame b =>
    match parse b with
    | None => mret (Err (Failed "parse"))
    | Some msg =>
      sent ←? handle_msg rz (union msg) conn (last_register_sent t);
      mret (Ok (mkTimers sent now))
    end
  | _ => mret (Err Io)
  end.

(** A tick of the timer: [None] when the mediator is told to exit. *)
Definition on_tick (rz : Mediator) (conn : nat) (t : Timers) : Fallible (option Timers) :=
  exit ← ask (GetFlag SHOULD_EXIT);
  if exit : bool then mret (Ok None) else
  now ← ask Clock;
  if 22500 <? as_millis (elapsed now (last_recv_msg t)) then mret (Err Elapsed) else
  key ← config get_key_confirmed;
  host_key ← config (get_host_key_confirmed (rz_host_prefix rz));
  let need_reg := negb key || negb host_key in
  now ← ask Clock;
  let elapsed_ms :=
    match last_register_sent t with Some s => as_millis (elapsed now s) | None => REG_INTERVAL end in
  if REG_INTERVAL <=? elapsed_ms then
    do? (if need_reg then register_pk rz conn else register_peer rz conn);
    now ← ask Clock;
    mret (Ok (Some (mkTimers (Some now) (last_recv_msg t))))
  else mret (Ok (Some t)).

Fixpoint mediator_loop (fuel : nat) (rz : Mediator) (conn : nat) (t : Timers) : Fallible unit :=
  match fuel with
  | O => Stop OutOfFuel
  | S fuel =>
    e ← ask (Select conn);
    match e with
    | Some res => t ←? on_frame rz conn res t; mediator_loop fuel rz conn t
    | None =>
      r ←? on_tick rz conn t;
      match r with Some t => mediator_loop fuel rz conn t | None => mret (Ok tt) end
    end
  end.

Definition start_tcp (fuel : nat) (host : string) : Fallible unit :=
  conn ←? or_else Io (ask (ConnectTcp host));
  let host_prefix := get_host_prefix host in
  wire ← config get_rendezvous_wire_protocol;
  ask (PutStore (set_host_key_confirmed host_prefix false));;
  now ← ask Clock;
  mediator_loop fuel (mkMediator host host_prefix wire) conn.1 (mkTimers None now).
Definition start (fuel : nat) (host : string) : Fallible unit :=
  start_tcp fuel (check_port host RENDEZVOUS_PORT).
(** The task of a server. *)
Definition serve (fuel : nat) (host : string) : IO unit :=
  _ ← start fuel host; ask (SetFlag SHOULD_EXIT true).

(** One round of [start_all]. *)
Definition start_all_round : IO unit :=
  servers ← config get_rendezvous_servers;
  match servers with
  | [] => ask (Sleep 30000)
  | _ =>
    ask (SetFlag SHOULD_EXIT false);;
    ask (SetFlag MANUAL_RESTARTED false);;
    ask (RunServers servers);;
    ask (SetFlag ONLINE false);;
    manual ← ask (GetFlag MANUAL_RESTARTED);
    ask (Sleep (if manual : bool then 100 else 5000))
  end.

(** ** Relays *)

Definition create_relay_connection (host : string) (wire : Protocol) (socket_addr : bytes)
    (relay_server uuid : string) (initiate : bool) (peer_id : string) : Fallible unit :=
  let peer_addr := AddrMangle.decode socket_addr in
  hbbs ←? or_else Io (ask (ConnectTcp host));
  id ← (if initiate then config get_id else mret ""%string);
  do? send_rendezvous hbbs.1 (mk (U_RelayResponse
    {| rlr_socket_addr := socket_addr; rlr_uuid := if initiate then uuid else "";
       rlr_relay_server := if initiate then relay_server else "";
       rlr_union := if initiate then Some (RlrId id) else None;
       rlr_refuse_reason := ""; rlr_version := CARGO_PKG_VERSION; rlr_feedback := 0;
       rlr_socket_addr_v6 := []; rlr_upnp_port := 0 |})) wire;
  relay_conn ←? or_else Io (ask (ConnectTcp (check_port relay_server (RENDEZVOUS_PORT + 1))));
  if initiate then register_relay uuid peer_addr relay_conn.1 "" 0;; mret (Ok tt)
  else
    target ← config (find_target_for_peer peer_id);
    let '(target_host, target_port) := default ("127.0.0.1"%string, 0) target in
    if target_port =? 0 then mret (Ok tt)
    else register_relay uuid peer_addr relay_conn.1 target_host target_port;; mret (Ok tt).

(** The target in the uuid of a proxied connection: [proxy:<base64>:<hex>]. *)
Definition proxy_target (uuid : string) : option (string * Z) :=
  match splitn3 ":" uuid with
  | _ :: encoded :: _ =>
    b ← url_decode encoded;
    target ← from_utf8 b;
    '(host, port_str) ← rcut ":" target;
    let port := default 0 (parse_u16 port_str) in
    if port =? 0 then None else Some (host, port)
  | _ => None
  end.

Definition handle_proxy_relay (host : string) (rr : RequestRelay) : Fallible unit :=
  match proxy_target (rr_uuid rr) with
  | None => mret (Ok tt)
  | Some (target_host, port) =>
    relay_server ← get_relay_server host (rr_relay_server rr);
    relay_conn ←? or_else Io (ask (ConnectTcp (check_port relay_server (RENDEZVOUS_PORT + 1))));
    do? ensure Io (ask (SendBytes relay_conn.1 (uuid_handshake (rr_uuid rr))));
    target_stream ←? ask (Dial (host_port target_host port) (Some CONNECT_TIMEOUT));
    ask (Spawn (T_bridge target_stream relay_conn.1));;
    mret (Ok tt)
  end.

Definition handle_request_relay (host : string) (wire : Protocol) (rr : RequestRelay) : Fallible unit :=
  if starts_with "proxy:" (rr_uuid rr) then handle_proxy_relay host rr
  else
    relay_server ← get_relay_server host (rr_relay_server rr);
    create_relay_connection host wire (rr_socket_addr rr) relay_server (rr_uuid rr) false (rr_id rr).

(** ** Holes *)

Definition target_of (peer_addr : SocketAddr) : IO (string * Z) :=
  config (λ st, default ("127.0.0.1"%string, 0) (find_target_for_peer (ip_string (ip peer_addr)) st)).

Definition punch_tcp_hole (host : string) (wire : Protocol) (peer_addr : SocketAddr)
    (socket_addr_bytes : bytes) (relay_server uuid : string) : Fallible unit :=
  socket ←? or_else Io (ask (ConnectTcp host));
  ask (PunchSyn peer_addr socket.2);;
  udp_port ← probe_udp_public_port host;
  id ← config get_id;
  do? send_rendezvous socket.1 (mk (U_PunchHoleSent
    {| phs_socket_addr := socket_addr_bytes; phs_id := id; phs_relay_server := relay_server;
       phs_nat_type := 0; phs_version := CARGO_PKG_VERSION; phs_upnp_port := default 0 udp_port;
       phs_socket_addr_v6 := [] |})) wire;
  target ← target_of peer_addr;
  if target.2 =? 0 then mret (Ok tt)
  else register_inbound socket.2 peer_addr uuid target.1 target.2;; mret (Ok tt).

(** The attempt at KCP: a socket of its own, probes, and the handshake within
    its time. *)
Definition accept_kcp (fuel : nat) (hbbs_addr peer_udp_addr : SocketAddr) : IO (option nat) :=
  s ← ask BindUdp;
  match s with
  | None => mret None
  | Some sock =>
    query_udp_public_port sock hbbs_addr;;
    send_udp_probes sock peer_udp_addr;;
    r ← cancellable (Over 1500) (kcp_accept fuel sock peer_udp_addr);
    mret (mjoin r)
  end.
(** Whether the peer is served over KCP. *)
Definition punch_udp_hole (fuel : nat) (host : string) (peer_addr : SocketAddr) (peer_udp_port : Z) (uuid : string)
    : IO bool :=
  match parse_socket_addr (check_port host RENDEZVOUS_PORT) with
  | Some hbbs_addr =>
    if port hbbs_addr =? 0 then mret false else
    k ← accept_kcp fuel hbbs_addr (mkAddr (ip peer_addr) peer_udp_port);
    match k with
    | None => mret false
    | Some kcp =>
      target ← target_of peer_addr;
      if target.2 =? 0 then mret false
      else register_inbound_kcp kcp uuid target.1 target.2;; mret true
    end
  | None => mret false
  end.

Definition handle_punch_hole (fuel : nat) (host : string) (wire : Protocol) (ph : PunchHole) : Fallible unit :=
  let peer_addr := AddrMangle.decode (ph_socket_addr ph) in
  relay_server ← get_relay_server host (ph_relay_server ph);
  uuid ← ask NewUuid;
  let relay := create_relay_connection host wire (ph_socket_addr ph) relay_server uuid true "" in
  if ph_force_relay ph || bool_decide (nat_type_or_default (ph_nat_type ph) = SYMMETRIC) then relay
  else
    let peer_udp_port := wrap_u 16 (ph_upnp_port ph) in
    served ← (if peer_udp_port =? 0 then mret false
              else punch_udp_hole fuel host peer_addr peer_udp_port uuid);
    if served : bool then mret (Ok tt) else
    r ← punch_tcp_hole host wire peer_addr (ph_socket_addr ph) relay_server uuid;
    match r with
    | Ok _ => mret (Ok tt)
    | Err _ => relay
    end.

(** ** Local addresses *)

Definition handle_fetch_local_addr (host : string) (wire : Protocol) (fla : FetchLocalAddr)
    : Fallible unit :=
  let peer_addr := AddrMangle.decode (fla_socket_addr fla) in
  socket ←? or_else Io (ask (ConnectTcp host));
  relay_server ← get_relay_server host (fla_relay_server fla);
  id ← config get_id;
  t1 ← ask Micros;
  t2 ← ask Micros;
  send_rendezvous socket.1 (mk (U_LocalAddr
    {| la_socket_addr := AddrMangle.encode t1 peer_addr; la_local_addr := AddrMangle.encode t2 socket.2;
       la_relay_server := relay_server; la_id := id; la_version := CARGO_PKG_VERSION;
       la_socket_addr_v6 := [] |})) wire.

(** ** Connecting to a peer *)

Definition connect_kcp (fuel : nat) (peer_udp_addr : SocketAddr) : IO (option nat) :=
  s ← ask BindUdp;
  match s with
  | None => mret None
  | Some kcp_sock =>
    send_udp_probes kcp_sock peer_udp_addr;;
    r ← cancellable (Over 1500) (kcp_connect fuel kcp_sock peer_udp_addr);
    mret (mjoin r)
  end.

Definition connect_to_peer (fuel : nat) (peer_id : string) (local_port : Z) : Fallible Z :=
  servers ← config get_rendezvous_servers;
  match servers with
  | [] => mret (Err (Failed "no rendezvous server"))
  | server :: _ =>
    let host := check_port server RENDEZVOUS_PORT in
    wire ← config get_rendezvous_wire_protocol;
    let hbbs_udp :=
      match parse_socket_addr host with
      | Some a => a
      | None => default (mkAddr (IpV4 0 0 0 0) 0) (parse_socket_addr (check_port host RENDEZVOUS_PORT))
      end in
    udp_sock ← ask BindUdp;
    my_udp_port ← match udp_sock with
                  | Some sock => p ← query_udp_public_port sock hbbs_udp; mret (default 0 p)
                  | None => mret 0
                  end;
    conn ←? or_else Io (ask (ConnectTcp host));
    id ← config get_id;
    do? send_rendezvous conn.1 (mk (U_PunchHoleRequest
      {| phq_id := peer_id; phq_nat_type := NatType_value UNKNOWN_NAT; phq_licence_key := "";
         phq_conn_type := 0; phq_token := id; phq_version := ""; phq_udp_port := 0;
         phq_force_relay := false; phq_upnp_port := my_udp_port; phq_socket_addr_v6 := [] |})) wire;
    r ← ask (NextFrame conn.1 (Some CONNECT_TIMEOUT));
    match r with
    | TimedOut => mret (Err Elapsed)
    | Ended => mret (Err Eof)
    | Broken => mret (Err Io)
    | Frame b =>
      match parse b with
      | None => mret (Err (Failed "parse"))
      | Some msg =>
        match union msg with
        | Some (U_PunchHoleResponse phr) =>
          let peer_addr := AddrMangle.decode (phr_socket_addr phr) in
          let peer_udp_port := wrap_u 16 (phr_upnp_port phr) in
          k ← (if negb (peer_udp_port =? 0) && negb (my_udp_port =? 0) && bool_decide (is_Some udp_sock)
               then connect_kcp fuel (mkAddr (ip peer_addr) peer_udp_port) else mret None);
          match k with
          | Some kcp => create_outbound_kcp local_port kcp
          | None => create_outbound_direct local_port peer_addr
          end
        | Some (U_RelayResponse rr) =>
          relay_conn ←? or_else Io (ask (ConnectTcp (check_port (rlr_relay_server rr) (RENDEZVOUS_PORT + 1))));
          create_outbound_relay local_port relay_conn.1 (rlr_uuid rr)
        | _ => mret (Err (Failed "unexpected"))
        end
      end
    end
  end.
End mediator.
