(* ===== verification/ClientAuth.v ===== *)
(** * Accounts: [nat-client/src/auth.rs]

    The calls of the client to the HTTP interface of the server: registration,
    login with the binding of this device, logout, passwords, devices, the
    subscription; and the watcher of the token.  A function is a program over
    [AuthIo]: the configuration, the clock, the name of the machine and HTTP
    requests.  Theorems are in [ClientAuthSpec] and, with the
    server, in [AccountServer]. *)
From Stdlib Require Import Ascii.
From S2P Require Import Prelude Text TextFacts HostText JsonTree Database Keys ClientConfig Programs ClientIo Socks5.
Local Open Scope Z_scope.

(** ** Questions *)

Inductive Method : Type := GET | POST | DELETE.
#[export] Instance Method_eq_dec : EqDecision Method.
Proof. solve_decision. Defined.
Record HttpRequest : Type := mkHttp {
  hq_method : Method;
  hq_url : string;
  hq_bearer : option string;
  hq_body : option JVal;
}.
(** [Http] gives the JSON of the body of the answer whatever its status, [None]
    when it is none, and fails when there is no answer. *)
Inductive AuthIo : Type → Type :=
| AStore : AuthIo Store
| APut (f : Store → Store) : AuthIo unit
| AUnix : AuthIo Z
| ASleep (secs : Z) : AuthIo unit
| AHostname : AuthIo (option string)
| AHttp (q : HttpRequest) : AuthIo (result Failure (option JVal)).

Abbreviation AProg A := (Prog AuthIo (result Failure A)).

(** ** Answers *)

(** [ApiResponse], [UserInfo], [DeviceInfo] and [JwtClaims] as the client has
    them. *)
Record ApiAnswer (A : Type) : Type := mkApiAnswer { aa_success : bool; aa_data : option A; aa_message : string }.
Arguments mkApiAnswer {A} _ _ _.
Arguments aa_success {A} _.
Arguments aa_data {A} _.
Arguments aa_message {A} _.
Definition dec_answer {A} (d : JVal → option A) (v : JVal) : option (ApiAnswer A) :=
  s ← required dec_bool "success" v; x ← optional d "data" v; m ← required dec_str "message" v;
  Some (mkApiAnswer s x m).

Record AccountInfo : Type := mkAccountInfo {
  ac_id : Z; ac_username : string; ac_email : string; ac_is_active : bool; ac_role : string; ac_created : string }.
Definition dec_user (v : JVal) : option AccountInfo :=
  i ← required dec_i64 "id" v; n ← required dec_str "username" v; e ← required dec_str "email" v;
  a ← required dec_bool "is_active" v; r ← required dec_str "role" v; c ← required dec_str "created_at" v;
  Some (mkAccountInfo i n e a r c).
Record AccountDevice : Type := mkAccountDevice {
  ad_id : Z; ad_device_id : string; ad_device_name : option string; ad_is_active : bool; ad_created : string; ad_online : bool }.
Definition dec_device (v : JVal) : option AccountDevice :=
  i ← required dec_i64 "id" v; d ← required dec_str "device_id" v; n ← optional dec_str "device_name" v;
  a ← required dec_bool "is_active" v; c ← required dec_str "created_at" v; o ← defaulted dec_bool false "online" v;
  Some (mkAccountDevice i d n a c o).
Record JwtClaims : Type := mkJwtClaims {
  jc_sub : string; jc_username : string; jc_exp : Z; jc_udid : option Z; jc_role : string }.
Definition dec_claims (v : JVal) : option JwtClaims :=
  s ← required dec_str "sub" v; u ← required dec_str "username" v; e ← required dec_i64 "exp" v;
  d ← optional dec_i64 "udid" v; r ← defaulted dec_str "" "role" v;
  Some (mkJwtClaims s u e d r).

(** ** What the login leaves *)

Record AuthStatus : Type := mkAuthStatus {
  as_logged_in : bool; as_user_id : Z; as_username : string; as_role : string;
  as_device_row_id : Z; as_token_expires : Z; as_token_remaining_secs : Z }.
Definition status_of (logged_in : bool) (now : Z) (st : Store) : AuthStatus :=
  let cfg := CONFIG st in
  {| as_logged_in := logged_in; as_user_id := cc_auth_user_id cfg; as_username := cc_auth_username cfg;
     as_role := cc_auth_role cfg; as_device_row_id := cc_auth_device_row_id cfg;
     as_token_expires := cc_auth_token_expires cfg;
     as_token_remaining_secs := if 0 <? cc_auth_token_expires cfg then as_i64 (cc_auth_token_expires cfg - now) else 0 |}.
Definition not_logged_in : AuthStatus := mkAuthStatus false 0 "" "" 0 0 0.

(** [base64]'s URL alphabet with padding. *)
Class PaddedBase64 : Type := url_decode_padded : string → option bytes.

Section auth.
Context `{UrlBase64} `{PaddedBase64} `{JsonLib} `{TomlLib}.

Definition from_config : Prog AuthIo AuthStatus :=
  cfg ← ask AStore; now ← ask AUnix; st ← ask AStore; now' ← ask AUnix; mret (status_of (is_logged_in now' st) now cfg).

Definition pad_base64 (payload : string) : string :=
  match Z.of_nat (String.length payload) mod 4 with
  | 2 => payload +:+ "=="
  | 3 => payload +:+ "="
  | _ => payload
  end.
(** The second part of a token, and the claims in it, unverified. *)
Definition token_payload (token : string) : option JVal :=
  match split_on "." token with
  | _ :: payload :: _ =>
    decoded ← match url_decode payload with
              | Some b => Some b
              | None => url_decode_padded (pad_base64 payload)
              end;
    from_utf8 decoded ≫= json_parse
  | _ => None
  end.
Definition parse_jwt_claims (token : string) : option JwtClaims := token_payload token ≫= dec_claims.

(** ** Requests *)

(** [send()?] and [json()?] *)
Definition call {A} (d : JVal → option A) (q : HttpRequest) : AProg (ApiAnswer A) :=
  r ← ask (AHttp q);
  mret (match r with
        | Err e => Err e
        | Ok v => match v ≫= dec_answer d with Some a => Ok a | None => Err (Failed "json") end
        end).

Definition login_body (username password : string) (device_id : option string) : JVal :=
  VObj ([("username"%string, VText username); ("password"%string, VText password)] ++ skip_none VText "device_id" device_id).
Definition login_request (api_url username password : string) (device_id : option string) : HttpRequest :=
  mkHttp POST (api_url +:+ "/api/login") None (Some (login_body username password device_id)).

(** A token is kept with the claims that can be read from it. *)
Definition keep_token (token : string) (user : AccountInfo) (with_udid : bool) : Prog AuthIo AuthStatus :=
  let claims := parse_jwt_claims token in
  let expires := match claims with Some c => jc_exp c | None => 0 end in
  let udid := if with_udid then default 0 (c ← claims; jc_udid c) else 0 in
  ask (APut (save_login token expires (ac_id user) (ac_username user) (ac_role user) udid));;
  from_config.

Definition token_of (data : JVal) : option string := as_str (jindex "token" data).

(** The first attempt, with the device: [None] when it did not log in. *)
Definition login_with_device (resp : ApiAnswer JVal) : AProg (option AuthStatus) :=
  match (if aa_success resp then aa_data resp else None) with
  | Some data =>
    match token_of data, jget "user" data with
    | Some token, Some user_val =>
      match dec_user user_val with
      | None => mret (Err (Failed "json"))
      | Some user => s ← keep_token token user true; mret (Ok (Some s))
      end
    | _, _ => mret (Ok None)
    end
  | None => mret (Ok None)
  end.

(** After the device was registered: the last attempt with it, else the token
    without it. *)
Definition login_again (resp3 : ApiAnswer JVal) (data2 : JVal) (tmp_token : string) : AProg AuthStatus :=
  if negb (aa_success resp3) then
    match jget "user" data2 with
    | None => mret (Err (Failed "响应缺少 user"))
    | Some user_val =>
      match dec_user user_val with
      | None => mret (Err (Failed "json"))
      | Some user => s ← keep_token tmp_token user false; mret (Ok s)
      end
    end
  else
    let data3 := default VNull (aa_data resp3) in
    let final_token := default tmp_token (token_of data3) in
    match dec_user (default (jindex "user" data2) (jget "user" data3)) with
    | None => mret (Err (Failed "json"))
    | Some user => s ← keep_token final_token user true; mret (Ok s)
    end.

Definition device_label (device_name hostname : option string) : string :=
  match device_name with
  | Some n => n
  | None => "nat-client@" +:+ default "unknown" hostname
  end.

(** With a token without the device: the device is registered, whatever the
    answer, and the login repeated. *)
Definition bind_device (api_url username password : string) (device_name : option string) (my_peer_id : string)
    (data2 : JVal) (tmp_token : string) : AProg AuthStatus :=
  host ← (if device_name then mret None else ask AHostname);
  let dname := device_label device_name host in
  do? call dec_device (mkHttp POST (api_url +:+ "/api/devices") (Some tmp_token)
    (Some (VObj [("device_id", VText my_peer_id); ("device_name", VText dname)]%string)));
  resp3 ←? call dec_value (login_request api_url username password (Some my_peer_id));
  login_again resp3 data2 tmp_token.

Definition login (username password : string) (device_name : option string) : AProg AuthStatus :=
  st ← ask AStore;
  let api_url := get_api_url st in
  if bool_decide (api_url = ""%string) then mret (Err (Failed "未配置服务器地址")) else
  st ← ask AStore;
  let my_peer_id := get_id st in
  resp1 ←? call dec_value (login_request api_url username password (Some my_peer_id));
  first ←? login_with_device resp1;
  match first with
  | Some s => mret (Ok s)
  | None =>
    resp2 ←? call dec_value (login_request api_url username password None);
    if negb (aa_success resp2) then mret (Err (Failed ("登录失败: " +:+ aa_message resp2))) else
    match aa_data resp2 with
    | None => mret (Err (Failed "登录响应缺少 data 字段"))
    | Some data2 =>
      match token_of data2 with
      | None => mret (Err (Failed "响应缺少 token"))
      | Some tmp_token =>
        bind_device api_url username password device_name my_peer_id data2 tmp_token
      end
    end
  end.

Definition register (username email password : string) (device_name : option string) : AProg AuthStatus :=
  st ← ask AStore;
  let api_url := get_api_url st in
  if bool_decide (api_url = ""%string) then mret (Err (Failed "未配置服务器地址，请先指定 --server")) else
  resp ←? call dec_user (mkHttp POST (api_url +:+ "/api/register") None
    (Some (VObj [("username", VText username); ("email", VText email); ("password", VText password);
                 ("confirm_password", VText password)]%string)));
  if negb (aa_success resp) then mret (Err (Failed ("注册失败: " +:+ aa_message resp)))
  else login username password device_name.

Definition logout : Prog AuthIo unit := ask (APut clear_login).

(** The token, when it is still valid. *)
Definition valid_token (missing : string) : AProg string :=
  st ← ask AStore; now ← ask AUnix;
  mret (match get_auth_token now st with Some t => Ok t | None => Err (Failed missing) end).

Definition change_password (old_password new_password : string) : AProg unit :=
  token ←? valid_token "未登录，请先执行 nat-client login";
  st ← ask AStore;
  resp ←? call dec_value (mkHttp POST (get_api_url st +:+ "/api/change-password") (Some token)
    (Some (VObj [("old_password", VText old_password); ("new_password", VText new_password);
                 ("confirm_password", VText new_password)]%string)));
  if aa_success resp then ask (APut clear_login);; mret (Ok tt)
  else mret (Err (Failed ("修改密码失败: " +:+ aa_message resp))).

Definition list_devices : AProg (list AccountDevice) :=
  token ←? valid_token "未登录";
  st ← ask AStore;
  resp ←? call (dec_list dec_device) (mkHttp GET
    (get_api_url st +:+ "/api/users/" +:+ to_string (cc_auth_user_id (CONFIG st)) +:+ "/devices") (Some token) None);
  mret (if aa_success resp then Ok (default [] (aa_data resp))
        else Err (Failed ("获取设备列表失败: " +:+ aa_message resp))).

Definition remove_device (device_id : string) : AProg unit :=
  token ←? valid_token "未登录";
  st ← ask AStore;
  resp ←? call dec_value (mkHttp DELETE (get_api_url st +:+ "/api/devices/" +:+ device_id) (Some token) None);
  mret (if aa_success resp then Ok tt else Err (Failed ("移除设备失败: " +:+ aa_message resp))).

Record SubscriptionSummary : Type := mkSummary {
  ss_plan_display_name : string; ss_device_used : Z; ss_device_limit : Z; ss_expires_at : string }.
Definition get_my_subscription : AProg SubscriptionSummary :=
  token ←? valid_token "未登录";
  st ← ask AStore;
  let api_url := get_api_url st in
  if bool_decide (api_url = ""%string) then mret (Err (Failed "未配置服务器地址")) else
  resp ←? call dec_value (mkHttp GET (api_url +:+ "/api/subscription/my") (Some token) None);
  let data := default VNull (aa_data resp) in
  mret (Ok {| ss_plan_display_name := default "免费版"%string (as_str (jindex "plan_display_name" data));
              ss_device_used := default 0 (as_i64_val (jindex "current_device_count" data));
              ss_device_limit := default 0 (as_i64_val (jindex "device_limit" data));
              ss_expires_at := default ""%string (as_str (jindex "expires_at" data)) |}).

Definition get_user_info : AProg AccountInfo :=
  token ←? valid_token "未登录";
  st ← ask AStore;
  resp ←? call dec_user (mkHttp GET
    (get_api_url st +:+ "/api/users/" +:+ to_string (cc_auth_user_id (CONFIG st))) (Some token) None);
  mret (match aa_data resp with
        | Some u => Ok u
        | None => Err (Failed ("获取用户信息失败: " +:+ aa_message resp))
        end).

(** One round of [start_token_refresh_watcher]. *)
Definition watch_token : Prog AuthIo unit :=
  ask (ASleep 300);;
  cfg ← ask AStore;
  if bool_decide (cc_auth_token (CONFIG cfg) = ""%string) then mret tt else
  now ← ask AUnix;
  if as_i64 (cc_auth_token_expires (CONFIG cfg) - now) <=? 0 then ask (APut clear_login) else mret tt.
End auth.
