(* ===== verification/Ipc.v ===== *)
(** * The control interface: [nat-client/src/ipc.rs] and [main.rs]

    A client listens on a local port for commands, one JSON object a line, and
    answers each with a line.  [dispatch] runs a command with the functions of
    the other parts: their questions ([Net], [AuthIo], [LanIo]) are embedded in
    those of this one.  [cli_line] is what a subcommand of the program sends,
    [services] what the daemon starts.  Theorems are in [IpcSpec]. *)
From Stdlib Require Import Ascii.
From S2P Require Import Prelude AddrMangle Text TextFacts HostText JsonTree Proto RendezvousCodec Database Keys ClientConfig Programs ClientIo PortForward Socks5 ClientAuth Lan Mediator.
Local Open Scope Z_scope.

(** ** Requests and answers *)

Record IpcRequest : Type := mkIpcRequest {
  iq_cmd : string; iq_peer_id : string; iq_local_port : Z; iq_uuid : string;
  iq_rule_name : string; iq_rule_id : string; iq_target_host : string; iq_target_port : Z; iq_peer_id_filter : string;
  iq_username : string; iq_password : string; iq_email : string; iq_device_name : string;
  iq_old_password : string; iq_new_password : string; iq_device_id : string;
  iq_exit_peer : string; iq_port : Z; iq_all : bool;
}.
Definition dec_request (v : JVal) : option IpcRequest :=
  let text := defaulted dec_str ""%string in
  cmd ← required dec_str "cmd" v; peer_id ← text "peer_id" v; local_port ← defaulted dec_u16 0 "local_port" v;
  uuid ← text "uuid" v; rule_name ← text "rule_name" v; rule_id ← text "rule_id" v;
  target_host ← text "target_host" v; target_port ← defaulted dec_u16 0 "target_port" v;
  peer_id_filter ← text "peer_id_filter" v; username ← text "username" v; password ← text "password" v;
  email ← text "email" v; device_name ← text "device_name" v; old_password ← text "old_password" v;
  new_password ← text "new_password" v; device_id ← text "device_id" v; exit_peer ← text "exit_peer" v;
  port ← defaulted dec_u16 0 "port" v; all ← defaulted dec_bool false "all" v;
  Some (mkIpcRequest cmd peer_id local_port uuid rule_name rule_id target_host target_port peer_id_filter
          username password email device_name old_password new_password device_id exit_peer port all).

Record IpcResponse : Type := mkIpcResponse {
  ir_ok : option bool; ir_error : option string; ir_id : option string; ir_online : option bool;
  ir_nat_type : option Z; ir_peers : option (list JVal); ir_connections : option (list JVal);
  ir_local_port : option Z; ir_pong : option bool; ir_auth : option AuthStatus;
  ir_devices : option (list JVal); ir_user : option JVal; ir_subscription : option JVal;
  ir_rules : option (list JVal); ir_services : option (list JVal); ir_proxy : option JVal;
}.
(** The answers that are given: most have one field. *)
Definition no_response : IpcResponse :=
  mkIpcResponse None None None None None None None None None None None None None None None None.
Definition say_ok : IpcResponse :=
  mkIpcResponse (Some true) None None None None None None None None None None None None None None None.
Definition say_error (e : string) : IpcResponse :=
  mkIpcResponse None (Some e) None None None None None None None None None None None None None None.
Definition say_id (i : string) : IpcResponse :=
  mkIpcResponse None None (Some i) None None None None None None None None None None None None None.
Definition say_status (online : bool) (nat_type : Z) : IpcResponse :=
  mkIpcResponse None None None (Some online) (Some nat_type) None None None None None None None None None None None.
Definition say_peers (l : list JVal) : IpcResponse :=
  mkIpcResponse None None None None None (Some l) None None None None None None None None None None.
Definition say_connections (l : list JVal) : IpcResponse :=
  mkIpcResponse None None None None None None (Some l) None None None None None None None None None.
Definition say_local_port (p : Z) : IpcResponse :=
  mkIpcResponse None None None None None None None (Some p) None None None None None None None None.
Definition say_pong : IpcResponse :=
  mkIpcResponse None None None None None None None None (Some true) None None None None None None None.
Definition say_config (i : string) (online : bool) (nat_type : Z) : IpcResponse :=
  mkIpcResponse (Some true) None (Some i) (Some online) (Some nat_type) None None None None None None None None None None None.
Definition say_auth (s : AuthStatus) : IpcResponse :=
  mkIpcResponse None None None None None None None None None (Some s) None None None None None None.
Definition say_devices (l : list JVal) : IpcResponse :=
  mkIpcResponse None None None None None None None None None None (Some l) None None None None None.
Definition say_user (v : JVal) : IpcResponse :=
  mkIpcResponse None None None None None None None None None None None (Some v) None None None None.
Definition say_subscription (v : JVal) : IpcResponse :=
  mkIpcResponse None None None None None None None None None None None None (Some v) None None None.
Definition say_rules (ok : option bool) (l : list JVal) : IpcResponse :=
  mkIpcResponse ok None None None None None None None None None None None None (Some l) None None.
Definition say_services (l : list JVal) : IpcResponse :=
  mkIpcResponse None None None None None None None None None None None None None None (Some l) None.
Definition say_proxy (v : JVal) : IpcResponse :=
  mkIpcResponse None None None None None None None None None None None None None None None (Some v).

(** ** What the answers hold *)

Definition json_peer (p : DiscoveredPeer) : JVal :=
  VObj [("id", VText (dp_id p)); ("ip", VText (dp_ip p)); ("mac", VText (dp_mac p)); ("hostname", VText (dp_hostname p));
        ("username", VText (dp_username p)); ("platform", VText (dp_platform p)); ("online", VBool (dp_online p))]%string.
Definition json_conn (c : ActiveConn) : JVal :=
  VObj [("uuid", VText (ac_uuid c));
        ("conn_type", VText (match ac_conn_type c with Direct => "Direct" | Relayed => "Relay" end));
        ("peer_addr", VText (ac_peer_addr c)); ("local_port", enc_opt VNum (ac_local_port c));
        ("bytes_sent", VNum (ac_bytes_sent c)); ("bytes_recv", VNum (ac_bytes_recv c));
        ("created_at", VNum (ac_created_at c))]%string.
Definition json_auth (s : AuthStatus) : JVal :=
  VObj [("logged_in", VBool (as_logged_in s)); ("user_id", VNum (as_user_id s)); ("username", VText (as_username s));
        ("role", VText (as_role s)); ("device_row_id", VNum (as_device_row_id s));
        ("token_expires", VNum (as_token_expires s)); ("token_remaining_secs", VNum (as_token_remaining_secs s))]%string.
Definition json_account_device (d : AccountDevice) : JVal :=
  VObj [("id", VNum (ad_id d)); ("device_id", VText (ad_device_id d)); ("device_name", enc_opt VText (ad_device_name d));
        ("is_active", VBool (ad_is_active d)); ("created_at", VText (ad_created d)); ("online", VBool (ad_online d))]%string.
Definition json_account (u : AccountInfo) : JVal :=
  VObj [("id", VNum (ac_id u)); ("username", VText (ac_username u)); ("email", VText (ac_email u));
        ("is_active", VBool (ac_is_active u)); ("role", VText (ac_role u)); ("created_at", VText (ac_created u))]%string.
Definition json_summary (s : SubscriptionSummary) : JVal :=
  VObj [("plan_display_name", VText (ss_plan_display_name s)); ("device_used", VNum (ss_device_used s));
        ("device_limit", VNum (ss_device_limit s)); ("expires_at", VText (ss_expires_at s))]%string.
Definition json_rule (r : ForwardRule) : JVal :=
  VObj [("id", VText (fr_id r)); ("name", VText (fr_name r)); ("peer_id", VText (fr_peer_id r));
        ("target_host", VText (fr_target_host r)); ("target_port", VNum (fr_target_port r));
        ("enabled", VBool (fr_enabled r))]%string.
Definition json_service (s : ServiceInfo) : JVal :=
  VObj [("port", VNum (sv_port s)); ("name", VText (sv_name s)); ("target", VText (sv_target s));
        ("bind_addr", VText (sv_bind_addr s)); ("pid", enc_opt VNum (sv_pid s));
        ("process_name", VText (sv_process_name s))]%string.
Definition json_response (r : IpcResponse) : JVal :=
  VObj (skip_none VBool "ok" (ir_ok r) ++ skip_none VText "error" (ir_error r) ++ skip_none VText "id" (ir_id r) ++
        skip_none VBool "online" (ir_online r) ++ skip_none VNum "nat_type" (ir_nat_type r) ++
        skip_none VList "peers" (ir_peers r) ++ skip_none VList "connections" (ir_connections r) ++
        skip_none VNum "local_port" (ir_local_port r) ++ skip_none VBool "pong" (ir_pong r) ++
        skip_none json_auth "auth" (ir_auth r) ++ skip_none VList "devices" (ir_devices r) ++
        skip_none (λ v, v) "user" (ir_user r) ++ skip_none (λ v, v) "subscription" (ir_subscription r) ++
        skip_none VList "rules" (ir_rules r) ++ skip_none VList "services" (ir_services r) ++
        skip_none (λ v, v) "proxy" (ir_proxy r)).

(** ** Questions *)

(** [read_line] and [write_all] on the connection; the table of the tunnels,
    closing one of them, the ports that answer, the full scan of this platform
    (its parts are in [PortForward]). *)
Inductive IpcIo : Type → Type :=
| INet {X} (e : Net X) : IpcIo X
| IAuth {X} (e : AuthIo X) : IpcIo X
| ILan {X} (e : LanIo X) : IpcIo X
| IConns : IpcIo ConnTable
| IClose (uuid : string) : IpcIo unit
| IAnswering : IpcIo (Z → bool)
| IFullScan : IpcIo (list ServiceInfo)
| IReadLine : IpcIo (option bytes)
| IWrite (b : bytes) : IpcIo bool.

(** A program of another part, with its questions asked through this one. *)
Fixpoint embed {E F : Type → Type} {A} (up : ∀ X, E X → F X) (p : Prog E A) : Prog F A :=
  match p with
  | Ret a => Ret a
  | Stop h => Stop h
  | Ask e k => Ask (up _ e) (λ x, embed up (k x))
  end.
Definition by_net {A} : Prog Net A → Prog IpcIo A := embed (@INet).
Definition by_auth {A} : Prog AuthIo A → Prog IpcIo A := embed (@IAuth).
Definition by_lan {A} : Prog LanIo A → Prog IpcIo A := embed (@ILan).

(** The text of a failure and of a JSON error. *)
Class IpcTexts : Type := { failure_text : Failure → string; json_error : string → string }.

Section ipc.
Context `{WireLib} `{UrlBase64} `{PaddedBase64} `{JsonLib} `{TomlLib} `{IpcTexts}.

Definition ipc_store : Prog IpcIo Store := by_net store.
Definition ipc_put (f : Store → Store) : Prog IpcIo unit := by_net (ask (PutStore f)).
Definition blank (s : string) : bool := String.eqb s "".

(** ** Commands *)

Definition answer_with {A} (f : A → IpcResponse) (prefix : string) (r : result Failure A) : IpcResponse :=
  match r with Ok a => f a | Err e => say_error (prefix +:+ failure_text e) end.

Definition ipc_status : Prog IpcIo IpcResponse :=
  online ← by_net (ask (GetFlag ONLINE)); st ← ipc_store; mret (say_status online (get_nat_type st)).
Definition ipc_discover (fuel : nat) : Prog IpcIo IpcResponse :=
  l ← by_lan (discover fuel); mret (say_peers (json_peer <$> l)).
Definition ipc_connect (fuel : nat) (req : IpcRequest) : Prog IpcIo IpcResponse :=
  if blank (iq_peer_id req) then mret (say_error "peer_id 不能为空") else
  r ← by_net (connect_to_peer fuel (iq_peer_id req) (iq_local_port req));
  mret (answer_with say_local_port "连接失败: " r).
Definition ipc_close (req : IpcRequest) : Prog IpcIo IpcResponse :=
  if blank (iq_uuid req) then mret (say_error "uuid 不能为空") else
  conns ← ask IConns;
  match List.find (λ c, String.eqb (ac_uuid c) (iq_uuid req)) (get_active_connections conns) with
  | Some c => ask (IClose (ac_uuid c));; mret say_ok
  | None => mret (say_error ("未找到连接 uuid=" +:+ iq_uuid req))
  end.
Definition ipc_get_config : Prog IpcIo IpcResponse :=
  st ← ipc_store; online ← by_net (ask (GetFlag ONLINE)); mret (say_config (get_id st) online (get_nat_type st)).

Definition device_option (name : string) : option string := if blank name then None else Some name.
(** A status, and the mediator connects anew. *)
Definition with_restart (prefix : string) (p : Prog IpcIo (result Failure AuthStatus)) : Prog IpcIo IpcResponse :=
  r ← p;
  match r with
  | Ok status => by_net restart;; mret (say_auth status)
  | Err e => mret (say_error (prefix +:+ failure_text e))
  end.
Definition ipc_login (req : IpcRequest) : Prog IpcIo IpcResponse :=
  if blank (iq_username req) || blank (iq_password req) then mret (say_error "用户名和密码不能为空") else
  with_restart "登录失败: " (by_auth (login (iq_username req) (iq_password req) (device_option (iq_device_name req)))).
Definition ipc_register (req : IpcRequest) : Prog IpcIo IpcResponse :=
  if blank (iq_username req) || blank (iq_email req) || blank (iq_password req)
  then mret (say_error "用户名、邮箱、密码不能为空") else
  with_restart "注册失败: "
    (by_auth (register (iq_username req) (iq_email req) (iq_password req) (device_option (iq_device_name req)))).
Definition ipc_change_password (req : IpcRequest) : Prog IpcIo IpcResponse :=
  if blank (iq_old_password req) || blank (iq_new_password req) then mret (say_error "旧密码和新密码不能为空") else
  r ← by_auth (change_password (iq_old_password req) (iq_new_password req)); mret (answer_with (λ _, say_ok) "" r).
Definition ipc_remove_device (req : IpcRequest) : Prog IpcIo IpcResponse :=
  if blank (iq_device_id req) then mret (say_error "device_id 不能为空") else
  r ← by_auth (remove_device (iq_device_id req)); mret (answer_with (λ _, say_ok) "" r).

Definition requested_rule (uuid : string) (req : IpcRequest) : ForwardRule :=
  let rule := new_rule uuid (iq_rule_name req) (iq_target_port req) in
  {| fr_id := fr_id rule; fr_name := fr_name rule;
     fr_peer_id := if blank (iq_peer_id_filter req) then fr_peer_id rule else iq_peer_id_filter req;
     fr_target_host := if blank (iq_target_host req) then fr_target_host rule else iq_target_host req;
     fr_target_port := fr_target_port rule; fr_enabled := fr_enabled rule |}.
Definition ipc_add_rule (req : IpcRequest) : Prog IpcIo IpcResponse :=
  if blank (iq_rule_name req) || (iq_target_port req =? 0) then mret (say_error "rule_name 和 target_port 不能为空") else
  uuid ← by_net (ask NewUuid);
  ipc_put (add_rule (requested_rule uuid req));;
  st ← ipc_store;
  mret (say_rules (Some true) (json_rule <$> get_rules st)).
Definition ipc_remove_rule (req : IpcRequest) : Prog IpcIo IpcResponse :=
  if blank (iq_rule_id req) then mret (say_error "rule_id 不能为空") else
  ipc_put (remove_rule (iq_rule_id req));; mret say_ok.
Definition ipc_scan (req : IpcRequest) : Prog IpcIo IpcResponse :=
  l ← (if iq_all req then ask IFullScan else a ← ask IAnswering; mret (scan_local_services a));
  mret (say_services (json_service <$> l)).

Definition ipc_proxy_status : Prog IpcIo IpcResponse :=
  st ← ipc_store;
  let '(s5_en, s5_port, s5_peer) := get_socks5_config st in
  st ← ipc_store;
  let '(http_en, http_port) := get_http_proxy_config st in
  mret (say_proxy (VObj [("socks5_enabled", VBool s5_en); ("socks5_port", VNum s5_port); ("exit_peer", VText s5_peer);
                         ("http_enabled", VBool http_en); ("http_port", VNum http_port)]%string)).
Definition given_peer (req : IpcRequest) (c : ClientConfig) : ClientConfig :=
  if blank (iq_exit_peer req) then c else set_socks5_exit_peer (iq_exit_peer req) c.
Definition ipc_proxy_save (req : IpcRequest) : Prog IpcIo IpcResponse :=
  ipc_put (update (λ c, given_peer req (set_socks5_port (if iq_port req =? 0 then 1080 else iq_port req) c)));; mret say_ok.
Definition ipc_proxy_enable (req : IpcRequest) : Prog IpcIo IpcResponse :=
  ipc_put (update (λ c,
    let c := given_peer req (set_socks5_enabled true c) in
    if iq_port req =? 0 then c else set_socks5_port (iq_port req) c));; mret say_ok.

(** The commands by their names. *)
Definition commands (fuel : nat) (req : IpcRequest) : list (string * Prog IpcIo IpcResponse) :=
  [("ping", mret say_pong);
   ("get_id", st ← ipc_store; mret (say_id (get_id st)));
   ("get_status", ipc_status);
   ("get_peers", l ← by_lan get_peers; mret (say_peers (json_peer <$> l)));
   ("discover", ipc_discover fuel);
   ("get_connections", conns ← ask IConns; mret (say_connections (json_conn <$> get_active_connections conns)));
   ("restart_mediator", by_net restart;; mret say_ok);
   ("connect", ipc_connect fuel req);
   ("close_conn", ipc_close req);
   ("get_config", ipc_get_config);
   ("auth_status", s ← by_auth from_config; mret (say_auth s));
   ("auth_login", ipc_login req);
   ("auth_logout", by_auth logout;; by_net restart;; mret say_ok);
   ("auth_register", ipc_register req);
   ("auth_change_password", ipc_change_password req);
   ("auth_list_devices", r ← by_auth list_devices; mret (answer_with (λ l, say_devices (json_account_device <$> l)) "" r));
   ("auth_remove_device", ipc_remove_device req);
   ("auth_subscription", r ← by_auth get_my_subscription; mret (answer_with (λ s, say_subscription (json_summary s)) "" r));
   ("auth_profile", r ← by_auth get_user_info; mret (answer_with (λ u, say_user (json_account u)) "" r));
   ("list_rules", st ← ipc_store; mret (say_rules None (json_rule <$> get_rules st)));
   ("add_rule", ipc_add_rule req);
   ("remove_rule", ipc_remove_rule req);
   ("scan_services", ipc_scan req);
   ("proxy_status", ipc_proxy_status);
   ("proxy_save", ipc_proxy_save req);
   ("proxy_enable", ipc_proxy_enable req);
   ("proxy_disable", ipc_put (update (set_socks5_enabled false));; mret say_ok)]%string.
Definition dispatch (fuel : nat) (req : IpcRequest) : Prog IpcIo IpcResponse :=
  match List.find (λ c, String.eqb c.1 (iq_cmd req)) (commands fuel req) with
  | Some c => c.2
  | None => mret (say_error ("未知命令: " +:+ iq_cmd req))
  end.

(** ** A connection *)

Definition answer_line (fuel : nat) (line : string) : Prog IpcIo IpcResponse :=
  match json_parse line ≫= dec_request with
  | Some req => dispatch fuel req
  | None => mret (say_error ("invalid json: " +:+ json_error line))
  end.
Definition response_text (r : IpcResponse) : string := json_text (json_response r) +:+ String newline "".
(** [read_line] gives the bytes to the end of a line, none at the end of the
    stream, and fails on what is not UTF-8. *)
Fixpoint handle_client (lines fuel : nat) : Prog IpcIo (result Failure unit) :=
  match lines with
  | O => Stop OutOfFuel
  | S lines =>
    r ← ask IReadLine;
    match r ≫= from_utf8 with
    | None => mret (Err Io)
    | Some "" => mret (Ok tt)
    | Some s =>
      let line := trim s in
      if blank line then handle_client lines fuel else
      resp ← answer_line fuel line;
      do? ensure Io (ask (IWrite (str_bytes (response_text resp))));
      handle_client lines fuel
    end
  end%string.

(** ** [main.rs] *)

(** The subcommands that are sent to the daemon. *)
Inductive Commands : Type :=
| CId | CStatus | CDiscover | CPeers | CConnections
| CConnect (peer_id : string) (local_port : Z)
| CClose (uuid : string)
| CRestart
| CRegister (username email password : string) (device_name : option string)
| CLogin (username password : string) (device_name : option string)
| CLogout | CAuthStatus
| CChangePassword (old_password new_password : string)
| CDevices
| CRemoveDevice (device_id : string)
| CProfile | CListRules
| CAddRule (name : string) (target_port : Z) (target_host peer_id_filter : string)
| CRemoveRule (rule_id : string)
| CScanServices (all : bool).

(** The JSON of [run_cli_command]. *)
Definition cli_json (c : Commands) : JVal :=
  let cmd name fields := VObj (("cmd"%string, VText name) :: fields) in
  match c with
  | CId => cmd "get_id" []
  | CStatus => cmd "get_status" []
  | CPeers => cmd "get_peers" []
  | CDiscover => cmd "discover" []
  | CConnections => cmd "get_connections" []
  | CConnect peer_id local_port => cmd "connect" [("peer_id", VText peer_id); ("local_port", VNum local_port)]
  | CClose uuid => cmd "close_conn" [("uuid", VText uuid)]
  | CRestart => cmd "restart_mediator" []
  | CRegister username email password device_name =>
    cmd "auth_register" [("username", VText username); ("email", VText email); ("password", VText password);
                         ("device_name", VText (default "" device_name))]
  | CLogin username password device_name =>
    cmd "auth_login" [("username", VText username); ("password", VText password);
                      ("device_name", VText (default "" device_name))]
  | CLogout => cmd "auth_logout" []
  | CAuthStatus => cmd "auth_status" []
  | CChangePassword old_password new_password =>
    cmd "auth_change_password" [("old_password", VText old_password); ("new_password", VText new_password)]
  | CDevices => cmd "auth_list_devices" []
  | CRemoveDevice device_id => cmd "auth_remove_device" [("device_id", VText device_id)]
  | CProfile => cmd "auth_profile" []
  | CListRules => cmd "list_rules" []
  | CAddRule name target_port target_host peer_id_filter =>
    cmd "add_rule" [("rule_name", VText name); ("target_port", VNum target_port); ("target_host", VText target_host);
                    ("peer_id_filter", VText peer_id_filter)]
  | CRemoveRule rule_id => cmd "remove_rule" [("rule_id", VText rule_id)]
  | CScanServices all => cmd "scan_services" [("all", VBool all)]
  end%string.
(** [send_command]: the line that goes out. *)
Definition cli_line (c : Commands) : bytes := str_bytes (json_text (cli_json c) +:+ String newline "").

(** What [start_background_services] and [start_all_async] start. *)
Inductive Service : Type := LanListener | MediatorService | IpcServer (port : Z) | TokenWatcher | ProxyServer (port : Z) (exit_peer : string).
Definition services (ipc_port : Z) (st : Store) : list Service :=
  let '(s5_enabled, s5_port, s5_exit_peer) := get_socks5_config st in
  [LanListener; MediatorService; IpcServer ipc_port; TokenWatcher] ++
  (if s5_enabled && negb (blank s5_exit_peer) then [ProxyServer s5_port s5_exit_peer] else []).
End ipc.
