(* ===== verification/Socks5Spec.v ===== *)
(** * What the proxy server promises

    Theorems about [Socks5] with [Mediator]: a proxied connection reaches the
    exit node with the target the application asked for, in every form of
    address; commands that are not supported are refused with the reply of the
    protocol; a first line cannot be read for ever, but a request without
    headers waits for ever; nothing is copied before the reply. *)
From Stdlib Require Import Ascii.
From S2P Require Import Prelude AddrMangle Text TextFacts HostText Proto RendezvousCodec Database Keys ClientConfig Programs ClientIo KcpTunnel PortForward Socks5 Mediator.
Local Open Scope Z_scope.

(** ** The world of a proxied connection *)

(** What the application has sent and whether it closed, what it was sent, the
    hosts that can be reached, the relay connections and what went out on
    them, the stream that is copied at last. *)
Record SockWorld : Type := mkSock {
  sw_store : Store;
  sw_in : bytes;
  sw_ended : bool;
  sw_out : list bytes;
  sw_up : string → bool;
  sw_byte : Z;
  sw_conns : list string;
  sw_frames : list (nat * bytes);
  sw_bridge : option nat;
}.
Definition take_in (n : nat) (w : SockWorld) : SockWorld :=
  {| sw_store := sw_store w; sw_in := drop n (sw_in w); sw_ended := sw_ended w; sw_out := sw_out w;
     sw_up := sw_up w; sw_byte := sw_byte w; sw_conns := sw_conns w; sw_frames := sw_frames w;
     sw_bridge := sw_bridge w |}.
Definition put_out (b : bytes) (w : SockWorld) : SockWorld :=
  {| sw_store := sw_store w; sw_in := sw_in w; sw_ended := sw_ended w; sw_out := sw_out w ++ [b];
     sw_up := sw_up w; sw_byte := sw_byte w; sw_conns := sw_conns w; sw_frames := sw_frames w;
     sw_bridge := sw_bridge w |}.
Definition add_conn (a : string) (w : SockWorld) : SockWorld :=
  {| sw_store := sw_store w; sw_in := sw_in w; sw_ended := sw_ended w; sw_out := sw_out w;
     sw_up := sw_up w; sw_byte := sw_byte w; sw_conns := sw_conns w ++ [a]; sw_frames := sw_frames w;
     sw_bridge := sw_bridge w |}.
Definition add_frame (c : nat) (b : bytes) (w : SockWorld) : SockWorld :=
  {| sw_store := sw_store w; sw_in := sw_in w; sw_ended := sw_ended w; sw_out := sw_out w;
     sw_up := sw_up w; sw_byte := sw_byte w; sw_conns := sw_conns w; sw_frames := sw_frames w ++ [(c, b)];
     sw_bridge := sw_bridge w |}.
Definition set_bridge (c : nat) (w : SockWorld) : SockWorld :=
  {| sw_store := sw_store w; sw_in := sw_in w; sw_ended := sw_ended w; sw_out := sw_out w;
     sw_up := sw_up w; sw_byte := sw_byte w; sw_conns := sw_conns w; sw_frames := sw_frames w;
     sw_bridge := Some c |}.

Definition any_local : SocketAddr := mkAddr (IpV4 0 0 0 0) 0.
(** A read waits while what it needs has not come and the stream is open. *)
Definition sock_handler : Handler Net SockWorld := λ X e w,
  match e in Net X return option (X * SockWorld) with
  | GetStore => Some (sw_store w, w)
  | RandomByte => Some (sw_byte w, w)
  | ConnectTcp a =>
    if sw_up w a then Some (Some (length (sw_conns w), any_local), add_conn a w) else Some (None, w)
  | SendBytes c b => Some (true, add_frame c b w)
  | ReadExact _ n =>
    if (length (sw_in w) <? n)%nat then if sw_ended w then Some (None, w) else None
    else Some (Some (take n (sw_in w)), take_in n w)
  | WriteAll _ b => Some (true, put_out b w)
  | BridgeRelay _ c _ => Some (tt, set_bridge c w)
  | _ => None
  end.

Lemma run_read s n w b rest :
  sw_in w = b ++ rest → length b = n →
  run sock_handler (read_exact s n) w = (Finished (Ok b), take_in n w).
Proof.
  intros E Hn. assert ((length (sw_in w) <? n)%nat = false) as Hlt.
  { apply Nat.ltb_ge. rewrite E, length_app. lia. }
  unfold read_exact, or_else, ask. cbn - [Nat.ltb]. rewrite Hlt. cbn. rewrite E.
  by rewrite take_app_length' by done.
Qed.
Lemma take_in_rest n w b rest : sw_in w = b ++ rest → length b = n → sw_in (take_in n w) = rest.
Proof. intros E <-. cbn. rewrite E. apply drop_app_length. Qed.
Lemma run_write s b w : run sock_handler (write_all s b) w = (Finished (Ok tt), put_out b w).
Proof. done. Qed.

(** ** The uuid of a proxied connection *)

Section socks5_spec.
Context `{WireLib} `{UrlBase64} `{!UrlBase64Laws}.

Lemma has_char_url c b : url_char c = false → has_char c (url_encode b) = false.
Proof. intros Hc. eapply has_char_all; [apply url_alphabet|done]. Qed.

(** The exit node reads back the host and the port that the uuid was made for. *)
Lemma proxy_target_uuid host port hex8 :
  is_utf8 host → 1 <= port <= 65535 → proxy_target (proxy_uuid host port hex8) = Some (host, port).
Proof.
  intros Hh Hp. unfold proxy_target, proxy_uuid.
  change ("proxy:" +:+ ?x) with ("proxy" +:+ String ":" x).
  set (e := url_encode _).
  change (e +:+ ":" +:+ hex8) with (e +:+ String ":" hex8).
  rewrite splitn3_three; [|done|by apply has_char_url].
  subst e. rewrite url_roundtrip. cbn [mbind option_bind].
  rewrite from_utf8_bytes.
  2: { apply is_utf8_app; [done|]. apply is_utf8_app; [done|]. apply to_string_utf8. lia. }
  cbn [mbind option_bind]. change (":" +:+ to_string port) with (String ":" (to_string port)).
  rewrite rcut_app by (apply has_char_to_string; [lia|done]). cbn [mbind option_bind].
  unfold parse_u16. rewrite parse_int_to_string by lia. cbn [default from_option id]. cbv zeta.
  by rewrite (proj2 (Z.eqb_neq port 0)) by lia.
Qed.

(** ** The connection to the relay *)

(** What [connect_via_relay] settles on: the two servers, and the message for
    the exit node. *)
Definition hbbs_of (st : Store) : string := check_port (default ""%string (head (get_rendezvous_servers st))) RENDEZVOUS_PORT.
Definition relay_of (st : Store) : string :=
  if bool_decide (ClientConfig.get_relay_server st = ""%string)
  then increase_port (default ""%string (head (get_rendezvous_servers st))) 1 else ClientConfig.get_relay_server st.
Definition hbbr_of (st : Store) : string := check_port (relay_of st) (RENDEZVOUS_PORT + 1).
Definition relay_notice (st : Store) (exit_peer uuid : string) : RendezvousMessage :=
  mk (U_RelayResponse
    {| rlr_socket_addr := []; rlr_uuid := uuid; rlr_relay_server := relay_of st;
       rlr_union := Some (RlrId exit_peer); rlr_refuse_reason := ""; rlr_version := CARGO_PKG_VERSION;
       rlr_feedback := 0; rlr_socket_addr_v6 := []; rlr_upnp_port := 0 |}).
Definition hex8_of (b : Z) : string := hex2 b +:+ hex2 b +:+ hex2 b +:+ hex2 b.

(** The world after both servers were reached. *)
Definition connected (exit_peer uuid : string) (notice : bytes) (w : SockWorld) : SockWorld :=
  let w1 := add_frame (length (sw_conns w)) notice (add_conn (hbbs_of (sw_store w)) w) in
  add_frame (S (length (sw_conns w))) (uuid_handshake uuid) (add_conn (hbbr_of (sw_store w)) w1).
(** It can be: there is a server, it and its relay answer, the message can be
    written. *)
Definition relay_ready (exit_peer uuid : string) (notice : bytes) (w : SockWorld) : Prop :=
  get_rendezvous_servers (sw_store w) ≠ [] ∧
  sw_up w (hbbs_of (sw_store w)) = true ∧ sw_up w (hbbr_of (sw_store w)) = true ∧
  wire_bytes (relay_notice (sw_store w) exit_peer uuid) (get_rendezvous_wire_protocol (sw_store w)) = Some notice.

Lemma run_connect exit_peer host port notice w :
  let uuid := proxy_uuid host port (hex8_of (sw_byte w)) in
  relay_ready exit_peer uuid notice w →
  run sock_handler (connect_via_relay exit_peer host port) w =
  (Finished (Ok (S (length (sw_conns w)))), connected exit_peer uuid notice w).
Proof.
  cbv zeta. intros (Hs & Hup & Hup' & Hb). unfold connect_via_relay.
  assert (run sock_handler (random_hex 4) w = (Finished (hex8_of (sw_byte w)), w)) as Hr.
  { unfold hex8_of. cbn. by rewrite app_string_nil. }
  rewrite (run_bind_eq _ _ _ _ _ _ Hr). clear Hr. unfold config, store, ask.
  unfold hbbs_of, hbbr_of, relay_of, relay_notice, connected in *.
  cbn [mbind Prog_bind prog_bind run sock_handler mret Prog_ret].
  destruct (get_rendezvous_servers (sw_store w)) as [|server rest] eqn:Es; [done|]. cbn [head default from_option id] in *.
  cbn [mbind Prog_bind prog_bind run sock_handler mret Prog_ret].
  unfold or_else, try_bind, send_rendezvous. cbn [mbind Prog_bind prog_bind run sock_handler mret Prog_ret ask].
  rewrite Hup. cbn [fst]. unfold relay_of in Hb. rewrite Es in Hb. cbn [head default from_option id] in Hb.
  unfold wire_bytes in *. rewrite Hb.
  cbn - [check_port increase_port uuid_handshake proxy_uuid]. rewrite Hup'.
  cbn - [check_port increase_port uuid_handshake proxy_uuid]. unfold add_frame, add_conn. cbn.
  rewrite length_app, Nat.add_1_r. unfold hbbs_of, hbbr_of, relay_of. by rewrite Es.
Qed.

(** ** SOCKS5 *)

(** The three forms of an address in a request, the bytes of each and the host
    it names. *)
Inductive SocksAddr : Type := SaV4 (ip : bytes) | SaDomain (domain : string) | SaV6 (ip : bytes).
Definition sa_ok (a : SocksAddr) : Prop :=
  match a with
  | SaV4 ip => length ip = 4%nat ∧ bytes_ok ip
  | SaDomain d => (String.length d < 256)%nat ∧ is_utf8 d
  | SaV6 ip => length ip = 16%nat ∧ bytes_ok ip
  end.
Definition sa_type (a : SocksAddr) : Z := match a with SaV4 _ => 1 | SaDomain _ => 3 | SaV6 _ => 4 end.
Definition sa_bytes (a : SocksAddr) : bytes :=
  match a with SaV4 ip => ip | SaDomain d => zlen (str_bytes d) :: str_bytes d | SaV6 ip => ip end.
Definition sa_host (a : SocksAddr) : string :=
  match a with SaV4 ip => dotted ip | SaDomain d => d | SaV6 ip => join ":" (hex_groups ip) end.
Definition port_bytes (p : Z) : bytes := [p / 256; p mod 256].
(** A greeting with its methods, and a request. *)
Definition greeting (methods : bytes) : bytes := 5 :: zlen methods :: methods.
Definition socks_request (cmd reserved : Z) (a : SocksAddr) (p : Z) : bytes :=
  [5; cmd; reserved; sa_type a] ++ sa_bytes a ++ port_bytes p.

Lemma port_of_bytes p : octet (port_bytes p) 0 * 256 + octet (port_bytes p) 1 = p.
Proof. unfold octet. cbn. pose proof (Z.div_mod p 256 ltac:(lia)). lia. Qed.

Lemma run_parse_addr s w a p rest :
  sa_ok a → sw_in w = sa_bytes a ++ port_bytes p ++ rest →
  run sock_handler (parse_socks5_addr s (sa_type a)) w =
  (Finished (Ok (sa_host a, p)), take_in (length (sa_bytes a) + 2) w).
Proof.
  intros Ha Hin. unfold parse_socks5_addr. destruct a as [ip|d|ip]; cbn [sa_ok sa_type sa_bytes sa_host] in *.
  - destruct Ha as [Hl Hb]. change (1 =? 1) with true. cbn iota.
    rewrite (run_try _ _ _ _ (dotted ip) (take_in 4 w)).
    2: { by rewrite (run_try _ _ _ _ _ _ (run_read s 4 w ip _ Hin Hl)). }
    pose proof (take_in_rest 4 w ip _ Hin Hl) as Hin2.
    rewrite (run_try _ _ _ _ _ _ (run_read s 2 _ (port_bytes p) rest Hin2 eq_refl)).
    cbn [run mret Prog_ret]. rewrite port_of_bytes. unfold take_in. cbn. rewrite drop_drop. by rewrite Hl.
  - destruct Ha as [Hl Hu]. change (3 =? 1) with false. change (3 =? 3) with true. cbn iota.
    assert (Z.to_nat (octet [zlen (str_bytes d)] 0) = length (str_bytes d)) as Hn.
    { unfold octet, zlen. cbn [lookup list_lookup default from_option id]. apply Nat2Z.id. }
    change (sw_in w = [zlen (str_bytes d)] ++ (str_bytes d ++ (port_bytes p ++ rest))) in Hin.
    pose proof (take_in_rest 1 w [zlen (str_bytes d)] _ Hin eq_refl) as Hin2.
    pose proof (take_in_rest (length (str_bytes d)) _ (str_bytes d) _ Hin2 eq_refl) as Hin3.
    rewrite (run_try _ _ _ _ d (take_in (length (str_bytes d)) (take_in 1 w))).
    2: { rewrite (run_try _ _ _ _ _ _ (run_read s 1 w [zlen (str_bytes d)] _ Hin eq_refl)). rewrite Hn.
         rewrite (run_try _ _ _ _ _ _ (run_read s _ _ (str_bytes d) _ Hin2 eq_refl)).
         by rewrite from_utf8_bytes. }
    rewrite (run_try _ _ _ _ _ _ (run_read s 2 _ (port_bytes p) rest Hin3 eq_refl)).
    cbn [run mret Prog_ret]. rewrite port_of_bytes. unfold take_in. cbn [sw_in]. rewrite !drop_drop.
    repeat f_equal.
  - destruct Ha as [Hl Hb]. change (4 =? 1) with false. change (4 =? 3) with false. change (4 =? 4) with true. cbn iota.
    rewrite (run_try _ _ _ _ (join ":" (hex_groups ip)) (take_in 16 w)).
    2: { by rewrite (run_try _ _ _ _ _ _ (run_read s 16 w ip _ Hin Hl)). }
    pose proof (take_in_rest 16 w ip _ Hin Hl) as Hin2.
    rewrite (run_try _ _ _ _ _ _ (run_read s 2 _ (port_bytes p) rest Hin2 eq_refl)).
    cbn [run mret Prog_ret]. rewrite port_of_bytes. unfold take_in. cbn. rewrite drop_drop. by rewrite Hl.
Qed.

Lemma take_in_take_in n m w : take_in n (take_in m w) = take_in (m + n) w.
Proof. unfold take_in. cbn. by rewrite drop_drop. Qed.

(** From the first byte to the request. *)
Lemma run_greeting fuel s exit_peer methods cmd reserved a p rest w :
  (length methods < 256)%nat →
  sw_in w = greeting methods ++ socks_request cmd reserved a p ++ rest →
  let w' := put_out [5; 0] (take_in (length (greeting methods)) w) in
  run sock_handler (handle_client fuel s exit_peer) w =
  run sock_handler
    (if negb (cmd =? 1) then do? write_all s (socks_reply 7); mret (Err (Failed "command"))
     else
       target ←? parse_socks5_addr s (sa_type a);
       r ← connect_via_relay exit_peer target.1 target.2;
       match r with
       | Ok relay_conn =>
         do? write_all s (socks_reply 0);
         ask (BridgeRelay s relay_conn None);;
         mret (Ok tt)
       | Err e => ask (WriteAll s (socks_reply 5));; mret (Err e)
       end) (take_in 4 w') ∧
  sw_in (take_in 4 w') = sa_bytes a ++ port_bytes p ++ rest.
Proof.
  intros Hm Hin. cbv zeta. unfold greeting in Hin.
  assert (Z.to_nat (octet [zlen methods] 0) = length methods) as Hn.
  { unfold octet, zlen. cbn [lookup list_lookup default from_option id]. apply Nat2Z.id. }
  unfold socks_request in Hin. rewrite <- !app_assoc in Hin.
  change (sw_in w = [5] ++ ([zlen methods] ++ (methods ++ [5; cmd; reserved; sa_type a] ++ sa_bytes a ++ port_bytes p ++ rest))) in Hin.
  pose proof (take_in_rest 1 w [5] _ Hin eq_refl) as Hin2.
  pose proof (take_in_rest 1 _ [zlen methods] _ Hin2 eq_refl) as Hin3.
  pose proof (take_in_rest (length methods) _ methods _ Hin3 eq_refl) as Hin4.
  set (w3 := take_in (length methods) (take_in 1 (take_in 1 w))) in *.
  assert (w3 = take_in (length (greeting methods)) w) as Hw3.
  { subst w3. rewrite !take_in_take_in. done. }
  assert (sw_in (put_out [5; 0] w3) = [5; cmd; reserved; sa_type a] ++ sa_bytes a ++ port_bytes p ++ rest) as Hin5 by done.
  rewrite <- Hw3. split.
  - unfold handle_client. rewrite (run_try _ _ _ _ _ _ (run_read s 1 w [5] _ Hin eq_refl)).
    change (octet [5] 0 =? 5) with true. cbn iota. unfold handle_socks5.
    rewrite (run_try _ _ _ _ _ _ (run_read s 1 _ [zlen methods] _ Hin2 eq_refl)). rewrite Hn.
    rewrite (run_try _ _ _ _ _ _ (run_read s _ _ methods _ Hin3 eq_refl)). fold w3.
    rewrite (run_try _ _ _ _ _ _ (run_write s [5; 0] w3)).
    rewrite (run_try _ _ _ _ _ _ (run_read s 4 _ _ _ Hin5 eq_refl)).
    change (octet [5; cmd; reserved; sa_type a] 0 =? 5) with true.
    change (octet [5; cmd; reserved; sa_type a] 1) with cmd.
    change (octet [5; cmd; reserved; sa_type a] 3) with (sa_type a). cbn [negb]. done.
  - by apply (take_in_rest 4 _ _ _ Hin5).
Qed.


(** A request for anything but a connection is refused with the reply for a
    command that is not supported, and nothing is connected. *)
Theorem socks5_refuses_commands fuel s exit_peer methods cmd reserved a p rest w :
  (length methods < 256)%nat → cmd ≠ 1 →
  sw_in w = greeting methods ++ socks_request cmd reserved a p ++ rest →
  let r := run sock_handler (handle_client fuel s exit_peer) w in
  r.1 = Finished (Err (Failed "command")) ∧ sw_out r.2 = sw_out w ++ [[5; 0]; socks_reply 7] ∧
  sw_conns r.2 = sw_conns w ∧ sw_bridge r.2 = sw_bridge w.
Proof.
  intros Hm Hc Hin. cbv zeta.
  destruct (run_greeting fuel s exit_peer methods cmd reserved a p rest w Hm Hin) as [-> Hin'].
  rewrite (proj2 (Z.eqb_neq cmd 1)) by done. cbn. rewrite <- app_assoc. done.
Qed.

(** ** HTTP CONNECT *)

(** Where reading the headers stops: after the first blank line, [tail] being
    the last four bytes before. *)
Fixpoint after_headers (tail l : bytes) : option bytes :=
  match l with
  | [] => None
  | b :: l =>
    let tail := drop 1 tail ++ [b] in
    if bool_decide (tail = [13; 10; 13; 10]) then Some l else after_headers tail l
  end.

Lemma after_headers_le tail l rest : after_headers tail l = Some rest → (length rest <= length l)%nat.
Proof.
  revert tail. induction l as [|x l IH]; intros tail; cbn; [done|].
  case_bool_decide; [intros [= ->]; lia|]. intros E%IH. lia.
Qed.
Lemma run_absorb fuel s tail w :
  (length (sw_in w) < fuel)%nat →
  run sock_handler (absorb_headers fuel s tail) w =
  match after_headers tail (sw_in w) with
  | Some rest => (Finished (Ok tt), take_in (length (sw_in w) - length rest) w)
  | None => ((if sw_ended w then Finished (Err Eof) else Waiting), take_in (length (sw_in w)) w)
  end.
Proof.
  remember (sw_in w) as l eqn:El. revert fuel tail w El. induction l as [|b l IH]; intros fuel tail w El Hf;
    (destruct fuel as [|fuel]; [cbn in Hf; lia|]); cbn [absorb_headers after_headers].
  - assert (take_in (length (@nil Z)) w = w) as -> by (destruct w; cbn in *; by subst).
    unfold read_exact, or_else, try_bind, ask. cbn - [Nat.ltb]. rewrite <- El. cbn. by destruct (sw_ended w).
  - rewrite (run_try _ _ _ _ _ _ (run_read s 1 w [b] l (eq_sym El) eq_refl)). change (octet [b] 0) with b.
    set (tail' := drop 1 tail ++ [b]). cbn [length] in *.
    assert (sw_in (take_in 1 w) = l) as El' by (by apply (take_in_rest 1 w [b] l)).
    case_bool_decide.
    + cbn [run mret Prog_ret]. replace (S (length l) - length l)%nat with 1%nat by lia. done.
    + rewrite (IH fuel tail' (take_in 1 w) (eq_sym El')) by lia.
      destruct (after_headers tail' l) as [rest|] eqn:E; [|by rewrite take_in_take_in].
      apply after_headers_le in E.
      rewrite take_in_take_in. do 2 f_equal. lia.
Qed.

(** Header lines, each not empty and without line ends. *)
Definition header_ok (h : bytes) : Prop := h ≠ [] ∧ Forall (λ b, b ≠ 13 ∧ b ≠ 10) h.
Definition header_bytes (hs : list bytes) : bytes := concat (map (λ h, h ++ [13; 10]) hs).

Lemma after_headers_step tail b l :
  drop 1 tail ++ [b] ≠ [13; 10; 13; 10] → after_headers tail (b :: l) = after_headers (drop 1 tail ++ [b]) l.
Proof. intros Hne. cbn [after_headers]. by rewrite bool_decide_eq_false_2. Qed.
Lemma after_headers_stop tail b l :
  drop 1 tail ++ [b] = [13; 10; 13; 10] → after_headers tail (b :: l) = Some l.
Proof. intros He. cbn [after_headers]. by rewrite bool_decide_eq_true_2. Qed.
Lemma after_no_lf tail h l :
  Forall (λ b, b ≠ 13 ∧ b ≠ 10) h → length tail = 4%nat → h ≠ [] →
  ∃ t1 t2 t3 x, x ≠ 10 ∧ after_headers tail (h ++ l) = after_headers [t1; t2; t3; x] l.
Proof.
  intros Hh. revert tail. induction Hh as [|b h [Hb Hb'] Hh IH]; intros tail Ht Hne; [done|].
  destruct tail as [|a0 [|a1 [|a2 [|a3 [|]]]]]; try done. cbn [app].
  rewrite after_headers_step by (cbn; congruence). cbn [drop app]. destruct h as [|b' h].
  - eexists _, _, _, b. done.
  - by apply IH.
Qed.
Lemma after_header_lines tail hs rest :
  Forall header_ok hs → hs ≠ [] → length tail = 4%nat →
  after_headers tail (header_bytes hs ++ 13 :: 10 :: rest) = Some rest.
Proof.
  intros Hhs. revert tail. induction Hhs as [|h hs [Hne Hh] Hhs IH]; intros tail Hn Ht; [done|].
  change (header_bytes (h :: hs)) with ((h ++ [13; 10]) ++ header_bytes hs). rewrite <- !app_assoc.
  destruct (after_no_lf tail h ([13; 10] ++ header_bytes hs ++ 13 :: 10 :: rest) Hh Ht Hne) as (t1 & t2 & t3 & x & Hx & ->).
  cbn [app]. do 2 (rewrite after_headers_step by (cbn; congruence)). cbn [drop app].
  destruct hs as [|h' hs]; [|by apply IH].
  change (header_bytes [] ++ 13 :: 10 :: rest) with (13 :: 10 :: rest).
  rewrite after_headers_step by (cbn; congruence). by apply after_headers_stop.
Qed.

Lemma ends_crlf_not_lf line b : b ≠ 10 → ends_crlf (line ++ [b]) = false.
Proof. intros Hb. unfold ends_crlf. rewrite rev_app_distr. cbn [rev app]. by repeat case_match. Qed.

(** A first line within the limit is read to its end. *)
Lemma run_read_line fuel s line l rest w :
  Forall (λ b, b ≠ 13 ∧ b ≠ 10) l → line ≠ [] → (length line + length l + 2 <= MAX_LINE)%nat → (length l + 2 <= fuel)%nat →
  sw_in w = l ++ 13 :: 10 :: rest →
  run sock_handler (read_line fuel s line) w = (Finished (Ok (line ++ l ++ [13; 10])), take_in (length l + 2) w).
Proof.
  intros Hl. revert fuel line w. induction Hl as [|b l [Hb Hb'] Hl IH]; intros fuel line w Hne Hlen Hf Hin.
  - destruct fuel as [|[|fuel]]; [cbn in Hf; lia..|]. cbn [read_line app] in *.
    rewrite (run_try _ _ _ _ _ _ (run_read s 1 w [13] (10 :: rest) Hin eq_refl)). change (octet [13] 0) with 13.
    assert (ends_crlf (line ++ [13]) = false) as -> by (unfold ends_crlf; by rewrite rev_app_distr).
    rewrite (proj2 (Nat.ltb_ge MAX_LINE _)) by (rewrite length_app; cbn [length] in *; lia).
    pose proof (take_in_rest 1 w [13] _ Hin eq_refl) as Hin2.
    rewrite (run_try _ _ _ _ _ _ (run_read s 1 _ [10] rest Hin2 eq_refl)). change (octet [10] 0) with 10.
    rewrite <- app_assoc. assert (ends_crlf (line ++ [13] ++ [10]) = true) as -> by (unfold ends_crlf; by rewrite rev_app_distr).
    cbn [run mret Prog_ret]. by rewrite take_in_take_in.
  - destruct fuel as [|fuel]; [cbn in Hf; lia|]. cbn [read_line app length] in *.
    rewrite (run_try _ _ _ _ _ _ (run_read s 1 w [b] _ Hin eq_refl)). change (octet [b] 0) with b.
    pose proof (take_in_rest 1 w [b] _ Hin eq_refl) as Hin2.
    rewrite ends_crlf_not_lf by done.
    rewrite (proj2 (Nat.ltb_ge MAX_LINE _)) by (rewrite length_app; cbn [length] in *; lia).
    rewrite (IH fuel (line ++ [b]) (take_in 1 w)).
    + rewrite <- app_assoc, take_in_take_in. done.
    + by destruct line.
    + rewrite length_app. cbn [length]. lia.
    + lia.
    + done.
Qed.

Definition visible (c : ascii) : bool := (33 <=? code c) && (code c <=? 126).
(** The first line of a request without its end. *)
Definition connect_line (host : string) (p : Z) : string :=
  "CONNECT " +:+ host +:+ ":" +:+ to_string p +:+ " HTTP/1.1".

Lemma trim_end_app_eq a b : trim_end b ≠ ""%string → trim_end (a +:+ b) = a +:+ trim_end b.
Proof.
  intros Hb. induction a as [|c a IH]; [done|]. str_simp. cbn [trim_end]. rewrite IH.
  destruct (a +:+ trim_end b) eqn:E; [|done]. by apply app_nil_eq in E as [_ ?].
Qed.
Lemma visible_no_char c s : visible c = false → all_chars visible s = true → has_char c s = false.
Proof. intros Hc Hs. by eapply has_char_all. Qed.
Lemma digits_visible p : 0 <= p → all_chars visible (to_string p) = true.
Proof.
  intros Hp. apply (all_chars_weaken digit_char); [|by apply all_digits_to_string].
  intros c. unfold digit_char, visible. intros Hd. bool_simp. apply andb_true_iff. split; apply Z.leb_le; lia.
Qed.

Lemma connect_target_line host p :
  all_chars visible host = true → 1 <= p <= 65535 →
  connect_target (connect_line host p) = Some (host, p).
Proof.
  intros Hh Hp. unfold connect_target, connect_line.
  pose proof (digits_visible p ltac:(lia)) as Hd.
  assert (has_char " " (host +:+ ":" +:+ to_string p) = false) as Hs.
  { rewrite !has_char_app, (visible_no_char " " host), (visible_no_char " " (to_string p)) by done. done. }
  assert ("CONNECT " +:+ host +:+ ":" +:+ to_string p +:+ " HTTP/1.1" =
          "CONNECT" +:+ String " " ((host +:+ ":" +:+ to_string p) +:+ String " " "HTTP/1.1")) as ->
    by (rewrite !app_string_assoc; done).
  rewrite splitn3_three by done.
  change (":" +:+ to_string p) with (String ":" (to_string p)).
  rewrite rcut_app by (apply has_char_to_string; [lia|done]).
  unfold parse_u16. by rewrite parse_int_to_string by lia.
Qed.

Lemma starts_with_app p s : starts_with p (p +:+ s) = true.
Proof. unfold starts_with. rewrite strip_prefix_app. by apply bool_decide_eq_true_2. Qed.

Lemma line_bytes_ok host p :
  all_chars visible host = true → 0 <= p →
  Forall (λ b, b ≠ 13 ∧ b ≠ 10) (str_bytes (connect_line host p)) ∧ is_utf8 (connect_line host p).
Proof.
  intros Hh Hp. pose proof (digits_visible p Hp) as Hd.
  assert (all_chars (λ c, visible c || Ascii.eqb c " ") (connect_line host p) = true) as Hall.
  { unfold connect_line. rewrite !all_chars_app.
    assert (∀ s, all_chars visible s = true → all_chars (λ c, visible c || Ascii.eqb c " ") s = true) as Hw.
    { intros s Hs. apply (all_chars_weaken visible); [|done]. intros c Hc. by rewrite Hc. }
    rewrite (Hw host Hh), (Hw (to_string p) Hd). done. }
  revert Hall. generalize (connect_line host p) as s. intros s Hs. split.
  - induction s as [|c s IH]; [constructor|]. cbn [all_chars str_bytes] in *.
    apply andb_true_iff in Hs as [Hc Hs]. constructor; [|by apply IH].
    unfold visible in Hc. destruct (Ascii.eqb c " ") eqn:E.
    + apply Ascii.eqb_eq in E as ->. done.
    + rewrite orb_false_r in Hc. bool_simp. lia.
  - apply ascii_utf8. apply (all_chars_weaken (λ c, visible c || Ascii.eqb c " ")); [|done].
    intros c Hc. unfold is_ascii, visible in *. destruct (Ascii.eqb c " ") eqn:E.
    + by apply Ascii.eqb_eq in E as ->.
    + rewrite orb_false_r in Hc. bool_simp. apply Z.ltb_lt. lia.
Qed.

(** From the first byte of an HTTP request to its target. *)
Lemma run_http_line fuel s exit_peer host p l w :
  all_chars visible host = true → 1 <= p <= 65535 →
  (String.length (connect_line host p) + 2 <= MAX_LINE)%nat →
  sw_in w = str_bytes (connect_line host p) ++ 13 :: 10 :: l →
  let w1 := take_in (String.length (connect_line host p) + 2) w in
  sw_in w1 = l ∧
  run sock_handler (handle_client fuel s exit_peer) w =
  run sock_handler
    (do? absorb_headers fuel s [0; 0; 0; 0];
     r ← connect_via_relay exit_peer host p;
     match r with
     | Ok relay_conn =>
       do? write_all s http_ok;
       ask (BridgeRelay s relay_conn None);;
       mret (Ok tt)
     | Err e => ask (WriteAll s http_bad_gateway);; mret (Err e)
     end) w1.
Proof.
  intros Hh Hp Hlen Hin. cbv zeta. destruct (line_bytes_ok host p Hh ltac:(lia)) as [Hl Hu].
  split.
  { apply (take_in_rest _ _ (str_bytes (connect_line host p) ++ [13; 10])).
    - by rewrite Hin, <- app_assoc.
    - by rewrite length_app, length_str_bytes. }
  set (r := "ONNECT " +:+ host +:+ ":" +:+ to_string p +:+ " HTTP/1.1").
  assert (connect_line host p = String "C" r) as Hcl by done.
  assert (str_bytes (connect_line host p) = 67 :: str_bytes r) as Hcb by done.
  rewrite Hcb in Hl. apply Forall_cons in Hl as [_ Hl].
  rewrite Hcl in Hlen |- *. cbn [String.length] in Hlen |- *. rewrite Hcb in Hin. cbn [app] in Hin.
  pose proof (take_in_rest 1 w [67] _ Hin eq_refl) as Hin1.
  unfold handle_client. rewrite (run_try _ _ _ _ _ _ (run_read s 1 w [67] _ Hin eq_refl)).
  change (octet [67] 0 =? 5) with false. cbn iota.
  rewrite (run_try _ _ _ _ _ _ (run_read_line MAX_LINE s [67] (str_bytes r) l (take_in 1 w) Hl ltac:(done)
    ltac:(rewrite length_str_bytes; cbn [length]; lia) ltac:(rewrite length_str_bytes; lia) Hin1)).
  rewrite take_in_take_in, length_str_bytes.
  assert ([67] ++ str_bytes r ++ [13; 10] = str_bytes (connect_line host p +:+ bytes_str [13; 10])) as ->.
  { rewrite str_bytes_app, Hcb. by rewrite str_bytes_bytes_str by (repeat constructor; lia). }
  rewrite from_utf8_lossy_bytes by (apply is_utf8_app; [done|by apply ascii_utf8]).
  unfold handle_http_connect.
  assert (trim_end (connect_line host p +:+ bytes_str [13; 10]) = connect_line host p) as ->.
  { unfold connect_line. rewrite <- !app_string_assoc. rewrite app_string_assoc.
    by rewrite trim_end_app_eq. }
  assert (to_uppercase (connect_line host p) = "CONNECT " +:+ to_uppercase (host +:+ ":" +:+ to_string p +:+ " HTTP/1.1")) as ->.
  { done. }
  rewrite starts_with_app. cbn [negb]. unfold connect_target in *.
  pose proof (connect_target_line host p Hh Hp) as Ht. unfold connect_target in Ht. by rewrite Ht.
Qed.

(** An HTTP CONNECT request with its headers is connected to the host and the
    port of its first line, and what follows the headers is left for the relay. *)
Theorem http_connects fuel s exit_peer host p hs rest notice w :
  all_chars visible host = true → 1 <= p <= 65535 →
  (String.length (connect_line host p) + 2 <= MAX_LINE)%nat →
  Forall header_ok hs → hs ≠ [] → (length (sw_in w) < fuel)%nat →
  sw_in w = str_bytes (connect_line host p) ++ 13 :: 10 :: header_bytes hs ++ 13 :: 10 :: rest →
  let uuid := proxy_uuid host p (hex8_of (sw_byte w)) in
  relay_ready exit_peer uuid notice w →
  let r := run sock_handler (handle_client fuel s exit_peer) w in
  r.1 = Finished (Ok tt) ∧ sw_in r.2 = rest ∧ sw_out r.2 = sw_out w ++ [http_ok] ∧
  sw_frames r.2 = sw_frames w ++ [(length (sw_conns w), notice); (S (length (sw_conns w)), uuid_handshake uuid)] ∧
  sw_bridge r.2 = Some (S (length (sw_conns w))) ∧ proxy_target uuid = Some (host, p).
Proof.
  intros Hh Hp Hlen Hhs Hne Hf Hin. cbv zeta. intros Hready.
  destruct (run_http_line fuel s exit_peer host p _ w Hh Hp Hlen Hin) as [Hin1 ->].
  set (w1 := take_in _ w) in *.
  assert (run sock_handler (absorb_headers fuel s [0; 0; 0; 0]) w1 =
          (Finished (Ok tt), take_in (length (sw_in w1) - length rest) w1)) as Ha.
  { rewrite run_absorb by (subst w1; cbn; rewrite length_drop; lia).
    by rewrite Hin1, after_header_lines by done. }
  rewrite (run_try _ _ _ _ _ _ Ha).
  assert (sw_in (take_in (length (sw_in w1) - length rest) w1) = rest) as Hrest.
  { apply (take_in_rest _ _ (header_bytes hs ++ [13; 10])); rewrite Hin1; [by rewrite <- app_assoc|].
    rewrite !length_app. cbn [length]. lia. }
  set (w2 := take_in _ w1) in *.
  rewrite (run_bind_eq _ _ _ _ _ _ (run_connect exit_peer host p notice w2 Hready)).
  cbn [run sock_handler fst snd mbind Prog_bind prog_bind ask]. unfold connected.
  assert (sw_out w2 = sw_out w ∧ sw_frames w2 = sw_frames w ∧ sw_conns w2 = sw_conns w ∧
          sw_byte w2 = sw_byte w) as (Hout & Hfr & Hcs & Hby) by done.
  assert (is_utf8 host) as Hu.
  { apply ascii_utf8. apply (all_chars_weaken visible); [|done]. intros c. unfold visible, is_ascii.
    intros Hc. bool_simp. apply Z.ltb_lt. lia. }
  clearbody w2. cbn - [http_ok]. rewrite Hrest, Hout, Hfr, Hcs, Hby, <- !app_assoc. split_and!; try done.
  by apply proxy_target_uuid.
Qed.

(** A CONNECT request without headers is never answered: its blank line is read
    with the first line, and the proxy waits for another. *)
Theorem http_without_headers_waits fuel s exit_peer host p w :
  all_chars visible host = true → 1 <= p <= 65535 →
  (String.length (connect_line host p) + 2 <= MAX_LINE)%nat → (length (sw_in w) < fuel)%nat →
  sw_in w = str_bytes (connect_line host p) ++ [13; 10; 13; 10] → sw_ended w = false →
  let r := run sock_handler (handle_client fuel s exit_peer) w in
  r.1 = Waiting ∧ sw_out r.2 = sw_out w ∧ sw_conns r.2 = sw_conns w.
Proof.
  intros Hh Hp Hlen Hf Hin He. cbv zeta.
  destruct (run_http_line fuel s exit_peer host p _ w Hh Hp Hlen Hin) as [Hin1 ->].
  set (w1 := take_in _ w) in *.
  assert (run sock_handler (absorb_headers fuel s [0; 0; 0; 0]) w1 = (Waiting, take_in (length (sw_in w1)) w1)) as Ha.
  { rewrite run_absorb by (subst w1; cbn; rewrite length_drop; lia). rewrite Hin1.
    change (sw_ended w1) with (sw_ended w). by rewrite He. }
  rewrite (run_try_waiting _ _ _ _ _ Ha). done.
Qed.

(** ** Every connection ends *)

(** On a stream that is closed, with less than [n] bytes to come, [p] neither
    waits nor runs out of fuel. *)
Definition settles {A} (n : nat) (p : IO A) : Prop :=
  ∀ w, sw_ended w = true → (length (sw_in w) < n)%nat →
  let r := run sock_handler p w in
  r.1 ≠ Waiting ∧ r.1 ≠ Stopped OutOfFuel ∧ sw_ended r.2 = true ∧ (length (sw_in r.2) < n)%nat.

Lemma settles_ret {A} n (a : A) : settles n (mret a).
Proof. by intros w He Hl. Qed.
Lemma settles_panic {A} n : settles n (Stop Panicked : IO A).
Proof. by intros w He Hl. Qed.
Lemma settles_bind {A B} n (p : IO A) (f : A → IO B) :
  settles n p → (∀ a, settles n (f a)) → settles n (p ≫= f).
Proof.
  intros Hp Hf w He Hl. specialize (Hp w He Hl). cbv zeta in *. rewrite run_bind.
  destruct (run sock_handler p w) as [[a|h|] w']; cbn [fst snd] in *; destruct Hp as (H1' & H2' & H3' & H4').
  - by apply Hf.
  - split_and!; try done. by intros [= ->].
  - done.
Qed.
Lemma settles_try {A B} n (p : Fallible A) (k : A → Fallible B) :
  settles n p → (∀ a, settles n (k a)) → settles n (try_bind p k).
Proof. intros Hp Hk. apply settles_bind; [done|]. intros [a|e]; [apply Hk|apply settles_ret]. Qed.
(** The questions of a proxied connection are answered when the stream is closed. *)
Lemma settles_ask {X} n (e : Net X) :
  (∀ w, sw_ended w = true →
     ∃ x w', sock_handler X e w = Some (x, w') ∧ sw_ended w' = true ∧ (length (sw_in w') <= length (sw_in w))%nat) →
  settles n (ask e).
Proof.
  intros Hans w He Hl. cbv zeta. cbn [ask run]. destruct (Hans w He) as (x & w' & -> & He' & Hl').
  cbn. split_and!; try done. lia.
Qed.
Ltac settle_step :=
  first
    [ apply settles_ret
    | apply settles_panic
    | apply settles_try; [|intros ?]
    | apply settles_bind; [|intros ?]
    | apply settles_ask; intros w Hw; cbn;
      first [by eexists _, _ | case_match; by eexists _, _] ].
Lemma settles_read n s k : settles n (read_exact s k).
Proof.
  apply settles_bind; [|intros []; apply settles_ret]. apply settles_ask. intros w Hw. cbn - [Nat.ltb].
  rewrite Hw. case_match; eexists _, _; (split; [done|]); (split; [done|]); [done|]. cbn. rewrite length_drop. lia.
Qed.
Lemma settles_try_read {B} n s k (f : bytes → Fallible B) :
  (∀ b, length b = k → settles n (f b)) → settles n (try_bind (read_exact s k) f).
Proof.
  intros Hf w He Hl. destruct (decide (k <= length (sw_in w))%nat) as [Hk|Hk].
  - cbv zeta. rewrite (run_try _ _ _ _ _ _ (run_read s k w (take k (sw_in w)) (drop k (sw_in w))
      (eq_sym (take_drop _ _)) ltac:(rewrite length_take; lia))).
    apply Hf; [rewrite length_take; lia|done|cbn; rewrite length_drop; lia].
  - assert (run sock_handler (read_exact s k) w = (Finished (Err Eof), w)) as Hr.
    { unfold read_exact, or_else, ask. cbn - [Nat.ltb]. rewrite (proj2 (Nat.ltb_lt _ _)) by lia. by rewrite He. }
    cbv zeta. by rewrite (run_try_err _ _ _ _ _ _ Hr).
Qed.
Lemma settles_write n s b : settles n (write_all s b).
Proof. unfold write_all, ensure. repeat settle_step. Qed.
Lemma settles_send n c msg wire : settles n (send_rendezvous c msg wire).
Proof. unfold send_rendezvous, ensure. case_match; repeat settle_step. Qed.
Lemma settles_random n k : settles n (random_hex k).
Proof. induction k as [|k IH]; cbn [random_hex]; repeat (apply IH || settle_step). Qed.
Lemma settles_connect n exit_peer host p : settles n (connect_via_relay exit_peer host p).
Proof.
  unfold connect_via_relay, config, store, or_else, ensure.
  repeat first [apply settles_random | apply settles_send | settle_step | case_match].
Qed.
Lemma settles_parse n s atyp : settles n (parse_socks5_addr s atyp).
Proof. unfold parse_socks5_addr. repeat first [apply settles_read | settle_step | case_match]. Qed.
Lemma settles_absorb n s tail : settles n (absorb_headers n s tail).
Proof.
  intros w He Hl. cbv zeta. rewrite run_absorb by done. case_match; cbn; rewrite ?He;
    split_and!; try done; rewrite length_drop; lia.
Qed.
Lemma settles_read_line n fuel s line :
  (length line <= MAX_LINE)%nat → (MAX_LINE < length line + fuel)%nat → settles n (read_line fuel s line).
Proof.
  revert line. induction fuel as [|fuel IH]; intros line Hle Hlt; [lia|]. cbn [read_line].
  apply settles_try; [apply settles_read|]. intros b. cbv zeta. case_match; [apply settles_ret|].
  destruct (MAX_LINE <? _)%nat eqn:E; [apply settles_ret|]. apply Nat.ltb_ge in E.
  apply IH; [done|]. rewrite length_app. cbn [length]. lia.
Qed.

(** Every connection whose application closes it comes to an end, whatever
    bytes it sent and whichever servers answer: with fuel for the bytes it
    sent, the handler returns or panics, and neither waits nor runs out. *)
Theorem closed_connections_end fuel s exit_peer w :
  sw_ended w = true → (length (sw_in w) < fuel)%nat →
  let r := run sock_handler (handle_client fuel s exit_peer) w in
  (∃ v, r.1 = Finished v) ∨ r.1 = Stopped Panicked.
Proof.
  intros He Hl. cbv zeta.
  assert (settles fuel (handle_client fuel s exit_peer)) as Hs.
  { unfold handle_client, handle_socks5, handle_http_connect.
    apply settles_try_read. intros first Hfirst. case_match.
    - repeat first [apply settles_read | apply settles_write | apply settles_parse | apply settles_connect
                   | settle_step | case_match].
    - apply settles_try; [apply settles_read_line; unfold MAX_LINE; lia|]. intros line.
      repeat first [apply settles_absorb | apply settles_write | apply settles_connect
                   | settle_step | case_match]. }
  destruct (Hs w He Hl) as (Hw & Hf & _). destruct (run _ _ w) as [[v|[]|] w']; cbn in *; eauto; congruence.
Qed.
End socks5_spec.

(** ** The theorems at concrete inputs *)

(** base64 by the decimal number of the bytes. *)
Definition TestUrl : UrlBase64 :=
  {| url_encode b := to_string (Zpos (encode b)); url_decode s := n ← digits s; decode (Z.to_pos n) |}.
Lemma TestUrlLaws : @UrlBase64Laws TestUrl.
Proof.
  split.
  - intros b. unfold url_encode, url_decode, TestUrl. unfold to_string. change (Z.pos (encode b) <? 0) with false.
    cbn iota. rewrite digits_to_string_nonneg by lia. cbn [mbind option_bind]. apply decode_encode.
  - intros b. apply (all_chars_weaken digit_char); [|by apply all_digits_to_string].
    intros c Hc. unfold url_char. by rewrite Hc.
Qed.

Definition test_store : Store :=
  mkStore (set_relay_server "relay.example" (set_rendezvous_servers "hbbs.example" default_config)) None DiskOk.
Definition test_uuid (host : string) (p : Z) : string := @proxy_uuid TestUrl host p (hex8_of 171).
Definition test_notices : WireLib :=
  TableWire [relay_notice test_store "peer9" (test_uuid "example.org" 443);
             relay_notice test_store "peer9" (test_uuid "10.0.0.7" 80)].
Definition test_sock (b : bytes) (ended : bool) : SockWorld :=
  {| sw_store := test_store; sw_in := b; sw_ended := ended; sw_out := []; sw_up := λ _, true; sw_byte := 171;
     sw_conns := []; sw_frames := []; sw_bridge := None |}.


Lemma socks5_refuses_commands_witness :
  let w := test_sock (greeting [0] ++ socks_request 2 0 (SaV4 [10; 0; 0; 7]) 80 ++ []) false in
  let r := run sock_handler (@handle_client test_notices TestUrl 0 0 "peer9") w in
  r.1 = Finished (Err (Failed "command")) ∧ sw_out r.2 = [] ++ [[5; 0]; socks_reply 7] ∧
  sw_conns r.2 = [] ∧ sw_bridge r.2 = None.
Proof.
  apply (@socks5_refuses_commands test_notices TestUrl 0 0 "peer9" [0] 2 0 (SaV4 [10; 0; 0; 7]) 80 []
    (test_sock (greeting [0] ++ socks_request 2 0 (SaV4 [10; 0; 0; 7]) 80 ++ []) false)); [cbn; lia|lia|reflexivity].
Defined.

Definition test_line : bytes := str_bytes (connect_line "example.org" 443).
Definition test_headers : list bytes := [str_bytes "Host: example.org:443"].
Lemma http_connects_witness :
  let w := test_sock (test_line ++ 13 :: 10 :: header_bytes test_headers ++ 13 :: 10 :: [22; 3]) false in
  let r := run sock_handler (@handle_client test_notices TestUrl 200 0 "peer9") w in
  r.1 = Finished (Ok tt) ∧ sw_in r.2 = [22; 3] ∧ sw_out r.2 = [] ++ [http_ok] ∧
  sw_frames r.2 = [] ++ [(0%nat, [8; 0]); (1%nat, uuid_handshake (test_uuid "example.org" 443))] ∧
  sw_bridge r.2 = Some 1%nat ∧ @proxy_target TestUrl (test_uuid "example.org" 443) = Some ("example.org"%string, 443).
Proof.
  apply (@http_connects test_notices TestUrl TestUrlLaws 200 0 "peer9" "example.org" 443 test_headers [22; 3] [8; 0]
    (test_sock (test_line ++ 13 :: 10 :: header_bytes test_headers ++ 13 :: 10 :: [22; 3]) false)).
  - reflexivity.
  - lia.
  - apply Nat.leb_le. vm_compute. reflexivity.
  - apply (bool_decide_unpack _). vm_compute. exact I.
  - done.
  - apply Nat.ltb_lt. vm_compute. reflexivity.
  - reflexivity.
  - split; [by vm_compute|]. split; [reflexivity|]. split; [reflexivity|]. vm_compute. reflexivity.
Defined.

Lemma http_without_headers_waits_witness :
  let w := test_sock (test_line ++ [13; 10; 13; 10]) false in
  let r := run sock_handler (@handle_client test_notices TestUrl 200 0 "peer9") w in
  r.1 = Waiting ∧ sw_out r.2 = [] ∧ sw_conns r.2 = [].
Proof.
  apply (@http_without_headers_waits test_notices TestUrl 200 0 "peer9" "example.org" 443
    (test_sock (test_line ++ [13; 10; 13; 10]) false)).
  - reflexivity.
  - lia.
  - apply Nat.leb_le. vm_compute. reflexivity.
  - apply Nat.ltb_lt. vm_compute. reflexivity.
  - reflexivity.
  - reflexivity.
Defined.

Lemma closed_connections_end_witness :
  let r := run sock_handler (@handle_client test_notices TestUrl 100 0 "peer9") (test_sock (str_bytes "GET / HTTP/1.1") true) in
  (∃ v, r.1 = Finished v) ∨ r.1 = Stopped Panicked.
Proof.
  apply (@closed_connections_end test_notices TestUrl 100 0 "peer9" (test_sock (str_bytes "GET / HTTP/1.1") true)).
  - reflexivity.
  - apply Nat.ltb_lt. vm_compute. reflexivity.
Defined.
