(* ===== verification/KcpSpec.v ===== *)
(** * Why a tunnel over KCP does not come about

    The called side tries the KCP handshake first and tells the server that its
    hole is punched only when the handshake has failed; the calling side sends
    the first message of the handshake only when the server has answered, which
    it does when it is told ([RendezvousSpec.punch_hole_exchange]).  Each waits
    for the other until the time of the called side is over. *)
From S2P Require Import Prelude AddrMangle Text TextFacts HostText Proto RendezvousCodec Database Keys ClientConfig ClientConfigSpec Programs ClientIo KcpTunnel PortForward Socks5 Socks5Spec Mediator.
Local Open Scope Z_scope.

Section kcp_spec.
Context `{WireLib} `{UrlBase64} `{KeyLib} `{TomlLib}.

Ltac asks_step := lazymatch goal with
  | |- asks _ (mret _) => exact I
  | |- asks _ (Ret _) => exact I
  | |- asks _ (ask _) => apply asks_ask
  | |- asks _ (mbind _ _) => apply asks_bind; [|intros ?]
  | |- asks _ (prog_bind _ _) => apply asks_bind; [|intros ?]
  | |- asks _ (try_bind _ _) => apply asks_try; [|intros ?]
  | |- asks _ (match ?t with _ => _ end) => destruct t
  end.
Ltac asks_steps := repeat asks_step.

(** ** The called side *)

(** A frame to a server, a tunnel over KCP for the peer. *)
Definition tells_server (o : Obs Net) : bool := match o with obs (SendBytes _ _) _ => true | _ => false end.
Definition serves_kcp (o : Obs Net) : bool := match o with obs (Spawn (T_inbound_kcp _ _ _ _)) _ => true | _ => false end.
Definition no_frame {X} (e : Net X) : Prop :=
  match e with SendBytes _ _ => False | _ => True end.
Definition no_kcp {X} (e : Net X) : Prop :=
  match e with Spawn (T_inbound_kcp _ _ _ _) => False | _ => True end.
Definition before_frames {X} (e : Net X) : Prop := no_frame e ∧ no_kcp e.

Lemma no_frames tr : Forall (of_kind (@no_frame)) tr → existsb tells_server tr = false.
Proof. induction 1 as [|[X e x] tr He _ IH]; [done|]. cbn in *. destruct e; done. Qed.
Lemma no_kcps tr : Forall (of_kind (@no_kcp)) tr → existsb serves_kcp tr = false.
Proof. induction 1 as [|[X e x] tr He _ IH]; [done|]. cbn in *. destruct e as [| | | | | | | | | | | | | | | | | | | | | | | | | |t| | | |]; try done. by destruct t. Qed.

Lemma asks_weaken {E : Type → Type} (P Q : ∀ X, E X → Prop) {A} (p : Prog E A) :
  (∀ X e, P X e → Q X e) → asks P p → asks Q p.
Proof. intros HPQ. induction p; cbn; try done. intros [He Hk]. split; auto. Qed.

Lemma query_tries_asks n buf s a : asks (@before_frames) (query_port_tries n buf s a).
Proof. induction n as [|n IH]; [done|]. cbn [query_port_tries]. asks_steps; done. Qed.
Lemma query_asks s a : asks (@before_frames) (query_udp_public_port s a).
Proof. unfold query_udp_public_port. case_match; [apply query_tries_asks|done]. Qed.
Lemma repeat_asks {P : ∀ X, Net X → Prop} n p : asks P p → asks P (repeat_io n p).
Proof. intros Hp. induction n as [|n IH]; [done|]. cbn [repeat_io]. by apply asks_bind. Qed.
Lemma probes_asks s a : asks (@before_frames) (send_udp_probes s a).
Proof. apply repeat_asks. asks_steps; done. Qed.
Lemma accept_loop_asks fuel s a d : asks (@before_frames) (kcp_accept_loop fuel s a d).
Proof. induction fuel as [|fuel IH]; [done|]. cbn [kcp_accept_loop]. unfold recv_magic. asks_steps; done. Qed.
Lemma accept_asks fuel h a : asks (@before_frames) (accept_kcp fuel h a).
Proof.
  unfold accept_kcp. apply asks_bind; [by apply asks_ask|]. intros [s|]; [|done].
  apply asks_bind; [apply query_asks|]. intros _. apply asks_bind; [apply probes_asks|]. intros _.
  apply asks_bind; [|done]. apply asks_cancellable; [done|]. unfold kcp_accept.
  apply asks_bind; [by apply asks_ask|]. intros now. apply accept_loop_asks.
Qed.

Lemma both_kinds tr : Forall (of_kind (@before_frames)) tr →
  existsb tells_server tr = false ∧ existsb serves_kcp tr = false.
Proof.
  intros Ht. split; [apply no_frames|apply no_kcps]; eapply Forall_impl; try exact Ht; intros [X e x]; cbn; by intros [??].
Qed.

(** Either it is served over KCP, without a word to the server, or nothing of
    the kind has happened yet. *)
Lemma punch_udp_wp fuel host pa p u tr :
  existsb tells_server tr = false → existsb serves_kcp tr = false →
  wp (punch_udp_hole fuel host pa p u) tr (λ tr' b,
    existsb tells_server tr' = false ∧ (b = false → existsb serves_kcp tr' = false)).
Proof.
  intros Hf Hs. unfold punch_udp_hole. destruct (parse_socket_addr _) as [hb|]; [|done].
  destruct (port hb =? 0); [done|]. apply wp_bind. eapply wp_asks; [apply accept_asks|].
  intros tr2 k [E1 E2]%both_kinds. destruct k as [k|].
  - cbn. intros st.
    assert (existsb tells_server ((tr ++ tr2) ++ [obs GetStore st]) = false ∧
            existsb serves_kcp ((tr ++ tr2) ++ [obs GetStore st]) = false) as [F1 F2].
    { rewrite !existsb_app, Hf, Hs, E1, E2. done. }
    case_match; cbn; [done|]. intros x. rewrite existsb_app, F1. done.
  - cbn. by rewrite !existsb_app, Hf, Hs, E1, E2.
Qed.

Lemma send_asks_no_kcp c m w : asks (@no_kcp) (send_rendezvous c m w).
Proof. unfold send_rendezvous, ensure. asks_steps; done. Qed.
Lemma config_no_kcp {A} (f : Store → A) : asks (@no_kcp) (config f).
Proof. unfold config, store. asks_steps; done. Qed.
Lemma connect_no_kcp h : asks (@no_kcp) (or_else Io (ask (ConnectTcp h))).
Proof. unfold or_else. asks_steps; done. Qed.
Lemma register_relay_no_kcp u a c h p : asks (@no_kcp) (register_relay u a c h p).
Proof. unfold register_relay. asks_steps; done. Qed.
Lemma tries_no_kcp n buf s a : asks (@no_kcp) (query_port_tries n buf s a).
Proof. eapply asks_weaken; [|apply query_tries_asks]. by intros X e [??]. Qed.
Ltac asks_auto := repeat first [ solve [ simple apply send_asks_no_kcp | simple apply config_no_kcp | simple apply connect_no_kcp
  | simple apply register_relay_no_kcp | simple apply tries_no_kcp ] | asks_step ].

Lemma relay_asks host wire sa rs u i pid : asks (@no_kcp) (create_relay_connection host wire sa rs u i pid).
Proof. unfold create_relay_connection. asks_auto. Qed.
Lemma punch_tcp_asks host wire pa sa rs u : asks (@no_kcp) (punch_tcp_hole host wire pa sa rs u).
Proof.
  unfold punch_tcp_hole, probe_udp_public_port, query_udp_public_port, target_of, register_inbound.
  asks_auto; done.
Qed.

(** The called side serves a peer over KCP only in a run in which it has told
    the server nothing. *)
Definition kcp_before_answer (tr : Trace Net) : Prop := existsb serves_kcp tr = true → existsb tells_server tr = false.
Lemma no_kcp_wp {A} (p : IO A) tr :
  asks (@no_kcp) p → existsb serves_kcp tr = false → wp p tr (λ tr' _, kcp_before_answer tr').
Proof.
  intros Hp Ht. eapply wp_asks; [exact Hp|]. intros tr2 a Hs%no_kcps. unfold kcp_before_answer.
  by rewrite existsb_app, Ht, Hs.
Qed.
Lemma called_side_wp fuel host wire ph :
  wp (handle_punch_hole fuel host wire ph) [] (λ tr _, kcp_before_answer tr).
Proof.
  unfold handle_punch_hole, get_relay_server, config, store. cbn [mbind Prog_bind prog_bind ask mret Prog_ret wp].
  intros st uuid. set (relay_server := (if negb (bool_decide (ClientConfig.get_relay_server st = ""%string)) then _ else _)).
  set (tr0 := ([] ++ [obs GetStore st]) ++ [obs NewUuid uuid]).
  assert (existsb tells_server tr0 = false ∧ existsb serves_kcp tr0 = false) as [Hf Hs] by done. clearbody tr0.
  destruct (_ || _); [apply no_kcp_wp; [apply relay_asks|done]|].
  apply wp_bind.
  eapply (wp_mono _ _ (λ tr' b, existsb tells_server tr' = false ∧ (b = false → existsb serves_kcp tr' = false))).
  2: { destruct (_ =? 0); [done|by apply punch_udp_wp]. }
  intros tr1 [|] [F1 F2]; [by intros _|]. specialize (F2 eq_refl).
  apply wp_bind. eapply wp_asks; [apply punch_tcp_asks|]. intros tr2 r E2%no_kcps.
  assert (existsb serves_kcp (tr1 ++ tr2) = false) as F3 by by rewrite existsb_app, F2, E2.
  destruct r; [cbn; unfold kcp_before_answer; by rewrite F3|]. apply no_kcp_wp; [apply relay_asks|done].
Qed.

(** ** The calling side *)

(** The first message of the handshake; the answer of the server that the hole
    is punched. *)
Definition says_connect (o : Obs Net) : bool :=
  match o with obs (SendTo _ b _) _ => bool_decide (b = CONNECT_MAGIC) | _ => false end.
Definition punched_response (r : Recv) : bool :=
  match r with
  | Frame b => match parse b with
               | Some m => match union m with Some (U_PunchHoleResponse _) => true | _ => false end
               | None => false
               end
  | _ => false
  end.
Definition hears_punched (o : Obs Net) : bool :=
  match o with obs e x => match e in Net X return X → bool with NextFrame _ _ => punched_response | _ => λ _, false end x end.
Definition no_connect {X} (e : Net X) : Prop :=
  match e with SendTo _ b _ => b ≠ CONNECT_MAGIC | _ => True end.

(** No [CONNECT_MAGIC] before such an answer. *)
Fixpoint connect_after_answer (tr : Trace Net) : bool :=
  match tr with
  | [] => true
  | o :: tr => hears_punched o || (negb (says_connect o) && connect_after_answer tr)
  end.
Definition silent (tr : Trace Net) : Prop := existsb says_connect tr = false.
Lemma silent_app tr1 tr2 : silent tr1 → silent tr2 → silent (tr1 ++ tr2).
Proof. unfold silent. rewrite existsb_app. by intros -> ->. Qed.
Lemma silent_ok tr : silent tr → connect_after_answer tr = true.
Proof.
  unfold silent. induction tr as [|o tr IH]; [done|]. cbn. intros [-> Ht]%orb_false_iff. rewrite IH by done. apply orb_true_r.
Qed.
Lemma answered_ok tr1 o tr2 :
  silent tr1 → hears_punched o = true → connect_after_answer ((tr1 ++ [o]) ++ tr2) = true.
Proof.
  unfold silent. intros Hs Ho. rewrite <- app_assoc. change ([o] ++ tr2) with (o :: tr2).
  induction tr1 as [|o' tr1 IH]; cbn; [by rewrite Ho|].
  cbn in Hs. apply orb_false_iff in Hs as [-> Ht]. rewrite IH by done. apply orb_true_r.
Qed.
Lemma no_connects tr : Forall (of_kind (@no_connect)) tr → silent tr.
Proof.
  unfold silent. induction 1 as [|[X e x] tr He _ IH]; [done|]. cbn in *. rewrite IH, orb_false_r. destruct e; try done.
  by apply bool_decide_false.
Qed.
Lemma wp_silent {A} (p : IO A) tr (Q : Trace Net → A → Prop) :
  asks (@no_connect) p → silent tr → (∀ tr' a, silent tr' → Q tr' a) → wp p tr Q.
Proof. intros Hp Ht HQ. eapply wp_asks; [exact Hp|]. intros tr2 a Hn%no_connects. apply HQ. by apply silent_app. Qed.
(** Once the answer was heard, anything goes. *)
Lemma wp_answered {A} (p : IO A) tr1 o :
  silent tr1 → hears_punched o = true → wp p (tr1 ++ [o]) (λ tr _, connect_after_answer tr = true).
Proof.
  intros Hs Ho. apply (wp_asks (λ _ _, True)).
  { induction p; cbn; auto. }
  intros tr2 a _. by apply answered_ok.
Qed.

Hypothesis query_is_no_connect : proto3_write (mk (U_TestNatRequest default_TestNatRequest)) ≠ Some CONNECT_MAGIC.
Lemma query_no_connect s a : asks (@no_connect) (query_udp_public_port s a).
Proof.
  unfold query_udp_public_port. destruct (proto3_write _) as [buf|] eqn:E; [|done].
  assert (buf ≠ CONNECT_MAGIC) as Hb by congruence. generalize 3%nat as n.
  induction n as [|n IH]; [done|]. cbn [query_port_tries]. asks_steps; done.
Qed.
Lemma send_no_connect c m w : asks (@no_connect) (send_rendezvous c m w).
Proof. unfold send_rendezvous, ensure. asks_steps; done. Qed.

Lemma calling_side_wp fuel peer_id local_port :
  wp (connect_to_peer fuel peer_id local_port) [] (λ tr _, connect_after_answer tr = true).
Proof.
  unfold connect_to_peer, config, store. cbn [mbind Prog_bind prog_bind ask mret Prog_ret wp]. intros st.
  destruct (get_rendezvous_servers st) as [|server rest]; [done|]. cbn [prog_bind wp]. intros st2 sock.
  apply wp_bind. apply wp_silent; [destruct sock; [apply asks_bind; [apply query_no_connect|done]|done]|done|].
  intros tr1 my_port S1. apply wp_try. apply wp_silent; [unfold or_else; asks_steps; done|done|].
  intros tr2 [conn|err] S2; [|by apply silent_ok]. cbn [prog_bind wp]. intros st3.
  apply wp_try. apply wp_silent; [apply send_no_connect|by apply silent_app|].
  intros tr3 [u|err] S3; [|by apply silent_ok]. cbn [prog_bind wp]. intros r.
  destruct (punched_response r) eqn:Er; [by apply wp_answered|].
  assert (silent (tr3 ++ [obs (NextFrame conn.1 (Some CONNECT_TIMEOUT)) r])) as S4 by by apply silent_app.
  revert S4. generalize (tr3 ++ [obs (NextFrame conn.1 (Some CONNECT_TIMEOUT)) r]) as tr4. intros tr4 S4.
  apply wp_silent; [|done|by intros tr' a; apply silent_ok].
  unfold punched_response in Er. destruct r as [b| | |]; [|done..]. destruct (parse b) as [m|]; [|done].
  destruct (union m) as [[]|]; try done. unfold or_else, create_outbound_relay, ensure. asks_steps; done.
Qed.

(** C33. Each side of a tunnel over KCP waits for the other.  Whatever it is
    answered, a run of the called side in which it serves the peer over KCP has
    told the server nothing, not even that the hole is punched; and whatever it
    is answered, the calling side sends the first message of the handshake only
    after the answer of the server that the hole is punched, which the server
    sends when it is told so. *)
Theorem kcp_sides_wait_for_each_other fuel host wire ph peer_id local_port :
  wp (handle_punch_hole fuel host wire ph) [] (λ tr _, kcp_before_answer tr) ∧
  wp (connect_to_peer fuel peer_id local_port) [] (λ tr _, connect_after_answer tr = true).
Proof. split; [apply called_side_wp|apply calling_side_wp]. Qed.
End kcp_spec.

(** ** At concrete inputs *)
Section witnesses.
#[local] Existing Instance TestKeys.
#[local] Existing Instance TestToml.
#[local] Existing Instance TestUrl.
#[local] Instance PlainWire : WireLib := TableWire [mk (U_TestNatRequest default_TestNatRequest)].
Lemma kcp_sides_wait_for_each_other_witness :
  proto3_write (mk (U_TestNatRequest default_TestNatRequest)) = Some [8; 0] ∧
  wp (connect_to_peer 40 "200000002" 8022) [] (λ tr _, connect_after_answer tr = true).
Proof.
  assert (proto3_write (mk (U_TestNatRequest default_TestNatRequest)) = Some [8; 0]) as E by reflexivity.
  split; [exact E|].
  eapply (kcp_sides_wait_for_each_other _ 40 "" Proto3 default_PunchHole "200000002" 8022).
  Unshelve. rewrite E. discriminate.
Defined.
End witnesses.
