(* ===== verification/IpcSpec.v ===== *)
(** * What the control interface guarantees

    Every line that is not blank gets one line of JSON, in turn, whatever the
    command is and whatever the parts answer; a subcommand of the program
    reaches the function it names, with the arguments given; and a rule that is
    not added is reported as added. *)
From Stdlib Require Import Ascii.
From S2P Require Import Prelude AddrMangle Text TextFacts HostText JsonTree Proto RendezvousCodec Database Keys ClientConfig ClientConfigSpec Programs ClientIo PortForward Socks5 Socks5Spec ClientAuth Lan Mediator Ipc.
Local Open Scope Z_scope.

Section ipc_spec.
Context `{WireLib} `{UrlBase64} `{PaddedBase64} `{JsonLib} `{TomlLib} `{IpcTexts}.

(** ** Commands neither read nor write the connection *)

Definition off_line {X} (e : IpcIo X) : bool := match e with IReadLine | IWrite _ => false | _ => true end.
Abbreviation quiet := (asks (λ X (e : IpcIo X), off_line e = true)).
Lemma quiet_embed {E A} (up : ∀ X, E X → IpcIo X) (p : Prog E A) :
  (∀ X (e : E X), off_line (up X e) = true) → quiet (embed up p).
Proof. intros Hup. induction p as [a|h|X e k IH]; cbn; eauto. Qed.
Lemma quiet_net {A} (p : Prog Net A) : quiet (by_net p).
Proof. by apply quiet_embed. Qed.
Lemma quiet_auth {A} (p : Prog AuthIo A) : quiet (by_auth p).
Proof. by apply quiet_embed. Qed.
Lemma quiet_lan {A} (p : Prog LanIo A) : quiet (by_lan p).
Proof. by apply quiet_embed. Qed.

Ltac quiet_steps := repeat first
  [ apply asks_ret | apply quiet_net | apply quiet_auth | apply quiet_lan | by apply asks_ask
  | apply asks_bind; [|intros ?] | case_match ].
Lemma dispatch_quiet fuel req : quiet (dispatch fuel req).
Proof.
  unfold dispatch. destruct (List.find _ _) as [[n p]|] eqn:E; [|done].
  apply find_some in E as [E _]. cbn [snd]. unfold commands in E.
  repeat (destruct E as [E|E]; [apply (f_equal snd) in E; cbn [snd] in E; rewrite <- E; clear;
    cbv [ipc_status ipc_discover ipc_connect ipc_close ipc_get_config with_restart ipc_login ipc_register ipc_change_password ipc_remove_device ipc_add_rule
    ipc_remove_rule ipc_scan ipc_proxy_status ipc_proxy_save ipc_proxy_enable ipc_put ipc_store]; by quiet_steps|]).
  done.
Qed.
Lemma answer_line_quiet fuel line : quiet (answer_line fuel line).
Proof. unfold answer_line. case_match; [apply dispatch_quiet|done]. Qed.

(** ** A line for a line *)

(** The lines that were read, and the texts that were written. *)
Definition read_lines (tr : Trace IpcIo) : list string :=
  omap (λ o, match o with obs e x =>
    match e in IpcIo X return X → option string with IReadLine => λ x, x ≫= from_utf8 | _ => λ _, None end x end) tr.
Definition written (tr : Trace IpcIo) : list bytes :=
  omap (λ o, match o with obs (IWrite b) _ => Some b | _ => None end) tr.
Definition asks_something (s : string) : bool := negb (blank (trim s)).

(** One JSON object and the end of the line. *)
Definition answers (b : bytes) : Prop :=
  ∃ r, b = str_bytes (response_text r) ∧ json_parse (json_text (json_response r)) = Some (json_response r) ∧
       has_char newline (json_text (json_response r)) = false.

Lemma quiet_trace tr : Forall (of_kind (λ X (e : IpcIo X), off_line e = true)) tr → read_lines tr = [] ∧ written tr = [].
Proof. induction 1 as [|[X e x] tr He _ [IH1 IH2]]; [done|]. cbn in He. destruct e; try done; split; cbn; done. Qed.
Lemma wp_quiet {A} (p : Prog IpcIo A) tr (Q : Trace IpcIo → A → Prop) :
  quiet p → (∀ tr' a, read_lines tr' = read_lines tr → written tr' = written tr → Q tr' a) → wp p tr Q.
Proof.
  intros Hp HQ. eapply wp_asks; [exact Hp|]. intros tr2 a [Hr Hw]%quiet_trace. unfold read_lines, written in *.
  apply HQ; unfold read_lines, written; by rewrite omap_app, ?Hr, ?Hw, app_nil_r.
Qed.

(** The lines read, and the answers given so far. *)
Definition in_step (tr : Trace IpcIo) : Prop :=
  length (written tr) = length (List.filter asks_something (read_lines tr)) ∧ Forall answers (written tr).

Lemma handle_client_wp `{!JsonLaws} lines fuel : ∀ tr, in_step tr →
  wp (handle_client lines fuel) tr (λ tr' r, match r with Ok _ => in_step tr' | Err _ => True end).
Proof.
  induction lines as [|lines IH]; intros tr [Hl Hf]; [done|]. cbn [handle_client]. apply wp_bind. cbn [wp ask]. intros x.
  set (tr1 := tr ++ [obs IReadLine x]).
  assert (written tr1 = written tr) as Hw by (unfold tr1, written; by rewrite omap_app, app_nil_r).
  assert (read_lines tr1 = read_lines tr ++ option_list (x ≫= from_utf8)) as Hr.
  { unfold tr1, read_lines. rewrite omap_app. cbn. by destruct (x ≫= from_utf8). }
  destruct (x ≫= from_utf8) as [s|]; [|done]. cbn [option_list] in Hr.
  assert (List.filter asks_something (read_lines tr1) =
    List.filter asks_something (read_lines tr) ++ (if asks_something s then [s] else [])) as Hfil.
  { rewrite Hr, List.filter_app. cbn. by destruct (asks_something s). }
  destruct s as [|c s].
  { change (in_step tr1). unfold in_step. rewrite Hw, Hfil. cbn. by rewrite app_nil_r. }
  set (line := String c s) in *. change (asks_something line) with (negb (blank (trim line))) in Hfil.
  destruct (blank (trim line)).
  { apply IH. unfold in_step. rewrite Hw, Hfil. cbn. by rewrite app_nil_r. }
  apply wp_bind. apply wp_quiet; [apply answer_line_quiet|]. intros tr2 resp Hr2 Hw2.
  apply wp_try. unfold ensure. apply wp_bind. cbn [wp ask]. intros ok.
  destruct ok; cbn; [|done]. apply IH. unfold in_step, written, read_lines. rewrite !omap_app. fold (written tr2) (read_lines tr2).
  rewrite Hr2, Hw2, Hw. cbn. rewrite app_nil_r. rewrite length_app, Hfil, length_app, Hl. split; [done|].
  apply Forall_app. split; [done|]. constructor; [|done]. exists resp. split; [done|]. split; [apply json_roundtrip|apply json_one_line].
Qed.

(** A connection that ends well has as many answers as there were lines that
    are not blank, each of them one JSON object on one line, whatever was asked
    and whatever the rest of the program answered. *)
Theorem one_answer_per_line `{!JsonLaws} lines fuel :
  wp (handle_client lines fuel) [] (λ tr r, match r with Ok _ => in_step tr | Err _ => True end).
Proof. by apply handle_client_wp. Qed.

(** ** The subcommands *)

Lemma trim_line s : trim s = s → s ≠ ""%string → trim (s +:+ String newline "") = s.
Proof.
  intros Ht Hne. unfold trim in *.
  assert (∀ a, trim_end (a +:+ String newline "") = trim_end a) as Hend.
  { induction a as [|c a IH]; [done|]. change (String c a +:+ ?x) with (String c (a +:+ x)). cbn [trim_end]. by rewrite IH. }
  assert (trim_start (s +:+ String newline "") = trim_start s +:+ String newline "") as ->; [|by rewrite Hend].
  destruct s as [|c s]; [done|]. change (String c s +:+ ?x) with (String c (s +:+ x)). cbn [trim_start] in *.
  destruct (is_space c) eqn:Ec; [|done]. exfalso.
  assert (∀ a, trim_end a = String c s → ∃ b, a = String c b) as Hhead.
  { intros [|x a]; [done|]. cbn [trim_end]. destruct (trim_end a); [destruct (is_space x) eqn:Ex; [done|]|]; intros [= -> _]; eauto. }
  assert (∀ a b, trim_start a = String c b → False) as Hno.
  { induction a as [|x a IH]; intros b; [done|]. cbn [trim_start]. destruct (is_space x) eqn:Ex; [apply IH|].
    intros [= -> _]. congruence. }
  apply Hhead in Ht as [b Hb]. eapply Hno, Hb.
Qed.

(** What a subcommand is for, by the functions of the other parts. *)
Definition given (l : list string) (e : string) (p : Prog IpcIo IpcResponse) : Prog IpcIo IpcResponse :=
  if existsb blank l then mret (say_error e) else p.
Definition meaning (fuel : nat) (c : Commands) : Prog IpcIo IpcResponse :=
  match c return Prog IpcIo IpcResponse with
  | CId => st ← ipc_store; mret (say_id (get_id st))
  | CStatus => ipc_status
  | CPeers => l ← by_lan get_peers; mret (say_peers (List.map json_peer l))
  | CDiscover => l ← by_lan (discover fuel); mret (say_peers (List.map json_peer l))
  | CConnections => conns ← ask IConns; mret (say_connections (json_conn <$> get_active_connections conns))
  | CConnect peer_id local_port =>
    given [peer_id] "peer_id 不能为空"
      (r ← by_net (connect_to_peer fuel peer_id local_port); mret (answer_with say_local_port "连接失败: " r))
  | CClose uuid =>
    given [uuid] "uuid 不能为空"
      (conns ← ask IConns;
       match List.find (λ c, String.eqb (ac_uuid c) uuid) (get_active_connections conns) with
       | Some c => ask (IClose (ac_uuid c));; mret say_ok
       | None => mret (say_error ("未找到连接 uuid=" +:+ uuid))
       end)
  | CRestart => by_net restart;; mret say_ok
  | CRegister u e p name =>
    given [u; e; p] "用户名、邮箱、密码不能为空"
      (with_restart "注册失败: " (by_auth (register u e p (name ≫= device_option))))
  | CLogin u p name =>
    given [u; p] "用户名和密码不能为空" (with_restart "登录失败: " (by_auth (login u p (name ≫= device_option))))
  | CLogout => by_auth logout;; by_net restart;; mret say_ok
  | CAuthStatus => s ← by_auth from_config; mret (say_auth s)
  | CChangePassword old new =>
    given [old; new] "旧密码和新密码不能为空" (r ← by_auth (change_password old new); mret (answer_with (λ _, say_ok) "" r))
  | CDevices => r ← by_auth list_devices; mret (answer_with (λ l, say_devices (List.map json_account_device l)) "" r)
  | CRemoveDevice did =>
    given [did] "device_id 不能为空" (r ← by_auth (remove_device did); mret (answer_with (λ _, say_ok) "" r))
  | CProfile => r ← by_auth get_user_info; mret (answer_with (λ u, say_user (json_account u)) "" r)
  | CListRules => st ← ipc_store; mret (say_rules None (json_rule <$> get_rules st))
  | CAddRule name port host peer =>
    if blank name || (port =? 0) then mret (say_error "rule_name 和 target_port 不能为空") else
    uuid ← by_net (ask NewUuid);
    ipc_put (add_rule {| fr_id := uuid; fr_name := name; fr_peer_id := peer;
                         fr_target_host := if blank host then "127.0.0.1"%string else host;
                         fr_target_port := port; fr_enabled := true |});;
    st ← ipc_store; mret (say_rules (Some true) (json_rule <$> get_rules st))
  | CRemoveRule rule_id => given [rule_id] "rule_id 不能为空" (ipc_put (remove_rule rule_id);; mret say_ok)
  | CScanServices true => l ← ask IFullScan; mret (say_services (List.map json_service l))
  | CScanServices false => a ← ask IAnswering; mret (say_services (json_service <$> scan_local_services a))
  end.
Definition command_ok (c : Commands) : Prop :=
  match c with CConnect _ p | CAddRule _ p _ _ => 0 <= p <= 65535 | _ => True end.

Lemma within_u16 p : 0 <= p <= 65535 → within 0 65535 p = Some p.
Proof. intros Hp. unfold within. by rewrite (proj2 (Z.leb_le 0 p)), (proj2 (Z.leb_le p 65535)) by lia. Qed.
Lemma device_named name : device_option (default ""%string name) = name ≫= device_option.
Proof. by destruct name. Qed.

(** What is read of the JSON of a subcommand. *)
Lemma cli_request c : command_ok c → ∃ req, dec_request (cli_json c) = Some req ∧ ∀ fuel, dispatch fuel req = meaning fuel c.
Proof.
  intros Hc. destruct c; cbn in Hc; eexists; (split;
    [unfold dec_request, required, defaulted; cbn -[within]; rewrite ?within_u16 by done; cbn -[within]; rewrite ?within_u16 by done; reflexivity|]).
  all: intros fuel; unfold dispatch; cbn [List.find commands fst snd iq_cmd String.eqb Ascii.eqb Bool.eqb]; try reflexivity.
  all: cbn [meaning]; unfold given; cbn [existsb]; rewrite ?orb_false_r, ?orb_assoc, <- ?device_named.
  all: try reflexivity.
  - unfold ipc_add_rule, requested_rule. cbn.
    by destruct (String.eqb_spec peer_id_filter "") as [->|].
  - by destruct all.
Qed.

(** C32. A subcommand of the program makes the daemon do what it is for: the line it
    sends is read back with its arguments and dispatched to the function it
    names.  A device name that is given empty counts as not given. *)
Theorem subcommands_arrive `{!JsonLaws} fuel c :
  command_ok c →
  ∃ s, cli_line c = str_bytes (s +:+ String newline "") ∧ has_char newline s = false ∧
    answer_line fuel (trim (s +:+ String newline "")) = meaning fuel c.
Proof.
  intros Hc. exists (json_text (cli_json c)). split; [done|]. split; [apply json_one_line|].
  rewrite trim_line by apply json_not_blank. unfold answer_line. rewrite json_roundtrip. cbn [mbind option_bind].
  by destruct (cli_request c Hc) as (req & -> & Hm).
Qed.

(** ** Rules *)

(** A store and a supply of uuids. *)
Definition rule_handler : Handler IpcIo (Store * list string) := λ X e w,
  match e in IpcIo X return option (X * (Store * list string)) with
  | INet e =>
    match e in Net X return option (X * (Store * list string)) with
    | GetStore => Some (w.1, w)
    | PutStore f => Some (tt, (f w.1, w.2))
    | NewUuid => Some (default ""%string (head w.2), (w.1, tail w.2))
    | _ => None
    end
  | _ => None
  end.

(** [add_rule] says that the rule was added, with the rules there are now.  It
    was, as the last one, unless there is one with the same name and port: then
    the rules are as before, and the answer is the same, although the new rule
    may be for another host or another peer. *)
Theorem add_rule_always_ok fuel req st uuids :
  iq_cmd req = "add_rule"%string → iq_rule_name req ≠ ""%string → iq_target_port req ≠ 0 →
  let rule := requested_rule (default ""%string (head uuids)) req in
  let r := run rule_handler (dispatch fuel req) (st, uuids) in
  r.1 = Finished (say_rules (Some true) (json_rule <$> get_rules r.2.1)) ∧
  get_rules r.2.1 = if existsb (λ r, same_rule r rule) (get_rules st) then get_rules st else get_rules st ++ [rule].
Proof.
  intros Hc Hn Hp. cbv zeta. unfold dispatch. rewrite Hc. cbn [List.find commands fst snd String.eqb Ascii.eqb Bool.eqb].
  unfold ipc_add_rule. unfold blank. rewrite (proj2 (String.eqb_neq _ _) Hn), (proj2 (Z.eqb_neq _ _) Hp). cbn [orb].
  unfold ipc_put, ipc_store, by_net. cbn [mbind Prog_bind prog_bind embed ask store mret Prog_ret run rule_handler fst snd].
  split; [done|]. unfold get_rules, add_rule. rewrite update_CONFIG. by destruct (existsb _ _).
Qed.
End ipc_spec.

(** ** At concrete inputs *)
Section witnesses.
#[local] Existing Instance TestJson.
#[local] Existing Instance TestToml.
#[local] Existing Instance TestUrl.
#[local] Instance NoWire : WireLib := TableWire [].
#[local] Instance NoPadded : PaddedBase64 := λ _, None.
#[local] Instance TestIpcTexts : IpcTexts := {| failure_text := λ _, ""%string; json_error := λ _, ""%string |}.

(** Three lines at most on a connection. *)
Lemma one_answer_per_line_witness :
  wp (@handle_client NoWire TestUrl NoPadded TestJson TestToml TestIpcTexts 3 5) []
    (λ tr r, match r with Ok _ => in_step tr | Err _ => True end).
Proof. exact (@one_answer_per_line NoWire TestUrl NoPadded TestJson TestToml TestIpcTexts TestJsonLaws 3 5). Defined.

Lemma subcommands_arrive_witness :
  ∃ s, cli_line (CConnect "200000002" 8022) = str_bytes (s +:+ String newline "") ∧
    answer_line 5 (trim (s +:+ String newline "")) = ipc_connect 5
      (mkIpcRequest "connect" "200000002" 8022 "" "" "" "" 0 "" "" "" "" "" "" "" "" "" 0 false).
Proof.
  destruct (@subcommands_arrive NoWire TestUrl NoPadded TestJson TestToml TestIpcTexts TestJsonLaws 5 (CConnect "200000002" 8022)) as (s & Hs & _ & Ha); [cbn; lia|].
  exists s. split; [exact Hs|exact Ha].
Defined.

(** A second rule for port 22, for another machine. *)
Definition ssh_store : Store := mkStore (set_forward_rules [new_rule "r1" "SSH" 22] default_config) None DiskOk.
Definition ssh_request : IpcRequest :=
  mkIpcRequest "add_rule" "" 0 "" "SSH" "" "192.168.1.5" 22 "" "" "" "" "" "" "" "" "" 0 false.
Lemma add_rule_always_ok_witness :
  let r := run rule_handler (dispatch 0 ssh_request) (ssh_store, ["r2"%string]) in
  r.1 = Finished (say_rules (Some true) [json_rule (new_rule "r1" "SSH" 22)]) ∧ get_rules r.2.1 = [new_rule "r1" "SSH" 22].
Proof.
  destruct (add_rule_always_ok 0 ssh_request ssh_store ["r2"%string]) as [H1 H2]; [reflexivity|discriminate|discriminate|].
  split; [exact H1|exact H2].
Defined.
End witnesses.
