(* ===== verification/Relay.v ===== *)
(** * The relay server hbbr: [src/relay_server.rs]

    Three parts.  The access lists and the console ([check_cmd]) work on the
    lists and settings shared by all tasks ([Lists]).  Pairing ([make_pair_])
    is a step relation: each connection is a task, a task holds the lock on
    [PEERS] only for one lookup or one insertion, and any interleaving of tasks
    is a run.  [relay] moves data between two paired streams: one function of
    the event its [select!] returns.  The rate limiters only delay; the model
    records what each of them was asked to pass. *)
From Stdlib Require Import Ascii.
From S2P Require Import Prelude AddrMangle Text TextFacts Auth Proto RendezvousCodec Keys.
Local Open Scope Z_scope.

(** ** Lists and settings *)

Record Usage : Type := mkUsage { u_elapsed : Z; u_total : Z; u_highest : Z; u_speed : Z }.

Record Lists : Type := mkLists {
  BLACKLIST : gset string;
  BLOCKLIST : gset string;
  DOWNGRADE_THRESHOLD_100 : Z;
  DOWNGRADE_START_CHECK : Z;
  LIMIT_SPEED : Z;
  TOTAL_BANDWIDTH : Z;
  SINGLE_BANDWIDTH : Z;
  USAGE : gmap string Usage;
}.

Definition default_lists : Lists :=
  {| BLACKLIST := ∅; BLOCKLIST := ∅; DOWNGRADE_THRESHOLD_100 := 66;
     DOWNGRADE_START_CHECK := 1800000; LIMIT_SPEED := 32 * 1024 * 1024;
     TOTAL_BANDWIDTH := 1024 * 1024 * 1024; SINGLE_BANDWIDTH := 128 * 1024 * 1024; USAGE := ∅ |}.

Definition upd_blacklist (f : gset string → gset string) (l : Lists) : Lists :=
  {| BLACKLIST := f (BLACKLIST l); BLOCKLIST := BLOCKLIST l;
     DOWNGRADE_THRESHOLD_100 := DOWNGRADE_THRESHOLD_100 l; DOWNGRADE_START_CHECK := DOWNGRADE_START_CHECK l;
     LIMIT_SPEED := LIMIT_SPEED l; TOTAL_BANDWIDTH := TOTAL_BANDWIDTH l;
     SINGLE_BANDWIDTH := SINGLE_BANDWIDTH l; USAGE := USAGE l |}.
Definition upd_blocklist (f : gset string → gset string) (l : Lists) : Lists :=
  {| BLACKLIST := BLACKLIST l; BLOCKLIST := f (BLOCKLIST l);
     DOWNGRADE_THRESHOLD_100 := DOWNGRADE_THRESHOLD_100 l; DOWNGRADE_START_CHECK := DOWNGRADE_START_CHECK l;
     LIMIT_SPEED := LIMIT_SPEED l; TOTAL_BANDWIDTH := TOTAL_BANDWIDTH l;
     SINGLE_BANDWIDTH := SINGLE_BANDWIDTH l; USAGE := USAGE l |}.
Definition upd_usage (f : gmap string Usage → gmap string Usage) (l : Lists) : Lists :=
  {| BLACKLIST := BLACKLIST l; BLOCKLIST := BLOCKLIST l;
     DOWNGRADE_THRESHOLD_100 := DOWNGRADE_THRESHOLD_100 l; DOWNGRADE_START_CHECK := DOWNGRADE_START_CHECK l;
     LIMIT_SPEED := LIMIT_SPEED l; TOTAL_BANDWIDTH := TOTAL_BANDWIDTH l;
     SINGLE_BANDWIDTH := SINGLE_BANDWIDTH l; USAGE := f (USAGE l) |}.
(** The five numbers of [check_params]. *)
Definition set_numbers (dt start ls tb sb : Z) (l : Lists) : Lists :=
  {| BLACKLIST := BLACKLIST l; BLOCKLIST := BLOCKLIST l; DOWNGRADE_THRESHOLD_100 := dt;
     DOWNGRADE_START_CHECK := start; LIMIT_SPEED := ls; TOTAL_BANDWIDTH := tb;
     SINGLE_BANDWIDTH := sb; USAGE := USAGE l |}.

(** Floating point: the texts that parse to a number above zero, as the number
    scaled by the given factor and cut to an integer; and the text of a
    quotient. *)
Class FloatText : Type := {
  parse_scaled : Z → string → option Z;
  show_quotient : Z → Z → string;
}.

(** [check_params] and the console accept only positive values. *)
Definition MBIT : Z := 1024 * 1024.
Definition parse_positive (s : string) : option Z :=
  v ← parse_usize s; if 0 <? v then Some v else None.

Abbreviation LM A := (M Lists A).

Section lists.
Context `{FloatText} `{Env}.

Definition check_params (l : Lists) : Lists :=
  set_numbers
    (default (DOWNGRADE_THRESHOLD_100 l) (env_var "DOWNGRADE_THRESHOLD" ≫= parse_scaled 100))
    (match env_var "DOWNGRADE_START_CHECK" ≫= parse_positive with
     | Some v => wrap_u 64 (v * 1000) | None => DOWNGRADE_START_CHECK l end)
    (default (LIMIT_SPEED l) (env_var "LIMIT_SPEED" ≫= parse_scaled MBIT))
    (default (TOTAL_BANDWIDTH l) (env_var "TOTAL_BANDWIDTH" ≫= parse_scaled MBIT))
    (default (SINGLE_BANDWIDTH l) (env_var "SINGLE_BANDWIDTH" ≫= parse_scaled MBIT)) l.

(** Each line of a list file gives its first word. *)
Definition load_list (contents : string) (s : gset string) : gset string :=
  foldl (λ s x, match split_on " "%char (trim x) with ip :: _ => {[ip]} ∪ s | [] => s end) s
    (split_on (chr 10) contents).

Definition text_lines (l : list string) : string := foldr (λ a acc, a +:+ nl +:+ acc) ""%string l.
Definition bool_text (b : bool) : string := if b then "true" else "false".

Definition relay_help : string :=
  text_lines
    ["blacklist-add(ba) <ip>"; "blacklist-remove(br) <ip>"; "blacklist(b) <ip>";
     "blocklist-add(Ba) <ip>"; "blocklist-remove(Br) <ip>"; "blocklist(B) <ip>";
     "downgrade-threshold(dt) [value]"; "downgrade-start-check(t) [value(second)]";
     "limit-speed(ls) [value(Mb/s)]"; "total-bandwidth(tb) [value(Mb/s)]";
     "single-bandwidth(sb) [value(Mb/s)]"; "usage(u)"]%string.

Definition add_all (ips : string) (s : gset string) : gset string :=
  foldl (λ s ip, {[ip]} ∪ s) s (split_on "|"%char ips).
Definition remove_all (ips : string) (s : gset string) : gset string :=
  if bool_decide (ips = "all"%string) then ∅ else foldl (λ s ip, s ∖ {[ip]}) s (split_on "|"%char ips).
Definition show_list (args : list string) (s : gset string) : string :=
  match args with
  | ip :: _ => bool_text (bool_decide (ip ∈ s)) +:+ nl
  | [] => text_lines (elements s)
  end.

(** The rows of [usage], the largest total first. *)
Definition more_total (a b : string * Usage) : Prop := u_total b.2 <= u_total a.2.
#[local] Instance more_total_dec : RelDecision more_total.
Proof. unfold more_total. solve_decision. Defined.
Definition usage_text (l : Lists) : string :=
  text_lines ((λ e, e.1 +:+ ": " +:+ to_string (u_elapsed e.2 / 1000) +:+ "s "
      +:+ show_quotient (u_total e.2) (1024 * 1024 * 8) +:+ "MB " +:+ to_string (u_highest e.2) +:+ "kb/s "
      +:+ to_string (u_total e.2 / u_elapsed e.2) +:+ "kb/s " +:+ to_string (u_speed e.2) +:+ "kb/s")
    <$> filter (λ e, u_elapsed e.2 ≠ 0) (merge_sort more_total (map_to_list (USAGE l)))).

(** [check_cmd] *)
Definition relay_check_cmd (cmd : string) : LM string :=
  l ← gets (λ l, l);
  let dt := DOWNGRADE_THRESHOLD_100 l in let st := DOWNGRADE_START_CHECK l in
  let ls := LIMIT_SPEED l in let tb := TOTAL_BANDWIDTH l in let sb := SINGLE_BANDWIDTH l in
  match split_on " "%char (trim cmd) with
  | [] => mret ""%string
  | c :: args =>
    let one_of names := bool_decide (c ∈ names) in
    (* a setting: replaced by the parsed argument, or shown *)
    let number (parsed : string → option Z) (set : Z → Lists → Lists) (shown : string) : LM string :=
      match args with
      | v :: _ => match parsed v with Some v => modify (set v) | None => mret tt end;; mret ""%string
      | [] => mret shown
      end in
    if one_of ["h"%string] then mret relay_help
    else if one_of ["blacklist-add"; "ba"]%string then
      match args with ip :: _ => modify (upd_blacklist (add_all ip)) | [] => mret tt end;; mret ""%string
    else if one_of ["blacklist-remove"; "br"]%string then
      match args with ip :: _ => modify (upd_blacklist (remove_all ip)) | [] => mret tt end;; mret ""%string
    else if one_of ["blacklist"; "b"]%string then mret (show_list args (BLACKLIST l))
    else if one_of ["blocklist-add"; "Ba"]%string then
      match args with ip :: _ => modify (upd_blocklist (add_all ip)) | [] => mret tt end;; mret ""%string
    else if one_of ["blocklist-remove"; "Br"]%string then
      match args with ip :: _ => modify (upd_blocklist (remove_all ip)) | [] => mret tt end;; mret ""%string
    else if one_of ["blocklist"; "B"]%string then mret (show_list args (BLOCKLIST l))
    else if one_of ["downgrade-threshold"; "dt"]%string then
      number (parse_scaled 100) (λ v, set_numbers v st ls tb sb) (show_quotient dt 100 +:+ nl)
    else if one_of ["downgrade-start-check"; "t"]%string then
      number parse_positive (λ v, set_numbers dt (wrap_u 64 (v * 1000)) ls tb sb)
        (to_string (st / 1000) +:+ "s" +:+ nl)
    else if one_of ["limit-speed"; "ls"]%string then
      number (parse_scaled MBIT) (λ v, set_numbers dt st v tb sb) (show_quotient ls MBIT +:+ "Mb/s" +:+ nl)
    else if one_of ["total-bandwidth"; "tb"]%string then
      number (parse_scaled MBIT) (λ v, set_numbers dt st ls v sb) (show_quotient tb MBIT +:+ "Mb/s" +:+ nl)
    else if one_of ["single-bandwidth"; "sb"]%string then
      number (parse_scaled MBIT) (λ v, set_numbers dt st ls tb v) (show_quotient sb MBIT +:+ "Mb/s" +:+ nl)
    else if one_of ["usage"; "u"]%string then mret (usage_text l)
    else mret ""%string
  end.
End lists.

(** ** Accepting a connection *)

Inductive Accepted : Type := Console | Blocked | Served.

(** [handle_connection] *)
Definition handle_connection (addr : SocketAddr) (ws : bool) (l : Lists) : Accepted :=
  let i := ip (try_into_v4 addr) in
  if negb ws && is_loopback i then Console
  else if bool_decide (ip_string i ∈ BLOCKLIST l) then Blocked
  else Served.

(** ** Pairing *)

Section pairing.
Context `{WireLib}.

(** The first message of a connection: the uuid it asks to be paired under. *)
Definition relay_request (key : string) (b : bytes) : option string :=
  m ← proto3_read b;
  match union m with
  | Some (U_RequestRelay rf) =>
    if negb (bool_decide (key = ""%string)) && negb (bool_decide (rr_licence_key rf = key)) then None
    else if bool_decide (rr_uuid rf = ""%string) then None
    else Some (rr_uuid rf)
  | _ => None
  end.
End pairing.

(** Where the task of a connection is. *)
Inductive Task : Type :=
| Connected
| Unpaired (uuid : string)  (* looked up, not yet inserted *)
| Relaying (peer : nat)
| Waiting (uuid : string) (deadline : Instant)
| Done.

(** [asked] records the uuid each connection asked for. *)
Record Pairing : Type := mkPairing {
  pr_now : Instant;
  tasks : gmap nat Task;
  PEERS : gmap string nat;
  asked : gmap nat string;
}.
Definition no_connections : Pairing := {| pr_now := 0; tasks := ∅; PEERS := ∅; asked := ∅ |}.

(** What happens next: a connection, its first message with the uuid it asks
    for, the insertion of an unpaired stream, the end of a wait of thirty
    seconds, the end of a relay, time. *)
Inductive PairEvent : Type :=
| Connect (c : nat)
| Message (c : nat) (uuid : option string)
| Insert (c : nat)
| Expire (c : nat)
| RelayEnd (c : nat)
| Tick (d : Z).

Definition set_task (c : nat) (t : Task) (s : Pairing) : Pairing :=
  {| pr_now := pr_now s; tasks := <[c := t]> (tasks s); PEERS := PEERS s; asked := asked s |}.
Definition set_peers (f : gmap string nat → gmap string nat) (s : Pairing) : Pairing :=
  {| pr_now := pr_now s; tasks := tasks s; PEERS := f (PEERS s); asked := asked s |}.

(** One step of [make_pair_], [None] when the task is not at that point. *)
Definition pair_step (e : PairEvent) (s : Pairing) : option Pairing :=
  match e with
  | Connect c =>
    match tasks s !! c with None => Some (set_task c Connected s) | Some _ => None end
  | Message c uuid =>
    match tasks s !! c, uuid with
    | Some Connected, Some u =>
      let s := {| pr_now := pr_now s; tasks := tasks s; PEERS := PEERS s; asked := <[c := u]> (asked s) |} in
      match PEERS s !! u with
      | Some p => Some (set_peers (delete u) (set_task c (Relaying p) s))
      | None => Some (set_task c (Unpaired u) s)
      end
    | Some Connected, None => Some (set_task c Done s)
    | _, _ => None
    end
  | Insert c =>
    match tasks s !! c with
    | Some (Unpaired u) => Some (set_peers <[u := c]> (set_task c (Waiting u (pr_now s + secs 30)) s))
    | _ => None
    end
  | Expire c =>
    match tasks s !! c with
    | Some (Waiting u deadline) =>
      if deadline <=? pr_now s then Some (set_peers (delete u) (set_task c Done s)) else None
    | _ => None
    end
  | RelayEnd c =>
    match tasks s !! c with Some (Relaying _) => Some (set_task c Done s) | _ => None end
  | Tick d =>
    Some {| pr_now := pr_now s + Z.max 0 d; tasks := tasks s; PEERS := PEERS s; asked := asked s |}
  end.

Fixpoint pair_run (es : list PairEvent) (s : Pairing) : option Pairing :=
  match es with
  | [] => Some s
  | e :: es => s ← pair_step e s; pair_run es s
  end.

Inductive pair_reachable : Pairing → Prop :=
| reach_start : pair_reachable no_connections
| reach_step e s s' : pair_reachable s → pair_step e s = Some s' → pair_reachable s'.

(** ** Relaying *)

Record RelayState : Type := mkRelayState {
  rl_tm : Instant;
  rl_elapsed : Z;
  rl_total : Z;
  rl_total_s : Z;
  rl_highest_s : Z;
  rl_downgrade : bool;
  rl_blacked : bool;
  rl_last_recv : Instant;
  to_stream : list bytes;
  to_peer : list bytes;
  passed : list (bool * Z);  (* through the limiter of listed clients?, bits *)
}.
Definition relay_start (now : Instant) : RelayState :=
  {| rl_tm := now; rl_elapsed := 0; rl_total := 0; rl_total_s := 0; rl_highest_s := 0;
     rl_downgrade := false; rl_blacked := false; rl_last_recv := now; to_stream := [];
     to_peer := []; passed := [] |}.

(** [sb * DOWNGRADE_THRESHOLD_100 / 100 / 1000], in bits per millisecond. *)
Definition downgrade_threshold (l : Lists) : Z := SINGLE_BANDWIDTH l * DOWNGRADE_THRESHOLD_100 l / 100 / 1000.

(** What [select!] returns: bytes of either side ([None] at its end or an
    error) and whether sending them on succeeds, or the timer of three
    seconds; at what time, and at what time the limiters let go on. *)
Inductive RelayInput : Type :=
| FromPeer (b : option bytes) (send_ok : bool)
| FromStream (b : option bytes) (send_ok : bool)
| TimerTick.
Record RelayEvent : Type := mkRelayEvent { re_input : RelayInput; re_at : Instant; re_after : Instant }.

Inductive RelayStop : Type := Closed | SendFailed | TimedOut | BlockedIp.

(** Received bytes are counted and pass the limiters, ... *)
Definition count_bits (b : bytes) (now : Instant) (s : RelayState) : RelayState :=
  let nb := zlen b * 8 in
  {| rl_tm := rl_tm s; rl_elapsed := rl_elapsed s; rl_total := rl_total s + nb;
     rl_total_s := rl_total_s s + nb; rl_highest_s := rl_highest_s s; rl_downgrade := rl_downgrade s;
     rl_blacked := rl_blacked s; rl_last_recv := now; to_stream := to_stream s; to_peer := to_peer s;
     passed := passed s ++ [(rl_blacked s || rl_downgrade s, nb)] |}.
(** ... and go out on the other side. *)
Definition send_raw (to_client : bool) (b : bytes) (s : RelayState) : RelayState :=
  {| rl_tm := rl_tm s; rl_elapsed := rl_elapsed s; rl_total := rl_total s;
     rl_total_s := rl_total_s s; rl_highest_s := rl_highest_s s; rl_downgrade := rl_downgrade s;
     rl_blacked := rl_blacked s; rl_last_recv := rl_last_recv s;
     to_stream := if to_client then to_stream s ++ [b] else to_stream s;
     to_peer := if to_client then to_peer s else to_peer s ++ [b];
     passed := passed s |}.

(** The body of the [select!]. *)
Definition relay_receive (ev : RelayEvent) (s : RelayState) : RelayState + RelayState * RelayStop :=
  let data to_client b (ok : bool) :=
    match b with
    | None => inr (s, Closed)
    | Some b =>
      let s := count_bits b (re_at ev) s in
      if bool_decide (b = []) then inl s
      else if ok then inl (send_raw to_client b s) else inr (s, SendFailed)
    end in
  match re_input ev with
  | FromPeer b ok => data true b ok
  | FromStream b ok => data false b ok
  | TimerTick =>
    if 30 <? as_secs (elapsed (re_at ev) (rl_last_recv s)) then inr (s, TimedOut) else inl s
  end.

(** The accounting once a second. *)
Definition relay_account (id ip : string) (threshold : Z) (now : Instant) (s : RelayState)
    : LM (RelayState + RelayState * RelayStop) :=
  let n := as_millis (elapsed now (rl_tm s)) in
  if negb (1000 <=? n) then mret (inl s) else
  l ← gets (λ l, l);
  if bool_decide (ip ∈ BLOCKLIST l) then mret (inr (s, BlockedIp)) else
  let speed := rl_total_s s / n in
  let highest := Z.max speed (rl_highest_s s) in
  let elapsed := rl_elapsed s + n in
  modify (upd_usage <[id := {| u_elapsed := elapsed; u_total := rl_total s; u_highest := highest; u_speed := speed |}]>);;
  let downgrade := rl_downgrade s
    || ((DOWNGRADE_START_CHECK l <? elapsed) && (elapsed * threshold <? rl_total s)) in
  mret (inl
    {| rl_tm := now; rl_elapsed := elapsed; rl_total := rl_total s; rl_total_s := 0;
       rl_highest_s := highest; rl_downgrade := downgrade; rl_blacked := bool_decide (ip ∈ BLACKLIST l);
       rl_last_recv := rl_last_recv s; to_stream := to_stream s; to_peer := to_peer s;
       passed := passed s |}).

Definition relay_step (id ip : string) (threshold : Z) (ev : RelayEvent) (s : RelayState)
    : LM (RelayState + RelayState * RelayStop) :=
  match relay_receive ev s with
  | inl s => relay_account id ip threshold (re_after ev) s
  | inr r => mret (inr r)
  end.

(** The loop, until it stops or the events end. *)
Fixpoint relay_loop (id ip : string) (threshold : Z) (evs : list RelayEvent) (s : RelayState)
    : LM (RelayState * option RelayStop) :=
  match evs with
  | [] => mret (s, None)
  | ev :: evs =>
    r ← relay_step id ip threshold ev s;
    match r with
    | inl s => relay_loop id ip threshold evs s
    | inr (s', stop) => mret (s', Some stop)
    end
  end.

(** [relay] for the connection from [addr], with the usage record around it. *)
Definition relay_id (addr : SocketAddr) : string := ip_string (ip addr) +:+ ":" +:+ to_string (port addr).
Definition relay (addr : SocketAddr) (now : Instant) (evs : list RelayEvent) : LM (RelayState * option RelayStop) :=
  let rid := relay_id addr in
  modify (upd_usage <[rid := {| u_elapsed := 0; u_total := 0; u_highest := 0; u_speed := 0 |}]>);;
  l ← gets (λ l, l);
  r ← relay_loop rid (ip_string (ip addr)) (downgrade_threshold l) evs (relay_start now);
  modify (upd_usage (delete rid));;
  mret r.
