(* ===== verification/RelaySpec.v ===== *)
(** * What the relay server guarantees

    Pairing: an invariant of every interleaving of connections ([paired_ok]),
    what a request without interference gets, and the two interleavings in
    which a request that has a partner is not paired with it.  Relaying: the
    bytes of either side arrive on the other in order, the totals are theirs,
    a downgraded connection stays downgraded, a silent one is closed.  The
    access lists: which clients they reach. *)
From Stdlib Require Import Ascii.
From S2P Require Import Prelude AddrMangle Text Auth Proto RendezvousCodec Keys Relay.
Local Open Scope Z_scope.

(** ** Pairing *)

(** The stream of the connection was handed over: its task only waits. *)
Definition parked (t : option Task) : Prop :=
  match t with Some (Waiting _ _) | Some Done => True | _ => False end.

(** What relaying pairs have in common, and who is not in two of them. *)
Definition relaying_ok (s : Pairing) (c p : nat) : Prop :=
  c ≠ p ∧ is_Some (asked s !! c) ∧ asked s !! c = asked s !! p ∧ parked (tasks s !! p)
  ∧ (∀ u, PEERS s !! u ≠ Some p) ∧ (∀ c', tasks s !! c' = Some (Relaying p) → c' = c).

Record paired_ok (s : Pairing) : Prop := {
  waiting_peers u p : PEERS s !! u = Some p →
    asked s !! p = Some u ∧ ∃ d, tasks s !! p = Some (Waiting u d);
  relaying_peers c p : tasks s !! c = Some (Relaying p) → relaying_ok s c p;
  unpaired_asked c u : tasks s !! c = Some (Unpaired u) → asked s !! c = Some u;
  waiting_asked c u d : tasks s !! c = Some (Waiting u d) → asked s !! c = Some u;
}.

Lemma paired_ok_start : paired_ok no_connections.
Proof. split; intros *; cbn; by rewrite lookup_empty. Qed.

(** Case on whether two connections or two uuids of a lookup are the same. *)
Ltac lookups :=
  repeat match goal with
    | H : <[_:=_]> _ !! _ = Some _ |- _ => apply lookup_insert_Some in H as [[<- ?]|[? ?]]; simplify_eq
    | H : delete _ _ !! _ = Some _ |- _ => apply lookup_delete_Some in H as [? ?]
    end.

(** A task that is not parked and of no relay may change to one that does not
    relay. *)
Lemma set_task_ok c t s :
  paired_ok s → (∀ u, PEERS s !! u ≠ Some c) →
  (parked (tasks s !! c) → parked (Some t)) → (∀ p, t ≠ Relaying p) →
  (∀ u, t = Unpaired u → asked s !! c = Some u) →
  (∀ u d, t = Waiting u d → asked s !! c = Some u) →
  paired_ok (set_task c t s).
Proof.
  intros [W R U A] Hc Hp Ht Hu Hw. split; cbn [tasks PEERS asked set_task pr_now].
  - intros u p Hup. destruct (W u p Hup) as (? & d & ?). split; [done|]. exists d.
    rewrite lookup_insert_ne; [done|]. intros <-. by apply (Hc u).
  - intros c' p Hrel. lookups; [by destruct (Ht p)|].
    destruct (R c' p H0) as (? & ? & ? & Hpark & ? & Huni).
    split_and!; try done; cbn [tasks PEERS asked set_task].
    + destruct (decide (c = p)) as [->|?]; [rewrite lookup_insert_eq; auto|by rewrite lookup_insert_ne].
    + intros c'' Hc''. lookups; [by destruct (Ht p)|]. auto.
  - intros c' u Hc'. lookups; eauto.
  - intros c' u d Hc'. lookups; eauto.
Qed.

Lemma delete_peer_ok u s : paired_ok s → paired_ok (set_peers (delete u) s).
Proof.
  intros [W R U A]. split; cbn [tasks PEERS asked set_peers]; eauto.
  - intros v p Hv. lookups. eauto.
  - intros c p Hc. destruct (R c p Hc) as (? & ? & ? & ? & Hn & ?).
    split_and!; try done. cbn. intros v Hv. lookups. by eapply Hn.
Qed.

(** Who is not in the table of waiting streams. *)
Lemma not_waiting s c : paired_ok s → (∀ u d, tasks s !! c ≠ Some (Waiting u d)) → ∀ u, PEERS s !! u ≠ Some c.
Proof. intros [W _ _ _] Hc u Hu. destruct (W u c Hu) as (_ & d & Hd). by apply (Hc u d). Qed.

Lemma ask_ok c u s :
  paired_ok s → tasks s !! c = Some Connected →
  paired_ok {| pr_now := pr_now s; tasks := tasks s; PEERS := PEERS s; asked := <[c := u]> (asked s) |}.
Proof.
  intros Hs Hc. pose proof (not_waiting s c Hs) as Hn. destruct Hs as [W R U A].
  split; cbn [tasks PEERS asked].
  - intros v p Hv. destruct (W v p Hv) as (? & d & ?).
    rewrite lookup_insert_ne; [eauto|]. intros <-. congruence.
  - intros c' p Hc'. destruct (R c' p Hc') as (? & ? & ? & Hp & ? & ?).
    assert (c ≠ c') by congruence. assert (c ≠ p) by (intros <-; by rewrite Hc in Hp).
    split_and!; cbn; rewrite ?lookup_insert_ne by done; done.
  - intros c' v Hv. rewrite lookup_insert_ne; [eauto|]. congruence.
  - intros c' v d Hv. rewrite lookup_insert_ne; [eauto|]. congruence.
Qed.

(** The partner of a new pair is the stream that waited under its uuid. *)
Lemma pair_ok c p u s :
  paired_ok s → tasks s !! c = Some Connected → asked s !! c = Some u → PEERS s !! u = Some p →
  paired_ok (set_peers (delete u) (set_task c (Relaying p) s)).
Proof.
  intros [W R U A] Hc Ha Hu. destruct (W u p Hu) as (Hap & dp & Hp).
  assert (Hcp : c ≠ p) by congruence.
  assert (Hnone : ∀ c', tasks s !! c' ≠ Some (Relaying p)).
  { intros c' Hc'. destruct (R c' p Hc') as (_ & _ & _ & _ & Hn & _). by apply (Hn u). }
  split; cbn [tasks PEERS asked set_task set_peers].
  - intros v q Hv. lookups. destruct (W v q) as (? & d & ?); [done|]. split; [done|]. exists d.
    rewrite lookup_insert_ne; [done|]. congruence.
  - intros c' q Hc'. lookups.
    + split_and!; cbn; [done|by rewrite Ha|by rewrite Ha, Hap|by rewrite lookup_insert_ne, Hp| |].
      * intros v Hv. lookups. destruct (W v q) as [Hq _]; [done|]. congruence.
      * intros c'' Hc''. lookups; [done|]. by destruct (Hnone c'').
    + destruct (R c' q) as (? & ? & ? & Hq & Hn & Huni); [done|]. split_and!; cbn; try done.
      * rewrite lookup_insert_ne; [done|]. intros <-. by rewrite Hc in Hq.
      * intros v Hv. lookups. by apply (Hn v).
      * intros c'' Hc''. lookups; [|auto]. by destruct (Hnone c').
  - intros c' v Hv. lookups. eauto.
  - intros c' v d Hv. lookups. eauto.
Qed.

(** The waiting stream a task inserts is its own. *)
Lemma insert_ok c u s d :
  paired_ok s → tasks s !! c = Some (Unpaired u) →
  paired_ok (set_peers <[u := c]> (set_task c (Waiting u d) s)).
Proof.
  intros Hs Hc. pose proof (unpaired_asked s Hs c u Hc) as Ha.
  assert (H' : paired_ok (set_task c (Waiting u d) s)).
  { apply set_task_ok; try done.
    - apply not_waiting; [done|]. congruence.
    - intros v d' [= <- _]. done. }
  destruct H' as [W R U A]. split; eauto; cbn [tasks PEERS asked set_task set_peers] in *.
  - intros v p Hv. lookups; [|eauto]. rewrite lookup_insert_eq. eauto.
  - intros c' p Hc'. destruct (R c' p Hc') as (? & ? & ? & Hp & Hn & ?).
    split_and!; try done. cbn. intros v Hv. lookups; [|by apply (Hn v)].
    (* a relay with this task as its partner: it would be parked already *)
    destruct Hs as [_ R' _ _]. destruct (R' c' p) as (_ & _ & _ & Hpk & _).
    { done. }
    by rewrite Hc in Hpk.
Qed.

Lemma pair_step_ok e s s' : paired_ok s → pair_step e s = Some s' → paired_ok s'.
Proof.
  intros Hs Hstep.
  assert (Hdone : ∀ c, (∀ u d, tasks s !! c ≠ Some (Waiting u d)) → paired_ok (set_task c Done s)).
  { intros c Hc. apply set_task_ok; try done. by apply not_waiting. }
  destruct e as [c|c uuid|c|c|c|d]; cbn in Hstep.
  - destruct (tasks s !! c) eqn:E; simplify_eq. apply set_task_ok; try done; [|by rewrite E].
    apply not_waiting; [done|]. congruence.
  - destruct (tasks s !! c) as [[]|] eqn:E; try done. destruct uuid as [u|]; simplify_eq.
    + pose proof (ask_ok c u s Hs E) as Ha. destruct (PEERS s !! u) as [p|] eqn:Ep; simplify_eq.
      * refine (pair_ok c p u _ Ha E _ Ep). apply lookup_insert_eq.
      * refine (set_task_ok c _ _ Ha _ _ _ _ _); try done; cbn [asked tasks].
        -- apply (not_waiting _ c Ha). cbn. congruence.
        -- by rewrite E.
        -- intros v [= <-]. apply lookup_insert_eq.
    + apply Hdone. congruence.
  - destruct (tasks s !! c) as [[]|] eqn:E; simplify_eq. by apply insert_ok.
  - destruct (tasks s !! c) as [[]|] eqn:E; try done. destruct (deadline <=? pr_now s); simplify_eq.
    assert (Ha := waiting_asked s Hs _ _ _ E).
    change (set_peers _ (set_task _ _ _)) with (set_task c Done (set_peers (delete uuid) s)).
    apply set_task_ok; try done; [by apply delete_peer_ok|].
    cbn. intros u Hu. lookups. destruct (waiting_peers s Hs u c) as [? _]; [done|]. congruence.
  - destruct (tasks s !! c) as [[]|] eqn:E; simplify_eq. apply Hdone. congruence.
  - simplify_eq. destruct Hs. by split.
Qed.

(** C1. In any interleaving of connections, a stream is relayed only to one that
    asked for the same uuid, is another connection, no longer waits for anyone
    and is relayed to no third. *)
Theorem pairing_safe s c p :
  pair_reachable s → tasks s !! c = Some (Relaying p) →
  c ≠ p ∧ is_Some (asked s !! c) ∧ asked s !! c = asked s !! p
  ∧ (∀ u, PEERS s !! u ≠ Some p ∧ PEERS s !! u ≠ Some c)
  ∧ (∀ c', tasks s !! c' = Some (Relaying p) → c' = c)
  ∧ (∀ c', tasks s !! c' ≠ Some (Relaying c)) ∧ (∀ p', tasks s !! p ≠ Some (Relaying p')).
Proof.
  intros Hr Hc. assert (Hs : paired_ok s) by (clear Hc; induction Hr; eauto using paired_ok_start, pair_step_ok).
  destruct (relaying_peers s Hs c p Hc) as (? & ? & ? & Hp & ? & ?). split_and!; try done.
  - intros u. split; [done|]. apply not_waiting; [done|]. congruence.
  - intros c' Hc'. destruct (relaying_peers s Hs c' c Hc') as (_ & _ & _ & Hpk & _). by rewrite Hc in Hpk.
  - intros p' Hp'. by rewrite Hp' in Hp.
Qed.

(** Two streams that ask for the same uuid, one after the other within thirty
    seconds. *)
Definition two_requests (c c' : nat) (u : string) (d : Z) : list PairEvent :=
  [Connect c; Message c (Some u); Insert c; Tick d; Connect c'; Message c' (Some u)].
(** The same, both looking before the first has been inserted. *)
Definition racing_requests (c c' : nat) (u : string) : list PairEvent :=
  [Connect c; Connect c'; Message c (Some u); Message c' (Some u); Insert c; Insert c'].

Lemma pair_run_reachable es : ∀ s s', pair_reachable s → pair_run es s = Some s' → pair_reachable s'.
Proof.
  induction es as [|e es IH]; cbn; intros s s' Hs Hrun; simplify_eq/=; [done|].
  destruct (pair_step e s) as [s1|] eqn:E; [|done]. eapply IH; [|exact Hrun]. by eapply reach_step.
Qed.

Lemma pairing_safe_witness :
  let s := default no_connections (pair_run (two_requests 1 2 "u" 5) no_connections) in
  tasks s !! 2%nat = Some (Relaying 1) ∧ (2 ≠ 1)%nat ∧ asked s !! 2%nat = asked s !! 1%nat.
Proof.
  intros s. assert (Hrun : pair_run (two_requests 1 2 "u" 5) no_connections = Some s) by reflexivity.
  assert (Hc : tasks s !! 2%nat = Some (Relaying 1)) by (vm_compute; reflexivity).
  destruct (pairing_safe s 2 1 (pair_run_reachable _ _ _ reach_start Hrun) Hc) as (? & _ & ? & _).
  done.
Defined.

(** Run the steps of a list of events. *)
Ltac run_pairs :=
  repeat (cbn; first
    [ rewrite lookup_insert_eq | rewrite lookup_delete_eq | rewrite lookup_insert_ne by done
    | match goal with H : _ !! _ = _ |- _ => rewrite H end ]).



(** A task past its lookup is never paired by itself again. *)
Definition looked_up (t : option Task) : Prop :=
  match t with Some (Unpaired _) | Some (Waiting _ _) | Some Done => True | _ => False end.

Lemma looked_up_step e s s' c : looked_up (tasks s !! c) → pair_step e s = Some s' → looked_up (tasks s' !! c).
Proof.
  intros Hc. destruct e as [x|x uuid|x|x|x|d]; cbn; intros Hstep; [..|by simplify_eq].
  all: destruct (tasks s !! x) as [[]|] eqn:E; case_all; try done.
  all: destruct (decide (x = c)) as [<-|?]; rewrite ?lookup_insert_eq, ?lookup_insert_ne by done; try done.
  all: by rewrite E in Hc.
Qed.

Lemma looked_up_run es c : ∀ s s', looked_up (tasks s !! c) → pair_run es s = Some s' → looked_up (tasks s' !! c).
Proof.
  induction es as [|e es IH]; cbn; intros s s' Hs Hrun; simplify_eq/=; [done|].
  destruct (pair_step e s) as [s1|] eqn:E; [|done]. eapply IH; [|exact Hrun]. by eapply looked_up_step.
Qed.

(** The lookup of a uuid and the insertion of the stream under it are two
    separate critical sections: when both partners look before either has
    inserted, the second insertion overwrites the first, and in no
    continuation are the two relayed to each other. *)
Theorem racing_requests_never_paired c c' u s es s' s'' :
  c ≠ c' → tasks s !! c = None → tasks s !! c' = None → PEERS s !! u = None →
  pair_run (racing_requests c c' u) s = Some s' → pair_run es s' = Some s'' →
  PEERS s' !! u = Some c' ∧ tasks s' !! c = Some (Waiting u (pr_now s + secs 30))
  ∧ tasks s'' !! c ≠ Some (Relaying c') ∧ tasks s'' !! c' ≠ Some (Relaying c).
Proof.
  intros Hne Hc Hc' Hu Hrun Hes.
  assert (Hs' : ∃ s1, pair_run (racing_requests c c' u) s = Some s1 ∧ PEERS s1 !! u = Some c'
    ∧ tasks s1 !! c = Some (Waiting u (pr_now s + secs 30))
    ∧ tasks s1 !! c' = Some (Waiting u (pr_now s + secs 30))).
  { eexists. split_and!; [run_pairs; reflexivity|by run_pairs..]. }
  destruct Hs' as (? & ? & ? & H1 & H2). simplify_eq. split_and!; try done.
  - intros Hn. assert (H' := looked_up_run es c s' s''). rewrite H1, Hn in H'. by apply H'.
  - intros Hn. assert (H' := looked_up_run es c' s' s''). rewrite H2, Hn in H'. by apply H'.
Qed.

Lemma racing_requests_never_paired_witness :
  let s := default no_connections (pair_run (racing_requests 1 2 "u") no_connections) in
  PEERS s !! "u"%string = Some 2%nat ∧ tasks s !! 2%nat ≠ Some (Relaying 1).
Proof.
  intros s. assert (Hrun : pair_run (racing_requests 1 2 "u") no_connections = Some s) by reflexivity.
  destruct (racing_requests_never_paired 1 2 "u" no_connections [] s s) as (? & _ & _ & ?); done.
Defined.

(** The thirty seconds of a stream end with the removal of whatever waits
    under its uuid: a later stream with the same uuid loses its place before
    its own time is over, and its partner does not find it. *)
Theorem expiry_drops_later_waiter c c' c'' u d d' s :
  tasks s !! c = Some (Waiting u d) → d <= pr_now s →
  PEERS s !! u = Some c' → tasks s !! c' = Some (Waiting u d') → pr_now s < d' →
  tasks s !! c'' = Some Connected →
  ∃ s', pair_run [Expire c; Message c'' (Some u)] s = Some s'
    ∧ tasks s' !! c' = Some (Waiting u d') ∧ pr_now s' < d' ∧ tasks s' !! c'' = Some (Unpaired u).
Proof.
  intros Hc Hd Hu Hc' Hd' Hc''.
  assert (c ≠ c') by (intros <-; rewrite Hc in Hc'; simplify_eq; lia).
  assert (c ≠ c'' ∧ c' ≠ c'') as [??] by (split; congruence).
  eexists. split_and!.
  - cbn. rewrite Hc. destruct (Z.leb_spec d (pr_now s)); [|lia]. by run_pairs.
  - by run_pairs.
  - done.
  - by run_pairs.
Qed.

(** The first pair is over at once, a second stream waits under the same uuid. *)
Definition reused_uuid : list PairEvent :=
  two_requests 1 2 "u" (secs 1) ++
  [RelayEnd 2; Tick (secs 20); Connect 3; Message 3 (Some "u"%string); Insert 3; Tick (secs 9); Connect 4].

Lemma expiry_drops_later_waiter_witness :
  let s := default no_connections (pair_run reused_uuid no_connections) in
  pair_reachable s ∧ ∃ s', pair_run [Expire 1; Message 4 (Some "u"%string)] s = Some s'
    ∧ tasks s' !! 4%nat = Some (Unpaired "u").
Proof.
  intros s. assert (Hrun : pair_run reused_uuid no_connections = Some s) by (vm_compute; reflexivity).
  split; [exact (pair_run_reachable _ _ _ reach_start Hrun)|].
  destruct (expiry_drops_later_waiter 1 3 4 "u" (secs 30) (secs 51) s) as (s' & H1 & _ & _ & H2);
    [vm_compute; reflexivity || discriminate ..|]. exists s'. exact (conj H1 H2).
Defined.

(** ** Relaying *)

(** What an event brings from one side, for the other. *)
Definition chunk (to_client : bool) (ev : RelayEvent) : list bytes :=
  match re_input ev, to_client with
  | FromPeer (Some b) _, true | FromStream (Some b) _, false => if bool_decide (b = []) then [] else [b]
  | _, _ => []
  end.
Definition chunks (to_client : bool) (evs : list RelayEvent) : list bytes := evs ≫= chunk to_client.
Definition bits (l : list bytes) : Z := foldr (λ b n, zlen b * 8 + n) 0 l.

Lemma bits_app l1 l2 : bits (l1 ++ l2) = bits l1 + bits l2.
Proof. unfold bits. induction l1 as [|b l1 IH]; cbn; [done|]. rewrite IH. lia. Qed.

Lemma chunks_app side es1 es2 : chunks side (es1 ++ es2) = chunks side es1 ++ chunks side es2.
Proof. apply bind_app. Qed.

(** [s'] is [s] after the events [evs] went through. *)
Record went_through (evs : list RelayEvent) (s s' : RelayState) : Prop := {
  gone_to_stream : to_stream s' = to_stream s ++ chunks true evs;
  gone_to_peer : to_peer s' = to_peer s ++ chunks false evs;
  gone_bits : rl_total s' = rl_total s + bits (chunks true evs) + bits (chunks false evs);
}.

Lemma went_nothing s : went_through [] s s.
Proof. split; cbn; rewrite ?app_nil_r; lia || done. Qed.

Lemma went_app es1 es2 s s1 s' : went_through es1 s s1 → went_through es2 s1 s' → went_through (es1 ++ es2) s s'.
Proof.
  intros [A1 B1 C1] [A2 B2 C2]. split; rewrite !chunks_app.
  - by rewrite A2, A1, app_assoc.
  - by rewrite B2, B1, app_assoc.
  - rewrite !bits_app. lia.
Qed.

(** An event lets its bytes through, or stops the relay with nothing sent. *)
Lemma relay_receive_ok ev s :
  match relay_receive ev s with
  | inl s' => went_through [ev] s s'
  | inr (s', stop) => to_stream s' = to_stream s ∧ to_peer s' = to_peer s
      ∧ (stop ≠ SendFailed → s' = s) ∧ stop ≠ BlockedIp
  end.
Proof.
  destruct ev as [[[b|] ok | [b|] ok | ] at_ after]; unfold relay_receive; cbn -[Z.ltb as_secs]; try done.
  1, 2: destruct (decide (b = [])) as [->|Hb]; [|destruct ok];
    rewrite ?(bool_decide_eq_false_2 (b = [])), ?bool_decide_eq_true_2 by done; try done.
  all: try destruct (30 <? _); try done.
  all: split; unfold chunks, chunk; cbn; rewrite ?(bool_decide_eq_false_2 (b = [])) by done; cbn;
    rewrite ?app_nil_r; try done; unfold zlen; cbn; lia.
Qed.

(** The accounting leaves the bytes alone. *)
Lemma relay_account_ok rid ip th now s l :
  match (relay_account rid ip th now s l).1 with
  | inl s' => went_through [] s s' ∧ passed s' = passed s ∧ (rl_downgrade s = true → rl_downgrade s' = true)
      ∧ rl_last_recv s' = rl_last_recv s
  | inr (s', stop) => s' = s ∧ stop = BlockedIp
  end.
Proof.
  unfold relay_account. run_monad. repeat case_match; simplify_eq/=; try done.
  all: split_and!; try done; first [by intros -> | by split; cbn; rewrite ?app_nil_r; done || lia].
Qed.

(** C3. Relaying is faithful: what has been sent to either side is, in order and
    without loss or repetition, what came in from the other side up to some
    event, all of it while the relay runs; the counted bits are those of the
    bytes sent, unless a send failed. *)
Theorem relay_delivers rid ip th evs : ∀ s l s' stop l',
  relay_loop rid ip th evs s l = ((s', stop), l') →
  ∃ n, (stop = None → n = length evs)
    ∧ to_stream s' = to_stream s ++ chunks true (take n evs)
    ∧ to_peer s' = to_peer s ++ chunks false (take n evs)
    ∧ (stop ≠ Some SendFailed →
       rl_total s' = rl_total s + bits (chunks true (take n evs)) + bits (chunks false (take n evs))).
Proof.
  induction evs as [|ev evs IH]; intros s l s' stop l'; cbn [relay_loop].
  { run_monad. intros [= -> <- _]. exists O. cbn. rewrite !app_nil_r. split_and!; done || lia. }
  rewrite bind_run. unfold relay_step. pose proof (relay_receive_ok ev s) as Hrec.
  destruct (relay_receive ev s) as [s1|[s1 st]].
  - pose proof (relay_account_ok rid ip th (re_after ev) s1 l) as Hacc.
    destruct (relay_account rid ip th (re_after ev) s1 l) as [[s2|[s2 st]] l2]; cbn in Hacc.
    + intros Hl. destruct (IH _ _ _ _ _ Hl) as (n & Hn & A & B & C). destruct Hacc as (Hacc & _).
      destruct (went_app _ _ _ _ _ Hrec Hacc) as [A1 B1 C1]. cbn [app] in A1, B1, C1.
      exists (S n). cbn [take length]. change (ev :: take n evs) with ([ev] ++ take n evs). rewrite !chunks_app, !bits_app.
      rewrite A, B, A1, B1, <- !app_assoc. split_and!; [auto|done..|].
      intros Hs. rewrite (C Hs). lia.
    + destruct Hacc as [-> ->]. run_monad. intros [= -> <- _]. destruct Hrec as [A B C].
      exists 1%nat. rewrite A, B, C. cbn [take]. done.
  - run_monad. intros [= -> <- _]. destruct Hrec as (A & B & C & _). exists O. cbn.
    rewrite !app_nil_r. split_and!; try done. intros Hs. rewrite C; [lia|]. congruence.
Qed.

(** A connection that was downgraded stays so: all its bytes go through the
    limiter of the listed clients from then on. *)
Theorem downgrade_latched rid ip th evs : ∀ s l s' stop l',
  rl_downgrade s = true → relay_loop rid ip th evs s l = ((s', stop), l') →
  rl_downgrade s' = true ∧ ∃ more, passed s' = passed s ++ more ∧ Forall (λ x, x.1 = true) more.
Proof.
  assert (Hrec : ∀ ev s, rl_downgrade s = true →
    match relay_receive ev s with inl s1 | inr (s1, _) =>
      rl_downgrade s1 = true ∧ ∃ more, passed s1 = passed s ++ more ∧ Forall (λ x, x.1 = true) more end).
  { intros [[[b|] ok|[b|] ok|] at_ after] s Hd; unfold relay_receive; cbn -[Z.ltb as_secs].
    all: repeat case_match; simplify_eq/=; (split; [done|]).
    all: first [exists []; rewrite app_nil_r; done
               |eexists; split; [reflexivity|]; rewrite Hd, orb_true_r; auto]. }
  induction evs as [|ev evs IH]; intros s l s' stop l' Hd; cbn [relay_loop].
  { run_monad. intros [= -> <- _]. split; [done|]. exists []. rewrite app_nil_r. done. }
  rewrite bind_run. unfold relay_step. specialize (Hrec ev s Hd).
  destruct (relay_receive ev s) as [s1|[s1 st]].
  - destruct Hrec as (Hd1 & more & Hp & Hf).
    pose proof (relay_account_ok rid ip th (re_after ev) s1 l) as Hacc.
    destruct (relay_account rid ip th (re_after ev) s1 l) as [[s2|[s2 st]] l2]; cbn in Hacc.
    + destruct Hacc as (_ & Hp2 & Hd2 & _). intros Hl.
      destruct (IH _ _ _ _ _ (Hd2 Hd1) Hl) as (? & more' & Hp' & Hf'). split; [done|].
      exists (more ++ more'). rewrite Hp', Hp2, Hp, app_assoc. split; [done|]. by apply Forall_app.
    + destruct Hacc as [-> ->]. run_monad. intros [= -> <- _]. eauto.
  - run_monad. intros [= -> <- _]. done.
Qed.

Definition chat : list RelayEvent :=
  [mkRelayEvent (FromPeer (Some [1; 2]) true) 10 10; mkRelayEvent (FromStream (Some [3]) true) 20 20;
   mkRelayEvent (FromPeer (Some []) true) 30 30; mkRelayEvent TimerTick 40 40;
   mkRelayEvent (FromPeer (Some [4]) true) 50 (secs 2); mkRelayEvent (FromStream None true) (secs 2) (secs 2)].

Lemma relay_delivers_witness :
  let r := relay_loop "id" "10.0.0.7" 1000 chat (relay_start 0) default_lists in
  r.1.2 = Some Closed ∧ to_stream r.1.1 = [[1; 2]; [4]] ∧ rl_total r.1.1 = 32
  ∧ ∃ n, to_stream r.1.1 = chunks true (take n chat).
Proof.
  intros r. split_and!; [vm_compute; reflexivity ..|].
  destruct (relay_delivers "id" "10.0.0.7" 1000 chat (relay_start 0) default_lists r.1.1 r.1.2 r.2)
    as (n & _ & Hn & _); [vm_compute; reflexivity|]. by exists n.
Defined.

Lemma downgrade_latched_witness :
  let s := {| rl_tm := 0; rl_elapsed := 0; rl_total := 0; rl_total_s := 0; rl_highest_s := 0;
     rl_downgrade := true; rl_blacked := false; rl_last_recv := 0; to_stream := []; to_peer := []; passed := [] |} in
  let r := relay_loop "id" "10.0.0.7" 1000 chat s default_lists in
  passed r.1.1 = [(true, 16); (true, 8); (true, 0); (true, 8)] ∧ rl_downgrade r.1.1 = true.
Proof.
  intros s r. split; [vm_compute; reflexivity|].
  destruct (downgrade_latched "id" "10.0.0.7" 1000 chat s default_lists r.1.1 r.1.2 r.2) as [H _];
    [reflexivity|vm_compute; reflexivity|exact H].
Defined.

(** ** The access lists *)

(** The address a client with an IPv4 address has on a socket that serves both
    families. *)
Definition mapped (i : IpAddr) : IpAddr :=
  match i with
  | IpV4 a b c d => IpV6 (replicate 10 0 ++ [255; 255; a; b; c; d])
  | IpV6 _ => i
  end.

Lemma try_into_v4_mapped a b c d p : try_into_v4 (mkAddr (mapped (IpV4 a b c d)) p) = mkAddr (IpV4 a b c d) p.
Proof.
  unfold try_into_v4, mapped, is_loopback. cbn [ip port]. rewrite bool_decide_eq_false_2 by (cbn; congruence).
  reflexivity.
Qed.

(** No colon occurs in the text of an IPv4 address. *)
Fixpoint has_colon (s : string) : bool :=
  match s with EmptyString => false | String c s => Ascii.eqb c ":"%char || has_colon s end.
Lemma has_colon_app a b : has_colon (a +:+ b) = has_colon a || has_colon b.
Proof. induction a as [|c a IH]; [done|]. cbn [String.append has_colon]. by rewrite <- orb_assoc, <- IH. Qed.

Lemma relay_loop_unlisted rid ip th evs : ∀ s l,
  ip ∉ BLOCKLIST l → ip ∉ BLACKLIST l → rl_blacked s = false →
  (relay_loop rid ip th evs s l).1.2 ≠ Some BlockedIp
  ∧ rl_blacked (relay_loop rid ip th evs s l).1.1 = false.
Proof.
  induction evs as [|ev evs IH]; intros s l Hl Hb Hs; cbn [relay_loop]; [done|].
  rewrite bind_run. unfold relay_step. pose proof (relay_receive_ok ev s) as Hrec.
  assert (Hrb : match relay_receive ev s with inl s1 | inr (s1, _) => rl_blacked s1 = false end).
  { destruct ev as [[[b|] ok|[b|] ok|] at_ after]; unfold relay_receive; cbn -[Z.ltb as_secs].
    all: repeat case_match; by simplify_eq/=. }
  destruct (relay_receive ev s) as [s1|[s1 st]]; [|run_monad; split; [cbn; destruct Hrec as (_ & _ & _ & ?); congruence|done]].
  unfold relay_account. run_monad.
  destruct (negb _); [by apply IH|]. rewrite (bool_decide_eq_false_2 (ip ∈ BLOCKLIST l)) by done.
  apply IH; cbn; try done. by rewrite bool_decide_eq_false_2.
Qed.

Lemma has_colon_octet a : u8_ok a → has_colon (to_string a) = false.
Proof.
  intros Ha. assert (H : forallb (λ a, negb (has_colon (to_string a))) (seqZ 0 256) = true) by (vm_compute; reflexivity).
  rewrite forallb_forall in H. apply negb_true_iff, (H a), list_elem_of_In, elem_of_seqZ. unfold u8_ok in Ha. lia.
Qed.

Lemma has_colon_v4 a b c d : bytes_ok [a; b; c; d] → has_colon (ip_string (IpV4 a b c d)) = false.
Proof.
  intros H. repeat apply Forall_cons in H as [? H]. cbn. unfold ipv4_string, join.
  by rewrite !has_colon_app, !has_colon_octet.
Qed.

Lemma has_colon_mapped a b c d : has_colon (ip_string (mapped (IpV4 a b c d))) = true.
Proof. reflexivity. Qed.

(** Both lists name IPv4 clients by their dotted address, and on the socket
    of [listen_any], which serves both families, such a client has the mapped
    address [::ffff:a.b.c.d].  A blocked client is refused when it connects,
    where [try_into_v4] is applied; in [relay], where it is not, no entry in
    dotted form is ever found: a relay of such a client is neither ended by the
    blocklist nor slowed by the blacklist. *)
Theorem lists_miss_mapped_clients a b c d port now evs l :
  bytes_ok [a; b; c; d] →
  (∀ x, x ∈ BLOCKLIST l ∪ BLACKLIST l → has_colon x = false) →
  let addr := mkAddr (mapped (IpV4 a b c d)) port in
  (ip_string (IpV4 a b c d) ∈ BLOCKLIST l → a ≠ 127 → handle_connection addr false l = Blocked)
  ∧ (relay addr now evs l).1.2 ≠ Some BlockedIp ∧ rl_blacked (relay addr now evs l).1.1 = false.
Proof.
  intros Hok Hl addr. split.
  - intros Hin Ha. unfold handle_connection, addr. rewrite try_into_v4_mapped. cbn [ip is_loopback negb andb].
    destruct (Z.eqb_spec a 127); [done|]. by rewrite bool_decide_eq_true_2.
  - assert (Hne : ∀ x, x ∈ BLOCKLIST l ∪ BLACKLIST l → x ≠ ip_string (ip addr)).
    { intros x Hx ->. specialize (Hl _ Hx). 
      pose proof (has_colon_mapped a b c d) as Hm. cbn [ip addr] in Hl. congruence. }
    unfold relay. run_monad.
    edestruct (relay_loop_unlisted (relay_id addr) (ip_string (ip addr)) (downgrade_threshold l) evs (relay_start now)
      (upd_usage <[relay_id addr := {| u_elapsed := 0; u_total := 0; u_highest := 0; u_speed := 0 |}]> l)) as [H1 H2];
      [cbn; intros Hx; eapply Hne; [|reflexivity]; set_solver..|done|].
    change (downgrade_threshold (upd_usage _ l)) with (downgrade_threshold l).
    by destruct (relay_loop _ _ _ _ _ _) as [[s stop] l'].
Qed.

Lemma lists_miss_mapped_clients_witness :
  let l := upd_blacklist (λ _, {["10.0.0.7"%string]}) (upd_blocklist (λ _, {["10.0.0.7"%string]}) default_lists) in
  let addr := mkAddr (mapped (IpV4 10 0 0 7)) 4000 in
  handle_connection addr false l = Blocked ∧ rl_blacked (relay addr 0 chat l).1.1 = false.
Proof.
  intros l addr. destruct (lists_miss_mapped_clients 10 0 0 7 4000 0 chat l) as (H1 & _ & H2);
    [repeat (apply Forall_cons; split; [unfold u8_ok; lia|]); by apply Forall_nil| |].
  - intros x Hx. assert (x = "10.0.0.7"%string) as -> by (cbn in Hx; set_solver). reflexivity.
  - split; [apply H1; [vm_compute; reflexivity|lia]|exact H2].
Defined.
