(* ===== verification/Peer.v ===== *)
(** * The state of the rendezvous server and the peer map: [src/peer.rs]

    [World] is what the tasks of hbbs share: the peers in memory, the database,
    the statics of peer.rs and rendezvous_server.rs, the half-open TCP
    connections, the queue of the UDP task and the datagrams and frames sent so
    far.  A handler runs atomically over it; [Instant::now()] is one instant for
    the whole handler.  An [Arc<RwLock<Peer>>] is the id under which the map
    holds it: entries of the map are never removed or replaced once present. *)
From S2P Require Import Prelude AddrMangle Text Auth Proto RendezvousCodec Database.
Local Open Scope Z_scope.

Definition IP_CHANGE_DUR : Z := 180.
Definition IP_CHANGE_DUR_X2 : Z := IP_CHANGE_DUR * 2.
Definition DAY_SECONDS : Z := 3600 * 24.
Definition IP_BLOCK_DUR : Z := 60.

Record OnlineConn : Type := mkOnlineConn {
  oc_peer_id : string;
  oc_ip : string;
  oc_user_id : option Z;
  oc_connected_at : Z;
  oc_last_seen : Instant;
}.

(** [Peer]; its [info] holds the ip alone. *)
Record Peer : Type := mkPeer {
  socket_addr : SocketAddr;
  last_reg_time : Instant;
  guid : bytes;
  uuid : bytes;
  pk : bytes;
  p_user_id : option Z;
  p_device_id : option Z;
  info_ip : string;
  disabled : bool;
  reg_pk : Z * Instant;
  protocol : Protocol;
}.

(** The counters of [IP_BLOCKER] for one address: requests and their last
    time, ids and their last time. *)
Record IpBlock : Type := mkIpBlock {
  ib_count : Z;
  ib_count_tm : Instant;
  ib_ids : gset string;
  ib_ids_tm : Instant;
}.

Record PunchReqEntry : Type := mkPunchReq {
  pq_tm : Instant;
  pq_from_ip : string;
  pq_to_ip : string;
  pq_to_id : string;
}.

(** The write half of a connection: its kind and a number for it. *)
Inductive Sink : Type := TcpStream (conn : Z) | Ws (conn : Z).

Inductive Data : Type :=
| Msg (m : RendezvousMessage) (to : SocketAddr) (p : Protocol)
| RelayServers0 (s : string)
| RelayServers (l : list string).

(** What leaves the server: a datagram, or a frame on a connection. *)
Inductive Sent : Type :=
| SentUdp (b : bytes) (to : SocketAddr)
| SentTcp (b : bytes) (to : Sink).

#[export] Instance Sink_eq_dec : EqDecision Sink.
Proof. solve_decision. Defined.
#[export] Instance Data_eq_dec : EqDecision Data.
Proof. solve_decision. Defined.
#[export] Instance Sent_eq_dec : EqDecision Sent.
Proof. solve_decision. Defined.

Record World : Type := mkWorld {
  now : Instant;  (* the monotonic clock *)
  pmap : gmap string Peer;  (* PeerMap.map *)
  wdb : Db;  (* PeerMap.db *)
  online_peers : gmap string OnlineConn;  (* ONLINE_PEERS *)
  ip_blocker : gmap string IpBlock;  (* IP_BLOCKER *)
  ip_changes : gmap string (Instant * gmap string Z);  (* IP_CHANGES *)
  punch_reqs : list PunchReqEntry;  (* PUNCH_REQS *)
  rotation : Z;  (* ROTATION_RELAY_SERVER *)
  always_use_relay : bool;  (* ALWAYS_USE_RELAY *)
  tcp_punch : gmap SocketAddr (Sink * Protocol);  (* RendezvousServer.tcp_punch *)
  queue : list Data;  (* the channel of RendezvousServer.tx *)
  sent : list Sent;  (* what was sent, in order *)
}.

Definition upd_now (f : Instant → Instant) (w : World) : World :=
  {| now := f (now w); pmap := pmap w; wdb := wdb w; online_peers := online_peers w;
     ip_blocker := ip_blocker w; ip_changes := ip_changes w; punch_reqs := punch_reqs w; rotation := rotation w;
     always_use_relay := always_use_relay w; tcp_punch := tcp_punch w; queue := queue w; sent := sent w |}.
Definition upd_pmap (f : gmap string Peer → gmap string Peer) (w : World) : World :=
  {| now := now w; pmap := f (pmap w); wdb := wdb w; online_peers := online_peers w;
     ip_blocker := ip_blocker w; ip_changes := ip_changes w; punch_reqs := punch_reqs w; rotation := rotation w;
     always_use_relay := always_use_relay w; tcp_punch := tcp_punch w; queue := queue w; sent := sent w |}.
Definition upd_wdb (f : Db → Db) (w : World) : World :=
  {| now := now w; pmap := pmap w; wdb := f (wdb w); online_peers := online_peers w;
     ip_blocker := ip_blocker w; ip_changes := ip_changes w; punch_reqs := punch_reqs w; rotation := rotation w;
     always_use_relay := always_use_relay w; tcp_punch := tcp_punch w; queue := queue w; sent := sent w |}.
Definition upd_online_peers (f : gmap string OnlineConn → gmap string OnlineConn) (w : World) : World :=
  {| now := now w; pmap := pmap w; wdb := wdb w; online_peers := f (online_peers w);
     ip_blocker := ip_blocker w; ip_changes := ip_changes w; punch_reqs := punch_reqs w; rotation := rotation w;
     always_use_relay := always_use_relay w; tcp_punch := tcp_punch w; queue := queue w; sent := sent w |}.
Definition upd_ip_blocker (f : gmap string IpBlock → gmap string IpBlock) (w : World) : World :=
  {| now := now w; pmap := pmap w; wdb := wdb w; online_peers := online_peers w;
     ip_blocker := f (ip_blocker w); ip_changes := ip_changes w; punch_reqs := punch_reqs w; rotation := rotation w;
     always_use_relay := always_use_relay w; tcp_punch := tcp_punch w; queue := queue w; sent := sent w |}.
Definition upd_ip_changes (f : gmap string (Instant * gmap string Z) → gmap string (Instant * gmap string Z)) (w : World) : World :=
  {| now := now w; pmap := pmap w; wdb := wdb w; online_peers := online_peers w;
     ip_blocker := ip_blocker w; ip_changes := f (ip_changes w); punch_reqs := punch_reqs w; rotation := rotation w;
     always_use_relay := always_use_relay w; tcp_punch := tcp_punch w; queue := queue w; sent := sent w |}.
Definition upd_punch_reqs (f : list PunchReqEntry → list PunchReqEntry) (w : World) : World :=
  {| now := now w; pmap := pmap w; wdb := wdb w; online_peers := online_peers w;
     ip_blocker := ip_blocker w; ip_changes := ip_changes w; punch_reqs := f (punch_reqs w); rotation := rotation w;
     always_use_relay := always_use_relay w; tcp_punch := tcp_punch w; queue := queue w; sent := sent w |}.
Definition upd_rotation (f : Z → Z) (w : World) : World :=
  {| now := now w; pmap := pmap w; wdb := wdb w; online_peers := online_peers w;
     ip_blocker := ip_blocker w; ip_changes := ip_changes w; punch_reqs := punch_reqs w; rotation := f (rotation w);
     always_use_relay := always_use_relay w; tcp_punch := tcp_punch w; queue := queue w; sent := sent w |}.
Definition upd_always_use_relay (f : bool → bool) (w : World) : World :=
  {| now := now w; pmap := pmap w; wdb := wdb w; online_peers := online_peers w;
     ip_blocker := ip_blocker w; ip_changes := ip_changes w; punch_reqs := punch_reqs w; rotation := rotation w;
     always_use_relay := f (always_use_relay w); tcp_punch := tcp_punch w; queue := queue w; sent := sent w |}.
Definition upd_tcp_punch (f : gmap SocketAddr (Sink * Protocol) → gmap SocketAddr (Sink * Protocol)) (w : World) : World :=
  {| now := now w; pmap := pmap w; wdb := wdb w; online_peers := online_peers w;
     ip_blocker := ip_blocker w; ip_changes := ip_changes w; punch_reqs := punch_reqs w; rotation := rotation w;
     always_use_relay := always_use_relay w; tcp_punch := f (tcp_punch w); queue := queue w; sent := sent w |}.
Definition upd_queue (f : list Data → list Data) (w : World) : World :=
  {| now := now w; pmap := pmap w; wdb := wdb w; online_peers := online_peers w;
     ip_blocker := ip_blocker w; ip_changes := ip_changes w; punch_reqs := punch_reqs w; rotation := rotation w;
     always_use_relay := always_use_relay w; tcp_punch := tcp_punch w; queue := f (queue w); sent := sent w |}.
Definition upd_sent (f : list Sent → list Sent) (w : World) : World :=
  {| now := now w; pmap := pmap w; wdb := wdb w; online_peers := online_peers w;
     ip_blocker := ip_blocker w; ip_changes := ip_changes w; punch_reqs := punch_reqs w; rotation := rotation w;
     always_use_relay := always_use_relay w; tcp_punch := tcp_punch w; queue := queue w; sent := f (sent w) |}.


Abbreviation WM A := (M World A).

(** A method of the database, run on the database of the world. *)
Definition db {A} (m : DbM A) : WM (result DbError A) := λ w,
  let '(r, d) := m (wdb w) in (r, upd_wdb (λ _, d) w).

Lemma keeps_db {A} (I : World → Prop) (m : DbM A) :
  (∀ d w, I w → I (upd_wdb (λ _, d) w)) → keeps I (db m).
Proof. intros HI w Hw. unfold db. destruct (m (wdb w)) as [r d]. by apply HI. Qed.

(** Down to the single writes of a handler. *)
Ltac keeps_world :=
  repeat lazymatch goal with
    | |- keeps _ (db _) => apply keeps_db
    | |- keeps _ (modify _) => apply keeps_modify
    | _ => first [keeps_basic | keeps_unfold]
    end.

(** [get_expired_time]: an hour ago ([checked_sub] on a 64-bit count of
    seconds). *)
Definition instant_min : Instant := secs (- 2 ^ 63).
Definition get_expired_time (now : Instant) : Instant :=
  let t := now - secs 3600 in if t <? instant_min then now else t.

Definition unspecified : SocketAddr := mkAddr (IpV4 0 0 0 0) 0.

(** [Peer::default()] *)
Definition default_peer (now : Instant) : Peer :=
  {| socket_addr := unspecified; last_reg_time := get_expired_time now; guid := []; uuid := [];
     pk := []; p_user_id := None; p_device_id := None; info_ip := ""; disabled := false;
     reg_pk := (0, get_expired_time now); protocol := Proto3 |}.

(** Fields written under the write lock. *)
Definition set_guid (g : bytes) (p : Peer) : Peer :=
  {| socket_addr := socket_addr p; last_reg_time := last_reg_time p; guid := g; uuid := uuid p;
     pk := pk p; p_user_id := p_user_id p; p_device_id := p_device_id p; info_ip := info_ip p;
     disabled := disabled p; reg_pk := reg_pk p; protocol := protocol p |}.
Definition set_binding (user device : Z) (p : Peer) : Peer :=
  {| socket_addr := socket_addr p; last_reg_time := last_reg_time p; guid := guid p; uuid := uuid p;
     pk := pk p; p_user_id := Some user; p_device_id := Some device; info_ip := info_ip p;
     disabled := disabled p; reg_pk := reg_pk p; protocol := protocol p |}.
Definition set_registration (addr : SocketAddr) (u k : bytes) (now : Instant) (ip : string) (p : Peer) : Peer :=
  {| socket_addr := addr; last_reg_time := now; guid := guid p; uuid := u; pk := k;
     p_user_id := p_user_id p; p_device_id := p_device_id p; info_ip := ip;
     disabled := disabled p; reg_pk := reg_pk p; protocol := protocol p |}.
Definition set_reg_pk (r : Z * Instant) (p : Peer) : Peer :=
  {| socket_addr := socket_addr p; last_reg_time := last_reg_time p; guid := guid p; uuid := uuid p;
     pk := pk p; p_user_id := p_user_id p; p_device_id := p_device_id p; info_ip := info_ip p;
     disabled := disabled p; reg_pk := r; protocol := protocol p |}.
Definition set_protocol (q : Protocol) (p : Peer) : Peer :=
  {| socket_addr := socket_addr p; last_reg_time := last_reg_time p; guid := guid p; uuid := uuid p;
     pk := pk p; p_user_id := p_user_id p; p_device_id := p_device_id p; info_ip := info_ip p;
     disabled := disabled p; reg_pk := reg_pk p; protocol := q |}.
Definition set_seen (addr : SocketAddr) (now : Instant) (q : Protocol) (p : Peer) : Peer :=
  {| socket_addr := addr; last_reg_time := now; guid := guid p; uuid := uuid p; pk := pk p;
     p_user_id := p_user_id p; p_device_id := p_device_id p; info_ip := info_ip p;
     disabled := disabled p; reg_pk := reg_pk p; protocol := q |}.

Module PeerMap.
Section peer_map.
Context `{Bcrypt} `{Uuid} `{Serde} `{SqlTime} `{Jwt} `{Env}.

(** [peer.read().await] and [peer.write().await] of the peer with the given
    id. *)
Definition read_peer (id : string) : WM Peer :=
  gets (λ w, default (default_peer (now w)) (pmap w !! id)).
Definition write_peer (id : string) (f : Peer → Peer) : WM unit := modify (upd_pmap (alter f id)).

Definition get_in_memory (id : string) : WM (option Peer) := gets (λ w, pmap w !! id).
Definition is_in_memory (id : string) : WM bool := gets (λ w, bool_decide (is_Some (pmap w !! id))).

(** A peer restored from its row. *)
Definition peer_of_row (now : Instant) (v : DbPeer) : Peer :=
  {| socket_addr := unspecified; last_reg_time := get_expired_time now; guid := dp_guid v;
     uuid := dp_uuid v; pk := dp_pk v; p_user_id := bound_user_id v;
     p_device_id := bound_device_row_id v; info_ip := default "" (json_as_peer_info (dp_info v));
     disabled := false; reg_pk := (0, get_expired_time now); protocol := Proto3 |}.

Definition get (id : string) : WM (option Peer) :=
  p ← get_in_memory id;
  match p with
  | Some p => mret (Some p)
  | None =>
    r ← db (get_peer id);
    match r with
    | Ok (Some v) =>
      t ← gets now;
      let peer := peer_of_row t v in
      modify (upd_pmap <[id := peer]>);;
      mret (Some peer)
    | _ => mret None
    end
  end.

Definition get_or (id : string) : WM Peer :=
  p ← get id;
  match p with
  | Some p => mret p
  | None =>
    w ← get_in_memory id;
    match w with
    | Some p => mret p
    | None =>
      t ← gets now;
      modify (upd_pmap <[id := default_peer t]>);;
      mret (default_peer t)
    end
  end.

(** The protocol of the first peer in the iteration of the map whose address
    is [addr]. *)
Definition protocol_for_addr (addr : SocketAddr) : WM Protocol :=
  gets (λ w,
    default Proto3 (protocol <$>
      find_row (λ p, bool_decide (try_into_v4 (socket_addr p) = try_into_v4 addr)) (pmap w))).

Definition non_blank (token : string) : option string :=
  let x := trim token in if bool_decide (x = ""%string) then None else Some x.

(** [sub] of the claims as a user id. *)
Definition sub_user_id (claims : gmap string Json) : option Z :=
  match claims !! "sub"%string with
  | Some (JNum n) => n
  | Some (JStr s) => parse_i64 (trim s)
  | _ => None
  end.

Definition default_jwt_secret : string := "your-secret-key-change-in-production".

Definition validate_peer_token (token id : string) : WM (option (Z * Z)) :=
  let secret := default default_jwt_secret (env_var "JWT_SECRET") in
  t ← gets (λ w, clock (wdb w));
  match jwt_decode secret t token with
  | None => mret None
  | Some claims =>
    match sub_user_id claims with
    | None => mret None
    | Some user =>
      r ← db (resolve_peer_device_binding user (claims !! "udid"%string ≫= json_i64) id);
      mret (match r with Ok dev => Some (user, dev) | Err _ => None end)
    end
  end.

Definition require_jwt : bool :=
  match env_var "REQUIRE_PEER_JWT" with
  | Some v => bool_decide (v = "1"%string) || bool_decide (to_lowercase v = "true"%string)
  | None => false
  end.

Definition touch_online (id ip : string) (user : option Z) (now : Instant) (utc : Z)
    (m : gmap string OnlineConn) : gmap string OnlineConn :=
  let connected := match m !! id with Some e => oc_connected_at e | None => utc end in
  let pid := match m !! id with Some e => oc_peer_id e | None => id end in
  <[id := {| oc_peer_id := pid; oc_ip := ip; oc_user_id := user; oc_connected_at := connected;
             oc_last_seen := now |}]> m.

(** The record kept of a registration: an insertion for a peer without a guid,
    an update of its row otherwise. *)
Definition save_peer (id : string) (u k : bytes) (info : string) : WM bool :=
  p ← read_peer id;
  match guid p with
  | [] =>
    r ← db (insert_peer_with_user id u k info (p_user_id p) (p_device_id p));
    match r with
    | Err _ => mret false
    | Ok g => write_peer id (set_guid g);; mret true
    end
  | g =>
    r ← db (update_pk_with_user g id k info (p_user_id p) (p_device_id p));
    mret (is_ok r)
  end.

(** The registration proper: the peer in memory, its row, its entry in the
    online table. *)
Definition commit_pk (id : string) (addr : SocketAddr) (u k : bytes) (ip : string) : WM RegisterResult :=
  t ← gets now;
  write_peer id (set_registration addr u k t ip);;
  saved ← save_peer id u k (json_of_peer_info ip);
  if negb saved then mret SERVER_ERROR else
  p ← read_peer id;
  utc ← gets (λ w, clock (wdb w));
  modify (upd_online_peers (touch_online id (info_ip p) (p_user_id p) t utc));;
  mret OK.

Definition update_pk (id : string) (addr : SocketAddr) (u k : bytes) (ip : string)
    (user_token : option string) : WM RegisterResult :=
  match user_token ≫= non_blank with
  | None => if require_jwt then mret SERVER_ERROR else commit_pk id addr u k ip
  | Some token =>
    auth ← validate_peer_token token id;
    match auth with
    | None => mret SERVER_ERROR
    | Some (user, dev) =>
      write_peer id (set_binding user dev);;
      commit_pk id addr u k ip
    end
  end.

End peer_map.
End PeerMap.
