(* ===== verification/Rendezvous.v ===== *)
(** * The rendezvous server hbbs: [src/rendezvous_server.rs], [src/common.rs]

    One definition per method of [RendezvousServer], over the [World] of Peer.v
    and the fields of the server object ([Srv]).  A connection's task works on a
    clone of that object, so it is an argument; the methods of the UDP task that
    replace its fields return the new object.  Sends succeed; what is sent is
    the list [sent], and a frame on a connection is the payload handed to its
    codec.  Names resolve, and relay servers answer, as the environment of the
    run says. *)
From Stdlib Require Import Ascii.
From S2P Require Import Prelude AddrMangle Text Auth Proto RendezvousCodec Database Peer.
Local Open Scope Z_scope.

Definition REG_TIMEOUT : Z := 30000.
Definition PUNCH_REQ_DEDUPE_SEC : Z := 60.
Definition RELAY_PORT : Z := 21117.

(** [Inner]; the network mask is given by its [contains]. *)
Record Inner : Type := mkInner {
  serial : Z;
  version : string;
  software_url : string;
  mask : option (IpAddr → bool);
  local_ip : string;
  sk : option bytes;
}.

(** The fields of [RendezvousServer] that a clone copies. *)
Record Srv : Type := mkSrv {
  relay_servers : list string;
  relay_servers0 : list string;
  rendezvous_servers : list string;
  inner : Inner;
}.

(** Name resolution, Ed25519 signatures ([sign::sign]) and the protobuf bytes
    of an [IdPk]. *)
Class ServerLib : Type := {
  to_socket_addrs : string → bool;
  sign : bytes → bytes → bytes;
  idpk_bytes : string → bytes → bytes;
  rfc3339_secs : Z → string;
}.

Definition REG_PK_WINDOW : Z := 6.
Definition quote (s : string) : string := String (chr 34) (s +:+ String (chr 34) "").
Definition newline : string := String (chr 10) "".
Definition show_secs (now t : Instant) : string := to_string (as_secs (elapsed now t)).

Section rendezvous.
Context `{Bcrypt} `{Uuid} `{Serde} `{SqlTime} `{Jwt} `{Env} `{WireLib} `{ServerLib}.

(** ** Sending *)

Definition emit (x : Sent) : WM unit := modify (upd_sent (λ l, l ++ [x])).
Definition send_udp (m : RendezvousMessage) (p : Protocol) (addr : SocketAddr) : WM unit :=
  match wire_bytes m p with Some b => emit (SentUdp b addr) | None => mret tt end.
Definition send_to_sink (sink : option Sink) (m : RendezvousMessage) (p : Protocol) : WM unit :=
  match sink with
  | Some s => match wire_bytes m p with Some b => emit (SentTcp b s) | None => mret tt end
  | None => mret tt
  end.
Definition tx_send (d : Data) : WM unit := modify (upd_queue (λ q, q ++ [d])).

(** [send_to_tcp_sync], and [send_to_tcp], which does the same in a task of its
    own. *)
Definition send_to_tcp_sync (m : RendezvousMessage) (addr : SocketAddr) : WM unit :=
  removed ← gets (λ w, tcp_punch w !! try_into_v4 addr);
  modify (upd_tcp_punch (delete (try_into_v4 addr)));;
  match removed with
  | Some (s, p) => send_to_sink (Some s) m p
  | None => mret tt
  end.
Definition send_to_tcp : RendezvousMessage → SocketAddr → WM unit := send_to_tcp_sync.

(** [AddrMangle::encode] at the time of the call. *)
Definition mangled (addr : SocketAddr) : WM bytes :=
  gets (λ w, AddrMangle.encode (clock (wdb w) * 1000000) addr).

(** ** Servers and keys *)

Definition test_if_valid_server (host : string) : bool :=
  if contains ":" host then to_socket_addrs host else to_socket_addrs (host +:+ ":0").

Definition get_servers (s : string) : list string :=
  filter (λ x, x ≠ ""%string ∧ test_if_valid_server x = true) (split_on ","%char s).

Definition parse_relay_servers (rs : Srv) (s : string) : Srv :=
  let l := get_servers s in
  {| relay_servers := l; relay_servers0 := l; rendezvous_servers := rendezvous_servers rs;
     inner := inner rs |}.

(** The rotation counter is an [AtomicUsize]. *)
Definition get_relay_server (rs : Srv) : WM string :=
  match relay_servers rs with
  | [] => mret ""%string
  | [r] => mret r
  | l =>
    i ← gets rotation;
    modify (upd_rotation (λ r, wrap_u 64 (r + 1)));;
    mret (nth (Z.to_nat (i mod zlen l)) l ""%string)
  end.

Definition is_lan (rs : Srv) (addr : SocketAddr) : bool :=
  match mask (inner rs) with
  | Some network =>
    match ip addr with
    | IpV4 _ _ _ _ => network (ip addr)
    | IpV6 o => match to_ipv4 o with Some v4 => network v4 | None => false end
    end
  | None => false
  end.

Definition get_pk (rs : Srv) (ver id : string) : WM bytes :=
  match sk (inner rs) with
  | Some sk =>
    if bool_decide (ver = ""%string) then mret [] else
    p ← PeerMap.get id;
    mret (match p with Some peer => sign sk (idpk_bytes id (pk peer)) | None => [] end)
  | None => mret []
  end.

(** ** The limiter of new registrations *)

(** One request for [id] against the counters of its address: whether it is
    let through, and the counters after it. *)
Definition count_request (now : Instant) (id : string) (old : option IpBlock) : bool * IpBlock :=
  match old with
  | None => (true, {| ib_count := 0; ib_count_tm := now; ib_ids := ∅; ib_ids_tm := now |})
  | Some b =>
    let expired := IP_BLOCK_DUR <? as_secs (elapsed now (ib_count_tm b)) in
    if negb expired && (30 <? ib_count b) then (false, b) else
    let count := (if expired then 0 else ib_count b) + 1 in
    let is_new := bool_decide (id ∉ ib_ids b) in
    let day_over := DAY_SECONDS <? as_secs (elapsed now (ib_ids_tm b)) in
    if negb day_over && (300 <? Z.of_nat (size (ib_ids b)))
    then (negb is_new, {| ib_count := count; ib_count_tm := now; ib_ids := ib_ids b;
                          ib_ids_tm := ib_ids_tm b |})
    else
      let ids := if day_over then ∅ else ib_ids b in
      let ids := if is_new then {[id]} ∪ ids else ids in
      (true, {| ib_count := count; ib_count_tm := now; ib_ids := ids; ib_ids_tm := now |})
  end.

Definition check_ip_blocker (ip id : string) : WM bool :=
  t ← gets now;
  old ← gets (λ w, ip_blocker w !! ip);
  let '(free, b) := count_request t id old in
  modify (upd_ip_blocker <[ip := b]>);;
  mret free.

(** ** Registration *)

Definition send_rk_res (addr : SocketAddr) (r : RegisterResult) (p : Protocol) : WM unit :=
  send_udp (mk (U_RegisterPkResponse {| rkr_result := RegisterResult_value r; rkr_keep_alive := 0 |})) p addr.

(** [update_addr] *)
Definition update_addr (id : string) (addr : SocketAddr) (p : Protocol) : WM unit :=
  old ← PeerMap.get_in_memory id;
  request_pk ← match old with
    | Some old =>
      let ip_change := (if negb (port (socket_addr old) =? 0)
                        then negb (bool_decide (ip addr = ip (socket_addr old)))
                        else negb (bool_decide (ip_string (ip addr) = info_ip old)))
                       && negb (is_loopback (ip addr)) in
      let request_pk := bool_decide (pk old = []) || ip_change in
      if negb request_pk then
        t ← gets now;
        PeerMap.write_peer id (set_seen addr t p);;
        mret request_pk
      else mret request_pk
    | None => mret true
    end;
  send_udp (mk (U_RegisterPeerResponse {| rpr_request_pk := request_pk |})) p addr.

Definition config_update (rs : Srv) : ConfigUpdate :=
  {| cu_serial := serial (inner rs); cu_rendezvous_servers := rendezvous_servers rs |}.

Definition udp_register_peer (rs : Srv) (rp : RegisterPeer) (addr : SocketAddr) (p : Protocol) : WM unit :=
  if bool_decide (rp_id rp = ""%string) then mret tt else
  update_addr (rp_id rp) addr p;;
  if rp_serial rp <? serial (inner rs)
  then send_udp (mk (U_ConfigureUpdate (config_update rs))) p addr
  else mret tt.

(** What the peer in memory says of a registration: refused, or whether the
    registration changes it and whether its ip changed. *)
Inductive PkCheck : Type :=
| PkMismatch
| PkChange (changed ip_changed : bool).

Definition check_registration (peer : Peer) (rk : RegisterPk) (ip : string) : PkCheck :=
  if bool_decide (uuid peer = []) then PkChange true false
  else if bool_decide (uuid peer = rk_uuid rk) then
    if negb (bool_decide (info_ip peer = ip)) && negb (bool_decide (pk peer = rk_pk rk))
    then PkMismatch
    else let ip_changed := negb (bool_decide (info_ip peer = ip)) in
         PkChange (negb (bool_decide (uuid peer = rk_uuid rk))
                   || negb (bool_decide (pk peer = rk_pk rk)) || ip_changed) ip_changed
  else PkMismatch.

(** The counter [reg_pk] of a peer: the new value, or [None] when the
    registration comes too soon. *)
Definition next_reg_pk (now : Instant) (r : Z * Instant) : option (Z * Instant) :=
  if REG_PK_WINDOW <? as_secs (elapsed now r.2) then Some (1, now)
  else if 2 <? r.1 then None
  else Some (r.1 + 1, now).

Definition record_ip_change (id ip : string) (now : Instant)
    (m : gmap string (Instant * gmap string Z)) : gmap string (Instant * gmap string Z) :=
  match m !! id with
  | Some (tm, ips) =>
    if IP_CHANGE_DUR <? as_secs (elapsed now tm) then <[id := (now, {[ip := 1]})]> m
    else match ips !! ip with
         | Some v => <[id := (tm, <[ip := v + 1]> ips)]> m
         | None => <[id := (tm, <[ip := 1]> ips)]> m
         end
  | None => <[id := (now, {[ip := 1]})]> m
  end.

Definition udp_register_pk (rk : RegisterPk) (addr : SocketAddr) (p : Protocol) : WM unit :=
  if bool_decide (rk_uuid rk = []) || bool_decide (rk_pk rk = []) then mret tt else
  let id := rk_id rk in
  let user_token := PeerMap.non_blank (rk_user_token rk) in
  let ip := ip_string (ip addr) in
  if Z.of_nat (String.length id) <? 6 then send_rk_res addr UUID_MISMATCH p else
  free ← check_ip_blocker ip id;
  if negb free then send_rk_res addr TOO_FREQUENT p else
  peer ← PeerMap.get_or id;
  match check_registration peer rk ip with
  | PkMismatch => send_rk_res addr UUID_MISMATCH p
  | PkChange changed ip_changed =>
    t ← gets now;
    match next_reg_pk t (reg_pk peer) with
    | None => send_rk_res addr TOO_FREQUENT p
    | Some r =>
      PeerMap.write_peer id (set_reg_pk r);;
      (if ip_changed then modify (upd_ip_changes (record_ip_change id ip t)) else mret tt);;
      (if changed
       then PeerMap.update_pk id addr (rk_uuid rk) (rk_pk rk) ip user_token;; mret tt
       else mret tt);;
      PeerMap.write_peer id (set_protocol p);;
      send_rk_res addr OK p
    end
  end.

(** ** Punching holes *)

Definition failure_response (f : PunchFailure) : RendezvousMessage :=
  mk (U_PunchHoleResponse
    {| phr_socket_addr := []; phr_pk := []; phr_failure := PunchFailure_value f;
       phr_relay_server := ""; phr_union := None; phr_other_failure := ""; phr_feedback := 0;
       phr_is_udp := false; phr_upnp_port := 0; phr_socket_addr_v6 := [] |}).

(** The list of recent requests: of its last thirty, the latest of the same
    pair decides whether the request is a repetition. *)
Definition is_repeated (now : Instant) (from_ip to_id : string) (l : list PunchReqEntry) : bool :=
  match List.find (λ e, bool_decide (pq_from_ip e = from_ip) && bool_decide (pq_to_id e = to_id))
          (take 30 (reverse l)) with
  | Some e => as_secs (elapsed now (pq_tm e)) <? PUNCH_REQ_DEDUPE_SEC
  | None => false
  end.

(** Milliseconds since the last registration, [as i32]. *)
Definition reg_age (now : Instant) (p : Peer) : Z := as_i32 (as_millis (elapsed now (last_reg_time p))).

Definition record_punch (from_ip to_ip to_id : string) (now : Instant) (l : list PunchReqEntry) : list PunchReqEntry :=
  if is_repeated now from_ip to_id l then l
  else l ++ [{| pq_tm := now; pq_from_ip := from_ip; pq_to_ip := to_ip; pq_to_id := to_id |}].

Definition handle_punch_hole_request (rs : Srv) (addr : SocketAddr) (ph : PunchHoleRequest)
    (key : string) (ws : bool) : WM (RendezvousMessage * option SocketAddr * Protocol) :=
  if negb (bool_decide (key = ""%string)) && negb (bool_decide (phq_licence_key ph = key))
  then mret (failure_response LICENSE_MISMATCH, None, Proto3) else
  let id := phq_id ph in
  p ← PeerMap.get id;
  match p with
  | None => mret (failure_response ID_NOT_EXIST, None, Proto3)
  | Some peer =>
    t ← gets now;
    if REG_TIMEOUT <=? reg_age t peer then mret (failure_response OFFLINE, None, Proto3) else
    let peer_addr := socket_addr peer in
    modify (upd_punch_reqs (record_punch (ip_string (ip (try_into_v4 addr)))
              (ip_string (ip (try_into_v4 peer_addr))) id t));;
    let peer_is_lan := is_lan rs peer_addr in
    let lan := is_lan rs addr in
    relay_server ← get_relay_server rs;
    always ← gets always_use_relay;
    let forced := always || xorb peer_is_lan lan in
    let relay_server := if forced && peer_is_lan then local_ip (inner rs) else relay_server in
    let nat_type := if forced then NatType_value SYMMETRIC else phq_nat_type ph in
    let same_intranet := negb ws && ((peer_is_lan && lan) || bool_decide (ip peer_addr = ip addr)) in
    sa ← mangled addr;
    if same_intranet
    then mret (mk (U_FetchLocalAddr {| fla_socket_addr := sa; fla_relay_server := relay_server;
                                       fla_socket_addr_v6 := []; fla_control_permissions := None |}),
               Some peer_addr, protocol peer)
    else mret (mk (U_PunchHole {| ph_socket_addr := sa; ph_relay_server := relay_server;
                                  ph_nat_type := nat_type; ph_udp_port := 0; ph_force_relay := false;
                                  ph_upnp_port := phq_upnp_port ph; ph_socket_addr_v6 := [];
                                  ph_control_permissions := None |}),
               Some peer_addr, protocol peer)
  end.

Definition handle_tcp_punch_hole_request (rs : Srv) (addr : SocketAddr) (ph : PunchHoleRequest)
    (key : string) (ws : bool) : WM unit :=
  r ← handle_punch_hole_request rs addr ph key ws;
  let '(m, to, target_proto) := r in
  match to with
  | Some a => tx_send (Msg m a target_proto)
  | None => send_to_tcp_sync m addr
  end.

Definition handle_udp_punch_hole_request (rs : Srv) (addr : SocketAddr) (ph : PunchHoleRequest)
    (key : string) (p : Protocol) : WM unit :=
  r ← handle_punch_hole_request rs addr ph key false;
  let '(m, to, target_proto) := r in
  tx_send (Msg m (default addr to) (match to with Some _ => target_proto | None => p end)).

(** The answer of the punched peer, to the peer that asked: over UDP when it
    came over UDP, else on the connection of the asker. *)
Definition answer (udp : bool) (m : RendezvousMessage) (addr_a : SocketAddr) : WM unit :=
  reply_proto ← PeerMap.protocol_for_addr addr_a;
  if udp then send_udp m reply_proto addr_a else send_to_tcp m addr_a.

Definition handle_hole_sent (rs : Srv) (phs : PunchHoleSent) (addr : SocketAddr) (udp : bool) : WM unit :=
  let addr_a := AddrMangle.decode (phs_socket_addr phs) in
  sa ← mangled addr;
  key ← get_pk rs (phs_version phs) (phs_id phs);
  answer udp (mk (U_PunchHoleResponse
    {| phr_socket_addr := sa; phr_pk := key; phr_failure := 0;
       phr_relay_server := phs_relay_server phs;
       phr_union := match NatType_enum (phs_nat_type phs) with
                    | Some t => Some (PhrNatType (NatType_value t)) | None => None end;
       phr_other_failure := ""; phr_feedback := 0; phr_is_udp := false;
       phr_upnp_port := phs_upnp_port phs; phr_socket_addr_v6 := [] |})) addr_a.

Definition handle_local_addr (rs : Srv) (la : LocalAddr) (addr : SocketAddr) (udp : bool) : WM unit :=
  let addr_a := AddrMangle.decode (la_socket_addr la) in
  key ← get_pk rs (la_version la) (la_id la);
  answer udp (mk (U_PunchHoleResponse
    {| phr_socket_addr := la_local_addr la; phr_pk := key; phr_failure := 0;
       phr_relay_server := la_relay_server la; phr_union := Some (PhrIsLocal true);
       phr_other_failure := ""; phr_feedback := 0; phr_is_udp := false; phr_upnp_port := 0;
       phr_socket_addr_v6 := [] |})) addr_a.

(** ** Who is online *)

(** The bytes of the answer after the first [i] ids. *)
Fixpoint set_states (now : Instant) (map : gmap string Peer) (i : nat) (peers : list string) (states : bytes) : bytes :=
  match peers with
  | [] => states
  | id :: peers =>
    let states :=
      match map !! id with
      | Some peer =>
        if reg_age now peer <? REG_TIMEOUT
        then alter (λ b, Z.lor b (Z.shiftl 1 (7 - Z.of_nat (i mod 8)))) (i / 8)%nat states
        else states
      | None => states
      end in
    set_states now map (S i) peers states
  end.

Definition online_states (now : Instant) (map : gmap string Peer) (peers : list string) : bytes :=
  set_states now map 0 peers (replicate ((length peers + 7) / 8) 0).

(** The answer goes out in protobuf on the connection. *)
Definition send_stream (conn : Sink) (m : RendezvousMessage) : WM unit :=
  match proto3_write m with Some b => emit (SentTcp b conn) | None => mret tt end.

Definition handle_online_request (conn : Sink) (peers : list string) : WM unit :=
  states ← gets (λ w, online_states (now w) (pmap w) peers);
  send_stream conn (mk (U_OnlineResponse {| or_states := states |})).

(** ** Datagrams *)

(** A configuration update, from a loopback address only. *)
Definition configure (rs : Srv) (cu : ConfigUpdate) (addr : SocketAddr) : Srv :=
  if is_loopback (ip (try_into_v4 addr)) && (serial (inner rs) <? cu_serial cu) then
    {| relay_servers := relay_servers rs; relay_servers0 := relay_servers0 rs;
       rendezvous_servers :=
         filter (λ x, x ≠ ""%string ∧ test_if_valid_server x = true) (cu_rendezvous_servers cu);
       inner := {| serial := cu_serial cu; version := version (inner rs);
                   software_url := software_url (inner rs); mask := mask (inner rs);
                   local_ip := local_ip (inner rs); sk := sk (inner rs) |} |}
  else rs.

Definition nat_response (addr : SocketAddr) (cu : option ConfigUpdate) : RendezvousMessage :=
  mk (U_TestNatResponse {| tnr_port := port addr; tnr_cu := cu |}).

Definition handle_udp (rs : Srv) (b : bytes) (addr : SocketAddr) (key : string) : WM Srv :=
  let p := detect b in
  match m ← parse b; union m with
  | Some (U_RegisterPeer rp) => udp_register_peer rs rp addr p;; mret rs
  | Some (U_RegisterPk rk) => udp_register_pk rk addr p;; mret rs
  | Some (U_PunchHoleRequest ph) => handle_udp_punch_hole_request rs addr ph key p;; mret rs
  | Some (U_PunchHoleSent phs) => handle_hole_sent rs phs addr true;; mret rs
  | Some (U_LocalAddr la) => handle_local_addr rs la addr true;; mret rs
  | Some (U_ConfigureUpdate cu) => mret (configure rs cu addr)
  | Some (U_TestNatRequest _) => send_udp (nat_response addr None) p addr;; mret rs
  | Some (U_SoftwareUpdate su) =>
    (if negb (bool_decide (version (inner rs) = ""%string))
        && negb (bool_decide (su_url su = version (inner rs)))
     then send_udp (mk (U_SoftwareUpdate {| su_url := software_url (inner rs) |})) p addr
     else mret tt);;
    mret rs
  | _ => mret rs
  end.

(** ** Connections *)

(** [sink.take()] into [tcp_punch]: later attempts find no sink. *)
Definition park (sink : option Sink) (addr : SocketAddr) (p : Protocol) : WM unit :=
  match sink with
  | Some s => modify (upd_tcp_punch <[try_into_v4 addr := (s, p)]>)
  | None => mret tt
  end.

Definition tcp_request_relay (rf : RequestRelay) (addr : SocketAddr) : WM unit :=
  p ← PeerMap.get_in_memory (rr_id rf);
  match p with
  | Some peer =>
    sa ← mangled addr;
    tx_send (Msg (mk (U_RequestRelay
      {| rr_id := rr_id rf; rr_uuid := rr_uuid rf; rr_socket_addr := sa;
         rr_relay_server := rr_relay_server rf; rr_secure := rr_secure rf;
         rr_licence_key := rr_licence_key rf; rr_conn_type := rr_conn_type rf;
         rr_token := rr_token rf; rr_control_permissions := rr_control_permissions rf |}))
      (socket_addr peer) (protocol peer))
  | None => mret tt
  end.

Definition tcp_relay_response (rs : Srv) (rr : RelayResponse) (addr : SocketAddr) : WM unit :=
  let addr_b := AddrMangle.decode (rlr_socket_addr rr) in
  u ← match rlr_union rr with
      | Some (RlrId id) =>
        if bool_decide (id = ""%string) then mret (rlr_union rr)
        else key ← get_pk rs (rlr_version rr) id; mret (Some (RlrPk key))
      | other => mret other
      end;
  relay ← (if bool_decide (rlr_relay_server rr = ""%string) then mret ""%string
           else if is_lan rs addr_b then mret (local_ip (inner rs))
           else if bool_decide (rlr_relay_server rr = local_ip (inner rs)) then get_relay_server rs
           else mret (rlr_relay_server rr));
  send_to_tcp_sync (mk (U_RelayResponse
    {| rlr_socket_addr := []; rlr_uuid := rlr_uuid rr; rlr_relay_server := relay; rlr_union := u;
       rlr_refuse_reason := rlr_refuse_reason rr; rlr_version := rlr_version rr;
       rlr_feedback := rlr_feedback rr; rlr_socket_addr_v6 := rlr_socket_addr_v6 rr;
       rlr_upnp_port := rlr_upnp_port rr |})) addr_b.

Definition tcp_register_pk (rk : RegisterPk) (sink : option Sink) (addr : SocketAddr) (p : Protocol) : WM unit :=
  let user_token := PeerMap.non_blank (rk_user_token rk) in
  PeerMap.get_or (rk_id rk);;
  res ← PeerMap.update_pk (rk_id rk) addr (rk_uuid rk) (rk_pk rk) (ip_string (ip addr)) user_token;
  PeerMap.write_peer (rk_id rk) (set_protocol p);;
  send_to_sink sink (mk (U_RegisterPkResponse
    {| rkr_result := RegisterResult_value res; rkr_keep_alive := 0 |})) p.

Definition tcp_register_peer (rp : RegisterPeer) (sink : option Sink) (addr : SocketAddr) (p : Protocol) : WM unit :=
  old ← PeerMap.get_in_memory (rp_id rp);
  request_pk ← match old with
    | Some peer =>
      let ip_change := negb (port (socket_addr peer) =? 0)
                       && negb (bool_decide (ip addr = ip (socket_addr peer)))
                       && negb (is_loopback (ip addr)) in
      let request_pk := bool_decide (pk peer = []) || ip_change in
      if negb request_pk then
        t ← gets now;
        PeerMap.write_peer (rp_id rp) (set_seen addr t p);;
        mret request_pk
      else mret request_pk
    | None => mret true
    end;
  send_to_sink sink (mk (U_RegisterPeerResponse {| rpr_request_pk := request_pk |})) p.

(** [handle_tcp]: whether the connection goes on, and the sink it still has. *)
Definition handle_tcp (rs : Srv) (b : bytes) (sink : option Sink) (addr : SocketAddr) (key : string)
    (ws : bool) : WM (bool * option Sink) :=
  let p := detect b in
  match parse b with
  | None => mret (false, sink)
  | Some m =>
    match union m with
    | Some (U_PunchHoleRequest ph) =>
      park sink addr p;;
      handle_tcp_punch_hole_request rs addr ph key ws;;
      mret (true, None)
    | Some (U_RequestRelay rf) =>
      park sink addr p;;
      tcp_request_relay rf addr;;
      mret (true, None)
    | Some (U_RelayResponse rr) => tcp_relay_response rs rr addr;; mret (false, sink)
    | Some (U_PunchHoleSent phs) => handle_hole_sent rs phs addr false;; mret (false, sink)
    | Some (U_LocalAddr la) => handle_local_addr rs la addr false;; mret (false, sink)
    | Some (U_TestNatRequest tar) =>
      send_to_sink sink (nat_response addr
        (if tnq_serial tar <? serial (inner rs) then Some (config_update rs) else None)) p;;
      mret (false, sink)
    | Some (U_RegisterPk rk) => tcp_register_pk rk sink addr p;; mret (true, sink)
    | Some (U_RegisterPeer rp) =>
      if bool_decide (rp_id rp = ""%string) then mret (false, sink)
      else tcp_register_peer rp sink addr p;; mret (true, sink)
    | _ => mret (false, sink)
    end
  end.

(** [handle_listener_inner]: the frames of a connection until the handler says
    stop or the connection ends or falls silent (the end of the list); [addr]
    is the address after the proxy headers of a WebSocket handshake. *)
Fixpoint tcp_frames (rs : Srv) (frames : list bytes) (sink : option Sink) (addr : SocketAddr)
    (key : string) (ws : bool) : WM (option Sink) :=
  match frames with
  | [] => mret sink
  | b :: frames =>
    r ← handle_tcp rs b sink addr key ws;
    let '(go_on, sink) := r in
    if go_on : bool then tcp_frames rs frames sink addr key ws else mret sink
  end.
Definition handle_listener_inner (rs : Srv) (frames : list bytes) (conn : Sink) (addr : SocketAddr)
    (key : string) (ws : bool) : WM unit :=
  sink ← tcp_frames rs frames (Some conn) addr key ws;
  match sink with
  | None => modify (upd_tcp_punch (delete (try_into_v4 addr)))
  | Some _ => mret tt
  end.

(** ** The console ([check_cmd]) *)

Definition is_cmd (c : string) (names : list string) : bool := bool_decide (c ∈ names).

Definition help_text : string :=
  foldr (λ l acc, l +:+ newline +:+ acc) ""%string
    ["relay-servers(rs) <separated by ,>"; "reload-geo(rg)";
     "ip-blocker(ib) [<ip>|<number>] [-]"; "ip-changes(ic) [<id>|<number>] [-]";
     "punch-requests(pr) [<number>] [-]"; "always-use-relay(aur)";
     "test-geo(tg) <ip1> <ip2>"]%string.

(** The lines [start] to [start + 9] of an iteration; the bound is an [i32]. *)
Definition page {A} (start : Z) (l : list A) : list A :=
  take (Z.to_nat (as_i32 (start + 10) - start)) (drop (Z.to_nat start) l).
Definition lines_of {A} (f : A → string) (l : list A) : string :=
  foldr (λ a acc, f a +:+ newline +:+ acc) ""%string l.

Definition cmd_relay_servers (rs : Srv) (args : list string) : WM string :=
  match args with
  | x :: _ => tx_send (RelayServers0 x);; mret ""%string
  | [] => mret (lines_of id (relay_servers rs))
  end.

Definition block_live (now : Instant) (b : IpBlock) : bool :=
  (as_secs (elapsed now (ib_count_tm b)) <=? IP_BLOCK_DUR)
  || (as_secs (elapsed now (ib_ids_tm b)) <=? DAY_SECONDS).
Definition show_block (now : Instant) (b : IpBlock) : string :=
  to_string (ib_count b) +:+ "/" +:+ show_secs now (ib_count_tm b) +:+ "s "
  +:+ to_string (Z.of_nat (size (ib_ids b))) +:+ "/" +:+ show_secs now (ib_ids_tm b) +:+ "s".

Definition cmd_ip_blocker (args : list string) : WM string :=
  t ← gets now;
  modify (upd_ip_blocker (delete_where (λ b, negb (block_live t b))));;
  m ← gets ip_blocker;
  let res := to_string (Z.of_nat (size m)) +:+ newline in
  let start := match args with x :: _ => default (-1) (parse_i32 x) | [] => -1 end in
  let listing := lines_of (λ kb, kb.1 +:+ ": " +:+ show_block t kb.2) in
  match args with
  | [] => mret (res +:+ listing (page 0 (map_to_list m)))
  | ip :: rest =>
    if start <? 0 then
      (if bool_decide (head rest = Some "-"%string) then modify (upd_ip_blocker (delete ip)) else mret tt);;
      mret (res +:+ match m !! ip with Some b => show_block t b +:+ newline | None => "" end)
    else mret (res +:+ listing (page start (map_to_list m)))
  end.

Definition changes_live (now : Instant) (v : Instant * gmap string Z) : bool :=
  (as_secs (elapsed now v.1) <? IP_CHANGE_DUR_X2) && Nat.ltb 1 (size v.2).
Definition show_changes (now : Instant) (v : Instant * gmap string Z) : string :=
  show_secs now v.1 +:+ "s {"
  +:+ join ", " ((λ kv, quote kv.1 +:+ ": " +:+ to_string kv.2) <$> map_to_list v.2) +:+ "}".

Definition cmd_ip_changes (args : list string) : WM string :=
  t ← gets now;
  modify (upd_ip_changes (delete_where (λ v, negb (changes_live t v))));;
  m ← gets ip_changes;
  let res := to_string (Z.of_nat (size m)) +:+ newline in
  let start := match args with x :: _ => default (-1) (parse_i32 x) | [] => -1 end in
  let listing := lines_of (λ kv, kv.1 +:+ ": " +:+ show_changes t kv.2) in
  match args with
  | [] => mret (res +:+ listing (page 0 (map_to_list m)))
  | id :: rest =>
    if negb ((0 <=? start) && (start <=? 10000000)) then
      (if bool_decide (head rest = Some "-"%string) then modify (upd_ip_changes (delete id)) else mret tt);;
      m' ← gets ip_changes;
      mret (res +:+ match m !! id with Some v => show_changes t v +:+ newline | None => "" end
                +:+ if 0 <=? start then listing (page start (map_to_list m')) else "")
    else mret (res +:+ listing (page start (map_to_list m)))
  end.

Definition cmd_punch_requests (args : list string) : WM string :=
  if bool_decide (head args = Some "-"%string) then modify (upd_punch_reqs (λ _, []));; mret ""%string else
  let start := default 0 (head args ≫= parse_usize) in
  let size := default 10 (head (tail args) ≫= parse_usize) in
  let size := if size =? 0 then 10 else size in
  w ← gets id;
  let show e :=
    rfc3339_secs (clock (wdb w) * 1000000000 - elapsed (now w) (pq_tm e)) +:+ " " +:+ pq_from_ip e
    +:+ " -> " +:+ pq_to_id e +:+ "@" +:+ pq_to_ip e in
  mret (lines_of show (take (Z.to_nat size) (drop (Z.to_nat start) (punch_reqs w)))).

Definition cmd_always_use_relay (args : list string) : WM string :=
  match args with
  | x :: _ =>
    modify (upd_always_use_relay (λ _, bool_decide (to_uppercase x = "Y"%string)));;
    tx_send (RelayServers0 x);;
    mret ""%string
  | [] =>
    b ← gets always_use_relay;
    mret ("ALWAYS_USE_RELAY: " +:+ (if b : bool then "true" else "false") +:+ newline)
  end.

Definition cmd_test_geo (rs : Srv) (args : list string) : WM string :=
  match args with
  | a :: rest =>
    match parse_ip a, rest with
    | Some _, [] => r ← get_relay_server rs; mret (quote r)
    | Some _, b :: _ =>
      match parse_ip b with
      | Some _ => r ← get_relay_server rs; mret (quote r)
      | None => mret ""%string
      end
    | None, _ => mret ""%string
    end
  | [] => mret ""%string
  end.

Definition check_cmd (rs : Srv) (cmd : string) : WM string :=
  match split_on " "%char (trim cmd) with
  | [] => mret ""%string
  | c :: args =>
    if is_cmd c ["h"%string] then mret help_text
    else if is_cmd c ["relay-servers"; "rs"]%string then cmd_relay_servers rs args
    else if is_cmd c ["ip-blocker"; "ib"]%string then cmd_ip_blocker args
    else if is_cmd c ["ip-changes"; "ic"]%string then cmd_ip_changes args
    else if is_cmd c ["punch-requests"; "pr"]%string then cmd_punch_requests args
    else if is_cmd c ["always-use-relay"; "aur"]%string then cmd_always_use_relay args
    else if is_cmd c ["test-geo"; "tg"]%string then cmd_test_geo rs args
    else mret ""%string
  end.

(** [handle_listener2] from another host: one message, answered in protobuf. *)
Definition handle_listener2 (b : bytes) (conn : Sink) (addr : SocketAddr) : WM unit :=
  match m ← parse b; union m with
  | Some (U_TestNatRequest _) => send_stream conn (nat_response addr None)
  | Some (U_OnlineRequest req) => handle_online_request conn (oq_peers req)
  | _ => mret tt
  end.

(** ** The loop *)

(** [check_relay_servers]: the servers that answer, if any does. *)
Definition check_relay_servers (connects : string → bool) (rs0 : list string) : WM unit :=
  let host x := if contains ":" x then x else x +:+ ":" +:+ to_string RELAY_PORT in
  match filter (λ x, connects (host x) = true) rs0 with
  | [] => mret tt
  | l => tx_send (RelayServers l)
  end.

(** What the loop and the tasks it spawns react to. *)
Inductive Event : Type :=
| EvTimer (connects : string → bool)
| EvQueue
| EvUdp (b : bytes) (from : SocketAddr)
| EvConsole (cmd : string)
| EvListener2 (b : bytes) (conn : Sink) (from : SocketAddr)
| EvConnection (frames : list bytes) (conn : Sink) (from : SocketAddr) (ws : bool)
| EvTime (d : Z).

(** One turn of [io_loop]. *)
Definition io_loop_step (key : string) (rs : Srv) (e : Event) : WM Srv :=
  match e with
  | EvTimer connects =>
    (if 1 <? zlen (relay_servers0 rs) then check_relay_servers connects (relay_servers0 rs) else mret tt);;
    mret rs
  | EvQueue =>
    q ← gets queue;
    match q with
    | [] => mret rs
    | d :: q =>
      modify (upd_queue (λ _, q));;
      match d with
      | Msg m to p =>
        match serialize m p with Some b => emit (SentUdp b to) | None => mret tt end;;
        mret rs
      | RelayServers0 s => mret (parse_relay_servers rs s)
      | RelayServers l =>
        mret {| relay_servers := l; relay_servers0 := relay_servers0 rs;
                rendezvous_servers := rendezvous_servers rs; inner := inner rs |}
      end
    end
  | EvUdp b from => handle_udp rs b from key
  | EvConsole cmd => check_cmd rs cmd;; mret rs
  | EvListener2 b conn from =>
    (if is_loopback (ip (try_into_v4 from)) then mret tt else handle_listener2 b conn from);;
    mret rs
  | EvConnection frames conn from ws => handle_listener_inner rs frames conn from key ws;; mret rs
  | EvTime d =>
    modify (upd_now (λ t, t + Z.max 0 d));;
    modify (upd_wdb (upd_clock (λ t, t + Z.max 0 d / 1000000000)));;
    mret rs
  end.

Fixpoint io_loop (key : string) (rs : Srv) (es : list Event) : WM Srv :=
  match es with
  | [] => mret rs
  | e :: es => rs ← io_loop_step key rs e; io_loop key rs es
  end.

(** The shared state when the server starts. *)
Definition start (t : Instant) (d : Db) : World :=
  {| now := t; pmap := ∅; wdb := d; online_peers := ∅; ip_blocker := ∅; ip_changes := ∅;
     punch_reqs := []; rotation := 0; always_use_relay := false; tcp_punch := ∅; queue := [];
     sent := [] |}.

End rendezvous.
