(* ===== verification/RendezvousSpec.v ===== *)
(** * What hbbs guarantees

    The theorems about the rendezvous server of Rendezvous.v: the limiter of
    registrations, who counts as online, which peer a punch request reaches,
    what registrations may change, how relays take turns, and what the server
    does not guarantee. *)
From Stdlib Require Import Ascii.
From S2P Require Import Prelude AddrMangle Text Auth Proto RendezvousCodec Database Instances Peer Rendezvous.
Local Open Scope Z_scope.

(** ** The limiter *)

Definition block_ok (b : IpBlock) : Prop := 0 <= ib_count b <= 31 ∧ Z.of_nat (size (ib_ids b)) <= 301.
Definition blocker_ok (w : World) : Prop := map_Forall (λ _, block_ok) (ip_blocker w).

Lemma size_add_id (id : string) (ids : gset string) : (size ({[id]} ∪ ids) <= S (size ids))%nat.
Proof.
  rewrite size_union_alt, size_singleton.
  assert (ids ∖ {[id]} ⊆ ids) as S%subseteq_size by set_solver. lia.
Qed.

Lemma count_request_ok now id old :
  (∀ b, old = Some b → block_ok b) → block_ok (count_request now id old).2.
Proof.
  intros Hold. destruct old as [b|]; [|cbn; split; cbn; rewrite ?size_empty; lia].
  specialize (Hold b eq_refl) as Hb. destruct Hb as [Hc Hi]. unfold count_request.
  set (expired := _ <? as_secs (elapsed now (ib_count_tm b))).
  set (day_over := _ <? as_secs (elapsed now (ib_ids_tm b))).
  pose proof (size_add_id id (ib_ids b)). pose proof (size_add_id id ∅) as He. rewrite size_empty in He.
  destruct (negb expired && (30 <? ib_count b)) eqn:E1; [done|].
  assert (0 <= (if expired then 0 else ib_count b) + 1 <= 31) as Hcount.
  { destruct expired; cbn in E1; bool_simp; lia. }
  destruct (negb day_over && (300 <? Z.of_nat (size (ib_ids b)))) eqn:E2; cbv zeta; cbn [snd].
  - split; [exact Hcount|exact Hi].
  - split; [exact Hcount|]. cbn [ib_ids]. destruct day_over; cbn in E2; bool_simp.
    + destruct (bool_decide _); rewrite ?size_empty; lia.
    + destruct (bool_decide _); lia.
Qed.

Section rendezvous_spec.
Context `{Bcrypt} `{Uuid} `{Serde} `{SqlTime} `{Jwt} `{Env} `{WireLib} `{ServerLib}.

Lemma check_ip_blocker_keeps ip id : keeps blocker_ok (check_ip_blocker ip id).
Proof.
  intros w Hw. unfold check_ip_blocker. run_monad.
  destruct (count_request _ _ _) as [free b] eqn:E. run_monad.
  apply map_Forall_insert_2; [|done].
  change b with (free, b).2. rewrite <- E. apply count_request_ok.
  intros b' Hb. by apply (Hw ip).
Qed.

(** The only writers of the counters are [check_ip_blocker] and the console. *)
Ltac blocker_elsewhere := keeps_world; intros; assumption.

Lemma cmd_ip_blocker_keeps args : keeps blocker_ok (cmd_ip_blocker args).
Proof.
  keeps_world; intros w Hw.
  all: intros k b Hk; apply (Hw k); cbn in Hk; revert Hk.
  all: rewrite ?lookup_delete_where, ?lookup_delete_Some; tauto.
Qed.

Lemma udp_register_pk_keeps rk addr p : keeps blocker_ok (udp_register_pk rk addr p).
Proof.
  unfold udp_register_pk. keeps_steps; try apply check_ip_blocker_keeps.
  all: blocker_elsewhere.
Qed.

Lemma handle_udp_keeps rs b addr key : keeps blocker_ok (handle_udp rs b addr key).
Proof.
  unfold handle_udp. keeps_steps; try apply udp_register_pk_keeps.
  all: blocker_elsewhere.
Qed.

Lemma check_cmd_keeps rs cmd : keeps blocker_ok (check_cmd rs cmd).
Proof.
  unfold check_cmd. keeps_steps.
  all: try lazymatch goal with |- keeps _ (cmd_ip_blocker _) => apply cmd_ip_blocker_keeps end.
  all: blocker_elsewhere.
Qed.

Lemma handle_tcp_keeps rs b sink addr key ws : keeps blocker_ok (handle_tcp rs b sink addr key ws).
Proof. unfold handle_tcp. blocker_elsewhere. Qed.

Lemma tcp_frames_keeps I rs frames sink addr key ws :
  (∀ b s, keeps I (handle_tcp rs b s addr key ws)) → keeps I (tcp_frames rs frames sink addr key ws).
Proof.
  intros Hh. revert sink. induction frames as [|b frames IH]; intros sink; cbn [tcp_frames]; keeps_steps; auto.
Qed.

Lemma io_loop_step_keeps rs key e : keeps blocker_ok (io_loop_step key rs e).
Proof.
  destruct e; cbn [io_loop_step]; keeps_steps;
    auto using handle_udp_keeps, check_cmd_keeps.
  all: try (unfold handle_listener_inner; keeps_steps; [apply tcp_frames_keeps; intros; apply handle_tcp_keeps|]).
  all: blocker_elsewhere.
Qed.

Lemma io_loop_keeps I rs key es :
  (∀ rs e, keeps I (io_loop_step key rs e)) → keeps I (io_loop key rs es).
Proof. intros Hs. revert rs. induction es; intros rs; cbn [io_loop]; keeps_steps; auto. Qed.

(** Whatever datagrams, frames and commands the server takes, in any order,
    the counter of an address stays within 31 requests and 301 ids: memory and
    arithmetic of the limiter are bounded. *)
Theorem blocker_bounded key rs es t d : blocker_ok (io_loop key rs es (start t d)).2.
Proof.
  apply io_loop_keeps; [intros; apply io_loop_step_keeps|]. apply map_Forall_empty.
Qed.

(** Requests of one address at the given times, for the given ids. *)
Fixpoint requests (ip : string) (l : list (Instant * string)) : WM (list bool) :=
  match l with
  | [] => mret []
  | (t, id) :: l =>
    modify (upd_now (λ _, t));;
    free ← check_ip_blocker ip id;
    rest ← requests ip l;
    mret (free :: rest)
  end.

Definition accepted (l : list bool) : Z := zlen (filter (λ b, b = true) l).

Lemma requests_cons ip t id l w :
  let '(free, b) := count_request t id (ip_blocker w !! ip) in
  accepted (requests ip ((t, id) :: l) w).1 =
  (if free then 1 else 0)
  + accepted (requests ip l (upd_ip_blocker <[ip := b]> (upd_now (λ _, t) w))).1.
Proof.
  destruct (count_request t id (ip_blocker w !! ip)) as [free b] eqn:E.
  cbn [requests]. unfold check_ip_blocker. run_monad.
  change (now (upd_now (λ _, t) w)) with t.
  change (ip_blocker (upd_now (λ _, t) w)) with (ip_blocker w). rewrite E. run_monad.
  destruct (requests _ _ _) as [rest w']. run_monad.
  unfold accepted, zlen. rewrite filter_cons.
  destruct free; [rewrite decide_True by done|rewrite decide_False by done]; cbn [length]; lia.
Qed.

Definition in_window (t0 t : Instant) : Prop := t0 <= t <= t0 + secs IP_BLOCK_DUR.

Lemma window_fresh t0 t tm : in_window t0 t → t0 <= tm → (IP_BLOCK_DUR <? as_secs (elapsed t tm)) = false.
Proof.
  unfold in_window, secs, as_secs, elapsed, IP_BLOCK_DUR. intros. apply Z.ltb_ge.
  apply Z.div_le_upper_bound; lia.
Qed.

(** One request of a window: let through or not, it moves the counter on. *)
Lemma count_request_window t0 t id b :
  in_window t0 t → t0 <= ib_count_tm b →
  let '(free, b') := count_request t id (Some b) in
  t0 <= ib_count_tm b' ∧ ib_count b <= ib_count b' ∧
  (if free then 1 else 0) + Z.max 0 (31 - ib_count b') <= Z.max 0 (31 - ib_count b).
Proof.
  intros Ht Hb. unfold count_request. rewrite (window_fresh t0) by done. cbn [negb andb].
  unfold in_window in Ht. destruct (30 <? ib_count b) eqn:E1; bool_simp; [repeat split; lia|].
  destruct (negb _ && _); cbn [ib_count_tm ib_count]; [destruct (negb _)|]; repeat split; lia.
Qed.

Lemma requests_window t0 ip l : ∀ w b,
  Forall (λ q, in_window t0 q.1) l → ip_blocker w !! ip = Some b → t0 <= ib_count_tm b →
  accepted (requests ip l w).1 <= Z.max 0 (31 - ib_count b).
Proof.
  induction l as [|[t id] l IH]; intros w b Hl Hb Htm; [unfold accepted, zlen; cbn; lia|].
  apply Forall_cons in Hl as [Ht Hl]. pose proof (requests_cons ip t id l w) as R.
  rewrite Hb in R. pose proof (count_request_window t0 t id b Ht Htm) as C.
  destruct (count_request t id (Some b)) as [free b']. destruct C as (C1 & C2 & C3). rewrite R.
  specialize (IH (upd_ip_blocker <[ip:=b']> (upd_now (λ _, t) w)) b' Hl).
  cbn [ip_blocker upd_ip_blocker] in IH. rewrite lookup_insert_eq in IH.
  specialize (IH eq_refl C1). lia.
Qed.

(** A request that is counted leaves its time and a positive counter. *)
Lemma count_request_counted t id b free b' :
  block_ok b → count_request t id (Some b) = (free, b') →
  (free = false ∧ b' = b) ∨ (ib_count_tm b' = t ∧ 1 <= ib_count b').
Proof.
  intros [Hb _] E. unfold count_request in E.
  assert (1 <= (if IP_BLOCK_DUR <? as_secs (elapsed t (ib_count_tm b)) then 0 else ib_count b) + 1)
    by (destruct (_ <? _); lia).
  destruct (negb _ && _); [left; naive_solver|].
  destruct (negb _ && _); simplify_eq; right; done.
Qed.

(** C17. Of all the registrations an address sends within sixty seconds, to
    however many ids, at most 32 pass the limiter. *)
Theorem blocker_window t0 ip l w :
  blocker_ok w → Forall (λ q, in_window t0 q.1) l → accepted (requests ip l w).1 <= 32.
Proof.
  intros Hw. revert w Hw. induction l as [|[t id] l IH]; intros w Hw Hl;
    [unfold accepted, zlen; cbn; lia|].
  apply Forall_cons in Hl as [Ht Hl]. pose proof (requests_cons ip t id l w) as R.
  destruct (count_request t id (ip_blocker w !! ip)) as [free b'] eqn:E. rewrite R. clear R.
  set (w' := upd_ip_blocker _ _).
  assert (ip_blocker w' !! ip = Some b') as Hb' by apply lookup_insert_eq.
  assert (block_ok b') as Hok.
  { change b' with (free, b').2. rewrite <- E. apply count_request_ok. intros b. apply Hw. }
  assert (blocker_ok w') as Hw' by (by apply map_Forall_insert_2).
  destruct (ip_blocker w !! ip) as [b|] eqn:Eb.
  - destruct (count_request_counted t id b free b') as [[-> _]|[Htm Hc]]; [by apply (Hw ip)|done| |].
    + specialize (IH w' Hw' Hl). lia.
    + assert (t0 <= ib_count_tm b') as Htm' by (rewrite Htm; apply Ht).
      pose proof (requests_window t0 ip l w' b' Hl Hb' Htm'). destruct free; lia.
  - cbn in E. simplify_eq.
    pose proof (requests_window t0 ip l w' _ Hl Hb' (proj1 Ht)). cbn [ib_count] in *. lia.
Qed.
End rendezvous_spec.

(** Thirty-three registrations in the same second. *)
Lemma blocker_window_witness :
  Forall (λ q, in_window 0 q.1) (replicate 33 (0, "123456"%string))
  ∧ accepted (requests "1.2.3.4" (replicate 33 (0, "123456"%string)) (start 0 empty_db)).1 <= 32.
Proof.
  assert (Forall (λ q : Z * string, in_window 0 q.1) (replicate 33 (0, "123456"%string))) as F.
  { apply Forall_replicate. unfold in_window, secs, IP_BLOCK_DUR. cbn [fst]. lia. }
  split; [exact F|]. apply (blocker_window 0); [apply map_Forall_empty|exact F].
Defined.

(** ** Who is online *)

Definition is_online (now : Instant) (map : gmap string Peer) (id : string) : bool :=
  match map !! id with Some p => reg_age now p <? REG_TIMEOUT | None => false end.

(** Bit [j] of the answer, counted from the left. *)
Definition state_bit (states : bytes) (j : nat) : bool :=
  Z.testbit (default 0 (states !! (j / 8)%nat)) (7 - Z.of_nat (j mod 8)).

Lemma state_bit_set states i j :
  (i / 8 < length states)%nat →
  state_bit (alter (λ b, Z.lor b (Z.shiftl 1 (7 - Z.of_nat (i mod 8)))) (i / 8)%nat states) j
  = state_bit states j || Nat.eqb i j.
Proof.
  intros Hi. unfold state_bit. pose proof (Nat.mod_upper_bound i 8). pose proof (Nat.mod_upper_bound j 8).
  destruct (decide (i / 8 = j / 8)%nat) as [E|E].
  - rewrite E, list_lookup_alter_eq. rewrite E in Hi.
    destruct (states !! (j / 8)%nat) as [b|] eqn:Eb; [|apply lookup_ge_None in Eb; lia].
    change (Z.testbit (Z.setbit b (7 - Z.of_nat (i mod 8))) (7 - Z.of_nat (j mod 8))
            = Z.testbit b (7 - Z.of_nat (j mod 8)) || Nat.eqb i j).
    rewrite Z.setbit_eqb by lia. rewrite orb_comm. f_equal.
    pose proof (Nat.div_mod_eq i 8). pose proof (Nat.div_mod_eq j 8).
    destruct (Nat.eqb_spec i j) as [->|]; [apply Z.eqb_refl|]. apply Z.eqb_neq. lia.
  - rewrite list_lookup_alter_ne by done. destruct (Nat.eqb_spec i j) as [->|]; [done|].
    by rewrite orb_false_r.
Qed.

Lemma length_set_states now map i peers states :
  length (set_states now map i peers states) = length states.
Proof.
  revert i states. induction peers as [|id peers IH]; intros i states; cbn [set_states]; [done|].
  rewrite IH. repeat case_match; rewrite ?length_alter; done.
Qed.

(** The bit the ids from position [i] on give position [j]. *)
Definition listed_online (now : Instant) (map : gmap string Peer) (i : nat) (peers : list string) (j : nat) : bool :=
  Nat.leb i j && match peers !! (j - i)%nat with Some id => is_online now map id | None => false end.

Lemma listed_online_cons now map i id peers j :
  listed_online now map i (id :: peers) j
  = (is_online now map id && Nat.eqb i j) || listed_online now map (S i) peers j.
Proof.
  unfold listed_online. destruct (Nat.leb_spec i j) as [Hij|Hij].
  - destruct (Nat.eqb_spec i j) as [->|Hne].
    + replace (j - j)%nat with O by lia. destruct (Nat.leb_spec (S j) j); [lia|].
      cbn. by rewrite andb_true_r, orb_false_r.
    + destruct (Nat.leb_spec (S i) j); [|lia]. replace (j - i)%nat with (S (j - S i)) by lia.
      cbn. by rewrite andb_false_r.
  - destruct (Nat.eqb_spec i j); [lia|]. destruct (Nat.leb_spec (S i) j); [lia|].
    by rewrite andb_false_r.
Qed.

Lemma set_states_bit now map peers : ∀ i states j,
  (i + length peers <= 8 * length states)%nat →
  state_bit (set_states now map i peers states) j
  = state_bit states j || listed_online now map i peers j.
Proof.
  induction peers as [|id peers IH]; intros i states j Hl; cbn [set_states length] in *.
  { unfold listed_online. by rewrite lookup_nil, andb_false_r, orb_false_r. }
  match goal with |- context [set_states now map (S i) peers ?x] => set (st := x) end.
  assert (length st = length states) as Hst.
  { unfold st. repeat case_match; rewrite ?length_alter; done. }
  rewrite IH by lia. rewrite listed_online_cons, orb_assoc. f_equal.
  unfold st, is_online. destruct (map !! id); [|by rewrite orb_false_r].
  destruct (_ <? _); [|by rewrite orb_false_r]. apply state_bit_set.
  apply Nat.Div0.div_lt_upper_bound. lia.
Qed.

Lemma state_bit_zeros n j : state_bit (replicate n 0) j = false.
Proof.
  unfold state_bit. destruct (replicate n 0 !! _) as [b|] eqn:E; cbn [default].
  - apply lookup_replicate in E as [-> _]. apply Z.bits_0.
  - apply Z.bits_0.
Qed.

(** The answer to an online request has one bit per id, eight to a byte
    and from the left: bit [j] says whether the peer with the [j]-th id is in
    memory and registered less than thirty seconds ago, and the bits of the
    last byte that stand for no id are zero. *)
Theorem online_states_spec now map peers :
  length (online_states now map peers) = ((length peers + 7) / 8)%nat ∧
  ∀ j, state_bit (online_states now map peers) j
       = match peers !! j with Some id => is_online now map id | None => false end.
Proof.
  unfold online_states. split; [by rewrite length_set_states, length_replicate|]. intros j.
  rewrite set_states_bit, state_bit_zeros.
  - unfold listed_online. by rewrite Nat.sub_0_r.
  - rewrite length_replicate. pose proof (Nat.div_mod_eq (length peers + 7) 8).
    pose proof (Nat.mod_upper_bound (length peers + 7) 8). lia.
Qed.

(** ** Ages *)

Lemma reg_age_small now p :
  0 <= now - last_reg_time p < millis (2 ^ 31) →
  reg_age now p = as_millis (now - last_reg_time p).
Proof.
  intros Hp. unfold reg_age, elapsed. rewrite Z.max_r by lia. apply as_i32_small.
  unfold as_millis, millis in *. split; [|apply Z.div_lt_upper_bound; lia].
  pose proof (Z.div_pos (now - last_reg_time p) 1000000). lia.
Qed.

(** A peer that registered less than 2^31 milliseconds ago counts as
    online exactly for the thirty seconds after its registration. But the age
    is cut to 32 bits: a peer last seen between 2^31 and 2^32 milliseconds ago,
    24.8 to 49.7 days, has a negative age and counts as online again. *)
Theorem online_age now p :
  (0 <= now - last_reg_time p < millis (2 ^ 31) →
   (reg_age now p <? REG_TIMEOUT) = (now - last_reg_time p <? secs 30)) ∧
  (millis (2 ^ 31) <= now - last_reg_time p < millis (2 ^ 32) →
   (reg_age now p <? REG_TIMEOUT) = true).
Proof.
  split; intros Hp.
  - rewrite reg_age_small by done. unfold as_millis, REG_TIMEOUT, secs, millis in *.
    destruct (now - last_reg_time p <? 30 * 1000000000) eqn:E; bool_simp.
    + apply Z.ltb_lt, Z.div_lt_upper_bound; lia.
    + apply Z.ltb_ge, Z.div_le_lower_bound; lia.
  - unfold reg_age, elapsed, REG_TIMEOUT, as_i32, as_millis, millis in *. rewrite Z.max_r by lia.
    assert (2 ^ 31 <= (now - last_reg_time p) / 1000000 < 2 ^ 32) as Hd.
    { split; [apply Z.div_le_lower_bound; lia|apply Z.div_lt_upper_bound; lia]. }
    replace ((now - last_reg_time p) / 1000000 + 2 ^ 31)
      with ((now - last_reg_time p) / 1000000 - 2 ^ 31 + 1 * 2 ^ 32) by lia.
    rewrite Z.mod_add, Z.mod_small by lia. apply Z.ltb_lt. lia.
Qed.

(** A peer seen ten seconds ago, and one seen thirty days ago. *)
Lemma online_age_witness :
  (reg_age (secs 10) (default_peer (secs 3600)) <? REG_TIMEOUT) = true
  ∧ (reg_age (secs (30 * 86400)) (default_peer (secs 3600)) <? REG_TIMEOUT) = true.
Proof.
  split.
  - destruct (online_age (secs 10) (default_peer (secs 3600))) as [E _].
    rewrite E; [vm_compute; reflexivity|vm_compute; split; congruence].
  - destruct (online_age (secs (30 * 86400)) (default_peer (secs 3600))) as [_ E].
    apply E. vm_compute. split; congruence.
Defined.

(** ** Taking turns *)

Section relays.
Context `{Bcrypt} `{Uuid} `{Serde} `{SqlTime} `{Jwt} `{Env} `{WireLib} `{ServerLib}.

(** The relays of [n] requests in a row. *)
Fixpoint draw_relays (rs : Srv) (n : nat) : WM (list string) :=
  match n with
  | O => mret []
  | S n => r ← get_relay_server rs; l ← draw_relays rs n; mret (r :: l)
  end.

Lemma get_relay_server_run rs w :
  (2 <= length (relay_servers rs))%nat →
  get_relay_server rs w =
  (nth (Z.to_nat (rotation w mod zlen (relay_servers rs))) (relay_servers rs) ""%string,
   upd_rotation (λ r, wrap_u 64 (r + 1)) w).
Proof.
  intros Hl. unfold get_relay_server.
  destruct (relay_servers rs) as [|r1 [|r2 l]]; cbn [length] in Hl; [lia|lia|]. run_monad. done.
Qed.

Lemma draw_relays_lookup rs n : ∀ w i,
  (2 <= length (relay_servers rs))%nat → 0 <= rotation w → rotation w + Z.of_nat n < 2 ^ 64 →
  (i < n)%nat →
  (draw_relays rs n w).1 !! i
  = Some (nth (Z.to_nat ((rotation w + Z.of_nat i) mod zlen (relay_servers rs))) (relay_servers rs) ""%string).
Proof.
  induction n as [|n IH]; intros w i Hl H0' Hn Hi; [lia|]. cbn [draw_relays].
  rewrite bind_run, get_relay_server_run by done. rewrite bind_run.
  set (w' := upd_rotation _ w).
  assert (rotation w' = rotation w + 1) as Hr by (apply wrap_u_small; lia).
  destruct i as [|i].
  - destruct (draw_relays rs n w') as [l w'']. cbn. by rewrite Z.add_0_r.
  - specialize (IH w' i Hl). rewrite Hr in IH.
    destruct (draw_relays rs n w') as [l w'']. cbn [fst] in IH.
    transitivity (l !! i); [reflexivity|]. rewrite IH by lia. do 3 f_equal. f_equal. lia.
Qed.

Lemma length_draw_relays rs n w : length (draw_relays rs n w).1 = n.
Proof.
  revert w. induction n as [|n IH]; intros w; cbn [draw_relays]; [done|].
  rewrite bind_run. destruct (get_relay_server rs w) as [r w']. rewrite bind_run.
  specialize (IH w'). destruct (draw_relays rs n w') as [l w'']. cbn. by f_equal.
Qed.

(** With two relays or more the requests take them in turn: as many
    requests in a row as there are relays get the list of relays, rotated by
    the counter, so that each relay is given out once. *)
Theorem relay_rotation rs w :
  let l := relay_servers rs in
  (2 <= length l)%nat → 0 <= rotation w → rotation w + zlen l < 2 ^ 64 →
  (draw_relays rs (length l) w).1 = rotate (Z.to_nat (rotation w)) l ∧
  (draw_relays rs (length l) w).1 ≡ₚ l.
Proof.
  intros l Hl H0' Hn.
  assert ((draw_relays rs (length l) w).1 = rotate (Z.to_nat (rotation w)) l) as E.
  { apply list_eq_same_length with (length l); [by rewrite length_rotate|apply length_draw_relays|].
    intros i x y Hi Hx Hy. rewrite draw_relays_lookup in Hx by (unfold zlen in Hn; done || lia).
    rewrite lookup_rotate_r in Hy by done. unfold rotate_nat_add in Hy.
    rewrite Z2Nat.id in Hy by done. fold l in Hx. unfold zlen in Hx.
    injection Hx as <-. rewrite (nth_lookup_Some _ _ _ _ Hy). done. }
  split; [exact E|]. rewrite E. unfold rotate. rewrite Permutation_app_comm. by rewrite take_drop.
Qed.
End relays.

(** A library of name resolution and signatures for the witnesses. *)
Definition TestServer : ServerLib :=
  {| to_socket_addrs := λ s, contains "." s; sign := λ k m, k ++ m;
     idpk_bytes := λ _ k, k; rfc3339_secs := to_string |}.
Definition test_inner : Inner :=
  {| serial := 0; version := ""; software_url := ""; mask := None; local_ip := ""; sk := None |}.
Definition test_srv (relays : list string) : Srv :=
  {| relay_servers := relays; relay_servers0 := relays; rendezvous_servers := []; inner := test_inner |}.

Lemma relay_rotation_witness :
  (draw_relays (test_srv ["r1"; "r2"; "r3"]%string) 3 (upd_rotation (λ _, 4) (start 0 empty_db))).1
  = ["r2"; "r3"; "r1"]%string.
Proof.
  destruct (relay_rotation (test_srv ["r1"; "r2"; "r3"]%string) (upd_rotation (λ _, 4) (start 0 empty_db)))
    as [E _]; [cbn; lia|cbn; lia|vm_compute; reflexivity|exact E].
Defined.

(** ** What a registration may change *)

Section registration.
Context `{Bcrypt} `{Uuid} `{Serde} `{SqlTime} `{Jwt} `{Env} `{WireLib} `{ServerLib}.

(** The peer [id] is in memory with the given uuid, and its key satisfies [K]. *)
Definition pinned (id : string) (u : bytes) (K : bytes → Prop) (w : World) : Prop :=
  ∃ p, pmap w !! id = Some p ∧ uuid p = u ∧ K (pk p).

Lemma pinned_alter id u K id' f w :
  (id' = id → ∀ p, uuid p = u → K (pk p) → uuid (f p) = u ∧ K (pk (f p))) →
  pinned id u K w → pinned id u K (upd_pmap (alter f id') w).
Proof.
  intros Hf (p & Hp & Hu & HK). unfold pinned. cbn [pmap upd_pmap]. destruct (decide (id' = id)) as [->|Hne].
  - rewrite lookup_alter_eq, Hp. exists (f p). destruct (Hf eq_refl p Hu HK). done.
  - rewrite lookup_alter_ne by done. eauto.
Qed.

Lemma pinned_insert id u K id' q w :
  pmap w !! id' = None → pinned id u K w → pinned id u K (upd_pmap <[id' := q]> w).
Proof.
  intros Hn (p & Hp & Hu & HK). exists p. cbn [pmap upd_pmap].
  rewrite lookup_insert_ne by congruence. done.
Qed.

(** A peer in memory is found as it is; another is loaded or created, and only
    its own entry appears. *)
Lemma get_run id w :
  (∃ p, pmap w !! id = Some p ∧ PeerMap.get id w = (Some p, w)) ∨
  (pmap w !! id = None ∧ ∃ d,
    PeerMap.get id w = (None, upd_wdb (λ _, d) w) ∨
    ∃ q, PeerMap.get id w = (Some q, upd_pmap <[id := q]> (upd_wdb (λ _, d) w))).
Proof.
  unfold PeerMap.get, PeerMap.get_in_memory. run_monad.
  destruct (pmap w !! id) as [p|] eqn:E; [left; eauto|right]. split; [done|].
  destruct (get_peer id (wdb w)) as [r d] eqn:Er.
  assert (db (get_peer id) w = (r, upd_wdb (λ _, d) w)) as -> by (unfold db; by rewrite Er).
  exists d.
  destruct r as [[v|]|]; run_monad; [right; eexists; reflexivity|left; reflexivity..].
Qed.

Lemma get_or_run id w :
  (∃ p, pmap w !! id = Some p ∧ PeerMap.get_or id w = (p, w)) ∨
  (pmap w !! id = None ∧ ∃ d q,
    PeerMap.get_or id w = (q, upd_pmap <[id := q]> (upd_wdb (λ _, d) w))).
Proof.
  unfold PeerMap.get_or. rewrite bind_run.
  destruct (get_run id w) as [(p & Hp & ->)|(Hn & d & [->|(q & ->)])]; [left; eauto| |]; right.
  - split; [done|]. unfold PeerMap.get_in_memory. run_monad.
    change (pmap (upd_wdb (λ _, d) w)) with (pmap w). rewrite Hn. run_monad.
    eexists d, _. reflexivity.
  - split; [done|]. run_monad. eexists d, _. reflexivity.
Qed.

Lemma pinned_get id u K id' : keeps (pinned id u K) (PeerMap.get id').
Proof.
  intros w Hw. destruct (get_run id' w) as [(p & _ & ->)|(Hn & d & [->|(q & ->)])]; [done|done|].
  by apply pinned_insert.
Qed.

Lemma pinned_get_or id u K id' : keeps (pinned id u K) (PeerMap.get_or id').
Proof.
  intros w Hw. destruct (get_or_run id' w) as [(p & _ & ->)|(Hn & d & q & ->)]; [done|].
  by apply pinned_insert.
Qed.

(** Writing a field that is neither the uuid nor the key. *)
Lemma pinned_write id u K id' f :
  (∀ p, uuid (f p) = uuid p ∧ pk (f p) = pk p) → keeps (pinned id u K) (PeerMap.write_peer id' f).
Proof.
  intros Hf w Hw. apply pinned_alter; [|done]. intros _ p. destruct (Hf p) as [-> ->]. done.
Qed.

(** Go through a handler: loads, field writes, and writes elsewhere. *)
Ltac pinned_world :=
  repeat lazymatch goal with
    | |- keeps _ (db _) => apply keeps_db; intros; assumption
    | |- keeps _ (PeerMap.get _) => apply pinned_get
    | |- keeps _ (PeerMap.get_or _) => apply pinned_get_or
    | |- keeps _ (PeerMap.write_peer _ _) => try (apply pinned_write; by split)
    | |- keeps _ (modify _) => apply keeps_modify; try (intros; assumption)
    | _ => first [keeps_basic | keeps_unfold]
    end.

Lemma pinned_update_pk id u K id' addr u' k' ip tok :
  (id' = id → u' = u ∧ K k') → keeps (pinned id u K) (PeerMap.update_pk id' addr u' k' ip tok).
Proof.
  intros Hid. unfold PeerMap.update_pk. pinned_world.
  all: intros w Hw; apply pinned_alter; [|done]; intros E ? _ _; by apply Hid.
Qed.

Lemma check_registration_pins peer rk ip changed ip_changed :
  uuid peer ≠ [] → check_registration peer rk ip = PkChange changed ip_changed →
  rk_uuid rk = uuid peer ∧ (rk_pk rk = pk peer ∨ info_ip peer = ip).
Proof.
  intros Hu. unfold check_registration. rewrite bool_decide_false by done.
  destruct (bool_decide (uuid peer = rk_uuid rk)) eqn:E1; [|done].
  destruct (negb (bool_decide (info_ip peer = ip)) && negb (bool_decide (pk peer = rk_pk rk))) eqn:E2; [done|].
  intros _. bool_simp. split; [done|].
  destruct (decide (info_ip peer = ip)); [by right|left].
  rewrite bool_decide_false in E2 by done. cbn in E2. bool_simp. done.
Qed.

(** The key a registration from [addr] may leave with a peer that had [p]. *)
Definition key_allowed (p : Peer) (addr : SocketAddr) (k : bytes) : Prop :=
  k = pk p ∨ info_ip p = ip_string (ip addr).

Lemma check_ip_blocker_pmap id p a i : keeps (λ w, pmap w !! id = Some p) (check_ip_blocker a i).
Proof. keeps_world. by intros. Qed.

Lemma udp_register_pk_pins id p rk addr q :
  uuid p ≠ [] →
  ensures (λ w, pmap w !! id = Some p) (udp_register_pk rk addr q)
    (λ _, pinned id (uuid p) (key_allowed p addr)).
Proof.
  intros Hu. set (I0 := λ w, pmap w !! id = Some p). set (J := pinned id (uuid p) (key_allowed p addr)).
  assert (∀ w, I0 w → J w) as HIJ by (intros w Hw; exists p; unfold key_allowed; eauto).
  assert (∀ A (m : WM A), keeps J m → ensures I0 m (λ _, J)) as weak.
  { intros A m Hm. eapply ensures_weaken; [by apply keeps_ensures|exact HIJ|done]. }
  unfold udp_register_pk. destruct (_ || _); [apply weak, keeps_ret|]. cbv zeta.
  destruct (_ <? 6); [apply weak; pinned_world|].
  apply ensures_bind with (λ _, I0).
  { exact (check_ip_blocker_pmap id p _ _). }
  intros free. destruct (negb free); [apply weak; pinned_world|].
  apply ensures_bind with (λ peer w, I0 w ∧ (rk_id rk = id → peer = p)).
  { intros w Hw. destruct (get_or_run (rk_id rk) w) as [(p' & Hp' & ->)|(Hn & d & p' & ->)].
    - split; [done|]. intros E. rewrite E in Hp'. unfold I0 in Hw. cbn. congruence.
    - assert (rk_id rk ≠ id) by (unfold I0 in Hw; congruence). split; [|done].
      unfold I0. cbn. by rewrite lookup_insert_ne. }
  intros peer.
  destruct (check_registration peer rk (ip_string (ip addr))) as [|changed ip_changed] eqn:Echeck.
  { eapply ensures_weaken; [apply weak; pinned_world|tauto|done]. }
  intros w [Hw Hpeer].
  assert (rk_id rk = id → rk_uuid rk = uuid p ∧ key_allowed p addr (rk_pk rk)) as Hid.
  { intros E. specialize (Hpeer E). subst peer. by eapply check_registration_pins in Echeck. }
  apply HIJ in Hw. revert w Hw.
  match goal with |- ∀ w, J w → J (?m w).2 => change (keeps J m) end.
  keeps_steps.
  all: try (apply pinned_update_pk; intros E; by apply Hid).
  all: pinned_world.
Qed.

(** C18. No datagram, from whatever address, changes the uuid of a peer in
    memory that has one, and only a datagram from the address of the last
    registration changes its key. *)
Theorem udp_keeps_identity rs b addr key id p w :
  pmap w !! id = Some p → uuid p ≠ [] →
  pinned id (uuid p) (key_allowed p addr) (handle_udp rs b addr key w).2.
Proof.
  intros Hp Hu. set (J := pinned id (uuid p) (key_allowed p addr)).
  assert (J w) as Hw by (exists p; unfold key_allowed; eauto).
  unfold handle_udp. destruct (m ← parse b; union m) as [u|]; [|done].
  destruct u; try (revert w Hp Hw; match goal with |- ∀ w, _ → J w → J (?m w).2 =>
    assert (keeps J m) as Hk; [solve [pinned_world]|intros w _; apply Hk] end).
  rewrite bind_run. pose proof (udp_register_pk_pins id p m addr (detect b) Hu w Hp) as Hr.
  by destruct (udp_register_pk m addr (detect b) w).
Qed.

(** A committed registration is in memory, whatever becomes of its row. *)
Lemma commit_pk_writes id addr u k i :
  ensures (λ w, is_Some (pmap w !! id)) (PeerMap.commit_pk id addr u k i) (λ _, pinned id u (eq k)).
Proof.
  unfold PeerMap.commit_pk. apply ensures_bind with (λ _ w, is_Some (pmap w !! id)); [by intros w ?|].
  intros t. apply ensures_bind with (λ _, pinned id u (eq k)).
  - intros w [p Hp]. unfold pinned, PeerMap.write_peer, modify. cbn.
    rewrite lookup_alter_eq, Hp. by eexists.
  - intros _. apply keeps_ensures. pinned_world.
Qed.

(** A registration over TCP takes any id from any address: the peer in
    memory gets the uuid and the key of the message, whatever uuid it had, with
    no limit on how often and none on the length of the id. *)
Theorem tcp_register_overwrites rs b sink addr key ws m rk w :
  parse b = Some m → union m = Some (U_RegisterPk rk) →
  PeerMap.require_jwt = false → PeerMap.non_blank (rk_user_token rk) = None →
  pinned (rk_id rk) (rk_uuid rk) (eq (rk_pk rk)) (handle_tcp rs b sink addr key ws w).2.
Proof.
  intros Hb Hm Hreq Htok. unfold handle_tcp. rewrite Hb, Hm. rewrite bind_run.
  enough (ensures (λ _, True) (tcp_register_pk rk sink addr (detect b))
            (λ _, pinned (rk_id rk) (rk_uuid rk) (eq (rk_pk rk)))) as He.
  { specialize (He w I). by destruct (tcp_register_pk rk sink addr (detect b) w). }
  unfold tcp_register_pk. cbv zeta.
  apply ensures_bind with (λ _ w, is_Some (pmap w !! rk_id rk)).
  { clear w. intros w _. destruct (get_or_run (rk_id rk) w) as [(p & Hp & ->)|(Hn & d & p & ->)]; [eauto|].
    cbn. rewrite lookup_insert_eq. eauto. }
  intros _. apply ensures_bind with (λ _, pinned (rk_id rk) (rk_uuid rk) (eq (rk_pk rk))).
  { unfold PeerMap.update_pk. rewrite Htok. cbn [mbind option_bind]. rewrite Hreq. apply commit_pk_writes. }
  intros res. apply keeps_ensures. pinned_world.
Qed.

Definition register_ok : RendezvousMessage :=
  mk (U_RegisterPkResponse {| rkr_result := RegisterResult_value OK; rkr_keep_alive := 0 |}).

Lemma check_ip_blocker_run i id w :
  check_ip_blocker i id w =
  ((count_request (now w) id (ip_blocker w !! i)).1,
   upd_ip_blocker <[i := (count_request (now w) id (ip_blocker w !! i)).2]> w).
Proof. unfold check_ip_blocker. run_monad. by destruct (count_request _ _ _). Qed.

Lemma get_or_in_memory id p w : pmap w !! id = Some p → PeerMap.get_or id w = (p, w).
Proof. intros Hp. destruct (get_or_run id w) as [(p' & Hp' & ->)|(Hn & _)]; congruence. Qed.

Lemma write_peer_run id f w : PeerMap.write_peer id f w = (tt, upd_pmap (alter f id) w).
Proof. done. Qed.

(** The answer to a registration over UDP does not depend on its outcome:
    where tokens are required and the message has none, the registration of a
    new key is refused, neither the peer nor the database changes, and yet the
    client is told [OK]. *)
Theorem udp_register_ok_although_refused rk addr q w p b :
  let ip := ip_string (ip addr) in
  PeerMap.require_jwt = true → PeerMap.non_blank (rk_user_token rk) = None →
  rk_uuid rk ≠ [] → rk_pk rk ≠ [] → (6 <= String.length (rk_id rk))%nat →
  (check_ip_blocker ip (rk_id rk) w).1 = true →
  pmap w !! rk_id rk = Some p → uuid p = rk_uuid rk → info_ip p = ip → pk p ≠ rk_pk rk →
  is_Some (next_reg_pk (now w) (reg_pk p)) →
  wire_bytes register_ok q = Some b →
  let w' := (udp_register_pk rk addr q w).2 in
  sent w' = sent w ++ [SentUdp b addr] ∧ wdb w' = wdb w ∧
  pinned (rk_id rk) (uuid p) (eq (pk p)) w'.
Proof.
  intros ip Hreq Htok Hu Hk Hlen Hfree Hp Hpu Hip Hpk [r Hr] Hb w'. subst w'.
  unfold udp_register_pk. rewrite !bool_decide_false by done. cbn [orb]. cbv zeta. fold ip.
  destruct (Z.of_nat (String.length (rk_id rk)) <? 6) eqn:El; bool_simp; [lia|clear El].
  rewrite check_ip_blocker_run in Hfree. rewrite bind_run, check_ip_blocker_run.
  destruct (count_request _ _ _) as [free bl]. cbn [fst snd] in *. subst free. cbn [negb].
  set (w1 := upd_ip_blocker _ w).
  rewrite bind_run, (get_or_in_memory _ p) by done.
  assert (check_registration p rk ip = PkChange true false) as ->.
  { unfold check_registration. rewrite bool_decide_false by congruence.
    rewrite !bool_decide_true, bool_decide_false by congruence. done. }
  rewrite bind_run. cbn [gets]. change (now w1) with (now w). rewrite Hr.
  rewrite bind_run, write_peer_run, bind_run. cbn [mret M_ret].
  rewrite bind_run. rewrite bind_run. unfold PeerMap.update_pk. rewrite Htok. cbn [mbind option_bind].
  rewrite Hreq. cbn [mret M_ret]. rewrite bind_run, write_peer_run.
  unfold send_rk_res, send_udp. change (mk _) with register_ok. rewrite Hb.
  split; [done|]. split; [done|]. unfold pinned. cbn.
  rewrite lookup_alter_eq, lookup_alter_eq, Hp. by eexists.
Qed.
End registration.

(** ** Punching holes *)

Section punching.
Context `{Bcrypt} `{Uuid} `{Serde} `{SqlTime} `{Jwt} `{Env} `{WireLib} `{ServerLib}.

(** Where the server has a key, a punch request without it changes nothing
    but the queue of answers: it is told [LICENSE_MISMATCH], whether the peer
    exists or not. *)
Theorem wrong_licence_refused rs b addr key ph w :
  parse b = Some (mk (U_PunchHoleRequest ph)) → key ≠ ""%string → phq_licence_key ph ≠ key →
  handle_udp rs b addr key w
  = (rs, upd_queue (λ q, q ++ [Msg (failure_response LICENSE_MISMATCH) addr (detect b)]) w).
Proof.
  intros Hb Hk Hl. unfold handle_udp. rewrite Hb. cbn [mbind option_bind union mk].
  rewrite bind_run. unfold handle_udp_punch_hole_request. rewrite bind_run.
  unfold handle_punch_hole_request. rewrite !bool_decide_false by done. done.
Qed.

Lemma get_in_memory_run id p w : pmap w !! id = Some p → PeerMap.get id w = (Some p, w).
Proof. intros Hp. destruct (get_run id w) as [(p' & Hp' & ->)|(Hn & _)]; congruence. Qed.

(** What the server passes on of a request that may go through: the message to
    the peer, on a server without a mask and without forced relays. *)
Definition passed_on (sa : bytes) (relay : string) (ph : PunchHoleRequest) : PunchHole :=
  {| ph_socket_addr := sa; ph_relay_server := relay; ph_nat_type := phq_nat_type ph;
     ph_udp_port := 0; ph_force_relay := false; ph_upnp_port := phq_upnp_port ph;
     ph_socket_addr_v6 := []; ph_control_permissions := None |}.

Lemma punch_request_run rs addr ph key p w :
  key = ""%string ∨ phq_licence_key ph = key → pmap w !! phq_id ph = Some p →
  reg_age (now w) p < REG_TIMEOUT → mask (inner rs) = None → always_use_relay w = false →
  ip (socket_addr p) ≠ ip addr →
  let w1 := upd_punch_reqs (record_punch (ip_string (ip (try_into_v4 addr)))
              (ip_string (ip (try_into_v4 (socket_addr p)))) (phq_id ph) (now w)) w in
  handle_punch_hole_request rs addr ph key false w
  = let '(relay, w2) := get_relay_server rs w1 in
    ((mk (U_PunchHole (passed_on (AddrMangle.encode (clock (wdb w2) * 1000000) addr) relay ph)),
      Some (socket_addr p), protocol p), w2).
Proof.
  intros Hlic Hp Hage Hmask Halways Hip w1. unfold handle_punch_hole_request.
  assert (negb (bool_decide (key = ""%string)) && negb (bool_decide (phq_licence_key ph = key)) = false) as ->.
  { destruct Hlic as [->| ->]; [done|]. rewrite (bool_decide_true (key = key)) by done. apply andb_false_r. }
  cbv zeta. rewrite bind_run, (get_in_memory_run _ p) by done. rewrite bind_run. cbn [gets].
  destruct (REG_TIMEOUT <=? reg_age (now w) p) eqn:E; bool_simp; [lia|].
  rewrite bind_run. cbn [modify]. fold w1. rewrite bind_run.
  assert (always_use_relay (get_relay_server rs w1).2 = false) as Ha.
  { unfold get_relay_server. destruct (relay_servers rs) as [|? [|? ?]]; exact Halways. }
  destruct (get_relay_server rs w1) as [relay w2]. cbn [snd] in Ha.
  rewrite bind_run. cbn [gets]. rewrite Ha. unfold is_lan. rewrite Hmask. cbn [xorb orb andb negb].
  rewrite bind_run. unfold mangled. cbn [gets]. rewrite bool_decide_false by done. done.
Qed.

Lemma get_relay_server_db rs w : wdb (get_relay_server rs w).2 = wdb w ∧ queue (get_relay_server rs w).2 = queue w.
Proof. unfold get_relay_server. by destruct (relay_servers rs) as [|? [|? ?]]. Qed.

(** The answer of the punched peer goes to the address its message names. *)
Lemma hole_sent_run rs phs addr w out :
  phs_version phs = ""%string →
  let to := AddrMangle.decode (phs_socket_addr phs) in
  let resp := {| phr_socket_addr := AddrMangle.encode (clock (wdb w) * 1000000) addr; phr_pk := [];
       phr_failure := 0; phr_relay_server := phs_relay_server phs;
       phr_union := match NatType_enum (phs_nat_type phs) with
                    | Some t => Some (PhrNatType (NatType_value t)) | None => None end;
       phr_other_failure := ""; phr_feedback := 0; phr_is_udp := false;
       phr_upnp_port := phs_upnp_port phs; phr_socket_addr_v6 := [] |} in
  wire_bytes (mk (U_PunchHoleResponse resp)) (PeerMap.protocol_for_addr to w).1 = Some out →
  sent (handle_hole_sent rs phs addr true w).2 = sent w ++ [SentUdp out to].
Proof.
  intros Hv to resp Hout. unfold handle_hole_sent. fold to. rewrite bind_run. unfold mangled. cbn [gets].
  rewrite bind_run. unfold get_pk. rewrite Hv.
  assert ((match sk (inner rs) with
     | Some sk => if bool_decide (""%string = ""%string) then mret []
                  else p ← PeerMap.get (phs_id phs); mret match p with Some peer => sign sk (idpk_bytes (phs_id phs) (pk peer)) | None => [] end
     | None => mret [] end : WM bytes) w = ([], w)) as E by (by destruct (sk (inner rs))).
  rewrite E. unfold answer. rewrite bind_run.
  unfold PeerMap.protocol_for_addr in *. cbn [gets fst] in *. fold resp. unfold send_udp. by rewrite Hout.
Qed.

End punching.

(** ** The loop *)

Section loop.
Context `{Bcrypt} `{Uuid} `{Serde} `{SqlTime} `{Jwt} `{Env} `{WireLib} `{ServerLib}.

Lemma get_servers_Y : get_servers "Y" = if to_socket_addrs "Y:0" then ["Y"%string] else [].
Proof.
  unfold get_servers. replace (split_on ","%char "Y") with ["Y"%string] by reflexivity.
  rewrite filter_cons, filter_nil. change (test_if_valid_server "Y") with (to_socket_addrs "Y:0").
  case_decide as E; destruct (to_socket_addrs "Y:0"); naive_solver.
Qed.

(** The console command [aur Y] switches relaying on, and also replaces the
    relay servers by what [Y] names: with no host of that name the server has
    no relay left. *)
Theorem always_use_relay_replaces_relays key rs w :
  queue w = [] →
  let '(rs', w') := io_loop key rs [EvConsole "aur Y"; EvQueue] w in
  always_use_relay w' = true ∧ queue w' = [] ∧
  relay_servers rs' = (if to_socket_addrs "Y:0" then ["Y"%string] else []).
Proof.
  intros Hq. cbn [io_loop io_loop_step]. rewrite !bind_run.
  assert (check_cmd rs "aur Y" w
          = (""%string, upd_queue (λ q, q ++ [RelayServers0 "Y"]) (upd_always_use_relay (λ _, true) w))) as ->
    by reflexivity.
  destruct w; cbn in Hq; subst; cbn. split; [done|]. split; [done|].
  apply get_servers_Y.
Qed.

(** A request to be relayed, and a request for local addresses, do not
    reach a peer that registered in Cap'n Proto: the loop takes them off the
    queue and sends nothing. *)
Theorem capnp_peer_not_reached key rs m to q w :
  queue w = Msg m to Capnp :: q →
  (∃ rf, union m = Some (U_RequestRelay rf)) ∨ (∃ la, union m = Some (U_FetchLocalAddr la)) →
  io_loop_step key rs EvQueue w = (rs, upd_queue (λ _, q) w).
Proof.
  intros Hq Hm. cbn [io_loop_step]. rewrite bind_run. cbn [gets]. rewrite Hq. rewrite bind_run. cbn [modify].
  rewrite bind_run.
  assert (serialize m Capnp = None) as ->.
  { unfold serialize, to_capnp, to_capnp_msg. by destruct Hm as [[? ->]|[? ->]]. }
  done.
Qed.
End loop.

(** ** The theorems at concrete inputs *)
Section witnesses.
#[local] Existing Instance TestBcrypt.
#[local] Existing Instance TestUuid.
#[local] Existing Instance TestSerde.
#[local] Existing Instance TestSqlTime.
#[local] Existing Instance DemoJwt.
#[local] Existing Instance TestServer.

Definition test_request : PunchHoleRequest :=
  {| phq_id := "654321"; phq_nat_type := 1; phq_licence_key := "k"; phq_conn_type := 0;
     phq_token := ""; phq_version := ""; phq_udp_port := 0; phq_force_relay := false;
     phq_upnp_port := 0; phq_socket_addr_v6 := [] |}.
Definition test_register (u k : bytes) : RegisterPk :=
  {| rk_id := "654321"; rk_uuid := u; rk_pk := k; rk_old_id := ""; rk_no_register_device := false;
     rk_user_token := "" |}.
(** Datagrams [1] and [2 :: u :: k] stand for the messages above. *)
#[local] Instance TestWire : WireLib := {
  proto3_read b := match b with
    | [1] => Some (mk (U_PunchHoleRequest test_request))
    | 2 :: u :: k => Some (mk (U_RegisterPk (test_register [u] k)))
    | _ => None end;
  proto3_write m := Some [3];
  capnp_read b := None; capnp_write c := None; capnp_segments _ := 1;
}.
#[local] Instance NoEnv : Env := TestEnv.

Definition test_a : SocketAddr := mkAddr (IpV4 10 0 0 7) 5000.
Definition test_b : SocketAddr := mkAddr (IpV4 10 0 0 9) 6000.
Definition test_peer : Peer :=
  set_guid [1] (set_registration test_b [5] [6] 0 "10.0.0.9" (default_peer 0)).
Definition test_world : World := upd_pmap <["654321"%string := test_peer]> (start 0 empty_db).

Lemma udp_keeps_identity_witness :
  pinned "654321" [5] (key_allowed test_peer test_a) (handle_udp (test_srv []) [2; 8; 8] test_a "" test_world).2.
Proof.
  apply (udp_keeps_identity (test_srv []) [2; 8; 8] test_a "" "654321" test_peer test_world); [reflexivity|done].
Defined.

Lemma tcp_register_overwrites_witness :
  pinned "654321" [8] (eq [8]) (handle_tcp (test_srv []) [2; 8; 8] None test_a "" false test_world).2.
Proof.
  apply (tcp_register_overwrites (test_srv []) [2; 8; 8] None test_a "" false
    (mk (U_RegisterPk (test_register [8] [8]))) (test_register [8] [8]) test_world); reflexivity.
Defined.

Lemma wrong_licence_refused_witness :
  handle_udp (test_srv []) [1] test_a "secret" test_world
  = (test_srv [], upd_queue (λ q, q ++ [Msg (failure_response LICENSE_MISMATCH) test_a Proto3]) test_world).
Proof.
  apply (wrong_licence_refused (test_srv []) [1] test_a "secret" test_request test_world);
    done.
Defined.


Lemma always_use_relay_replaces_relays_witness :
  let '(rs', w') := io_loop "" (test_srv ["r1.net"; "r2.net"]%string) [EvConsole "aur Y"; EvQueue] test_world in
  always_use_relay w' = true ∧ queue w' = [] ∧ relay_servers rs' = [].
Proof.
  exact (always_use_relay_replaces_relays "" (test_srv ["r1.net"; "r2.net"]%string) test_world eq_refl).
Defined.

Lemma capnp_peer_not_reached_witness :
  let m := mk (U_RequestRelay default_RequestRelay) in
  let w := upd_queue (λ _, [Msg m test_b Capnp]) test_world in
  io_loop_step "" (test_srv []) EvQueue w = (test_srv [], upd_queue (λ _, []) w).
Proof.
  apply (capnp_peer_not_reached "" (test_srv []) (mk (U_RequestRelay default_RequestRelay)) test_b []
    (upd_queue (λ _, [Msg (mk (U_RequestRelay default_RequestRelay)) test_b Capnp]) test_world));
    [reflexivity|left; by eexists].
Defined.
End witnesses.

Section token_witness.
#[local] Existing Instance TestBcrypt.
#[local] Existing Instance TestUuid.
#[local] Existing Instance TestSerde.
#[local] Existing Instance TestSqlTime.
#[local] Existing Instance DemoJwt.
#[local] Existing Instance TestServer.
#[local] Existing Instance TestWire.
#[local] Instance JwtEnv : Env := λ v, if bool_decide (v = "REQUIRE_PEER_JWT"%string) then Some "1"%string else None.

Lemma udp_register_ok_although_refused_witness :
  let w' := (udp_register_pk (test_register [5] [7]) test_b Proto3 test_world).2 in
  sent w' = [SentUdp [3] test_b] ∧ wdb w' = empty_db ∧ pinned "654321" [5] (eq [6]) w'.
Proof.
  apply (udp_register_ok_although_refused (test_register [5] [7]) test_b Proto3 test_world test_peer [3]);
    solve [reflexivity | done | cbn; lia | by eexists].
Defined.
End token_witness.
