(* ===== verification/ClientServer.v ===== *)
(** * The client and the rendezvous server together

    A handler that answers the questions of the client's tasks ([ClientIo])
    with the model of hbbs ([Rendezvous]): what a task sends on a connection is
    handled by [handle_tcp], and what the server answers on it is the next
    frame.  Theorems: a registration puts the client online and the peer in the
    memory of the server; a request for a peer that cannot be reached comes
    back as a tunnel; the detected type of the NAT compares the ports of two
    different connections; the notice for the exit node of a proxied
    connection reaches nobody; hbbr refuses the handshake of the client. *)
From Stdlib Require Import Ascii.
From S2P Require Import Prelude AddrMangle Text TextFacts HostText Auth Proto RendezvousCodec Database Instances Keys Relay Peer Rendezvous RendezvousSpec ClientConfig ClientConfigSpec Programs ClientIo KcpTunnel PortForward Socks5 Mediator Socks5Spec.
Local Open Scope Z_scope.

(** A connection of the client as the server has it: its address, the sink and
    whether it is still read; and what the client has not read yet. *)
Record JConn : Type := mkJConn {
  jc_addr : SocketAddr;
  jc_sink : option Sink;
  jc_open : bool;
  jc_inbox : list bytes;
}.
(** The client's state and the server's.  The [n]-th connection comes from the
    address [j_addrs n]; [j_ticks] is how often the timer goes off. *)
Record Joint : Type := mkJoint {
  j_store : Store;
  j_flags : Flag → bool;
  j_clock : Instant;
  j_unix : Z;
  j_ticks : nat;
  j_server : World;
  j_conns : list JConn;
  j_addrs : nat → SocketAddr;
  j_port : Z;
  j_spawned : list SpawnedTask;
}.
Definition j_set_store (f : Store → Store) (j : Joint) : Joint :=
  mkJoint (f (j_store j)) (j_flags j) (j_clock j) (j_unix j) (j_ticks j) (j_server j) (j_conns j)
    (j_addrs j) (j_port j) (j_spawned j).
Definition j_set_flag (fl : Flag) (b : bool) (j : Joint) : Joint :=
  mkJoint (j_store j) (λ f, if decide (f = fl) then b else j_flags j f) (j_clock j) (j_unix j) (j_ticks j)
    (j_server j) (j_conns j) (j_addrs j) (j_port j) (j_spawned j).
Definition j_tick (n : nat) (j : Joint) : Joint :=
  mkJoint (j_store j) (j_flags j) (j_clock j + millis 500) (j_unix j) n (j_server j) (j_conns j)
    (j_addrs j) (j_port j) (j_spawned j).
Definition j_set_server (w : World) (cs : list JConn) (j : Joint) : Joint :=
  mkJoint (j_store j) (j_flags j) (j_clock j) (j_unix j) (j_ticks j) w cs
    (j_addrs j) (j_port j) (j_spawned j).
Definition j_spawn (t : SpawnedTask) (j : Joint) : Joint :=
  mkJoint (j_store j) (j_flags j) (j_clock j) (j_unix j) (j_ticks j) (j_server j) (j_conns j)
    (j_addrs j) (j_port j) (j_spawned j ++ [t]).

Section joint.
Context `{Bcrypt} `{Uuid} `{Serde} `{SqlTime} `{Jwt} `{Env} `{WireLib} `{ServerLib} `{UrlBase64} `{KeyLib} `{TomlLib}.
Context (rs : Srv) (key : string).

Definition push_frame (b : bytes) (jc : JConn) : JConn :=
  mkJConn (jc_addr jc) (jc_sink jc) (jc_open jc) (jc_inbox jc ++ [b]).
Definition deliver (out : list Sent) (cs : list JConn) : list JConn :=
  foldl (λ cs s, match s with
                 | SentTcp b (TcpStream c) => alter (push_frame b) (Z.to_nat c) cs
                 | _ => cs
                 end) cs out.
(** The server handles a frame of connection [c]. *)
Definition server_receives (c : nat) (b : bytes) (j : Joint) : Joint :=
  match j_conns j !! c with
  | Some jc =>
    if jc_open jc then
      let '(r, w) := handle_tcp rs b (jc_sink jc) (jc_addr jc) key false (j_server j) in
      j_set_server w (deliver (drop (length (sent (j_server j))) (sent w))
        (<[c := mkJConn (jc_addr jc) r.2 r.1 (jc_inbox jc)]> (j_conns j))) j
    else j
  | None => j
  end.
(** The next frame of connection [c], if any; [None] when none has come. *)
Definition pop_frame (c : nat) (j : Joint) : option (Recv * Joint) :=
  match j_conns j !! c with
  | Some jc =>
    match jc_inbox jc with
    | b :: l => Some (Frame b, j_set_server (j_server j)
                  (<[c := mkJConn (jc_addr jc) (jc_sink jc) (jc_open jc) l]> (j_conns j)) j)
    | [] => if jc_open jc then None else Some (Ended, j)
    end
  | None => Some (Broken, j)
  end.

Definition joint_handler : Handler Net Joint := λ X e j,
  match e in Net X return option (X * Joint) with
  | GetStore => Some (j_store j, j)
  | PutStore f => Some (tt, j_set_store f j)
  | GetFlag f => Some (j_flags j f, j)
  | SetFlag f b => Some (tt, j_set_flag f b j)
  | UnixNow => Some (j_unix j, j)
  | Clock => Some (j_clock j, j)
  | ConnectTcp _ =>
    let c := length (j_conns j) in
    Some (Some (c, j_addrs j c),
      j_set_server (j_server j)
        (j_conns j ++ [mkJConn (j_addrs j c) (Some (TcpStream (Z.of_nat c))) true []]) j)
  | SendBytes c b => Some (true, server_receives c b j)
  | NextFrame c ms =>
    match pop_frame c j, ms with
    | Some r, _ => Some r
    | None, Some _ => Some (TimedOut, j)
    | None, None => None
    end
  | Select c =>
    match pop_frame c j, j_ticks j with
    | Some (r, j), _ => Some (Some r, j)
    | None, S n => Some (None, j_tick n j)
    | None, O => None
    end
  | Bind _ => Some (Some (O, j_port j), j)
  | BindUdp => Some (None, j)
  | Spawn t => Some (tt, j_spawn t j)
  | _ => None
  end.

(** ** What the server does with a registration *)

Lemma parse_proto3 `{!WireLaws} m b : proto3_write m = Some b → detect b = Proto3 ∧ parse b = Some m.
Proof.
  intros Hw. unfold parse, detect. rewrite bool_decide_eq_false_2 by (by eapply proto3_first).
  split; [done|]. by apply proto3_read_write.
Qed.
Definition answer_ok : RendezvousMessage :=
  mk (U_RegisterPkResponse {| rkr_result := RegisterResult_value OK; rkr_keep_alive := 0 |}).

(** Nothing is sent while a peer is looked up or committed. *)
Lemma silent_get_or l id : keeps (λ w, sent w = l) (PeerMap.get_or id).
Proof. unfold PeerMap.get_or, PeerMap.get, PeerMap.get_in_memory. keeps_world; intros; assumption. Qed.
Lemma silent_update_pk l id addr u k ip tok : keeps (λ w, sent w = l) (PeerMap.update_pk id addr u k ip tok).
Proof.
  unfold PeerMap.update_pk, PeerMap.commit_pk, PeerMap.save_peer, PeerMap.validate_peer_token.
  keeps_world; intros; assumption.
Qed.

Lemma update_pk_pins id addr u k i w res w1 :
  PeerMap.require_jwt = false → PeerMap.update_pk id addr u k i None (PeerMap.get_or id w).2 = (res, w1) →
  sent w1 = sent w ∧ pinned id u (eq k) w1.
Proof.
  intros Hreq Hup. assert (sent (PeerMap.get_or id w).2 = sent w) as Hs by (by apply (silent_get_or (sent w) id w)).
  assert (is_Some (pmap (PeerMap.get_or id w).2 !! id)) as Hin.
  { destruct (get_or_run id w) as [(p & Hp & ->)|(Hn & d & p & ->)]; [by eexists|].
    cbn. rewrite lookup_insert_eq. by eexists. }
  pose proof (silent_update_pk _ id addr u k i None _ Hs) as Hs1. rewrite Hup in Hs1.
  split; [done|]. unfold PeerMap.update_pk in Hup. cbn [mbind option_bind] in Hup. rewrite Hreq in Hup.
  pose proof (commit_pk_writes id addr u k i _ Hin) as Hpin. by rewrite Hup in Hpin.
Qed.

Lemma server_registers rk b s a w w1 b' :
  parse b = Some (mk (U_RegisterPk rk)) →
  PeerMap.require_jwt = false → PeerMap.non_blank (rk_user_token rk) = None →
  PeerMap.update_pk (rk_id rk) a (rk_uuid rk) (rk_pk rk) (ip_string (ip a)) None
    (PeerMap.get_or (rk_id rk) w).2 = (OK, w1) →
  wire_bytes answer_ok (detect b) = Some b' →
  let r := handle_tcp rs b (Some s) a key false w in
  r.1 = (true, Some s) ∧ sent r.2 = sent w ++ [SentTcp b' s] ∧ pinned (rk_id rk) (rk_uuid rk) (eq (rk_pk rk)) r.2.
Proof.
  intros Hb Hreq Htok Hup Hb'. cbv zeta. destruct (update_pk_pins _ _ _ _ _ _ _ _ Hreq Hup) as [Hs Hpin].
  unfold handle_tcp. rewrite Hb. cbn [union mk]. rewrite bind_run. unfold tcp_register_pk. rewrite Htok.
  rewrite bind_run. destruct (PeerMap.get_or (rk_id rk) w) as [q w0] eqn:Eg. cbn [snd] in Hup.
  rewrite bind_run, Hup. unfold send_to_sink. fold answer_ok.
  rewrite bind_run, (write_peer_run (rk_id rk)). rewrite Hb'. unfold emit, modify.
  cbn. rewrite Hs. split_and!; [done|done|].
  apply (pinned_write (rk_id rk) (rk_uuid rk) (eq (rk_pk rk)) (rk_id rk) (set_protocol (detect b)) ltac:(by split) w1 Hpin).
Qed.

(** ** Registration *)

(** The request the client registers with. *)
Definition own_registration (st : Store) : RegisterPk :=
  {| rk_id := get_id st; rk_uuid := get_uuid_bytes st; rk_pk := (get_key_pair st).2; rk_old_id := "";
     rk_no_register_device := false; rk_user_token := "" |}.

(** One answer on the connection that asked. *)
Lemma server_receives_answer c b j a s inbox go sink w b' :
  j_conns j !! c = Some (mkJConn a (Some s) true inbox) → s = TcpStream (Z.of_nat c) →
  handle_tcp rs b (Some s) a key false (j_server j) = ((go, sink), w) →
  sent w = sent (j_server j) ++ [SentTcp b' s] →
  let j' := server_receives c b j in
  j_conns j' !! c = Some (mkJConn a sink go (inbox ++ [b'])) ∧ j_server j' = w ∧
  j_conns j' = alter (push_frame b') c (<[c := mkJConn a sink go inbox]> (j_conns j)) ∧
  j' = j_set_server w (j_conns j') j.
Proof.
  intros Hc -> Hh Hs. cbv zeta. unfold server_receives. rewrite Hc. cbn [jc_open jc_sink jc_addr jc_inbox].
  rewrite Hh, Hs, drop_app_length. cbn [deliver foldl fst snd]. rewrite Nat2Z.id. cbn [j_set_server j_conns j_server].
  split_and!; try done. rewrite list_lookup_alter_eq, list_lookup_insert_eq; [done|]. apply lookup_lt_Some in Hc. exact Hc.
Qed.

Ltac run_steps := cbn [mbind Prog_bind prog_bind mret Prog_ret fmap Prog_fmap run ask joint_handler fst snd].

Lemma registration_bytes `{!WireLaws} rk p b :
  wire_bytes (mk (U_RegisterPk rk)) p = Some b → detect b = Proto3 ∧ parse b = Some (mk (U_RegisterPk rk)).
Proof.
  intros Hb. apply parse_proto3. destruct p; [|exact Hb]. unfold wire_bytes, serialize in Hb. case_match; congruence.
Qed.
Lemma elapsed_nonneg_ms now t : 0 <= as_millis (elapsed now t).
Proof. unfold as_millis. apply Z.div_pos; [apply elapsed_nonneg|lia]. Qed.

(** The first tick of a client whose key is not confirmed. *)
Lemma run_first_tick rz c last j b :
  j_flags j SHOULD_EXIT = false → as_millis (elapsed (j_clock j) last) <= 22500 →
  get_key_confirmed (j_store j) = false → get_auth_token (j_unix j) (j_store j) = None →
  wire_bytes (mk (U_RegisterPk (own_registration (j_store j)))) (rz_wire rz) = Some b →
  run joint_handler (on_tick rz c (mkTimers None last)) j =
  (Finished (Ok (Some (mkTimers (Some (j_clock (server_receives c b j))) last))), server_receives c b j).
Proof.
  intros Hexit Hel Hkey Htok Hb. unfold on_tick, config, store. run_steps. rewrite Hexit. run_steps.
  cbn [last_recv_msg last_register_sent]. rewrite (proj2 (Z.ltb_ge 22500 _)) by done. run_steps.
  rewrite Hkey. cbn [negb orb]. rewrite Z.leb_refl.
  unfold register_pk, config, store, try_bind, send_rendezvous, ensure. run_steps. rewrite Htok. cbn [default from_option].
  unfold own_registration in Hb. rewrite Hb. run_steps. reflexivity.
Qed.

(** The answer to a registration. *)
Lemma run_answer rz c b' t j :
  b' ≠ [] → parse b' = Some answer_ok →
  let r := run joint_handler (on_frame rz c (Frame b') t) j in
  r.1 = Finished (Ok (mkTimers (last_register_sent t) (j_clock j))) ∧
  j_flags r.2 ONLINE = true ∧ get_key_confirmed (j_store r.2) = true ∧
  get_host_key_confirmed (rz_host_prefix rz) (j_store r.2) = true ∧
  j_server r.2 = j_server j ∧ j_conns r.2 = j_conns j ∧ j_ticks r.2 = j_ticks j.
Proof.
  intros Hne Hp. cbv zeta. unfold on_frame. run_steps. destruct b' as [|x b']; [done|]. rewrite Hp.
  unfold try_bind, handle_msg, answer_ok. cbn [union mk rkr_result].
  change (RegisterResult_enum (RegisterResult_value OK)) with (Some OK). run_steps. unfold spawn_detection. run_steps.
  assert (∀ st, get_key_confirmed (set_host_key_confirmed (rz_host_prefix rz) true (set_key_confirmed_ true st)) = true) as Hk.
  { intros st. unfold get_key_confirmed, set_host_key_confirmed, set_key_confirmed_. by rewrite !update_CONFIG. }
  assert (∀ st, get_host_key_confirmed (rz_host_prefix rz) (set_host_key_confirmed (rz_host_prefix rz) true st) = true) as Hh.
  { intros st. unfold get_host_key_confirmed, set_host_key_confirmed. rewrite update_CONFIG. cbn. by rewrite lookup_insert_eq. }
  destruct (j_flags _ NAT_DETECTED); run_steps; split_and!; try done; try apply Hk; try apply Hh.
Qed.

(** C26. A client that is not logged in and whose key is not confirmed comes online:
    at the first tick it sends its registration, the server takes it (the row
    is saved), and its answer makes the client online and its key confirmed,
    while the server has the client's uuid and key under its id. *)
Theorem registration_goes_online `{!WireLaws} rz c last j a s b b' w1 :
  j_conns j !! c = Some (mkJConn a (Some s) true []) → s = TcpStream (Z.of_nat c) →
  j_ticks j = 1%nat → j_flags j SHOULD_EXIT = false → as_millis (elapsed (j_clock j + millis 500) last) <= 22500 →
  get_key_confirmed (j_store j) = false → get_auth_token (j_unix j) (j_store j) = None →
  wire_bytes (mk (U_RegisterPk (own_registration (j_store j)))) (rz_wire rz) = Some b →
  wire_bytes answer_ok Proto3 = Some b' → b' ≠ [] →
  PeerMap.require_jwt = false →
  PeerMap.update_pk (get_id (j_store j)) a (get_uuid_bytes (j_store j)) (get_key_pair (j_store j)).2 (ip_string (ip a)) None
    (PeerMap.get_or (get_id (j_store j)) (j_server j)).2 = (OK, w1) →
  let r := run joint_handler (mediator_loop 3 rz c (mkTimers None last)) j in
  r.1 = Waiting ∧ j_flags r.2 ONLINE = true ∧ get_key_confirmed (j_store r.2) = true ∧
  get_host_key_confirmed (rz_host_prefix rz) (j_store r.2) = true ∧
  pinned (get_id (j_store j)) (get_uuid_bytes (j_store j)) (eq (get_key_pair (j_store j)).2) (j_server r.2).
Proof.
  intros Hc -> Ht Hexit Hel Hkey Htok Hb Hb' Hne Hreq Hup. cbv zeta.
  enough (∃ j4, run joint_handler (mediator_loop 3 rz c (mkTimers None last)) j = (Waiting, j4) ∧
    j_flags j4 ONLINE = true ∧ get_key_confirmed (j_store j4) = true ∧
    get_host_key_confirmed (rz_host_prefix rz) (j_store j4) = true ∧
    pinned (get_id (j_store j)) (get_uuid_bytes (j_store j)) (eq (get_key_pair (j_store j)).2) (j_server j4))
    as (j4 & -> & ?) by done.
  destruct (registration_bytes _ _ _ Hb) as [Hdet Hparse].
  assert (pop_frame c j = None) as Hpop by (unfold pop_frame; by rewrite Hc).
  cbn [mediator_loop]. run_steps. rewrite Hpop, Ht. run_steps.
  set (j1 := j_tick 0 j).
  rewrite (run_try _ _ _ _ _ _ (run_first_tick rz c last j1 b Hexit Hel Hkey Htok Hb)).
  destruct (server_registers (own_registration (j_store j)) b (TcpStream (Z.of_nat c)) a (j_server j) w1 b')
    as (Hr & Hsent & Hpin); [done|done|done|done|by rewrite Hdet|].
  destruct (handle_tcp rs b (Some (TcpStream (Z.of_nat c))) a key false (j_server j)) as [r w2] eqn:Eh. cbn [fst snd] in *. subst r.
  destruct (server_receives_answer c b j1 a _ [] true _ w2 b' Hc eq_refl Eh Hsent) as (Hc2 & Hw2 & _ & Ej2).
  set (j2 := server_receives c b j1) in *. clearbody j2. cbn [app] in Hc2.
  run_steps. unfold pop_frame. rewrite Hc2. cbn [jc_inbox]. run_steps.
  assert (parse b' = Some answer_ok) as Hp'.
  { apply parse_proto3. unfold wire_bytes, serialize in Hb'. case_match; congruence. }
  set (j3 := j_set_server _ _ j2).
  pose proof (run_answer rz c b' (mkTimers (Some (j_clock j2)) last) j3 Hne Hp') as (Hr & Ho & Hk & Hh & Hsv & Hcs & Hti).
  destruct (run joint_handler (on_frame rz c (Frame b') (mkTimers (Some (j_clock j2)) last)) j3) as [r4 j4] eqn:E4.
  cbn [fst snd] in *. subst r4. rewrite (run_try _ _ _ _ _ _ E4). cbn [mediator_loop]. run_steps.
  assert (pop_frame c j4 = None) as Hpop4.
  { unfold pop_frame. rewrite Hcs. cbn [j_conns j3 j_set_server]. rewrite list_lookup_insert_eq; [done|].
    by apply lookup_lt_Some in Hc2. }
  assert (j_ticks j3 = 0%nat) as Ht3 by (subst j3; cbn [j_ticks j_set_server]; by rewrite Ej2).
  rewrite Hpop4, Hti, Ht3. run_steps. exists j4. split_and!; try done.
  rewrite Hsv. cbn [j_server j3 j_set_server]. by rewrite Hw2.
Qed.

(** ** Staying registered *)

Lemma answer_bytes m b : wire_bytes m Proto3 = Some b → proto3_write m = Some b.
Proof. unfold wire_bytes, serialize. case_match; congruence. Qed.

Definition heartbeat (st : Store) : RendezvousMessage := mk (U_RegisterPeer {| rp_id := get_id st; rp_serial := 0 |}).
Definition heartbeat_ok : RendezvousMessage := mk (U_RegisterPeerResponse {| rpr_request_pk := false |}).

(** The server has the client, with its key and from this address. *)
Definition known_at (id : string) (a : SocketAddr) (w : World) : Prop :=
  ∃ p, pmap w !! id = Some p ∧ pk p ≠ [] ∧ ip (socket_addr p) = ip a.

Lemma server_keeps_alive st b s a w b' :
  parse b = Some (heartbeat st) → detect b = Proto3 → get_id st ≠ ""%string →
  known_at (get_id st) a w → wire_bytes heartbeat_ok Proto3 = Some b' →
  let r := handle_tcp rs b (Some s) a key false w in
  r.1 = (true, Some s) ∧ sent r.2 = sent w ++ [SentTcp b' s] ∧ known_at (get_id st) a r.2.
Proof.
  intros Hb Hdet Hid (p & Hp & Hpk & Hip) Hb'. cbv zeta. unfold handle_tcp. rewrite Hb. cbn [union mk heartbeat rp_id].
  rewrite bool_decide_eq_false_2 by done. unfold tcp_register_peer, PeerMap.get_in_memory. cbn [rp_id].
  rewrite Hdet. run_monad. rewrite Hp, Hip, (bool_decide_eq_true_2 (ip a = ip a)), (bool_decide_eq_false_2 (pk p = [])) by done.
  cbn [negb]. rewrite andb_false_r. cbn [andb orb negb]. run_monad. unfold send_to_sink.
  rewrite write_peer_run. fold heartbeat_ok. rewrite Hb'.
  split_and!; [reflexivity|reflexivity|].
  exists (set_seen a (now w) Proto3 p). cbn. rewrite lookup_alter_eq, Hp. split_and!; done.
Qed.

(** The client is registered on the open connection [c]. *)
Record registered (rz : Mediator) (c : nat) (a : SocketAddr) (j : Joint) : Prop := {
  rg_conn : j_conns j !! c = Some (mkJConn a (Some (TcpStream (Z.of_nat c))) true []);
  rg_flags : j_flags j SHOULD_EXIT = false ∧ j_flags j NAT_DETECTED = true;
  rg_keys : get_key_confirmed (j_store j) = true ∧ get_host_key_confirmed (rz_host_prefix rz) (j_store j) = true;
  rg_known : known_at (get_id (j_store j)) a (j_server j);
}.

(** A tick that is due, and the answer. *)
Lemma run_heartbeat `{!WireLaws} fuel rz c a t j n b b' :
  registered rz c a j → j_ticks j = S n → last_register_sent t = None →
  as_millis (elapsed (j_clock j + millis 500) (last_recv_msg t)) <= 22500 →
  rz_wire rz = Proto3 → get_id (j_store j) ≠ ""%string →
  wire_bytes (heartbeat (j_store j)) Proto3 = Some b → wire_bytes heartbeat_ok Proto3 = Some b' → b' ≠ [] →
  ∃ j', run joint_handler (mediator_loop (S (S fuel)) rz c t) j =
        run joint_handler (mediator_loop fuel rz c (mkTimers None (j_clock j'))) j' ∧
    registered rz c a j' ∧ j_ticks j' = n ∧ j_store j' = j_store j ∧ j_flags j' ONLINE = true ∧
    sent (j_server j') = sent (j_server j) ++ [SentTcp b' (TcpStream (Z.of_nat c))].
Proof.
  intros [Hc [Hexit Hnat] [Hk Hhk] Hknown] Ht Hlast Hel Hwire Hid Hb Hb' Hne.
  destruct (parse_proto3 _ _ (answer_bytes _ _ Hb)) as [Hdet Hparse].
  destruct (parse_proto3 _ _ (answer_bytes _ _ Hb')) as [_ Hparse'].
  assert (pop_frame c j = None) as Hpop by (unfold pop_frame; by rewrite Hc).
  cbn [mediator_loop]. run_steps. rewrite Hpop, Ht. run_steps. set (j1 := j_tick n j).
  destruct (server_keeps_alive (j_store j) b (TcpStream (Z.of_nat c)) a (j_server j) b' Hparse Hdet Hid Hknown Hb')
    as (Hr & Hsent & Hkn).
  destruct (handle_tcp rs b (Some (TcpStream (Z.of_nat c))) a key false (j_server j)) as [r w2] eqn:Eh. cbn [fst snd] in *. subst r.
  destruct (server_receives_answer c b j1 a _ [] true _ w2 b' Hc eq_refl Eh Hsent) as (Hc2 & Hw2 & _ & Ej2).
  assert (run joint_handler (on_tick rz c t) j1 =
    (Finished (Ok (Some (mkTimers (Some (j_clock (server_receives c b j1))) (last_recv_msg t)))), server_receives c b j1)) as Etick.
  { unfold on_tick, config, store. run_steps. change (j_flags j1) with (j_flags j). rewrite Hexit. run_steps.
    rewrite (proj2 (Z.ltb_ge 22500 _)) by done. run_steps. change (j_store j1) with (j_store j). rewrite Hk, Hhk, Hlast.
    cbn [negb orb]. rewrite Z.leb_refl. unfold register_peer, config, store, try_bind, send_rendezvous, ensure. run_steps.
    fold (heartbeat (j_store j1)). change (j_store j1) with (j_store j). rewrite Hwire, Hb. run_steps. reflexivity. }
  rewrite (run_try _ _ _ _ _ _ Etick). set (j2 := server_receives c b j1) in *. clearbody j2. cbn [app] in Hc2.
  cbn [mediator_loop]. run_steps. unfold pop_frame. rewrite Hc2. cbn [jc_inbox]. run_steps.
  set (j3 := j_set_server _ _ j2).
  assert (run joint_handler (on_frame rz c (Frame b') (mkTimers (Some (j_clock j2)) (last_recv_msg t))) j3 =
    (Finished (Ok (mkTimers None (j_clock j3))), j_set_flag ONLINE true j3)) as Eframe.
  { unfold on_frame. run_steps. destruct b' as [|x b']; [done|]. rewrite Hparse'. unfold try_bind, handle_msg, heartbeat_ok.
    cbn [union mk rpr_request_pk]. unfold spawn_detection. run_steps.
    assert (j_flags (j_set_flag ONLINE true j3) NAT_DETECTED = true) as ->.
    { cbn [j_set_flag j_flags]. case_decide; [done|]. subst j3. cbn [j_set_server j_flags]. rewrite Ej2. exact Hnat. }
    run_steps. reflexivity. }
  rewrite (run_try _ _ _ _ _ _ Eframe).
  assert (j_store j2 = j_store j ∧ j_flags j2 = j_flags j ∧ j_ticks j2 = n) as (Es & Ef & En).
  { rewrite Ej2. done. }
  exists (j_set_flag ONLINE true j3). split; [reflexivity|]. split_and!.
  - constructor; cbn [j_set_flag j_conns j_flags j_store j_server j3 j_set_server].
    + rewrite list_lookup_insert_eq; [done|]. by apply lookup_lt_Some in Hc2.
    + rewrite Ef. done.
    + rewrite Es. done.
    + by rewrite Es, Hw2.
  - done.
  - done.
  - done.
  - cbn [j_set_flag j_server j3 j_set_server]. by rewrite Hw2.
Qed.

(** A registered client stays online, and the server knows it; but it speaks
    to the server at every tick of its timer, twice a second, and not every
    fifteen seconds: each answer forgets when the client last spoke. *)
Theorem client_speaks_every_tick `{!WireLaws} n rz c a t j b b' :
  registered rz c a j → j_ticks j = n → last_register_sent t = None →
  as_millis (elapsed (j_clock j + millis 500) (last_recv_msg t)) <= 22500 →
  rz_wire rz = Proto3 → get_id (j_store j) ≠ ""%string →
  wire_bytes (heartbeat (j_store j)) Proto3 = Some b → wire_bytes heartbeat_ok Proto3 = Some b' → b' ≠ [] →
  let r := run joint_handler (mediator_loop (S (n + n)) rz c t) j in
  r.1 = Waiting ∧ registered rz c a r.2 ∧ (0 < n → j_flags r.2 ONLINE = true)%nat ∧
  sent (j_server r.2) = sent (j_server j) ++ replicate n (SentTcp b' (TcpStream (Z.of_nat c))).
Proof.
  intros Hreg Ht Hlast Hel Hwire Hid Hb Hb' Hne.
  enough (∀ on : bool, j_flags j ONLINE = true ∨ on = false →
    ∃ j', run joint_handler (mediator_loop (S (n + n)) rz c t) j = (Waiting, j') ∧
    registered rz c a j' ∧ (on = true ∨ 0 < n → j_flags j' ONLINE = true)%nat ∧
    sent (j_server j') = sent (j_server j) ++ replicate n (SentTcp b' (TcpStream (Z.of_nat c)))) as Hw.
  { destruct (Hw false) as (j' & -> & ?); [by right|]. naive_solver. }
  revert t j Hreg Ht Hlast Hel Hid Hb. induction n as [|m IH]; intros t j Hreg Ht Hlast Hel Hid Hb on Hon.
  - exists j. cbn [Nat.add mediator_loop replicate]. run_steps. unfold pop_frame.
    rewrite (rg_conn _ _ _ _ Hreg), Ht, app_nil_r. run_steps. split_and!; [done|done| |done]. intros [->|?]; [|lia]. naive_solver.
  - replace (S (S m + S m)) with (S (S (S (m + m)))) by lia.
    destruct (run_heartbeat (S (m + m)) rz c a t j m b b') as (j' & -> & Hreg' & Ht' & Hs' & Hon' & Hsent'); try done.
    destruct (IH (mkTimers None (j_clock j')) j' Hreg' Ht' eq_refl) with (on := true)
      as (j2 & -> & Hreg2 & Hon2 & Hsent2); rewrite ?Hs'; try done; [|by left|].
    + cbn [last_recv_msg]. unfold elapsed, as_millis, millis.
      replace (Z.max 0 _) with 500000000 by lia. done.
    + exists j2. split_and!; [done|done|intros _; apply Hon2; by left|].
      rewrite Hsent2, Hsent'. by rewrite <- app_assoc.
Qed.

(** ** The type of the NAT *)

Lemma client_bytes m p b :
  to_capnp_msg m = None → wire_bytes m p = Some b → proto3_write m = Some b.
Proof.
  intros Hc. unfold wire_bytes, serialize, to_capnp. rewrite Hc. destruct p; [|done]. case_match; congruence.
Qed.

(** What the server says of the address of a connection. *)
Definition nat_answer (a : SocketAddr) : RendezvousMessage :=
  nat_response a (if 0 <? serial (inner rs) then Some (config_update rs) else None).
Definition nat_request : RendezvousMessage := mk (U_TestNatRequest {| tnq_serial := 0 |}).

Lemma run_query_nat `{!WireLaws} host wire j b b' :
  let a := j_addrs j (length (j_conns j)) in
  wire_bytes nat_request wire = Some b → wire_bytes (nat_answer a) Proto3 = Some b' →
  ∃ j', run joint_handler (query_nat_port host wire) j = (Finished (Ok (port a)), j') ∧
        j_addrs j' = j_addrs j ∧ length (j_conns j') = S (length (j_conns j)).
Proof.
  cbv zeta. intros Hb Hb'. set (c := length (j_conns j)) in *. set (a := j_addrs j c) in *.
  destruct (parse_proto3 _ _ (client_bytes nat_request wire b eq_refl Hb)) as [Hdet Hparse].
  destruct (parse_proto3 _ _ (answer_bytes _ _ Hb')) as [_ Hparse'].
  unfold query_nat_port, send_rendezvous, or_else, ensure, try_bind. run_steps.
  unfold nat_request in Hb. rewrite Hb. run_steps.
  set (j1 := j_set_server _ _ j).
  assert (j_conns j1 !! c = Some (mkJConn a (Some (TcpStream (Z.of_nat c))) true [])) as Hc.
  { subst j1. cbn [j_conns j_set_server]. by rewrite lookup_app_r, Nat.sub_diag by lia. }
  assert (handle_tcp rs b (Some (TcpStream (Z.of_nat c))) a key false (j_server j1) =
    ((false, Some (TcpStream (Z.of_nat c))), upd_sent (λ l, l ++ [SentTcp b' (TcpStream (Z.of_nat c))]) (j_server j1))) as Hh.
  { unfold handle_tcp. rewrite Hparse. cbn [union mk nat_request]. rewrite Hdet. run_monad. unfold send_to_sink.
    cbn [tnq_serial]. fold (nat_answer a). rewrite Hb'. reflexivity. }
  destruct (server_receives_answer c b j1 a _ [] false _ _ b' Hc eq_refl Hh eq_refl) as (Hc2 & _ & Hcs & Ej).
  fold c. set (j2 := server_receives c b j1) in *. clearbody j2.
  unfold pop_frame. rewrite Hc2. cbn [jc_inbox app]. run_steps. rewrite Hparse'. cbn [union mk nat_answer nat_response].
  eexists. split; [reflexivity|]. cbn [j_set_server j_addrs j_conns tnr_port].
  rewrite length_insert, Hcs, length_alter, length_insert. subst j1. cbn [j_conns j_set_server].
  rewrite length_app. split; [by rewrite Ej|cbn; lia].
Qed.

(** The client takes its NAT for symmetric whenever two connections it makes
    one after the other come from different ports, as two sockets do without
    any NAT; for asymmetric only if they come from the same one. *)
Theorem nat_type_compares_two_sockets `{!WireLaws} host wire j b b1 b2 :
  let n := length (j_conns j) in
  let a1 := j_addrs j n in let a2 := j_addrs j (S n) in
  0 < port a1 → 0 < port a2 →
  wire_bytes nat_request wire = Some b → wire_bytes (nat_answer a1) Proto3 = Some b1 →
  wire_bytes (nat_answer a2) Proto3 = Some b2 →
  let r := run joint_handler (detect_nat_type host wire) j in
  r.1 = Finished tt ∧ j_flags r.2 NAT_DETECTED = true ∧
  get_nat_type (j_store r.2) = (if port a1 =? port a2 then 1 else 2).
Proof.
  cbv zeta. intros Hp1 Hp2 Hb Hb1 Hb2. unfold detect_nat_type, detect_nat_type_inner.
  destruct (run_query_nat host wire j b b1 Hb Hb1) as (j1 & Hr1 & Ha1 & Hl1).
  assert (∃ j2, run joint_handler (query_nat_port host wire) j1 =
    (Finished (Ok (port (j_addrs j (S (length (j_conns j)))))), j2)) as (j2 & Hr2).
  { destruct (run_query_nat host wire j1 b b2 Hb) as (j2 & Hr2 & _).
    - by rewrite Ha1, Hl1.
    - exists j2. by rewrite Ha1, Hl1 in Hr2. }
  rewrite run_bind, (run_try _ _ _ _ _ _ Hr1), (run_try _ _ _ _ _ _ Hr2). run_steps.
  rewrite !(proj2 (Z.ltb_lt 0 _)) by done. cbn [andb].
  split_and!; [done|done|]. unfold get_nat_type, set_nat_type_. cbn [j_store j_set_flag j_set_store].
  by rewrite update_CONFIG.
Qed.

(** ** A peer that cannot be reached *)

Definition own_request (st : Store) (peer_id : string) : PunchHoleRequest :=
  {| phq_id := peer_id; phq_nat_type := NatType_value UNKNOWN_NAT; phq_licence_key := "";
     phq_conn_type := 0; phq_token := get_id st; phq_version := ""; phq_udp_port := 0;
     phq_force_relay := false; phq_upnp_port := 0; phq_socket_addr_v6 := [] |}.

(** The client does not look at the failure in the answer to its request: a
    peer that is unknown, offline or refused for the lack of a licence key
    gives a local port as if it were connected, and what connects to that port
    is sent to the address [0.0.0.0:0]. *)
Theorem unreachable_peer_gives_port `{!WireLaws} fuel peer_id local_port j server rest b b' f w1 :
  let c := length (j_conns j) in let a := j_addrs j c in let s := TcpStream (Z.of_nat c) in
  get_rendezvous_servers (j_store j) = server :: rest →
  wire_bytes (mk (U_PunchHoleRequest (own_request (j_store j) peer_id)))
    (get_rendezvous_wire_protocol (j_store j)) = Some b →
  wire_bytes (failure_response f) Proto3 = Some b' →
  handle_punch_hole_request rs a (own_request (j_store j) peer_id) key false (park (Some s) a Proto3 (j_server j)).2
  = ((failure_response f, None, Proto3), w1) →
  sent w1 = sent (j_server j) → tcp_punch w1 !! try_into_v4 a = Some (s, Proto3) →
  let r := run joint_handler (connect_to_peer fuel peer_id local_port) j in
  r.1 = Finished (Ok (j_port j)) ∧
  j_spawned r.2 = j_spawned j ++ [T_outbound_direct 0 (j_port j) (mkAddr (IpV4 0 0 0 0) 0)].
Proof.
  cbv zeta. set (c := length (j_conns j)). set (a := j_addrs j c). intros Hs Hb Hb' Hreq Hsent Hpunch.
  enough (∃ j', run joint_handler (connect_to_peer fuel peer_id local_port) j = (Finished (Ok (j_port j)), j') ∧
    j_spawned j' = j_spawned j ++ [T_outbound_direct 0 (j_port j) (mkAddr (IpV4 0 0 0 0) 0)]) as (j' & -> & ?) by done.
  destruct (parse_proto3 _ _ (client_bytes (mk (U_PunchHoleRequest (own_request (j_store j) peer_id)))
    _ b eq_refl Hb)) as [Hdet Hparse].
  destruct (parse_proto3 _ _ (answer_bytes _ _ Hb')) as [_ Hparse'].
  unfold connect_to_peer, send_rendezvous, config, store, or_else, ensure, try_bind. run_steps. rewrite Hs. run_steps.
  unfold own_request in Hb. set (j1 := j_set_server _ _ j). change (j_store j1) with (j_store j).
  rewrite Hb. run_steps. fold c.
  assert (j_conns j1 !! c = Some (mkJConn a (Some (TcpStream (Z.of_nat c))) true [])) as Hc.
  { subst j1. cbn [j_conns j_set_server]. by rewrite lookup_app_r, Nat.sub_diag by lia. }
  assert (∃ w2, handle_tcp rs b (Some (TcpStream (Z.of_nat c))) a key false (j_server j1) = ((true, None), w2) ∧
    sent w2 = sent (j_server j1) ++ [SentTcp b' (TcpStream (Z.of_nat c))]) as (w2 & Hh & Hw2).
  { unfold handle_tcp. rewrite Hparse. cbn [union mk]. rewrite Hdet. fold (own_request (j_store j) peer_id).
    rewrite bind_run. change (j_server j1) with (j_server j).
    destruct (park (Some (TcpStream (Z.of_nat c))) a Proto3 (j_server j)) as [[] wp] eqn:Ep. cbn [snd] in Hreq.
    unfold handle_tcp_punch_hole_request. rewrite !bind_run, Hreq. unfold send_to_tcp_sync, emit. run_monad.
    rewrite Hpunch. unfold send_to_sink. rewrite Hb'. eexists. split; [reflexivity|]. cbn. by rewrite Hsent. }
  destruct (server_receives_answer c b j1 a _ [] true _ _ b' Hc eq_refl Hh Hw2) as (Hc2 & _ & Hcs & Ej).
  fold c. set (j2 := server_receives c b j1) in *. clearbody j2.
  unfold pop_frame. rewrite Hc2. cbn [jc_inbox app]. run_steps. rewrite Hparse'. cbn [union mk failure_response].
  unfold create_outbound_direct, or_else, try_bind. run_steps. rewrite Ej.
  eexists. split; reflexivity.
Qed.

(** ** Proxied connections *)

Definition zero_addr : SocketAddr := mkAddr (IpV4 0 0 0 0) 0.
(** Nothing was sent or queued, and no connection waits at the zero address. *)
Definition quiet (l : list Sent) (q : list Data) (w : World) : Prop :=
  sent w = l ∧ queue w = q ∧ tcp_punch w !! zero_addr = None.
Lemma quiet_get_pk l q ver id : keeps (quiet l q) (get_pk rs ver id).
Proof. unfold get_pk, PeerMap.get, PeerMap.get_in_memory, quiet. keeps_world; intros; done. Qed.
Lemma quiet_relay_server l q : keeps (quiet l q) (Rendezvous.get_relay_server rs).
Proof. unfold Rendezvous.get_relay_server, quiet. case_match; [apply keeps_ret|]. keeps_world; intros; done. Qed.

(** The notice that a proxied connection waits for the exit node reaches
    nobody: the client leaves the address of the peer empty, which the server
    takes for the address to send the notice to, and no connection has the
    address [0.0.0.0:0]. *)
Theorem exit_notice_reaches_nobody `{!WireLaws} st exit_peer uuid b sink a w :
  proto3_write (relay_notice st exit_peer uuid) = Some b → tcp_punch w !! zero_addr = None →
  let r := handle_tcp rs b sink a key false w in
  sent r.2 = sent w ∧ queue r.2 = queue w.
Proof.
  intros Hb Hz. cbv zeta. destruct (parse_proto3 _ _ Hb) as [Hdet Hparse].
  enough (quiet (sent w) (queue w) (handle_tcp rs b sink a key false w).2) as (? & ? & _) by done.
  assert (quiet (sent w) (queue w) w) as Hq by done. revert Hq. generalize (sent w), (queue w). intros l q Hq.
  enough (keeps (quiet l q) (handle_tcp rs b sink a key false)) as Hk by by apply Hk.
  unfold handle_tcp. rewrite Hparse. cbn [union mk relay_notice]. apply keeps_bind; [|intros []; apply keeps_ret].
  unfold tcp_relay_response. cbn [rlr_union rlr_socket_addr rlr_relay_server rlr_version].
  apply keeps_bind.
  { case_bool_decide; [apply keeps_ret|]. apply keeps_bind; [apply quiet_get_pk|intros ?; apply keeps_ret]. }
  intros u. apply keeps_bind.
  { repeat case_match; try apply keeps_ret. apply quiet_relay_server. }
  intros relay w' (Hs & Hqu & Hn). change (AddrMangle.decode []) with zero_addr.
  unfold send_to_tcp_sync. run_monad. change (try_into_v4 zero_addr) with zero_addr. rewrite Hn. run_monad.
  unfold quiet. cbn. split_and!; try done. by rewrite lookup_delete_eq.
Qed.

(** ** The handshake with hbbr *)

(** A message does not start with the end of a group (wire type 4). *)
Definition EndGroupLaw : Prop := ∀ b l, Z.land b 7 = 4 → proto3_read (b :: l) = None.

(** hbbr never pairs a connection of the client that is known by a uuid of 36
    characters: the first frame is the length and the uuid, not a request for a
    relay, and the relay ends the connection. *)
Theorem hbbr_refuses_handshake uuid c s :
  EndGroupLaw → String.length uuid = 36%nat → tasks s !! c = Some Connected →
  pair_step (Message c (relay_request key (uuid_handshake uuid))) s = Some (set_task c Done s).
Proof.
  intros Hlaw Hu Hc. unfold relay_request, uuid_handshake. rewrite Hlaw.
  - cbn [mbind option_bind]. unfold pair_step. by rewrite Hc.
  - unfold zlen. rewrite length_str_bytes, Hu. done.
Qed.
End joint.

(** ** The theorems at concrete inputs *)
Section witnesses.
#[local] Existing Instance TestBcrypt.
#[local] Existing Instance TestUuid.
#[local] Existing Instance TestSerde.
#[local] Existing Instance TestSqlTime.
#[local] Existing Instance DemoJwt.
#[local] Existing Instance TestEnv.
#[local] Existing Instance TestServer.
#[local] Existing Instance TestKeys.
#[local] Existing Instance TestToml.
#[local] Existing Instance TestUrl.

Definition test_addr (n : nat) : SocketAddr := mkAddr (IpV4 10 0 0 7) (5000 + Z.of_nat n).
Definition heart_store : Store :=
  mkStore (set_id "123456789" (set_key_confirmed true (set_host_keys_confirmed {["hbbs"%string := true]}
    (CONFIG test_store)))) None DiskOk.
(** The messages of the exchanges below. *)
#[local] Instance TestExchange : WireLib :=
  TableWire [mk (U_RegisterPk (own_registration test_store)); answer_ok; nat_request;
             nat_answer (test_srv []) (test_addr 0); nat_answer (test_srv []) (test_addr 1);
             mk (U_PunchHoleRequest (own_request test_store "nobody")); failure_response ID_NOT_EXIST;
             relay_notice test_store "peer9" (test_uuid "10.0.0.7" 80);
             heartbeat heart_store; heartbeat_ok].
#[local] Instance TestExchangeLaws : WireLaws := TableWireLaws _.
Definition test_joint (cs : list JConn) : Joint :=
  {| j_store := test_store; j_flags := λ _, false; j_clock := 0; j_unix := 0; j_ticks := 1;
     j_server := Rendezvous.start 0 empty_db; j_conns := cs; j_addrs := test_addr; j_port := 40000; j_spawned := [] |}.
Definition test_rz : Mediator := mkMediator "hbbs.example" "hbbs" Proto3.

Lemma registration_goes_online_witness :
  let j := test_joint [mkJConn (test_addr 0) (Some (TcpStream 0)) true []] in
  let r := run (joint_handler (test_srv []) "") (mediator_loop 3 test_rz 0 (mkTimers None 0)) j in
  r.1 = Waiting ∧ j_flags r.2 ONLINE = true ∧ get_key_confirmed (j_store r.2) = true ∧
  get_host_key_confirmed "hbbs" (j_store r.2) = true ∧
  pinned (get_id test_store) (get_uuid_bytes test_store) (eq (get_key_pair test_store).2) (j_server r.2).
Proof.
  apply (registration_goes_online (test_srv []) "" test_rz 0 0
    (test_joint [mkJConn (test_addr 0) (Some (TcpStream 0)) true []]) (test_addr 0) (TcpStream 0) [8; 0] [8; 1]
    (PeerMap.update_pk (get_id test_store) (test_addr 0) (get_uuid_bytes test_store) (get_key_pair test_store).2
      (ip_string (ip (test_addr 0))) None (PeerMap.get_or (get_id test_store) (Rendezvous.start 0 empty_db)).2).2);
    first [reflexivity | by vm_compute].
Defined.

Definition heart_joint : Joint :=
  {| j_store := heart_store; j_flags := λ f, bool_decide (f = NAT_DETECTED); j_clock := 0; j_unix := 0; j_ticks := 3;
     j_server := upd_pmap <["123456789"%string := set_registration (test_addr 0) [5] [6] 0 "10.0.0.7" (default_peer 0)]>
                   (Rendezvous.start 0 empty_db);
     j_conns := [mkJConn (test_addr 0) (Some (TcpStream 0)) true []]; j_addrs := test_addr; j_port := 40000;
     j_spawned := [] |}.
Lemma client_speaks_every_tick_witness :
  let r := run (joint_handler (test_srv []) "") (mediator_loop 7 test_rz 0 (mkTimers None 0)) heart_joint in
  r.1 = Waiting ∧ registered test_rz 0 (test_addr 0) r.2 ∧ (0 < 3 → j_flags r.2 ONLINE = true)%nat ∧
  sent (j_server r.2) = [] ++ replicate 3 (SentTcp [8; 9] (TcpStream 0)).
Proof.
  apply (client_speaks_every_tick (test_srv []) "" 3 test_rz 0 (test_addr 0) (mkTimers None 0) heart_joint [8; 8] [8; 9]);
    try first [reflexivity | by vm_compute].
  split; [reflexivity|split; reflexivity|split; by vm_compute|].
  exists (set_registration (test_addr 0) [5] [6] 0 "10.0.0.7" (default_peer 0)). split; [reflexivity|by split].
Defined.

Lemma nat_type_compares_two_sockets_witness :
  let r := run (joint_handler (test_srv []) "") (detect_nat_type "hbbs.example" Proto3) (test_joint []) in
  r.1 = Finished tt ∧ j_flags r.2 NAT_DETECTED = true ∧ get_nat_type (j_store r.2) = 2.
Proof.
  apply (nat_type_compares_two_sockets (test_srv []) "" "hbbs.example" Proto3
    (test_joint []) [8; 2] [8; 3] [8; 4]); first [reflexivity | by vm_compute].
Defined.

Lemma unreachable_peer_gives_port_witness :
  let r := run (joint_handler (test_srv []) "") (connect_to_peer 3 "nobody" 0) (test_joint []) in
  r.1 = Finished (Ok 40000) ∧ j_spawned r.2 = [] ++ [T_outbound_direct 0 40000 (mkAddr (IpV4 0 0 0 0) 0)].
Proof.
  apply (unreachable_peer_gives_port (test_srv []) "" 3 "nobody" 0 (test_joint [])
    "hbbs.example" [] [8; 5] [8; 6] ID_NOT_EXIST
    (handle_punch_hole_request (test_srv []) (test_addr 0) (own_request test_store "nobody") "" false
      (park (Some (TcpStream 0)) (test_addr 0) Proto3 (Rendezvous.start 0 empty_db)).2).2); first [reflexivity | by vm_compute].
Defined.

Lemma exit_notice_reaches_nobody_witness :
  let r := handle_tcp (test_srv []) [8; 7] (Some (TcpStream 0)) (test_addr 0) "" false (Rendezvous.start 0 empty_db) in
  sent r.2 = [] ∧ queue r.2 = [].
Proof.
  apply (exit_notice_reaches_nobody (test_srv []) "" test_store "peer9"
    (test_uuid "10.0.0.7" 80) [8; 7] (Some (TcpStream 0)) (test_addr 0) (Rendezvous.start 0 empty_db)); [by vm_compute|reflexivity].
Defined.

Lemma hbbr_refuses_handshake_witness :
  let s := {| pr_now := 0; tasks := {[ 0%nat := Connected ]}; PEERS := ∅; asked := ∅ |} in
  pair_step (Message 0%nat (relay_request "" (uuid_handshake "123e4567-e89b-42d3-a456-426614174000"))) s
  = Some (set_task 0%nat Done s).
Proof.
  apply (hbbr_refuses_handshake "" "123e4567-e89b-42d3-a456-426614174000" 0%nat); [|reflexivity|reflexivity].
  intros b l Hb. cbn. destruct (decide (b = 8)) as [->|]; [done|]. by repeat case_match.
Defined.
End witnesses.
