(* ===== verification/ClientCalls.v ===== *)
(** * Which messages of hbbs reach a client

    hbbs tells a peer that another wants to connect to it with a [PunchHole], a
    [RequestRelay] or a [FetchLocalAddr].  Theorems: in no run of the server
    does one of these go out on a TCP connection, and no frame that does go out
    on one makes the client start the task that answers such a call. *)
From Stdlib Require Import Ascii.
From S2P Require Import Prelude AddrMangle Text TextFacts HostText Auth Proto RendezvousCodec Database Instances Keys Peer Rendezvous RendezvousSpec ClientConfig ClientConfigSpec Programs ClientIo Mediator.
Local Open Scope Z_scope.

(** The messages that call a peer. *)
Definition calls_peer (m : RendezvousMessage) : bool :=
  match union m with
  | Some (U_PunchHole _) | Some (U_RequestRelay _) | Some (U_FetchLocalAddr _) => true
  | _ => false
  end.

Section calls.
Context `{Bcrypt} `{Uuid} `{Serde} `{SqlTime} `{Jwt} `{Env} `{WireLib} `{ServerLib} `{KeyLib} `{TomlLib}.

(** What was sent on TCP connections calls nobody. *)
Definition tcp_frame_ok (b : bytes) : Prop := ∃ m p, wire_bytes m p = Some b ∧ calls_peer m = false.
Definition tcp_quiet (w : World) : Prop := ∀ b s, SentTcp b s ∈ sent w → tcp_frame_ok b.

Lemma quiet_emit x : (∀ b s, x = SentTcp b s → tcp_frame_ok b) → keeps tcp_quiet (emit x).
Proof.
  intros Hx. apply keeps_modify. intros w Hw b s [Hin|Hin%list_elem_of_singleton]%elem_of_app; [by eapply Hw|].
  by eapply Hx.
Qed.
Lemma quiet_udp m p a : keeps tcp_quiet (send_udp m p a).
Proof. unfold send_udp. keeps_steps. by apply quiet_emit. Qed.
Lemma quiet_sink s m p : calls_peer m = false → keeps tcp_quiet (send_to_sink s m p).
Proof. intros Hm. unfold send_to_sink. keeps_steps. apply quiet_emit. intros ? ? [= -> ->]. by exists m, p. Qed.
Lemma quiet_sync m a : calls_peer m = false → keeps tcp_quiet (send_to_tcp_sync m a).
Proof.
  intros Hm. unfold send_to_tcp_sync. keeps_steps; first [by apply quiet_sink | apply keeps_modify; intros ? Hw; exact Hw].
Qed.
Lemma wire_proto3 m : wire_bytes m Proto3 = proto3_write m.
Proof. unfold wire_bytes, serialize. by destruct (proto3_write m). Qed.
Lemma quiet_stream s m : calls_peer m = false → keeps tcp_quiet (send_stream s m).
Proof.
  intros Hm. unfold send_stream. keeps_steps. apply quiet_emit. intros ? ? [= -> ->]. exists m, Proto3.
  by rewrite wire_proto3.
Qed.

(** Down to the single writes, through the senders above. *)
Ltac quiet_world :=
  repeat lazymatch goal with
    | |- keeps _ (db _) => apply keeps_db; intros; assumption
    | |- keeps _ (modify _) => apply keeps_modify; intros; assumption
    | |- keeps _ (send_udp _ _ _) => apply quiet_udp
    | |- keeps _ (emit (SentUdp _ _)) => by apply quiet_emit
    | |- keeps _ (send_to_sink _ _ _) => apply quiet_sink; reflexivity
    | |- keeps _ (send_to_tcp_sync _ _) => apply quiet_sync; reflexivity
    | |- keeps _ (send_to_tcp _ _) => apply quiet_sync; reflexivity
    | |- keeps _ (send_stream _ _) => apply quiet_stream; reflexivity
    | _ => first [keeps_basic | keeps_unfold]
    end.

(** An answer without an address for it refuses the request. *)
Lemma request_quiet rs a ph key ws :
  ensures tcp_quiet (handle_punch_hole_request rs a ph key ws)
    (λ r w, tcp_quiet w ∧ (r.1.2 = None → calls_peer r.1.1 = false)).
Proof.
  intros w Hw. split.
  - revert w Hw. change (keeps tcp_quiet (handle_punch_hole_request rs a ph key ws)). quiet_world.
  - unfold handle_punch_hole_request. destruct (_ && _); [done|]. rewrite bind_run.
    destruct (PeerMap.get _ w) as [[peer|] w1]; [|done]. run_monad. destruct (REG_TIMEOUT <=? _); [done|].
    destruct (Rendezvous.get_relay_server rs _) as [r w2]. run_monad. by repeat case_match.
Qed.
Lemma quiet_tcp_punch rs a ph key ws : keeps tcp_quiet (handle_tcp_punch_hole_request rs a ph key ws).
Proof.
  unfold handle_tcp_punch_hole_request. intros w Hw. rewrite bind_run.
  pose proof (request_quiet rs a ph key ws w Hw) as [Hq Hn].
  destruct (handle_punch_hole_request rs a ph key ws w) as [[[m [to|]] p] w1]; cbn in Hq, Hn |- *.
  - revert w1 Hq. change (keeps tcp_quiet (tx_send (Msg m to p))). quiet_world.
  - by apply quiet_sync; [apply Hn|].
Qed.

Lemma quiet_handle_tcp rs b sink a key ws : keeps tcp_quiet (handle_tcp rs b sink a key ws).
Proof.
  unfold handle_tcp. keeps_steps; try apply quiet_tcp_punch. all: quiet_world.
Qed.
Lemma quiet_io_step rs key e : keeps tcp_quiet (io_loop_step key rs e).
Proof.
  destruct e; cbn [io_loop_step]; keeps_steps.
  all: try (unfold handle_listener_inner; keeps_steps; [apply tcp_frames_keeps; intros; apply quiet_handle_tcp|]).
  all: quiet_world.
Qed.

(** What the client reads in such a frame. *)
Lemma frame_calls_nobody `{!WireLaws} b :
  (∀ c, capnp_segments c = 1) → tcp_frame_ok b → ∃ m, parse b = Some m ∧ calls_peer m = false.
Proof.
  intros Hseg (m & p & Hb & Hm).
  assert (∃ p', serialize m p' = Some b) as (p' & Hs).
  { unfold wire_bytes in Hb. destruct (serialize m p) eqn:E; [exists p; congruence|by exists Proto3]. }
  destruct (serialize_back m p' b Hs) as [_ Hp]; [auto|]. destruct p'; [by exists m|].
  exists (capnp_norm m). split; [done|]. unfold calls_peer, capnp_norm in *. destruct (union m) as [u|] eqn:Eu; [|done].
  cbn [union mk]. by destruct u.
Qed.

(** The tasks that answer a call. *)
Definition answers_call (t : SpawnedTask) : bool :=
  match t with T_punch_hole _ _ _ | T_request_relay _ _ _ | T_fetch_local_addr _ _ _ => true | _ => false end.

Definition harmless {A} (tr : Trace Net) (_ : A) : Prop := Forall (λ t, answers_call t = false) (spawned tr).
Ltac spawned_app := unfold harmless, spawned in *; rewrite ?omap_app; repeat (apply Forall_app; split); try done; repeat constructor.
Lemma register_pk_calls rz c tr :
  harmless tr tt → wp (register_pk rz c) tr harmless.
Proof.
  intros Htr. unfold register_pk, config, store, try_bind, send_rendezvous, ensure. cbn. intros st1 st2 st3 now st4.
  case_match; cbn; [intros []|]; cbn; spawned_app.
Qed.
Lemma handle_msg_calls rz m c last tr :
  calls_peer m = false → harmless tr tt →
  wp (handle_msg rz (union m) c last) tr harmless.
Proof.
  intros Hm Htr. unfold handle_msg. unfold calls_peer in Hm. destruct (union m) as [u|]; [|done].
  assert (∀ (v : option Instant) tr, harmless tr tt →
    wp (do? register_pk rz c; mret (Ok v)) tr harmless) as Hpk.
  { intros v tr' Htr'. rewrite wp_try. eapply wp_mono; [|by apply register_pk_calls]. by intros ? []. }
  assert (∀ (v : option Instant) tr, harmless tr tt →
    wp (spawn_detection rz;; mret (@Ok Failure _ v)) tr harmless) as Hdet.
  { intros v tr' Htr'. unfold spawn_detection. cbn. intros []; cbn; intros; spawned_app. }
  destruct u; try done.
  - destruct (rpr_request_pk _); [by apply Hpk|]. cbn -[spawn_detection]. intros ?. apply Hdet. spawned_app.
  - unfold config, store, restart. cbn. intros st. case_match; cbn; intros; spawned_app.
  - destruct (RegisterResult_enum _) as [[]|]; try done; cbn -[spawn_detection register_pk]; intros.
    + apply Hdet. spawned_app.
    + apply Hpk. spawned_app.
Qed.

(** C27. hbbs calls a peer only by datagram, whatever it receives: in no run of the
    server does a frame on a TCP connection make the client that reads it,
    whatever its state, start a task that answers a call.  (The client opens
    no other connection to the server and does not read datagrams of it.) *)
Theorem calls_never_reach_clients `{!WireLaws} key rs es t0 d b s rz c t :
  (∀ c, capnp_segments c = 1) → SentTcp b s ∈ sent (io_loop key rs es (Rendezvous.start t0 d)).2 →
  wp (on_frame rz c (Frame b) t) [] harmless.
Proof.
  intros Hseg Hin. destruct (frame_calls_nobody b Hseg) as (m & Hp & Hm).
  { assert (keeps tcp_quiet (io_loop key rs es)) as Hk by (apply io_loop_keeps; intros; apply quiet_io_step).
    by eapply (Hk (Rendezvous.start t0 d)); [intros ? ? ?%elem_of_nil|]. }
  unfold on_frame. cbn [mbind Prog_bind prog_bind ask wp]. intros now. destruct b as [|x b].
  { cbn. intros []; cbn; repeat constructor. }
  rewrite Hp. rewrite wp_try. eapply wp_mono; [|apply (handle_msg_calls rz m c (last_register_sent t)); [done|spawned_app]].
  intros tr' [v|e] Htr; cbn; done.
Qed.
End calls.

(** A peer registers over TCP and the answer, the only frame of that run, is
    read by its client. *)
Section witnesses.
#[local] Existing Instance TestBcrypt.
#[local] Existing Instance TestUuid.
#[local] Existing Instance TestSerde.
#[local] Existing Instance TestSqlTime.
#[local] Existing Instance DemoJwt.
#[local] Existing Instance TestEnv.
#[local] Existing Instance TestServer.
#[local] Existing Instance TestKeys.
#[local] Existing Instance TestToml.
#[local] Instance TestCalls : WireLib :=
  TableWire [mk (U_RegisterPeer {| rp_id := "654321"; rp_serial := 0 |});
             mk (U_RegisterPeerResponse {| rpr_request_pk := true |})].
#[local] Instance TestCallsLaws : WireLaws := TableWireLaws _.

Lemma calls_never_reach_clients_witness :
  wp (on_frame (mkMediator "hbbs.example" "hbbs" Proto3) 0 (Frame [8; 1]) (mkTimers None 0)) [] harmless.
Proof.
  apply (calls_never_reach_clients "" (test_srv [])
    [EvConnection [[8; 0]] (TcpStream 0) (mkAddr (IpV4 10 0 0 7) 5000) false] 0 empty_db [8; 1] (TcpStream 0)).
  - reflexivity.
  - apply (bool_decide_unpack _). vm_compute. exact I.
Defined.
End witnesses.
