(* ===== verification/PortForwardSpec.v ===== *)
(** * Theorems about tunnels and the scan of services ([PortForward], [Mediator])

    The scans list each port once, with the first socket that listens on it;
    a tunnel leaves the table of connections as it found it; the relay that
    stands in for a hole that could not be punched carries no data. *)
From Stdlib Require Import Ascii.
From S2P Require Import Prelude AddrMangle Text TextFacts Proto RendezvousCodec Database Instances Keys ClientConfig ClientConfigSpec Programs ClientIo PortForward Socks5 Mediator Socks5Spec.
From stdpp Require Import sorting.
Local Open Scope Z_scope.

(** ** Sorting and removing repetitions *)

Section by_key.
Context {A : Type} (key : A → Z).
Local Abbreviation with_key k := (filter (λ x, key x = k)).
Local Abbreviation le_key := (λ x y, key x <= key y).
Local Abbreviation lt_key := (λ x y, key x < key y).

Lemma insert_by_perm x l : insert_by key x l ≡ₚ x :: l.
Proof. induction l as [|y l IH]; [done|]. cbn. case_match; [done|]. rewrite IH. apply Permutation_swap. Qed.
Lemma sort_by_key_perm l : sort_by_key key l ≡ₚ l.
Proof. induction l as [|x l IH]; [done|]. cbn. by rewrite insert_by_perm, IH. Qed.

Lemma insert_by_sorted x l : StronglySorted le_key l → StronglySorted le_key (insert_by key x l).
Proof.
  induction 1 as [|y l Hl IH Hy]; [repeat constructor|]. cbn. destruct (key x <=? key y) eqn:E.
  - apply Z.leb_le in E. constructor; [by constructor|]. constructor; [done|].
    eapply Forall_impl; [exact Hy|]. intros z Hz. cbn in *. lia.
  - apply Z.leb_gt in E. constructor; [done|]. rewrite insert_by_perm. constructor; [lia|done].
Qed.
Lemma sort_by_key_sorted l : StronglySorted le_key (sort_by_key key l).
Proof. induction l as [|x l IH]; [constructor|]. by apply insert_by_sorted. Qed.

(** Elements with the same key stay in their order. *)
Lemma insert_by_stable k x l :
  with_key k (insert_by key x l) = with_key k (x :: l).
Proof.
  induction l as [|y l IH]; [done|]. cbn [insert_by]. destruct (key x <=? key y) eqn:E; [done|].
  apply Z.leb_gt in E. rewrite filter_cons, IH, !filter_cons. repeat case_decide; try done. lia.
Qed.
Lemma sort_by_key_stable k l : with_key k (sort_by_key key l) = with_key k l.
Proof.
  induction l as [|x l IH]; [done|]. cbn. rewrite insert_by_stable, !filter_cons. fold (sort_by_key key l). by rewrite IH.
Qed.

(** The first element with a key. *)
Definition first_with (k : Z) (l : list A) : option A := head (with_key k l).
Lemma first_with_cons k x l : first_with k (x :: l) = if decide (key x = k) then Some x else first_with k l.
Proof. unfold first_with. rewrite filter_cons. by case_decide. Qed.
Lemma first_with_None k l : Forall (λ y, k < key y) l → first_with k l = None.
Proof.
  induction 1 as [|y l Hy Hl IH]; [done|]. rewrite first_with_cons, IH. case_decide; [lia|done].
Qed.

Lemma dedup_from_spec x l :
  StronglySorted le_key (x :: l) →
  Forall (λ y, key x < key y) (dedup_from key x l) ∧ StronglySorted lt_key (dedup_from key x l) ∧
  ∀ k, k ≠ key x → first_with k (dedup_from key x l) = first_with k l.
Proof.
  revert x. induction l as [|y l IH]; intros x Hs; [by repeat constructor|].
  apply StronglySorted_inv in Hs as [Hl [Hxy Hx]%Forall_cons]. cbn [dedup_from].
  destruct (key y =? key x) eqn:E.
  - apply Z.eqb_eq in E. destruct (IH x) as (H1 & H2 & H3).
    { constructor; [by apply StronglySorted_inv in Hl as [? _]|done]. }
    split_and!; [done|done|]. intros k Hk. rewrite H3, first_with_cons by done. by rewrite decide_False by lia.
  - apply Z.eqb_neq in E. destruct (IH y Hl) as (H1 & H2 & H3). split_and!.
    + constructor; [cbn in *; lia|]. eapply Forall_impl; [exact H1|]. cbn in *. lia.
    + by constructor.
    + intros k Hk. rewrite !first_with_cons. case_decide; [done|]. apply H3. lia.
Qed.
Lemma dedup_spec l :
  StronglySorted le_key l →
  StronglySorted lt_key (dedup_by_key key l) ∧ ∀ k, first_with k (dedup_by_key key l) = first_with k l.
Proof.
  destruct l as [|x l]; [by repeat constructor|]. intros Hs. cbn [dedup_by_key].
  destruct (dedup_from_spec x l Hs) as (H1 & H2 & H3). split; [by constructor|].
  intros k. rewrite !first_with_cons. case_decide; [done|]. apply H3. lia.
Qed.

Lemma strictly_sorted_first l x : StronglySorted lt_key l → x ∈ l ↔ first_with (key x) l = Some x.
Proof.
  intros Hs. split.
  - induction Hs as [|y l Hl IH Hy]; [by intros ?%elem_of_nil|]. rewrite first_with_cons, elem_of_cons.
    intros [->|Hx]; [by rewrite decide_True|]. rewrite Forall_forall in Hy. specialize (Hy x Hx). cbn in Hy.
    rewrite decide_False by lia. by apply IH.
  - intros Hf. unfold first_with in Hf. apply head_Some_elem_of in Hf. by apply list_elem_of_filter in Hf as [_ ?].
Qed.

(** The sorted list without repetitions has, for each key, its first element. *)
Lemma dedup_sort_spec l :
  let r := dedup_by_key key (sort_by_key key l) in
  StronglySorted lt_key r ∧ ∀ x, x ∈ r ↔ first_with (key x) l = Some x.
Proof.
  cbv zeta. destruct (dedup_spec (sort_by_key key l)) as [Hs Hf]; [apply sort_by_key_sorted|]. split; [exact Hs|].
  intros x. rewrite strictly_sorted_first by done. rewrite Hf. unfold first_with. by rewrite sort_by_key_stable.
Qed.
End by_key.

(** ** The scans *)

(** The candidates of a system, in the order in which they are read. *)
Definition linux_listeners (inode_pid : gmap Z Z) (comm : Z → option string) (tcp tcp6 : option string) : list ServiceInfo :=
  proc_file false inode_pid comm tcp ++ proc_file true inode_pid comm tcp6.
Definition macos_listeners (lsof : string) : list ServiceInfo := omap lsof_line (drop 1 (lines lsof)).

(** A scan lists the ports in order, each once, with the first socket that
    listens on it: on Linux the IPv4 one if there is one. *)
Theorem scans_list_first_listener inode_pid comm tcp tcp6 lsof :
  (let r := scan_full_linux inode_pid comm tcp tcp6 in
   StronglySorted (λ s t, sv_port s < sv_port t) r ∧
   ∀ s, s ∈ r ↔ first_with sv_port (sv_port s) (linux_listeners inode_pid comm tcp tcp6) = Some s) ∧
  (let r := scan_full_macos lsof in
   StronglySorted (λ s t, sv_port s < sv_port t) r ∧
   ∀ s, s ∈ r ↔ first_with sv_port (sv_port s) (macos_listeners lsof) = Some s).
Proof. split; apply (dedup_sort_spec sv_port). Qed.

(** ** The table of connections *)

(** The table after a run. *)
Definition table_step (m : ConnTable) (o : Obs Net) : ConnTable :=
  match o with
  | obs (RegisterConn c) _ => register_conn c m
  | obs (RemoveConn u) _ => remove_conn u m
  | _ => m
  end.
Definition table_after (tr : Trace Net) (m : ConnTable) : ConnTable := foldl table_step m tr.

Lemma register_remove c (m : ConnTable) : m !! ac_uuid c = None → remove_conn (ac_uuid c) (register_conn c m) = m.
Proof. intros Hm. unfold remove_conn, register_conn, ConnTable in *. by rewrite delete_insert_id. Qed.

Lemma drain_table fuel c tr m (Q : Trace Net → unit → Prop) :
  (∀ tr', table_after tr' m = table_after tr m → spawned tr' = spawned tr → Q tr' tt) → wp (drain fuel c) tr Q.
Proof.
  revert tr. induction fuel as [|fuel IH]; intros tr HQ; [done|]. cbn [drain]. rewrite wp_bind. cbn. intros r.
  assert (∀ r : Recv, table_after (tr ++ [obs (NextFrame c None) r]) m = table_after tr m ∧
    spawned (tr ++ [obs (NextFrame c None) r]) = spawned tr) as Ho.
  { intros. unfold table_after, spawned. rewrite foldl_app, omap_app. split; [done|]. cbn. by rewrite app_nil_r. }
  destruct r; [|apply HQ; apply Ho..].
  apply IH. intros tr' H1 H2. apply HQ; [rewrite H1; apply Ho|rewrite H2; apply Ho].
Qed.

Ltac wp_table := repeat first [progress cbn | progress intros | case_match].

(** However a tunnel ends, it leaves the table of connections as it found it. *)
Theorem tunnels_leave_table m uuid fuel la pa th tp c l ap a b :
  m !! uuid = None →
  wp (accept_inbound la pa uuid th tp) [] (λ tr _, table_after tr m = m) ∧
  wp (relay_task fuel uuid pa c th tp) [] (λ tr _, table_after tr m = m) ∧
  wp (outbound_relay_task l ap c uuid) [] (λ tr _, table_after tr m = m) ∧
  (∀ conn, ac_uuid conn = uuid →
   wp (tunnel a b uuid) [] (λ tr _, table_after tr (register_conn conn m) = m)).
Proof.
  intros Hm. split_and!.
  - unfold accept_inbound, new_conn, or_else, try_bind. wp_table; try done; by apply (register_remove (mkActiveConn uuid _ _ _ _ _ _)).
  - unfold relay_task, new_conn. cbn. intros sent. destruct sent; [|done]. cbn. destruct (tp =? 0).
    + cbn. intros now []. rewrite wp_bind. apply (drain_table _ _ _ m). intros tr Ht _. cbn. intros [].
      unfold table_after. rewrite foldl_app. fold (table_after tr m). rewrite Ht. cbn.
      by apply (register_remove (mkActiveConn uuid _ _ _ _ _ _)).
    + wp_table; try done; by apply (register_remove (mkActiveConn uuid _ _ _ _ _ _)).
  - unfold outbound_relay_task, new_conn. wp_table; try done; by apply (register_remove (mkActiveConn uuid _ _ _ _ _ _)).
  - intros conn <-. unfold tunnel. cbn. intros [] []. by apply register_remove.
Qed.

(** ** The relay of the side that was called *)

(** Questions that carry data or could lead it on: to a service, to a stream,
    to another task, or to the relay (but for the handshake). *)
Definition carries_data (uuid : string) (o : Obs Net) : bool :=
  match o with
  | obs (Dial _ _) _ | obs (WriteAll _ _) _ | obs (BridgeRelay _ _ _) _ | obs (BridgeStreams _ _ _) _
  | obs (BridgeKcp _ _) _ | obs (Spawn _) _ => true
  | obs (SendBytes _ b) _ => negb (bool_decide (b = uuid_handshake uuid))
  | _ => false
  end.
Definition carries_nothing (uuid : string) (tr : Trace Net) : Prop := Forall (λ o, carries_data uuid o = false) tr.

Lemma drain_carries_nothing uuid fuel c tr (Q : Trace Net → unit → Prop) :
  carries_nothing uuid tr → (∀ tr', carries_nothing uuid tr' → Q tr' tt) → wp (drain fuel c) tr Q.
Proof.
  revert tr. induction fuel as [|fuel IH]; intros tr Htr HQ; [done|]. cbn [drain]. rewrite wp_bind. cbn. intros r.
  assert (carries_nothing uuid (tr ++ [obs (NextFrame c None) r])) as Ho by (apply Forall_app; by repeat constructor).
  destruct r; [by apply IH|by apply HQ..].
Qed.

Section fallback.
Context `{WireLib} `{UrlBase64} `{KeyLib} `{TomlLib}.

(** When a hole cannot be punched, or the server asks for a relay, the called
    side connects to the relay; but the task it starts there has no target: it
    reads what arrives and drops it, whatever arrives, until the connection
    ends, and writes nothing but its handshake.  Such a tunnel carries no
    data. *)
Theorem called_side_relay_carries_nothing host wire socket_addr relay_server uuid peer_id :
  wp (create_relay_connection host wire socket_addr relay_server uuid true peer_id) [] (λ tr r,
    match r with
    | Ok _ => ∃ c, spawned tr = [T_relay uuid (AddrMangle.decode socket_addr) c "" 0]
    | Err _ => spawned tr = []
    end) ∧
  ∀ fuel pa c, wp (relay_task fuel uuid pa c "" 0) [] (λ tr _, carries_nothing uuid tr).
Proof.
  split.
  - unfold create_relay_connection, or_else, try_bind, send_rendezvous, ensure, config, store, register_relay.
    wp_table; try done. by eexists.
  - intros fuel pa c. unfold relay_task, new_conn. cbn. intros sent.
    assert (carries_data uuid (obs (SendBytes c (uuid_handshake uuid)) sent) = false) as Hs.
    { cbn. by rewrite bool_decide_eq_true_2. }
    destruct sent; cbn; [|by repeat constructor].
    intros now []. rewrite wp_bind. apply (drain_carries_nothing uuid); [by repeat constructor|].
    intros tr Htr []. apply Forall_app. by repeat constructor.
Qed.
End fallback.

Lemma tunnels_leave_table_witness :
  wp (accept_inbound (mkAddr (IpV4 10 0 0 7) 5000) (mkAddr (IpV4 10 0 0 9) 6000) "u1" "127.0.0.1" 22) []
    (λ tr _, table_after tr ∅ = ∅) ∧
  wp (relay_task 5 "u1" (mkAddr (IpV4 10 0 0 9) 6000) 0 "127.0.0.1" 22) [] (λ tr _, table_after tr ∅ = ∅) ∧
  wp (outbound_relay_task 0 40000 0 "u1") [] (λ tr _, table_after tr ∅ = ∅) ∧
  (∀ conn, ac_uuid conn = "u1"%string → wp (tunnel 1 2 "u1") [] (λ tr _, table_after tr (register_conn conn ∅) = ∅)).
Proof. apply (tunnels_leave_table ∅ "u1" 5). reflexivity. Defined.
