(* ===== verification/Subscription.v ===== *)
(** * Subscriptions and device limits: [src/subscription.rs]

    The plans, the subscriptions of the users and the limits that follow from
    them, with the two methods of database.rs and database_simple.rs that add a
    device under the limit.  The methods run over the tables of Database.v. *)
From S2P Require Import Prelude Database.
Local Open Scope Z_scope.

Definition FREE_DEVICE_LIMIT : Z := 2.
Definition FREE_SPEED_KBPS : Z := 1024.

(** [UserSubscription]: a row of [user_subscriptions] joined with its plan. *)
Record UserSubscription : Type := mkUserSubscription {
  s_id : Z;
  s_user_id : Z;
  s_plan_id : Z;
  plan_name : string;
  plan_display_name : string;
  device_limit : Z;
  speed_limit_kbps : Z;
  s_started_at : Z;
  s_expires_at : option Z;
  s_is_active : bool;
  s_notes : option string;
  s_created_at : Z;
}.

(** The rows [migrate_subscriptions] seeds: name, display name, device limit,
    speed limit, price in hundredths, description. *)
Definition seed_plans : list (string * string * Z * Z * Z * string) :=
  [("free", "免费版", 2, 1024, 0, "最多2台设备，限速1Mbps");
   ("basic", "基础版", 5, 5120, 990, "最多5台设备，限速5Mbps");
   ("pro", "专业版", 20, 0, 2990, "最多20台设备，不限速");
   ("enterprise", "企业版", 0, 0, 9990, "无限设备，不限速，优先支持")]%string.

(** [insert or ignore] of one plan: a plan of that name keeps its row. *)
Definition insert_plan (p : string * string * Z * Z * Z * string) (d : Db) : Db :=
  let '(name, display, devs, speed, price, descr) := p in
  match find_row (λ q, seqb (sp_name q) name) (plans d) with
  | Some _ => d
  | None =>
    let id := next_plan d in
    upd_next_plan Z.succ (upd_plans <[id :=
      {| sp_id := id; sp_name := name; sp_display_name := display; sp_device_limit := devs;
         sp_speed_limit_kbps := speed; sp_price_monthly := price; sp_description := descr;
         sp_is_active := true |}]> d)
  end.

(** One statement inserts all the rows. *)
Definition migrate_subscriptions : DbM unit :=
  update (λ d, foldl (λ d p, insert_plan p d) d seed_plans).

Definition cheaper (a b : SubscriptionPlan) : Prop := sp_price_monthly a <= sp_price_monthly b.
#[export] Instance cheaper_dec : RelDecision cheaper.
Proof. unfold cheaper. solve_decision. Defined.

Section subscription.
Context `{Bcrypt} `{Uuid} `{Serde} `{SqlTime}.

Definition get_subscription_plans : DbM (list SubscriptionPlan) :=
  query (λ d, merge_sort cheaper (map_to_list (plans d)).*2).

(** [user_subscriptions us join subscription_plans sp on us.plan_id = sp.id] *)
Definition join_plan (d : Db) (s : SubRow) : option UserSubscription :=
  p ← plans d !! us_plan_id s;
  Some {| s_id := us_id s; s_user_id := us_user_id s; s_plan_id := us_plan_id s;
          plan_name := sp_name p; plan_display_name := sp_display_name p;
          device_limit := sp_device_limit p; speed_limit_kbps := sp_speed_limit_kbps p;
          s_started_at := us_started_at s; s_expires_at := us_expires_at s;
          s_is_active := us_is_active s; s_notes := us_notes s; s_created_at := us_created_at s |}.

Definition active_of (uid : Z) (s : SubRow) : bool := (us_user_id s =? uid) && us_is_active s.

(** [expires_at is null or expires_at > datetime('now')], on texts. *)
Definition unexpired (now : Z) (s : SubRow) : bool :=
  match us_expires_at s with
  | None => true
  | Some t => text_gt (datetime_text t) (now_text now)
  end.

Definition get_user_active_subscription (uid : Z) : DbM (option UserSubscription) :=
  query (λ d, head (sql_page s_created_at 1 0
    (omap (join_plan d) (rows_where (λ s, active_of uid s && unexpired (clock d) s) (subs d))))).

Definition get_user_device_limit (uid : Z) : DbM Z :=
  sub ←? get_user_active_subscription uid;
  mret (Ok match sub with Some s => device_limit s | None => FREE_DEVICE_LIMIT end).

Definition get_user_speed_limit (uid : Z) : DbM Z :=
  sub ←? get_user_active_subscription uid;
  mret (Ok match sub with Some s => speed_limit_kbps s | None => FREE_SPEED_KBPS end).

Definition set_inactive (s : SubRow) : SubRow :=
  {| us_id := us_id s; us_user_id := us_user_id s; us_plan_id := us_plan_id s;
     us_started_at := us_started_at s; us_expires_at := us_expires_at s; us_is_active := false;
     us_notes := us_notes s; us_created_at := us_created_at s |}.

(** The insertion needs the user and the plan to exist (foreign keys). *)
Definition insert_subscription (uid plan : Z) (expires : option Z) (notes : option string) : DbM Z :=
  stmt (λ d,
    match users d !! uid, plans d !! plan with
    | Some _, Some _ =>
      let id := next_sub d in
      (Ok id, upd_next_sub Z.succ (upd_subs <[id :=
        {| us_id := id; us_user_id := uid; us_plan_id := plan; us_started_at := clock d;
           us_expires_at := expires; us_is_active := true; us_notes := notes;
           us_created_at := clock d |}]> d))
    | _, _ => (Err Constraint, d)
    end).

(** Two statements, no transaction. *)
Definition create_user_subscription (uid plan : Z) (expires : option Z) (notes : option string) : DbM Z :=
  _ ←? update (upd_subs (update_where (active_of uid) set_inactive));
  insert_subscription uid plan expires notes.

Definition set_sub (plan : option Z) (expires : option (option Z)) (notes : option string)
    (s : SubRow) : SubRow :=
  {| us_id := us_id s; us_user_id := us_user_id s; us_plan_id := default (us_plan_id s) plan;
     us_started_at := us_started_at s; us_expires_at := default (us_expires_at s) expires;
     us_is_active := us_is_active s;
     us_notes := match notes with Some n => Some n | None => us_notes s end;
     us_created_at := us_created_at s |}.

Definition update_user_subscription (sub_id : Z) (plan : option Z) (expires : option (option Z))
    (notes : option string) : DbM unit :=
  _ ←? pool_get;
  match plan, expires, notes with
  | None, None, None => mret (Ok tt)
  | _, _, _ =>
    stmt (λ d,
      match subs d !! sub_id, plan with
      | Some _, Some p =>
        match plans d !! p with
        | Some _ => (Ok tt, upd_subs (alter (set_sub plan expires notes) sub_id) d)
        | None => (Err Constraint, d)
        end
      | _, _ => (Ok tt, upd_subs (alter (set_sub plan expires notes) sub_id) d)
      end)
  end.

Definition deactivate_user_subscription (sub_id : Z) : DbM unit :=
  update (upd_subs (alter set_inactive sub_id)).

Definition list_subscriptions (limit offset : option Z) : DbM (list UserSubscription) :=
  query (λ d, sql_page s_created_at (default 50 limit) (default 0 offset)
                (omap (join_plan d) (map_to_list (subs d)).*2)).

Definition get_plan_id_by_name (name : string) : DbM (option Z) :=
  query (λ d, sp_id <$> find_row (λ q, seqb (sp_name q) name) (plans d)).

Definition count_devices (uid : Z) : DbM Z :=
  query (λ d, count_where (active_device uid) (devices d)).

Definition count_user_active_devices (uid : Z) : DbM Z :=
  _ ←? pool_get;
  unwrap_or 0 (count_devices uid).

(** ** Adding a device under the limit *)

Definition active_user (uid : Z) (d : Db) : bool :=
  match users d !! uid with Some u => user_is_active u | None => false end.

Definition limit_reached (limit count : Z) : bool := (0 <? limit) && (limit <=? count).

(** [add_device_to_user] of database.rs. *)
Definition add_device_to_user (req : CreateDeviceRequest) : DbM Z :=
  let uid := cdr_user_id req in
  _ ←? pool_get;
  n ←? unwrap_or 0 (query (λ d, if active_user uid d then 1 else 0));
  if negb (0 <? n) then mret (Err (Refused "user does not exist or is disabled")) else
  _ ←? pool_get;
  device_count ←? unwrap_or 0 (count_devices uid);
  device_limit ←? get_user_device_limit uid;
  if limit_reached device_limit device_count then mret (Err (Refused "device limit reached")) else
  _ ←? pool_get;
  k ←? unwrap_or 0 (query (λ d, count_where (active_device_id uid (cdr_device_id req)) (devices d)));
  if 0 <? k then mret (Err (Refused "device id exists")) else
  replace_device req.

(** [add_device_to_user_simple] of database_simple.rs. *)
Definition add_device_to_user_simple (req : CreateDeviceRequest) : DbM Z :=
  _ ←? pool_get;
  device_count ←? unwrap_or 0 (count_devices (cdr_user_id req));
  device_limit ←? get_user_device_limit (cdr_user_id req);
  if limit_reached device_limit device_count then mret (Err (Refused "device limit reached")) else
  replace_device req.

End subscription.
