(* ===== verification/Orders.v ===== *)
(** * Orders: the database methods of [src/payment.rs]

    An order is created pending and is marked paid by the callback of a payment
    provider.  [mark_order_paid] reads the order in one statement and changes it
    in another; both are definitions of their own, so that two callbacks can be
    interleaved.  The statement [update ... where status = 'pending'] may change
    no row, which the method does not look at. *)
From Stdlib Require Import Ascii.
From S2P Require Import Prelude Text Database Subscription.
Local Open Scope Z_scope.

(** chrono: [format("%Y%m%d%H%M%S")] of a time in seconds. *)
Class TimeStamp : Type := time_stamp : Z → string.

Definition ORDER_PENDING : string := "pending".
Definition ORDER_PAID : string := "paid".

(** An order joined with the name of its plan. *)
Record OrderInfo : Type := mkOrderInfo { order_row : Order; order_plan_name : string }.

Fixpoint without_dashes (s : string) : string :=
  match s with
  | EmptyString => EmptyString
  | String c s => if bool_decide (c = "-"%char) then without_dashes s else String c (without_dashes s)
  end.

Section orders.
Context `{Bcrypt} `{Uuid} `{Serde} `{SqlTime} `{TimeStamp}.

(** The number of an order: the second and six digits of a random uuid. *)
Definition order_number (now n : Z) : string :=
  "ORD" +:+ time_stamp now +:+ to_uppercase (String.substring 0 6 (without_dashes (uuid_string n))).

Definition is_order (no : string) (o : Order) : bool := seqb (o_order_no o) no.

Definition insert_order (no : string) (uid plan : Z) (amount currency payment_method : string) : DbM unit :=
  stmt (λ d,
    match users d !! uid, plans d !! plan, find_row (is_order no) (orders d) with
    | Some _, Some _, None =>
      let id := next_order d in
      (Ok tt, upd_next_order Z.succ (upd_orders <[id :=
        {| o_id := id; o_order_no := no; o_user_id := uid; o_plan_id := plan; o_amount := amount;
           o_currency := currency; o_payment_method := payment_method; o_status := ORDER_PENDING;
           o_gateway_order_id := None; o_gateway_qr := None; o_stripe_checkout_url := None;
           o_paid_at := None; o_created_at := clock d |}]> d))
    | _, _, _ => (Err Constraint, d)
    end).

Definition create_order (uid plan : Z) (amount currency payment_method : string) : DbM string :=
  n ← gets draws;
  modify (upd_draws Z.succ);;
  now ← gets clock;
  let no := order_number now n in
  _ ←? insert_order no uid plan amount currency payment_method;
  mret (Ok no).

Definition set_gateway (qr url : option string) (o : Order) : Order :=
  {| o_id := o_id o; o_order_no := o_order_no o; o_user_id := o_user_id o; o_plan_id := o_plan_id o;
     o_amount := o_amount o; o_currency := o_currency o; o_payment_method := o_payment_method o;
     o_status := o_status o; o_gateway_order_id := o_gateway_order_id o; o_gateway_qr := qr;
     o_stripe_checkout_url := url; o_paid_at := o_paid_at o; o_created_at := o_created_at o |}.

Definition set_order_gateway (no : string) (qr url : option string) : DbM unit :=
  update (upd_orders (update_where (is_order no) (set_gateway qr url))).

Definition set_paid (gateway_id : string) (now : Z) (o : Order) : Order :=
  {| o_id := o_id o; o_order_no := o_order_no o; o_user_id := o_user_id o; o_plan_id := o_plan_id o;
     o_amount := o_amount o; o_currency := o_currency o; o_payment_method := o_payment_method o;
     o_status := ORDER_PAID; o_gateway_order_id := Some gateway_id; o_gateway_qr := o_gateway_qr o;
     o_stripe_checkout_url := o_stripe_checkout_url o; o_paid_at := Some now; o_created_at := o_created_at o |}.

Definition select_order (no : string) : DbM (option Order) := query (λ d, find_row (is_order no) (orders d)).

Definition pending_order (no : string) (o : Order) : bool := is_order no o && seqb (o_status o) ORDER_PENDING.
Definition settle_order (no gateway_id : string) : DbM unit :=
  update (λ d, upd_orders (update_where (pending_order no) (set_paid gateway_id (clock d))) d).

(** What [mark_order_paid] does with the order it read. *)
Definition settle_existing (no gateway_id : string) (existing : option Order) : DbM (option (Z * Z)) :=
  match existing with
  | None => mret (Ok None)
  | Some o =>
    if seqb (o_status o) ORDER_PAID then mret (Ok None)
    else _ ←? settle_order no gateway_id; mret (Ok (Some (o_user_id o, o_plan_id o)))
  end.
Definition mark_order_paid (no gateway_id : string) : DbM (option (Z * Z)) :=
  existing ←? select_order no;
  settle_existing no gateway_id existing.

Definition get_order_by_no (no : string) (uid : Z) : DbM (option OrderInfo) :=
  query (λ d,
    o ← find_row (λ o, is_order no o && (o_user_id o =? uid)) (orders d);
    p ← plans d !! o_plan_id o;
    Some (mkOrderInfo o (sp_name p))).

(** [activate_subscription_for_order]: errors are logged and forgotten. *)
Definition activate_subscription_for_order (uid plan : Z) : M Db unit :=
  r ← get_user_active_subscription uid;
  match r with
  | Ok (Some sub) => (λ _, tt) <$> deactivate_user_subscription (s_id sub)
  | _ => mret tt
  end;;
  now ← gets clock;
  (λ _, tt) <$> create_user_subscription uid plan (Some (now + 30 * 86400)) None.
End orders.
