(* ===== verification/DbInvariant.v ===== *)
(** * The database stays consistent

    What holds of the tables whatever methods ran on them, with whatever
    statements failing: rows under their own keys, unique columns unique,
    foreign keys pointing at rows, the columns that are enumerations in range,
    and at most one active subscription per user.  [db_method] lists the methods
    of [Database]; a reachable database is the empty one after any sequence of
    them. *)
From S2P Require Import Prelude Text Auth Database Instances Subscription Orders.
Local Open Scope Z_scope.

Definition same_name (a b : User) : Prop := username a = username b.
Definition same_mail (a b : User) : Prop := email a = email b.
Definition same_device (a b : UserDevice) : Prop := ud_user_id a = ud_user_id b ∧ ud_device_id a = ud_device_id b.
Definition same_token (a b : ResetToken) : Prop := rt_token a = rt_token b.
Definition same_plan (a b : SubscriptionPlan) : Prop := sp_name a = sp_name b.
Definition both_active (a b : SubRow) : Prop :=
  us_user_id a = us_user_id b ∧ us_is_active a = true ∧ us_is_active b = true.
Definition same_order (a b : Order) : Prop := o_order_no a = o_order_no b.
Definition same_guid (a b : DbPeer) : Prop := dp_guid a = dp_guid b.

Definition role_ok (u : User) : Prop := role u = USER_ROLE_USER ∨ role u = USER_ROLE_ADMIN.
Definition status_ok (o : Order) : Prop :=
  (o_status o = ORDER_PENDING ∧ o_paid_at o = None) ∨ (o_status o = ORDER_PAID ∧ is_Some (o_paid_at o)).

Record users_ok (us : gmap Z User) (next : Z) : Prop := {
  users_keyed : keyed user_id us next;
  users_names : unique_by same_name us;
  users_mails : unique_by same_mail us;
  users_roles : map_Forall (λ _, role_ok) us;
}.
Record devices_ok (vs : gmap Z UserDevice) (next : Z) (us : gmap Z User) : Prop := {
  devices_keyed : keyed ud_id vs next;
  devices_unique : unique_by same_device vs;
  devices_users : refers ud_user_id vs us;
}.
Record tokens_ok (ts : gmap Z ResetToken) (us : gmap Z User) : Prop := {
  tokens_unique : unique_by same_token ts;
  tokens_users : refers rt_user_id ts us;
}.
Record plans_ok (ps : gmap Z SubscriptionPlan) (next : Z) : Prop := {
  plans_keyed : keyed sp_id ps next;
  plans_unique : unique_by same_plan ps;
}.
Record subs_ok (ss : gmap Z SubRow) (next : Z) (us : gmap Z User) (ps : gmap Z SubscriptionPlan) : Prop := {
  subs_keyed : keyed us_id ss next;
  subs_active : unique_by both_active ss;
  subs_users : refers us_user_id ss us;
  subs_plans : refers us_plan_id ss ps;
}.
Record orders_ok (os : gmap Z Order) (next : Z) (us : gmap Z User) (ps : gmap Z SubscriptionPlan) : Prop := {
  orders_keyed : keyed o_id os next;
  orders_unique : unique_by same_order os;
  orders_users : refers o_user_id os us;
  orders_plans : refers o_plan_id os ps;
  orders_status : map_Forall (λ _, status_ok) os;
}.
Record peers_ok (ps : gmap string DbPeer) : Prop := {
  peers_keyed : map_Forall (λ id p, dp_id p = id) ps;
  peers_guids : unique_by same_guid ps;
}.

Record db_ok (d : Db) : Prop := {
  ok_users : users_ok (users d) (next_user d);
  ok_devices : devices_ok (devices d) (next_device d) (users d);
  ok_tokens : tokens_ok (tokens d) (users d);
  ok_plans : plans_ok (plans d) (next_plan d);
  ok_subs : subs_ok (subs d) (next_sub d) (users d) (plans d);
  ok_orders : orders_ok (orders d) (next_order d) (users d) (plans d);
  ok_peers : peers_ok (peers d);
}.

#[export] Instance db_ok_fault_blind : FaultBlind db_ok.
Proof. intros f d []. by split. Qed.

Lemma db_ok_empty : db_ok empty_db.
Proof.
  split; split; cbn; first [apply keyed_empty|apply unique_empty|apply refers_empty|apply map_Forall_empty|idtac].
  intros k k' a a' C. by rewrite lookup_empty in C.
Qed.

(** ** Statements that lead from one condition to another *)

Lemma ensures_stmt {A} (I : Db → Prop) `{FaultBlind I} (f : Db → result DbError A * Db) Q :
  (∀ d, I d → Q (f d).1 (f d).2) → (∀ d, I d → Q (Err SqlFailure) d) → ensures I (stmt f) Q.
Proof.
  intros Hf He d Hd. unfold stmt. destruct (faults d) as [|[] r]; cbn.
  - by apply Hf.
  - by apply He, fault_blind.
  - by apply Hf, fault_blind.
Qed.
Lemma ensures_rbind {A B} (I : Db → Prop) (m : DbM A) Q (k : A → DbM B) R :
  ensures I m Q → (∀ a, ensures (Q (Ok a)) (k a) R) → (∀ e d, Q (Err e) d → R (Err e) d) →
  ensures I (rbind m k) R.
Proof.
  intros Hm Hk He d Hd. rewrite rbind_run. specialize (Hm d Hd).
  destruct (m d) as [[a|e] d']; cbn in *; [by apply Hk|by apply He].
Qed.

(** ** One table at a time *)

Lemma rows_none {A} (P : A → bool) (m : gmap Z A) k a :
  ¬ rows_where P m ≠ [] → m !! k = Some a → P a = false.
Proof.
  intros Hn Hk. destruct (rows_where P m) eqn:E; [|by destruct Hn].
  by eapply (proj1 (rows_where_nil P m)).
Qed.

Lemma users_ok_change us next g i :
  (∀ u, user_id (g u) = user_id u ∧ username (g u) = username u ∧ email (g u) = email u) →
  (∀ u, role_ok u → role_ok (g u)) → users_ok us next → users_ok (alter g i us) next.
Proof.
  intros Hg Hr [K N M R]. split.
  - apply keyed_alter; [|done]. intros u. by destruct (Hg u).
  - apply unique_alter; [done|]. intros b k a Hb Hk Hne. destruct (Hg b) as (_ & E & _).
    unfold same_name. rewrite E. split; intros HR; destruct Hne; [symmetry|]; by eapply N.
  - apply unique_alter; [done|]. intros b k a Hb Hk Hne. destruct (Hg b) as (_ & _ & E).
    unfold same_mail. rewrite E. split; intros HR; destruct Hne; [symmetry|]; by eapply M.
  - intros k u [(-> & b & Hb & ->)|[_ Hk]]%lookup_alter_Some; [apply Hr|]; eapply R; eauto.
Qed.

Lemma users_ok_update us next P g :
  (∀ u, user_id (g u) = user_id u ∧ username (g u) = username u ∧ email (g u) = email u) →
  (∀ u, role_ok u → role_ok (g u)) → users_ok us next → users_ok (update_where P g us) next.
Proof.
  intros Hg Hr [K N M R]. split.
  - apply keyed_update; [|done]. intros u. by destruct (Hg u).
  - apply unique_update; [|done]. unfold same_name. intros a b. destruct (Hg a) as (_ & Ha & _), (Hg b) as (_ & Hb & _).
    destruct (P a), (P b); congruence.
  - apply unique_update; [|done]. unfold same_mail. intros a b. destruct (Hg a) as (_ & _ & Ha), (Hg b) as (_ & _ & Hb).
    destruct (P a), (P b); congruence.
  - intros k u (b & Hb & ->)%lookup_update_where. apply R in Hb. destruct (P b); auto.
Qed.

Lemma not_taken name mail except d k u :
  user_taken name mail except d = false → users d !! k = Some u → Some (user_id u) ≠ except →
  username u ≠ name ∧ email u ≠ mail.
Proof.
  unfold user_taken. intros Hn Hk Hne. bool_simp.
  pose proof (rows_none _ _ _ _ Hn Hk) as HP. cbn in HP.
  rewrite (bool_decide_eq_false_2 (Some (user_id u) = except)) in HP by done.
  cbn in HP. bool_simp. done.
Qed.

Lemma users_ok_insert d u :
  users_ok (users d) (next_user d) → user_id u = next_user d → role_ok u →
  user_taken (username u) (email u) None d = false →
  users_ok (<[next_user d := u]> (users d)) (Z.succ (next_user d)).
Proof.
  intros [K N M R] Hid Hr Ht. split.
  - by apply keyed_insert.
  - apply unique_insert; [done|]. intros k v Hv.
    destruct (not_taken _ _ _ _ _ _ Ht Hv) as [? _]; [done|]. unfold same_name. by split; [apply not_eq_sym|].
  - apply unique_insert; [done|]. intros k v Hv.
    destruct (not_taken _ _ _ _ _ _ Ht Hv) as [_ ?]; [done|]. unfold same_mail. by split; [apply not_eq_sym|].
  - by apply map_Forall_insert_2.
Qed.

Lemma users_ok_rename d id u name mail now :
  users_ok (users d) (next_user d) → users d !! id = Some u →
  user_taken (default (username u) name) (default (email u) mail) (Some id) d = false →
  users_ok (alter (set_names name mail now) id (users d)) (next_user d).
Proof.
  intros [K N M R] Hu Ht. split.
  - by apply keyed_alter.
  - apply unique_alter; [done|]. intros b k a Hb Hk Hne. simplify_eq.
    destruct (not_taken _ _ _ _ _ _ Ht Hk) as [? _].
    { destruct (K k a Hk) as [-> _]. congruence. }
    unfold same_name. cbn. by split; [apply not_eq_sym|].
  - apply unique_alter; [done|]. intros b k a Hb Hk Hne. simplify_eq.
    destruct (not_taken _ _ _ _ _ _ Ht Hk) as [_ ?].
    { destruct (K k a Hk) as [-> _]. congruence. }
    unfold same_mail. cbn. by split; [apply not_eq_sym|].
  - intros k v [(-> & b & Hb & ->)|[_ Hk]]%lookup_alter_Some; [|by eapply R].
    by apply R in Hb.
Qed.

Lemma users_ok_delete us next i : users_ok us next → users_ok (delete i us) next.
Proof.
  intros [K N M R]. pose proof (delete_subseteq us i) as Hs. split.
  - by eapply keyed_subseteq.
  - by eapply unique_subseteq.
  - by eapply unique_subseteq.
  - by apply map_Forall_delete.
Qed.

Lemma devices_ok_replace vs next us v :
  devices_ok vs next us → ud_id v = next → is_Some (us !! ud_user_id v) →
  devices_ok (<[next := v]> (delete_where
      (λ w, (ud_user_id w =? ud_user_id v) && seqb (ud_device_id w) (ud_device_id v)) vs)) (Z.succ next) us.
Proof.
  intros [K U R] Hid Hu. set (vs' := delete_where _ vs).
  assert (Hs : vs' ⊆ vs) by apply delete_where_subseteq. split.
  - apply keyed_insert; [by eapply keyed_subseteq|done].
  - apply unique_insert; [by eapply unique_subseteq|].
    intros k w [_ Hw]%lookup_delete_where. unfold same_device.
    rewrite andb_false_iff in Hw. rewrite Z.eqb_neq, bool_decide_eq_false in Hw.
    destruct Hw; split; intros [? ?]; congruence.
  - apply refers_insert; [by eapply refers_subseteq|done].
Qed.

Lemma devices_ok_deactivate d uid did :
  devices_ok (devices d) (next_device d) (users d) →
  devices_ok (devices (deactivate_device uid did d)) (next_device d) (users d).
Proof.
  intros [K U R]. split; cbn.
  - by apply keyed_update.
  - apply unique_update; [|done]. intros a b. unfold same_device. by repeat case_match.
  - by apply refers_update.
Qed.

Lemma tokens_ok_insert ts us k t :
  tokens_ok ts us → is_Some (us !! rt_user_id t) →
  ¬ rows_where (λ x, seqb (rt_token x) (rt_token t)) ts ≠ [] → tokens_ok (<[k := t]> ts) us.
Proof.
  intros [U R] Hu Hn. split; [|by apply refers_insert].
  apply unique_insert; [done|]. intros k' x Hx. pose proof (rows_none _ _ _ _ Hn Hx) as E.
  cbn in E. bool_simp. unfold same_token. by split; [apply not_eq_sym|].
Qed.

Lemma tokens_ok_use ts us P : tokens_ok ts us → tokens_ok (update_where P use_token ts) us.
Proof.
  intros [U R]. split; [|by apply refers_update].
  apply unique_update; [|done]. intros a b. unfold same_token. by repeat case_match.
Qed.

Lemma plans_ok_insert d p : plans_ok (plans d) (next_plan d) →
  plans_ok (plans (insert_plan p d)) (next_plan (insert_plan p d)).
Proof.
  intros [K U]. destruct p as [[[[[name disp] devs] speed] price] descr]. unfold insert_plan.
  destruct (find_row _ (plans d)) eqn:E; [done|]. split; cbn; [by apply keyed_insert|].
  apply unique_insert; [done|]. intros k q Hq. eapply find_row_None in E; [|exact Hq]. bool_simp.
  unfold same_plan. cbn. by split; [apply not_eq_sym|].
Qed.
Lemma plans_grow p d i : is_Some (plans d !! i) → is_Some (plans (insert_plan p d) !! i).
Proof.
  destruct p as [[[[[name disp] devs] speed] price] descr]. unfold insert_plan.
  destruct (find_row _ (plans d)); [done|]. apply is_Some_insert.
Qed.
Lemma insert_plan_frame p d :
  ∃ ps n, insert_plan p d = upd_next_plan (λ _, n) (upd_plans (λ _, ps) d).
Proof.
  destruct p as [[[[[name disp] devs] speed] price] descr]. unfold insert_plan.
  destruct (find_row _ (plans d)); [exists (plans d), (next_plan d)|eexists _, _]; by destruct d.
Qed.

(** After its deactivation a user has no active subscription. *)
Lemma subs_ok_deactivate ss next us ps P :
  subs_ok ss next us ps → subs_ok (update_where P set_inactive ss) next us ps.
Proof.
  intros [K A U R]. split; [by apply keyed_update| |by apply refers_update|by apply refers_update].
  apply unique_update; [|done]. intros a b. unfold both_active.
  destruct (P a), (P b); cbn; intros (? & ? & ?); done.
Qed.
Lemma none_active uid (ss : gmap Z SubRow) k s :
  update_where (active_of uid) set_inactive ss !! k = Some s → active_of uid s = false.
Proof.
  intros (b & _ & ->)%lookup_update_where. destruct (active_of uid b) eqn:E; [|done].
  unfold active_of. cbn. apply andb_false_r.
Qed.
Lemma subs_ok_insert ss next us ps s :
  subs_ok ss next us ps → us_id s = next → is_Some (us !! us_user_id s) → is_Some (ps !! us_plan_id s) →
  (∀ k x, ss !! k = Some x → active_of (us_user_id s) x = false) →
  subs_ok (<[next := s]> ss) (Z.succ next) us ps.
Proof.
  intros [K A U R] Hid Hu Hp Hn.
  split; [by apply keyed_insert| |by apply refers_insert|by apply refers_insert].
  apply unique_insert; [done|]. intros k x Hx. apply Hn in Hx. unfold active_of in Hx.
  unfold both_active. rewrite andb_false_iff, Z.eqb_neq in Hx. split; intros (? & ? & ?); destruct Hx; congruence.
Qed.
Lemma subs_ok_alter ss next us ps i g :
  (∀ s, us_id (g s) = us_id s ∧ us_user_id (g s) = us_user_id s) →
  (∀ s, us_is_active (g s) = true → us_is_active s = true) →
  (∀ s, ss !! i = Some s → is_Some (ps !! us_plan_id (g s))) →
  subs_ok ss next us ps → subs_ok (alter g i ss) next us ps.
Proof.
  intros Hg Ha Hp [K A U R]. split.
  - apply keyed_alter; [|done]. intros s. by destruct (Hg s).
  - apply unique_alter; [done|]. intros b k a Hb Hk Hne. unfold both_active. destruct (Hg b) as [_ ->].
    split; intros (? & ? & ?); destruct Hne; [symmetry|];
      eapply A; eauto; unfold both_active; auto.
  - apply refers_alter; [|done]. intros s. by destruct (Hg s).
  - intros k a [(-> & b & Hb & ->)|[_ Hk]]%lookup_alter_Some; [by apply Hp|eauto].
Qed.

Lemma orders_ok_insert os next us ps o :
  orders_ok os next us ps → o_id o = next → is_Some (us !! o_user_id o) → is_Some (ps !! o_plan_id o) →
  status_ok o → find_row (is_order (o_order_no o)) os = None →
  orders_ok (<[next := o]> os) (Z.succ next) us ps.
Proof.
  intros [K N U R S] Hid Hu Hp Hs Hn.
  split; [by apply keyed_insert| |by apply refers_insert|by apply refers_insert|by apply map_Forall_insert_2].
  apply unique_insert; [done|]. intros k x Hx. eapply find_row_None in Hn; [|exact Hx].
  unfold is_order in Hn. bool_simp. unfold same_order. by split; [apply not_eq_sym|].
Qed.
Lemma orders_ok_update os next us ps P g :
  (∀ o, o_id (g o) = o_id o ∧ o_order_no (g o) = o_order_no o ∧ o_user_id (g o) = o_user_id o
        ∧ o_plan_id (g o) = o_plan_id o) →
  (∀ o, status_ok o → status_ok (g o)) →
  orders_ok os next us ps → orders_ok (update_where P g os) next us ps.
Proof.
  intros Hg Hst [K N U R S]. split.
  - apply keyed_update; [|done]. intros o. apply Hg.
  - apply unique_update; [|done]. unfold same_order. intros a b.
    destruct (Hg a) as (_ & Ha & _), (Hg b) as (_ & Hb & _). destruct (P a), (P b); congruence.
  - apply refers_update; [|done]. intros o. apply Hg.
  - apply refers_update; [|done]. intros o. apply Hg.
  - intros k o (b & Hb & ->)%lookup_update_where. apply S in Hb. destruct (P b); auto.
Qed.

Lemma peers_ok_replace r d : peers_ok (peers d) → peers_ok (peers (replace_peer r d)).
Proof.
  intros [K U]. unfold replace_peer. cbn. split.
  - apply map_Forall_insert_2; [done|]. intros id p [Hp _]%lookup_delete_where. by apply K.
  - intros k k' a a' Hk Hk' HR.
    apply lookup_insert_Some in Hk as [[<- <-]|[_ Hk]], Hk' as [[<- <-]|[_ Hk']]; try done.
    + apply lookup_delete_where in Hk' as [_ Hg]. bool_simp. by destruct Hg.
    + apply lookup_delete_where in Hk as [_ Hg]. bool_simp. by destruct Hg.
    + apply lookup_delete_where in Hk as [Hk _], Hk' as [Hk' _]. by eapply U.
Qed.
Lemma peers_ok_update ps P g :
  (∀ p, dp_id (g p) = dp_id p ∧ dp_guid (g p) = dp_guid p) → peers_ok ps → peers_ok (update_where P g ps).
Proof.
  intros Hg [K U]. split.
  - intros id p (b & Hb & ->)%lookup_update_where. apply K in Hb. destruct (P b); [|done]. by rewrite (proj1 (Hg b)).
  - intros k k' a a' (b & Hb & ->)%lookup_update_where (b' & Hb' & ->)%lookup_update_where HR.
    eapply U; eauto. unfold same_guid in *. destruct (Hg b) as [_ E], (Hg b') as [_ E'].
    destruct (P b), (P b'); congruence.
Qed.

(** ** The methods *)
Section methods.
Context `{Bcrypt} `{Uuid} `{Serde} `{SqlTime} `{TimeStamp}.

(** The methods of [Database] (database.rs, database_simple.rs, subscription.rs,
    payment.rs), those that only read included. *)
Inductive db_method : ∀ {A}, M Db A → Prop :=
| m_get_peer id : db_method (get_peer id)
| m_insert_peer_with_user id u k i uid dev : db_method (insert_peer_with_user id u k i uid dev)
| m_insert_peer id u k i : db_method (insert_peer id u k i)
| m_update_pk g id k i : db_method (update_pk g id k i)
| m_update_pk_with_user g id k i uid dev : db_method (update_pk_with_user g id k i uid dev)
| m_get_user_by_id id : db_method (get_user_by_id id)
| m_get_user_by_username n : db_method (get_user_by_username n)
| m_get_user_by_email n : db_method (get_user_by_email n)
| m_create_user r : db_method (create_user r)
| m_count_admins : db_method count_admins
| m_set_user_role id r : db_method (set_user_role id r)
| m_update_user id n e : db_method (update_user id n e)
| m_delete_user id : db_method (delete_user id)
| m_list_users l o : db_method (list_users l o)
| m_bootstrap n : db_method (bootstrap_admin_if_none n)
| m_resolve_binding uid dev id : db_method (resolve_peer_device_binding uid dev id)
| m_device_row_id uid dev : db_method (get_user_device_row_id uid dev)
| m_get_user_devices uid : db_method (get_user_devices uid)
| m_validate_ownership uid dev : db_method (validate_device_ownership uid dev)
| m_remove_device uid dev : db_method (remove_device_from_user uid dev)
| m_remove_device_simple uid dev : db_method (remove_device_from_user_simple uid dev)
| m_device_owner dev : db_method (get_device_owner dev)
| m_create_token uid : db_method (create_password_reset_token uid)
| m_validate_token t : db_method (validate_password_reset_token t)
| m_reset_password uid p : db_method (reset_password uid p)
| m_change_password uid p : db_method (change_password uid p)
| m_update_password uid p q : db_method (update_password uid p q)
| m_migrate_settings : db_method migrate_settings
| m_get_all_settings : db_method get_all_settings
| m_get_setting k : db_method (get_setting k)
| m_set_setting k v : db_method (set_setting k v)
| m_migrate_subscriptions : db_method migrate_subscriptions
| m_plans : db_method get_subscription_plans
| m_active_subscription uid : db_method (get_user_active_subscription uid)
| m_device_limit uid : db_method (get_user_device_limit uid)
| m_speed_limit uid : db_method (get_user_speed_limit uid)
| m_create_subscription uid p e n : db_method (create_user_subscription uid p e n)
| m_update_subscription s p e n : db_method (update_user_subscription s p e n)
| m_deactivate_subscription s : db_method (deactivate_user_subscription s)
| m_list_subscriptions l o : db_method (list_subscriptions l o)
| m_plan_id n : db_method (get_plan_id_by_name n)
| m_count_devices uid : db_method (count_user_active_devices uid)
| m_add_device r : db_method (add_device_to_user r)
| m_add_device_simple r : db_method (add_device_to_user_simple r)
| m_create_order uid p a c m : db_method (create_order uid p a c m)
| m_set_gateway no q u : db_method (set_order_gateway no q u)
| m_mark_paid no g : db_method (mark_order_paid no g)
| m_get_order no uid : db_method (get_order_by_no no uid)
| m_activate uid p : db_method (activate_subscription_for_order uid p).

(** A database after any methods, with time passing and statements failing. *)
Inductive db_reachable : Db → Prop :=
| db_start : db_reachable empty_db
| db_call A (m : M Db A) d : db_reachable d → db_method m → db_reachable (m d).2
| db_time t d : db_reachable d → db_reachable (upd_clock (λ c, c + Z.max 0 t) d)
| db_fault f d : db_reachable d → db_reachable (upd_faults (λ _, f) d).

Lemma keeps_draw : keeps db_ok (modify (upd_draws Z.succ)).
Proof. apply keeps_modify. intros d []. by split. Qed.

Lemma users_keep d us :
  db_ok d → users_ok us (next_user d) → (∀ k, is_Some (users d !! k) → is_Some (us !! k)) →
  db_ok (upd_users (λ _, us) d).
Proof.
  intros [_ [] [] ? [] [] ?] Hu Hs.
  split; cbn; try done; split; cbn; try done; by eapply refers_to.
Qed.
Lemma change_user_ok d g i :
  (∀ u, user_id (g u) = user_id u ∧ username (g u) = username u ∧ email (g u) = email u) →
  (∀ u, role_ok u → role_ok (g u)) → db_ok d → db_ok (upd_users (alter g i) d).
Proof.
  intros Hg Hr Hd. apply (users_keep d (alter g i (users d))); [done| |].
  - apply users_ok_change; [done..|]. by destruct Hd.
  - intros k. apply is_Some_alter.
Qed.
Lemma update_users_ok d P g :
  (∀ u, user_id (g u) = user_id u ∧ username (g u) = username u ∧ email (g u) = email u) →
  (∀ u, role_ok u → role_ok (g u)) → db_ok d → db_ok (upd_users (update_where P g) d).
Proof.
  intros Hg Hr Hd. apply (users_keep d (update_where P g (users d))); [done| |].
  - apply users_ok_update; [done..|]. by destruct Hd.
  - intros k. apply is_Some_update.
Qed.

Lemma hash_keeps p : keeps db_ok (hash_password p).
Proof. unfold hash_password. keeps_steps. apply keeps_draw. Qed.

Lemma create_user_keeps r : keeps db_ok (create_user r).
Proof.
  unfold create_user. keeps_steps; [apply hash_keeps|]. unfold insert_user. apply keeps_stmt; [apply _|].
  intros d Hd. destruct (user_taken _ _ _ d) eqn:E; [done|]. destruct Hd as [U [] [] P [] [] Q].
  split; cbn; [by apply users_ok_insert; [..|left|]|..];
    try done; split; cbn; try done; by eapply refers_to; [intros k; apply is_Some_insert|].
Qed.
Lemma set_user_role_keeps id r : keeps db_ok (set_user_role id r).
Proof.
  unfold set_user_role. apply keeps_update; [apply _|]. intros d Hd.
  apply (change_user_ok d (set_role _ (clock d)) id); [done| |done].
  intros u _. unfold role_ok. cbn. case_match; auto.
Qed.
Lemma update_user_keeps id n e : keeps db_ok (update_user id n e).
Proof.
  unfold update_user. apply keeps_stmt; [apply _|]. intros d Hd.
  destruct (users d !! id) as [u|] eqn:E; [|done]. destruct (user_taken _ _ _ d) eqn:Et; [done|].
  apply (users_keep d (alter (set_names n e (clock d)) id (users d))); [done| |].
  - eapply users_ok_rename; [by destruct Hd|done|done].
  - intros k. apply is_Some_alter.
Qed.
Lemma delete_user_keeps id : keeps db_ok (delete_user id).
Proof.
  unfold delete_user. apply keeps_update; [apply _|].
  intros d [U [V1 V2 V3] [T1 T2] P [S1 S2 S3 S4] [O1 O2 O3 O4 O5] Q].
  assert (Hs := λ A (P : A → bool) (m : gmap Z A), delete_where_subseteq P m).
  split; cbn; [by apply users_ok_delete|..]; try done; split; cbn; try done.
  all: eauto using keyed_subseteq, unique_subseteq, refers_subseteq, refers_cascade.
  intros k o [Ho _]%lookup_delete_where. by eapply O5.
Qed.
Lemma bootstrap_keeps n : keeps db_ok (bootstrap_admin_if_none n).
Proof.
  unfold bootstrap_admin_if_none, pool_get, count_admins. keeps_steps.
  - apply keeps_stmt; [apply _|]. intros d Hd. cbn.
    apply (update_users_ok d _ (λ u, set_role USER_ROLE_ADMIN (user_updated_at u) u)); [done| |done].
    intros u _. by right.
  - apply keeps_update; [apply _|]. intros d Hd.
    apply (update_users_ok d _ (λ u, set_role USER_ROLE_ADMIN (user_updated_at u) u)); [done| |done].
    intros u _. by right.
Qed.
Lemma replace_device_keeps r : keeps db_ok (replace_device r).
Proof.
  unfold replace_device. apply keeps_stmt; [apply _|]. intros d Hd.
  destruct (users d !! _) as [u|] eqn:Eu; [|done]. destruct Hd. split; cbn; try done.
  by apply (devices_ok_replace _ _ _ (mkUserDevice _ _ _ _ _ _)).
Qed.
Lemma update_devices_keeps cols uid did : keeps db_ok (update_devices cols (deactivate_device uid did)).
Proof.
  unfold update_devices. apply keeps_stmt; [apply _|]. intros d Hd. case_match; [|done].
  destruct Hd. split; cbn; try done. by apply (devices_ok_deactivate d).
Qed.
Lemma add_device_keeps r : keeps db_ok (add_device_to_user r) ∧ keeps db_ok (add_device_to_user_simple r).
Proof.
  unfold add_device_to_user, add_device_to_user_simple, get_user_device_limit, get_user_active_subscription,
    count_devices, pool_get.
  split; keeps_steps; apply replace_device_keeps.
Qed.

Lemma create_token_keeps uid : keeps db_ok (create_password_reset_token uid).
Proof.
  unfold create_password_reset_token. keeps_steps; [apply keeps_draw|].
  apply keeps_stmt; [apply _|]. intros d Hd. destruct (users d !! uid) eqn:Eu; [|done].
  case_bool_decide as Hn; [done|]. destruct Hd. split; cbn; try done.
  apply (tokens_ok_insert _ _ _ (mkResetToken uid _ _ _)); [done|by eexists|exact (λ C, C Hn)].
Qed.
Lemma reset_password_keeps uid p : keeps db_ok (reset_password uid p).
Proof.
  unfold reset_password. keeps_steps; [apply hash_keeps|]. apply keeps_update; [apply _|]. intros d Hd.
  assert (Hd' : db_ok (upd_tokens (update_where (λ t, (rt_user_id t =? uid) && negb (rt_is_used t)) use_token) d)).
  { destruct Hd. split; cbn; try done. by apply tokens_ok_use. }
  by apply (change_user_ok _ (set_password_hash a (clock d)) uid) in Hd'.
Qed.
Lemma change_password_keeps uid p : keeps db_ok (change_password uid p).
Proof.
  unfold change_password. keeps_steps; [apply hash_keeps|]. apply keeps_update; [apply _|]. intros d Hd.
  by apply change_user_ok.
Qed.
Lemma update_password_keeps uid p q : keeps db_ok (update_password uid p q).
Proof. unfold update_password, get_user_by_id. keeps_steps. apply change_password_keeps. Qed.

Lemma settings_keep f : keeps db_ok (update (upd_settings f)).
Proof. apply keeps_update; [apply _|]. intros d []. by split. Qed.
Lemma migrate_settings_keeps : keeps db_ok migrate_settings.
Proof.
  unfold migrate_settings. generalize default_settings. intros l.
  induction l as [|[k v] l IH]; cbn; keeps_steps; [apply settings_keep|apply IH].
Qed.

Lemma insert_plan_ok p d : db_ok d → db_ok (insert_plan p d).
Proof.
  intros [U V T P S O Q]. pose proof (plans_ok_insert d p P) as Hp. pose proof (plans_grow p d) as Hg.
  destruct (insert_plan_frame p d) as (ps & n & E). rewrite E in Hp, Hg |- *. cbn in Hp, Hg.
  destruct S, O. split; cbn; try done; split; cbn; try done; by eapply refers_to.
Qed.
Lemma migrate_subscriptions_keeps : keeps db_ok migrate_subscriptions.
Proof.
  apply keeps_update; [apply _|]. generalize seed_plans. intros l.
  induction l as [|p l IH]; cbn; [done|]. intros d Hd. by apply IH, insert_plan_ok.
Qed.
(** Between its two statements the user has no active subscription. *)
Definition none_active_of (uid : Z) (d : Db) : Prop :=
  db_ok d ∧ ∀ k s, subs d !! k = Some s → active_of uid s = false.
#[local] Instance none_active_fault_blind uid : FaultBlind (none_active_of uid).
Proof. intros f d [? ?]. split; [by apply fault_blind|done]. Qed.

Lemma insert_subscription_ok uid p e n :
  ensures (none_active_of uid) (insert_subscription uid p e n) (λ _, db_ok).
Proof.
  unfold insert_subscription. apply ensures_stmt; [apply _| |by intros d [? _]].
  intros d [[U V T P S O R] Hn].
  destruct (users d !! uid) eqn:Eu; [|by split]. destruct (plans d !! p) eqn:Ep; [|by split].
  split; cbn; try done. by apply subs_ok_insert.
Qed.
Lemma create_subscription_keeps uid p e n : keeps db_ok (create_user_subscription uid p e n).
Proof.
  refine (ensures_rbind db_ok _ (λ r d, match r with Ok _ => none_active_of uid d | Err _ => db_ok d end)
    _ (λ _, db_ok) _ _ _); [|intros _; apply insert_subscription_ok|done].
  apply ensures_stmt; [apply _| |done]. intros d Hd. split; [|apply none_active].
  destruct Hd. split; cbn; try done. by apply subs_ok_deactivate.
Qed.
Lemma deactivate_subscription_keeps i : keeps db_ok (deactivate_user_subscription i).
Proof.
  apply keeps_update; [apply _|]. intros d []. split; cbn; try done.
  apply subs_ok_alter; try done. intros s Hs. exact (subs_plans _ _ _ _ ok_subs0 i s Hs).
Qed.
Lemma update_subscription_keeps i p e n : keeps db_ok (update_user_subscription i p e n).
Proof.
  assert (Hset : ∀ d, db_ok d → is_Some (subs d !! i) → (∀ q, p = Some q → is_Some (plans d !! q)) →
    db_ok (upd_subs (alter (set_sub p e n) i) d)).
  { intros d [] Hi Hp. split; cbn; try done. apply subs_ok_alter; try done.
    intros s Hs. cbn. destruct p as [q|]; cbn; [by apply Hp|]. exact (subs_plans _ _ _ _ ok_subs0 i s Hs). }
  assert (Hno : ∀ d, db_ok d → subs d !! i = None → db_ok (upd_subs (alter (set_sub p e n) i) d)).
  { intros d Hd Hi. assert (E : upd_subs (alter (set_sub p e n) i) d = upd_subs id d); [|rewrite E; by destruct Hd].
    unfold upd_subs. rewrite alter_id; [done|]. intros s Hs. congruence. }
  unfold update_user_subscription, pool_get. keeps_steps; apply keeps_stmt; try apply _; intros d Hd.
  all: destruct (subs d !! i) as [row|] eqn:Es; [|by apply Hno].
  all: try (destruct (plans d !! _) as [q|] eqn:Eq; [|done]).
  all: apply Hset; [done|by eexists|]; intros q' Hq'; simplify_eq; eauto.
Qed.

Lemma create_order_keeps uid p a c m : keeps db_ok (create_order uid p a c m).
Proof.
  unfold create_order. keeps_steps; [apply keeps_draw|]. unfold insert_order. apply keeps_stmt; [apply _|].
  intros d Hd. destruct (users d !! uid) as [u|] eqn:Eu; [|done]. destruct (plans d !! p) as [q|] eqn:Ep; [|done].
  destruct (find_row _ (orders d)) eqn:Eo; [done|]. destruct Hd. split; cbn; try done.
  apply orders_ok_insert; cbn; try done. by left.
Qed.
Lemma set_gateway_keeps no q u : keeps db_ok (set_order_gateway no q u).
Proof.
  apply keeps_update; [apply _|]. intros d []. split; cbn; try done. by apply orders_ok_update.
Qed.
Lemma settle_keeps no g : keeps db_ok (settle_order no g).
Proof.
  apply keeps_update; [apply _|]. intros d []. split; cbn; try done. apply orders_ok_update; try done.
  intros o _. right. by split.
Qed.
Lemma mark_paid_keeps no g : keeps db_ok (mark_order_paid no g).
Proof.
  unfold mark_order_paid, select_order, settle_existing. keeps_steps. apply settle_keeps.
Qed.
Lemma activate_keeps uid p : keeps db_ok (activate_subscription_for_order uid p).
Proof.
  assert (Hv : ∀ A (m : DbM A), keeps db_ok m → keeps db_ok ((λ _, tt) <$> m)).
  { intros A m Hm d Hd. unfold fmap, M_fmap. specialize (Hm d Hd). by destruct (m d). }
  unfold activate_subscription_for_order, get_user_active_subscription. keeps_steps; apply Hv.
  - apply deactivate_subscription_keeps.
  - apply create_subscription_keeps.
Qed.

Lemma peer_rows_keep g id f :
  (∀ r, dp_id (f r) = dp_id r ∧ dp_guid (f r) = dp_guid r) →
  keeps db_ok (update (upd_peers (update_where (peer_key g id) f))).
Proof.
  intros Hf. apply keeps_update; [apply _|]. intros d []. split; cbn; try done. by apply peers_ok_update.
Qed.
Lemma insert_peer_keeps id u k i uid dev : keeps db_ok (insert_peer_with_user id u k i uid dev).
Proof.
  unfold insert_peer_with_user. keeps_steps; [apply keeps_draw|]. apply keeps_update; [apply _|].
  intros d []. split; try done. by apply peers_ok_replace.
Qed.

Lemma db_method_keeps {A} (m : M Db A) : db_method m → keeps db_ok m.
Proof.
  destruct 1; try (keeps_unfold; keeps_steps; fail).
  all: try (unfold get_user_device_limit, get_user_speed_limit, get_user_active_subscription,
    count_user_active_devices, count_devices, validate_device_ownership, resolve_peer_device_binding, pool_get;
    keeps_steps; fail).
  all: eauto using create_user_keeps, set_user_role_keeps, update_user_keeps, delete_user_keeps, bootstrap_keeps,
    update_devices_keeps, create_token_keeps, reset_password_keeps, change_password_keeps, update_password_keeps,
    settings_keep, migrate_settings_keeps, migrate_subscriptions_keeps, create_subscription_keeps,
    update_subscription_keeps, deactivate_subscription_keeps, create_order_keeps, set_gateway_keeps,
    mark_paid_keeps, activate_keeps, insert_peer_keeps.
  all: try by apply peer_rows_keep. all: by apply add_device_keeps.
Qed.

End methods.

(** A user with a subscription to a seeded plan, one with two attempts. *)
Definition demo_stamp : TimeStamp := to_string.
Definition demo_db : Db :=
  let d := (@create_user TestBcrypt demo_user empty_db).2 in
  let d := (migrate_subscriptions d).2 in
  let d := (create_user_subscription 1 2 None None d).2 in
  (create_user_subscription 1 3 None None d).2.

Lemma demo_reachable : @db_reachable TestBcrypt TestUuid TestSerde TestSqlTime demo_stamp demo_db.
Proof.
  unfold demo_db. cbv zeta.
  apply db_call; [|constructor]. apply db_call; [|constructor]. apply db_call; [|constructor].
  apply db_call; [|constructor]. apply db_start.
Qed.

