(* ===== verification/DbSpec.v ===== *)
(** * What the database methods guarantee

    Reset tokens and subscriptions end, devices stay under the limit of the
    subscription, orders are paid once: the behaviour of the methods of
    Database.v, Subscription.v and Orders.v on consistent databases. *)
From Stdlib Require Import Ascii.
From S2P Require Import Prelude Text Auth Database Instances Subscription Orders DbInvariant.
Local Open Scope Z_scope.

(** ** Expiry on texts *)

Lemma Ascii_compare_refl c : Ascii.compare c c = Eq.
Proof. pose proof (Ascii.compare_antisym c c) as E. by destruct (Ascii.compare c c). Qed.
Lemma compare_app_same p a b : String.compare (p +:+ a) (p +:+ b) = String.compare a b.
Proof.
  induction p as [|c p IH]; [done|].
  change (match Ascii.compare c c with Eq => String.compare (p +:+ a) (p +:+ b) | x => x end = String.compare a b).
  by rewrite Ascii_compare_refl, IH.
Qed.

(** sqlx writes [T] between date and time, SQLite a blank, so that on the day
    of the expiry the column is above every time of the day. *)
Lemma unexpired_text `{SqlTimeLaws} e t :
  0 <= e → 0 <= t → e / 86400 < max_day → t / 86400 < max_day →
  text_gt (datetime_text e) (now_text t) = (t / 86400 <=? e / 86400).
Proof.
  intros He Ht Hed Htd. destruct (datetime_text_split e) as [x ->], (now_text_split t) as [y ->].
  assert (0 <= e / 86400) by (apply Z.div_pos; lia). assert (0 <= t / 86400) by (apply Z.div_pos; lia).
  unfold text_gt. destruct (Z.leb_spec (t / 86400) (e / 86400)) as [Hle|Hlt].
  - destruct (decide (t / 86400 = e / 86400)) as [->|Hne]; [by rewrite compare_app_same|].
    rewrite String.compare_antisym, date_text_order by lia. done.
  - by rewrite date_text_order by lia.
Qed.

Definition at_time (t : Z) (d : Db) : Db := upd_clock (λ _, t) d.
Definition day (t : Z) : Z := t / 86400.

(** ** Passwords *)
Section passwords.
Context `{Bcrypt} `{Uuid} `{SqlTime}.

Lemma create_token_run uid d token d' :
  faults d = [] → create_password_reset_token uid d = (Ok token, d') →
  ∃ k, tokens d' = <[k := mkResetToken uid token (clock d + 3600) false]> (tokens d)
    ∧ faults d' = [] ∧ rows_where (λ t, seqb (rt_token t) token) (tokens d) = [].
Proof.
  intros Hf. unfold create_password_reset_token. run_monad. rewrite rbind_run, stmt_ok by done.
  cbn -[rows_where]. destruct (users d !! uid); [|done]. case_bool_decide as Hn; [done|].
  intros [= <- <-]. exists (next_token d). cbn. split_and!; done.
Qed.

(** A reset token is to last one hour, and lasts until the end of the day
    (UTC) its hour ends in: the condition [expires_at > datetime('now')]
    compares texts of two formats. *)
Theorem reset_token_lasts_all_day `{!SqlTimeLaws date_text} uid d token d' t :
  faults d = [] → 0 <= clock d → 0 <= t → day (clock d + 3600) < max_day → day t < max_day →
  create_password_reset_token uid d = (Ok token, d') →
  (validate_password_reset_token token (at_time t d')).1
    = Ok (if day t <=? day (clock d + 3600) then Some uid else None).
Proof.
  intros Hf Hc Ht Hd Hdt (k & Hk & Hf' & Hno)%create_token_run; [|done].
  unfold validate_password_reset_token. rewrite query_ok by done. cbn -[find_row]. rewrite Hk.
  set (tok := mkResetToken uid token _ _).
  assert (Hval : token_valid t token tok = (day t <=? day (clock d + 3600))).
  { unfold token_valid. cbn. rewrite bool_decide_eq_true_2 by done. cbn.
    rewrite unexpired_text by (unfold day in *; lia). by rewrite andb_true_r. }
  assert (Hsame : ∀ k' a', <[k:=tok]> (tokens d) !! k' = Some a' → token_valid t token a' = true → a' = tok).
  { intros k' a' [[_ <-]|[_ Ha]]%lookup_insert_Some; [done|]. unfold token_valid. intros Hv. bool_simp.
    exfalso. eapply (proj1 (rows_where_nil _ _) Hno) in Ha. bool_simp. done. }
  f_equal. destruct (day t <=? _) eqn:E.
  - by rewrite (find_row_unique _ _ k tok) by (rewrite ?lookup_insert_eq; done).
  - destruct (find_row _ _) as [x|] eqn:Ex; [|done]. exfalso.
    apply find_row_Some in Ex as (Hv & k' & Hx). rewrite (Hsame _ _ Hx Hv) in Hv. congruence.
Qed.

Lemma reset_password_run uid pw d d' :
  reset_password uid pw d = (Ok tt, d') →
  ∃ h, bcrypt_hash (draws d) pw = Some h ∧ clock d' = clock d
    ∧ users d' = alter (set_password_hash h (clock d)) uid (users d)
    ∧ tokens d' = update_where (λ t, (rt_user_id t =? uid) && negb (rt_is_used t)) use_token (tokens d).
Proof.
  unfold reset_password, hash_password. rewrite rbind_run. run_monad.
  destruct (bcrypt_hash (draws d) pw) as [h|]; [|done]. unfold update, stmt. cbn.
  destruct (faults d) as [|[] r]; intros [= <-]; by exists h.
Qed.

(** After a reset the user's new password verifies, and no reset token of
    the user is valid any more, at any time. *)
Theorem reset_password_single_use `{!BcryptLaws} uid pw d d' u :
  reset_password uid pw d = (Ok tt, d') → users d !! uid = Some u →
  (∃ u', users d' !! uid = Some u' ∧ bcrypt_verify pw (password_hash u') = true
     ∧ username u' = username u ∧ role u' = role u)
  ∧ ∀ t token, (validate_password_reset_token token (at_time t d')).1 ≠ Ok (Some uid).
Proof.
  intros (h & Hh & _ & Hu & Ht)%reset_password_run Huid. split.
  - rewrite Hu, lookup_alter_eq, Huid. eexists. split; [done|]. cbn. split; [|done].
    by eapply bcrypt_verify_hash.
  - intros t token. unfold validate_password_reset_token, query, stmt. cbn -[find_row].
    destruct (faults d') as [|[] r]; cbn -[find_row]; try done.
    all: destruct (find_row _ _) as [x|] eqn:E; cbn; [|done]; intros [= Hx].
    all: apply find_row_Some in E as (Hv & k & Hk); rewrite Ht in Hk;
      apply lookup_update_where in Hk as (b & _ & ->); unfold token_valid in Hv.
    all: destruct (rt_user_id b =? uid) eqn:Eb, (rt_is_used b) eqn:Eu; cbn in *;
      rewrite ?Eu, ?andb_false_r in Hv; bool_simp; done.
Qed.
End passwords.

Definition ann_db : Db := (@create_user TestBcrypt demo_user empty_db).2.

(** A token issued at midnight is valid in the last second of the day. *)
Lemma reset_token_lasts_all_day_witness :
  let r := @create_password_reset_token TestUuid 1 ann_db in
  r.1 = Ok "1"%string
  ∧ (@validate_password_reset_token TestSqlTime "1" (at_time 86399 r.2)).1 = Ok (Some 1).
Proof.
  intros r. split; [vm_compute; reflexivity|].
  exact (@reset_token_lasts_all_day TestUuid TestSqlTime test_date TestSqlTimeLaws 1 ann_db "1" r.2 86399
    eq_refl ltac:(vm_compute; discriminate) ltac:(vm_compute; discriminate) eq_refl eq_refl
    ltac:(vm_compute; reflexivity)).
Defined.

Lemma reset_password_single_use_witness :
  let d := (@create_password_reset_token TestUuid 1 ann_db).2 in
  let r := @reset_password TestBcrypt 1 "other" d in
  r.1 = Ok tt ∧ (@validate_password_reset_token TestSqlTime "1" (at_time 0 d)).1 = Ok (Some 1)
  ∧ ∀ t token, (@validate_password_reset_token TestSqlTime token (at_time t r.2)).1 ≠ Ok (Some 1).
Proof.
  intros d r. split; [vm_compute; reflexivity|]. split; [vm_compute; reflexivity|].
  refine (proj2 (@reset_password_single_use TestBcrypt TestSqlTime TestBcryptLaws 1 "other" d r.2
    (mkUser 1 "ann" "ann@x" "secret" 0 0 true "user") _ _)); vm_compute; reflexivity.
Defined.

(** ** Devices *)
Section devices.
Context `{Bcrypt} `{Uuid} `{Serde} `{SqlTime}.

(** Replacing the row of a device adds at most one active device. *)
Lemma count_replace uid d r n d' :
  faults d = [] → replace_device r d = (Ok n, d') → cdr_user_id r = uid →
  count_where (active_device uid) (devices d') <= count_where (active_device uid) (devices d) + 1
  ∧ devices d' !! n = Some (mkUserDevice n uid (cdr_device_id r) (cdr_device_name r) (clock d) true)
  ∧ (∀ k v, devices d' !! k = Some v → k ≠ n → devices d !! k = Some v).
Proof.
  intros Hf. unfold replace_device. rewrite stmt_ok by done. intros Hr <-.
  destruct (users d !! _); [|done]. injection Hr as <- <-. cbn -[count_where]. split_and!.
  - etrans; [apply count_where_insert|]. apply Z.add_le_mono_r, count_where_subseteq, delete_where_subseteq.
  - by rewrite lookup_insert_eq.
  - intros k v [[<- _]|[_ Hk]]%lookup_insert_Some Hne; [done|]. by apply lookup_delete_where in Hk as [? _].
Qed.


(** [remove_device_from_user] never removes a device: its statement sets a
    column [deleted_at] that the table does not have.  The route
    [DELETE /api/devices/:device_id] uses it; the other route uses
    [remove_device_from_user_simple], which works. *)
Theorem remove_device_never_works uid did d :
  (∀ e, (remove_device_from_user uid did d).1 ≠ Ok e)
  ∧ devices (remove_device_from_user uid did d).2 = devices d
  ∧ (faults d = [] → remove_device_from_user_simple uid did d = (Ok tt, deactivate_device uid did d)).
Proof.
  unfold remove_device_from_user, remove_device_from_user_simple, update_devices, stmt. cbn.
  split_and!; [| |by intros ->]; by destruct (faults d) as [|[] r].
Qed.
End devices.


(** ** Orders *)
Section orders.
Context `{SqlTime}.

Lemma find_order d k o :
  db_ok d → orders d !! k = Some o → find_row (is_order (o_order_no o)) (orders d) = Some o.
Proof.
  intros Hd Hk. apply (find_row_unique _ _ k o Hk); [by apply bool_decide_eq_true_2|].
  intros k' o' Hk' Ho'. unfold is_order in Ho'. bool_simp.
  assert (k' = k) as -> by (by eapply (orders_unique _ _ _ _ (ok_orders d Hd))). congruence.
Qed.

Lemma settle_lookup d no g k o :
  orders d !! k = Some o → pending_order no o = true →
  orders (upd_orders (update_where (pending_order no) (set_paid g (clock d))) d) !! k
    = Some (set_paid g (clock d) o).
Proof. intros Hk Hp. cbn. unfold update_where. rewrite lookup_fmap, Hk. cbn. by rewrite Hp. Qed.

(** C21. Callbacks one after another pay an order once: the first finds it
    pending, records the payment and returns the user and the plan; every later
    one, with whatever payment id, changes nothing and returns [None]. *)
Theorem order_paid_once d k o g g' :
  db_ok d → faults d = [] → orders d !! k = Some o → o_status o = ORDER_PENDING →
  let no := o_order_no o in
  ∃ d', mark_order_paid no g d = (Ok (Some (o_user_id o, o_plan_id o)), d')
    ∧ orders d' !! k = Some (set_paid g (clock d) o)
    ∧ (∀ k', k' ≠ k → orders d' !! k' = orders d !! k')
    ∧ mark_order_paid no g' d' = (Ok None, d').
Proof.
  intros Hd Hf Hk Ho no. pose proof (find_order d k o Hd Hk) as Hfind. fold no in Hfind.
  assert (Hpend : pending_order no o = true).
  { unfold pending_order, is_order. by rewrite !bool_decide_eq_true_2. }
  set (d' := upd_orders (update_where (pending_order no) (set_paid g (clock d))) d).
  assert (Hk' : orders d' !! k = Some (set_paid g (clock d) o)) by by apply settle_lookup.
  assert (Hd' : db_ok d').
  { pose proof (settle_keeps no g d Hd) as Hs. unfold settle_order in Hs. by rewrite update_ok in Hs. }
  assert (Hrun : ∀ g x d0, faults d0 = [] → find_row (is_order no) (orders d0) = Some x →
    mark_order_paid no g d0 = settle_existing no g (Some x) d0).
  { intros g0 x d0 Hf0 Hx. unfold mark_order_paid, select_order. db_run. by rewrite Hx. }
  exists d'. split_and!.
  - rewrite (Hrun g o d Hf Hfind). unfold settle_existing, settle_order. rewrite Ho.
    rewrite bool_decide_eq_false_2 by done. by rewrite rbind_run, update_ok by done.
  - done.
  - intros k' Hne. cbn. unfold update_where. rewrite lookup_fmap. destruct (orders d !! k') as [x|] eqn:Ex; cbn; [|done].
    destruct (pending_order no x) eqn:Ep; [|done]. destruct Hne. unfold pending_order, is_order in Ep. bool_simp.
    by eapply (orders_unique _ _ _ _ (ok_orders d Hd)).
  - rewrite (Hrun g' (set_paid g (clock d) o) d'); [done|exact Hf|]. by apply (find_order d' k (set_paid g (clock d) o)).
Qed.

(** Two callbacks that both read the order before either of them writes are
    both told that theirs is the first: the row is changed by the first only,
    but [mark_order_paid] does not look at the number of rows its update
    changed. *)
Theorem interleaved_callbacks_both_paid d k o g g' :
  db_ok d → faults d = [] → orders d !! k = Some o → o_status o = ORDER_PENDING →
  let no := o_order_no o in
  let read := select_order no d in
  let first := rbind (λ _, read) (settle_existing no g) d in
  let second := rbind (λ _, (read.1, first.2)) (settle_existing no g') d in
  first.1 = Ok (Some (o_user_id o, o_plan_id o)) ∧ second.1 = Ok (Some (o_user_id o, o_plan_id o))
  ∧ orders second.2 !! k = Some (set_paid g (clock d) o).
Proof.
  intros Hd Hf Hk Ho no. pose proof (find_order d k o Hd Hk) as Hfind. fold no in Hfind.
  assert (Hpend : pending_order no o = true).
  { unfold pending_order, is_order. by rewrite !bool_decide_eq_true_2. }
  unfold select_order. rewrite query_ok, Hfind by done. cbn zeta.
  rewrite !rbind_run. cbn [fst snd]. unfold settle_existing. rewrite Ho.
  rewrite !bool_decide_eq_false_2 by done. unfold settle_order. rewrite !rbind_run, update_ok by done.
  cbn -[update_where]. rewrite update_ok by done. split_and!; [done..|].
  cbn -[update_where]. unfold update_where at 1. rewrite lookup_fmap.
  pose proof (settle_lookup d no g k o Hk Hpend) as Hl. cbn -[update_where] in Hl. rewrite Hl.
  unfold pending_order. cbn. by rewrite andb_false_r.
Qed.
End orders.

Definition order_db : Db :=
  let d := (migrate_subscriptions ann_db).2 in
  (@create_order TestUuid demo_stamp 1 2 "9.90" "CNY" "alipay" d).2.
Definition demo_order : Order :=
  mkOrder 1 "ORD01" 1 2 "9.90" "CNY" "alipay" "pending" None None None None 0.

Lemma order_db_ok : db_ok order_db.
Proof.
  do 3 (apply (@db_method_keeps TestBcrypt TestUuid TestSerde TestSqlTime demo_stamp); [constructor|]).
  apply db_ok_empty.
Qed.

Lemma order_paid_once_witness :
  ∃ d', mark_order_paid "ORD01" "gw" order_db = (Ok (Some (1, 2)), d')
    ∧ mark_order_paid "ORD01" "other" d' = (Ok None, d').
Proof.
  destruct (order_paid_once order_db 1 demo_order "gw" "other" order_db_ok) as (d' & H1 & _ & _ & H2);
    [vm_compute; reflexivity ..|]. exists d'. exact (conj H1 H2).
Defined.

Lemma interleaved_callbacks_both_paid_witness :
  let read := select_order "ORD01" order_db in
  let first := rbind (λ _, read) (settle_existing "ORD01" "gw") order_db in
  first.1 = Ok (Some (1, 2)) ∧ (rbind (λ _, (read.1, first.2)) (settle_existing "ORD01" "other") order_db).1 = Ok (Some (1, 2)).
Proof.
  intros read first. destruct (interleaved_callbacks_both_paid order_db 1 demo_order "gw" "other" order_db_ok) as (H1 & H2 & _);
    [vm_compute; reflexivity ..|]. exact (conj H1 H2).
Defined.

(** ** Subscriptions *)
Lemma rows_where_only {A} (P : A → bool) (m : gmap Z A) k a :
  m !! k = Some a → (∀ k' a', m !! k' = Some a' → P a' = true → k' = k) →
  rows_where P m = if P a then [a] else [].
Proof.
  intros Hk Honly. destruct (P a) eqn:EP.
  - assert (Hsz : count_where P m = 1).
    { rewrite count_where_size. replace (filter _ m) with ({[k := a]} : gmap Z A); [by rewrite map_size_singleton|].
      apply map_eq. intros i. symmetry. destruct (decide (i = k)) as [->|Hne].
      - rewrite lookup_singleton_eq. by apply map_lookup_filter_Some.
      - rewrite lookup_singleton_ne by done. apply map_lookup_filter_None. right. intros x Hx HP. by destruct (Honly i x Hx HP). }
    assert (Hin : a ∈ rows_where P m) by (apply elem_of_rows_where; eauto).
    unfold count_where, zlen in Hsz. destruct (rows_where P m) as [|b [|c l]]; cbn in Hsz; [lia| |lia].
    apply list_elem_of_singleton in Hin. by subst.
  - apply rows_where_nil. intros k' a' Hk'. destruct (P a') eqn:E; [|done].
    rewrite (Honly k' a' Hk' E) in Hk'. congruence.
Qed.

Section subscriptions.
Context `{SqlTime}.

(** The limit of a user with one active subscription. *)
Lemma device_limit_only uid d k s p :
  faults d = [] → subs d !! k = Some s → active_of uid s = true →
  (∀ k' s', subs d !! k' = Some s' → active_of uid s' = true → k' = k) →
  plans d !! us_plan_id s = Some p →
  get_user_device_limit uid d
    = (Ok (if unexpired (clock d) s then sp_device_limit p else FREE_DEVICE_LIMIT), d).
Proof.
  intros Hf Hk Ha Honly Hp. unfold get_user_device_limit, get_user_active_subscription. db_run.
  rewrite (rows_where_only _ _ k s Hk).
  - rewrite Ha. cbn [andb]. destruct (unexpired (clock d) s); cbn; [|done].
    unfold join_plan. rewrite Hp. cbn. done.
  - intros k' s' Hk' HP. bool_simp. eauto.
Qed.

Definition new_sub (uid plan : Z) (e : option Z) (n : option string) (d : Db) : SubRow :=
  mkSubRow (next_sub d) uid plan (clock d) e true n (clock d).

Lemma create_subscription_run uid plan e n d :
  faults d = [] → is_Some (users d !! uid) → is_Some (plans d !! plan) →
  create_user_subscription uid plan e n d =
    (Ok (next_sub d), upd_next_sub Z.succ (upd_subs (λ m,
       <[next_sub d := new_sub uid plan e n d]> (update_where (active_of uid) set_inactive m)) d)).
Proof.
  intros Hf [u Hu] [p Hp]. unfold create_user_subscription, insert_subscription.
  rewrite rbind_run, update_ok by done. rewrite stmt_ok by done. cbn. by rewrite Hu, Hp.
Qed.

(** A paid order gives its user the plan for thirty days, counted from the
    payment (what was left of an earlier subscription is lost): it is the only
    active subscription, and its limit holds until the end of the day (UTC) the
    thirty days end in, the free limit after that. *)
Theorem activation_sets_limit `{!SqlTimeLaws date_text} uid plan p d :
  faults d = [] → is_Some (users d !! uid) → plans d !! plan = Some p →
  0 <= clock d → day (clock d + 30 * 86400) < max_day →
  let d' := (activate_subscription_for_order uid plan d).2 in
  (∃ k, ∀ k' s, subs d' !! k' = Some s → active_of uid s = true ↔ k' = k ∧ us_plan_id s = plan
     ∧ us_expires_at s = Some (clock d + 30 * 86400) ∧ us_user_id s = uid ∧ us_is_active s = true)
  ∧ ∀ t, 0 <= t → day t < max_day →
    (get_user_device_limit uid (at_time t d')).1
      = Ok (if day t <=? day (clock d + 30 * 86400) then sp_device_limit p else FREE_DEVICE_LIMIT).
Proof.
  intros Hf Hu Hp Hc Hday d'.
  assert (Hrun : ∃ d1, d' = (create_user_subscription uid plan (Some (clock d + 30 * 86400)) None d1).2
    ∧ faults d1 = [] ∧ users d1 = users d ∧ plans d1 = plans d ∧ clock d1 = clock d).
  { unfold d', activate_subscription_for_order, get_user_active_subscription. rewrite bind_run, query_ok by done.
    destruct (head _) as [s|]; run_monad.
    - unfold deactivate_user_subscription. rewrite update_ok by done.
      exists (upd_subs (alter set_inactive (s_id s)) d). split; [|done]. cbn. by destruct (create_user_subscription _ _ _ _ _).
    - exists d. split; [|done]. by destruct (create_user_subscription _ _ _ _ _). }
  destruct Hrun as (d1 & E & Hf1 & Hu1 & Hp1 & Hc1).
  rewrite create_subscription_run in E by (rewrite ?Hu1, ?Hp1; eauto). cbn [snd] in E.
  set (row := new_sub uid plan (Some (clock d + 30 * 86400)) None d1) in E.
  assert (Hsubs : ∀ k s, subs d' !! k = Some s → active_of uid s = true → k = next_sub d1 ∧ s = row).
  { rewrite E. cbn. intros k s [[<- <-]|[_ Hk]]%lookup_insert_Some Ha; [done|].
    rewrite (none_active _ _ _ _ Hk) in Ha. done. }
  assert (Hrow : subs d' !! next_sub d1 = Some row) by (rewrite E; apply lookup_insert_eq).
  assert (Hact : active_of uid row = true) by (unfold active_of; cbn; by rewrite Z.eqb_refl).
  split.
  - exists (next_sub d1). intros k' s Hs. split.
    + intros Ha. by destruct (Hsubs _ _ Hs Ha) as [-> ->].
    + intros (_ & _ & _ & <- & Ha). unfold active_of. by rewrite Z.eqb_refl.
  - intros t Ht Htd. rewrite (device_limit_only uid (at_time t d') (next_sub d1) row p).
    + cbn. by rewrite unexpired_text by (unfold day in *; lia).
    + by rewrite E.
    + done.
    + done.
    + intros k' s' Hs Ha. by destruct (Hsubs _ _ Hs Ha).
    + rewrite E. cbn. by rewrite Hp1.
Qed.
End subscriptions.

Lemma activation_sets_limit_witness :
  let d' := (@activate_subscription_for_order TestSqlTime 1 2 order_db).2 in
  (@get_user_device_limit TestSqlTime 1 (at_time (31 * 86400 - 1) d')).1 = Ok 5
  ∧ (@get_user_device_limit TestSqlTime 1 (at_time (31 * 86400) d')).1 = Ok 2.
Proof.
  intros d'. destruct (@activation_sets_limit TestSqlTime test_date TestSqlTimeLaws 1 2
    (mkPlan 2 "basic" "基础版" 5 5120 990 "最多5台设备，限速5Mbps" true) order_db) as [_ H];
    [vm_compute; first [reflexivity | discriminate | by eexists] ..|].
  fold d' in H. split; [apply (H (31 * 86400 - 1))|apply (H (31 * 86400))]; vm_compute; first [reflexivity | discriminate].
Defined.
