(* ===== verification/Api.v ===== *)
(** * The HTTP API: [src/api.rs], [src/device_api.rs], [src/password_reset.rs]

    A handler takes the secret of the tokens, the headers and the decoded body
    of a request, runs methods of the database and answers with a status or with
    an [ApiResponse].  Handlers that look at the connected peers take that map
    and the clock as arguments.  Times in answers are left as the times whose
    RFC 3339 text is sent; a message that ends with the text of an error carries
    the error. *)
From S2P Require Import Prelude Text Auth Database Subscription Peer.
Local Open Scope Z_scope.

Inductive StatusCode : Type :=
| OK_200 | BAD_REQUEST | UNAUTHORIZED | FORBIDDEN | NOT_FOUND | INTERNAL_SERVER_ERROR.

Inductive Message : Type :=
| Msg (text : string)
| MsgErr (text : string) (e : DbError).

(** [ApiResponse<T>] *)
Record ApiResponse (A : Type) : Type := mkResponse { success : bool; data : option A; message : Message }.
Arguments mkResponse {A} _ _ _.
Arguments success {A} _.
Arguments data {A} _.
Arguments message {A} _.

Definition api_success {A} (a : A) : ApiResponse A := mkResponse true (Some a) (Msg "操作成功").
Definition api_error {A} (m : Message) : ApiResponse A := mkResponse false None m.

Abbreviation HttpResult A := (result StatusCode (ApiResponse A)).
Abbreviation Handler A := (M Db (HttpResult A)).

Definition reply {A} (a : A) : Handler A := mret (Ok (api_success a)).
Definition refuse {A} (text : string) : Handler A := mret (Ok (api_error (Msg text))).
Definition failed {A} (text : string) (e : DbError) : Handler A := mret (Ok (api_error (MsgErr text e))).
Definition status {A} (s : StatusCode) : Handler A := mret (Err s).

(** Header names in lower case; the value is [None] when it is not text. *)
Abbreviation HeaderMap := (gmap string (option string)).
Definition header_text (h : HeaderMap) (name : string) : option string := mjoin (h !! name).

(** chrono: [s.parse::<DateTime<Utc>>()]. *)
Class ParseTime : Type := parse_time : string → option Z.

(** ** Who calls *)

Definition extract_bearer_token (headers : HeaderMap) : result StatusCode string :=
  match header_text headers "authorization" with
  | None => Err UNAUTHORIZED
  | Some raw =>
    let token := match strip_prefix "Bearer " raw with Some rest => trim rest | None => trim raw end in
    if bool_decide (token = ""%string) then Err UNAUTHORIZED else Ok token
  end.

Section callers.
Context `{Jwt}.

Definition decode_claims (secret : string) (now : Z) (token : string) : option Claims :=
  jwt_decode secret now token ≫= claims_of_json.
Definition jwt_sub_user_id (secret : string) (now : Z) (token : string) : option Z :=
  c ← decode_claims secret now token; parse_i64 (trim (c_sub c)).
Definition jwt_user_id_from_headers (secret : string) (now : Z) (headers : HeaderMap) : result StatusCode Z :=
  match extract_bearer_token headers with
  | Err s => Err s
  | Ok token => match jwt_sub_user_id secret now token with Some id => Ok id | None => Err UNAUTHORIZED end
  end.

(** [jwt_user_id_from_headers(..)?] *)
Definition with_caller {A} (secret : string) (headers : HeaderMap) (k : Z → Handler A) : Handler A :=
  now ← gets clock;
  match jwt_user_id_from_headers secret now headers with
  | Err s => mret (Err s)
  | Ok caller => k caller
  end.
End callers.

Definition db_user_is_admin (uid : Z) : M Db bool :=
  r ← get_user_by_id uid;
  mret (match r with Ok (Some u) => is_admin_row u | _ => false end).

Definition require_admin {A} (caller : Z) (k : Handler A) : Handler A :=
  admin ← db_user_is_admin caller;
  if (admin : bool) then k else status FORBIDDEN.
(** [caller != user_id && !db_user_is_admin(..)] *)
Definition require_self_or_admin {A} (caller uid : Z) (k : Handler A) : Handler A :=
  if negb (caller =? uid) then require_admin caller k else k.

(** ** Requests and answers *)

Record LoginRequest : Type := mkLogin { lq_username : string; lq_password : string; lq_device_id : option string }.
Record RegisterRequest : Type := mkRegister {
  rq_username : string; rq_email : string; rq_password : string; rq_confirm_password : string }.
Record ChangePasswordRequest : Type := mkChange {
  cq_old_password : string; cq_new_password : string; cq_confirm_password : string }.
Record PasswordResetConfirmRequest : Type := mkConfirm {
  pq_token : string; pq_new_password : string; pq_confirm_password : string }.
Record AdminCreateSubscriptionRequest : Type := mkAdminCreate {
  aq_user_id : Z; aq_plan_id : option Z; aq_plan_name : option string;
  aq_expires_at : option string; aq_notes : option string }.
Record AdminUpdateSubscriptionRequest : Type := mkAdminUpdate {
  auq_plan_id : option Z; auq_expires_at : option (option string); auq_notes : option string }.

Record UserInfo : Type := mkUserInfo {
  ui_id : Z; ui_username : string; ui_email : string; ui_created_at : Z; ui_is_active : bool; ui_role : string }.
Definition user_info (u : User) : UserInfo :=
  mkUserInfo (user_id u) (username u) (email u) (user_created_at u) (user_is_active u) (role u).

Record DeviceInfo : Type := mkDeviceInfo {
  di_id : Z; di_device_id : string; di_device_name : option string; di_created_at : Z;
  di_is_active : bool; di_online : bool }.
Definition device_info (online : bool) (v : UserDevice) : DeviceInfo :=
  mkDeviceInfo (ud_id v) (ud_device_id v) (ud_device_name v) (ud_created_at v) (ud_is_active v) online.

Record UserSubscriptionInfo : Type := mkSubscriptionInfo {
  si_id : option Z; si_plan_name : string; si_plan_display_name : string; si_device_limit : Z;
  si_speed_limit_kbps : Z; si_started_at : option Z; si_expires_at : option Z; si_is_active : bool;
  si_current_device_count : Z; si_notes : option string }.

Record LoginResponse : Type := mkLoginResponse {
  lr_token : string; lr_user : UserInfo; lr_subscription : UserSubscriptionInfo }.

Record ConnectionInfo : Type := mkConnectionInfo {
  ci_peer_id : string; ci_ip : string; ci_user_id : option Z; ci_connected_at : Z; ci_last_seen_secs : Z }.
Record Stats : Type := mkStats { st_online_count : Z; st_total_peers : Z; st_total_users : option Z }.

(** ** Handlers of api.rs *)
Module Api.
Section api.
Context `{Bcrypt} `{Uuid} `{Serde} `{SqlTime} `{Jwt} `{ParseTime}.
Variable secret : string.

Definition list_users (headers : HeaderMap) (limit offset : option Z) : Handler (list UserInfo) :=
  with_caller secret headers (λ caller, require_admin caller (
    r ← Database.list_users limit offset;
    match r with
    | Ok us => reply (user_info <$> us)
    | Err _ => refuse "获取用户列表失败"
    end)).

(** The user read back after a change. *)
Definition reply_user (uid : Z) (missing broken : string) : Handler UserInfo :=
  r ← get_user_by_id uid;
  match r with
  | Ok (Some u) => reply (user_info u)
  | Ok None => refuse missing
  | Err _ => refuse broken
  end.

Definition get_user (headers : HeaderMap) (uid : Z) : Handler UserInfo :=
  with_caller secret headers (λ caller, require_self_or_admin caller uid (
    reply_user uid "用户不存在" "数据库错误")).

Definition update_user (headers : HeaderMap) (uid : Z) (request : gmap string string) : Handler UserInfo :=
  with_caller secret headers (λ caller, require_self_or_admin caller uid (
    let name := request !! "username"%string in
    let mail := request !! "email"%string in
    if match mail with Some m => negb (contains "@" m) | None => false end then refuse "邮箱格式不正确"
    else
      r ← Database.update_user uid name mail;
      match r with
      | Ok _ => reply_user uid "用户不存在" "数据库错误"
      | Err e => failed "更新用户失败: " e
      end)).

(** Is the target an administrator, and the last one?  When the target cannot be
    read the check is skipped. *)
Definition guard_last_admin {A} (uid : Z) (msg : string) (k : Handler A) : Handler A :=
  t ← get_user_by_id uid;
  match t with
  | Ok (Some target) =>
    if is_admin_row target then
      n ← count_admins;
      match n with
      | Err _ => status INTERNAL_SERVER_ERROR
      | Ok n => if n <=? 1 then refuse msg else k
      end
    else k
  | _ => k
  end.

Definition delete_user (headers : HeaderMap) (uid : Z) : Handler unit :=
  with_caller secret headers (λ caller, require_self_or_admin caller uid (
    guard_last_admin uid "不可删除最后一个管理员" (
      r ← Database.delete_user uid;
      match r with Ok _ => reply tt | Err e => failed "删除用户失败: " e end))).

(** A new account, unless its name or mail is taken. *)
Definition create_account (request : CreateUserRequest)
    (name_taken name_error mail_taken mail_error create_error : string) : Handler UserInfo :=
  r ← get_user_by_username (cur_username request);
  match r with
  | Ok (Some _) => refuse name_taken
  | Err _ => refuse name_error
  | Ok None =>
    r ← get_user_by_email (cur_email request);
    match r with
    | Ok (Some _) => refuse mail_taken
    | Err _ => refuse mail_error
    | Ok None =>
      r ← create_user request;
      match r with
      | Ok uid => reply_user uid "创建用户后查询失败" "查询用户信息失败"
      | Err _ => refuse create_error
      end
    end
  end.

Definition admin_create_user (headers : HeaderMap) (request : RegisterRequest) : Handler UserInfo :=
  with_caller secret headers (λ caller, require_admin caller (
    if bool_decide (trim (rq_username request) = ""%string) then refuse "用户名不能为空"
    else if bool_decide (trim (rq_email request) = ""%string) then refuse "邮箱不能为空"
    else if Nat.ltb (String.length (rq_password request)) 6 then refuse "密码长度至少6位"
    else if negb (bool_decide (rq_password request = rq_confirm_password request)) then refuse "两次输入的密码不一致"
    else create_account (mkCreateUser (rq_username request) (rq_email request) (rq_password request))
           "用户名已存在" "数据库错误" "邮箱已被注册" "数据库错误" "创建用户失败")).

Definition update_user_role (headers : HeaderMap) (uid : Z) (role : string) : Handler UserInfo :=
  with_caller secret headers (λ caller, require_admin caller (
    let new_role := if bool_decide (trim role = USER_ROLE_ADMIN) then USER_ROLE_ADMIN else USER_ROLE_USER in
    let set : Handler UserInfo :=
      r ← set_user_role uid new_role;
      match r with
      | Err _ => status INTERNAL_SERVER_ERROR
      | Ok _ => reply_user uid "用户不存在" "数据库错误"
      end in
    if bool_decide (new_role = USER_ROLE_USER) then guard_last_admin uid "不可撤销最后一个管理员" set else set)).

Definition get_user_devices (online : gmap string OnlineConn) (headers : HeaderMap) (uid : Z)
    : Handler (list DeviceInfo) :=
  with_caller secret headers (λ caller, require_self_or_admin caller uid (
    r ← Database.get_user_devices uid;
    match r with
    | Ok vs => reply ((λ v, device_info (bool_decide (is_Some (online !! ud_device_id v))) v) <$> vs)
    | Err e => failed "获取设备列表失败: " e
    end)).

Definition remove_device (headers : HeaderMap) (uid : Z) (did : string) : Handler unit :=
  with_caller secret headers (λ caller,
    if negb (caller =? uid) then status FORBIDDEN
    else
      r ← remove_device_from_user_simple uid did;
      match r with Ok _ => reply tt | Err e => failed "移除设备失败: " e end).

Definition get_device_owner (did : string) : Handler UserInfo :=
  r ← Database.get_device_owner did;
  match r with
  | Ok (Some u) => reply (user_info u)
  | Ok None => refuse "设备未被分配给任何用户"
  | Err e => failed "查询设备所有者失败: " e
  end.

(** *** Connected peers *)

Definition recent (now : Instant) (c : OnlineConn) : bool := as_millis (elapsed now (oc_last_seen c)) <? 30000.
Definition unauthorized {A} : Handler A := mret (Ok (mkResponse false None (Msg "Unauthorized"))).

Definition monitor_connections (online : gmap string OnlineConn) (now : Instant) (headers : HeaderMap)
    : Handler (list ConnectionInfo) :=
  utc ← gets clock;
  match jwt_user_id_from_headers secret utc headers with
  | Err _ => unauthorized
  | Ok _ =>
    mret (Ok (mkResponse true (Some
      ((λ c, mkConnectionInfo (oc_peer_id c) (oc_ip c) (oc_user_id c) (oc_connected_at c)
               (as_secs (elapsed now (oc_last_seen c)))) <$> rows_where (recent now) online)) (Msg "")))
  end.

Definition monitor_stats (online : gmap string OnlineConn) (now : Instant) (headers : HeaderMap) : Handler Stats :=
  utc ← gets clock;
  match jwt_user_id_from_headers secret utc headers with
  | Err _ => unauthorized
  | Ok caller =>
    let online_count := count_where (recent now) online in
    let total_peers := Z.of_nat (size online) in
    is_admin ← db_user_is_admin caller;
    total_users ←
      (if (is_admin : bool) then
         r ← Database.list_users (Some 10000) (Some 0);
         mret (Some (match r with Ok l => zlen l | Err _ => 0 end))
       else mret None);
    mret (Ok (mkResponse true (Some (mkStats online_count total_peers total_users)) (Msg "")))
  end.

(** *** Subscriptions *)

Definition build_subscription_info (uid : Z) : M Db UserSubscriptionInfo :=
  r ← get_user_active_subscription uid;
  c ← count_user_active_devices uid;
  let count := match c with Ok n => n | Err _ => 0 end in
  mret (match r with
  | Ok (Some s) =>
    mkSubscriptionInfo (Some (s_id s)) (plan_name s) (plan_display_name s) (device_limit s) (speed_limit_kbps s)
      (Some (s_started_at s)) (s_expires_at s) (s_is_active s) count (s_notes s)
  | _ =>
    mkSubscriptionInfo None "free" "免费版" FREE_DEVICE_LIMIT FREE_SPEED_KBPS None None true count None
  end).

Definition list_subscription_plans : Handler (list SubscriptionPlan) :=
  r ← get_subscription_plans;
  match r with Ok l => reply l | Err e => failed "获取套餐列表失败: " e end.

Definition get_my_subscription (headers : HeaderMap) : Handler UserSubscriptionInfo :=
  with_caller secret headers (λ caller, info ← build_subscription_info caller; reply info).

(** The plan a request names, by its id or by its name. *)
Definition requested_plan (body : AdminCreateSubscriptionRequest) : M Db (Z + ApiResponse Z) :=
  match aq_plan_id body, aq_plan_name body with
  | Some pid, _ => mret (inl pid)
  | None, Some name =>
    r ← get_plan_id_by_name name;
    mret (match r with
    | Ok (Some id) => inl id
    | Ok None => inr (api_error (Msg ("套餐 '" +:+ name +:+ "' 不存在")))
    | Err e => inr (api_error (MsgErr "查询套餐失败: " e))
    end)
  | None, None => mret (inr (api_error (Msg "必须提供 plan_id 或 plan_name")))
  end.

Definition admin_create_subscription (headers : HeaderMap) (body : AdminCreateSubscriptionRequest) : Handler Z :=
  with_caller secret headers (λ caller, require_admin caller (
    p ← requested_plan body;
    match p with
    | inr resp => mret (Ok resp)
    | inl plan =>
      let create expires : Handler Z :=
        r ← create_user_subscription (aq_user_id body) plan expires (aq_notes body);
        match r with Ok id => reply id | Err e => failed "创建订阅失败: " e end in
      match aq_expires_at body with
      | None => create None
      | Some s =>
        match parse_time s with
        | Some t => create (Some t)
        | None => refuse "expires_at 格式不正确，需要 ISO 8601"
        end
      end
    end)).

Definition admin_list_subscriptions (headers : HeaderMap) (limit offset : option Z) : Handler (list UserSubscription) :=
  with_caller secret headers (λ caller, require_admin caller (
    r ← list_subscriptions limit offset;
    match r with Ok l => reply l | Err e => failed "获取订阅列表失败: " e end)).

Definition admin_update_subscription (headers : HeaderMap) (sub_id : Z) (body : AdminUpdateSubscriptionRequest)
    : Handler unit :=
  with_caller secret headers (λ caller, require_admin caller (
    let change expires : Handler unit :=
      r ← update_user_subscription sub_id (auq_plan_id body) expires (auq_notes body);
      match r with Ok _ => reply tt | Err e => failed "更新订阅失败: " e end in
    match auq_expires_at body with
    | None => change None
    | Some None => change (Some None)
    | Some (Some s) =>
      match parse_time s with
      | Some t => change (Some (Some t))
      | None => refuse "expires_at 格式不正确，需要 ISO 8601"
      end
    end)).

Definition admin_deactivate_subscription (headers : HeaderMap) (sub_id : Z) : Handler unit :=
  with_caller secret headers (λ caller, require_admin caller (
    r ← deactivate_user_subscription sub_id;
    match r with Ok _ => reply tt | Err e => failed "撤销订阅失败: " e end)).
End api.
End Api.

(** ** Handlers of device_api.rs *)
Module DeviceApi.
Section device_api.
Context `{Bcrypt} `{Uuid} `{Serde} `{SqlTime} `{Jwt}.
Variable secret : string.

Definition add_device (headers : HeaderMap) (did : string) (name : option string) : Handler DeviceInfo :=
  with_caller secret headers (λ caller,
    r ← add_device_to_user (mkCreateDevice caller did name);
    match r with
    | Err e => failed "添加设备失败: " e
    | Ok _ =>
      l ← get_user_devices caller;
      match l with
      | Err _ => refuse "查询设备信息失败"
      | Ok vs =>
        match List.find (λ v, bool_decide (ud_device_id v = did)) vs with
        | Some v => reply (device_info false v)
        | None => refuse "创建设备后查询失败"
        end
      end
    end).

Definition remove_device_by_id (headers : HeaderMap) (did : string) : Handler unit :=
  with_caller secret headers (λ caller,
    r ← remove_device_from_user caller did;
    match r with Ok _ => reply tt | Err e => failed "删除设备失败: " e end).
End device_api.
End DeviceApi.

(** ** Handlers of password_reset.rs *)
Module PasswordReset.
Section password_reset.
Context `{Bcrypt} `{Uuid} `{SqlTime}.

Definition forgot_password (mail : string) : Handler unit :=
  if bool_decide (trim mail = ""%string) then refuse "邮箱不能为空" else
  r ← get_user_by_email mail;
  match r with
  | Ok (Some u) =>
    t ← create_password_reset_token (user_id u);
    match t with Ok _ => reply tt | Err e => failed "创建重置令牌失败: " e end
  | Ok None => reply tt
  | Err _ => refuse "数据库错误"
  end.

Definition reset_password (request : PasswordResetConfirmRequest) : Handler unit :=
  if bool_decide (trim (pq_token request) = ""%string) then refuse "重置令牌不能为空"
  else if Nat.ltb (String.length (pq_new_password request)) 6 then refuse "密码长度至少6位"
  else if negb (bool_decide (pq_new_password request = pq_confirm_password request)) then refuse "两次输入的密码不一致"
  else
    r ← validate_password_reset_token (pq_token request);
    match r with
    | Ok (Some uid) =>
      r ← Database.reset_password uid (pq_new_password request);
      match r with Ok _ => reply tt | Err e => failed "重置密码失败: " e end
    | Ok None => refuse "重置令牌无效或已过期"
    | Err e => failed "验证令牌失败: " e
    end.

Definition change_password (request : ChangePasswordRequest) : Handler unit :=
  if Nat.ltb (String.length (cq_new_password request)) 6 then refuse "密码长度至少6位"
  else if negb (bool_decide (cq_new_password request = cq_confirm_password request)) then refuse "两次输入的密码不一致"
  else refuse "需要先实现JWT认证中间件".
End password_reset.
End PasswordReset.
