(* ===== verification/Payment.v ===== *)
(** * Payments: the handlers of [src/payment.rs]

    Creating an order at Alipay or Stripe and the callbacks of both.  RSA, HMAC,
    the JSON texts and the HTTP requests to the providers are parameters; the
    text that is signed and checked, the signature header of Stripe and the
    whole course of the handlers are definitions. *)
From Stdlib Require Import Ascii OrderedTypeEx.
From S2P Require Import Prelude Text Auth Database Subscription Orders Peer Api.
Local Open Scope Z_scope.

(** ** What the handlers use of other crates *)

(** rsa, sha2, base64: sign (under a random draw) and verify with a key in PEM
    form; [None] when the key or the signature has no valid form. *)
Class Rsa : Type := {
  rsa_sign : string → string → Z → option string;
  rsa_verify : string → string → string → bool;
}.
(** hmac, sha2, hex: the HMAC-SHA256 in hexadecimal. *)
Class Hmac : Type := hmac_hex : string → string → string.
(** serde_json: is the text a JSON value, is there a value at a path, the string
    at a path; and the [biz_content] of an order. *)
Class JsonText : Type := {
  json_valid : string → bool;
  json_has : string → list string → bool;
  json_str_at : string → list string → option string;
  biz_content : string → string → string → string;
}.
(** reqwest: the body of the answer to a form, with the user name of the basic
    authorization; [None] when there is no answer. *)
Class Http : Type := http_post : string → option string → list (string * string) → option string.
(** chrono: [format("%Y-%m-%d %H:%M:%S")]. *)
Class DateText : Type := date_text : Z → string.

(** ** [String::from_utf8_lossy] *)

Definition utf8_cont (lo hi : Z) (c : ascii) : bool := (lo <=? code c) && (code c <=? hi).
(** The ranges of the bytes that follow the first byte of a character. *)
Definition utf8_tail (c : ascii) : option (list (Z * Z)) :=
  let n := code c in
  if n <=? 127 then Some []
  else if (194 <=? n) && (n <=? 223) then Some [(128, 191)]
  else if n =? 224 then Some [(160, 191); (128, 191)]
  else if n =? 237 then Some [(128, 159); (128, 191)]
  else if (225 <=? n) && (n <=? 239) then Some [(128, 191); (128, 191)]
  else if n =? 240 then Some [(144, 191); (128, 191); (128, 191)]
  else if (241 <=? n) && (n <=? 243) then Some [(128, 191); (128, 191); (128, 191)]
  else if n =? 244 then Some [(128, 143); (128, 191); (128, 191)]
  else None.
(** The bytes in range at the front, whether all ranges are met, and the rest. *)
Fixpoint utf8_take (l : list (Z * Z)) (s : string) : string * bool * string :=
  match l, s with
  | [], _ => (""%string, true, s)
  | (lo, hi) :: l, String c r =>
    if utf8_cont lo hi c then let '(t, ok, r) := utf8_take l r in (String c t, ok, r)
    else (""%string, false, s)
  | _ :: _, EmptyString => (""%string, false, s)
  end.
Definition replacement : string :=
  String (chr 239) (String (chr 191) (String (chr 189) "")).
Fixpoint lossy (fuel : nat) (s : string) : string :=
  match fuel, s with
  | S fuel, String c r =>
    match utf8_tail c with
    | None => replacement +:+ lossy fuel r
    | Some l =>
      let '(t, ok, r) := utf8_take l r in
      (if ok then String c t else replacement) +:+ lossy fuel r
    end
  | _, _ => ""%string
  end.
Definition from_utf8_lossy (s : string) : string := lossy (String.length s) s.

Example lossy_keeps_text : from_utf8_lossy "支付 ok" = "支付 ok"%string.
Proof. reflexivity. Qed.
Example lossy_replaces :
  from_utf8_lossy (String "a" (String (chr 228) (String (chr 184) (String "b" (String (chr 255) ""))))) =
  ("a" +:+ replacement +:+ "b" +:+ replacement)%string.
Proof. reflexivity. Qed.

(** ** Alipay *)

Fixpoint chunks64 (fuel : nat) (s : string) : list string :=
  match fuel, s with
  | S fuel, String _ _ => String.substring 0 64 s :: chunks64 fuel (String.substring 64 (String.length s) s)
  | _, _ => []
  end.

Definition wrap_pem (raw label : string) : string :=
  let raw := trim raw in
  if contains "-----BEGIN" raw then raw
  else
    let body := join (String (chr 10) "") (chunks64 (String.length raw) raw) in
    let nl := String (chr 10) "" in
    "-----BEGIN " +:+ label +:+ "-----" +:+ nl +:+ body +:+ nl +:+ "-----END " +:+ label +:+ "-----".

(** A [BTreeMap] is iterated in the order of its keys, bytewise. *)
Definition key_le (a b : string * string) : Prop := a.1 = b.1 ∨ String_as_OT.lt a.1 b.1.
#[export] Instance key_le_dec : RelDecision key_le.
Proof.
  intros a b. unfold key_le. destruct (decide (a.1 = b.1)); [left; by left|].
  destruct (String_as_OT.compare a.1 b.1) as [l|e|g]; [left; by right|done|right].
  intros [?|l]; [done|]. eapply String_as_OT.lt_not_eq; [exact (String_as_OT.lt_trans _ _ _ l g)|done].
Defined.
Definition sorted_params (params : gmap string string) : list (string * string) :=
  merge_sort key_le (map_to_list params).

Definition signed_param (kv : string * string) : bool :=
  negb (bool_decide (kv.1 = "sign"%string)) && negb (bool_decide (kv.1 = "sign_type"%string))
  && negb (bool_decide (kv.2 = ""%string)).
Definition param_text (kv : string * string) : string := kv.1 +:+ "=" +:+ kv.2.

Definition alipay_build_sign_str (params : gmap string string) : string :=
  join "&" (param_text <$> filter (λ kv, signed_param kv = true) (sorted_params params)).

(** The text [alipay_notify] rebuilds: the parameters are filtered first and
    put into a [BTreeMap] then. *)
Definition notify_sign_str (params : gmap string string) : string :=
  join "&" (param_text <$> sorted_params (filter (λ kv, signed_param kv = true) params)).

Section providers.
Context `{Rsa} `{Hmac} `{JsonText} `{Http} `{DateText}.

Definition rsa2_sign (private_key content : string) (draw : Z) : option string :=
  rsa_sign (wrap_pem private_key "PRIVATE KEY") content draw.
Definition rsa2_verify (public_key content sig : string) : bool :=
  rsa_verify (wrap_pem public_key "PUBLIC KEY") content sig.

Definition alipay_gateway (sandbox : bool) : string :=
  if sandbox then "https://openapi-sandbox.dl.alipaydev.com/gateway.do"
  else "https://openapi.alipay.com/gateway.do".

Definition alipay_params (app_id notify_url order_no amount subject : string) (now : Z) : gmap string string :=
  {["app_id" := app_id; "method" := "alipay.trade.precreate"; "charset" := "utf-8"; "sign_type" := "RSA2";
    "timestamp" := date_text now; "version" := "1.0"; "notify_url" := notify_url;
    "biz_content" := biz_content order_no amount subject]}%string.

(** The QR code, or the reason there is none. *)
Definition alipay_precreate (app_id private_key notify_url : string) (sandbox : bool)
    (order_no amount subject : string) (now draw : Z) : result string string :=
  let params := alipay_params app_id notify_url order_no amount subject now in
  match rsa2_sign private_key (alipay_build_sign_str params) draw with
  | None => Err "RSA 私钥解析失败"%string
  | Some sign =>
    match http_post (alipay_gateway sandbox) None (sorted_params (<["sign"%string := sign]> params)) with
    | None => Err "支付宝请求失败"%string
    | Some body =>
      let resp := "alipay_trade_precreate_response"%string in
      if negb (json_valid body) then Err "支付宝响应解析失败"%string
      else if negb (json_has body [resp]) then Err "支付宝响应格式异常"%string
      else
        let code := default ""%string (json_str_at body [resp; "code"%string]) in
        if negb (bool_decide (code = "10000"%string)) then
          Err ("支付宝下单失败(" +:+ code +:+ "): "
               +:+ default (default "未知错误" (json_str_at body [resp; "msg"%string])) (json_str_at body [resp; "sub_msg"%string]))
        else match json_str_at body [resp; "qr_code"%string] with
             | Some qr => Ok qr
             | None => Err "支付宝未返回二维码"%string
             end
    end
  end.

(** ** Stripe *)

Definition stripe_create_session (secret_key success_url cancel_url order_no : string) (amount_cents : Z)
    (description : string) : result string (string * string) :=
  let form :=
    [("mode", "payment"); ("success_url", success_url); ("cancel_url", cancel_url);
     ("line_items[0][price_data][currency]", "usd");
     ("line_items[0][price_data][product_data][name]", description); ("line_items[0][quantity]", "1");
     ("line_items[0][price_data][unit_amount]", to_string amount_cents); ("metadata[order_no]", order_no)]%string in
  match http_post "https://api.stripe.com/v1/checkout/sessions" (Some secret_key) form with
  | None => Err "Stripe 请求失败"%string
  | Some body =>
    if negb (json_valid body) then Err "Stripe 响应解析失败"%string
    else if json_has body ["error"%string]
    then Err ("Stripe 下单失败: " +:+ default "未知错误" (json_str_at body ["error"; "message"]%string))
    else
      let url := default ""%string (json_str_at body ["url"%string]) in
      if bool_decide (url = ""%string) then Err "Stripe 未返回 checkout URL"%string
      else Ok (default ""%string (json_str_at body ["id"%string]), url)
  end.

(** The last [t=] and the last [v1=] of the header. *)
Definition stripe_signature (sig_header : string) : string * string :=
  foldl (λ acc part,
      let part := trim part in
      match strip_prefix "t=" part with
      | Some v => (v, acc.2)
      | None => match strip_prefix "v1=" part with Some v => (acc.1, v) | None => acc end
      end) (""%string, ""%string) (split_on "," sig_header).

Definition stripe_verify_webhook (secret payload sig_header : string) : bool :=
  let '(ts, v1) := stripe_signature sig_header in
  negb (bool_decide (ts = ""%string)) && negb (bool_decide (v1 = ""%string))
  && bool_decide (hmac_hex secret (ts +:+ "." +:+ from_utf8_lossy payload) = v1).
End providers.

(** ** Handlers *)

Record CreatePaymentResp : Type := mkPaymentResp {
  pr_order_no : string; pr_method : string; pr_qr_content : option string; pr_checkout_url : option string }.
Record OrderAnswer : Type := mkOrderAnswer {
  oa_order_no : string; oa_status : string; oa_amount : string; oa_currency : string;
  oa_payment_method : string; oa_plan_name : string; oa_paid_at : option Z }.

(** [format!("{:.2}", price)] of a price in hundredths. *)
Definition price_text (cents : Z) : string :=
  to_string (cents / 100) +:+ "." +:+ to_string (cents mod 100 / 10) +:+ to_string (cents mod 10).

Section handlers.
Context `{Bcrypt} `{Uuid} `{Serde} `{SqlTime} `{TimeStamp} `{Jwt} `{Rsa} `{Hmac} `{JsonText} `{Http} `{DateText}.
Variable secret : string.

Definition setting (m : gmap string string) (key : string) : string := default ""%string (m !! key).

Definition pay_with_alipay (m : gmap string string) (plan : SubscriptionPlan) (order_no amount : string)
    : Handler CreatePaymentResp :=
  let app_id := setting m "payment.alipay_app_id" in
  let private_key := setting m "payment.alipay_private_key" in
  let notify_url := setting m "payment.alipay_notify_url" in
  let sandbox := bool_decide (m !! "payment.alipay_sandbox"%string = Some "1"%string) in
  if bool_decide (app_id = ""%string) || bool_decide (private_key = ""%string) || bool_decide (notify_url = ""%string)
  then refuse "支付宝未配置，请联系管理员" else
  now ← gets clock;
  n ← gets draws;
  modify (upd_draws Z.succ);;
  match alipay_precreate app_id private_key notify_url sandbox order_no amount
          ("NAT穿透 - " +:+ sp_display_name plan) now n with
  | Ok qr =>
    set_order_gateway order_no (Some qr) None;;
    reply (mkPaymentResp order_no "alipay" (Some qr) None)
  | Err e => refuse ("支付宝下单失败: " +:+ e)
  end.

Definition pay_with_stripe (m : gmap string string) (plan : SubscriptionPlan) (order_no : string)
    : Handler CreatePaymentResp :=
  let secret_key := setting m "payment.stripe_secret_key" in
  let at_base path := match m !! "payment.base_url"%string with Some b => b +:+ path | None => path end in
  let success_url := default (at_base "/subscription?payment=success"%string) (m !! "payment.stripe_success_url"%string) in
  let cancel_url := at_base "/subscription"%string in
  if bool_decide (secret_key = ""%string) then refuse "Stripe 未配置，请联系管理员" else
  match stripe_create_session secret_key success_url cancel_url order_no (sp_price_monthly plan)
          ("NAT穿透 - " +:+ sp_display_name plan) with
  | Ok (_, url) =>
    set_order_gateway order_no None (Some url);;
    reply (mkPaymentResp order_no "stripe" None (Some url))
  | Err e => refuse ("Stripe 下单失败: " +:+ e)
  end.

Definition create_payment (headers : HeaderMap) (plan_id : Z) (pay_method : string) : Handler CreatePaymentResp :=
  with_caller secret headers (λ caller,
    r ← get_subscription_plans;
    match r with
    | Err _ => status INTERNAL_SERVER_ERROR
    | Ok plans =>
      match List.find (λ p, sp_id p =? plan_id) plans with
      | None => status NOT_FOUND
      | Some plan =>
        if sp_price_monthly plan <=? 0 then refuse "免费套餐无需付款" else
        r ← get_all_settings;
        match r with
        | Err _ => status INTERNAL_SERVER_ERROR
        | Ok m =>
          let amount := price_text (sp_price_monthly plan) in
          let currency := if bool_decide (pay_method = "stripe"%string) then "USD"%string else "CNY"%string in
          r ← create_order caller (sp_id plan) amount currency pay_method;
          match r with
          | Err _ => status INTERNAL_SERVER_ERROR
          | Ok order_no =>
            if bool_decide (pay_method = "alipay"%string) then pay_with_alipay m plan order_no amount
            else if bool_decide (pay_method = "stripe"%string) then pay_with_stripe m plan order_no
            else refuse "不支持的支付方式"
          end
        end
      end
    end).

Definition query_order (headers : HeaderMap) (order_no : string) : Handler OrderAnswer :=
  with_caller secret headers (λ caller,
    r ← get_order_by_no order_no caller;
    match r with
    | Ok (Some i) =>
      let o := order_row i in
      reply (mkOrderAnswer (o_order_no o) (o_status o) (o_amount o) (o_currency o) (o_payment_method o)
               (order_plan_name i) (o_paid_at o))
    | Ok None => refuse "订单不存在"
    | Err _ => status INTERNAL_SERVER_ERROR
    end).

(** [true] is the answer "success", [false] is "fail". *)
Definition alipay_notify (params : gmap string string) : M Db bool :=
  let trade_status := setting params "trade_status" in
  let out_trade_no := setting params "out_trade_no" in
  let trade_no := setting params "trade_no" in
  let sign := setting params "sign" in
  r ← get_all_settings;
  match r with
  | Err _ => mret false
  | Ok m =>
    let public_key := setting m "payment.alipay_public_key" in
    if bool_decide (public_key = ""%string) then mret false
    else if negb (rsa2_verify public_key (notify_sign_str params) sign) then mret false
    else if negb (bool_decide (trade_status = "TRADE_SUCCESS"%string))
            && negb (bool_decide (trade_status = "TRADE_FINISHED"%string)) then mret true
    else
      r ← mark_order_paid out_trade_no trade_no;
      match r with
      | Ok (Some (uid, plan)) => activate_subscription_for_order uid plan;; mret true
      | Ok None => mret true
      | Err _ => mret false
      end
  end.

Definition stripe_webhook (headers : HeaderMap) (body : string) : M Db StatusCode :=
  let sig_header := default ""%string (header_text headers "stripe-signature") in
  r ← get_all_settings;
  match r with
  | Err _ => mret INTERNAL_SERVER_ERROR
  | Ok m =>
    let webhook_secret := setting m "payment.stripe_webhook_secret" in
    if bool_decide (webhook_secret = ""%string) then mret INTERNAL_SERVER_ERROR
    else if negb (stripe_verify_webhook webhook_secret body sig_header) then mret BAD_REQUEST
    else if negb (json_valid body) then mret BAD_REQUEST
    else if bool_decide (json_str_at body ["type"%string] = Some "checkout.session.completed"%string) then
      let session (path : list string) := default ""%string (json_str_at body (["data"%string; "object"%string] ++ path)) in
      let order_no := session ["metadata"; "order_no"]%string in
      let payment_intent := session ["payment_intent"%string] in
      if bool_decide (order_no = ""%string) then mret OK_200 else
      r ← mark_order_paid order_no payment_intent;
      match r with
      | Ok (Some (uid, plan)) => activate_subscription_for_order uid plan;; mret OK_200
      | _ => mret OK_200
      end
    else mret OK_200
  end.
End handlers.
