(* ===== verification/PaymentSpec.v ===== *)
(** * What the payment callbacks guarantee

    The text that is checked is the text that is signed; without a valid
    signature a callback changes no order and no subscription; and which errors
    of a callback the provider never hears of. *)
From Stdlib Require Import Ascii OrderedTypeEx.
From S2P Require Import Prelude Text Auth Database Instances Subscription Orders DbInvariant DbSpec Peer Api Payment.
Local Open Scope Z_scope.

(** ** The signed text *)

#[local] Instance key_le_total : Total key_le.
Proof.
  intros a b. unfold key_le. destruct (String_as_OT.compare a.1 b.1) as [l|e|g]; [left|left|right]; auto.
Qed.
#[local] Instance key_le_trans : Transitive key_le.
Proof.
  intros a b c [E|L] [E'|L']; unfold key_le; [left|right|right|right]; try congruence.
  by eapply String_as_OT.lt_trans.
Qed.

(** Sorted lists of the same entries of a map are equal. *)
Lemma key_sorted_unique (l1 l2 : list (string * string)) :
  StronglySorted key_le l1 → StronglySorted key_le l2 → l1 ≡ₚ l2 → NoDup l1.*1 → l1 = l2.
Proof.
  revert l2. induction l1 as [|a l1 IH]; intros l2 S1 S2 P N.
  { by apply Permutation_nil_l in P. }
  destruct l2 as [|b l2]; [by apply Permutation_nil_r in P|].
  assert (a = b) as ->.
  { assert (Hb : b ∈ a :: l1) by (rewrite P; left). assert (Ha : a ∈ b :: l2) by (rewrite <- P; left).
    apply elem_of_cons in Hb as [->|Hb]; [done|]. apply elem_of_cons in Ha as [->|Ha]; [done|].
    apply StronglySorted_inv in S1 as [_ F1]. apply StronglySorted_inv in S2 as [_ F2].
    rewrite Forall_forall in F1, F2. apply F1 in Hb as Hab. apply F2 in Ha as Hba.
    exfalso. cbn in N. apply NoDup_cons in N as [N _]. destruct Hab as [E|L].
    - apply N. rewrite E. by apply list_elem_of_fmap_2.
    - destruct Hba as [E|L'].
      + apply N. rewrite <- E. by apply list_elem_of_fmap_2.
      + by eapply String_as_OT.lt_not_eq; [exact (String_as_OT.lt_trans _ _ _ L L')|]. }
  f_equal. apply IH.
  - by apply StronglySorted_inv in S1 as [? _].
  - by apply StronglySorted_inv in S2 as [? _].
  - by apply (Permutation_cons_inv P).
  - by apply NoDup_cons in N as [_ N].
Qed.

Lemma StronglySorted_filter (P : string * string → Prop) `{∀ x, Decision (P x)} l :
  StronglySorted key_le l → StronglySorted key_le (filter P l).
Proof.
  induction 1 as [|a l S IH F]; [constructor|]. rewrite filter_cons. destruct (decide (P a)); [|done].
  constructor; [done|]. rewrite Forall_forall in F |- *. intros x [_ Hx]%list_elem_of_filter. by apply F.
Qed.

Lemma sorted_filter (P : string * string → Prop) `{∀ x, Decision (P x)} (m : gmap string string) :
  filter P (sorted_params m) = sorted_params (filter P m).
Proof.
  unfold sorted_params. apply key_sorted_unique.
  - apply StronglySorted_filter, (StronglySorted_merge_sort key_le).
  - apply (StronglySorted_merge_sort key_le).
  - rewrite !merge_sort_Permutation, map_filter_alt, map_to_list_to_map; [done|].
    apply (sublist_NoDup _ _ (NoDup_fst_map_to_list m)), fmap_sublist, sublist_filter.
  - rewrite merge_sort_Permutation. apply (sublist_NoDup _ _ (NoDup_fst_map_to_list m)), fmap_sublist, sublist_filter.
Qed.

(** The text [alipay_notify] checks is the text that is signed for the same
    parameters: the filter before the sorting and the filter after it agree, and
    neither the signature itself nor [sign_type] nor an empty value takes part. *)
Theorem notify_checks_signed_text params sign :
  notify_sign_str params = alipay_build_sign_str params
  ∧ alipay_build_sign_str (<["sign"%string := sign]> params) = alipay_build_sign_str params.
Proof.
  assert (Hsame : ∀ m, notify_sign_str m = alipay_build_sign_str m).
  { intros m. unfold notify_sign_str, alipay_build_sign_str. by rewrite sorted_filter. }
  split; [done|]. rewrite <- !Hsame. unfold notify_sign_str. do 3 f_equal. apply map_eq. intros k.
  apply option_eq. intros v. rewrite !map_lookup_filter_Some.
  destruct (decide (k = "sign"%string)) as [->|Hne]; [|by rewrite lookup_insert_ne].
  unfold signed_param. cbn. split; intros [_ ?]; done.
Qed.

(** ** Callbacks *)
Section callbacks.
Context `{SqlTime} `{Rsa} `{Hmac} `{JsonText}.

(** The tables a payment changes. *)
Definition unpaid (d d' : Db) : Prop := orders d' = orders d ∧ subs d' = subs d.

Lemma read_settings d :
  ∃ r fs, get_all_settings d = (r, upd_faults (λ _, fs) d) ∧ match r with Ok m => m = settings d | Err _ => True end.
Proof.
  unfold get_all_settings, query, stmt. destruct (faults d) as [|[] fs] eqn:E.
  - exists (Ok (settings d)), []. split; [|done]. rewrite <- E. by destruct d.
  - by exists (Err SqlFailure), fs.
  - by exists (Ok (settings d)), fs.
Qed.

(** C13. A callback without a valid signature under the key the administrator
    configured changes no order and no subscription: when one changed, the
    notification was signed and reported success, or the event was signed and
    reports a completed session. *)
Theorem payment_needs_signature params headers body d :
  (¬ unpaid d (alipay_notify params d).2 →
     ∃ key, settings d !! "payment.alipay_public_key"%string = Some key
       ∧ rsa2_verify key (notify_sign_str params) (setting params "sign") = true
       ∧ (setting params "trade_status" = "TRADE_SUCCESS"%string ∨ setting params "trade_status" = "TRADE_FINISHED"%string))
  ∧ (¬ unpaid d (stripe_webhook headers body d).2 →
     ∃ key, settings d !! "payment.stripe_webhook_secret"%string = Some key
       ∧ stripe_verify_webhook key body (default ""%string (header_text headers "stripe-signature")) = true
       ∧ json_str_at body ["type"%string] = Some "checkout.session.completed"%string).
Proof.
  split; intros Hch.
  - unfold alipay_notify in Hch. rewrite bind_run in Hch.
    destruct (read_settings d) as (r & fs & Hq & Hr). rewrite Hq in Hch.
    destruct r as [m|e]; [subst m|by destruct Hch].
    case_bool_decide as Hk; [by destruct Hch|]. destruct (rsa2_verify _ _ _) eqn:Ev; cbn [negb] in Hch; [|by destruct Hch].
    unfold setting at 1 in Hk. unfold setting at 1 in Ev.
    destruct (settings d !! "payment.alipay_public_key"%string) as [key|]; [|done]. exists key. split_and!; [done..|].
    destruct (decide (setting params "trade_status" = "TRADE_SUCCESS"%string)) as [|Hs]; [by left|].
    destruct (decide (setting params "trade_status" = "TRADE_FINISHED"%string)) as [|Hf]; [by right|].
    rewrite !bool_decide_eq_false_2 in Hch by done. by destruct Hch.
  - unfold stripe_webhook in Hch. rewrite bind_run in Hch.
    destruct (read_settings d) as (r & fs & Hq & Hr). rewrite Hq in Hch.
    destruct r as [m|e]; [subst m|by destruct Hch].
    case_bool_decide as Hk; [by destruct Hch|].
    destruct (stripe_verify_webhook _ _ _) eqn:Ev; cbn [negb] in Hch; [|by destruct Hch].
    unfold setting at 1 in Hk. unfold setting at 1 in Ev.
    destruct (settings d !! "payment.stripe_webhook_secret"%string) as [key|]; [|done]. exists key. split_and!; [done..|].
    destruct (json_valid body); cbn [negb] in Hch; [|by destruct Hch].
    case_bool_decide as Ht; [done|by destruct Hch].
Qed.

(** The callback of a payment that was made. *)
Record paid_notice (params : gmap string string) (d : Db) (no gateway_id : string) : Prop := {
  notice_verified : ∃ key, settings d !! "payment.alipay_public_key"%string = Some key ∧ key ≠ ""%string
    ∧ rsa2_verify key (notify_sign_str params) (setting params "sign") = true;
  notice_status : setting params "trade_status" = "TRADE_SUCCESS"%string;
  notice_order : setting params "out_trade_no" = no;
  notice_id : setting params "trade_no" = gateway_id;
}.
Record paid_event (headers : HeaderMap) (body : string) (d : Db) (no : string) : Prop := {
  event_verified : ∃ key, settings d !! "payment.stripe_webhook_secret"%string = Some key ∧ key ≠ ""%string
    ∧ stripe_verify_webhook key body (default ""%string (header_text headers "stripe-signature")) = true;
  event_json : json_valid body = true;
  event_type : json_str_at body ["type"%string] = Some "checkout.session.completed"%string;
  event_order : json_str_at body ["data"; "object"; "metadata"; "order_no"]%string = Some no;
  event_order_nonempty : no ≠ ""%string;
}.

Lemma alipay_notify_run params d no g fs :
  paid_notice params d no g → (faults d = false :: fs ∨ faults d = [] ∧ fs = []) →
  alipay_notify params d =
    (r ← mark_order_paid no g;
     match r with
     | Ok (Some (uid, plan)) => activate_subscription_for_order uid plan;; mret true
     | Ok None => mret true
     | Err _ => mret false
     end) (upd_faults (λ _, fs) d).
Proof.
  intros [(key & Hk & Hne & Hv) Hs <- <-] Hf. unfold alipay_notify. rewrite bind_run.
  assert (Hq : get_all_settings d = (Ok (settings d), upd_faults (λ _, fs) d)).
  { unfold get_all_settings, query, stmt. destruct Hf as [-> |[E ->]]; [done|]. rewrite E. destruct d; cbn in *. by subst. }
  rewrite Hq. assert (Hset : setting (settings d) "payment.alipay_public_key" = key) by (unfold setting; by rewrite Hk).
  rewrite Hset, Hv, Hs. by rewrite bool_decide_eq_false_2.
Qed.

(** When the database fails to record a payment, Alipay is told so and will
    repeat the notification; Stripe is told that all went well, and the paid
    order stays pending. *)
Theorem stripe_loses_failed_recording params g headers body d no :
  paid_notice params d no g → paid_event headers body d no → faults d = [false; true] →
  (alipay_notify params d).1 = false ∧ unpaid d (alipay_notify params d).2
  ∧ (stripe_webhook headers body d).1 = OK_200 ∧ unpaid d (stripe_webhook headers body d).2.
Proof.
  intros Hn [(key & Hk & Hne & Hv) Hj Ht Ho Hno] Hf.
  rewrite (alipay_notify_run params d no g [true]) by auto. split; [done|]. split; [done|].
  unfold stripe_webhook. rewrite bind_run. unfold get_all_settings, query, stmt. rewrite Hf. cbn -[setting bool_decide].
  assert (Hset : setting (settings d) "payment.stripe_webhook_secret" = key) by (unfold setting; by rewrite Hk).
  rewrite Hset, Hv, Hj, Ht. rewrite bool_decide_eq_false_2 by done. rewrite bool_decide_eq_true_2 by done.
  cbn [app]. rewrite Ho. cbn [default]. rewrite bool_decide_eq_false_2 by done. done.
Qed.

(** The activation of a user without a subscription whose last statement, the
    insertion, fails. *)
Lemma activation_insert_fails uid plan d :
  (∀ k s, subs d !! k = Some s → active_of uid s = false) → faults d = [false; false; true] →
  let d' := (activate_subscription_for_order uid plan d).2 in
  (∀ k s, subs d' !! k = Some s → active_of uid s = false) ∧ orders d' = orders d
  ∧ settings d' = settings d ∧ faults d' = [].
Proof.
  intros Hn Hf d'. unfold d', activate_subscription_for_order, get_user_active_subscription, query, stmt.
  rewrite bind_run, Hf. cbn -[rows_where sql_page create_user_subscription].
  replace (rows_where _ (subs d)) with (@nil SubRow).
  2:{ symmetry. apply rows_where_nil. intros k s Hs. by rewrite (Hn k s Hs). }
  run_monad. change (head (sql_page _ 1 0 (omap _ []))) with (@None UserSubscription).
  cbn -[create_user_subscription].
  unfold create_user_subscription, insert_subscription. rewrite rbind_run. unfold update, stmt.
  cbn -[update_where]. split_and!; [apply none_active|done..].
Qed.

(** The order found after it was settled. *)
Lemma find_settled d k o g :
  db_ok d → orders d !! k = Some o → o_status o = ORDER_PENDING →
  find_row (is_order (o_order_no o))
    (update_where (pending_order (o_order_no o)) (set_paid g (clock d)) (orders d)) = Some (set_paid g (clock d) o).
Proof.
  intros Hd Hk Ho. set (d0 := upd_faults (λ _, []) d).
  assert (Hd0 : db_ok (settle_order (o_order_no o) g d0).2) by by apply settle_keeps, fault_blind.
  unfold settle_order in Hd0. rewrite update_ok in Hd0 by done.
  refine (find_order _ k (set_paid g (clock d) o) Hd0 _). apply (settle_lookup d); [done|].
  unfold pending_order, is_order. by rewrite !bool_decide_eq_true_2.
Qed.

(** When the last statement of an activation fails, the notification is
    answered with success and the order is paid, the user has no subscription,
    and when the notification is repeated nothing happens any more. *)
Theorem activation_error_is_lost params g d k o :
  db_ok d → orders d !! k = Some o → o_status o = ORDER_PENDING →
  paid_notice params d (o_order_no o) g →
  (∀ j s, subs d !! j = Some s → active_of (o_user_id o) s = false) →
  faults d = [false; false; false; false; false; true] →
  let r := alipay_notify params d in
  r.1 = true ∧ orders r.2 !! k = Some (set_paid g (clock d) o)
  ∧ (∀ j s, subs r.2 !! j = Some s → active_of (o_user_id o) s = false)
  ∧ (alipay_notify params r.2).1 = true ∧ unpaid r.2 (alipay_notify params r.2).2.
Proof.
  intros Hd Hk Ho Hn Hs Hf r. pose proof (find_order d k o Hd Hk) as Hfind.
  pose proof (find_settled d k o g Hd Hk Ho) as Hfind2. set (no := o_order_no o) in *.
  assert (Hpend : pending_order no o = true).
  { unfold pending_order, is_order. by rewrite !bool_decide_eq_true_2. }
  set (d1 := upd_faults (λ _, [false; false; true])
               (upd_orders (update_where (pending_order no) (set_paid g (clock d))) d)).
  assert (Hr : r = (true, (activate_subscription_for_order (o_user_id o) (o_plan_id o) d1).2)).
  { unfold r. rewrite (alipay_notify_run params d no g [false; false; false; false; true]) by auto.
    rewrite bind_run. unfold mark_order_paid, select_order. rewrite rbind_run. unfold query, stmt.
    cbn -[find_row update_where activate_subscription_for_order]. rewrite Hfind. unfold settle_existing. rewrite Ho.
    rewrite bool_decide_eq_false_2 by done. unfold settle_order. rewrite rbind_run. unfold update, stmt.
    cbn -[update_where activate_subscription_for_order]. rewrite bind_run.
    match goal with |- context [activate_subscription_for_order _ _ ?x] => change x with d1 end. by destruct (activate_subscription_for_order _ _ d1). }
  destruct (activation_insert_fails (o_user_id o) (o_plan_id o) d1 Hs eq_refl) as (Hs' & Ho' & Hset & Hf').
  rewrite Hr. cbn [fst snd]. set (d2 := (activate_subscription_for_order _ _ d1).2) in *.
  assert (Hrep : alipay_notify params d2 = (true, upd_faults (λ _, []) d2)).
  { rewrite (alipay_notify_run params d2 no g []); [|destruct Hn; by split; rewrite ?Hset|auto].
    rewrite bind_run. unfold mark_order_paid, select_order. rewrite rbind_run, query_ok by done.
    cbn [orders upd_faults]. rewrite Ho'. unfold d1. cbn -[find_row update_where]. by rewrite Hfind2. }
  rewrite Hrep. split_and!; try done. rewrite Ho'. exact (settle_lookup d no g k o Hk Hpend).
Qed.
End callbacks.

(** ** Concrete providers *)
Definition TestRsa : Rsa :=
  {| rsa_sign := λ pem content n, Some content; rsa_verify := λ pem content sig, bool_decide (sig = content) |}.
Definition TestHmac : Hmac := λ key text, key +:+ text.
Definition TestJsonText : JsonText :=
  {| json_valid := λ _, true; json_has := λ _ _, true;
     json_str_at := λ body path,
       match path with
       | ["type"] => Some "checkout.session.completed"
       | ["data"; "object"; "metadata"; "order_no"] => Some body
       | _ => None
       end;
     biz_content := λ no amount subject, no |}%string.

Definition shop_db (fs : list bool) : Db :=
  upd_faults (λ _, fs) (upd_settings (λ _,
    {["payment.alipay_public_key" := "pub"; "payment.stripe_webhook_secret" := "whsec"]})%string order_db).
Definition notice : gmap string string :=
  {["out_trade_no" := "ORD01"; "trade_no" := "T1"; "trade_status" := "TRADE_SUCCESS";
    "sign" := "out_trade_no=ORD01&trade_no=T1&trade_status=TRADE_SUCCESS"]}%string.
Definition event_headers : HeaderMap := {["stripe-signature"%string := Some "t=5, v1=whsec5.ORD01"%string]}.

Lemma notice_paid fs : @paid_notice TestRsa notice (shop_db fs) "ORD01" "T1".
Proof.
  split; [|vm_compute; reflexivity..]. exists "pub"%string. split_and!; [vm_compute; reflexivity|discriminate|vm_compute; reflexivity].
Qed.
Lemma event_paid fs : @paid_event TestHmac TestJsonText event_headers "ORD01" (shop_db fs) "ORD01".
Proof.
  split; [|reflexivity|reflexivity|reflexivity|discriminate].
  exists "whsec"%string. split_and!; [vm_compute; reflexivity|discriminate|vm_compute; reflexivity].
Qed.
Lemma db_ok_settings fs f d : db_ok d → db_ok (upd_faults (λ _, fs) (upd_settings f d)).
Proof. intros []. by split. Qed.
Lemma shop_db_ok fs : db_ok (shop_db fs).
Proof. apply db_ok_settings, order_db_ok. Qed.

Lemma payment_needs_signature_witness :
  ∃ key, settings (shop_db []) !! "payment.alipay_public_key"%string = Some key
    ∧ @rsa2_verify TestRsa key (notify_sign_str notice) (setting notice "sign") = true.
Proof.
  destruct (@payment_needs_signature TestSqlTime TestRsa TestHmac TestJsonText notice event_headers "ORD01" (shop_db []))
    as [H _]. destruct H as (key & H1 & H2 & _).
  - intros [H _]. apply (f_equal (λ m : gmap Z Order, o_status <$> m !! 1)) in H. vm_compute in H. discriminate.
  - exists key. exact (conj H1 H2).
Defined.

Lemma stripe_loses_failed_recording_witness :
  let d := shop_db [false; true] in
  (@alipay_notify TestSqlTime TestRsa notice d).1 = false
  ∧ (@stripe_webhook TestSqlTime TestHmac TestJsonText event_headers "ORD01" d).1 = OK_200.
Proof.
  intros d. destruct (@stripe_loses_failed_recording TestSqlTime TestRsa TestHmac TestJsonText notice "T1"
    event_headers "ORD01" d "ORD01" (notice_paid _) (event_paid _) eq_refl) as (H1 & _ & H2 & _).
  exact (conj H1 H2).
Defined.

Lemma activation_error_is_lost_witness :
  let d := shop_db [false; false; false; false; false; true] in
  let r := @alipay_notify TestSqlTime TestRsa notice d in
  r.1 = true ∧ (o_status <$> orders r.2 !! 1) = Some ORDER_PAID ∧ subs r.2 = ∅
  ∧ (@alipay_notify TestSqlTime TestRsa notice r.2).1 = true.
Proof.
  intros d r.
  destruct (@activation_error_is_lost TestSqlTime TestRsa notice "T1" d 1 demo_order (shop_db_ok _)) as (H1 & _ & _ & H2 & _).
  - vm_compute. reflexivity.
  - reflexivity.
  - exact (notice_paid _).
  - intros j s Hs. exfalso. vm_compute in Hs. by destruct j.
  - reflexivity.
  - split; [exact H1|]. split; [vm_compute; reflexivity|]. split; [vm_compute; reflexivity|exact H2].
Defined.
