(* ===== verification/SettingsApi.v ===== *)
(** * Settings of the administrator: [src/settings_api.rs], [src/hbbr.rs]

    The system settings are rows of the database; the black- and blocklist and
    the parameters of the two servers are files in the working directory, which
    the handlers read, edit line by line and write back.  [Site] is the database
    with those files.  The last part is how hbbr reads its file at the start. *)
From Stdlib Require Import Ascii.
From S2P Require Import Prelude Text TextFacts Auth Database Subscription Peer Api.
Local Open Scope Z_scope.

(** A database and the files (those that are text), and whether the next writes
    fail. *)
Record Site : Type := mkSite { site_db : Db; files : gmap string string; write_faults : list bool }.
Abbreviation SiteM A := (M Site A).

Definition on_db {A} (m : M Db A) : SiteM A := λ s,
  let '(a, d) := m (site_db s) in (a, {| site_db := d; files := files s; write_faults := write_faults s |}).

(** [std::fs::read_to_string(path).ok()] and [std::fs::write(path, ..).is_ok()]. *)
Definition read_file (path : string) : SiteM (option string) := gets (λ s, files s !! path).
Definition write_file (path content : string) : SiteM bool := λ s,
  match write_faults s with
  | true :: r => (false, {| site_db := site_db s; files := files s; write_faults := r |})
  | l => (true, {| site_db := site_db s; files := <[path := content]> (files s); write_faults := tail l |})
  end.

Definition CONFIG_TOML : string := "config.toml".
Definition HBBR_TOML : string := "hbbr.toml".
Definition BLACKLIST_FILE : string := "blacklist.txt".
Definition BLOCKLIST_FILE : string := "blocklist.txt".

(** ** Lines *)

(** [lines.join("\n") + "\n"] *)
Definition unlines (l : list string) : string := join nl l +:+ nl.

Fixpoint ends_with_char (c : ascii) (s : string) : bool :=
  match s with
  | EmptyString => false
  | String a "" => bool_decide (a = c)
  | String _ r => ends_with_char c r
  end.
Fixpoint without_last (s : string) : string :=
  match s with
  | EmptyString | String _ "" => ""
  | String a r => String a (without_last r)
  end.
Definition is_header (t : string) : bool := starts_with "[" t.
(** [\[name\]] *)
Definition section_name (t : string) : option string :=
  match t with
  | String "[" r => if ends_with_char "]" r then Some (without_last r) else None
  | _ => None
  end.
Definition is_comment (t : string) : bool := starts_with "#" t || bool_decide (t = ""%string).

Definition quote : ascii := chr 34.
Fixpoint trim_start_quotes (s : string) : string :=
  match s with
  | String c r => if bool_decide (c = quote) then trim_start_quotes r else s
  | EmptyString => ""
  end.
Fixpoint trim_end_quotes (s : string) : string :=
  match s with
  | EmptyString => ""
  | String c r =>
    match trim_end_quotes r with
    | EmptyString => if bool_decide (c = quote) then "" else String c ""
    | r' => String c r'
    end
  end.
(** [trim_matches] of the double quote. *)
Definition trim_quotes (s : string) : string := trim_end_quotes (trim_start_quotes s).

Definition split_ini_kv (line : string) : option (string * string) :=
  p ← cut "=" line;
  let k := trim p.1 in
  let v := trim_quotes (trim p.2) in
  if bool_decide (k = ""%string) then None else Some (k, v).

(** ** Address lists *)

Record IpEntry : Type := mkIpEntry { ie_ip : string; ie_comment : string }.

Definition parse_ip_line (l : string) : IpEntry :=
  match cut " " l with
  | Some (a, b) => mkIpEntry (trim a) (trim b)
  | None => mkIpEntry (trim l) ""
  end.
Definition parse_ip_file (content : string) : list IpEntry :=
  filter (λ e, ie_ip e ≠ ""%string)
    (parse_ip_line <$> filter (λ l, trim l ≠ ""%string ∧ starts_with "#" (trim_start l) = false) (lines content)).

Definition ip_line (e : IpEntry) : string :=
  if bool_decide (ie_comment e = ""%string) then ie_ip e else ie_ip e +:+ " " +:+ ie_comment e.
Definition serialize_ip_file (entries : list IpEntry) : string := unlines (ip_line <$> entries).

Definition read_ip_file (path : string) : SiteM (list IpEntry) :=
  c ← read_file path;
  mret (match c with Some content => parse_ip_file content | None => [] end).
Definition write_ip_file (path : string) (entries : list IpEntry) : SiteM bool :=
  write_file path (serialize_ip_file entries).

(** ** Parameters of the servers *)

(** A reader keeps the section it is in and the values found so far, the last of
    a key winning. *)
Definition flat_key (k : string) : option string :=
  if bool_decide (k = "port"%string) then Some "hbbs_port"%string
  else if bool_decide (k = "serial"%string) then Some "hbbs_serial"%string
  else if bool_decide (k = "key"%string) then Some "hbbs_key"%string
  else if bool_decide (k = "mask"%string) then Some "hbbs_lan_mask"%string
  else if bool_decide (k = "relay_servers"%string) then Some "hbbr_relay_host"%string
  else None.

Definition flat_line (st : bool * gmap string string) (line : string) : bool * gmap string string :=
  let t := trim line in
  if is_header t then (true, st.2)
  else if st.1 || is_comment t then st
  else match split_ini_kv t with
       | Some (k, v) => match flat_key k with Some a => (st.1, <[a := v]> st.2) | None => st end
       | None => st
       end.
Definition read_config_toml (content : option string) : gmap string string :=
  match content with
  | Some c => (foldl flat_line (false, ∅) (lines c)).2
  | None => ∅
  end.

Definition section_key (sec k : string) : option string :=
  let at_key a b := bool_decide (sec = a) && bool_decide (k = b) in
  if at_key "server" "port" then Some "hbbr_port"
  else if at_key "server" "websocket_port" then Some "hbbr_websocket_port"
  else if at_key "key" "secret" then Some "hbbr_key"
  else if at_key "connection" "max_connections" then Some "hbbr_max_connections"
  else if at_key "bandwidth" "total_limit" then Some "hbbr_total_bandwidth"
  else if at_key "bandwidth" "single_limit" then Some "hbbr_single_bandwidth"
  else None%string.

(** The lines of a file with sections, by what [set] does with a key. *)
Definition section_line {A} (set : string → string → string → A → A) (st : string * A) (line : string) : string * A :=
  let t := trim line in
  match section_name t with
  | Some name => (name, st.2)
  | None =>
    if is_comment t then st
    else match split_ini_kv t with
         | Some (k, v) => (st.1, set st.1 k v st.2)
         | None => st
         end
  end.
Definition set_hbbr_param (sec k v : string) (m : gmap string string) : gmap string string :=
  match section_key sec k with Some a => <[a := v]> m | None => m end.
Definition read_hbbr_toml (content : option string) : gmap string string :=
  match content with
  | Some c => (foldl (section_line set_hbbr_param) (""%string, ∅) (lines c)).2
  | None => ∅
  end.

(** *** Editing the files *)

Definition kv_line (k v : string) : string := k +:+ " = " +:+ v.
Definition content_lines (content : option string) : list string := lines (default ""%string content).
Fixpoint position (P : string → bool) (l : list string) : option nat :=
  match l with
  | [] => None
  | x :: l => if P x then Some O else S <$> position P l
  end.
Definition insert_at (n : nat) (xs l : list string) : list string := take n l ++ xs ++ drop n l.
Definition header_line (l : string) : bool := is_header (trim l).

(** The lines before the first section with the given keys replaced, and the
    keys found. *)
Fixpoint flat_update (updates : gmap string string) (in_section : bool) (ls : list string)
    : list string * gset string :=
  match ls with
  | [] => ([], ∅)
  | line :: r =>
    let t := trim line in
    if is_header t then let '(r', u) := flat_update updates true r in (line :: r', u)
    else
      let '(r', u) := flat_update updates in_section r in
      if in_section || is_comment t then (line :: r', u)
      else match split_ini_kv t with
           | Some (k, _) =>
             match updates !! k with
             | Some v => (kv_line k v :: r', {[k]} ∪ u)
             | None => (line :: r', u)
             end
           | None => (line :: r', u)
           end
  end.
(** [update_flat_keys]: the new content of the file. *)
Definition update_flat_keys (content : option string) (updates : gmap string string) : string :=
  let '(ls, updated) := flat_update updates false (content_lines content) in
  let extra := (λ kv, kv_line kv.1 kv.2) <$> filter (λ kv, kv.1 ∉ updated) (map_to_list updates) in
  let pos := default (length ls) (position header_line ls) in
  unlines (insert_at pos extra ls).

Definition find_update (sec k : string) (updates : list (string * string * string)) : option (string * string * string) :=
  List.find (λ x, bool_decide (x.1.1 = sec) && bool_decide (x.1.2 = k)) updates.

Fixpoint section_update (updates : list (string * string * string)) (sec : string) (ls : list string)
    : list string * gset (string * string) :=
  match ls with
  | [] => ([], ∅)
  | line :: r =>
    let t := trim line in
    match section_name t with
    | Some name => let '(r', u) := section_update updates name r in (line :: r', u)
    | None =>
      let '(r', u) := section_update updates sec r in
      if is_comment t then (line :: r', u)
      else match split_ini_kv t with
           | Some (k, _) =>
             match find_update sec k updates with
             | Some (s, tk, v) => (kv_line tk v :: r', {[(s, tk)]} ∪ u)
             | None => (line :: r', u)
             end
           | None => (line :: r', u)
           end
    end
  end.
Definition header_text (sec : string) : string := "[" +:+ sec +:+ "]".
(** A key that was not found goes to the end of its section, or of the file. *)
Definition append_key (ls : list string) (x : string * string * string) : list string :=
  let '(sec, k, v) := x in
  match position (λ l, bool_decide (trim l = header_text sec)) ls with
  | Some start =>
    let rest := drop (S start) ls in
    let stop := (S start + default (length rest) (position header_line rest))%nat in
    insert_at stop [kv_line k v] ls
  | None => ls ++ [nl +:+ header_text sec; kv_line k v]
  end.
Definition update_sectioned_keys (content : option string) (updates : list (string * string * string)) : string :=
  let '(ls, updated) := section_update updates "" (content_lines content) in
  unlines (foldl append_key ls (filter (λ x, (x.1.1, x.1.2) ∉ updated) updates)).

Definition config_keys : list (string * string) :=
  [("hbbs_port", "port"); ("hbbs_serial", "serial"); ("hbbs_key", "key"); ("hbbs_lan_mask", "mask");
   ("hbbr_relay_host", "relay_servers")]%string.
Definition config_updates (params : gmap string string) : gmap string string :=
  list_to_map (omap (λ kk, pair kk.2 <$> params !! kk.1) config_keys).
Definition write_config_toml (params : gmap string string) : SiteM bool :=
  let updates := config_updates params in
  if bool_decide (updates = ∅) then mret true else
  c ← read_file CONFIG_TOML;
  write_file CONFIG_TOML (update_flat_keys c updates).

Definition hbbr_keys : list (string * string * string) :=
  [("hbbr_port", "server", "port"); ("hbbr_websocket_port", "server", "websocket_port");
   ("hbbr_key", "key", "secret"); ("hbbr_max_connections", "connection", "max_connections");
   ("hbbr_total_bandwidth", "bandwidth", "total_limit"); ("hbbr_single_bandwidth", "bandwidth", "single_limit")]%string.
Definition hbbr_updates (params : gmap string string) : list (string * string * string) :=
  omap (λ x, v ← params !! x.1.1; Some (x.1.2, x.2, v)) hbbr_keys.
Definition write_hbbr_toml (params : gmap string string) : SiteM bool :=
  let updates := hbbr_updates params in
  match updates with
  | [] => mret true
  | _ =>
    c ← read_file HBBR_TOML;
    write_file HBBR_TOML (update_sectioned_keys c updates)
  end.

(** ** Handlers *)

Abbreviation SiteHandler A := (M Site (HttpResult A)).
Definition site_reply {A} (a : A) : SiteHandler A := mret (Ok (api_success a)).
Definition site_refuse {A} (text : string) : SiteHandler A := mret (Ok (api_error (Msg text))).

Record SysInfo : Type := mkSysInfo {
  sys_version : string; sys_uptime_secs : Z; sys_os : string; sys_arch : string; sys_db_path : string }.
(** What the compiler fixes: the version of the package and the target. *)
Class Build : Type := { cargo_version : string; target_os : string; target_arch : string }.

Module SettingsApi.
Section settings_api.
Context `{Bcrypt} `{Uuid} `{Serde} `{SqlTime} `{Jwt} `{Build}.
Variable secret : string.

(** The guard every handler starts with. *)
Definition admin_only {A} (headers : HeaderMap) (k : SiteHandler A) : SiteHandler A :=
  r ← on_db (with_caller secret headers (λ caller, require_admin caller (reply tt)));
  match r with
  | Err s => mret (Err s)
  | Ok _ => k
  end.

Definition get_settings (headers : HeaderMap) : SiteHandler (gmap string string) :=
  admin_only headers (
    r ← on_db get_all_settings;
    match r with Ok m => site_reply m | Err e => mret (Ok (api_error (MsgErr "获取设置失败: " e))) end).

Fixpoint set_all (l : list (string * string)) : SiteHandler unit :=
  match l with
  | [] => site_reply tt
  | (k, v) :: l =>
    r ← on_db (set_setting k v);
    match r with Ok _ => set_all l | Err e => mret (Ok (api_error (MsgErr "保存设置失败: " e))) end
  end.

Definition update_settings (headers : HeaderMap) (key value : option string) (settings : option (gmap string string))
    : SiteHandler unit :=
  admin_only headers (
    match settings, key, value with
    | Some m, _, _ => set_all (map_to_list m)
    | None, Some k, Some v => set_all [(k, v)]
    | _, _, _ => site_refuse "缺少 key/value 或 settings 字段"
    end).

Definition get_list (path : string) (headers : HeaderMap) : SiteHandler (list IpEntry) :=
  admin_only headers (l ← read_ip_file path; site_reply l).
Definition written (ok : bool) : SiteHandler unit := if ok then site_reply tt else site_refuse "写入文件失败".

Definition add_entry (path taken : string) (headers : HeaderMap) (ip comment : string) : SiteHandler unit :=
  admin_only headers (
    let ip := trim ip in
    if bool_decide (ip = ""%string) then site_refuse "IP 地址不能为空" else
    entries ← read_ip_file path;
    if existsb (λ e, bool_decide (ie_ip e = ip)) entries then site_refuse taken else
    ok ← write_ip_file path (entries ++ [mkIpEntry ip comment]);
    written ok).

Definition delete_entry (path : string) (headers : HeaderMap) (ip : string) : SiteHandler unit :=
  admin_only headers (
    entries ← read_ip_file path;
    let kept := filter (λ e, ie_ip e ≠ ip) entries in
    if bool_decide (length kept = length entries) then site_refuse "未找到该 IP" else
    ok ← write_ip_file path kept;
    written ok).

Definition get_blacklist := get_list BLACKLIST_FILE.
Definition add_blacklist := add_entry BLACKLIST_FILE "IP 已在黑名单中".
Definition delete_blacklist := delete_entry BLACKLIST_FILE.
Definition get_blocklist := get_list BLOCKLIST_FILE.
Definition add_blocklist := add_entry BLOCKLIST_FILE "IP 已在阻止名单中".
Definition delete_blocklist := delete_entry BLOCKLIST_FILE.

Definition get_sysinfo (started now : Instant) (headers : HeaderMap) : SiteHandler SysInfo :=
  admin_only headers (
    site_reply (mkSysInfo cargo_version (as_secs (elapsed now started)) target_os target_arch "db_v2.sqlite3")).

Definition get_server_params (headers : HeaderMap) : SiteHandler (gmap string string) :=
  admin_only headers (
    c ← read_file CONFIG_TOML;
    h ← read_file HBBR_TOML;
    site_reply (read_hbbr_toml h ∪ read_config_toml c)).

Definition update_server_params (headers : HeaderMap) (params : gmap string string) : SiteHandler unit :=
  admin_only headers (
    ok ← write_config_toml params;
    if negb ok then site_refuse "写入 config.toml 失败" else
    ok ← write_hbbr_toml params;
    if negb ok then site_refuse "写入 hbbr.toml 失败" else site_reply tt).
End settings_api.
End SettingsApi.

(** ** How hbbr reads its parameters: [src/hbbr.rs] *)

Definition set_hbbr_env (sec k v : string) (env : gmap string string) : gmap string string :=
  if bool_decide (sec = "server"%string) && bool_decide (k = "port"%string) then <["PORT"%string := v]> env
  else if bool_decide (sec = "key"%string) && bool_decide (k = "secret"%string) then <["KEY"%string := v]> env
  else env.
Definition load_hbbr_toml_env (content : option string) (env : gmap string string) : gmap string string :=
  match content with
  | Some c => (foldl (section_line set_hbbr_env) (""%string, env) (lines c)).2
  | None => env
  end.
(** [load_flat_env]: the entries without a section of an INI file, by upper-case
    names (the [ini] crate reads the file). *)
Definition load_flat_env (entries : list (string * string)) (env : gmap string string) : gmap string string :=
  foldl (λ env kv, <[to_uppercase kv.1 := kv.2]> env) env entries.

Definition RELAY_PORT : Z := 21117.
(** [main]: the port and the key the relay starts with; what is loaded later
    wins, the arguments over all. *)
Definition hbbr_main (ini : string → list (string * string)) (fs : gmap string string)
    (env : gmap string string) (arg_port arg_key : option string) : string * string :=
  let env := load_flat_env (ini ".env"%string) env in
  let env := load_flat_env (ini CONFIG_TOML) env in
  let env := load_hbbr_toml_env (fs !! HBBR_TOML) env in
  let port := match env !! "PORT"%string ≫= parse_i32 with
              | Some p => if 0 <? p then p else RELAY_PORT
              | None => RELAY_PORT
              end in
  (default (to_string port) arg_port, default (default ""%string (env !! "KEY"%string)) arg_key).
