(* ===== verification/SettingsSpec.v ===== *)
(** * What the settings files guarantee

    The list files and the parameter files read back what was written: by the
    handlers themselves, by the relay server that loads the lists, by hbbr that
    loads its parameters; and what is accepted but lost. *)
From Stdlib Require Import Ascii.
From S2P Require Import Prelude AddrMangle Text TextFacts Auth Database Instances Subscription Keys Relay Peer Api SettingsApi.
Local Open Scope Z_scope.

(** ** Lines *)






Lemma split_unlines ls : ls ≠ [] → split_on newline (unlines ls) = (ls ≫= split_on newline) ++ [""%string].
Proof.
  unfold unlines. intros Hne. assert (E : ∀ s, split_on newline (s +:+ nl) = split_on newline s ++ [""%string]).
  { intros s. unfold nl. by rewrite split_on_app. }
  rewrite E. f_equal. clear E. induction ls as [|a ls IH]; [done|]. destruct ls as [|b ls].
  { cbn [mbind list_bind join]. by rewrite app_nil_r. }
  change (join nl (a :: b :: ls)) with (a +:+ String newline (join nl (b :: ls))).
  rewrite split_on_app, IH by done. done.
Qed.

Lemma line_pieces_app l : line_pieces (l ++ [""%string]) = strip_cr <$> l.
Proof.
  induction l as [|a [|b l] IH]; [done|done|].
  change (line_pieces ((a :: b :: l) ++ [""%string])) with (strip_cr a :: line_pieces ((b :: l) ++ [""%string])).
  by rewrite IH.
Qed.

(** What was written is read line by line, a line with newlines as several. *)
Lemma lines_unlines ls : ls ≠ [] → lines (unlines ls) = strip_cr <$> (ls ≫= split_on newline).
Proof.
  intros Hne. unfold lines. by rewrite split_unlines, line_pieces_app by done.
Qed.

Lemma bind_split_none ls : Forall (λ l, has_char newline l = false) ls → ls ≫= split_on newline = ls.
Proof. induction 1 as [|a ls Ha _ IH]; cbn; [done|]. by rewrite split_on_none, IH by done. Qed.

(** ** Blanks *)
Definition trimmed (s : string) : Prop := trim_start s = s ∧ trim_end s = s.

Lemma trim_trimmed s : trimmed s → trim s = s.
Proof. intros [H1 H2]. unfold trim. by rewrite H1. Qed.
Lemma trimmed_no_space s : no_space s = true → trimmed s.
Proof.
  intros Hs. split; [|by apply trim_end_no_space].
  destruct s as [|c r]; [done|]. cbn in *. bool_simp. by rewrite H.
Qed.
Lemma strip_cr_trimmed s : trim_end s = s → strip_cr s = s.
Proof.
  induction s as [|c r IH]; [done|]. intros E.
  change (match trim_end r with EmptyString => if is_space c then EmptyString else String c EmptyString
          | r' => String c r' end = String c r) in E.
  assert (Hr : trim_end r = r).
  { destruct (trim_end r); [destruct (is_space c); simplify_eq/=|congruence]. done. }
  destruct r as [|d r].
  - cbn. case_bool_decide as Hc; [|done]. subst c. cbn in E. done.
  - change (String c (strip_cr (String d r)) = String c (String d r)). by rewrite IH.
Qed.
Lemma trim_end_app a b : b ≠ ""%string → trim_end b = b → trim_end (a +:+ b) = a +:+ b.
Proof.
  intros Hne Hb. induction a as [|c a IH]; [done|].
  change (match trim_end (a +:+ b) with EmptyString => if is_space c then EmptyString else String c EmptyString
          | r' => String c r' end = String c (a +:+ b)).
  rewrite IH. destruct a; [|done]. by destruct b.
Qed.
Lemma trim_start_first c s : is_space c = false → trim_start (String c s) = String c s.
Proof. intros H. cbn. by rewrite H. Qed.

Lemma starts_with_first a c s s' :
  starts_with (String a "") (String c s) = starts_with (String a "") (String c s').
Proof. unfold starts_with. apply bool_decide_ext. cbn [strip_prefix]. by destruct (Ascii.eqb a c). Qed.

(** ** Address lists *)

(** An address without blanks and a comment without blanks around it or newlines
    in it; the address is not to look like a comment line. *)
Record entry_shape (e : IpEntry) : Prop := {
  entry_ip : no_space (ie_ip e) = true ∧ ie_ip e ≠ ""%string;
  entry_comment : trimmed (ie_comment e) ∧ has_char newline (ie_comment e) = false;
}.
Definition entry_ok (e : IpEntry) : Prop := entry_shape e ∧ starts_with "#" (ie_ip e) = false.

Lemma ip_line_ok e : entry_shape e →
  has_char newline (ip_line e) = false ∧ strip_cr (ip_line e) = ip_line e ∧ trim_end (ip_line e) = ip_line e
  ∧ trim_start (ip_line e) = ip_line e ∧ starts_with "#" (ip_line e) = starts_with "#" (ie_ip e) ∧ ip_line e ≠ ""%string
  ∧ parse_ip_line (ip_line e) = e.
Proof.
  destruct e as [ip com]. intros [(Hns & Hne) ([Hts Hte] & Hnl)]. cbn [ie_ip ie_comment] in *.
  assert (Hend : trim_end (ip_line (mkIpEntry ip com)) = ip_line (mkIpEntry ip com)).
  { unfold ip_line. cbn [ie_ip ie_comment]. case_bool_decide; [by apply trim_end_no_space|].
    apply trim_end_app; [done|]. by apply (trim_end_app " "). }
  split_and!; [|by apply strip_cr_trimmed|done| | | |].
  - unfold ip_line. cbn [ie_ip ie_comment].
    assert (Hip : has_char newline ip = false) by by apply has_char_no_space.
    case_bool_decide; [done|]. by rewrite !has_char_app, Hip, Hnl.
  - destruct ip as [|c ip]; [done|]. cbn in Hns. bool_simp. unfold ip_line. cbn [ie_ip ie_comment].
    case_bool_decide; by apply trim_start_first.
  - destruct ip as [|c ip]; [done|]. unfold ip_line. cbn [ie_ip ie_comment]. case_bool_decide; [done|].
    apply starts_with_first.
  - unfold ip_line. cbn [ie_ip ie_comment]. case_bool_decide; [done|]. by destruct ip.
  - unfold ip_line, parse_ip_line. cbn [ie_ip ie_comment].
    assert (Hip : has_char " " ip = false) by by apply has_char_no_space.
    case_bool_decide as Hc.
    + rewrite cut_none by done. rewrite trim_no_space by done. by rewrite Hc.
    + change (ip +:+ " " +:+ com) with (ip +:+ String " " com). rewrite cut_app by done.
      rewrite trim_no_space by done. by rewrite (trim_trimmed com).
Qed.

Lemma parse_lines es : Forall entry_shape es →
  lines (serialize_ip_file es) = match es with [] => [""%string] | _ => ip_line <$> es end.
Proof.
  intros Hes. unfold serialize_ip_file. destruct es as [|e es]; [reflexivity|].
  rewrite lines_unlines by done. rewrite bind_split_none.
  - rewrite <- list_fmap_id. apply list_fmap_ext. intros i l Hl.
    apply list_lookup_fmap_Some in Hl as (x & -> & Hx). rewrite Forall_lookup in Hes. by apply ip_line_ok, (Hes i).
  - apply Forall_fmap. eapply Forall_impl; [done|]. intros x Hx. by apply ip_line_ok.
Qed.

(** What is read of the lines of entries: those that are no comments. *)
Lemma parse_entries es : Forall entry_shape es →
  parse_ip_file (serialize_ip_file es) = filter (λ e, starts_with "#" (ie_ip e) = false) es.
Proof.
  intros Hes. unfold parse_ip_file. rewrite parse_lines by done.
  destruct es as [|e0 es0]; [reflexivity|]. revert Hes. generalize (e0 :: es0) as es. clear.
  induction es as [|e es IH]; [done|]. intros [He Hes]%Forall_cons.
  destruct (ip_line_ok e He) as (_ & _ & Hend & Hstart & Hh & Hne & Hp).
  cbn [fmap list_fmap]. rewrite (filter_cons _ e). destruct (decide (starts_with "#" (ie_ip e) = false)) as [Hok|Hok].
  - rewrite filter_cons_True by (unfold trim; rewrite Hstart, Hend, Hh; done).
    cbn [fmap list_fmap]. rewrite Hp, filter_cons_True; [by rewrite IH|]. by destruct (entry_ip e He) as [_ ?].
  - rewrite filter_cons_False; [by apply IH|]. rewrite Hstart, Hh. by intros [_ ?].
Qed.

(** An address list reads back as it was written, entry by entry, for
    entries whose address has no blank and is no comment. *)
Theorem ip_file_roundtrip es : Forall entry_ok es → parse_ip_file (serialize_ip_file es) = es.
Proof.
  intros Hes. rewrite parse_entries by (eapply Forall_impl; [done|]; by intros e [? _]).
  induction Hes as [|e es [_ He] _ IH]; [done|]. by rewrite filter_cons_True, IH.
Qed.


(** The first word of a line of the file. *)
Lemma first_word e : entry_shape e → ∃ ws, split_on " " (trim (ip_line e)) = ie_ip e :: ws.
Proof.
  intros He. destruct (ip_line_ok e He) as (_ & _ & Hend & Hstart & _).
  assert (Hip : has_char " " (ie_ip e) = false) by (apply has_char_no_space; [by apply He|done]).
  rewrite trim_trimmed by done. unfold ip_line. case_bool_decide.
  - rewrite split_on_none by done. by eexists.
  - by apply split_on_head.
Qed.


(** The handlers accept an address that starts with [#] and report success,
    but the line they write is read as a comment: the entry is not in the list
    afterwards. *)
Theorem hash_entry_is_lost es ip comment : Forall entry_ok es →
  no_space ip = true → starts_with "#" ip = true → trimmed comment → has_char newline comment = false →
  existsb (λ e, bool_decide (ie_ip e = ip)) es = false
  ∧ parse_ip_file (serialize_ip_file (es ++ [mkIpEntry ip comment])) = es.
Proof.
  intros Hes Hns Hh Hc Hnl. split.
  { apply not_true_iff_false. rewrite existsb_exists. intros (e & Hin%list_elem_of_In & Heq). bool_simp. subst ip.
    rewrite Forall_forall in Hes. destruct (Hes e Hin) as [_ Hf]. congruence. }
  assert (Hip : ip ≠ ""%string) by (intros ->; done).
  rewrite parse_entries.
  - rewrite filter_app, (filter_cons_False _ (mkIpEntry ip comment)) by (cbn; congruence).
    rewrite filter_nil, app_nil_r. clear -Hes.
    induction Hes as [|e es [_ He] _ IH]; [done|]. by rewrite filter_cons_True, IH.
  - apply Forall_app. split; [eapply Forall_impl; [done|]; by intros e [? _]|].
    constructor; [|constructor]. by split.
Qed.

Definition demo_entries : list IpEntry := [mkIpEntry "10.0.0.7" "spam"; mkIpEntry "2001:db8::1" ""].
Lemma demo_entries_ok : Forall entry_ok demo_entries.
Proof. repeat (constructor; [by repeat split|]). constructor. Qed.

Lemma ip_file_roundtrip_witness :
  serialize_ip_file demo_entries = ("10.0.0.7 spam" +:+ nl +:+ "2001:db8::1" +:+ nl)%string
  ∧ parse_ip_file (serialize_ip_file demo_entries) = demo_entries.
Proof. split; [reflexivity|exact (ip_file_roundtrip demo_entries demo_entries_ok)]. Defined.


Lemma hash_entry_is_lost_witness :
  parse_ip_file (serialize_ip_file (demo_entries ++ [mkIpEntry "#10.0.0.8" "x"])) = demo_entries.
Proof.
  refine (proj2 (hash_entry_is_lost demo_entries "#10.0.0.8" "x" demo_entries_ok _ _ _ _)); by repeat split.
Defined.

(** ** Parameters of the relay server *)

Lemma trim_end_tail c r : trim_end (String c r) = String c r → trim_end r = r.
Proof.
  intros E. change (match trim_end r with EmptyString => if is_space c then EmptyString else String c EmptyString
          | r' => String c r' end = String c r) in E.
  destruct (trim_end r); [destruct (is_space c); simplify_eq/=|congruence]. done.
Qed.
Lemma trim_end_keep a b : trim_end a = a → a ≠ ""%string → trim_end (a +:+ b) = a +:+ trim_end b.
Proof.
  induction a as [|c a IH]; [done|]. intros E _. pose proof (trim_end_tail c a E) as Ea.
  change (match trim_end (a +:+ b) with EmptyString => if is_space c then EmptyString else String c EmptyString
          | r' => String c r' end = String c (a +:+ trim_end b)).
  destruct a as [|d a].
  - change ((""%string +:+ b)%string) with b. change ((""%string +:+ trim_end b)%string) with (trim_end b).
    destruct (trim_end b); [|done]. cbn in E. by destruct (is_space c).
  - by rewrite IH.
Qed.
Lemma trim_end_strip_cr s : trim_end (strip_cr s) = trim_end s.
Proof.
  induction s as [|c s IH]; [done|]. destruct s as [|d s].
  - cbn. case_bool_decide as H; [by subst|]. done.
  - change (strip_cr (String c (String d s))) with (String c (strip_cr (String d s))).
    change (match trim_end (strip_cr (String d s)) with EmptyString => if is_space c then EmptyString else String c EmptyString
          | r' => String c r' end = trim_end (String c (String d s))). by rewrite IH.
Qed.
Lemma trim_strip_cr s : trim (strip_cr s) = trim s.
Proof.
  unfold trim. induction s as [|c s IH]; [done|]. destruct s as [|d s].
  - cbn. case_bool_decide as H; [by subst|]. done.
  - change (strip_cr (String c (String d s))) with (String c (strip_cr (String d s))).
    cbn [trim_start]. destruct (is_space c); [exact IH|].
    exact (trim_end_strip_cr (String c (String d s))).
Qed.

(** A key as the programs use them, and the line written for it. *)
Record key_ok (k : string) : Prop := {
  key_no_space : no_space k = true;
  key_nonempty : k ≠ ""%string;
  key_no_equal : has_char "=" k = false;
  key_no_header : starts_with "[" k = false;
  key_no_comment : starts_with "#" k = false;
}.

Lemma trim_kv_line k v : key_ok k → ∃ w, trim (kv_line k v) = k +:+ " =" +:+ w.
Proof.
  intros [Hs Hne _ _ _]. unfold kv_line, trim.
  assert (E : trim_start (k +:+ " = " +:+ v) = k +:+ " = " +:+ v).
  { destruct k as [|c k]; [done|]. cbn in Hs. bool_simp. by apply trim_start_first. }
  rewrite E. exists (trim_end (" " +:+ v)).
  change (k +:+ " = " +:+ v) with (k +:+ (" =" +:+ (" " +:+ v))).
  rewrite trim_end_keep by (done || by apply trim_end_no_space). by rewrite (trim_end_keep " =").
Qed.

Lemma section_name_first c s : c ≠ "["%char → section_name (String c s) = None.
Proof. intros Hc. destruct c as [[] [] [] [] [] [] [] []]; done. Qed.

Lemma kv_line_read {A} (set : string → string → string → A → A) sec a k v :
  key_ok k → ∃ v', section_line set (sec, a) (kv_line k v) = (sec, set sec k v' a).
Proof.
  intros Hk. destruct (trim_kv_line k v Hk) as [w Hw]. destruct Hk as [Hs Hne Heq Hh Hc].
  unfold section_line. rewrite Hw. destruct k as [|c k]; [done|].
  change (String c k +:+ " =" +:+ w) with (String c (k +:+ " =" +:+ w)).
  rewrite (section_name_first c (k +:+ " =" +:+ w)).
  2:{ intros ->. rewrite (starts_with_first "[" "[" k "") in Hh. done. }
  assert (Hcom : is_comment (String c k +:+ " =" +:+ w) = false).
  { unfold is_comment. apply orb_false_iff. split; [|by apply bool_decide_eq_false_2].
    exact (eq_trans (starts_with_first _ _ _ _) Hc). }
  change (String c (k +:+ " =" +:+ w)) with (String c k +:+ " =" +:+ w). rewrite Hcom.
  unfold split_ini_kv.
  change (String c k +:+ " =" +:+ w) with (String c k +:+ (" " +:+ String "=" w)).
  assert (Hcut : cut "=" (String c k +:+ (" " +:+ String "=" w)) = Some (String c k +:+ " ", w)).
  { replace (String c k +:+ (" " +:+ String "=" w)) with ((String c k +:+ " ") +:+ String "=" w).
    - apply cut_app. by rewrite has_char_app, Heq.
    - clear. generalize (String c k) as s. induction s as [|x s IH]; [done|].
      change (String x ((s +:+ " ") +:+ String "=" w) = String x (s +:+ " " +:+ String "=" w)). by rewrite IH. }
  rewrite Hcut. cbn [mbind option_bind fst snd].
  assert (Htrim : trim (String c k +:+ " ") = String c k).
  { unfold trim. cbn in Hs. bool_simp. change (String c k +:+ " ") with (String c (k +:+ " ")).
    rewrite trim_start_first by done. change (String c (k +:+ " ")) with (String c k +:+ " ").
    rewrite trim_end_keep; [|apply trim_end_no_space; cbn; by rewrite H, H0|done].
    change (trim_end " ") with ""%string. clear. induction (String c k) as [|x s IH]; [done|].
    change (String x (s +:+ "") = String x s). by rewrite IH. }
  rewrite Htrim. rewrite bool_decide_eq_false_2 by done. by eexists.
Qed.

Lemma has_char_strip_cr c s : has_char c s = false → has_char c (strip_cr s) = false.
Proof.
  induction s as [|x s IH]; [done|]. destruct s as [|y s].
  - intros H. cbn [strip_cr]. destruct (bool_decide (x = chr 13)); [done|exact H].
  - change (strip_cr (String x (String y s))) with (String x (strip_cr (String y s))).
    intros H. cbn [has_char] in H. apply orb_false_iff in H as [Hx Hy].
    cbn [has_char]. rewrite Hx. by apply IH.
Qed.
Lemma line_pieces_no_char c l :
  Forall (λ w, has_char c w = false) l → Forall (λ w, has_char c w = false) (line_pieces l).
Proof.
  induction 1 as [|a l Ha Hl IH]; [constructor|]. destruct l as [|b l].
  - cbn. case_bool_decide; by repeat constructor.
  - change (line_pieces (a :: b :: l)) with (strip_cr a :: line_pieces (b :: l)).
    constructor; [by apply has_char_strip_cr|done].
Qed.
Lemma lines_no_newline c : Forall (λ l, has_char newline l = false) (lines c).
Proof. apply line_pieces_no_char, split_on_no_char. Qed.

Lemma no_space_app a b : no_space (a +:+ b) = no_space a && no_space b.
Proof.
  induction a as [|x a IH]; [done|].
  change (negb (is_space x) && no_space (a +:+ b) = negb (is_space x) && no_space a && no_space b).
  by rewrite IH, andb_assoc.
Qed.
Lemma header_section sec : no_space sec = true → section_name (trim (header_text sec)) = Some sec.
Proof.
  intros Hs. unfold header_text. rewrite trim_no_space by (by rewrite !no_space_app, Hs).
  change (section_name ("[" +:+ sec +:+ "]")) with
    (if ends_with_char "]" (sec +:+ "]") then Some (without_last (sec +:+ "]")) else None).
  assert (He : ends_with_char "]" (sec +:+ "]") = true ∧ without_last (sec +:+ "]") = sec).
  { clear. induction sec as [|x s [IH1 IH2]]; [done|]. change (String x s +:+ "]") with (String x (s +:+ "]")).
    destruct (s +:+ "]") as [|y r] eqn:E; [by destruct s|]. split; [exact IH1|].
    change (String x (without_last (String y r)) = String x s). by rewrite IH2. }
  by destruct He as [-> ->].
Qed.
Lemma Forall_filter_impl {A} (P Q : A → Prop) `{∀ x, Decision (Q x)} l : Forall P l → Forall P (filter Q l).
Proof. rewrite !Forall_forall. intros HP x [_ Hx]%list_elem_of_filter. auto. Qed.

Section relay_env.
Implicit Types (st : string * gmap string string) (x : string * string * string).

Abbreviation env_line := (section_line set_hbbr_env).
(** How hbbr reads lines, a line with newlines as several. *)
Definition env_lines st (ls : list string) : string * gmap string string :=
  foldl env_line st (ls ≫= split_on newline).

Lemma env_lines_app st l1 l2 : env_lines st (l1 ++ l2) = env_lines (env_lines st l1) l2.
Proof. unfold env_lines. by rewrite bind_app, foldl_app. Qed.
Lemma env_lines_cons st l ls : has_char newline l = false → env_lines st (l :: ls) = env_lines (env_line st l) ls.
Proof. intros Hl. unfold env_lines. cbn [mbind list_bind]. by rewrite split_on_none. Qed.

Lemma load_unlines ls env : load_hbbr_toml_env (Some (unlines ls)) env = (env_lines (""%string, env) ls).2.
Proof.
  unfold load_hbbr_toml_env, env_lines. destruct ls as [|l ls]; [reflexivity|].
  rewrite lines_unlines by done. f_equal. generalize (""%string, env). generalize ((l :: ls) ≫= split_on newline).
  induction l0 as [|a l0 IH]; [done|]. intros st. cbn [fmap list_fmap foldl]. rewrite IH. f_equal.
  unfold section_line. by rewrite trim_strip_cr.
Qed.
Lemma load_content content env :
  load_hbbr_toml_env content env = (env_lines (""%string, env) (content_lines content)).2.
Proof.
  unfold env_lines, content_lines. rewrite bind_split_none by apply lines_no_newline. by destruct content.
Qed.

(** An update of a key that hbbr does not read. *)
Record unread x : Prop := {
  unread_key : key_ok x.1.2 ∧ x.1.2 ≠ "port"%string ∧ x.1.2 ≠ "secret"%string;
  unread_section : key_ok x.1.1;
  unread_lines : has_char newline x.2 = false;
}.

Lemma set_env_unread sec k v env : k ≠ "port"%string → k ≠ "secret"%string → set_hbbr_env sec k v env = env.
Proof.
  intros H1 H2. unfold set_hbbr_env. rewrite (bool_decide_eq_false_2 (k = "port"%string)) by done.
  rewrite (bool_decide_eq_false_2 (k = "secret"%string)) by done. by rewrite !andb_false_r.
Qed.
Lemma env_line_unread st x : unread x → env_line st (kv_line x.1.2 x.2) = st.
Proof.
  intros [(Hk & Hp & Hs) _ _]. destruct st as [sec env].
  destruct (kv_line_read set_hbbr_env sec env x.1.2 x.2 Hk) as [v' ->]. by rewrite set_env_unread.
Qed.
Lemma kv_line_lines x : unread x → has_char newline (kv_line x.1.2 x.2) = false.
Proof.
  intros [(Hk & _) _ Hv]. unfold kv_line. rewrite !has_char_app, Hv.
  by rewrite (has_char_no_space newline x.1.2) by (done || apply Hk).
Qed.

(** The replaced lines are read as before. *)
Lemma section_update_env updates ls : Forall unread updates → Forall (λ l, has_char newline l = false) ls →
  ∀ sec env, env_lines (sec, env) (section_update updates sec ls).1 = env_lines (sec, env) ls.
Proof.
  intros Hup Hls. induction Hls as [|l ls Hl _ IH]; intros sec env; [done|]. cbn [section_update].
  rewrite (env_lines_cons _ l ls Hl).
  destruct (section_name (trim l)) as [name|] eqn:En.
  { specialize (IH name env). destruct (section_update updates name ls) as [r' u]. cbn [fst] in *.
    rewrite env_lines_cons by done. assert (El : env_line (sec, env) l = (name, env)) by (unfold section_line; by rewrite En).
    by rewrite El. }
  destruct (section_update updates sec ls) as [r' u] eqn:Er. cbn [fst] in *.
  assert (Hkeep : ∀ st, env_line (sec, env) l = st → env_lines st ls = env_lines st r' →
            env_lines (sec, env) (l :: r') = env_lines (env_line (sec, env) l) ls).
  { intros st Est Hst. by rewrite env_lines_cons, Est, Hst. }
  assert (Hsec : ∀ env, env_lines (sec, env) ls = env_lines (sec, env) r').
  { intros e. specialize (IH sec e). by rewrite Er in IH. }
  destruct (is_comment (trim l)) eqn:Ec.
  { apply (Hkeep (sec, env)); [|done]. unfold section_line. by rewrite En, Ec. }
  destruct (split_ini_kv (trim l)) as [[k v0]|] eqn:Ekv.
  2:{ apply (Hkeep (sec, env)); [|done]. unfold section_line. by rewrite En, Ec, Ekv. }
  assert (El : env_line (sec, env) l = (sec, set_hbbr_env sec k v0 env)) by (unfold section_line; by rewrite En, Ec, Ekv).
  destruct (find_update sec k updates) as [[[s tk] v]|] eqn:Ef.
  - cbn [fst]. unfold find_update in Ef. apply find_some in Ef as [Hin Hm]. bool_simp. cbn [fst snd] in *. subst s tk.
    rewrite Forall_forall in Hup. specialize (Hup _ (proj2 (list_elem_of_In _ _) Hin)).
    rewrite env_lines_cons by exact (kv_line_lines _ Hup).
    rewrite (env_line_unread _ (sec, k, v) Hup), <- Hsec, El.
    destruct Hup as [(_ & Hp & Hsc) _ _]. by rewrite set_env_unread.
  - by apply (Hkeep _ El).
Qed.

(** A key that is added changes nothing either. *)
Lemma append_key_env ls x env : unread x →
  (env_lines (""%string, env) (append_key ls x)).2 = (env_lines (""%string, env) ls).2.
Proof.
  intros Hx. pose proof (kv_line_lines x Hx) as Hl. pose proof (λ st, env_line_unread st x Hx) as Hr.
  destruct x as [[sec k] v]. cbn [fst snd] in *. unfold append_key.
  destruct (position _ ls) as [start|].
  - set (n := (S start + _)%nat). unfold insert_at. rewrite !env_lines_app.
    rewrite env_lines_cons, Hr by done. change (env_lines (env_lines (""%string, env) (take n ls)) []) with (env_lines (""%string, env) (take n ls)).
    rewrite <- (env_lines_app _ (take n ls) (drop n ls)). by rewrite take_drop.
  - rewrite env_lines_app. destruct (env_lines _ ls) as [s1 env1].
    unfold env_lines at 1. cbn [mbind list_bind]. rewrite (split_on_none _ _ Hl).
    change (split_on newline (nl +:+ header_text sec)) with ([""%string] ++ split_on newline (header_text sec)).
    assert (Hh : has_char newline (header_text sec) = false).
    { unfold header_text. rewrite !has_char_app.
      by rewrite (has_char_no_space newline sec) by (done || apply Hx). }
    rewrite (split_on_none _ _ Hh). cbn [app foldl].
    rewrite Hr. change (env_line (s1, env1) "") with (s1, env1). unfold section_line. rewrite header_section; [done|apply Hx].
Qed.

(** The bandwidth, connection and websocket settings the administrator can
    make never reach hbbr: whatever of them is written to [hbbr.toml], the
    relay reads the same environment from it as before. *)
Theorem relay_ignores_limits params content env :
  params !! "hbbr_port"%string = None → params !! "hbbr_key"%string = None →
  map_Forall (λ _ v, has_char newline v = false) params →
  load_hbbr_toml_env (Some (update_sectioned_keys content (hbbr_updates params))) env
  = load_hbbr_toml_env content env.
Proof.
  intros Hp Hk Hv. assert (Hup : Forall unread (hbbr_updates params)).
  { unfold hbbr_updates, hbbr_keys. apply Forall_forall. intros x Hx.
    rewrite list_elem_of_omap in Hx. destruct Hx as (k & Hin & Hx). apply bind_Some in Hx as (v & Hv' & [= <-]).
    pose proof (Hv _ _ Hv') as Hnl. cbn [fst snd] in Hnl.
    repeat (apply elem_of_cons in Hin as [->|Hin]; [cbn [fst snd] in *; first [congruence|by repeat split]|]).
    by apply elem_of_nil in Hin. }
  unfold update_sectioned_keys.
  pose proof (section_update_env _ _ Hup (lines_no_newline (default ""%string content)) ""%string env) as H1.
  unfold content_lines. destruct (section_update _ _ _) as [ls updated] eqn:E. cbn [fst] in H1.
  rewrite load_unlines, load_content. unfold content_lines. rewrite <- H1. clear -Hup.
  generalize (Forall_filter_impl unread (λ x, (x.1.1, x.1.2) ∉ updated) _ Hup).
  generalize (filter (λ x : string * string * string, (x.1.1, x.1.2) ∉ updated) (hbbr_updates params)).
  intros l Hl. revert ls. induction Hl as [|x l Hx _ IH]; intros ls; [done|].
  cbn [foldl]. by rewrite IH, append_key_env.
Qed.
End relay_env.

Lemma relay_ignores_limits_witness :
  let params : gmap string string := {["hbbr_total_bandwidth" := "2000"]}%string in
  let content := Some ("[server]" +:+ nl +:+ "port = 21118" +:+ nl)%string in
  update_sectioned_keys content (hbbr_updates params)
    = ("[server]" +:+ nl +:+ "port = 21118" +:+ nl +:+ nl +:+ "[bandwidth]" +:+ nl +:+ "total_limit = 2000" +:+ nl)%string
  ∧ load_hbbr_toml_env (Some (update_sectioned_keys content (hbbr_updates params))) ∅ = {["PORT" := "21118"]}%string.
Proof.
  intros params content. split; [vm_compute; reflexivity|].
  rewrite (relay_ignores_limits params content ∅); [vm_compute; reflexivity..|].
  apply map_Forall_singleton. reflexivity.
Defined.
