(* ===== verification/Web.v ===== *)
(** * The web server: [src/web.rs]

    The handlers of web.rs and the router: one constructor of [Request] per
    route and method, [route] runs its handler.  The HTML pages read nothing of
    the database; [Page] stands for all of them and for [set_lang]. *)
From S2P Require Import Prelude Text Auth Database Subscription Orders Peer Api Payment SettingsApi.
Local Open Scope Z_scope.

Definition client_keys : list (string * string) :=
  [("version", "client_latest_version"); ("download_url_windows", "client_dl_win");
   ("download_url_macos", "client_dl_mac"); ("download_url_linux", "client_dl_linux");
   ("sha256_windows", "client_sha256_win"); ("sha256_macos", "client_sha256_mac");
   ("sha256_linux", "client_sha256_linux"); ("changelog", "client_changelog")]%string.

Module Web.
Section web.
Context `{Bcrypt} `{Uuid} `{Serde} `{SqlTime} `{Jwt}.
Variable secret : string.

Definition forgot_password (mail : string) : Handler string :=
  r ← get_user_by_email mail;
  match r with
  | Ok (Some _) => mret (Ok (mkResponse true (Some "success"%string) (Msg "重置密码链接已发送到您的邮箱")))
  | Ok None => mret (Ok (mkResponse true (Some "success"%string) (Msg "如果邮箱存在，重置链接已发送")))
  | Err _ => status INTERNAL_SERVER_ERROR
  end.

Definition reset_password (token password : string) : Handler string :=
  if bool_decide (token = ""%string) then mret (Ok (mkResponse false None (Msg "无效的重置令牌")))
  else mret (Ok (mkResponse true (Some "success"%string) (Msg "密码重置成功"))).

(** The row of the device a login names, [Err] with the answer when it is not
    the user's. *)
Definition login_device (uid : Z) (device_id : option string) : M Db (result (ApiResponse LoginResponse) (option Z)) :=
  let named := match device_id with
               | Some s => let did := trim s in if bool_decide (did = ""%string) then None else Some did
               | None => None
               end in
  match named with
  | None => mret (Ok None)
  | Some did =>
    r ← get_user_device_row_id uid did;
    mret (match r with
    | Ok (Some id) => Ok (Some id)
    | Ok None => Err (api_error (Msg "指定的设备不属于当前用户或未激活"))
    | Err _ => Err (api_error (Msg "查询设备失败"))
    end)
  end.

Definition login_claims (u : User) (udid : option Z) (now : Z) : Claims :=
  {| c_sub := to_string (user_id u); c_username := username u; c_exp := now + 24 * 3600; c_iat := now;
     c_udid := udid; c_role := role u |}.

Definition login (request : LoginRequest) : Handler LoginResponse :=
  r ← get_user_by_username (lq_username request);
  match r with
  | Err _ => refuse "查询用户失败"
  | Ok None => refuse "用户不存在"
  | Ok (Some u) =>
    if negb (user_is_active u) then refuse "用户账户已被禁用" else
    v ← verify_password (lq_password request) (password_hash u);
    match v with
    | Err _ => refuse "验证密码失败"
    | Ok false => refuse "用户名或密码错误"
    | Ok true =>
      dev ← login_device (user_id u) (lq_device_id request);
      match dev with
      | Err resp => mret (Ok resp)
      | Ok udid =>
        now ← gets clock;
        match jwt_encode secret (claims_json (login_claims u udid now)) with
        | None => refuse "生成令牌失败"
        | Some token =>
          info ← Api.build_subscription_info (user_id u);
          reply (mkLoginResponse token (user_info u) info)
        end
      end
    end
  end.

Definition register (request : RegisterRequest) : Handler UserInfo :=
  if negb (bool_decide (rq_password request = rq_confirm_password request)) then refuse "两次输入的密码不一致"
  else Api.create_account (mkCreateUser (rq_username request) (rq_email request) (rq_password request))
         "用户名已存在" "检查用户名失败" "邮箱已存在" "检查邮箱失败" "注册失败".

(** Each setting in its turn, the empty text when it is missing or cannot be
    read. *)
Fixpoint client_settings (l : list (string * string)) : M Db (list (string * string)) :=
  match l with
  | [] => mret []
  | (field, key) :: l =>
    r ← get_setting key;
    rest ← client_settings l;
    mret ((field, match r with Ok (Some v) => v | _ => ""%string end) :: rest)
  end.
Definition client_version : M Db (list (string * string)) := client_settings client_keys.
End web.
End Web.

(** ** The router *)

Inductive Request : Type :=
| Page
| PostLogin (request : LoginRequest)
| PostRegister (request : RegisterRequest)
| PostForgotPassword (mail : string)
| PostResetPassword (token password : string)
| GetUsers (h : HeaderMap) (limit offset : option Z)
| PostUsers (h : HeaderMap) (request : RegisterRequest)
| GetUser (h : HeaderMap) (uid : Z)
| PutUser (h : HeaderMap) (uid : Z) (request : gmap string string)
| DeleteUser (h : HeaderMap) (uid : Z)
| PutUserRole (h : HeaderMap) (uid : Z) (role : string)
| GetUserDevices (h : HeaderMap) (uid : Z)
| DeleteUserDevice (h : HeaderMap) (uid : Z) (did : string)
| GetDeviceOwner (did : string)
| PostDevice (h : HeaderMap) (did : string) (name : option string)
| DeleteDevice (h : HeaderMap) (did : string)
| GetConnections (h : HeaderMap)
| GetStats (h : HeaderMap)
| PostChangePassword (request : ChangePasswordRequest)
| GetPlans
| GetMySubscription (h : HeaderMap)
| GetSubscriptions (h : HeaderMap) (limit offset : option Z)
| PostSubscription (h : HeaderMap) (request : AdminCreateSubscriptionRequest)
| PutSubscription (h : HeaderMap) (sub_id : Z) (request : AdminUpdateSubscriptionRequest)
| DeleteSubscription (h : HeaderMap) (sub_id : Z)
| GetSettings (h : HeaderMap)
| PutSettings (h : HeaderMap) (key value : option string) (settings : option (gmap string string))
| GetBlacklist (h : HeaderMap)
| PostBlacklist (h : HeaderMap) (ip comment : string)
| DeleteBlacklist (h : HeaderMap) (ip : string)
| GetBlocklist (h : HeaderMap)
| PostBlocklist (h : HeaderMap) (ip comment : string)
| DeleteBlocklist (h : HeaderMap) (ip : string)
| GetServerParams (h : HeaderMap)
| PutServerParams (h : HeaderMap) (params : gmap string string)
| GetSysinfo (h : HeaderMap)
| GetClientVersion
| PostPayment (h : HeaderMap) (plan : Z) (pay_method : string)
| GetOrder (h : HeaderMap) (order_no : string)
| PostAlipayNotify (params : gmap string string)
| PostStripeWebhook (h : HeaderMap) (body : string).

Inductive Answer : Type :=
| APage
| ALogin (r : HttpResult LoginResponse)
| AUser (r : HttpResult UserInfo)
| AUsers (r : HttpResult (list UserInfo))
| AUnit (r : HttpResult unit)
| AText (r : HttpResult string)
| ADevice (r : HttpResult DeviceInfo)
| ADevices (r : HttpResult (list DeviceInfo))
| AConnections (r : HttpResult (list ConnectionInfo))
| AStats (r : HttpResult Stats)
| APlans (r : HttpResult (list SubscriptionPlan))
| ASubscriptionInfo (r : HttpResult UserSubscriptionInfo)
| ASubscriptions (r : HttpResult (list UserSubscription))
| AId (r : HttpResult Z)
| ASettings (r : HttpResult (gmap string string))
| AEntries (r : HttpResult (list IpEntry))
| ASysInfo (r : HttpResult SysInfo)
| AVersion (fields : list (string * string))
| APayment (r : HttpResult CreatePaymentResp)
| AOrder (r : HttpResult OrderAnswer)
| AAck (ok : bool)
| AStatus (s : StatusCode).

Section router.
Context `{Bcrypt} `{Uuid} `{Serde} `{SqlTime} `{TimeStamp} `{Jwt} `{ParseTime} `{Rsa} `{Hmac} `{JsonText} `{Http}
  `{DateText} `{Build}.
(** [ApiState], the connected peers, and the clock with the start of the
    server. *)
Variables (secret : string) (online : gmap string OnlineConn) (now started : Instant).

Definition answer {A} (k : A → Answer) (m : M Db A) : SiteM Answer := r ← on_db m; mret (k r).
Definition site_answer {A} (k : A → Answer) (m : SiteM A) : SiteM Answer := r ← m; mret (k r).

(** [create_web_router] *)
Definition route (r : Request) : SiteM Answer :=
  match r with
  | Page => mret APage
  | PostLogin q => answer ALogin (Web.login secret q)
  | PostRegister q => answer AUser (Web.register q)
  | PostForgotPassword mail => answer AText (Web.forgot_password mail)
  | PostResetPassword token pw => answer AText (Web.reset_password token pw)
  | GetUsers h l o => answer AUsers (Api.list_users secret h l o)
  | PostUsers h q => answer AUser (Api.admin_create_user secret h q)
  | GetUser h uid => answer AUser (Api.get_user secret h uid)
  | PutUser h uid q => answer AUser (Api.update_user secret h uid q)
  | DeleteUser h uid => answer AUnit (Api.delete_user secret h uid)
  | PutUserRole h uid role => answer AUser (Api.update_user_role secret h uid role)
  | GetUserDevices h uid => answer ADevices (Api.get_user_devices secret online h uid)
  | DeleteUserDevice h uid did => answer AUnit (Api.remove_device secret h uid did)
  | GetDeviceOwner did => answer AUser (Api.get_device_owner did)
  | PostDevice h did name => answer ADevice (DeviceApi.add_device secret h did name)
  | DeleteDevice h did => answer AUnit (DeviceApi.remove_device_by_id secret h did)
  | GetConnections h => answer AConnections (Api.monitor_connections secret online now h)
  | GetStats h => answer AStats (Api.monitor_stats secret online now h)
  | PostChangePassword q => answer AUnit (PasswordReset.change_password q)
  | GetPlans => answer APlans Api.list_subscription_plans
  | GetMySubscription h => answer ASubscriptionInfo (Api.get_my_subscription secret h)
  | GetSubscriptions h l o => answer ASubscriptions (Api.admin_list_subscriptions secret h l o)
  | PostSubscription h q => answer AId (Api.admin_create_subscription secret h q)
  | PutSubscription h id q => answer AUnit (Api.admin_update_subscription secret h id q)
  | DeleteSubscription h id => answer AUnit (Api.admin_deactivate_subscription secret h id)
  | GetSettings h => site_answer ASettings (SettingsApi.get_settings secret h)
  | PutSettings h k v m => site_answer AUnit (SettingsApi.update_settings secret h k v m)
  | GetBlacklist h => site_answer AEntries (SettingsApi.get_blacklist secret h)
  | PostBlacklist h ip c => site_answer AUnit (SettingsApi.add_blacklist secret h ip c)
  | DeleteBlacklist h ip => site_answer AUnit (SettingsApi.delete_blacklist secret h ip)
  | GetBlocklist h => site_answer AEntries (SettingsApi.get_blocklist secret h)
  | PostBlocklist h ip c => site_answer AUnit (SettingsApi.add_blocklist secret h ip c)
  | DeleteBlocklist h ip => site_answer AUnit (SettingsApi.delete_blocklist secret h ip)
  | GetServerParams h => site_answer ASettings (SettingsApi.get_server_params secret h)
  | PutServerParams h m => site_answer AUnit (SettingsApi.update_server_params secret h m)
  | GetSysinfo h => site_answer ASysInfo (SettingsApi.get_sysinfo secret started now h)
  | GetClientVersion => answer AVersion Web.client_version
  | PostPayment h plan m => answer APayment (create_payment secret h plan m)
  | GetOrder h no => answer AOrder (query_order secret h no)
  | PostAlipayNotify m => answer AAck (alipay_notify m)
  | PostStripeWebhook h body => answer AStatus (stripe_webhook h body)
  end.
End router.
