(* ===== verification/WebSpec.v ===== *)
(** * What the web server guarantees

    Every route is a composition of methods of the database ([route_keeps]), so
    that what the methods keep every sequence of requests keeps: the consistency
    of the database, the passwords of all accounts (no route changes one,
    although one of them says so), an administrator.  Then who may do what, and
    the tokens a login issues. *)
From S2P Require Import Prelude Text Auth Database Instances Subscription Orders DbInvariant DbSpec.
From S2P Require Import Peer Api Payment PaymentSpec SettingsApi Web.
Local Open Scope Z_scope.

Section web.
Context `{Bcrypt} `{Uuid} `{Serde} `{SqlTime} `{TimeStamp} `{Jwt} `{ParseTime} `{Rsa} `{Hmac} `{JsonText} `{Http}
  `{DateText} `{Build}.

(** The methods the routes run; the flag is set for those that may leave a user
    without the role of an administrator. *)
Inductive web_method : bool → ∀ {A}, M Db A → Prop :=
| w_get_user_by_id id : web_method false (get_user_by_id id)
| w_get_user_by_username n : web_method false (get_user_by_username n)
| w_get_user_by_email n : web_method false (get_user_by_email n)
| w_create_user r : web_method false (create_user r)
| w_count_admins : web_method false count_admins
| w_set_user_role id r : web_method true (set_user_role id r)
| w_update_user id n e : web_method false (update_user id n e)
| w_delete_user id : web_method true (delete_user id)
| w_list_users l o : web_method false (list_users l o)
| w_device_row_id uid dev : web_method false (get_user_device_row_id uid dev)
| w_get_user_devices uid : web_method false (get_user_devices uid)
| w_remove_device uid dev : web_method false (remove_device_from_user uid dev)
| w_remove_device_simple uid dev : web_method false (remove_device_from_user_simple uid dev)
| w_device_owner dev : web_method false (get_device_owner dev)
| w_get_all_settings : web_method false get_all_settings
| w_get_setting k : web_method false (get_setting k)
| w_set_setting k v : web_method false (set_setting k v)
| w_plans : web_method false get_subscription_plans
| w_active_subscription uid : web_method false (get_user_active_subscription uid)
| w_create_subscription uid p e n : web_method false (create_user_subscription uid p e n)
| w_update_subscription s p e n : web_method false (update_user_subscription s p e n)
| w_deactivate_subscription s : web_method false (deactivate_user_subscription s)
| w_list_subscriptions l o : web_method false (list_subscriptions l o)
| w_plan_id n : web_method false (get_plan_id_by_name n)
| w_count_devices uid : web_method false (count_user_active_devices uid)
| w_add_device r : web_method false (add_device_to_user r)
| w_create_order uid p a c m : web_method false (create_order uid p a c m)
| w_set_gateway no q u : web_method false (set_order_gateway no q u)
| w_mark_paid no g : web_method false (mark_order_paid no g)
| w_get_order no uid : web_method false (get_order_by_no no uid)
| w_activate uid p : web_method false (activate_subscription_for_order uid p).

Lemma web_method_db b {A} (m : M Db A) : web_method b m → db_method m.
Proof. destruct 1; constructor. Qed.

Definition changes_admins (r : Request) : bool :=
  match r with DeleteUser _ _ | PutUserRole _ _ _ => true | _ => false end.

Section keeps.
(** Methods with the flag [true] need not keep the condition when [full] is
    not set. *)
Context (I : Db → Prop) (full : bool).
Hypothesis Hm : ∀ b A (m : M Db A), web_method b m → implb b full = true → keeps I m.
Hypothesis Hdraw : keeps I (modify (upd_draws Z.succ)).

(** The condition on a site. *)
Definition on_site (s : Site) : Prop := I (site_db s).

Ltac handler_steps :=
  repeat first
    [ eapply Hm; [constructor|first [reflexivity|assumption]]
    | apply Hdraw
    | lazymatch goal with
      | |- keeps _ (let '_ := _ in _) => case_match
      | |- _ => keeps_basic
      end
    | keeps_unfold ].

Lemma keeps_on_db {A} (m : M Db A) : keeps I m → keeps on_site (on_db m).
Proof. intros H' s Hs. unfold on_db. specialize (H' (site_db s) Hs). by destruct (m (site_db s)). Qed.
Lemma keeps_write path c : keeps on_site (write_file path c).
Proof. intros s Hs. unfold write_file. by destruct (write_faults s) as [|[] r]. Qed.

Lemma keeps_set_all l : keeps on_site (SettingsApi.set_all l).
Proof.
  induction l as [|[k v] l IH]; cbn; [by intros s|]. apply keeps_bind; [by apply keeps_on_db; eapply Hm; [constructor|]|].
  intros [u|e]; [done|by intros s].
Qed.
Lemma keeps_client_settings l : keeps I (Web.client_settings l).
Proof. induction l as [|[k v] l IH]; cbn; handler_steps. done. Qed.

Variables (secret : string) (online : gmap string OnlineConn) (now started : Instant).

Lemma keeps_answer {A} (k : A → Answer) m : keeps I m → keeps on_site (answer k m).
Proof. intros H'. apply keeps_bind; [by apply keeps_on_db|]. by intros a s. Qed.
Lemma keeps_site_answer {A} (k : A → Answer) m : keeps on_site m → keeps on_site (site_answer k m).
Proof. intros H'. apply keeps_bind; [done|]. by intros a s. Qed.
Lemma keeps_admin_only {A} h (k : SiteHandler A) : keeps on_site k → keeps on_site (SettingsApi.admin_only secret h k).
Proof.
  intros Hk. apply keeps_bind; [|by intros [u|e]; [|intros s]].
  apply keeps_on_db. handler_steps.
Qed.

Ltac site_steps :=
  repeat first
    [ apply keeps_admin_only | apply keeps_write | apply keeps_set_all
    | apply keeps_on_db; eapply Hm; [constructor|reflexivity]
    | keeps_basic | keeps_unfold ].

(** What the methods of the database keep, every route keeps. *)
Lemma route_keeps r : implb (changes_admins r) full = true → keeps on_site (route secret online now started r).
Proof.
  intros Hr. destruct r; cbn [route changes_admins] in *; [by intros s|..].
  all: first [apply keeps_answer | apply keeps_site_answer].
  all: try (handler_steps; fail).
  all: try (site_steps; fail).
  all: try apply keeps_client_settings.
Qed.
End keeps.
End web.

(** ** Sequences of requests *)
Section sequences.
Context `{Bcrypt} `{Uuid} `{Serde} `{SqlTime} `{TimeStamp} `{Jwt} `{ParseTime} `{Rsa} `{Hmac} `{JsonText} `{Http}
  `{DateText} `{Build}.

(** A site after any requests, with time passing and statements and writes
    failing. *)
Inductive site_after (secret : string) (s0 : Site) : Site → Prop :=
| after_start : site_after secret s0 s0
| after_request online now started r s :
    site_after secret s0 s → site_after secret s0 (route secret online now started r s).2
| after_time t s : site_after secret s0 s →
    site_after secret s0 (on_db (modify (upd_clock (λ c, c + Z.max 0 t))) s).2
| after_faults f g s : site_after secret s0 s →
    site_after secret s0 {| site_db := upd_faults (λ _, f) (site_db s); files := files s; write_faults := g |}.

Lemma site_after_keeps (I : Db → Prop) secret s0 s :
  (∀ b A (m : M Db A), web_method b m → keeps I m) →
  keeps I (modify (upd_draws Z.succ)) → (∀ f d, I d → I (upd_faults f d)) → (∀ f d, I d → I (upd_clock f d)) →
  I (site_db s0) → site_after secret s0 s → I (site_db s).
Proof.
  intros Hm Hd Hf Hc Hs. induction 1 as [|online now started r s _ IH|t s _ IH|f g s _ IH]; [done| | |].
  - refine (route_keeps I true _ Hd secret online now started r _ s IH); [eauto|by destruct (changes_admins r)].
  - unfold on_db. cbn. by apply Hc.
  - cbn. by apply Hf.
Qed.


(** Accounts of which the passwords [h] are those of the given database. *)
Record passwords_of (h : gmap Z string) (d : Db) : Prop := {
  pw_old id pw : h !! id = Some pw → id < next_user d;
  pw_same id u pw : users d !! id = Some u → h !! id = Some pw → password_hash u = pw;
}.
#[local] Instance passwords_fault_blind h : FaultBlind (passwords_of h).
Proof. intros f d []. by split. Qed.

Lemma passwords_frame h d d' : users d' = users d → next_user d' = next_user d → passwords_of h d → passwords_of h d'.
Proof. intros Hu Hn [A B]. split; rewrite ?Hu, ?Hn; auto. Qed.
Lemma passwords_alter h d g id :
  (∀ u, password_hash (g u) = password_hash u) → passwords_of h d → passwords_of h (upd_users (alter g id) d).
Proof.
  intros Hg [A B]. split; [done|]. cbn.
  intros k u pw [(-> & b & Hb & ->)|[_ Hk]]%lookup_alter_Some Hpw; [rewrite Hg|]; eauto.
Qed.

(** What the methods keep: a condition kept by statements that leave the users
    alone and by the four statements that change them. *)
Lemma web_methods_keep (I : Db → Prop) (full : bool) :
  (∀ A (f : Db → result DbError A * Db),
    (∀ d, users (f d).2 = users d ∧ next_user (f d).2 = next_user d ∧ faults (f d).2 = faults d) → keeps I (stmt f)) →
  (∀ f, keeps I (modify (upd_draws f))) →
  (∀ n e h, keeps I (insert_user n e h)) → (∀ id n e, keeps I (update_user id n e)) →
  (full = true → ∀ id r, keeps I (set_user_role id r)) → (full = true → ∀ id, keeps I (delete_user id)) →
  ∀ b A (m : M Db A), web_method b m → implb b full = true → keeps I m.
Proof.
  intros Hs Hd Hi Hu Hr Hx b A m Hm Hb.
  assert (Hv : ∀ A (m : DbM A), keeps I m → keeps I ((λ _, tt) <$> m)).
  { intros B m' Hk d Hd'. unfold fmap, M_fmap. specialize (Hk d Hd'). by destruct (m' d). }
  assert (Hnew : ∀ uid p e n, keeps I (create_user_subscription uid p e n)).
  { intros. unfold create_user_subscription, insert_subscription, update. keeps_steps; apply Hs; intros d; [done|].
    by repeat case_match. }
  destruct Hm; cbn in Hb; try (apply Hr || apply Hx; done); try apply Hu; try apply Hnew.
  all: try (keeps_unfold; unfold update, update_devices, count_devices, pool_get, query, get_user_device_limit,
    get_user_active_subscription, replace_device, insert_order, select_order, settle_existing, settle_order, query;
    repeat first [apply Hs; intros d; repeat case_match; done | apply Hd | progress keeps_steps]; fail).
  - unfold create_user, hash_password. keeps_steps; [apply Hd|apply Hi].
  - unfold activate_subscription_for_order, get_user_active_subscription, deactivate_user_subscription.
    unfold query. keeps_steps; [by apply Hs|apply Hv; by apply Hs|apply Hv, Hnew].
Qed.

Lemma web_method_passwords h b {A} (m : M Db A) : web_method b m → keeps (passwords_of h) m.
Proof.
  intros Hm. apply (web_methods_keep (passwords_of h) true) with b; [..|done|by destruct b].
  - intros B f Hf. apply keeps_stmt; [apply _|]. intros d. destruct (Hf d) as (? & ? & _). by apply passwords_frame.
  - intros f. apply keeps_modify. intros d. by apply passwords_frame.
  - intros n e w. apply keeps_stmt; [apply _|]. intros d [A1 A2]. destruct (user_taken _ _ _ d); [by split|].
    split; cbn.
    + intros id pw Hpw. apply A1 in Hpw. lia.
    + intros id u pw [[<- _]|[_ Hu]]%lookup_insert_Some Hpw; [apply A1 in Hpw; lia|eauto].
  - intros id n e. apply keeps_stmt; [apply _|]. intros d Hd. destruct (users d !! id); [|done].
    destruct (user_taken _ _ _ d); [done|]. by apply (passwords_alter h d (set_names n e (clock d)) id).
  - intros _ id r. apply keeps_update; [apply _|]. intros d. by apply (passwords_alter h d (set_role _ (clock d)) id).
  - intros _ id. apply keeps_update; [apply _|]. intros d [A1 A2]. split; cbn; [done|].
    intros k u pw [_ Hu]%lookup_delete_Some. eauto.
Qed.

(** No request changes the password of an account: neither [change_password],
    which always refuses, nor [reset_password], which answers that the password
    was reset whatever the token, nor any other route. *)
Theorem no_request_changes_password secret s0 s id u u' :
  db_ok (site_db s0) → site_after secret s0 s →
  users (site_db s0) !! id = Some u → users (site_db s) !! id = Some u' →
  password_hash u' = password_hash u
  ∧ ∀ online now started token pw, token ≠ ""%string →
    ∃ r, (route secret online now started (PostResetPassword token pw) s).1 = AText (Ok r) ∧ success r = true.
Proof.
  intros Hd Hs Hu Hu'. split.
  - assert (Hp : passwords_of (password_hash <$> users (site_db s0)) (site_db s)).
    { apply (site_after_keeps _ secret s0); [| | | | |done].
      - intros b A m. apply web_method_passwords.
      - apply keeps_modify. intros d. by apply passwords_frame.
      - intros f d. apply fault_blind.
      - intros f d. by apply passwords_frame.
      - split.
        + intros k pw Hk. rewrite lookup_fmap in Hk. destruct (users (site_db s0) !! k) as [v|] eqn:Ev; [|done].
          by apply (users_keyed _ _ (ok_users _ Hd)) in Ev as [_ ?].
        + intros k v pw Hv Hk. rewrite lookup_fmap, Hv in Hk. by injection Hk as <-. }
    eapply (pw_same _ _ Hp); [done|]. by rewrite lookup_fmap, Hu.
  - intros online now started token pw Hne. cbn [route]. unfold answer, Web.reset_password.
    rewrite bool_decide_eq_false_2 by done. eexists. split; [reflexivity|]. done.
Qed.

(** ** Administrators *)

Definition has_admin (d : Db) : Prop := ∃ k u, users d !! k = Some u ∧ is_admin_row u = true.
Definition has_other_admin (id : Z) (d : Db) : Prop := ∃ k u, k ≠ id ∧ users d !! k = Some u ∧ is_admin_row u = true.
(** No statement fails, and there is an administrator. *)
Definition administered (d : Db) : Prop :=
  faults d = [] ∧ keyed user_id (users d) (next_user d) ∧ has_admin d.

Lemma other_admin id d u :
  users d !! id = Some u → 1 < count_where is_admin_row (users d) → has_other_admin id d.
Proof.
  intros Hu Hc. pose proof (count_where_insert is_admin_row (delete id (users d)) id u) as Hi.
  rewrite insert_delete_eq, insert_id in Hi by done.
  assert (Hpos : 0 < count_where is_admin_row (delete id (users d))) by lia.
  apply count_where_pos in Hpos as (k & v & [Hk Hv]%lookup_delete_Some & Ha). exists k, v. auto.
Qed.

Lemma administered_without id d us :
  administered d → has_other_admin id d →
  keyed user_id us (next_user d) → (∀ k, k ≠ id → us !! k = users d !! k) → administered (upd_users (λ _, us) d).
Proof.
  intros (Hf & _ & _) (k & u & Hk & Hu & Ha) HK Hus. split_and!; [done|done|]. exists k, u. cbn. by rewrite Hus.
Qed.
Lemma administered_change d g id :
  (∀ u, user_id (g u) = user_id u ∧ (is_admin_row u = true → is_admin_row (g u) = true)) →
  administered d → administered (upd_users (alter g id) d).
Proof.
  intros Hg (Hf & HK & i & a & Hi & Ha). split_and!; [done| |].
  - apply keyed_alter; [|done]. intros u. by destruct (Hg u).
  - destruct (decide (id = i)) as [->|Hne].
    + exists i, (g a). cbn. rewrite lookup_alter_eq, Hi. split; [done|]. by apply Hg.
    + exists i, a. cbn. by rewrite lookup_alter_ne.
Qed.

(** What passes the guard runs with an administrator besides the target, or
    with a target that is none. *)
Lemma guard_keeps_admin {A} id msg (k : Handler A) :
  (∀ d, administered d → has_other_admin id d → administered (k d).2) →
  keeps administered (Api.guard_last_admin id msg k).
Proof.
  intros Hk d Hd. pose proof Hd as (Hf & HK & i & a & Hi & Ha).
  unfold Api.guard_last_admin, get_user_by_id, count_admins.
  rewrite bind_run, query_ok by done. destruct (users d !! id) as [t|] eqn:Et.
  - destruct (is_admin_row t) eqn:Eadm.
    + rewrite bind_run, query_ok by done. destruct (count_where _ _ <=? 1) eqn:E; bool_simp; [done|].
      apply Hk; [done|]. eapply other_admin; [done|lia].
    + apply Hk; [done|]. exists i, a. split_and!; [|done..]. intros ->. congruence.
  - apply Hk; [done|]. exists i, a. split_and!; [|done..]. congruence.
Qed.

Lemma with_caller_keeps {A} secret h (k : Z → Handler A) (I : Db → Prop) :
  (∀ c, keeps I (k c)) → keeps I (with_caller secret h k).
Proof. intros Hk. unfold with_caller. keeps_steps. apply Hk. Qed.

Lemma query_administered {A} (f : Db → A) : keeps administered (query f).
Proof. intros d Hd. by rewrite query_ok by apply Hd. Qed.
Lemma reply_user_keeps uid m b : keeps administered (Api.reply_user uid m b).
Proof. unfold Api.reply_user, get_user_by_id. keeps_steps; [apply query_administered|by intros d..]. Qed.
Lemma require_admin_keeps {A} c (k : Handler A) : keeps administered k → keeps administered (require_admin c k).
Proof.
  intros Hk. unfold require_admin, db_user_is_admin, get_user_by_id.
  keeps_steps; [apply query_administered|done|by intros d].
Qed.

Lemma delete_user_administered secret h uid : keeps administered (Api.delete_user secret h uid).
Proof.
  apply with_caller_keeps. intros c. unfold require_self_or_admin.
  assert (Hg : keeps administered (Api.guard_last_admin uid "不可删除最后一个管理员" (
    r ← Database.delete_user uid; match r with Ok _ => reply tt | Err e => failed "删除用户失败: " e end))).
  { apply guard_keeps_admin. intros d Hd Ho. pose proof Hd as (Hf & HK & _).
    unfold delete_user. rewrite bind_run, update_ok by done.
    destruct (administered_without uid d (delete uid (users d)) Hd Ho) as (A1 & A2 & A3); [| |by split_and!].
    - by eapply keyed_subseteq; [apply delete_subseteq|].
    - intros k Hk. by rewrite lookup_delete_ne. }
  destruct (negb _); [by apply require_admin_keeps|done].
Qed.

Lemma update_role_administered secret h uid role : keeps administered (Api.update_user_role secret h uid role).
Proof.
  apply with_caller_keeps. intros c. apply require_admin_keeps.
  case_bool_decide as Hrole; cbv zeta.
  - rewrite bool_decide_eq_false_2 by done. unfold set_user_role. intros d Hd.
    rewrite bind_run, update_ok by apply Hd. apply reply_user_keeps.
    apply (administered_change d (set_role _ (clock d)) uid); [|done]. done.
  - rewrite bool_decide_eq_true_2 by done. apply guard_keeps_admin. intros d Hd Ho.
    unfold set_user_role. rewrite bind_run, update_ok by apply Hd. apply reply_user_keeps.
    pose proof Hd as (_ & HK & _).
    apply (administered_without uid d (alter (set_role _ (clock d)) uid (users d)) Hd Ho).
    + by apply keyed_alter.
    + intros k Hk. by rewrite lookup_alter_ne.
Qed.

Lemma stmt_administered {A} (f : Db → result DbError A * Db) :
  (∀ d, administered d → administered (f d).2) → keeps administered (stmt f).
Proof. intros Hf d Hd. rewrite stmt_ok by apply Hd. by apply Hf. Qed.
Lemma web_method_administered {A} (m : M Db A) : web_method false m → keeps administered m.
Proof.
  intros Hm. apply (web_methods_keep administered false) with false; [..|done|done]; try done.
  - intros B f Hf. apply stmt_administered. intros d. destruct (Hf d) as (Hu & Hn & Hl).
    unfold administered, has_admin. by rewrite Hu, Hn, Hl.
  - intros f. by apply keeps_modify.
  - intros n e w. apply stmt_administered. intros d (Hf & HK & i & a & Hi & Ha).
    destruct (user_taken _ _ _ d); [by split_and!; [..|exists i, a]|].
    split_and!; [done|by apply keyed_insert|]. exists i, a. cbn.
    rewrite lookup_insert_ne; [done|]. apply HK in Hi. lia.
  - intros id n e. apply stmt_administered. intros d Hd.
    destruct (users d !! id); [|done]. destruct (user_taken _ _ _ d); [done|].
    by apply (administered_change d (set_names n e (clock d)) id).
Qed.

(** Requests one after the other. *)
Definition serve_all (secret : string) (l : list (gmap string OnlineConn * Instant * Instant * Request)) (s : Site) : Site :=
  foldl (λ s '(online, now, started, r), (route secret online now started r s).2) s l.

(** C15. As long as no statement fails an administrator remains: requests that
    would delete or demote the last one are refused. *)
Theorem admin_remains secret l s :
  db_ok (site_db s) → faults (site_db s) = [] → 0 < count_where is_admin_row (users (site_db s)) →
  0 < count_where is_admin_row (users (site_db (serve_all secret l s))).
Proof.
  intros Hd Hf Hc. apply count_where_pos.
  assert (Ha : administered (site_db s)).
  { apply count_where_pos in Hc as (k & u & Hk & Hu). destruct Hd as [[] _ _ _ _ _].
    split_and!; [done|done|by exists k, u]. }
  clear Hd Hf Hc. revert s Ha. induction l as [|[[[online now] started] r] l IH]; intros s Ha; cbn.
  - apply Ha.
  - apply IH. destruct (changes_admins r) eqn:Er.
    + destruct r; try done; cbn [route].
      * apply (keeps_answer administered); [apply delete_user_administered|done].
      * apply (keeps_answer administered); [apply update_role_administered|done].
    + refine (route_keeps administered false _ _ secret online now started r _ s Ha).
      * intros b A m Hm Hb. destruct b; [done|]. by apply web_method_administered.
      * by apply keeps_modify.
      * by rewrite Er.
Qed.

Lemma count_delete {A} (P : A → bool) (m : gmap Z A) k a :
  m !! k = Some a → P a = true → count_where P m = count_where P (delete k m) + 1.
Proof.
  intros Hk Ha. rewrite <- (insert_id m k a) at 1 by done. rewrite <- insert_delete_eq, !count_where_size.
  rewrite map_filter_insert_True by done. rewrite map_size_insert, map_lookup_filter, lookup_delete_eq. cbn. lia.
Qed.

(** When the row of the only administrator cannot be read the guard lets the
    deletion through: the request succeeds and no administrator is left. *)
Theorem last_admin_lost_on_fault secret online now started h uid u s :
  keyed user_id (users (site_db s)) (next_user (site_db s)) →
  jwt_user_id_from_headers secret (clock (site_db s)) h = Ok uid →
  users (site_db s) !! uid = Some u → is_admin_row u = true → count_where is_admin_row (users (site_db s)) = 1 →
  let s' f := {| site_db := upd_faults (λ _, f) (site_db s); files := files s; write_faults := write_faults s |} in
  (route secret online now started (DeleteUser h uid) (s' [])).1 = AUnit (Ok (api_error (Msg "不可删除最后一个管理员")))
  ∧ let r := route secret online now started (DeleteUser h uid) (s' [true]) in
    r.1 = AUnit (Ok (api_success tt)) ∧ count_where is_admin_row (users (site_db r.2)) = 0.
Proof.
  intros HK Hj Hu Ha Hc s'. cbn [route]. unfold answer, on_db, Api.delete_user, with_caller, require_self_or_admin.
  unfold Api.guard_last_admin, get_user_by_id, count_admins, query, delete_user, update. split.
  - run_monad. cbn. rewrite Hj, Z.eqb_refl. cbn. rewrite Hu, Ha. cbn. by rewrite Hc.
  - run_monad. cbn. rewrite Hj, Z.eqb_refl. cbn. split; [done|].
    apply (count_delete is_admin_row) in Hu; [lia|done].
Qed.

(** ** Who may do what *)

(** The account a request needs: an administrator's, or that of the named
    user. *)
Definition demands (r : Request) : option (HeaderMap * option Z) :=
  match r with
  | GetUsers h _ _ | PostUsers h _ | PutUserRole h _ _ | GetSubscriptions h _ _ | PostSubscription h _
  | PutSubscription h _ _ | DeleteSubscription h _ | GetSettings h | PutSettings h _ _ _ | GetBlacklist h
  | PostBlacklist h _ _ | DeleteBlacklist h _ | GetBlocklist h | PostBlocklist h _ _ | DeleteBlocklist h _
  | GetServerParams h | PutServerParams h _ | GetSysinfo h => Some (h, None)
  | GetUser h uid | PutUser h uid _ | DeleteUser h uid | GetUserDevices h uid => Some (h, Some uid)
  | _ => None
  end.
Definition entitled (secret : string) (d : Db) (h : HeaderMap) (who : option Z) : Prop :=
  ∃ c, jwt_user_id_from_headers secret (clock d) h = Ok c
       ∧ (who = Some c ∨ ∃ u, users d !! c = Some u ∧ is_admin_row u = true).

Definition rejected {A} (r : HttpResult A) : bool :=
  match r with Err UNAUTHORIZED | Err FORBIDDEN => true | _ => false end.
Definition answer_rejected (a : Answer) : bool :=
  match a with
  | ALogin r => rejected r | AUser r => rejected r | AUsers r => rejected r | AUnit r => rejected r
  | AText r => rejected r | ADevice r => rejected r | ADevices r => rejected r | AConnections r => rejected r
  | AStats r => rejected r | APlans r => rejected r | ASubscriptionInfo r => rejected r
  | ASubscriptions r => rejected r | AId r => rejected r | ASettings r => rejected r | AEntries r => rejected r
  | ASysInfo r => rejected r | APayment r => rejected r | AOrder r => rejected r
  | APage | AVersion _ | AAck _ | AStatus _ => false
  end.

(** Rejected, and nothing changed but the statements to come. *)
Definition db_refusal {A} (m : Handler A) (d : Db) : Prop :=
  rejected (m d).1 = true ∧ ∃ f, (m d).2 = upd_faults (λ _, f) d.

Lemma upd_faults_same d : upd_faults (λ _, faults d) d = d.
Proof. by destruct d. Qed.
Lemma admin_refused {A} c (k : Handler A) d :
  (∀ u, users d !! c = Some u → is_admin_row u = false) → db_refusal (require_admin c k) d.
Proof.
  intros Hu. unfold require_admin, db_user_is_admin, get_user_by_id, query, stmt, db_refusal.
  run_monad. destruct (faults d) as [|[] f] eqn:Ef; cbn.
  - destruct (users d !! c) as [u|] eqn:E; [rewrite (Hu u) by done|]; cbn; (split; [done|]);
      exists (faults d); by rewrite upd_faults_same.
  - split; [done|by exists f].
  - destruct (users d !! c) as [u|] eqn:E; [rewrite (Hu u) by done|]; cbn; (split; [done|by exists f]).
Qed.
Lemma caller_refused {A} secret h who (k : Z → Handler A) d :
  ¬ entitled secret d h who →
  (∀ c, who ≠ Some c → (∀ u, users d !! c = Some u → is_admin_row u = false) → db_refusal (k c) d) →
  db_refusal (with_caller secret h k) d.
Proof.
  intros Hn Hk. unfold with_caller, db_refusal. rewrite bind_run. cbn.
  destruct (jwt_user_id_from_headers _ _ _) as [c|s] eqn:Ej.
  - apply Hk.
    + intros ->. apply Hn. exists c. auto.
    + intros u Hu. destruct (is_admin_row u) eqn:Ea; [|done]. destruct Hn. exists c. eauto.
  - split.
    + cbn. unfold jwt_user_id_from_headers in Ej. destruct (extract_bearer_token h) as [t|e] eqn:Et.
      * by destruct (jwt_sub_user_id _ _ _); simplify_eq.
      * unfold extract_bearer_token in Et. by repeat case_match; simplify_eq.
    + exists (faults d). by rewrite upd_faults_same.
Qed.
Lemma admin_handler_refused {A} secret h (k : Z → Handler A) d :
  ¬ entitled secret d h None → db_refusal (with_caller secret h (λ c, require_admin c (k c))) d.
Proof. intros Hn. eapply caller_refused; [done|]. intros c _ Hc. by apply admin_refused. Qed.
Lemma own_handler_refused {A} secret h uid (k : Z → Handler A) d :
  ¬ entitled secret d h (Some uid) → db_refusal (with_caller secret h (λ c, require_self_or_admin c uid (k c))) d.
Proof.
  intros Hn. eapply caller_refused; [done|]. intros c Hne Hc. unfold require_self_or_admin.
  destruct (c =? uid) eqn:E; bool_simp; [congruence|]. by apply admin_refused.
Qed.

(** The same for a handler that works on the files. *)
Definition site_refusal (m : SiteM Answer) (s : Site) : Prop :=
  answer_rejected (m s).1 = true
  ∧ ∃ f, (m s).2 = {| site_db := upd_faults (λ _, f) (site_db s); files := files s; write_faults := write_faults s |}.

Lemma answer_refused {A} (k : HttpResult A → Answer) m s :
  (∀ r, answer_rejected (k r) = rejected r) → db_refusal m (site_db s) → site_refusal (answer k m) s.
Proof.
  intros Hk [Hr [f Hf]]. unfold site_refusal, answer, on_db. run_monad.
  destruct (m (site_db s)) as [r d']. cbn in *. subst d'. rewrite Hk. eauto.
Qed.
Lemma admin_only_refused {A} (k : HttpResult A → Answer) secret h m s :
  (∀ r, answer_rejected (k r) = rejected r) → ¬ entitled secret (site_db s) h None →
  site_refusal (site_answer k (SettingsApi.admin_only secret h m)) s.
Proof.
  intros Hk Hn. unfold site_refusal, site_answer, SettingsApi.admin_only, on_db.
  destruct (admin_handler_refused secret h (λ _, reply tt) _ Hn) as [Hr [f Hf]]. run_monad.
  destruct (with_caller _ _ _ _) as [[r|e] d']; cbn in *; [done|]. subst d'. rewrite Hk. eauto.
Qed.


(** ** Logins *)

(** What a login checks of the database; [udid] is the row of its device. *)
Definition login_passes (q : LoginRequest) (u : User) (udid : option Z) (d : Db) : Prop :=
  find_row (λ u, seqb (username u) (lq_username q)) (users d) = Some u
  ∧ user_is_active u = true ∧ bcrypt_verify (lq_password q) (password_hash u) = true
  ∧ match lq_device_id q with
    | Some s => if seqb (trim s) ""%string then udid = None
                else udid ≠ None ∧ udid = ud_id <$> find_row (active_device_id (user_id u) (trim s)) (devices d)
    | None => udid = None
    end.

Lemma build_info_run uid d : faults d = [] → ∃ info, Api.build_subscription_info uid d = (info, d).
Proof.
  intros Hf. unfold Api.build_subscription_info, get_user_active_subscription, count_user_active_devices,
    count_devices, pool_get, unwrap_or, rbind. run_monad. rewrite !query_ok by done. eauto.
Qed.

Lemma login_device_run q u d r d' :
  Web.login_device (user_id u) (lq_device_id q) d = (Ok r, d') →
  users d' = users d ∧ devices d' = devices d ∧ clock d' = clock d
  ∧ match lq_device_id q with
    | Some s => if seqb (trim s) ""%string then r = None
                else r ≠ None ∧ r = ud_id <$> find_row (active_device_id (user_id u) (trim s)) (devices d)
    | None => r = None
    end.
Proof.
  unfold Web.login_device, get_user_device_row_id, query, stmt. run_monad.
  destruct (lq_device_id q) as [s|]; [destruct (seqb _ _) eqn:Es|]; cbn; [by intros [= <- <-]| |by intros [= <- <-]].
  destruct (faults d) as [|[] f]; cbn; [|done|].
  all: destruct (find_row _ _) as [v|]; cbn; [|done]; intros [= <- <-]; done.
Qed.

(** A login succeeds only for an active user with its password, and, when it
    names a device, for an active device of that user; whatever statements
    fail. *)
Theorem login_needs_password secret q d resp d' :
  Web.login secret q d = (Ok resp, d') → success resp = true →
  ∃ u udid tk info, login_passes q u udid d ∧ data resp = Some (mkLoginResponse tk (user_info u) info)
    ∧ jwt_encode secret (claims_json (Web.login_claims u udid (clock d))) = Some tk.
Proof.
  unfold Web.login. rewrite bind_run.
  destruct (get_user_by_username _ d) as [[[u|]|e] d1] eqn:Eu; [|by intros [= <- <-]..].
  assert (Hd : users d1 = users d ∧ devices d1 = devices d ∧ clock d1 = clock d
               ∧ find_row (λ u, seqb (username u) (lq_username q)) (users d) = Some u).
  { unfold get_user_by_username, query, stmt in Eu. by destruct (faults d) as [|[] f]; simplify_eq/=. }
  destruct Hd as (Hus & Hds & Hck & Hfind).
  destruct (user_is_active u) eqn:Ea; cbn [negb]; [|by intros [= <- <-]].
  unfold verify_password. rewrite bind_run. unfold mret at 1, M_ret at 1.
  destruct (bcrypt_verify _ _) eqn:Ev; [|by intros [= <- <-]]. rewrite bind_run.
  destruct (Web.login_device _ _ d1) as [[udid|r] d2] eqn:Edev.
  - apply login_device_run in Edev as (_ & _ & Hck2 & Hdev). rewrite bind_run. cbn [gets fst snd].
    destruct (jwt_encode _ _) as [tk|] eqn:Et; [|by intros [= <- <-]].
    rewrite bind_run. destruct (Api.build_subscription_info _ _) as [info d3]. intros [= <- <-] _.
    exists u, udid, tk, info. rewrite Hds in Hdev. split; [by split_and!|]. split; [done|]. by rewrite <- Et, Hck2, Hck.
  - intros [= <- <-]. intros Hs. exfalso. revert Edev Hs.
    unfold Web.login_device, get_user_device_row_id, query, stmt. run_monad.
    repeat case_match; intros; simplify_eq/=.
Qed.

Lemma login_checks secret q u d :
  faults d = [] → find_row (λ u, seqb (username u) (lq_username q)) (users d) = Some u →
  user_is_active u = true → bcrypt_verify (lq_password q) (password_hash u) = true →
  Web.login secret q d =
  (dev ← Web.login_device (user_id u) (lq_device_id q);
   match dev with
   | Err resp => mret (Ok resp)
   | Ok udid =>
     now ← gets clock;
     match jwt_encode secret (claims_json (Web.login_claims u udid now)) with
     | None => refuse "生成令牌失败"
     | Some token =>
       info ← Api.build_subscription_info (user_id u); reply (mkLoginResponse token (user_info u) info)
     end
   end) d.
Proof.
  intros Hf Hu Ha Hv. unfold Web.login, get_user_by_username, verify_password. rewrite bind_run, query_ok, Hu by done.
  cbn [fst snd]. rewrite Ha. cbn [negb]. rewrite bind_run. unfold mret at 1, M_ret at 1. by rewrite Hv.
Qed.
Lemma login_run secret q u udid tk d :
  faults d = [] → login_passes q u udid d →
  jwt_encode secret (claims_json (Web.login_claims u udid (clock d))) = Some tk →
  ∃ info, Api.build_subscription_info (user_id u) d = (info, d) ∧
    Web.login secret q d = (Ok (api_success (mkLoginResponse tk (user_info u) info)), d).
Proof.
  intros Hf (Hu & Ha & Hv & Hdev) Htk. destruct (build_info_run (user_id u) d Hf) as [info Hinfo]. exists info.
  split; [done|]. rewrite (login_checks secret q u d) by done.
  assert (Hrun : Web.login_device (user_id u) (lq_device_id q) d = (Ok udid, d)).
  { unfold Web.login_device, get_user_device_row_id.
    destruct (lq_device_id q) as [s|]; [|by subst]. cbv zeta.
    destruct (seqb (trim s) ""%string); [by subst|]. destruct Hdev as [Hne ->].
    rewrite bind_run, query_ok by done. cbn [fst snd]. by destruct (_ <$> _). }
  rewrite bind_run, Hrun. cbn [fst snd]. rewrite bind_run. cbn [gets fst snd]. rewrite Htk, bind_run, Hinfo. done.
Qed.
Lemma claims_exp c : claims_json c !! "exp"%string = Some (JNum (Some (c_exp c))).
Proof. unfold claims_json. destruct (c_udid _); simplify_map_eq; done. Qed.
Lemma login_token_caller `{!JwtLaws} secret u udid t tk h now :
  - 2 ^ 63 <= user_id u < 2 ^ 63 → jwt_encode secret (claims_json (Web.login_claims u udid t)) = Some tk →
  extract_bearer_token h = Ok tk → now <= t + 86400 → jwt_user_id_from_headers secret now h = Ok (user_id u).
Proof.
  intros Hid Htk Hh Hnow. unfold jwt_user_id_from_headers. rewrite Hh. unfold jwt_sub_user_id, decode_claims.
  rewrite (jwt_decode_encode _ _ _ _ _ Htk (claims_exp _)) by done. cbn [mbind option_bind].
  rewrite claims_roundtrip. cbn [mbind option_bind c_sub Web.login_claims].
  rewrite trim_no_space by apply no_space_to_string. unfold parse_i64. by rewrite parse_to_string by lia.
Qed.
Lemma login_unknown_device secret q u did d :
  faults d = [] → find_row (λ u, seqb (username u) (lq_username q)) (users d) = Some u →
  user_is_active u = true → bcrypt_verify (lq_password q) (password_hash u) = true →
  lq_device_id q = Some did → trim did ≠ ""%string →
  find_row (active_device_id (user_id u) (trim did)) (devices d) = None →
  Web.login secret q d = (Ok (api_error (Msg "指定的设备不属于当前用户或未激活")), d).
Proof.
  intros Hf Hu Ha Hv Hq Hne Hno. rewrite (login_checks secret q u d) by done. rewrite bind_run, Hq.
  unfold Web.login_device, get_user_device_row_id. cbv zeta. rewrite bool_decide_eq_false_2 by done.
  rewrite bind_run, query_ok, Hno by done. done.
Qed.

(** A login that passes these checks does succeed, and its token names the user
    until it expires a day later; another minute later it is refused. *)
Theorem login_token `{!JwtLaws} secret q u udid tk d h :
  faults d = [] → login_passes q u udid d → - 2 ^ 63 <= user_id u < 2 ^ 63 →
  jwt_encode secret (claims_json (Web.login_claims u udid (clock d))) = Some tk →
  extract_bearer_token h = Ok tk →
  ∃ info, (Web.login secret q d).1 = Ok (api_success (mkLoginResponse tk (user_info u) info))
    ∧ ∀ now,
      (now <= clock d + 86400 → jwt_user_id_from_headers secret now h = Ok (user_id u))
      ∧ (clock d + 86460 < now → jwt_user_id_from_headers secret now h = Err UNAUTHORIZED).
Proof.
  intros Hf Hp Hid Htk Hh.
  destruct (login_run secret q u udid tk d Hf) as (info & _ & Hrun); [done|done|]. exists info. split; [by rewrite Hrun|].
  intros now. split; intros Hnow; [by eapply login_token_caller|].
  unfold jwt_user_id_from_headers. rewrite Hh. unfold jwt_sub_user_id, decode_claims.
  destruct (jwt_decode secret now tk) as [m|] eqn:E; [|done]. exfalso.
  pose proof (jwt_decode_encode _ _ _ _ (clock d) Htk (claims_exp _) ltac:(cbn; lia)) as E0.
  pose proof (jwt_decode_same _ _ _ _ _ _ E E0) as ->.
  apply jwt_decode_expired in E as (e & He & Hle). rewrite claims_exp in He. cbn in He. simplify_eq. lia.
Qed.
End sequences.

(** ** A site with one administrator *)
Section witnesses.
#[local] Existing Instance TestBcrypt.
#[local] Existing Instance TestUuid.
#[local] Existing Instance TestSerde.
#[local] Existing Instance TestSqlTime.
#[local] Existing Instance demo_stamp.
#[local] Existing Instance DemoJwt.
#[local] Existing Instance TestRsa.
#[local] Existing Instance TestHmac.
#[local] Existing Instance TestJsonText.
#[local] Instance TestParseTime : ParseTime := λ _, None.
#[local] Instance TestHttp : Http := λ _ _ _, None.
#[local] Instance TestDateText : DateText := λ _, ""%string.
#[local] Instance TestBuild : Build := {| cargo_version := "1"; target_os := "linux"; target_arch := "x86_64" |}.

Definition ann : User := mkUser 1 "ann" "ann@x" "secret" 0 0 true "admin".
Definition admin_db : Db := (set_user_role 1 USER_ROLE_ADMIN ann_db).2.
Definition admin_site : Site := {| site_db := admin_db; files := ∅; write_faults := [] |}.
Definition ann_login : LoginRequest := mkLogin "ann" "secret" None.
Definition ann_token : string := default "" (demo_encode "k" (claims_json (Web.login_claims ann None 0))).
Definition ann_headers : HeaderMap := {["authorization"%string := Some ("Bearer " +:+ ann_token)%string]}.
Definition bob : RegisterRequest := mkRegister "bob" "bob@x" "pw" "pw".

Lemma admin_db_ok : db_ok admin_db.
Proof.
  do 2 (apply db_method_keeps; [constructor|]). apply db_ok_empty.
Qed.
Lemma ann_found : users admin_db !! 1 = Some ann.
Proof. vm_compute. reflexivity. Qed.
Lemma ann_named t : t = 0 → jwt_user_id_from_headers "k" t ann_headers = Ok 1.
Proof. intros ->. vm_compute. reflexivity. Qed.
Definition site_of (r : Request) (s : Site) : Site := (route "k" ∅ 0 0 r s).2.

(** Ann logs in, bob registers, and ann makes him an administrator. *)
Definition busy_site : Site :=
  site_of (PutUserRole ann_headers 2 "admin") (site_of (PostRegister bob) (site_of (PostLogin ann_login) admin_site)).
Lemma busy_after : site_after "k" admin_site busy_site.
Proof. unfold busy_site, site_of. do 3 apply after_request. apply after_start. Qed.


Lemma no_request_changes_password_witness :
  ∃ u', users (site_db busy_site) !! 1 = Some u' ∧ password_hash u' = "secret"%string.
Proof.
  destruct (users (site_db busy_site) !! 1) as [u'|] eqn:E; [|vm_compute in E; discriminate].
  exists u'. split; [reflexivity|].
  exact (proj1 (no_request_changes_password "k" admin_site busy_site 1 ann u' admin_db_ok busy_after ann_found E)).
Defined.

Lemma admin_remains_witness :
  let l := [(∅, 0, 0, DeleteUser ann_headers 1); (∅, 0, 0, PutUserRole ann_headers 1 "user")] in
  0 < count_where is_admin_row (users (site_db (serve_all "k" l admin_site))).
Proof. intros l. apply admin_remains; [exact admin_db_ok|reflexivity|vm_compute; reflexivity]. Defined.

Lemma last_admin_lost_on_fault_witness :
  let s := {| site_db := upd_faults (λ _, [true]) admin_db; files := ∅; write_faults := [] |} in
  let r := route "k" ∅ 0 0 (DeleteUser ann_headers 1) s in
  r.1 = AUnit (Ok (api_success tt)) ∧ count_where is_admin_row (users (site_db r.2)) = 0.
Proof.
  refine (proj2 (last_admin_lost_on_fault "k" ∅ 0 0 ann_headers 1 ann admin_site _ _ ann_found _ _)).
  - apply admin_db_ok.
  - apply ann_named. reflexivity.
  - reflexivity.
  - vm_compute. reflexivity.
Defined.


Lemma login_needs_password_witness :
  ∃ u udid, login_passes ann_login u udid admin_db.
Proof.
  destruct (Web.login "k" ann_login admin_db) as [[resp|e] d'] eqn:E.
  - destruct (login_needs_password "k" ann_login admin_db resp d' E) as (u & udid & _ & _ & Hp & _).
    + apply (f_equal fst) in E. vm_compute in E. injection E as <-. reflexivity.
    + exists u, udid. exact Hp.
  - exfalso. apply (f_equal fst) in E. vm_compute in E. discriminate.
Defined.

Lemma login_token_witness :
  jwt_user_id_from_headers "k" 86400 ann_headers = Ok 1
  ∧ jwt_user_id_from_headers "k" 86461 ann_headers = Err UNAUTHORIZED.
Proof.
  destruct (@login_token TestBcrypt TestSqlTime DemoJwt DemoJwtLaws "k" ann_login ann None ann_token admin_db ann_headers)
    as (info & _ & H).
  - reflexivity.
  - split_and!; vm_compute; reflexivity.
  - cbn; lia.
  - vm_compute. reflexivity.
  - vm_compute. reflexivity.
  - split; [apply (H 86400)|apply (H 86461)]; vm_compute; first [reflexivity|discriminate].
Defined.
End witnesses.
