(* ===== verification/ClientAuthSpec.v ===== *)
(** * What a login stores, whatever the answers are

    Of [ClientAuth]: a login changes the configuration only as the last thing
    of a run that succeeds, and the token it keeps is one that the server gave
    for these credentials in the same run. *)
From S2P Require Import Prelude Text HostText JsonTree Database Keys ClientConfig Programs ClientIo Socks5 ClientAuth.
Local Open Scope Z_scope.

Section login.
Context `{UrlBase64} `{PaddedBase64} `{JsonLib} `{TomlLib}.

(** The changes of the configuration in a run. *)
Definition change_of_obs (o : Obs AuthIo) : list (Store → Store) :=
  match o with obs e _ => match e with APut f => [f] | _ => [] end end.
Definition changes (tr : Trace AuthIo) : list (Store → Store) := tr ≫= change_of_obs.

Lemma changes_app tr tr' : changes (tr ++ tr') = changes tr ++ changes tr'.
Proof. apply bind_app. Qed.

(** A token that an answer to a login with these credentials brought. *)
Definition given_by (q : HttpRequest) (v : JVal) (tk : string) (o : Obs AuthIo) : Prop :=
  o = obs (AHttp q) (Ok (Some v)) ∧
  ∃ a d, dec_answer dec_value v = Some a ∧ aa_success a = true ∧ aa_data a = Some d ∧ token_of d = Some tk.
Definition issued (username password tk : string) (tr : Trace AuthIo) : Prop :=
  ∃ o q v url dev, o ∈ tr ∧ given_by q v tk o ∧ q = login_request url username password dev.

Lemma issued_app u p tk tr tr' : issued u p tk tr → issued u p tk (tr ++ tr').
Proof. intros (o & q & v & url & dev & Ho & Hg). exists o, q, v, url, dev. split; [|done]. apply elem_of_app. by left. Qed.

(** The end of a run: nothing is stored on an error, an issued token otherwise. *)
Definition keeps_issued (u p : string) (tr : Trace AuthIo) (r : result Failure AuthStatus) : Prop :=
  match r with
  | Err _ => changes tr = []
  | Ok _ => ∃ tk expires uid name role udid,
      changes tr = [save_login tk expires uid name role udid] ∧ issued u p tk tr
  end.

Lemma call_wp {A} (d : JVal → option A) q tr (Q : Trace AuthIo → result Failure (ApiAnswer A) → Prop) :
  (∀ x r, (∀ a, r = Ok a → ∃ v, x = Ok (Some v) ∧ dec_answer d v = Some a) → Q (tr ++ [obs (AHttp q) x]) r) →
  wp (call d q) tr Q.
Proof.
  intros HQ. unfold call. cbn. intros x. apply HQ. intros a.
  destruct x as [[v|]|e]; cbn [mbind option_bind]; [|done..].
  destruct (dec_answer d v) eqn:E; [|done]. intros [= ->]. by exists v.
Qed.
Lemma keep_token_wp u p tk user b tr :
  changes tr = [] → issued u p tk tr → wp (s ← keep_token tk user b; mret (Ok s)) tr (keeps_issued u p).
Proof.
  intros Hc Hi. unfold keep_token, from_config. cbn. intros x1 s1 n1 s2 n2. eexists _, _, _, _, _, _. split; [|by repeat apply issued_app].
  rewrite !changes_app, Hc. done.
Qed.

(** The tokens of a trace in which nothing was stored yet. *)
Lemma asked_login u p url dev tr v a d tk :
  dec_answer dec_value v = Some a → aa_success a = true → aa_data a = Some d → token_of d = Some tk →
  issued u p tk (tr ++ [obs (AHttp (login_request url u p dev)) (Ok (Some v))]).
Proof.
  intros Hv Hs Hd Ht. eexists _, _, v, url, dev. split; [apply elem_of_app; right; by apply list_elem_of_singleton|].
  split; [|done]. split; [done|]. by exists a, d.
Qed.
Lemma changes_asked tr {X} (e : AuthIo X) x : (match e with APut _ => False | _ => True end) → changes tr = [] →
  changes (tr ++ [obs e x]) = [].
Proof. intros He Ht. rewrite changes_app, Ht. by destruct e. Qed.

Lemma login_again_wp u p url dev resp3 data2 tmp tr v :
  changes tr = [] → issued u p tmp tr → dec_answer dec_value v = Some resp3 →
  wp (login_again resp3 data2 tmp) (tr ++ [obs (AHttp (login_request url u p dev)) (Ok (Some v))]) (keeps_issued u p).
Proof.
  intros Hc Hi Hv. assert (changes (tr ++ [obs (AHttp (login_request url u p dev)) (Ok (Some v))]) = []) as Hc'
    by by apply changes_asked.
  unfold login_again. destruct (aa_success resp3) eqn:Es; cbn [negb].
  - destruct (dec_user _) as [user|]; [|done]. apply keep_token_wp; [done|].
    destruct (token_of (default VNull (aa_data resp3))) as [t3|] eqn:Et; [|by apply issued_app].
    cbn [default from_option]. destruct (aa_data resp3) as [d3|] eqn:Ed; [|done]. by eapply asked_login.
  - destruct (jget _ _) as [x|]; [|done]. destruct (dec_user x) as [user|]; [|done].
    apply keep_token_wp; [done|by apply issued_app].
Qed.

Lemma login_with_device_wp u p url dev r1 tr v :
  changes tr = [] → dec_answer dec_value v = Some r1 →
  wp (login_with_device r1) (tr ++ [obs (AHttp (login_request url u p dev)) (Ok (Some v))])
    (λ tr' r, match r with
              | Ok (Some s) => keeps_issued u p tr' (Ok s)
              | _ => changes tr' = []
              end).
Proof.
  intros Hc Hv. set (tr1 := tr ++ _). assert (changes tr1 = []) as Hc1 by by apply changes_asked.
  unfold login_with_device. destruct (aa_success r1) eqn:Es; [|done]. destruct (aa_data r1) as [d|] eqn:Ed; [|done].
  destruct (token_of d) as [tk|] eqn:Et; [|done]. destruct (jget _ _) as [x|]; [|done].
  destruct (dec_user x) as [user|]; [|done].
  pose proof (keep_token_wp u p tk user true tr1 Hc1 ltac:(by eapply asked_login)) as Hk.
  apply wp_bind in Hk. apply wp_bind. eapply wp_mono; [|exact Hk]. done.
Qed.
Lemma bind_device_wp u p url label id data2 tmp tr :
  changes tr = [] → issued u p tmp tr → wp (bind_device url u p label id data2 tmp) tr (keeps_issued u p).
Proof.
  intros Hc Hi. unfold bind_device. apply wp_bind.
  enough (∀ tr1 host, changes tr1 = [] → issued u p tmp tr1 →
    wp (do? call dec_device (mkHttp POST (url +:+ "/api/devices") (Some tmp)
          (Some (VObj [("device_id", VText id); ("device_name", VText (device_label label host))]%string)));
        resp3 ←? call dec_value (login_request url u p (Some id));
        login_again resp3 data2 tmp) tr1 (keeps_issued u p)) as Hrest.
  { destruct label as [l|]; [exact (Hrest tr None Hc Hi)|].
    refine (λ x, Hrest _ x _ _); [by apply changes_asked|by apply issued_app]. }
  clear tr Hc Hi. intros tr host Hc Hi.
  apply wp_try, call_wp. intros x [a|e] _; [|by apply changes_asked].
  apply wp_try, call_wp. intros x3 [r3|e3] Hr3; [|by repeat apply changes_asked].
  destruct (Hr3 r3 eq_refl) as (v3 & -> & Hv3).
  apply login_again_wp; [by apply changes_asked|by apply issued_app|done].
Qed.

(** C28. Whatever the server and the clock answer: a login that fails leaves the
    configuration as it is, and one that succeeds changes it once, keeping a
    token that a successful answer to a login with this name and this password
    brought in this run. *)
Theorem login_keeps_issued_token username password label :
  wp (login username password label) [] (keeps_issued username password).
Proof.
  unfold login. cbn [wp mbind Prog_bind prog_bind ask]. intros st.
  destruct (bool_decide _); [done|]. cbn [wp mbind Prog_bind prog_bind ask]. intros st2.
  set (url := get_api_url st). set (tr := ([] ++ [obs AStore st]) ++ [obs AStore st2]).
  assert (changes tr = []) as Htr by done. clearbody tr.
  apply wp_try, call_wp. intros x1 [r1|e1] Hr1; [|by apply changes_asked].
  destruct (Hr1 r1 eq_refl) as (v1 & -> & Hv1).
  apply wp_try. eapply wp_mono; [|by apply login_with_device_wp].
  intros tr1 [[s|]|e]; [done| |done]. intros Htr1.
  apply wp_try, call_wp. intros x2 [r2|e2] Hr2; [|by apply changes_asked].
  destruct (Hr2 r2 eq_refl) as (v2 & -> & Hv2).
  destruct (aa_success r2) eqn:Es; cbn [negb]; [|by apply changes_asked].
  destruct (aa_data r2) as [d2|] eqn:Ed; [|by apply changes_asked].
  destruct (token_of d2) as [tmp|] eqn:Et; [|by apply changes_asked].
  apply bind_device_wp; [by apply changes_asked|by eapply asked_login].
Qed.
End login.
