(* ===== verification/AccountServer.v ===== *)
(** * The client's account calls and the web server

    A handler that answers the HTTP requests of [ClientAuth] with the router of
    the server ([Web]): the path and the JSON body of a request become a
    [Request] as axum and serde read them, and the answer becomes JSON as serde
    writes it.  Theorems: a login from a machine that is not registered yet
    registers it and leaves a token that names user and machine; a change of
    the password and the removal of a device never work. *)
From Stdlib Require Import Ascii.
From stdpp Require Import sorting.
From S2P Require Import Prelude Text TextFacts HostText JsonTree Auth Database Instances Keys ClientConfig ClientConfigSpec Programs ClientIo Socks5 Socks5Spec ClientAuth Updater Subscription Orders DbInvariant DbSpec Peer Api Payment PaymentSpec SettingsApi SettingsSpec Web WebSpec.
Local Open Scope Z_scope.

(** ** Answers as JSON *)

(** The text of a time and of a database error. *)
Class AnswerText : Type := { rfc3339 : Z → string; db_error_text : DbError → string }.

Section json.
Context `{AnswerText}.

Definition json_user (u : UserInfo) : JVal :=
  VObj [("id", VNum (ui_id u)); ("username", VText (ui_username u)); ("email", VText (ui_email u));
        ("created_at", VText (rfc3339 (ui_created_at u))); ("is_active", VBool (ui_is_active u));
        ("role", VText (ui_role u))]%string.
Definition json_device (v : DeviceInfo) : JVal :=
  VObj [("id", VNum (di_id v)); ("device_id", VText (di_device_id v)); ("device_name", enc_opt VText (di_device_name v));
        ("created_at", VText (rfc3339 (di_created_at v))); ("is_active", VBool (di_is_active v));
        ("online", VBool (di_online v))]%string.
Definition json_subscription (s : UserSubscriptionInfo) : JVal :=
  VObj [("id", enc_opt VNum (si_id s)); ("plan_name", VText (si_plan_name s));
        ("plan_display_name", VText (si_plan_display_name s)); ("device_limit", VNum (si_device_limit s));
        ("speed_limit_kbps", VNum (si_speed_limit_kbps s));
        ("started_at", enc_opt (λ t, VText (rfc3339 t)) (si_started_at s));
        ("expires_at", enc_opt (λ t, VText (rfc3339 t)) (si_expires_at s)); ("is_active", VBool (si_is_active s));
        ("current_device_count", VNum (si_current_device_count s)); ("notes", enc_opt VText (si_notes s))]%string.
Definition json_login (r : LoginResponse) : JVal :=
  VObj [("token", VText (lr_token r)); ("user", json_user (lr_user r));
        ("subscription", json_subscription (lr_subscription r))]%string.
Definition message_text (m : Message) : string :=
  match m with Msg t => t | MsgErr t e => t +:+ db_error_text e end.
Definition json_response {A} (e : A → JVal) (r : ApiResponse A) : JVal :=
  VObj [("success", VBool (success r)); ("data", enc_opt e (data r)); ("message", VText (message_text (message r)))]%string.
(** A bare status has no body. *)
Definition body_of {A} (e : A → JVal) (r : HttpResult A) : option JVal :=
  match r with Ok r => Some (json_response e r) | Err _ => None end.
(** The answers the client asks for. *)
Definition answer_body (a : Answer) : option JVal :=
  match a with
  | ALogin r => body_of json_login r
  | AUser r => body_of json_user r
  | AUnit r => body_of (λ _, VNull) r
  | ADevice r => body_of json_device r
  | ADevices r => body_of (λ l, VList (json_device <$> l)) r
  | ASubscriptionInfo r => body_of json_subscription r
  | AVersion fields => Some (VObj (("ok"%string, VBool true) :: ((λ f, (f.1, VText f.2)) <$> fields)))
  | _ => None
  end.

(** What the server writes, the client reads. *)
Lemma dec_json_response {A B} (e : A → JVal) (d : JVal → option B) (r : ApiResponse A) (o : option B) :
  match data r with Some a => d (e a) = o ∧ o ≠ None ∧ e a ≠ VNull | None => o = None end →
  dec_answer d (json_response e r) = Some (mkApiAnswer (success r) o (message_text (message r))).
Proof.
  intros Ho. unfold dec_answer, json_response, required, optional. cbn.
  destruct (data r) as [a|]; cbn; [|by subst]. destruct Ho as (Ho & Hne & Hn).
  destruct o as [b|]; [|done]. destruct (e a); try done; cbn; by rewrite Ho.
Qed.
End json.

(** ** Requests from their JSON *)

Definition bearer_headers (token : option string) : HeaderMap :=
  match token with Some t => {["authorization"%string := Some ("Bearer " +:+ t)]} | None => ∅ end.

(** [Json<T>]: a body of another shape is refused. *)
Definition login_of (v : JVal) : option LoginRequest :=
  u ← required dec_str "username" v; p ← required dec_str "password" v; d ← optional dec_str "device_id" v;
  Some (mkLogin u p d).
Definition register_of (v : JVal) : option RegisterRequest :=
  u ← required dec_str "username" v; e ← required dec_str "email" v; p ← required dec_str "password" v;
  c ← required dec_str "confirm_password" v; Some (mkRegister u e p c).
Definition change_of (v : JVal) : option ChangePasswordRequest :=
  o ← required dec_str "old_password" v; n ← required dec_str "new_password" v;
  c ← required dec_str "confirm_password" v; Some (mkChange o n c).
Definition device_of (v : JVal) : option (string * option string) :=
  d ← required dec_str "device_id" v; n ← optional dec_str "device_name" v; Some (d, n).

(** The routes the client uses; the pieces of a path are plain texts. *)
Definition request_of (q : HttpRequest) (path : string) : option Request :=
  let h := bearer_headers (hq_bearer q) in
  let body := default VNull (hq_body q) in
  match hq_method q, split_on "/" path with
  | POST, [""; "api"; "login"] => PostLogin <$> login_of body
  | POST, [""; "api"; "register"] => PostRegister <$> register_of body
  | POST, [""; "api"; "devices"] => (λ dn, PostDevice h dn.1 dn.2) <$> device_of body
  | POST, [""; "api"; "change-password"] => PostChangePassword <$> change_of body
  | GET, [""; "api"; "users"; n] => GetUser h <$> parse_i64 n
  | GET, [""; "api"; "users"; n; "devices"] => GetUserDevices h <$> parse_i64 n
  | GET, [""; "api"; "subscription"; "my"] => Some (GetMySubscription h)
  | GET, [""; "api"; "client"; "version"] => Some GetClientVersion
  | DELETE, [""; "api"; "devices"; did] => Some (DeleteDevice h did)
  | _, _ => None
  end%string.

(** ** The client and the server *)

Record AccountWorld : Type := mkAccountWorld { aw_store : Store; aw_site : Site; aw_hostname : option string }.

Section server.
Context `{Bcrypt} `{Uuid} `{Serde} `{SqlTime} `{TimeStamp} `{Jwt} `{ParseTime} `{Rsa} `{Hmac} `{JsonText} `{Http}
  `{DateText} `{Build} `{AnswerText} `{UrlBase64} `{PaddedBase64} `{JsonLib} `{TomlLib}.
(** The address of the server, and what its handlers know besides the
    database. *)
Variables (server_url secret : string) (online : gmap string OnlineConn) (now started : Instant).

Definition serve_http (q : HttpRequest) (w : AccountWorld) : result Failure (option JVal) * AccountWorld :=
  match strip_prefix server_url (hq_url q) with
  | None => (Err Io, w)
  | Some path =>
    match request_of q path with
    | None => (Ok None, w)
    | Some r =>
      let '(a, s) := route secret online now started r (aw_site w) in
      (Ok (answer_body a), mkAccountWorld (aw_store w) s (aw_hostname w))
    end
  end.
Definition account_handler : Programs.Handler AuthIo AccountWorld := λ X e w,
  match e in AuthIo X return option (X * AccountWorld) with
  | AStore => Some (aw_store w, w)
  | APut f => Some (tt, mkAccountWorld (f (aw_store w)) (aw_site w) (aw_hostname w))
  | AUnix => Some (clock (site_db (aw_site w)), w)
  | ASleep _ => Some (tt, w)
  | AHostname => Some (aw_hostname w, w)
  | AHttp q => Some (serve_http q w)
  end.

Definition set_db (d : Db) (w : AccountWorld) : AccountWorld :=
  mkAccountWorld (aw_store w) (mkSite d (files (aw_site w)) (write_faults (aw_site w))) (aw_hostname w).

Lemma strip_server path : strip_prefix server_url (server_url +:+ path) = Some path.
Proof. apply strip_prefix_app. Qed.

(** A call that reaches a handler of the database. *)
Lemma run_call {A B} (d : JVal → option A) (e : B → JVal) q path r (k : HttpResult B → Answer) (m : M Db (HttpResult B)) w
    (resp : ApiResponse B) db o :
  hq_url q = server_url +:+ path → request_of q path = Some r →
  route secret online now started r = answer k m → (∀ x, answer_body (k x) = body_of e x) →
  m (site_db (aw_site w)) = (Ok resp, db) →
  match data resp with Some a => d (e a) = o ∧ o ≠ None ∧ e a ≠ VNull | None => o = None end →
  run account_handler (call d q) w =
  (Finished (Ok (mkApiAnswer (success resp) o (message_text (message resp)))), set_db db w).
Proof.
  intros Hurl Hreq Hroute Hk Hm Ho. unfold call. cbn. unfold serve_http. rewrite Hurl, strip_server, Hreq, Hroute.
  unfold answer, on_db. rewrite bind_run, Hm. cbn. rewrite Hk.
  cbn [body_of mbind option_bind]. by rewrite (dec_json_response e d resp o Ho).
Qed.

(** ** The token the client keeps *)

Definition json_val (v : Json) : JVal :=
  match v with JNull => VNull | JNum (Some n) => VNum n | JStr s => VText s | _ => VReal end.
(** The payload of a token is the JSON of its claims. *)
Class JwtTextLaw : Prop :=
  jwt_text c t : jwt_encode secret (claims_json c) = Some t →
    ∃ v, token_payload t = Some v ∧ ∀ k, jget k v = json_val <$> claims_json c !! k.

Definition i64_ok (n : Z) : Prop := - 2 ^ 63 <= n < 2 ^ 63.
Lemma within_i64 n : i64_ok n → within (- 2 ^ 63) (2 ^ 63 - 1) n = Some n.
Proof. intros Hn. unfold within. unfold i64_ok in Hn. case_match; [done|]. bool_simp; lia. Qed.
Lemma dec_i64_ok n : i64_ok n → dec_i64 (VNum n) = Some n.
Proof. apply within_i64. Qed.
Lemma required_i64 k v n : i64_ok n → jget k v = Some (VNum n) → required dec_i64 k v = Some n.
Proof. intros Hn Hk. unfold required. rewrite Hk. by apply dec_i64_ok. Qed.

Lemma parse_issued `{!JwtTextLaw} c t :
  i64_ok (c_exp c) → from_option i64_ok True (c_udid c) → jwt_encode secret (claims_json c) = Some t →
  parse_jwt_claims t = Some (mkJwtClaims (c_sub c) (c_username c) (c_exp c) (c_udid c) (c_role c)).
Proof.
  intros He Hu Ht. unfold parse_jwt_claims. destruct (jwt_text c t Ht) as (v & -> & Hv). cbn [mbind option_bind].
  unfold dec_claims, optional, defaulted, required. rewrite !Hv. unfold claims_json.
  destruct c as [sub name e i [d|] r]; simplify_map_eq; cbn in He, Hu |- *.
  - by rewrite !within_i64.
  - by rewrite within_i64.
Qed.

(** ** A machine is registered *)

(** The database after a device was added for a user who had none of its id. *)
Lemma add_device_run h uid did name d limit :
  faults d = [] → jwt_user_id_from_headers secret (clock d) h = Ok uid → active_user uid d = true →
  get_user_device_limit uid d = (Ok limit, d) →
  limit_reached limit (count_where (active_device uid) (devices d)) = false →
  find_row (active_device_id uid did) (devices d) = None → i64_ok (next_device d) →
  ∃ resp d', DeviceApi.add_device secret h did name d = (Ok resp, d') ∧
    faults d' = [] ∧ users d' = users d ∧ clock d' = clock d ∧
    find_row (active_device_id uid did) (devices d') =
      Some (mkUserDevice (next_device d) uid did name (clock d) true) ∧
    match data resp with
    | Some a => ∃ o, dec_device (json_device a) = Some o
    | None => True
    end.
Proof.
  intros Hf Hh Ha Hl Hlim Hno Hid. unfold DeviceApi.add_device, with_caller. rewrite bind_run. cbn [gets fst snd]. rewrite Hh.
  assert (count_where (active_device_id uid did) (devices d) = 0) as Hc.
  { pose proof (count_where_nonneg (active_device_id uid did) (devices d)).
    destruct (decide (0 < count_where (active_device_id uid did) (devices d))) as [(k & v & Hk & Hv)%count_where_pos|]; [|lia].
    rewrite find_row_None in Hno. specialize (Hno k v Hk). congruence. }
  set (row := mkUserDevice (next_device d) uid did name (clock d) true).
  set (d' := upd_next_device Z.succ (upd_devices (λ m, <[next_device d := row]>
    (delete_where (λ v, (ud_user_id v =? uid) && seqb (ud_device_id v) did) m)) d)).
  assert (add_device_to_user (mkCreateDevice uid did name) d = (Ok (next_device d), d')) as Hrun.
  { unfold add_device_to_user, pool_get, count_devices. cbn [cdr_user_id cdr_device_id cdr_device_name]. db_run. rewrite Ha.
    cbn [Z.ltb Z.compare negb]. db_run. rewrite Hl. db_run. rewrite Hlim. db_run. rewrite Hc. db_run. cbn [Z.ltb Z.compare]. unfold replace_device. rewrite stmt_ok by done.
    cbn [cdr_user_id cdr_device_id cdr_device_name]. unfold active_user in Ha. by destruct (users d !! uid). }
  assert (∀ k v, devices d' !! k = Some v → active_device_id uid did v = true → v = row) as Honly.
  { intros k v Hk Hv. cbn in Hk. apply lookup_insert_Some in Hk as [[_ <-]|[_ Hk]]; [done|].
    apply lookup_delete_where in Hk as [Hk _]. rewrite find_row_None in Hno. specialize (Hno k v Hk). congruence. }
  assert (active_device_id uid did row = true) as Hrow.
  { unfold active_device_id, active_device. cbn. by rewrite Z.eqb_refl, bool_decide_eq_true_2. }
  assert (faults d' = []) as Hf' by exact Hf.
  assert (find_row (active_device_id uid did) (devices d') = Some row) as Hfind.
  { eapply find_row_unique; [|exact Hrow|exact Honly]. cbn. by rewrite lookup_insert_eq. }
  rewrite bind_run, Hrun. cbv beta iota. unfold get_user_devices. rewrite bind_run, query_ok by done. cbv beta iota.
  destruct (List.find _ _) as [v|] eqn:Ev.
  - eexists (api_success (device_info false v)), d'. split_and!; try done.
    apply find_some in Ev as [Hin Hv]. cbn [data api_success].
    assert (v = row) as ->.
    { apply list_elem_of_In in Hin. unfold sql_page in Hin. cbn [Z.ltb Z.compare] in Hin.
      rewrite drop_0, merge_sort_Permutation in Hin. apply elem_of_rows_where in Hin as [Hav [k Hk]].
      apply (Honly k v Hk). unfold active_device_id. by rewrite Hav, Hv. }
    eexists. unfold dec_device, json_device, optional, required. cbn. rewrite within_i64 by done. by destruct name.
  - eexists (api_error _), d'. by split_and!.
Qed.

Lemma dec_json_user u : i64_ok (user_id u) →
  dec_user (json_user (user_info u)) =
  Some (mkAccountInfo (user_id u) (username u) (email u) (user_is_active u) (role u) (rfc3339 (user_created_at u))).
Proof. intros Hu. unfold dec_user, json_user, required. cbn. by rewrite within_i64. Qed.
Lemma bearer_read tk : trim tk = tk → tk ≠ ""%string → extract_bearer_token (bearer_headers (Some tk)) = Ok tk.
Proof.
  intros Ht Hne. unfold extract_bearer_token, bearer_headers, Api.header_text. rewrite lookup_singleton_eq. cbn [mjoin option_join id].
  rewrite strip_prefix_app, Ht. by rewrite bool_decide_eq_false_2.
Qed.

(** The request of [login_request], handled by the server. *)
Lemma run_login_call uname pw dev w resp db :
  Web.login secret (mkLogin uname pw dev) (site_db (aw_site w)) = (Ok resp, db) →
  run account_handler (call dec_value (login_request server_url uname pw dev)) w =
  (Finished (Ok (mkApiAnswer (success resp) (json_login <$> data resp) (message_text (message resp)))), set_db db w).
Proof.
  intros Hlog.
  apply (run_call dec_value json_login _ "/api/login" (PostLogin (mkLogin uname pw dev)) ALogin (Web.login secret (mkLogin uname pw dev)));
    try done.
  - unfold request_of, login_request, login_body. cbn [hq_method hq_body].
    replace (split_on "/" "/api/login") with [""; "api"; "login"]%string by reflexivity. by destruct dev.
  - by destruct (data resp).
Qed.

(** The token that is kept, and the status. *)
Lemma run_keep_token `{!JwtTextLaw} u udid tk w t0 :
  clock (site_db (aw_site w)) = t0 → 0 <= t0 → i64_ok (t0 + 86400) → from_option i64_ok True udid → tk ≠ ""%string →
  jwt_encode secret (claims_json (Web.login_claims u udid t0)) = Some tk →
  let user := mkAccountInfo (user_id u) (username u) (email u) (user_is_active u) (role u) (rfc3339 (user_created_at u)) in
  ∃ st, run account_handler (keep_token tk user true) w =
    (Finished (mkAuthStatus true (user_id u) (username u) (role u) (default 0 udid) (t0 + 86400) 86400),
     mkAccountWorld st (aw_site w) (aw_hostname w)) ∧ get_auth_token t0 st = Some tk.
Proof.
  intros Hck Hnow Hexp Hud Hne Htk. cbv zeta. unfold keep_token, from_config.
  rewrite (parse_issued (Web.login_claims u udid t0) tk Hexp Hud Htk). cbn -[Z.mul]. change (24 * 3600) with 86400. rewrite Hck.
  assert (∀ st, get_auth_token t0 (save_login tk (t0 + 86400) (user_id u) (username u) (role u) (default 0 udid) st) = Some tk) as Htok.
  { intros st. unfold get_auth_token, save_login. rewrite update_CONFIG. cbn. rewrite bool_decide_eq_false_2 by done.
    unfold i64_ok in Hexp. unfold as_i64.
    replace ((t0 + 86400 - 30 + 2 ^ 63) mod 2 ^ 64) with (t0 + 86400 - 30 + 2 ^ 63) by (rewrite Z.mod_small; lia).
    rewrite (proj2 (Z.leb_gt _ t0)) by lia. by rewrite andb_false_r. }
  eexists. split; [|apply Htok]. unfold status_of, is_logged_in. rewrite Htok.
  rewrite bool_decide_eq_true_2 by (by eexists). unfold save_login. rewrite update_CONFIG. cbn.
  rewrite (proj2 (Z.ltb_lt 0 (t0 + 86400))) by lia. do 3 f_equal. unfold i64_ok, as_i64 in *. rewrite Z.mod_small; lia.
Qed.

(** What a login needs of the database, and the machine it comes from. *)
Definition machine_known (u : User) (uname pw id : string) (d : Db) : Prop :=
  faults d = [] ∧ find_row (λ u, seqb (username u) uname) (users d) = Some u ∧ users d !! user_id u = Some u ∧
  user_is_active u = true ∧ bcrypt_verify pw (password_hash u) = true ∧ trim id = id ∧ id ≠ ""%string ∧
  i64_ok (user_id u) ∧ i64_ok (next_device d) ∧ 0 <= clock d ∧ i64_ok (clock d + 86400).
(** The user may add one more device. *)
Definition may_add (uid : Z) (id : string) (d : Db) : Prop :=
  find_row (active_device_id uid id) (devices d) = None ∧
  ∃ limit, get_user_device_limit uid d = (Ok limit, d) ∧
    limit_reached limit (count_where (active_device uid) (devices d)) = false.
Definition issues (u : User) (udid : option Z) (now : Z) (tk : string) : Prop :=
  jwt_encode secret (claims_json (Web.login_claims u udid now)) = Some tk ∧ trim tk = tk ∧ tk ≠ ""%string.

Definition new_device (u : User) (id : string) (name : option string) (d : Db) : UserDevice :=
  mkUserDevice (next_device d) (user_id u) id name (clock d) true.
Lemma set_db_twice d1 d2 w : set_db d1 (set_db d2 w) = set_db d1 w.
Proof. done. Qed.

(** The first two requests of a login from an unknown machine. *)
Lemma login_unbound `{!JwtLaws} uname pw label u tk1 w :
  let d := site_db (aw_site w) in let id := get_id (aw_store w) in
  get_api_url (aw_store w) = server_url → server_url ≠ ""%string → machine_known u uname pw id d →
  may_add (user_id u) id d → issues u None (clock d) tk1 →
  ∃ info, run account_handler (login uname pw label) w =
    run account_handler (bind_device server_url uname pw label id (json_login (mkLoginResponse tk1 (user_info u) info)) tk1)
      (set_db d w).
Proof.
  cbv zeta. set (d := site_db (aw_site w)). set (id := get_id (aw_store w)).
  intros Hurl Hs (Hf & Hu & Hk & Ha & Hv & Htrim & Hid & _) (Hno & _) (Htk & _).
  destruct (login_run secret (mkLogin uname pw None) u None tk1 d Hf) as (info & _ & Hlog2); [by split_and!|done|].
  exists info.
  unfold login. cbn [mbind Prog_bind prog_bind ask run account_handler].
  rewrite Hurl, bool_decide_eq_false_2 by done. cbn [mbind Prog_bind prog_bind ask run account_handler]. fold id.
  rewrite (run_try _ _ _ _ _ _ (run_login_call uname pw (Some id) w _ d
    (login_unknown_device secret (mkLogin uname pw (Some id)) u id d Hf Hu Ha Hv eq_refl ltac:(by rewrite Htrim)
      ltac:(by rewrite Htrim)))).
  unfold login_with_device at 1. cbn [success data api_error aa_success aa_data].
  unfold try_bind at 1. cbn [mbind Prog_bind prog_bind mret Prog_ret].
  rewrite (run_try _ _ _ _ _ _ (run_login_call uname pw None (set_db d w) _ d Hlog2)). by rewrite set_db_twice.
Qed.

(** The third request adds the machine. *)
Lemma run_add_device `{!JwtLaws} label id u tk1 w :
  let d := site_db (aw_site w) in let uid := user_id u in
  faults d = [] → users d !! uid = Some u → user_is_active u = true → i64_ok uid → i64_ok (next_device d) →
  may_add uid id d → issues u None (clock d) tk1 →
  ∃ r d', run account_handler (call dec_device (mkHttp POST (server_url +:+ "/api/devices") (Some tk1)
      (Some (VObj [("device_id", VText id); ("device_name", VText label)]%string)))) w =
    (Finished (Ok r), set_db d' w) ∧
    faults d' = [] ∧ users d' = users d ∧ clock d' = clock d ∧
    find_row (active_device_id uid id) (devices d') = Some (new_device u id (Some label) d).
Proof.
  cbv zeta. set (d := site_db (aw_site w)).
  intros Hf Hk Ha Hiu Hin (Hno & limit & Hl & Hlim) (Htk & Htrim & Hne).
  destruct (add_device_run (bearer_headers (Some tk1)) (user_id u) id (Some label) d limit)
    as (resp3 & d3 & Hadd & Hf3 & Hus3 & Hck3 & Hrow3 & Hdec3); try done.
  { eapply login_token_caller; [done|exact Htk|by apply bearer_read|lia]. }
  { unfold active_user. by rewrite Hk. }
  eexists _, d3. split; [|by split_and!].
  apply (run_call dec_device json_device _ "/api/devices" (PostDevice (bearer_headers (Some tk1)) id (Some label)) ADevice
    (DeviceApi.add_device secret (bearer_headers (Some tk1)) id (Some label)) _ resp3 d3
    (data resp3 ≫= λ a, dec_device (json_device a))); try done.
  destruct (data resp3) as [a|]; [|done]. destruct Hdec3 as [o Ho]. cbn [mbind option_bind]. by rewrite Ho.
Qed.

(** A login from a machine that its user may still add registers the machine
    and logs in with it: of the four requests the first is refused, the second
    gives a token without the machine, the third adds the machine under it, and
    the fourth gives the token that is kept.  It is valid, names the user and
    the new row, and the database has the machine as an active device. *)
Theorem login_registers_device `{!JwtLaws} `{!JwtTextLaw} uname pw label u tk1 tk2 w :
  let d := site_db (aw_site w) in let id := get_id (aw_store w) in
  get_api_url (aw_store w) = server_url → server_url ≠ ""%string → machine_known u uname pw id d →
  may_add (user_id u) id d → issues u None (clock d) tk1 → issues u (Some (next_device d)) (clock d) tk2 →
  let r := run account_handler (login uname pw label) w in
  r.1 = Finished (Ok (mkAuthStatus true (user_id u) (username u) (role u) (next_device d) (clock d + 86400) 86400)) ∧
  get_auth_token (clock d) (aw_store r.2) = Some tk2 ∧
  find_row (active_device_id (user_id u) id) (devices (site_db (aw_site r.2))) =
    Some (new_device u id (Some (device_label label (if label then None else aw_hostname w))) d).
Proof.
  cbv zeta. set (d := site_db (aw_site w)). set (id := get_id (aw_store w)).
  intros Hurl Hs Hm Hadd Htk1 Htk2.
  destruct (login_unbound uname pw label u tk1 w Hurl Hs Hm Hadd Htk1) as [info ->]. fold d id.
  destruct Hm as (Hf & Hu & Hk & Ha & Hv & Htrim & Hid & Hiu & Hin & Hck & Hexp).
  set (dname := device_label label (if label then None else aw_hostname w)).
  destruct (run_add_device dname id u tk1 (set_db d w) Hf Hk Ha Hiu Hin Hadd Htk1)
    as (r3 & d3 & Hrun3 & Hf3 & Hus3 & Hck3 & Hrow3). rewrite set_db_twice in Hrun3.
  change (site_db (aw_site (set_db d w))) with d in *.
  assert (run account_handler (bind_device server_url uname pw label id
      (json_login (mkLoginResponse tk1 (user_info u) info)) tk1) (set_db d w) =
    run account_handler (resp3 ←? call dec_value (login_request server_url uname pw (Some id));
      login_again resp3 (json_login (mkLoginResponse tk1 (user_info u) info)) tk1) (set_db d3 w)) as ->.
  { unfold bind_device. subst dname.
    destruct label as [l|]; cbn [mbind Prog_bind prog_bind ask mret Prog_ret run account_handler];
      by rewrite (run_try _ _ _ _ _ _ Hrun3). }
  destruct (login_run secret (mkLogin uname pw (Some id)) u (Some (next_device d)) tk2 d3 Hf3) as (info3 & _ & Hlog3).
  { split_and!; [by rewrite Hus3|done|done|]. cbn [lq_device_id]. rewrite Htrim, bool_decide_eq_false_2 by done.
    split; [done|]. by rewrite Hrow3. }
  { rewrite Hck3. apply Htk2. }
  rewrite (run_try _ _ _ _ _ _ (run_login_call uname pw (Some id) (set_db d3 w) _ d3 Hlog3)), set_db_twice.
  unfold login_again. cbn [success data api_success aa_success aa_data negb fmap option_fmap option_map default].
  change (default tk1 (token_of (default VNull (Some (json_login (mkLoginResponse tk2 (user_info u) info3)))))) with tk2.
  change (default _ (jget "user" _)) with (json_user (user_info u)).
  rewrite (dec_json_user u Hiu).
  destruct (run_keep_token u (Some (next_device d)) tk2 (set_db d3 w) (clock d)) as (st & Hkeep & Htok);
    [done..|apply Htk2|apply Htk2|].
  by rewrite (run_bind_eq _ _ _ _ _ _ Hkeep).
Qed.

(** ** What the account calls cannot do *)

Lemma run_valid_token missing w :
  run account_handler (valid_token missing) w =
  (Finished (match get_auth_token (clock (site_db (aw_site w))) (aw_store w) with
             | Some t => Ok t | None => Err (Failed missing) end), w).
Proof. done. Qed.

(** A call that the server refuses, or does not understand. *)
Lemma run_call_unit (k : HttpResult unit → Answer) q path r (m : M Db (HttpResult unit)) w :
  hq_url q = server_url +:+ path → request_of q path = Some r →
  route secret online now started r = answer k m → (∀ x, answer_body (k x) = body_of (λ _, VNull) x) →
  (∀ resp d', m (site_db (aw_site w)) = (Ok resp, d') → success resp = false) →
  ∃ e, run account_handler (call dec_value q) w = (Finished e, set_db (m (site_db (aw_site w))).2 w) ∧
    match e with Ok a => aa_success a = false | Err _ => True end.
Proof.
  intros Hurl Hreq Hroute Hk Hm. unfold call. cbn. unfold serve_http. rewrite Hurl, strip_server, Hreq, Hroute.
  unfold answer, on_db. rewrite bind_run. destruct (m (site_db (aw_site w))) as [x d'] eqn:E. cbn. rewrite Hk.
  eexists. split; [done|]. destruct x as [resp|e]; [|done]. cbn [body_of mbind option_bind].
  specialize (Hm resp d' eq_refl). destruct resp as [sc [[]|] msg]; by cbn in *; subst.
Qed.

Lemma change_password_fails old new w : get_api_url (aw_store w) = server_url →
  ∃ e, run account_handler (ClientAuth.change_password old new) w = (Finished (Err e), w).
Proof.
  intros Hurl. set (d := site_db (aw_site w)).
  unfold ClientAuth.change_password. destruct (get_auth_token (clock d) (aw_store w)) as [tk|] eqn:Et.
  2: { eexists. erewrite run_try_err; [done|]. rewrite run_valid_token. fold d. by rewrite Et. }
  erewrite run_try by (rewrite run_valid_token; fold d; by rewrite Et). cbn [mbind Prog_bind prog_bind ask run account_handler].
  edestruct (run_call_unit AUnit (mkHttp POST (get_api_url (aw_store w) +:+ "/api/change-password") (Some tk)
    (Some (VObj [("old_password", VText old); ("new_password", VText new); ("confirm_password", VText new)]%string)))
    "/api/change-password" (PostChangePassword (mkChange old new new))
    (PasswordReset.change_password (mkChange old new new)) w) as (r & Hrun & Hr); [by rewrite Hurl|done..| |].
  { unfold PasswordReset.change_password. intros resp d'. repeat case_match; by intros [= <- <-]. }
  replace (PasswordReset.change_password (mkChange old new new) (site_db (aw_site w))).2 with d in Hrun
    by (unfold PasswordReset.change_password; by repeat case_match).
  replace (set_db d w) with w in Hrun by by destruct w as [? []].
  destruct r as [a|e]; [|eexists; by erewrite run_try_err by exact Hrun].
  erewrite run_try by exact Hrun. rewrite Hr. by eexists.
Qed.
Lemma remove_device_fails did w : get_api_url (aw_store w) = server_url → all_chars url_char did = true →
  ∃ e st, run account_handler (ClientAuth.remove_device did) w = (Finished (Err e), st) ∧
    aw_store st = aw_store w ∧ users (site_db (aw_site st)) = users (site_db (aw_site w)) ∧
    devices (site_db (aw_site st)) = devices (site_db (aw_site w)).
Proof.
  intros Hurl Hdid. set (d := site_db (aw_site w)).
  unfold ClientAuth.remove_device. destruct (get_auth_token (clock d) (aw_store w)) as [tk|] eqn:Et.
  2: { eexists _, w. erewrite run_try_err; [done|]. rewrite run_valid_token. fold d. by rewrite Et. }
  erewrite run_try by (rewrite run_valid_token; fold d; by rewrite Et). cbn [mbind Prog_bind prog_bind ask run account_handler].
  edestruct (run_call_unit AUnit (mkHttp DELETE (get_api_url (aw_store w) +:+ "/api/devices/" +:+ did) (Some tk) None)
    ("/api/devices/" +:+ did) (DeleteDevice (bearer_headers (Some tk)) did)
    (DeviceApi.remove_device_by_id secret (bearer_headers (Some tk)) did) w) as (r & Hrun & Hr); [by rewrite Hurl| |done..| |].
  { unfold request_of. cbn [hq_method].
    change ("/api/devices/" +:+ did) with ("/api/devices" +:+ String "/" did).
    rewrite split_on_app, (split_on_none _ did) by (eapply has_char_all; [exact Hdid|vm_compute; reflexivity]). reflexivity. }
  { intros resp d'. unfold DeviceApi.remove_device_by_id, with_caller. run_monad.
    destruct (jwt_user_id_from_headers _ _ _) as [uid|]; [|done]. cbn. fold d.
    pose proof (remove_device_never_works uid did d) as (Hno & _).
    destruct (remove_device_from_user uid did d) as [[x|x] d2]; [by destruct (Hno x)|]. by intros [= <- <-]. }
  assert (users (DeviceApi.remove_device_by_id secret (bearer_headers (Some tk)) did d).2 = users d ∧
          devices (DeviceApi.remove_device_by_id secret (bearer_headers (Some tk)) did d).2 = devices d) as Hkeep.
  { unfold DeviceApi.remove_device_by_id, with_caller. run_monad.
    destruct (jwt_user_id_from_headers _ _ _) as [uid|]; [|done]. cbn.
    unfold remove_device_from_user, update_devices, stmt. cbn. by destruct (faults d) as [|[] f]. }
  destruct r as [a|e].
  - erewrite run_try by exact Hrun. rewrite Hr. eexists _, _. split; [done|]. split; [done|exact Hkeep].
  - eexists _, _. erewrite run_try_err by exact Hrun. split; [done|]. split; [done|exact Hkeep].
Qed.

(** Two calls of the client that the server does not carry out, whatever the
    account, the device and the state of the database are: the change of a
    password (its handler has yet to be written) and the removal of a device
    (its statement names a column that does not exist).  The client reports an
    error; its login, the users and the devices are as before. *)
Theorem account_calls_that_fail old new did w :
  get_api_url (aw_store w) = server_url → all_chars url_char did = true →
  let after p := (run account_handler p w).2 in
  (∃ e, (run account_handler (ClientAuth.change_password old new) w).1 = Finished (Err e)) ∧
  after (ClientAuth.change_password old new) = w ∧
  (∃ e, (run account_handler (ClientAuth.remove_device did) w).1 = Finished (Err e)) ∧
  aw_store (after (ClientAuth.remove_device did)) = aw_store w ∧
  users (site_db (aw_site (after (ClientAuth.remove_device did)))) = users (site_db (aw_site w)) ∧
  devices (site_db (aw_site (after (ClientAuth.remove_device did)))) = devices (site_db (aw_site w)).
Proof.
  intros Hurl Hdid. cbv zeta. destruct (change_password_fails old new w Hurl) as [e1 ->].
  destruct (remove_device_fails did w Hurl Hdid) as (e2 & st & -> & Hst). eauto 10.
Qed.

(** A token whose claims the client cannot read is stored with 0 as the time it
    expires.  The configuration takes that for a token without an end, and the
    client counts as logged in; the watcher of the token takes it for one that
    ended in 1970, and logs the client out within five minutes. *)
Theorem unreadable_token_is_dropped tk user w (later : Z) :
  parse_jwt_claims tk = None → tk ≠ ""%string → 0 <= clock (site_db (aw_site w)) < 2 ^ 63 →
  let '(st, w1) := run account_handler (keep_token tk user true) w in
  (∃ s, st = Finished s ∧ as_logged_in s = true) ∧ get_auth_token later (aw_store w1) = Some tk ∧
  get_auth_token later (aw_store (run account_handler watch_token w1).2) = None.
Proof.
  intros Hp Hne Hnow. unfold keep_token, from_config. rewrite Hp.
  set (st1 := save_login tk 0 (ac_id user) (ac_username user) (ac_role user) 0 (aw_store w)).
  set (w1 := mkAccountWorld st1 (aw_site w) (aw_hostname w)).
  assert (CONFIG st1 = CONFIG (save_login tk 0 (ac_id user) (ac_username user) (ac_role user) 0 (aw_store w))) as Hc by done.
  unfold save_login in Hc at 1. rewrite update_CONFIG in Hc.
  assert (∀ t, get_auth_token t st1 = Some tk) as Htok.
  { intros t. unfold get_auth_token. rewrite Hc. cbn. by rewrite bool_decide_eq_false_2. }
  match goal with |- context [run account_handler ?p w] =>
    assert (run account_handler p w = (Finished (status_of true (clock (site_db (aw_site w))) st1), w1)) as -> end.
  { cbn [mbind Prog_bind prog_bind ask mret Prog_ret run account_handler].
    cbn [mbind option_bind default from_option]. fold st1. fold w1.
    unfold is_logged_in. by rewrite (Htok _), bool_decide_eq_true_2 by by eexists. }
  split_and!; [by eexists|apply Htok|]. clearbody st1.
  assert (run account_handler watch_token w1 =
    (Finished tt, mkAccountWorld (clear_login st1) (aw_site w) (aw_hostname w))) as ->.
  { unfold watch_token. cbn [mbind Prog_bind prog_bind ask mret Prog_ret run account_handler aw_store w1].
    rewrite Hc. cbn. rewrite bool_decide_eq_false_2 by done.
    cbn [mbind Prog_bind prog_bind ask mret Prog_ret run account_handler aw_store aw_site w1].
    unfold as_i64. rewrite (proj2 (Z.leb_le _ 0)); [done|]. rewrite Z.mod_small; lia. }
  cbn [snd aw_store]. unfold get_auth_token, clear_login. rewrite update_CONFIG. done.
Qed.

(** ** The version an administrator announces *)

Definition update_handler : Programs.Handler UpdIo AccountWorld := λ X e w,
  match e in UpdIo X return option (X * AccountWorld) with
  | UHttp HttpGet url =>
    let '(r, w) := serve_http (mkHttp GET url None None) w in
    Some (match r with Ok v => Some (mkHttpAnswer true None v 0) | Err _ => None end, w)
  | _ => None
  end.

Definition setting_text (key : string) (d : Db) : string := default ""%string (settings d !! key).
Definition win_mac_linux (t : Target) (win mac linux : string) : string :=
  match t with Windows => win | Macos => mac | Linux => linux end.
Lemma client_settings_run l d : faults d = [] →
  Web.client_settings l d = ((λ fk, (fk.1, setting_text fk.2 d)) <$> l, d).
Proof.
  intros Hf. induction l as [|[f k] l IH]; [done|]. cbn [Web.client_settings].
  unfold get_setting. rewrite bind_run, query_ok by done. rewrite bind_run, IH. cbn. unfold setting_text.
  by destruct (settings d !! k).
Qed.

(** C31. What the settings say of the client is what the client learns: nothing when
    no version is set, that there is none newer, that the platform has no file,
    or the update with its address, its hash and its text. *)
Theorem announced_update_arrives target api_url w :
  let d := site_db (aw_site w) in
  trim_slashes api_url = server_url → faults d = [] →
  let version := setting_text "client_latest_version" d in
  let file := setting_text (win_mac_linux target "client_dl_win" "client_dl_mac" "client_dl_linux") d in
  let hash := setting_text (win_mac_linux target "client_sha256_win" "client_sha256_mac" "client_sha256_linux") d in
  run update_handler (check_update target api_url) w =
  (Finished (if bool_decide (version = ""%string) then Err (Failed "服务器未配置客户端版本信息")
             else if negb (is_newer version CARGO_PKG_VERSION) then Ok None
             else if bool_decide (file = ""%string) then Err (Failed "服务器未提供当前平台的下载链接")
             else Ok (Some (mkUpdateInfo version file hash (setting_text "client_changelog" d)))), w).
Proof.
  cbv zeta. set (d := site_db (aw_site w)). intros Hurl Hf. unfold check_update.
  cbn [mbind Prog_bind prog_bind ask run update_handler]. unfold serve_http. cbn [hq_url]. rewrite Hurl, strip_server.
  change (request_of _ _) with (Some GetClientVersion). cbn [route]. unfold answer, on_db. rewrite bind_run. fold d.
  unfold Web.client_version. rewrite client_settings_run by done. cbn [mret M_ret answer_body]. cbv iota beta.
  replace (mkAccountWorld (aw_store w) _ (aw_hostname w)) with w by by destruct w as [? [] ?].
  unfold platform_field. destruct target; reflexivity.
Qed.
End server.

(** ** A user on a second machine *)
Section witnesses.
#[local] Existing Instance TestBcrypt.
#[local] Existing Instance TestUuid.
#[local] Existing Instance TestSerde.
#[local] Existing Instance TestSqlTime.
#[local] Existing Instance demo_stamp.
#[local] Existing Instance TestRsa.
#[local] Existing Instance TestHmac.
#[local] Existing Instance TestJsonText.
#[local] Existing Instance TestUrl.
#[local] Existing Instance TestJson.
#[local] Existing Instance TestToml.
#[local] Existing Instance TestParseTime.
#[local] Existing Instance TestHttp.
#[local] Existing Instance TestDateText.
#[local] Existing Instance TestBuild.
#[local] Instance TestAnswerText : AnswerText := {| rfc3339 := to_string; db_error_text := λ _, ""%string |}.
#[local] Instance TestPadded : PaddedBase64 := url_decode.

(** Tokens of three parts, the second being the JSON of the claims. *)
Definition claims_obj (m : gmap string Json) : JVal := VObj ((λ kv, (kv.1, json_val kv.2)) <$> map_to_list m).
Definition three_parts (m : gmap string Json) (t : string) : string :=
  "1." +:+ url_encode (str_bytes (json_text (claims_obj m))) +:+ "." +:+ t.
#[local] Instance TestJwt : Jwt := {|
  jwt_encode secret m := three_parts m <$> demo_encode secret m;
  jwt_decode secret now t := match split_on "." t with [_; _; t] => demo_decode secret now t | _ => None end
|}.
Lemma split_three m secret t : demo_encode secret m = Some t →
  split_on "." (three_parts m t) = ["1"; url_encode (str_bytes (json_text (claims_obj m))); t]%string.
Proof.
  intros [= <-]. unfold three_parts.
  transitivity (split_on "." ("1" +:+ String "." (url_encode (str_bytes (json_text (claims_obj m))) +:+
    String "." (to_string (Zpos (encode (secret, m))))))); [reflexivity|].
  rewrite !split_on_app, !split_on_none by (first [done|by apply has_char_to_string]). done.
Qed.
#[local] Instance TestJwtLaws : JwtLaws.
Proof.
  destruct DemoJwtLaws as [L1 L2 L3]. cbn in L1, L2, L3. split; cbn [jwt_encode jwt_decode TestJwt].
  - intros secret m t e now Ht. destruct (demo_encode secret m) as [t'|] eqn:E; [|done]. injection Ht as <-.
    rewrite (split_three m secret t' E). by apply L1.
  - intros secret now t m. repeat case_match; try done. apply L2.
  - intros secret now now' t m m'. repeat case_match; try done. apply L3.
Qed.
Lemma find_key (l : list (string * Json)) k :
  snd <$> List.find (λ e, String.eqb e.1 k) ((λ kv, (kv.1, json_val kv.2)) <$> l) =
  json_val <$> (list_to_map l : gmap string Json) !! k.
Proof.
  induction l as [|[a v] l IH]; [by cbn|]. cbn. destruct (String.eqb_spec a k) as [->|Hne]; [by simplify_map_eq|].
  rewrite lookup_insert_ne by done. apply IH.
Qed.
#[local] Instance TestJwtText : JwtTextLaw "k".
Proof.
  intros c t Ht. cbn [jwt_encode TestJwt] in Ht. destruct (demo_encode _ _) as [t'|] eqn:E; [|done]. injection Ht as <-.
  exists (claims_obj (claims_json c)). split.
  - unfold token_payload. rewrite (split_three _ _ _ E), (url_roundtrip (UrlBase64Laws := TestUrlLaws)).
    cbn [mbind option_bind]. rewrite from_utf8_bytes by (by apply to_string_utf8).
    cbn [mbind option_bind]. apply TestJsonLaws.
  - intros k. unfold jget, claims_obj. by rewrite find_key, list_to_map_to_list.
Qed.

Definition ann0 : User := mkUser 1 "ann" "ann@x" "secret" 0 0 true "user".
Definition ann_store : Store := mkStore (set_api_url "http://s" (set_id "123456789" default_config)) None DiskOk.
Definition ann_world : AccountWorld := mkAccountWorld ann_store (mkSite ann_db ∅ []) (Some "laptop"%string).
Definition ann_tk (udid : option Z) : string := default ""%string (jwt_encode "k" (claims_json (Web.login_claims ann0 udid 0))).

Lemma announced_update_arrives_witness :
  let d := upd_settings (λ _, {["client_latest_version" := "0.2.0"; "client_dl_linux" := "http://s/f"]}%string) ann_db in
  (run (update_handler "http://s" "k" ∅ 0 0) (check_update Linux "http://s/") (mkAccountWorld ann_store (mkSite d ∅ []) None)).1 =
    Finished (Ok (Some (mkUpdateInfo "0.2.0" "http://s/f" "" ""))).
Proof.
  cbv zeta. erewrite (announced_update_arrives "http://s" "k" ∅ 0 0 Linux "http://s/" _); vm_compute; reflexivity.
Defined.
Lemma ann_issues udid : issues "k" ann0 udid 0 (ann_tk udid).
Proof.
  split_and!; [reflexivity| |discriminate]. apply trim_no_space.
  change (no_space ("1." +:+ to_string (Zpos (encode (str_bytes (json_text (claims_obj (claims_json (Web.login_claims ann0 udid 0)))))))
    +:+ "." +:+ to_string (Zpos (encode ("k"%string, claims_json (Web.login_claims ann0 udid 0))))) = true).
  by rewrite !no_space_app, !no_space_to_string.
Qed.
Lemma login_registers_device_witness :
  let r := run (account_handler "http://s" "k" ∅ 0 0) (login "ann" "secret" None) ann_world in
  r.1 = Finished (Ok (mkAuthStatus true 1 "ann" "user" 1 86400 86400)) ∧
  find_row (active_device_id 1 "123456789") (devices (site_db (aw_site r.2))) =
    Some (mkUserDevice 1 1 "123456789" (Some "nat-client@laptop"%string) 0 true).
Proof.
  destruct (login_registers_device "http://s" "k" ∅ 0 0 "ann" "secret" None ann0 (ann_tk None) (ann_tk (Some 1)) ann_world)
    as (H1 & _ & H2).
  - reflexivity.
  - discriminate.
  - unfold machine_known, i64_ok. split_and!; first [vm_compute; reflexivity | vm_compute; discriminate].
  - split; [vm_compute; reflexivity|]. exists FREE_DEVICE_LIMIT. split; vm_compute; reflexivity.
  - apply ann_issues.
  - apply ann_issues.
  - exact (conj H1 H2).
Defined.

Lemma account_calls_that_fail_witness :
  let after p := (run (account_handler "http://s" "k" ∅ 0 0) p ann_world).2 in
  after (ClientAuth.change_password "secret" "better") = ann_world ∧
  devices (site_db (aw_site (after (ClientAuth.remove_device "123456789")))) = devices ann_db.
Proof.
  destruct (account_calls_that_fail "http://s" "k" ∅ 0 0 "secret" "better" "123456789" ann_world)
    as (_ & H1 & _ & _ & _ & H2); [reflexivity|reflexivity|].
  exact (conj H1 H2).
Defined.

Lemma unreadable_token_is_dropped_witness :
  let '(st, w1) := run (account_handler "http://s" "k" ∅ 0 0)
    (keep_token "opaque" (mkAccountInfo 1 "ann" "ann@x" true "user" "0") true) ann_world in
  (∃ s, st = Finished s ∧ as_logged_in s = true) ∧ get_auth_token (10 ^ 12) (aw_store w1) = Some "opaque"%string ∧
  get_auth_token (10 ^ 12) (aw_store (run (account_handler "http://s" "k" ∅ 0 0) watch_token w1).2) = None.
Proof.
  apply (unreadable_token_is_dropped "http://s" "k" ∅ 0 0 "opaque" (mkAccountInfo 1 "ann" "ann@x" true "user" "0")
    ann_world (10 ^ 12)).
  - vm_compute. reflexivity.
  - discriminate.
  - vm_compute. split; [discriminate|reflexivity].
Defined.
End witnesses.
