(* ===== verification/UnixPath.v ===== *)
(** * Paths as [std::path] has them on Unix

    A path is a string of bytes.  Its components skip repeated and trailing
    separators and every [.] but a leading one; [..] stays.  A path that is
    no UTF-8 has no text. *)
From Stdlib Require Import Ascii.
From S2P Require Import Prelude Text TextFacts.
Local Open Scope Z_scope.

Definition slash : ascii := "/".
Inductive Component : Type := RootDir | CurDir | ParentDir | Normal (s : string).
#[export] Instance Component_eq_dec : EqDecision Component.
Proof. solve_decision. Defined.

#[export] Instance Normal_inj : Inj (=) (=) Normal.
Proof. by intros s t [= ->]. Qed.

Definition is_absolute (p : string) : bool := starts_with "/" p.

(** ** Components *)

(** A piece between separators, and a list of them after the beginning. *)
Definition piece (s : string) : list Component :=
  if bool_decide (s = ""%string) then [] else
  if bool_decide (s = "."%string) then [] else
  if bool_decide (s = ".."%string) then [ParentDir] else [Normal s].
Definition pieces (l : list string) : list Component := l ≫= piece.

Definition components (p : string) : list Component :=
  match split_on slash p with
  | s :: l =>
    if is_absolute p then RootDir :: pieces l
    else (if bool_decide (s = "."%string) then [CurDir] else piece s) ++ pieces l
  | [] => []
  end.

(** [Path::join]: an absolute path replaces, otherwise one separator between. *)
Definition ends_with_slash (p : string) : bool := 
  match rcut slash p with Some (_, r) => bool_decide (r = ""%string) | None => false end.
Definition path_join (a b : string) : string :=
  if is_absolute b then b
  else if bool_decide (a = ""%string) || ends_with_slash a then a +:+ b
  else a +:+ String slash b.

Definition file_name (p : string) : option string :=
  match last (components p) with Some (Normal s) => Some s | _ => None end.

(** [Path::parent]: what is before the last component, without the separators
    after it. *)
Definition skipped (s : string) : bool := bool_decide (s = ""%string) || bool_decide (s = "."%string).
Fixpoint drop_skipped (l : list string) : list string :=
  match l with s :: r => if skipped s then drop_skipped r else l | [] => [] end.
Definition without_last (l : list string) : list string :=
  reverse (drop_skipped (tail (drop_skipped (reverse l)))).
Definition parent (p : string) : option string :=
  match split_on slash p with
  | s :: l =>
    if is_absolute p then
      match pieces l with [] => None | _ => Some (String slash (join "/" (without_last l))) end
    else if bool_decide (s = "."%string) then
      match pieces l with [] => Some ""%string | _ => Some (join "/" (s :: without_last l)) end
    else match pieces (s :: l) with [] => None | _ => Some (join "/" (without_last (s :: l))) end
  | [] => None
  end.

(** [to_str] and [to_string_lossy] *)
Definition to_str (p : string) : option string := from_utf8 (str_bytes p).
Definition to_string_lossy (p : string) : string := from_utf8_lossy (str_bytes p).

Example path_reading :
  components "/a//b/./c/" = [RootDir; Normal "a"; Normal "b"; Normal "c"] ∧
  components "./a/../b" = [CurDir; Normal "a"; ParentDir; Normal "b"] ∧ components "" = [] ∧
  parent "/a/b/" = Some "/a"%string ∧ parent "/a" = Some "/"%string ∧ parent "/" = None ∧ parent "" = None ∧
  parent "//a/./b" = Some "//a"%string ∧ parent "a" = Some ""%string ∧ parent "./a" = Some "."%string ∧
  path_join "/a" "b/c" = "/a/b/c"%string ∧ path_join "/a/" "b" = "/a/b"%string ∧ path_join "/a" "/b" = "/b"%string ∧
  path_join "" "b" = "b"%string ∧ file_name "/a/.." = None ∧ file_name "/a/b/." = Some "b"%string.
Proof. vm_compute. done. Qed.

(** ** Absolute paths, and what is added to them *)

Lemma pieces_app l1 l2 : pieces (l1 ++ l2) = pieces l1 ++ pieces l2.
Proof. apply bind_app. Qed.
Lemma components_abs r : components (String slash r) = RootDir :: pieces (split_on slash r).
Proof. unfold components. cbn [split_on]. rewrite Ascii.eqb_refl. unfold is_absolute. by rewrite starts_with_cons. Qed.
Lemma is_absolute_spec p : is_absolute p = true → ∃ r, p = String slash r.
Proof.
  unfold is_absolute, starts_with. intros Hp%bool_decide_eq_true_1. destruct Hp as [r Hr].
  exists r. by apply strip_prefix_some in Hr.
Qed.

Lemma split_on_suffix c a s :
  has_char c s = false → ∃ i l, split_on c a = i ++ [l] ∧ split_on c (a +:+ s) = i ++ [l +:+ s].
Proof.
  intros Hs. induction a as [|x a (i & l & E1 & E2)].
  { exists [], ""%string. split; [done|]. change (("" +:+ s)%string) with s. by apply split_on_none. }
  change ((String x a +:+ s)%string) with (String x (a +:+ s)). cbn [split_on]. rewrite E1, E2.
  destruct (Ascii.eqb x c); [by exists (""%string :: i), l|].
  destruct i as [|w i]; [by exists [], (String x l)|by exists (String x w :: i), l].
Qed.

Lemma join_abs r name :
  is_absolute name = false →
  ∃ r', path_join (String slash r) name = String slash r' ∧
        pieces (split_on slash r') = pieces (split_on slash r) ++ pieces (split_on slash name).
Proof.
  intros Hn. unfold path_join. rewrite Hn. rewrite bool_decide_eq_false_2 by done. cbn [orb].
  destruct (ends_with_slash (String slash r)) eqn:E.
  - unfold ends_with_slash in E. destruct (rcut slash (String slash r)) as [[a b]|] eqn:R; [|done].
    bool_simp. subst b. apply rcut_some in R as [R _]. destruct a as [|x a].
    + change (("" +:+ String slash "")%string) with (String slash "") in R. injection R as ->.
      exists name. split; [done|]. done.
    + change ((String x a +:+ String slash "")%string) with (String x (a +:+ String slash "")) in R.
      injection R as <- ->. exists (a +:+ String slash name). rewrite !split_on_app, !pieces_app. split.
      * by rewrite app_cons, app_string_assoc.
      * cbn. by rewrite app_nil_r.
  - exists (r +:+ String slash name). split; [done|]. by rewrite split_on_app, pieces_app.
Qed.

(** A piece with a suffix that is neither empty nor of dots. *)
Lemma piece_suffix x s : (2 < String.length s)%nat → piece (x +:+ s) = [Normal (x +:+ s)].
Proof.
  intros Hs. unfold piece. assert (2 < String.length (x +:+ s))%nat by (rewrite length_string_app; lia).
  rewrite !bool_decide_eq_false_2; [done|..]; intros E; rewrite E in *; cbn in *; lia.
Qed.

(** The components of the parent of an absolute path. *)
Lemma split_join l : l ≠ [] → Forall (λ s, has_char slash s = false) l → split_on slash (join "/" l) = l.
Proof.
  intros Hl Hs. induction l as [|s l IH]; [done|]. apply Forall_cons in Hs as [Hs Hr].
  destruct l as [|s' l]; [by apply split_on_none|].
  change (join "/" (s :: s' :: l)) with (s +:+ String slash (join "/" (s' :: l))).
  rewrite split_on_app, IH by done. by rewrite split_on_none.
Qed.
Lemma drop_skipped_split l : ∃ k, l = k ++ drop_skipped l ∧ pieces k = [] ∧
  match drop_skipped l with s :: _ => skipped s = false | [] => True end.
Proof.
  induction l as [|s l (k & E & Hk & Hh)]; [by exists []|]. cbn [drop_skipped]. destruct (skipped s) eqn:Es.
  - exists (s :: k). rewrite <- app_comm_cons, <- E. split_and!; [done| |done]. cbn. change (k ≫= piece) with (pieces k).
    rewrite Hk. unfold skipped in Es. unfold piece. apply orb_true_iff in Es as [Es|Es]; rewrite Es; [done|].
    by destruct (bool_decide (s = ""%string)).
  - by exists [].
Qed.
Lemma skipped_false s : skipped s = false → ∃ c, piece s = [c].
Proof.
  unfold skipped, piece. intros [-> ->]%orb_false_iff. destruct (bool_decide _); by eexists.
Qed.
Lemma pieces_reverse l : pieces (reverse l) = reverse (pieces l).
Proof.
  induction l as [|s l IH]; [done|]. rewrite reverse_cons, pieces_app, IH.
  change (pieces (s :: l)) with (piece s ++ pieces l). rewrite reverse_app. f_equal.
  unfold pieces, piece. cbn. rewrite app_nil_r. by repeat case_bool_decide.
Qed.
Lemma pieces_without_last l : pieces (without_last l) = removelast (pieces l).
Proof.
  unfold without_last. rewrite pieces_reverse.
  destruct (drop_skipped_split (reverse l)) as (k & E & Hk & Hh).
  assert (pieces l = reverse (pieces (drop_skipped (reverse l)))) as ->.
  { rewrite <- (reverse_involutive l) at 1. rewrite pieces_reverse. f_equal. rewrite E at 1. by rewrite pieces_app, Hk. }
  destruct (drop_skipped (reverse l)) as [|s r]; [done|]. cbn [tail]. destruct (skipped_false s Hh) as [c Hc].
  assert (pieces (s :: r) = c :: pieces r) as -> by (cbn; by rewrite Hc).
  rewrite reverse_cons, removelast_last. f_equal.
  destruct (drop_skipped_split r) as (k' & E' & Hk' & _). rewrite E' at 2. by rewrite pieces_app, Hk'.
Qed.
Lemma drop_skipped_sub P l : Forall P l → Forall P (drop_skipped l).
Proof. induction 1 as [|s l Hs Hl IH]; [constructor|]. cbn. destruct (skipped s); [done|by constructor]. Qed.
Lemma components_parent r pp :
  parent (String slash r) = Some pp → components pp = RootDir :: removelast (pieces (split_on slash r)).
Proof.
  unfold parent. cbn [split_on]. rewrite Ascii.eqb_refl. unfold is_absolute. rewrite starts_with_cons.
  change (Ascii.eqb "/" slash) with true. cbv iota. destruct (pieces (split_on slash r)) as [|c l] eqn:E; [done|].
  intros [= <-]. rewrite components_abs, <- E, <- pieces_without_last. f_equal.
  destruct (without_last (split_on slash r)) as [|s l'] eqn:El; [done|]. rewrite <- El, split_join; [done|by rewrite El|].
  unfold without_last. apply Forall_reverse, drop_skipped_sub, Forall_tail, drop_skipped_sub, Forall_reverse, split_on_no_char.
Qed.
