(* ===== verification/FileIo.v ===== *)
(** * Files and the messages of a file transfer

    The messages of the file part of libs/core-common/protos/message.proto, and
    the questions a transfer asks: the calls of [std::fs] and [tokio::fs], each
    of which may fail, and the sending of a message.  A path is a string
    ([UnixPath]); an open file is known by a number. *)
From Stdlib Require Import Ascii.
From S2P Require Import Prelude Text TextFacts UnixPath Programs.
Local Open Scope Z_scope.

(** ** Messages *)

Inductive FileType : Type := Dir | DirLink | DirDrive | File | FileLink.
#[export] Instance FileType_eq_dec : EqDecision FileType.
Proof. solve_decision. Defined.
(** The number on the wire; another number is of no type. *)
Definition FileType_value (t : FileType) : Z :=
  match t with Dir => 0 | DirLink => 2 | DirDrive => 3 | File => 4 | FileLink => 5 end.
Definition FileType_enum (n : Z) : option FileType :=
  match n with 0 => Some Dir | 2 => Some DirLink | 3 => Some DirDrive | 4 => Some File | 5 => Some FileLink | _ => None end.

Record FileEntry : Type := mkFileEntry {
  fe_entry_type : Z;
  fe_name : string;
  fe_is_hidden : bool;
  fe_size : Z;
  fe_modified_time : Z;
}.
Record FileDirectory : Type := mkFileDirectory { fd_id : Z; fd_path : string; fd_entries : list FileEntry }.
Record FileTransferDigest : Type := mkFileTransferDigest {
  dg_id : Z;
  dg_file_num : Z;
  dg_last_modified : Z;
  dg_file_size : Z;
  dg_is_upload : bool;
  dg_is_identical : bool;
  dg_transferred_size : Z;
  dg_is_resume : bool;
}.
Record FileTransferBlock : Type := mkFileTransferBlock {
  bl_id : Z;
  bl_file_num : Z;
  bl_data : bytes;
  bl_compressed : bool;
  bl_blk_id : Z;
}.
Record FileTransferError : Type := mkFileTransferError { er_id : Z; er_error : string; er_file_num : Z }.
Record FileTransferDone : Type := mkFileTransferDone { dn_id : Z; dn_file_num : Z }.
Inductive SendFileType : Type := GenericFile | PrinterFile.
Definition SendFileType_value (t : SendFileType) : Z := match t with GenericFile => 0 | PrinterFile => 1 end.
Definition SendFileType_enum (n : Z) : option SendFileType :=
  match n with 0 => Some GenericFile | 1 => Some PrinterFile | _ => None end.
Record FileTransferSendRequest : Type := mkFileTransferSendRequest {
  sr_id : Z;
  sr_path : string;
  sr_include_hidden : bool;
  sr_file_num : Z;
  sr_file_type : Z;
}.
Inductive ConfirmUnion : Type := Skip (b : bool) | OffsetBlk (n : Z).
Record FileTransferSendConfirmRequest : Type := mkFileTransferSendConfirmRequest {
  cf_id : Z;
  cf_file_num : Z;
  cf_union : option ConfirmUnion;
}.
Record FileTransferReceiveRequest : Type := mkFileTransferReceiveRequest {
  rv_id : Z;
  rv_path : string;
  rv_files : list FileEntry;
  rv_file_num : Z;
  rv_total_size : Z;
}.
(** A [Message] whose union is a [FileResponse] or a [FileAction], as far as a
    transfer makes them. *)
Inductive FileMessage : Type :=
| RespDir (d : FileDirectory)
| RespBlock (b : FileTransferBlock)
| RespError (e : FileTransferError)
| RespDone (d : FileTransferDone)
| RespDigest (d : FileTransferDigest)
| ActSend (r : FileTransferSendRequest)
| ActReceive (r : FileTransferReceiveRequest)
| ActSendConfirm (r : FileTransferSendConfirmRequest).

(** ** Questions *)

(** [std::io::ErrorKind] as far as it is looked at. *)
Inductive IoError : Type := NotFound | OtherError.
Inductive NodeKind : Type := RegularFile | Directory | SymbolicLink.
#[export] Instance NodeKind_eq_dec : EqDecision NodeKind.
Proof. solve_decision. Defined.
(** [Metadata]: the time of the last change in nanoseconds since 1970, where
    the file system knows one. *)
Record Metadata : Type := mkMetadata { md_kind : NodeKind; md_len : Z; md_modified : option Z }.

Inductive FsIo : Type → Type :=
| ReadDirNames (p : string) : FsIo (option (list string))
| LinkMetadata (p : string) : FsIo (result IoError Metadata)
| PathMetadata (p : string) : FsIo (option Metadata)
(** [File::create], [File::open], [OpenOptions] with create and write *)
| CreateFile (p : string) : FsIo (option nat)
| OpenFile (p : string) : FsIo (option nat)
| OpenToWrite (p : string) : FsIo (option nat)
| ReadSome (h : nat) (n : Z) : FsIo (option bytes)
| WriteFile (h : nat) (b : bytes) : FsIo bool
| SeekFile (h : nat) (pos : Z) : FsIo bool
| SyncFile (h : nat) : FsIo bool
| FileMetadata (h : nat) : FsIo (option Metadata)
(** [fs::write], [fs::read_to_string] *)
| WriteWhole (p : string) (b : bytes) : FsIo bool
| ReadWhole (p : string) : FsIo (option bytes)
| RemoveFile (p : string) : FsIo bool
| RemoveDir (p : string) : FsIo bool
| RenameFile (a b : string) : FsIo bool
| CreateDirAll (p : string) : FsIo bool
| SetMtime (p : string) (secs : Z) : FsIo bool
| SendMessage (m : FileMessage) : FsIo bool.

Abbreviation FileProg A := (Prog FsIo (result Failure A)).

(** ** What the standard library makes of them *)

Definition kind_of (m : option Metadata) (k : NodeKind) : bool :=
  match m with Some m => bool_decide (md_kind m = k) | None => false end.
Definition path_exists (p : string) : Prog FsIo bool := m ← ask (PathMetadata p); mret (bool_decide (is_Some m)).
Definition is_dir (p : string) : Prog FsIo bool := m ← ask (PathMetadata p); mret (kind_of m Directory).
Definition is_file (p : string) : Prog FsIo bool := m ← ask (PathMetadata p); mret (kind_of m RegularFile).

(** [duration_since(UNIX_EPOCH)] and its whole seconds. *)
Definition since_epoch (m : Metadata) : option Z := t ← md_modified m; if 0 <=? t then Some t else None.
Definition as_secs (t : Z) : Z := t / 10 ^ 9.
