(* ===== verification/Transfer.v ===== *)
(** * File transfers: [libs/core-common/src/fs.rs]

    Directories, the checks of the names a peer sends, and [TransferJob]: the
    reading side sends its files in blocks, the writing side keeps each in a
    file [.download] beside a [.digest] until it is complete; overwriting is
    asked for, and a transfer that broke off is resumed.  Programs ask [FsIo];
    the methods of a job also pass its state along ([Job]).  Paths are those of
    Unix; the names are checked as on either platform.  Theorems are in
    [TransferNames] and [TransferSpec]. *)
From Stdlib Require Import Ascii.
From S2P Require Import Prelude Text TextFacts HostText JsonTree UnixPath Programs FileIo.
Local Open Scope Z_scope.

(** [x as usize] of an [i32], and the indexing of a vector by it. *)
Definition as_usize (n : Z) : Z := wrap_u 64 n.
Definition at_index {A} (l : list A) (n : Z) : option A := if n <? zlen l then l !! Z.to_nat n else None.
(** [x as i64] of a [u64]; [as_i32] for [usize as i32]. *)
Definition as_i64 (n : Z) : Z := (n + 2 ^ 63) mod 2 ^ 64 - 2 ^ 63.

(** The library [zstd]: compression may fail. *)
Class Zstd : Type := { zstd_compress : bytes → option bytes; zstd_decode_all : bytes → option bytes }.
Class ZstdLaws `{Zstd} : Prop := {
  zstd_roundtrip d c : zstd_compress d = Some c → zstd_decode_all c = Some d;
}.
(** [Display] of the errors. *)
Class ErrorText : Type := error_text : Failure → string.

(** ** [compress.rs] *)

Section compress.
Context `{Zstd}.
Definition compress (data : bytes) : bytes := default [] (zstd_compress data).
Definition decompress (data : bytes) : bytes := default [] (zstd_decode_all data).
End compress.

(** ** Directories *)

(** [NEXT_JOB_ID]: the number given out, and the next. *)
Definition get_next_job_id (next : Z) : Z * Z := (next, as_i32 (next + 1)).
Definition update_next_job_id (id next : Z) : Z := id.

Definition get_file_name (p : string) : string := default ""%string (file_name p ≫= to_str).
Definition get_string (p : string) : string := default ""%string (to_str p).

Definition mtime_secs (m : Metadata) : Z := default 0 (as_secs <$> since_epoch m).

(** One entry of a directory. *)
Definition dir_entry (path : string) (include_hidden : bool) (os_name : string) : Prog FsIo (option FileEntry) :=
  let p := path_join path os_name in
  let name := get_file_name p in
  if bool_decide (name = ""%string) then mret None else
  m ← ask (LinkMetadata p);
  match m with
  | Err _ => mret None
  | Ok meta =>
    let is_hidden := starts_with "." name in
    if is_hidden && negb include_hidden then mret None else
    d ← is_dir p;
    let link := bool_decide (md_kind meta = SymbolicLink) in
    let '(entry_type, size) :=
      if d : bool then (if link then DirLink else Dir, 0)
      else if link then (FileLink, 0) else (File, md_len meta) in
    mret (Some (mkFileEntry (FileType_value entry_type) (get_file_name p) is_hidden size (mtime_secs meta)))
  end.

(** The results of a program for every element, in order. *)
Fixpoint collect {A B} (f : A → Prog FsIo (list B)) (l : list A) : Prog FsIo (list B) :=
  match l with [] => mret [] | a :: l => x ← f a; y ← collect f l; mret (x ++ y) end.

Definition read_dir (path : string) (include_hidden : bool) : FileProg FileDirectory :=
  names ←? or_else Io (ask (ReadDirNames path));
  entries ← collect (λ n, e ← dir_entry path include_hidden n; mret (option_list e)) names;
  mret (Ok (mkFileDirectory 0 (get_string path) entries)).

Definition ok_or_nil {A} (r : result Failure (list A)) : list A := match r with Ok l => l | Err _ => [] end.
Definition set_name (n : string) (e : FileEntry) : FileEntry :=
  mkFileEntry (fe_entry_type e) n (fe_is_hidden e) (fe_size e) (fe_modified_time e).

(** The files below a path, named relative to it; a directory that cannot be
    read below it counts as empty. *)
Fixpoint read_dir_recursive (fuel : nat) (path prefix : string) (include_hidden : bool) : FileProg (list FileEntry) :=
  match fuel with
  | O => Stop OutOfFuel
  | S fuel =>
    d ← is_dir path;
    if d : bool then
      fd ←? read_dir path include_hidden;
      files ← collect (λ e,
        match FileType_enum (fe_entry_type e) with
        | Some File => mret [set_name (get_string (path_join prefix (fe_name e))) e]
        | Some Dir =>
          r ← read_dir_recursive fuel (path_join path (fe_name e)) (path_join prefix (fe_name e)) include_hidden;
          mret (ok_or_nil r)
        | _ => mret []
        end) (fd_entries fd);
      mret (Ok files)
    else
      f ← is_file path;
      if f : bool then
        m ← ask (PathMetadata path);
        let '(size, modified_time) := match m with Some m => (md_len m, mtime_secs m) | None => (0, 0) end in
        mret (Ok [mkFileEntry (FileType_value File) "" false size modified_time])
      else mret (Err (Failed "Not exists"))
  end.
Definition get_recursive_files (fuel : nat) (path : string) (include_hidden : bool) : FileProg (list FileEntry) :=
  read_dir_recursive fuel path "" include_hidden.

Fixpoint read_empty_dirs_recursive (fuel : nat) (path prefix : string) (include_hidden : bool) : FileProg (list FileDirectory) :=
  match fuel with
  | O => Stop OutOfFuel
  | S fuel =>
    d ← is_dir path;
    if d : bool then
      fd ←? read_dir path include_hidden;
      match fd_entries fd with
      | [] => mret (Ok [fd])
      | entries =>
        dirs ← collect (λ e,
          match FileType_enum (fe_entry_type e) with
          | Some Dir =>
            r ← read_empty_dirs_recursive fuel (path_join path (fe_name e)) (path_join prefix (fe_name e)) include_hidden;
            mret (ok_or_nil r)
          | _ => mret []
          end) entries;
        mret (Ok dirs)
      end
    else
      f ← is_file path;
      mret (if f : bool then Ok [] else Err (Failed "Not exists"))
  end.
Definition get_empty_dirs_recursive (fuel : nat) (path : string) (include_hidden : bool) : FileProg (list FileDirectory) :=
  read_empty_dirs_recursive fuel path "" include_hidden.

Definition is_file_exists (file_path : string) : Prog FsIo bool := path_exists file_path.
Definition can_enable_overwrite_detection (version : Z) : bool := get_version_number "1.1.10" <=? version.

(** Directories that are empty but for directories and links. *)
Fixpoint remove_all_empty_dir (fuel : nat) (path : string) : FileProg unit :=
  match fuel with
  | O => Stop OutOfFuel
  | S fuel =>
    fd ←? read_dir path true;
    collect (λ e,
      match FileType_enum (fe_entry_type e) with
      | Some Dir => remove_all_empty_dir fuel (path_join path (fe_name e));; mret (@nil unit)
      | Some DirLink | Some FileLink => ask (RemoveFile (path_join path (fe_name e)));; mret []
      | _ => mret []
      end) (fd_entries fd);;
    ask (RemoveDir path);;
    mret (Ok tt)
  end.

(** ** Names *)

Definition get_ext (name : string) : string := match rcut "." name with Some (_, ext) => ext | None => "" end.
Definition is_compressed_file (name : string) : bool :=
  let compressed_exts := ["xz"; "gz"; "zip"; "7z"; "rar"; "bz2"; "tgz"; "png"; "jpg"]%string in
  bool_decide (get_ext name ∈ compressed_exts).

Definition NUL : ascii := chr 0.
Definition backslash : ascii := chr 92.
Definition ascii_alphabetic (c : ascii) : bool :=
  ((65 <=? code c) && (code c <=? 90)) || ((97 <=? code c) && (code c <=? 122)).
Definition drive_prefix (name : string) : bool :=
  match name with String a (String b _) => ascii_alphabetic a && bool_decide (b = ":"%char) | _ => false end.
(** The pieces between separators. *)
Definition name_parts (windows : bool) (name : string) : list string :=
  split_on slash (if windows then map_chars (λ c, if bool_decide (c = backslash) then slash else c) name else name).

Definition validate_file_name_no_traversal (windows : bool) (name : string) : result Failure unit :=
  if has_char NUL name then Err (Failed "file name contains null bytes") else
  if existsb (λ s, bool_decide (s = ".."%string)) (List.filter (λ s, negb (bool_decide (s = ""%string))) (name_parts windows name))
  then Err (Failed "path traversal detected in file name") else
  if windows then
    if drive_prefix name then Err (Failed "absolute path detected in file name") else
    if starts_with "/" name || starts_with (String backslash "") name then Err (Failed "absolute path detected in file name") else Ok tt
  else if starts_with "/" name then Err (Failed "absolute path detected in file name") else Ok tt.

Fixpoint validate_names (windows : bool) (files : list FileEntry) : result Failure unit :=
  match files with
  | [] => Ok tt
  | file :: files =>
    if bool_decide (fe_name file = ""%string) then Err (Failed "empty file name in multi-file transfer") else
    match validate_file_name_no_traversal windows (fe_name file) with
    | Err e => Err e
    | Ok _ => validate_names windows files
    end
  end.
Definition validate_transfer_file_names (windows : bool) (files : list FileEntry) : result Failure unit :=
  match files with
  | [file] => if bool_decide (fe_name file = ""%string) then Ok tt else validate_names windows files
  | _ => validate_names windows files
  end.

Definition validate_fs_path_argument (path arg_name : string) : result Failure unit :=
  if bool_decide (path = ""%string) then Err (Failed (arg_name +:+ " cannot be empty"))
  else if has_char NUL path then Err (Failed (arg_name +:+ " contains null bytes")) else Ok tt.

(** No component of the name is a link below [base], as far as it exists. *)
Fixpoint check_components (current : string) (l : list Component) : FileProg unit :=
  match l with
  | [] => mret (Ok tt)
  | Normal seg :: l =>
    let current := path_join current seg in
    m ← ask (LinkMetadata current);
    match m with
    | Ok meta =>
      if bool_decide (md_kind meta = SymbolicLink) then mret (Err (Failed "symlink path component is not allowed"))
      else check_components current l
    | Err NotFound => check_components current l
    | Err OtherError => mret (Err (Failed "failed to validate path component"))
    end
  | CurDir :: l => check_components current l
  | _ => mret (Err (Failed "invalid file name component"))
  end.
Definition validate_no_symlink_components (base name : string) : FileProg unit :=
  if bool_decide (name = ""%string) then mret (Ok tt) else check_components base (components name).

(** [TransferJob::join] *)
Definition join_name (p name : string) : string := if bool_decide (name = ""%string) then p else path_join p name.
Definition join_validated_path (base name : string) : FileProg string :=
  match validate_file_name_no_traversal false name with
  | Err e => mret (Err e)
  | Ok _ => do? validate_no_symlink_components base name; mret (Ok (join_name base name))
  end.

(** [remove_file], [create_dir] and [rename_file] of the two sides. *)
Definition remove_file (file : string) : FileProg unit :=
  match validate_fs_path_argument file "file path" with
  | Err e => mret (Err e)
  | Ok _ => ensure Io (ask (RemoveFile file))
  end.
Definition create_dir (dir : string) : FileProg unit :=
  match validate_fs_path_argument dir "directory path" with
  | Err e => mret (Err e)
  | Ok _ => ensure Io (ask (CreateDirAll dir))
  end.
Definition rename_file (path new_name : string) : FileProg unit :=
  match validate_fs_path_argument path "path" with
  | Err e => mret (Err e)
  | Ok _ =>
    if bool_decide (new_name = ""%string) then mret (Err (Failed "new file name cannot be empty")) else
    match validate_file_name_no_traversal false new_name with
    | Err e => mret (Err e)
    | Ok _ =>
      x ← path_exists path;
      if x : bool then
        match parent path with
        | None => mret (Err (Failed "Parent directoy not exists"))
        | Some dir => ensure Io (ask (RenameFile path (path_join dir new_name)))
        end
      else mret (Err (Failed "not exists"))
    end
  end.

Definition transform_windows_path (entries : list FileEntry) : list FileEntry :=
  (λ e, set_name (map_chars (λ c, if bool_decide (c = backslash) then slash else c) (fe_name e)) e) <$> entries.

(** ** Jobs *)

Inductive JobType : Type := Generic | Printer.
#[export] Instance JobType_eq_dec : EqDecision JobType.
Proof. solve_decision. Defined.
Definition JobType_value (t : JobType) : Z := match t with Generic => 0 | Printer => 1 end.
Definition JobType_of (n : Z) : JobType := match n with 1 => Printer | _ => Generic end.
Definition JobType_to_proto (t : JobType) : SendFileType := match t with Generic => GenericFile | Printer => PrinterFile end.
Definition JobType_from_proto (t : Z) : JobType :=
  match SendFileType_enum t with Some PrinterFile => Printer | _ => Generic end.

(** [Cursor<Vec<u8>>]: reading takes what there is; writing replaces and extends.
    The buffers around it are not seen, since a job only reads or only writes
    and flushes at the end. *)
Record Cursor : Type := mkCursor { cu_data : bytes; cu_pos : nat }.
Definition cursor_read (n : Z) (c : Cursor) : bytes * Cursor :=
  let b := take (Z.to_nat n) (drop (cu_pos c) (cu_data c)) in
  (b, mkCursor (cu_data c) (cu_pos c + length b)).
Definition cursor_write (b : bytes) (c : Cursor) : Cursor :=
  let before := take (cu_pos c) (cu_data c) in
  mkCursor (before ++ replicate (cu_pos c - length before) 0 ++ b ++ drop (cu_pos c + length b) (cu_data c))
    (cu_pos c + length b).

Inductive DataSource : Type := FilePath (p : string) | MemoryCursor (c : Cursor).
Definition to_meta (s : DataSource) : string := match s with FilePath p => to_string_lossy p | MemoryCursor _ => "" end.
Inductive DataStream : Type := FileStream (h : nat) | BufStream (c : Cursor).

Record FileDigest : Type := mkFileDigest { di_size : Z; di_modified : Z }.
Record TransferJob : Type := mkTransferJob {
  tj_id : Z;
  tj_type : JobType;
  tj_remote : string;
  tj_data_source : DataSource;
  tj_show_hidden : bool;
  tj_is_remote : bool;
  tj_is_last_job : bool;
  tj_is_resume : bool;
  tj_file_num : Z;
  tj_files : list FileEntry;
  tj_conn_id : Z;
  tj_data_stream : option DataStream;
  tj_total_size : Z;
  tj_finished_size : Z;
  tj_transferred : Z;
  tj_enable_overwrite_detection : bool;
  tj_file_confirmed : bool;
  tj_file_skipped : bool;
  tj_file_is_waiting : bool;
  tj_default_overwrite_strategy : option bool;
  tj_digest : FileDigest;
}.
Definition with_data_source (v : DataSource) (j : TransferJob) : TransferJob :=
  mkTransferJob (tj_id j) (tj_type j) (tj_remote j) v (tj_show_hidden j) (tj_is_remote j) (tj_is_last_job j)
    (tj_is_resume j) (tj_file_num j) (tj_files j) (tj_conn_id j) (tj_data_stream j) (tj_total_size j)
    (tj_finished_size j) (tj_transferred j) (tj_enable_overwrite_detection j) (tj_file_confirmed j)
    (tj_file_skipped j) (tj_file_is_waiting j) (tj_default_overwrite_strategy j) (tj_digest j).
Definition with_file_num (v : Z) (j : TransferJob) : TransferJob :=
  mkTransferJob (tj_id j) (tj_type j) (tj_remote j) (tj_data_source j) (tj_show_hidden j) (tj_is_remote j)
    (tj_is_last_job j) (tj_is_resume j) v (tj_files j) (tj_conn_id j) (tj_data_stream j) (tj_total_size j)
    (tj_finished_size j) (tj_transferred j) (tj_enable_overwrite_detection j) (tj_file_confirmed j)
    (tj_file_skipped j) (tj_file_is_waiting j) (tj_default_overwrite_strategy j) (tj_digest j).
Definition with_files (v : list FileEntry) (j : TransferJob) : TransferJob :=
  mkTransferJob (tj_id j) (tj_type j) (tj_remote j) (tj_data_source j) (tj_show_hidden j) (tj_is_remote j)
    (tj_is_last_job j) (tj_is_resume j) (tj_file_num j) v (tj_conn_id j) (tj_data_stream j) (tj_total_size j)
    (tj_finished_size j) (tj_transferred j) (tj_enable_overwrite_detection j) (tj_file_confirmed j)
    (tj_file_skipped j) (tj_file_is_waiting j) (tj_default_overwrite_strategy j) (tj_digest j).
Definition with_data_stream (v : option DataStream) (j : TransferJob) : TransferJob :=
  mkTransferJob (tj_id j) (tj_type j) (tj_remote j) (tj_data_source j) (tj_show_hidden j) (tj_is_remote j)
    (tj_is_last_job j) (tj_is_resume j) (tj_file_num j) (tj_files j) (tj_conn_id j) v (tj_total_size j)
    (tj_finished_size j) (tj_transferred j) (tj_enable_overwrite_detection j) (tj_file_confirmed j)
    (tj_file_skipped j) (tj_file_is_waiting j) (tj_default_overwrite_strategy j) (tj_digest j).
Definition with_total_size (v : Z) (j : TransferJob) : TransferJob :=
  mkTransferJob (tj_id j) (tj_type j) (tj_remote j) (tj_data_source j) (tj_show_hidden j) (tj_is_remote j)
    (tj_is_last_job j) (tj_is_resume j) (tj_file_num j) (tj_files j) (tj_conn_id j) (tj_data_stream j) v
    (tj_finished_size j) (tj_transferred j) (tj_enable_overwrite_detection j) (tj_file_confirmed j)
    (tj_file_skipped j) (tj_file_is_waiting j) (tj_default_overwrite_strategy j) (tj_digest j).
Definition with_finished_size (v : Z) (j : TransferJob) : TransferJob :=
  mkTransferJob (tj_id j) (tj_type j) (tj_remote j) (tj_data_source j) (tj_show_hidden j) (tj_is_remote j)
    (tj_is_last_job j) (tj_is_resume j) (tj_file_num j) (tj_files j) (tj_conn_id j) (tj_data_stream j)
    (tj_total_size j) v (tj_transferred j) (tj_enable_overwrite_detection j) (tj_file_confirmed j)
    (tj_file_skipped j) (tj_file_is_waiting j) (tj_default_overwrite_strategy j) (tj_digest j).
Definition with_transferred (v : Z) (j : TransferJob) : TransferJob :=
  mkTransferJob (tj_id j) (tj_type j) (tj_remote j) (tj_data_source j) (tj_show_hidden j) (tj_is_remote j)
    (tj_is_last_job j) (tj_is_resume j) (tj_file_num j) (tj_files j) (tj_conn_id j) (tj_data_stream j)
    (tj_total_size j) (tj_finished_size j) v (tj_enable_overwrite_detection j) (tj_file_confirmed j)
    (tj_file_skipped j) (tj_file_is_waiting j) (tj_default_overwrite_strategy j) (tj_digest j).
Definition with_file_confirmed (v : bool) (j : TransferJob) : TransferJob :=
  mkTransferJob (tj_id j) (tj_type j) (tj_remote j) (tj_data_source j) (tj_show_hidden j) (tj_is_remote j)
    (tj_is_last_job j) (tj_is_resume j) (tj_file_num j) (tj_files j) (tj_conn_id j) (tj_data_stream j)
    (tj_total_size j) (tj_finished_size j) (tj_transferred j) (tj_enable_overwrite_detection j) v
    (tj_file_skipped j) (tj_file_is_waiting j) (tj_default_overwrite_strategy j) (tj_digest j).
Definition with_file_skipped (v : bool) (j : TransferJob) : TransferJob :=
  mkTransferJob (tj_id j) (tj_type j) (tj_remote j) (tj_data_source j) (tj_show_hidden j) (tj_is_remote j)
    (tj_is_last_job j) (tj_is_resume j) (tj_file_num j) (tj_files j) (tj_conn_id j) (tj_data_stream j)
    (tj_total_size j) (tj_finished_size j) (tj_transferred j) (tj_enable_overwrite_detection j)
    (tj_file_confirmed j) v (tj_file_is_waiting j) (tj_default_overwrite_strategy j) (tj_digest j).
Definition with_file_is_waiting (v : bool) (j : TransferJob) : TransferJob :=
  mkTransferJob (tj_id j) (tj_type j) (tj_remote j) (tj_data_source j) (tj_show_hidden j) (tj_is_remote j)
    (tj_is_last_job j) (tj_is_resume j) (tj_file_num j) (tj_files j) (tj_conn_id j) (tj_data_stream j)
    (tj_total_size j) (tj_finished_size j) (tj_transferred j) (tj_enable_overwrite_detection j)
    (tj_file_confirmed j) (tj_file_skipped j) v (tj_default_overwrite_strategy j) (tj_digest j).
Definition with_default_overwrite_strategy (v : option bool) (j : TransferJob) : TransferJob :=
  mkTransferJob (tj_id j) (tj_type j) (tj_remote j) (tj_data_source j) (tj_show_hidden j) (tj_is_remote j)
    (tj_is_last_job j) (tj_is_resume j) (tj_file_num j) (tj_files j) (tj_conn_id j) (tj_data_stream j)
    (tj_total_size j) (tj_finished_size j) (tj_transferred j) (tj_enable_overwrite_detection j)
    (tj_file_confirmed j) (tj_file_skipped j) (tj_file_is_waiting j) v (tj_digest j).
Definition with_digest (v : FileDigest) (j : TransferJob) : TransferJob :=
  mkTransferJob (tj_id j) (tj_type j) (tj_remote j) (tj_data_source j) (tj_show_hidden j) (tj_is_remote j)
    (tj_is_last_job j) (tj_is_resume j) (tj_file_num j) (tj_files j) (tj_conn_id j) (tj_data_stream j)
    (tj_total_size j) (tj_finished_size j) (tj_transferred j) (tj_enable_overwrite_detection j)
    (tj_file_confirmed j) (tj_file_skipped j) (tj_file_is_waiting j) (tj_default_overwrite_strategy j) v.
Definition with_is_last_job (v : bool) (j : TransferJob) : TransferJob :=
  mkTransferJob (tj_id j) (tj_type j) (tj_remote j) (tj_data_source j) (tj_show_hidden j) (tj_is_remote j) v
    (tj_is_resume j) (tj_file_num j) (tj_files j) (tj_conn_id j) (tj_data_stream j) (tj_total_size j)
    (tj_finished_size j) (tj_transferred j) (tj_enable_overwrite_detection j) (tj_file_confirmed j)
    (tj_file_skipped j) (tj_file_is_waiting j) (tj_default_overwrite_strategy j) (tj_digest j).
Definition with_is_resume (v : bool) (j : TransferJob) : TransferJob :=
  mkTransferJob (tj_id j) (tj_type j) (tj_remote j) (tj_data_source j) (tj_show_hidden j) (tj_is_remote j)
    (tj_is_last_job j) v (tj_file_num j) (tj_files j) (tj_conn_id j) (tj_data_stream j) (tj_total_size j)
    (tj_finished_size j) (tj_transferred j) (tj_enable_overwrite_detection j) (tj_file_confirmed j)
    (tj_file_skipped j) (tj_file_is_waiting j) (tj_default_overwrite_strategy j) (tj_digest j).
Definition with_conn_id (v : Z) (j : TransferJob) : TransferJob :=
  mkTransferJob (tj_id j) (tj_type j) (tj_remote j) (tj_data_source j) (tj_show_hidden j) (tj_is_remote j)
    (tj_is_last_job j) (tj_is_resume j) (tj_file_num j) (tj_files j) v (tj_data_stream j) (tj_total_size j)
    (tj_finished_size j) (tj_transferred j) (tj_enable_overwrite_detection j) (tj_file_confirmed j)
    (tj_file_skipped j) (tj_file_is_waiting j) (tj_default_overwrite_strategy j) (tj_digest j).

(** A method of a job: its state is passed along, also when it fails. *)
Definition Job (A : Type) : Type := TransferJob → Prog FsIo (TransferJob * A).
Definition job_ret {A} (a : A) : Job A := λ j, mret (j, a).
Definition job_bind {A B} (f : A → Job B) (p : Job A) : Job B := λ j, '(j, a) ← p j; f a j.
#[export] Instance Job_ret : MRet Job := λ A, job_ret.
#[export] Instance Job_bind : MBind Job := λ A B, job_bind.
Definition self : Job TransferJob := λ j, mret (j, j).
Definition modify_self (f : TransferJob → TransferJob) : Job unit := λ j, mret (f j, tt).
Definition io {A} (p : Prog FsIo A) : Job A := λ j, a ← p; mret (j, a).
Definition job_try {A B} (p : Job (result Failure A)) (k : A → Job (result Failure B)) : Job (result Failure B) :=
  r ← p; match r with Ok a => k a | Err e => mret (Err e) end.
Notation "x ←! p ; k" := (job_try p (λ x, k))
  (at level 20, p at level 100, k at level 200, format "x  ←!  p ;  '/' k").
Notation "'do!' p ; k" := (job_try p (λ _, k)) (at level 20, p at level 100, k at level 200).

Definition stream_read (n : Z) : Job (option bytes) :=
  j ← self;
  match tj_data_stream j with
  | Some (FileStream h) => io (ask (ReadSome h n))
  | Some (BufStream c) =>
    let '(b, c) := cursor_read n c in modify_self (with_data_stream (Some (BufStream c)));; mret (Some b)
  | None => mret None
  end.
Definition stream_write (missing : string) (b : bytes) : Job (result Failure unit) :=
  j ← self;
  match tj_data_stream j with
  | Some (FileStream h) => io (ensure Io (ask (WriteFile h b)))
  | Some (BufStream c) => modify_self (with_data_stream (Some (BufStream (cursor_write b c))));; mret (Ok tt)
  | None => mret (Err (Failed missing))
  end.

(** ** New jobs *)

Definition new_write (id : Z) (type : JobType) (remote : string) (data_source : DataSource) (file_num : Z)
    (show_hidden is_remote enable_overwrite_detection : bool) : TransferJob :=
  mkTransferJob id type remote data_source show_hidden is_remote false false file_num [] 0 None 0 0 0
    enable_overwrite_detection false false false None (mkFileDigest 0 0).

(** [iter().sum()] of [u64] *)
Definition sum_sizes (files : list FileEntry) : Z := foldl (λ n e, wrap_u 64 (n + fe_size e)) 0 files.

Fixpoint check_links (base : string) (files : list FileEntry) : FileProg unit :=
  match files with
  | [] => mret (Ok tt)
  | file :: files => do? validate_no_symlink_components base (fe_name file); check_links base files
  end.
Definition set_files (files : list FileEntry) : Job (result Failure unit) :=
  do! mret (validate_transfer_file_names false files);
  j ← self;
  do! (match tj_data_source j with FilePath base => io (check_links base files) | MemoryCursor _ => mret (Ok tt) end);
  modify_self (λ j, with_files files (with_total_size (sum_sizes files) j));;
  mret (Ok tt).

Definition new_read (fuel : nat) (id : Z) (type : JobType) (remote : string) (data_source : DataSource) (file_num : Z)
    (show_hidden is_remote enable_overwrite_detection : bool) : FileProg TransferJob :=
  fs ←? (match data_source with
         | FilePath p =>
           match to_str p with
           | None => mret (Err (Failed "Invalid path"))
           | Some p => files ←? get_recursive_files fuel p show_hidden; mret (Ok (files, sum_sizes files))
           end
         | MemoryCursor c => mret (Ok ([], zlen (cu_data c)))
         end);
  mret (Ok (with_total_size fs.2 (with_files fs.1
    (new_write id type remote data_source file_num show_hidden is_remote enable_overwrite_detection)))).

(** What was written to memory. *)
Definition get_buf_data (j : TransferJob) : option bytes :=
  match tj_data_stream j with Some (BufStream c) => Some (cu_data c) | _ => None end.

Definition set_digest (size modified : Z) : TransferJob → TransferJob := with_digest (mkFileDigest size modified).
Definition set_finished_size_on_resume (j : TransferJob) : TransferJob :=
  if tj_is_resume j && (0 <? tj_file_num j)
  then with_finished_size (sum_sizes (take (Z.to_nat (tj_file_num j)) (tj_files j))) j else j.

(** ** Confirmation *)

Definition set_overwrite_strategy : option bool → TransferJob → TransferJob := with_default_overwrite_strategy.
Definition set_file_confirmed (b : bool) (j : TransferJob) : TransferJob :=
  with_file_skipped false (with_file_confirmed b j).
Definition set_file_is_waiting : bool → TransferJob → TransferJob := with_file_is_waiting.
Definition job_skipped (j : TransferJob) : bool := tj_file_skipped j && (zlen (tj_files j) =? 1).
Definition job_completed (j : TransferJob) : bool :=
  negb (tj_enable_overwrite_detection j) || (negb (tj_file_confirmed j) && negb (tj_file_is_waiting j)).
Definition job_error (j : TransferJob) : option string := if job_skipped j then Some "skipped"%string else None.
(** The number of the file goes on, without the wrap of [i32]. *)
Definition next_file (j : TransferJob) : TransferJob := with_file_num (tj_file_num j + 1) j.
Definition set_file_skipped (j : TransferJob) : TransferJob :=
  with_file_skipped true (next_file (set_file_is_waiting false (set_file_confirmed false (with_data_stream None j)))).

(** ** The files of a job *)

Definition download_path (p : string) : string := p +:+ ".download".
Definition digest_path (p : string) : string := p +:+ ".digest".

Definition resolve_entry_path (j : TransferJob) (base name : string) : Prog FsIo (option string) :=
  if bool_decide (tj_type j = Generic) then
    r ← join_validated_path base name;
    mret (match r with Ok p => Some p | Err _ => None end)
  else mret (Some (join_name base name)).

(** The path of the current file, for a job over files. *)
Definition current_path (j : TransferJob) : Prog FsIo (option (FileEntry * string)) :=
  if bool_decide (tj_type j = Printer) then mret None else
  match tj_data_source j with
  | FilePath p =>
    match at_index (tj_files j) (as_usize (tj_file_num j)) with
    | Some entry => r ← resolve_entry_path j p (fe_name entry); mret (match r with Some path => Some (entry, path) | None => None end)
    | None => mret None
    end
  | MemoryCursor _ => mret None
  end.

(** The current file is complete. *)
Definition modify_time (j : TransferJob) : Prog FsIo unit :=
  r ← current_path j;
  match r with
  | Some (entry, path) =>
    ask (RemoveFile (digest_path (get_string path)));;
    ask (RenameFile (download_path (get_string path)) path);;
    ask (SetMtime path (as_i64 (fe_modified_time entry)));;
    mret tt
  | None => mret tt
  end.
(** It is given up. *)
Definition remove_download_file (j : TransferJob) : Prog FsIo unit :=
  r ← current_path j;
  match r with
  | Some (_, path) =>
    ask (RemoveFile (download_path (get_string path)));;
    ask (RemoveFile (digest_path (get_string path)));;
    mret tt
  | None => mret tt
  end.

Section transfer.
Context `{Zstd} `{JsonLib} `{ErrorText}.

Definition digest_json (d : FileDigest) : JVal := VObj [("modified", VNum (di_modified d)); ("size", VNum (di_size d))]%string.
Definition dec_u64 : JVal → option Z := dec_int 0 (2 ^ 64 - 1).
Definition dec_digest (v : JVal) : option FileDigest :=
  size ← required dec_u64 "size" v; modified ← required dec_u64 "modified" v; Some (mkFileDigest size modified).

(** ** Writing *)

(** The file of a block is opened anew when it is another one than before. *)
Definition open_for_block (p : string) (block : FileTransferBlock) : Job (result Failure unit) :=
  j ← self;
  match at_index (tj_files j) (as_usize (bl_file_num block)) with
  | None => mret (Err (Failed "Wrong file number"))
  | Some entry =>
    if negb (as_usize (bl_file_num block) =? as_usize (tj_file_num j)) || bool_decide (tj_data_stream j = None) then
      io (modify_time j);;
      do! (match tj_data_stream j with Some (FileStream h) => io (ensure Io (ask (SyncFile h))) | _ => mret (Ok tt) end);
      modify_self (with_file_num (bl_file_num block));;
      paths ←! (if bool_decide (tj_type j = Printer) then mret (Ok (to_string_lossy p, None))
                else
                  path ←! io (join_validated_path p (fe_name entry));
                  io (match parent path with Some pp => ask (CreateDirAll pp);; mret tt | None => mret tt end);;
                  mret (Ok (download_path (get_string path), Some (digest_path (get_string path)))));
      do! (match paths.2 with
           | Some dp => x ← io (path_exists dp); if x : bool then io (ensure Io (ask (RemoveFile dp))) else mret (Ok tt)
           | None => mret (Ok tt)
           end);
      h ←! io (or_else Io (ask (CreateFile paths.1)));
      modify_self (with_data_stream (Some (FileStream h)));;
      match paths.2 with
      | Some dp => io (ask (WriteWhole dp (str_bytes (json_text (digest_json (tj_digest j))))));; mret (Ok tt)
      | None => mret (Ok tt)
      end
    else mret (Ok tt)
  end.

Definition write (block : FileTransferBlock) : Job (result Failure unit) :=
  j ← self;
  if negb (bl_id block =? tj_id j) then mret (Err (Failed "Wrong id")) else
  do! (match tj_data_source j with
       | FilePath p => open_for_block p block
       | MemoryCursor c =>
         if bool_decide (tj_data_stream j = None) then modify_self (with_data_stream (Some (BufStream c)));; mret (Ok tt)
         else mret (Ok tt)
       end);
  let data := if bl_compressed block then decompress (bl_data block) else bl_data block in
  do! stream_write (if bl_compressed block then "data stream is None" else "file is None") data;
  modify_self (λ j, with_transferred (wrap_u 64 (tj_transferred j + zlen (bl_data block)))
                     (with_finished_size (wrap_u 64 (tj_finished_size j + zlen data)) j));;
  mret (Ok tt).

(** ** Reading *)

(** Whether the job is done. *)
Definition open_data_stream : Job (result Failure bool) :=
  j ← self;
  match tj_data_source j with
  | FilePath p =>
    match at_index (tj_files j) (as_usize (tj_file_num j)) with
    | None => modify_self (with_data_stream None);; mret (Ok true)
    | Some entry =>
      if bool_decide (tj_data_stream j = None) then
        f ← io (ask (OpenFile (join_name p (fe_name entry))));
        match f with
        | Some h =>
          modify_self (λ j, set_file_is_waiting false (with_file_confirmed false (with_data_stream (Some (FileStream h)) j)));;
          mret (Ok false)
        | None =>
          modify_self (λ j, set_file_is_waiting false (with_file_confirmed false (next_file j)));;
          mret (Err Io)
        end
      else mret (Ok false)
    end
  | MemoryCursor c =>
    (if bool_decide (tj_data_stream j = None) then
       modify_self (λ j, with_data_stream (Some (BufStream c)) (with_data_source (MemoryCursor (mkCursor [] 0)) j))
     else mret tt);;
    mret (Ok false)
  end.

(** The time of the last change and the size of the file that is open. *)
Definition get_current_digest (j : TransferJob) : FileProg (Z * Z) :=
  match tj_data_stream j with
  | None => mret (Err (Failed "file is None"))
  | Some (BufStream _) => mret (Err (Failed "No digest for buf stream"))
  | Some (FileStream h) =>
    m ←? or_else Io (ask (FileMetadata h));
    mret (match since_epoch m with Some t => Ok (as_secs t, md_len m) | None => Err Io end)
  end.

Definition send_current_digest : Job (result Failure unit) :=
  j ← self;
  d ←! io (get_current_digest j);
  io (ensure Io (ask (SendMessage (RespDigest
    (mkFileTransferDigest (tj_id j) (tj_file_num j) d.1 d.2 false false 0 (tj_is_resume j)))))).

Definition asks_confirmation (j : TransferJob) : bool :=
  bool_decide (tj_type j = Generic) && tj_enable_overwrite_detection j && negb (tj_file_confirmed j) && negb (tj_file_is_waiting j).
Definition init_data_stream : Job (result Failure unit) :=
  done ←! open_data_stream;
  if done : bool then mret (Ok tt) else
  j ← self;
  if asks_confirmation j then
    do! send_current_digest;
    modify_self (set_file_is_waiting true);; mret (Ok tt)
  else mret (Ok tt).
(** The digest is the result instead of a message. *)
Definition init_data_stream_for_cm : Job (result Failure (option (Z * Z))) :=
  done ←! open_data_stream;
  if done : bool then mret (Ok None) else
  j ← self;
  if asks_confirmation j then
    d ←! io (get_current_digest j);
    modify_self (set_file_is_waiting true);; mret (Ok (Some d))
  else mret (Ok None).

Definition BUF_SIZE : Z := 128 * 1024.
(** The stream until [room] bytes are read or it ends; an error goes on with the
    next file. *)
Definition leave_file (j : TransferJob) : TransferJob :=
  set_file_is_waiting false (with_file_confirmed false (with_data_stream None (next_file j))).
Fixpoint fill (fuel : nat) (room : Z) (buf : bytes) : Job (result Failure bytes) :=
  match fuel with
  | O => λ _, Stop OutOfFuel
  | S fuel =>
    j ← self;
    if bool_decide (tj_data_stream j = None) then mret (Err (Failed "data stream is None")) else
    r ← stream_read room;
    match r with
    | None => modify_self leave_file;; mret (Err Io)
    | Some b =>
      if (zlen b =? 0) || (room - zlen b =? 0) then mret (Ok (buf ++ b)) else fill fuel (room - zlen b) (buf ++ b)
    end
  end.

(** The name that says whether to compress: that of the whole path for a single
    file. *)
Definition block_name (j : TransferJob) (entry : FileEntry) : string :=
  match tj_data_source j with
  | FilePath p =>
    if (zlen (tj_files j) =? 1) && bool_decide (fe_name entry = ""%string) then get_file_name p else fe_name entry
  | MemoryCursor _ => ""
  end.

(** What goes out of what was read, and whether it is compressed. *)
Definition pack (compressible : bool) (buf : bytes) : bytes * bool :=
  if compressible then
    let tmp := compress buf in
    if zlen tmp <? zlen buf then (tmp, true) else (buf, false)
  else (buf, false).

Definition read (fuel : nat) : Job (result Failure (option FileTransferBlock)) :=
  j ← self;
  if bool_decide (tj_type j = Generic) && tj_enable_overwrite_detection j && negb (tj_file_confirmed j)
  then mret (Ok None) else
  let file_num := as_usize (tj_file_num j) in
  let '(over, compressible) :=
    match tj_data_source j with
    | FilePath _ =>
      match at_index (tj_files j) file_num with
      | None => (true, false)
      | Some entry => (false, negb (is_compressed_file (block_name j entry)))
      end
    | MemoryCursor _ => (false, false)
    end in
  if over : bool then modify_self (with_data_stream None);; mret (Ok None) else
  buf ←! fill fuel BUF_SIZE [];
  match buf, tj_data_source j with
  | [], MemoryCursor _ => modify_self (with_data_stream None);; mret (Ok None)
  | [], FilePath _ =>
    modify_self leave_file;;
    mret (Ok (Some (mkFileTransferBlock (tj_id j) (as_i32 file_num) [] false 0)))
  | _, _ =>
    let '(data, compressed) := pack compressible buf in
    modify_self (λ j, with_transferred (wrap_u 64 (tj_transferred j + zlen data))
                       (with_finished_size (wrap_u 64 (tj_finished_size j + zlen buf)) j));;
    mret (Ok (Some (mkFileTransferBlock (tj_id j) (as_i32 file_num) data compressed 0)))
  end.

(** ** Resuming *)

(** An index out of range panics. *)
Definition set_stream_offset (file_num offset : Z) : Job unit :=
  j ← self;
  match tj_data_source j with
  | MemoryCursor _ => mret tt
  | FilePath p =>
    match at_index (tj_files j) file_num with
    | None => λ _, Stop Panicked
    | Some entry =>
      r ← io (resolve_entry_path j p (fe_name entry));
      match r with
      | None => mret tt
      | Some path =>
        let file_path := get_string path in
        d ← io (path_exists (download_path file_path));
        g ← io (if d : bool then path_exists (digest_path file_path) else mret false);
        f ← io (if g : bool then ask (OpenToWrite (download_path file_path))
                else
                  x ← path_exists file_path;
                  if x : bool then ask (OpenFile file_path) else mret None);
        match f with
        | None => mret tt
        | Some h =>
          ok ← io (ask (SeekFile h offset));
          if ok : bool then
            modify_self (λ j, with_finished_size (wrap_u 64 (tj_finished_size j + offset))
              (with_transferred (wrap_u 64 (tj_transferred j + offset)) (with_data_stream (Some (FileStream h)) j)))
          else mret tt
        end
      end
    end
  end.

Definition confirm (r : FileTransferSendConfirmRequest) : Job bool :=
  j ← self;
  (if negb (tj_file_num j =? cf_file_num r) then mret tt else
   match cf_union r with
   | Some (Skip true) => modify_self set_file_skipped
   | Some (Skip false) => modify_self (set_file_confirmed true)
   | Some (OffsetBlk offset) =>
     modify_self (set_file_confirmed true);;
     if 0 <? offset then set_stream_offset (as_usize (cf_file_num r)) offset else mret tt
   | None => mret tt
   end);;
  mret true.

Inductive DigestCheckResult : Type := IsSame | NeedConfirm (d : FileTransferDigest) | NoSuchFile.

(** What a transfer that broke off left, when it is the same file. *)
Definition resumable (file_path : string) (digest : FileTransferDigest) : Prog FsIo (option FileTransferDigest) :=
  g ← path_exists (digest_path file_path);
  d ← (if g : bool then path_exists (download_path file_path) else mret false);
  if negb d then mret None else
  content ← ask (ReadWhole (digest_path file_path));
  match c ← content; t ← from_utf8 c; v ← json_parse t; dec_digest v with
  | None => mret None
  | Some local_digest =>
    if (di_modified local_digest =? dg_last_modified digest) && (di_size local_digest =? dg_file_size digest) then
      m ← ask (PathMetadata (download_path file_path));
      mret (match m with
            | Some m =>
              if 0 <? md_len m then
                Some (mkFileTransferDigest (dg_id digest) (dg_file_num digest) (dg_last_modified digest)
                        (dg_file_size digest) false true (md_len m) false)
              else None
            | None => None
            end)
    else mret None
  end.
Definition is_write_need_confirmation (is_resume : bool) (file_path : string) (digest : FileTransferDigest)
    : FileProg DigestCheckResult :=
  r ← (if is_resume then resumable file_path digest else mret None);
  match r with
  | Some d => mret (Ok (NeedConfirm d))
  | None =>
    e ← path_exists file_path;
    f ← (if e : bool then is_file file_path else mret false);
    if negb f then mret (Ok NoSuchFile) else
    m ←? or_else Io (ask (PathMetadata file_path));
    mret (match since_epoch m with
          | None => Err Io
          | Some local_mt =>
            let is_identical := (dg_last_modified digest * 10 ^ 9 =? local_mt) && (dg_file_size digest =? md_len m) in
            Ok (NeedConfirm (mkFileTransferDigest (dg_id digest) (dg_file_num digest) (as_secs local_mt) (md_len m)
                               false is_identical 0 false))
          end)
  end.

(** ** Messages *)

Definition new_error (id : Z) (err : string) (file_num : Z) : FileMessage := RespError (mkFileTransferError id err file_num).
Definition new_dir (id : Z) (path : string) (files : list FileEntry) : FileMessage := RespDir (mkFileDirectory id path files).
Definition new_block : FileTransferBlock → FileMessage := RespBlock.
Definition new_send_confirm : FileTransferSendConfirmRequest → FileMessage := ActSendConfirm.
Definition new_receive (id : Z) (path : string) (file_num : Z) (files : list FileEntry) (total_size : Z) : FileMessage :=
  ActReceive (mkFileTransferReceiveRequest id path files file_num total_size).
Definition new_send (id : Z) (type : JobType) (path : string) (file_num : Z) (include_hidden : bool) : FileMessage :=
  ActSend (mkFileTransferSendRequest id path include_hidden file_num (SendFileType_value (JobType_to_proto type))).
Definition new_done (id file_num : Z) : FileMessage := RespDone (mkFileTransferDone id file_num).

Record TransferJobMeta : Type := mkTransferJobMeta {
  tm_id : Z;
  tm_remote : string;
  tm_to : string;
  tm_show_hidden : bool;
  tm_file_num : Z;
  tm_is_remote : bool;
}.
Definition gen_meta (j : TransferJob) : TransferJobMeta :=
  mkTransferJobMeta (tj_id j) (tj_remote j) (to_meta (tj_data_source j)) (tj_show_hidden j) (tj_file_num j) (tj_is_remote j).

(** The JSON of a job; the keys of a [Value] are in order. *)
Fixpoint jset (k : string) (v : JVal) (l : list (string * JVal)) : list (string * JVal) :=
  match l with
  | [] => [(k, v)]
  | (k', v') :: r =>
    match String.compare k k' with Lt => (k, v) :: l | Eq => (k, v) :: r | Gt => (k', v') :: jset k v r end
  end.
Definition data_source_text (s : DataSource) : string :=
  match s with FilePath p => get_string p | MemoryCursor _ => "" end.
Definition job_fields (j : TransferJob) : list (string * JVal) :=
  [("id", VNum (tj_id j)); ("type", VText match tj_type j with Generic => "Generic" | Printer => "Printer" end);
   ("remote", VText (tj_remote j)); ("dataSource", VText (data_source_text (tj_data_source j)));
   ("showHidden", VBool (tj_show_hidden j)); ("isRemote", VBool (tj_is_remote j)); ("isLastJob", VBool (tj_is_last_job j));
   ("isResume", VBool (tj_is_resume j)); ("fileNum", VNum (tj_file_num j)); ("connId", VNum (tj_conn_id j));
   ("totalSize", VNum (tj_total_size j)); ("finishedSize", VNum (tj_finished_size j)); ("transferred", VNum (tj_transferred j));
   ("enableOverwriteDetection", VBool (tj_enable_overwrite_detection j)); ("fileConfirmed", VBool (tj_file_confirmed j));
   ("fileSkipped", VBool (tj_file_skipped j)); ("fileIsWaiting", VBool (tj_file_is_waiting j));
   ("defaultOverwriteStrategy", enc_opt VBool (tj_default_overwrite_strategy j))]%string.
Definition job_object (fields : list (string * JVal)) : JVal := VObj (foldr (λ e, jset e.1 e.2) [] fields).
Definition serialize_transfer_jobs (jobs : list TransferJob) : string :=
  json_text (VList ((λ j, job_object (job_fields j)) <$> jobs)).
Definition serialize_transfer_job (j : TransferJob) (done cancel : bool) (error : string) : string :=
  json_text (job_object (("error", VText error) :: ("cancel", VBool cancel) :: ("done", VBool done) :: job_fields j)%string).

(** ** The jobs that read *)

Fixpoint remove_job (id : Z) (jobs : list TransferJob) : option (TransferJob * list TransferJob) :=
  match jobs with
  | [] => None
  | j :: jobs => if tj_id j =? id then Some (j, jobs) else '(r, jobs) ← remove_job id jobs; Some (r, j :: jobs)
  end.
Definition get_job_immutable (id : Z) (jobs : list TransferJob) : option TransferJob :=
  List.find (λ j, tj_id j =? id) jobs.
Definition get_job : Z → list TransferJob → option TransferJob := get_job_immutable.

Definition send (m : FileMessage) : FileProg unit := ensure Io (ask (SendMessage m)).
Definition send_error (j : TransferJob) (err : string) : FileProg unit := send (new_error (tj_id j) err (tj_file_num j)).

Fixpoint init_jobs (jobs : list TransferJob) : Prog FsIo (list TransferJob * result Failure unit) :=
  match jobs with
  | [] => mret ([], Ok tt)
  | j :: jobs =>
    '(j, r) ← (if tj_is_last_job j then mret (j, Ok tt)
               else
                 '(j, r) ← init_data_stream j;
                 r ← (match r with Err e => send_error j (error_text e) | Ok _ => mret (Ok tt) end);
                 mret (j, r));
    match r with
    | Err e => mret (j :: jobs, Err e)
    | Ok _ => '(jobs, r) ← init_jobs jobs; mret (j :: jobs, r)
    end
  end.

(** One block of one job: the log of a job that ended, and whether it did. *)
Definition read_job (fuel : nat) (j : TransferJob) : Prog FsIo (TransferJob * result Failure (string * bool)) :=
  '(j, r) ← read fuel j;
  match r with
  | Err e => s ← send_error j (error_text e); mret (j, match s with Ok _ => Ok (""%string, false) | Err e => Err e end)
  | Ok (Some block) => s ← send (new_block block); mret (j, match s with Ok _ => Ok (""%string, false) | Err e => Err e end)
  | Ok None =>
    if job_completed j then
      match job_error j with
      | Some err =>
        s ← send_error j err;
        mret (j, match s with Ok _ => Ok (serialize_transfer_job j false false err, true) | Err e => Err e end)
      | None =>
        s ← send (new_done (tj_id j) (tj_file_num j));
        mret (j, match s with Ok _ => Ok (serialize_transfer_job j true false "", true) | Err e => Err e end)
      end
    else mret (j, Ok (""%string, false))
  end.
(** The first job that is not left from before. *)
Fixpoint read_first (fuel : nat) (jobs : list TransferJob) : Prog FsIo (list TransferJob * result Failure (string * option Z)) :=
  match jobs with
  | [] => mret ([], Ok (""%string, None))
  | j :: jobs =>
    if tj_is_last_job j then '(jobs, r) ← read_first fuel jobs; mret (j :: jobs, r)
    else
      '(j, r) ← read_job fuel j;
      mret (j :: jobs, match r with
                       | Ok (log, finished) => Ok (log, if finished : bool then Some (tj_id j) else None)
                       | Err e => Err e
                       end)
  end.
Definition handle_read_jobs (fuel : nat) (jobs : list TransferJob) : Prog FsIo (list TransferJob * result Failure string) :=
  '(jobs, r) ← init_jobs jobs;
  match r with
  | Err e => mret (jobs, Err e)
  | Ok _ =>
    '(jobs, r) ← read_first fuel jobs;
    mret (match r with
          | Err e => (jobs, Err e)
          | Ok (log, finished) =>
            (match finished with
             | Some id => match remove_job id jobs with Some (_, jobs) => jobs | None => jobs end
             | None => jobs
             end, Ok log)
          end)
  end.
End transfer.
