(* ===== verification/FileWorld.v ===== *)
(** * A Unix file system to run transfers in

    A tree of files, directories and symbolic links, named by the lists of the
    names from the root; paths are resolved through the links as the kernel
    does.  The writes may fail, the reads may be short.  It is the environment
    of the theorems in [TransferNames] and [TransferSpec]. *)
From Stdlib Require Import Ascii.
From S2P Require Import Prelude Text TextFacts UnixPath Programs FileIo.
Local Open Scope Z_scope.

Abbreviation names := (list string) (only parsing).
Inductive Node : Type := NFile (content : bytes) (mtime : Z) | NDir | NLink (target : string).
#[export] Instance Node_eq_dec : EqDecision Node.
Proof. solve_decision. Defined.
Abbreviation Tree := (gmap names Node).
(** The root is a directory. *)
Definition node (t : Tree) (p : names) : option Node := match p with [] => Some NDir | _ => t !! p end.

(** ** Paths *)

(** Where a path leads; its last name need not exist.  A link at the end is
    followed or not; there may be [links] links on the way. *)
Fixpoint resolve (links : nat) (follow : bool) (t : Tree) (cur : names) (l : list Component) : result IoError names :=
  (fix go (cur : names) (l : list Component) {struct l} : result IoError names :=
     match l with
     | [] => Ok cur
     | RootDir :: l => go [] l
     | CurDir :: l => go cur l
     | ParentDir :: l => go (removelast cur) l
     | Normal s :: l =>
       let q := cur ++ [s] in
       match node t q with
       | Some (NLink target) =>
         if negb follow && bool_decide (l = []) then Ok q else
         match links with
         | O => Err OtherError
         | S links => resolve links follow t cur (components target ++ l)
         end
       | Some NDir => go q l
       | Some (NFile _ _) => if bool_decide (l = []) then Ok q else Err OtherError
       | None => if bool_decide (l = []) then Ok q else Err NotFound
       end
     end) cur l.

Definition LINKS : nat := 40.
(** An open file: the file it is, unless that was removed, and the position. *)
Record Handle : Type := mkHandle { h_at : option names; h_pos : nat }.
(** [fw_cut]: how much of a failing write is written; [fw_chunk]: one byte more
    than the longest read; [fw_now]: the time of changes. *)
Record FileWorld : Type := mkFileWorld {
  fw_tree : Tree;
  fw_cwd : names;
  fw_handles : gmap nat Handle;
  fw_next : nat;
  fw_now : Z;
  fw_faults : list bool;
  fw_cut : nat;
  fw_chunk : nat;
  fw_sent : list FileMessage;
}.
Definition where_is (w : FileWorld) (follow : bool) (p : string) : result IoError names :=
  resolve LINKS follow (fw_tree w) (fw_cwd w) (components p).
Definition found {A} (r : result IoError A) : option A := match r with Ok a => Some a | Err _ => None end.
Definition lookup_path (w : FileWorld) (follow : bool) (p : string) : option names := found (where_is w follow p).
Definition node_at (w : FileWorld) (follow : bool) (p : string) : option (names * Node) :=
  q ← lookup_path w follow p; n ← node (fw_tree w) q; Some (q, n).

Definition with_tree (t : Tree) (w : FileWorld) : FileWorld :=
  mkFileWorld t (fw_cwd w) (fw_handles w) (fw_next w) (fw_now w) (fw_faults w) (fw_cut w) (fw_chunk w) (fw_sent w).
Definition with_handles (h : gmap nat Handle) (w : FileWorld) : FileWorld :=
  mkFileWorld (fw_tree w) (fw_cwd w) h (fw_next w) (fw_now w) (fw_faults w) (fw_cut w) (fw_chunk w) (fw_sent w).
Definition next_fault (w : FileWorld) : FileWorld :=
  mkFileWorld (fw_tree w) (fw_cwd w) (fw_handles w) (fw_next w) (fw_now w) (drop 1 (fw_faults w)) (fw_cut w) (fw_chunk w) (fw_sent w).
Definition with_new_handle (h : Handle) (w : FileWorld) : nat * FileWorld :=
  (fw_next w, mkFileWorld (fw_tree w) (fw_cwd w) (<[fw_next w := h]> (fw_handles w)) (S (fw_next w)) (fw_now w)
                (fw_faults w) (fw_cut w) (fw_chunk w) (fw_sent w)).
Definition with_message (m : FileMessage) (w : FileWorld) : FileWorld :=
  mkFileWorld (fw_tree w) (fw_cwd w) (fw_handles w) (fw_next w) (fw_now w) (fw_faults w) (fw_cut w) (fw_chunk w) (fw_sent w ++ [m]).

(** The open files follow a file that moves and lose one that goes. *)
Definition move_handles (f : names → option names) (w : FileWorld) : FileWorld :=
  with_handles ((λ h, mkHandle (h_at h ≫= f) (h_pos h)) <$> fw_handles w) w.
Definition unlinked (q : names) (p : names) : option names := if bool_decide (p = q) then None else Some p.

(** A directory that is there. *)
Definition holds (t : Tree) (q : names) : bool := match node t (removelast q) with Some NDir => true | _ => false end.
(** The names in a directory. *)
Definition children (t : Tree) (d : names) : list string :=
  omap (λ e, match last e.1 with Some s => if bool_decide (removelast e.1 = d ∧ e.1 ≠ []) then Some s else None | None => None end)
    (map_to_list t).
Definition empty_dir (t : Tree) (d : names) : bool := bool_decide (children t d = []).

Definition meta_of (n : Node) : Metadata :=
  match n with
  | NFile b m => mkMetadata RegularFile (zlen b) (Some m)
  | NDir => mkMetadata Directory 0 (Some 0)
  | NLink _ => mkMetadata SymbolicLink 0 (Some 0)
  end.

(** ** Calls that change the tree; [None] is an error *)

Definition create_file (p : string) (w : FileWorld) : option (nat * FileWorld) :=
  q ← lookup_path w true p;
  match node (fw_tree w) q with
  | Some (NFile _ _) => Some (with_new_handle (mkHandle (Some q) 0) (with_tree (<[q := NFile [] (fw_now w)]> (fw_tree w)) w))
  | None => if holds (fw_tree w) q then Some (with_new_handle (mkHandle (Some q) 0) (with_tree (<[q := NFile [] (fw_now w)]> (fw_tree w)) w)) else None
  | _ => None
  end.
Definition open_to_write (p : string) (w : FileWorld) : option (nat * FileWorld) :=
  q ← lookup_path w true p;
  match node (fw_tree w) q with
  | Some (NFile _ _) => Some (with_new_handle (mkHandle (Some q) 0) w)
  | None => if holds (fw_tree w) q then Some (with_new_handle (mkHandle (Some q) 0) (with_tree (<[q := NFile [] (fw_now w)]> (fw_tree w)) w)) else None
  | _ => None
  end.
Definition open_file (p : string) (w : FileWorld) : option (nat * FileWorld) :=
  '(q, n) ← node_at w true p; Some (with_new_handle (mkHandle (Some q) 0) w).

(** The bytes of a file with some replaced from a position on. *)
Definition splice (pos : nat) (b content : bytes) : bytes :=
  take pos content ++ replicate (pos - length content) 0 ++ b ++ drop (pos + length b) content.
Definition write_handle (h : nat) (b : bytes) (w : FileWorld) : FileWorld :=
  match fw_handles w !! h with
  | Some hd =>
    let w := with_handles (<[h := mkHandle (h_at hd) (h_pos hd + length b)]> (fw_handles w)) w in
    match h_at hd with
    | Some q =>
      match node (fw_tree w) q with
      | Some (NFile content _) => with_tree (<[q := NFile (splice (h_pos hd) b content) (fw_now w)]> (fw_tree w)) w
      | _ => w
      end
    | None => w
    end
  | None => w
  end.
Definition write_whole (p : string) (b : bytes) (w : FileWorld) : option FileWorld :=
  '(h, w') ← create_file p w; Some (with_handles (fw_handles w) (write_handle h b w')).
Definition remove_node (p : string) (w : FileWorld) : option FileWorld :=
  '(q, n) ← node_at w false p;
  match n with NDir => None | _ => Some (move_handles (unlinked q) (with_tree (delete q (fw_tree w)) w)) end.
Definition remove_dir (p : string) (w : FileWorld) : option FileWorld :=
  '(q, n) ← node_at w false p;
  match n with
  | NDir => if bool_decide (q ≠ []) && empty_dir (fw_tree w) q then Some (with_tree (delete q (fw_tree w)) w) else None
  | _ => None
  end.
(** A name at or below [a], as it is below [b]. *)
Definition moved (a b p : names) : names := if bool_decide (a `prefix_of` p) then b ++ drop (length a) p else p.
Definition move_tree (a b : names) (t : Tree) : Tree := kmap (moved a b) t.
Definition rename_node (a b : string) (w : FileWorld) : option FileWorld :=
  '(qa, na) ← node_at w false a;
  qb ← lookup_path w false b;
  if bool_decide (qa = qb) then Some w else
  if bool_decide (qa `prefix_of` qb) || bool_decide (qa = []) || bool_decide (qb = []) || negb (holds (fw_tree w) qb) then None else
  match na, node (fw_tree w) qb with
  | NDir, Some NDir =>
    if empty_dir (fw_tree w) qb
    then Some (move_handles (λ p, Some (moved qa qb p)) (with_tree (move_tree qa qb (delete qb (fw_tree w))) w)) else None
  | NDir, None => Some (move_handles (λ p, Some (moved qa qb p)) (with_tree (move_tree qa qb (fw_tree w)) w))
  | NDir, _ | _, Some NDir => None
  | _, _ =>
    Some (move_handles (λ p, if bool_decide (p = qb) then None else if bool_decide (p = qa) then Some qb else Some p)
            (with_tree (<[qb := na]> (delete qa (fw_tree w))) w))
  end.
(** Every directory of the path that is missing. *)
Fixpoint make_dirs (t : Tree) (cur : names) (l : list Component) : option Tree :=
  match l with
  | [] => Some t
  | RootDir :: l => make_dirs t [] l
  | CurDir :: l => make_dirs t cur l
  | ParentDir :: l => make_dirs t (removelast cur) l
  | Normal s :: l =>
    match node t (cur ++ [s]) with
    | None => make_dirs (<[cur ++ [s] := NDir]> t) (cur ++ [s]) l
    | Some _ =>
      q ← found (resolve LINKS true t cur [Normal s]);
      match node t q with Some NDir => make_dirs t q l | _ => None end
    end
  end.
Definition set_mtime (p : string) (secs : Z) (w : FileWorld) : option FileWorld :=
  '(q, n) ← node_at w true p;
  match n with
  | NFile b _ => Some (with_tree (<[q := NFile b (secs * 10 ^ 9)]> (fw_tree w)) w)
  | _ => Some w
  end.

Definition read_handle (h : nat) (n : Z) (w : FileWorld) : option bytes * FileWorld :=
  match fw_handles w !! h with
  | Some (mkHandle (Some q) pos) =>
    match node (fw_tree w) q with
    | Some (NFile content _) =>
      let b := take (min (Z.to_nat n) (S (fw_chunk w))) (drop pos content) in
      (Some b, with_handles (<[h := mkHandle (Some q) (pos + length b)]> (fw_handles w)) w)
    | _ => (None, w)
    end
  | Some (mkHandle None _) => (Some [], w)
  | None => (None, w)
  end.

(** ** The environment *)

(** A call that may fail. *)
Definition faulty (w : FileWorld) : bool := match fw_faults w with true :: _ => true | _ => false end.
Definition changing {A} (bad good : A) (r : option FileWorld) (w : FileWorld) : A * FileWorld :=
  if faulty w then (bad, next_fault w)
  else match r with Some w' => (good, next_fault w') | None => (bad, next_fault w) end.
Definition opening (r : option (nat * FileWorld)) (w : FileWorld) : option nat * FileWorld :=
  if faulty w then (None, next_fault w)
  else match r with Some (h, w') => (Some h, next_fault w') | None => (None, next_fault w) end.

Definition fs_handler : Handler FsIo FileWorld := λ X e w,
  Some match e in FsIo X return X * FileWorld with
  | ReadDirNames p =>
    (match node_at w true p with Some (d, NDir) => Some (children (fw_tree w) d) | _ => None end, w)
  | LinkMetadata p =>
    (match where_is w false p with
     | Ok q => match node (fw_tree w) q with Some n => Ok (meta_of n) | None => Err NotFound end
     | Err e => Err e
     end, w)
  | PathMetadata p => (match node_at w true p with Some (_, n) => Some (meta_of n) | None => None end, w)
  | CreateFile p => opening (create_file p w) w
  | OpenFile p => opening (open_file p w) w
  | OpenToWrite p => opening (open_to_write p w) w
  | ReadSome h n => read_handle h n w
  | WriteFile h b =>
    if faulty w then (false, next_fault (write_handle h (take (fw_cut w) b) w)) else (true, next_fault (write_handle h b w))
  | SeekFile h pos =>
    match fw_handles w !! h with
    | Some hd => (true, with_handles (<[h := mkHandle (h_at hd) (Z.to_nat pos)]> (fw_handles w)) w)
    | None => (false, w)
    end
  | SyncFile _ => (true, w)
  | FileMetadata h =>
    (match fw_handles w !! h with
     | Some (mkHandle (Some q) _) => meta_of <$> node (fw_tree w) q
     | _ => None
     end, w)
  | WriteWhole p b => changing false true (write_whole p b w) w
  | ReadWhole p => (match node_at w true p with Some (_, NFile b _) => Some b | _ => None end, w)
  | RemoveFile p => changing false true (remove_node p w) w
  | RemoveDir p => changing false true (remove_dir p w) w
  | RenameFile a b => changing false true (rename_node a b w) w
  | CreateDirAll p => changing false true ((λ t, with_tree t w) <$> make_dirs (fw_tree w) (fw_cwd w) (components p)) w
  | SetMtime p secs => changing false true (set_mtime p secs w) w
  | SendMessage m => (true, with_message m w)
  end.

(** ** Trees *)

(** What is in a directory is in a directory; the root is not named. *)
Definition tree_ok (t : Tree) : Prop := t !! [] = None ∧ ∀ p s n, t !! (p ++ [s]) = Some n → node t p = Some NDir.

Lemma node_ne t q : q ≠ [] → node t q = t !! q.
Proof. by destruct q. Qed.
Lemma node_insert t q n : q ≠ [] → node (<[q := n]> t) q = Some n.
Proof. intros Hq. by rewrite node_ne, lookup_insert_eq. Qed.
Lemma node_insert_ne t q p n : p ≠ q → node (<[q := n]> t) p = node t p.
Proof. intros Hq. destruct p as [|s p]; [done|]. cbn. by rewrite lookup_insert_ne. Qed.
Lemma node_delete_ne t q p : p ≠ q → node (delete q t) p = node t p.
Proof. intros Hq. destruct p as [|s p]; [done|]. cbn. by rewrite lookup_delete_ne. Qed.
Lemma app_single_ne (p : names) s : p ++ [s] ≠ p.
Proof. intros E%(f_equal length). rewrite length_app in E. cbn in E. lia. Qed.

Lemma tree_ok_parent t q n : tree_ok t → q ≠ [] → t !! q = Some n → holds t q = true.
Proof.
  intros [_ Ht] Hq Hn. destruct (exists_last Hq) as (p & s & ->). unfold holds. rewrite removelast_last.
  by rewrite (Ht _ _ _ Hn).
Qed.
(** Only a directory has something below it. *)
Lemma tree_ok_below t q r : tree_ok t → node t q ≠ Some NDir → r ≠ [] → t !! (q ++ r) = None.
Proof.
  intros [H0 Ht] Hq. induction r as [|s r IH] using rev_ind; [done|]. intros _.
  destruct (t !! (q ++ r ++ [s])) as [n|] eqn:E; [|done]. rewrite app_assoc in E. apply Ht in E.
  destruct r as [|x r]; [by rewrite app_nil_r in E|].
  rewrite node_ne in E by (destruct q; done). by rewrite IH in E.
Qed.
Lemma tree_ok_insert t q n :
  tree_ok t → q ≠ [] → holds t q = true → (n = NDir ∨ node t q ≠ Some NDir) → tree_ok (<[q := n]> t).
Proof.
  intros Ht Hq Hp Hn. split; [by rewrite lookup_insert_ne by done; apply Ht|].
  intros p s m Hm. destruct (decide (p = q)) as [->|Hpq].
  - destruct Hn as [->|Hn]; [by apply node_insert|]. exfalso.
    rewrite lookup_insert_ne in Hm by (intros E; by apply (app_single_ne q s)).
    rewrite (tree_ok_below t q [s]) in Hm; done.
  - rewrite node_insert_ne by done. destruct (decide (q = p ++ [s])) as [->|Hne].
    + unfold holds in Hp. rewrite removelast_last in Hp. destruct (node t p) as [[]|]; done.
    + rewrite lookup_insert_ne in Hm by done. by apply Ht in Hm.
Qed.
Lemma tree_ok_delete t q : tree_ok t → (∀ s, t !! (q ++ [s]) = None) → tree_ok (delete q t).
Proof.
  intros [H0 Ht] Hq. split; [apply lookup_delete_None; by right|].
  intros p s m [Hne Hm]%lookup_delete_Some. destruct (decide (p = q)) as [->|Hpq]; [by rewrite Hq in Hm|].
  rewrite node_delete_ne by done. by apply Ht in Hm.
Qed.
Lemma tree_ok_delete_leaf t q : tree_ok t → node t q ≠ Some NDir → tree_ok (delete q t).
Proof. intros Ht Hq. apply tree_ok_delete; [done|]. intros s. by apply tree_ok_below. Qed.

Lemma tree_ok_above t u v n : tree_ok t → node t (u ++ v) = Some n → v ≠ [] → node t u = Some NDir.
Proof.
  intros Ht Hn Hv. destruct (decide (node t u = Some NDir)) as [|Hu]; [done|]. exfalso.
  rewrite node_ne in Hn by (destruct u, v; done). by rewrite (tree_ok_below t u v) in Hn.
Qed.

Lemma children_spec t d s : s ∈ children t d ↔ is_Some (t !! (d ++ [s])).
Proof.
  unfold children. rewrite list_elem_of_omap. split.
  - intros ([q n] & Hqn & Hs). apply elem_of_map_to_list in Hqn. cbn in Hs.
    destruct (last q) as [x|] eqn:El; [|done]. case_bool_decide as Hd; [|done]. injection Hs as ->.
    destruct Hd as [Hd Hq]. apply last_Some in El as [i ->]. rewrite removelast_last in Hd. subst i. by exists n.
  - intros [n Hn]. exists (d ++ [s], n). split; [by apply elem_of_map_to_list|]. cbn.
    rewrite last_snoc, removelast_last, bool_decide_eq_true_2; [done|]. split; [done|by destruct d].
Qed.
Lemma empty_dir_below t d : tree_ok t → empty_dir t d = true → ∀ r, r ≠ [] → t !! (d ++ r) = None.
Proof.
  intros Ht He. unfold empty_dir in He. apply bool_decide_eq_true_1 in He.
  intros [|s r] Hr; [done|]. assert (t !! (d ++ [s]) = None) as Hs.
  { destruct (t !! (d ++ [s])) as [n|] eqn:E; [|done].
    assert (s ∈ children t d) as Hin by (apply children_spec; by exists n). rewrite He in Hin. by apply not_elem_of_nil in Hin. }
  destruct r as [|x r]; [done|]. change (s :: x :: r) with ([s] ++ x :: r). rewrite app_assoc.
  apply tree_ok_below; [done| |done]. rewrite node_ne by (by destruct d). by rewrite Hs.
Qed.

(** ** Resolving without links *)

Lemma resolve_normal links follow t cur s l :
  resolve links follow t cur (Normal s :: l) =
  match node t (cur ++ [s]) with
  | Some (NLink target) =>
    if negb follow && bool_decide (l = []) then Ok (cur ++ [s]) else
    match links with O => Err OtherError | S links => resolve links follow t cur (components target ++ l) end
  | Some NDir => resolve links follow t (cur ++ [s]) l
  | Some (NFile _ _) => if bool_decide (l = []) then Ok (cur ++ [s]) else Err OtherError
  | None => if bool_decide (l = []) then Ok (cur ++ [s]) else Err NotFound
  end.
Proof. by destruct links. Qed.
Lemma resolve_nil links follow t cur : resolve links follow t cur [] = Ok cur.
Proof. by destruct links. Qed.
Lemma resolve_root links follow t cur l : resolve links follow t cur (RootDir :: l) = resolve links follow t [] l.
Proof. by destruct links. Qed.

Definition is_link (n : option Node) : bool := match n with Some (NLink _) => true | _ => false end.
(** Without links on the way a path leads to its own names, or nowhere. *)
Lemma resolve_plain links follow t ss : ∀ cur,
  (∀ u v, ss = u ++ v → u ≠ [] → v ≠ [] ∨ follow = true → is_link (node t (cur ++ u)) = false) →
  resolve links follow t cur (Normal <$> ss) = Ok (cur ++ ss) ∨ ∃ e, resolve links follow t cur (Normal <$> ss) = Err e.
Proof.
  induction ss as [|s ss IH]; intros cur Hl; [left; cbn; by rewrite resolve_nil, app_nil_r|].
  rewrite fmap_cons, resolve_normal. specialize (IH (cur ++ [s])). rewrite <- app_assoc in IH. cbn [app] in IH.
  pose proof (Hl [s] ss eq_refl ltac:(done)) as Hs. destruct (node t (cur ++ [s])) as [[b m| |target]|] eqn:E.
  - destruct ss; cbn; eauto.
  - apply IH. intros u v -> Hu Hv. rewrite <- app_assoc. apply (Hl (s :: u) v); [done|done|done].
  - destruct ss as [|x ss]; [|exfalso; by discriminate Hs; left].
    destruct follow; [exfalso; by discriminate Hs; right|]. cbn. by left.
  - destruct ss; cbn; eauto.
Qed.
(** Through directories it does lead there. *)
Lemma resolve_dirs links follow t ss l : ∀ cur,
  (∀ u v, ss = u ++ v → u ≠ [] → node t (cur ++ u) = Some NDir) →
  resolve links follow t cur ((Normal <$> ss) ++ l) = resolve links follow t (cur ++ ss) l.
Proof.
  induction ss as [|s ss IH]; intros cur Hd; [by rewrite app_nil_r|].
  rewrite fmap_cons, <- app_comm_cons, resolve_normal, (Hd [s] ss) by done. rewrite IH; [by rewrite <- app_assoc|].
  intros u v -> Hu. rewrite <- app_assoc. by apply (Hd (s :: u) v).
Qed.

(** What is there is found. *)
Lemma resolve_existing links t tgt n :
  tree_ok t → node t tgt = Some n → resolve links false t [] (Normal <$> tgt) = Ok tgt.
Proof.
  intros Ht Hn. destruct (decide (tgt = [])) as [->|Hne]; [by destruct links|].
  destruct (exists_last Hne) as (c & s & ->). rewrite fmap_app, resolve_dirs.
  - cbn [fmap list_fmap]. rewrite resolve_normal. cbn [app]. rewrite Hn. destruct n; cbn; [done|by rewrite resolve_nil|done].
  - intros u v -> Hu. cbn. rewrite <- app_assoc in Hn. eapply tree_ok_above; [done|exact Hn|]. by destruct v.
Qed.

(** ** Moving a directory *)

Lemma moved_under a b x : moved a b (a ++ x) = b ++ x.
Proof.
  unfold moved. rewrite bool_decide_eq_true_2 by by exists x. f_equal. by apply drop_app_length.
Qed.
Lemma moved_other a b p : ¬ a `prefix_of` p → moved a b p = p.
Proof. intros Hp. unfold moved. by rewrite bool_decide_eq_false_2. Qed.
Lemma moved_cases a b p : (∃ x, p = a ++ x ∧ moved a b p = b ++ x) ∨ (¬ a `prefix_of` p ∧ moved a b p = p).
Proof.
  destruct (decide (a `prefix_of` p)) as [[x ->]|Hp]; [left; exists x; by rewrite moved_under|right; by rewrite moved_other].
Qed.

Section moving.
Variables (a b : names) (t : Tree).
Hypothesis free : ∀ r, t !! (b ++ r) = None.

Lemma lookup_moved q n : move_tree a b t !! q = Some n ↔ ∃ p, moved a b p = q ∧ t !! p = Some n.
Proof.
  unfold move_tree, kmap. split.
  - intros Hq%elem_of_list_to_map_2. apply list_elem_of_fmap in Hq as ([p m] & [= -> ->] & Hp).
    exists p. split; [done|]. by apply elem_of_map_to_list.
  - intros (p & <- & Hp). apply elem_of_list_to_map_1'.
    2: { apply list_elem_of_fmap. exists (p, n). split; [done|by apply elem_of_map_to_list]. }
    intros m Hm. apply list_elem_of_fmap in Hm as ([p' m'] & [= E ->] & Hp'). apply elem_of_map_to_list in Hp'.
    assert (p = p') as ->; [|congruence].
    destruct (moved_cases a b p) as [(x & Ep & Ex)|(Np & Ex)], (moved_cases a b p') as [(x' & Ep' & Ex')|(Np' & Ex')];
      rewrite Ex, Ex' in E; subst.
    + by apply app_inv_head in E as ->.
    + by rewrite free in Hp'.
    + by rewrite free in Hp.
    + done.
Qed.

Lemma tree_ok_moved : tree_ok t → a ≠ [] → b ≠ [] → holds t b = true → ¬ a `prefix_of` b → tree_ok (move_tree a b t).
Proof.
  intros Ht Ha Hb Hp Hab. split.
  { destruct (move_tree a b t !! []) as [n|] eqn:E; [|done]. apply lookup_moved in E as (p & E & Hn).
    destruct (moved_cases a b p) as [(x & -> & Ex)|(Np & Ex)]; rewrite Ex in E; [by destruct b|]. subst p.
    destruct Ht as [H0 _]. congruence. }
  intros p s n Hn. apply lookup_moved in Hn as (p0 & E & Hn).
  (* a directory that does not move *)
  assert (∀ u, node t u = Some NDir → ¬ a `prefix_of` u → node (move_tree a b t) u = Some NDir) as Hstay.
  { intros u Hu Nu. destruct u as [|x u]; [done|]. rewrite node_ne in * by done. apply lookup_moved.
    exists (x :: u). split; [by apply moved_other|done]. }
  destruct (moved_cases a b p0) as [(x & -> & Ex)|(Np & Ex)]; rewrite Ex in E.
  - destruct (decide (x = [])) as [->|Hx].
    + rewrite app_nil_r in E. subst b. apply Hstay.
      * unfold holds in Hp. rewrite removelast_last in Hp. by destruct (node t p) as [[]|].
      * intros Hpre. apply Hab. etrans; [exact Hpre|by exists [s]].
    + destruct (exists_last Hx) as (x' & s' & ->). rewrite app_assoc in E. apply app_inj_tail in E as [<- ->].
      rewrite app_assoc in Hn. apply Ht in Hn. rewrite node_ne in Hn by (by destruct a).
      rewrite node_ne by (by destruct b). apply lookup_moved. exists (a ++ x'). split; [apply moved_under|done].
  - subst p0. apply Hstay; [by apply Ht in Hn|]. intros Hpre. apply Np. etrans; [exact Hpre|by exists [s]].
Qed.
End moving.

(** ** Trees that hold what a receiver needs *)

Definition dir_or_none (n : option Node) : Prop := match n with Some NDir | None => True | _ => False end.
Definition file_or_none (n : option Node) : Prop := match n with Some (NFile _ _) | None => True | _ => False end.

(** What is there and no link is found, followed or not. *)
Lemma resolve_there links follow t tgt n :
  tree_ok t → node t tgt = Some n → is_link (Some n) = false → resolve links follow t [] (Normal <$> tgt) = Ok tgt.
Proof.
  intros Ht Hn Hl. destruct (decide (tgt = [])) as [->|Hne]; [by destruct links|].
  destruct (exists_last Hne) as (c & s & ->). rewrite fmap_app, resolve_dirs.
  - cbn [fmap list_fmap]. rewrite resolve_normal. cbn [app]. rewrite Hn. destruct n; cbn; [done|by rewrite resolve_nil|done].
  - intros u v -> Hu. cbn. rewrite <- app_assoc in Hn. eapply tree_ok_above; [done|exact Hn|]. by destruct v.
Qed.
(** A place in a directory. *)
Lemma resolve_place links follow t c s :
  tree_ok t → node t c = Some NDir → is_link (node t (c ++ [s])) = false →
  resolve links follow t [] (Normal <$> (c ++ [s])) = Ok (c ++ [s]).
Proof.
  intros Ht Hc Hl. rewrite fmap_app, resolve_dirs.
  - cbn [fmap list_fmap]. rewrite resolve_normal. cbn [app].
    destruct (node t (c ++ [s])) as [[b m| |l]|]; [done|by rewrite resolve_nil|done|done].
  - intros u v -> Hu. cbn. destruct (decide (v = [])) as [->|Hv]; [by rewrite app_nil_r in Hc|].
    eapply tree_ok_above; [done|exact Hc|done].
Qed.
(** Along directories that may be missing, what is not found is missing. *)
Lemma resolve_missing links follow t ss : ∀ cur,
  (∀ u v, ss = u ++ v → u ≠ [] → v ≠ [] → dir_or_none (node t (cur ++ u))) → is_link (node t (cur ++ ss)) = false →
  resolve links follow t cur (Normal <$> ss) = Ok (cur ++ ss) ∨ resolve links follow t cur (Normal <$> ss) = Err NotFound.
Proof.
  induction ss as [|s ss IH]; intros cur Hd Hl; [left; cbn; by rewrite resolve_nil, app_nil_r|].
  rewrite fmap_cons, resolve_normal. specialize (IH (cur ++ [s])). rewrite <- app_assoc in IH. cbn [app] in IH.
  assert (ss ≠ [] → dir_or_none (node t (cur ++ [s]))) as Hs by by apply (Hd [s] ss).
  destruct (node t (cur ++ [s])) as [[b m| |target]|] eqn:E.
  - destruct ss as [|x ss]; [by left|]. by exfalso; apply Hs.
  - apply IH; [|done]. intros u v -> Hu Hv. rewrite <- app_assoc. by apply (Hd (s :: u) v).
  - destruct ss as [|x ss]; [by rewrite E in Hl|]. by exfalso; apply Hs.
  - destruct ss as [|x ss]; [by left|by right].
Qed.

Lemma make_dirs_total l : ∀ t cur,
  tree_ok t → node t cur = Some NDir → (∀ u v, l = u ++ v → u ≠ [] → dir_or_none (node t (cur ++ u))) →
  ∃ t', make_dirs t cur (Normal <$> l) = Some t' ∧ node t' (cur ++ l) = Some NDir.
Proof.
  induction l as [|s l IH]; intros t cur Ht Hcur Hd; [exists t; by rewrite app_nil_r|].
  pose proof (Hd [s] l eq_refl ltac:(done)) as Hs. cbn [fmap list_fmap make_dirs].
  destruct (node t (cur ++ [s])) as [[b m| |tg]|] eqn:En; try done.
  - rewrite resolve_normal, En, resolve_nil. cbn. rewrite En. destruct (IH t (cur ++ [s])) as (t' & E & Hn); [done|done| |].
    + intros u v -> Hu. rewrite <- app_assoc. by apply (Hd (s :: u) v).
    + exists t'. rewrite <- app_assoc in Hn. done.
  - assert (cur ++ [s] ≠ []) as Hne by by destruct cur.
    destruct (IH (<[cur ++ [s] := NDir]> t) (cur ++ [s])) as (t' & E & Hn).
    + apply tree_ok_insert; [done|done| |by left]. unfold holds. rewrite removelast_last. by rewrite Hcur.
    + by apply node_insert.
    + intros u v -> Hu. rewrite node_insert_ne; [|].
      * rewrite <- app_assoc. by apply (Hd (s :: u) v).
      * intros E%(f_equal length). rewrite !length_app in E. destruct u; [done|]. cbn in E. lia.
    + exists t'. rewrite <- app_assoc in Hn. done.
Qed.
