(* ===== verification/TransferNames.v ===== *)
(** * Where a transfer can write

    Of [Transfer], in the file system of [FileWorld]: whatever files a peer
    names, whatever blocks and confirmations it sends, in whatever order, and
    whichever calls fail, a transfer changes nothing but what is below its
    directory (or, for a single file, that file and the two helper files beside
    it), as long as nobody else makes links.  A link that lies where a helper
    file is wanted is followed all the same. *)
From Stdlib Require Import Ascii.
From S2P Require Import Prelude Text TextFacts HostText JsonTree UnixPath Programs FileIo Transfer FileWorld.
Local Open Scope Z_scope.

(** ** The region of a transfer *)

Definition helper_suffix (s : string) : Prop := s = ".download"%string ∨ s = ".digest"%string.
Definition helper_name (n : string) : Prop := ∃ x s, helper_suffix s ∧ n = x +:+ s.
Definition in_region (d q : names) : Prop :=
  d `prefix_of` q ∨ ∃ i l s, d = i ++ [l] ∧ helper_suffix s ∧ (i ++ [l +:+ s]) `prefix_of` q.

Lemma region_ext d q r : in_region d q → in_region d (q ++ r).
Proof.
  intros [Hq|(i & l & s & E & Hs & Hq)]; [left; etrans; [exact Hq|by exists r]|].
  right. exists i, l, s. split_and!; [done|done|]. etrans; [exact Hq|by exists r].
Qed.
Lemma region_below d r : in_region d (d ++ r).
Proof. left. by exists r. Qed.
Lemma above_region d u v : d = u ++ v → v ≠ [] → ¬ in_region d u.
Proof.
  intros -> Hv [Hp|(i & l & s & E & Hs & Hp)]; apply prefix_length in Hp.
  - rewrite length_app in Hp. destruct v; [done|]. cbn in Hp. lia.
  - apply (f_equal length) in E. rewrite !length_app in *. cbn in *. destruct v; [done|]. cbn in *. lia.
Qed.
Lemma suffix_long s : helper_suffix s → (2 < String.length s)%nat.
Proof. intros [->| ->]; cbn; lia. Qed.
Lemma suffix_no_slash s : helper_suffix s → has_char slash s = false.
Proof. by intros [->| ->]. Qed.
Lemma suffix_utf8 s : helper_suffix s → is_utf8 s.
Proof. by intros [->| ->]. Qed.

(** ** Names that pass the checks *)

Lemma valid_name name :
  validate_file_name_no_traversal false name = Ok tt →
  is_absolute name = false ∧ ∃ ss, pieces (split_on slash name) = Normal <$> ss.
Proof.
  unfold validate_file_name_no_traversal, name_parts. destruct (has_char NUL name); [done|].
  destruct (existsb _ _) eqn:E; [done|]. unfold is_absolute. destruct (starts_with "/" name); [done|]. intros _. split; [done|].
  induction (split_on slash name) as [|s l IH]; [by exists []|]. cbn in E.
  change (pieces (s :: l)) with (piece s ++ pieces l). unfold piece.
  destruct (bool_decide (s = ""%string)) eqn:B1; [by apply IH|]. cbn in E. apply orb_false_iff in E as [E1 E2].
  rewrite E1. destruct (IH E2) as [ss ->].
  destruct (bool_decide (s = "."%string)); [by exists ss|by exists (s :: ss)].
Qed.
(** The components of a name, but for a leading dot. *)
Lemma components_relative name ss :
  is_absolute name = false → pieces (split_on slash name) = Normal <$> ss →
  components name = Normal <$> ss ∨ components name = CurDir :: (Normal <$> ss).
Proof.
  intros Ha Hss. unfold components. rewrite Ha. destruct (split_on slash name) as [|s l]; [by left|].
  change (pieces (s :: l)) with (piece s ++ pieces l) in Hss. case_bool_decide as Es; [|by left].
  subst s. right. by rewrite <- Hss.
Qed.
Lemma piece_normal s c : piece s = [Normal c] → c = s ∧ s ≠ ""%string ∧ s ≠ "."%string ∧ s ≠ ".."%string.
Proof. unfold piece. repeat case_bool_decide; try done. by intros [= <-]. Qed.
(** The pieces of a path are names without separators. *)
Definition plain_name (s : string) : Prop := has_char slash s = false ∧ piece s = [Normal s].
Lemma pieces_plain p ss : pieces (split_on slash p) = Normal <$> ss → Forall plain_name ss.
Proof.
  pose proof (split_on_no_char slash p) as Hs. revert ss. induction Hs as [|s l Hs _ IH]; intros ss E.
  - by destruct ss.
  - change (pieces (s :: l)) with (piece s ++ pieces l) in E. unfold piece in E.
    destruct (bool_decide (s = ""%string)) eqn:B1; [by apply IH|].
    destruct (bool_decide (s = "."%string)) eqn:B2; [by apply IH|].
    destruct (bool_decide (s = ".."%string)) eqn:B3; [by destruct ss|].
    destruct ss as [|x ss]; [done|]. injection E as -> E. constructor; [|by apply IH].
    split; [done|]. unfold piece. by rewrite B1, B2, B3.
Qed.

(** ** Absolute paths *)

Definition leads (p : string) (c : names) : Prop :=
  ∃ r, p = String slash r ∧ pieces (split_on slash r) = Normal <$> c.
Lemma leads_components p c : leads p c → components p = RootDir :: (Normal <$> c).
Proof. intros (r & -> & E). by rewrite components_abs, E. Qed.
Lemma leads_join p c name ss :
  leads p c → is_absolute name = false → pieces (split_on slash name) = Normal <$> ss → leads (path_join p name) (c ++ ss).
Proof.
  intros (r & -> & E) Ha Hss. destruct (join_abs r name Ha) as (r' & -> & E'). exists r'. split; [done|].
  by rewrite E', E, Hss, fmap_app.
Qed.
Lemma leads_plain p c s : leads p c → plain_name s → leads (path_join p s) (c ++ [s]).
Proof.
  intros Hp [Hs1 Hs2]. apply leads_join; [done| |].
  - destruct s as [|x s]; [done|]. unfold is_absolute. rewrite starts_with_cons.
    cbn [has_char] in Hs1. apply orb_false_iff in Hs1 as [Hs1 _]. apply bool_decide_eq_false_1 in Hs1.
    apply Ascii.eqb_neq. unfold slash in *. congruence.
  - rewrite split_on_none by done. unfold pieces. cbn. by rewrite app_nil_r.
Qed.
Lemma leads_parent p c pp : leads p c → parent p = Some pp → leads pp (removelast c).
Proof.
  intros (r & -> & E) Hpp. pose proof (components_parent r pp Hpp) as Hc. rewrite E in Hc.
  assert (removelast (Normal <$> c) = Normal <$> removelast c) as Er.
  { clear. induction c as [|x [|y c] IH]; [done|done|]. cbn in *. by rewrite IH. }
  rewrite Er in Hc. unfold parent in Hpp. cbn [split_on] in Hpp. rewrite Ascii.eqb_refl in Hpp.
  unfold is_absolute in Hpp. rewrite starts_with_cons in Hpp. change (Ascii.eqb "/" slash) with true in Hpp. cbv iota in Hpp.
  destruct (pieces (split_on slash r)); [done|]. injection Hpp as <-. eexists. split; [done|].
  rewrite components_abs in Hc. by injection Hc.
Qed.
(** With a suffix the last name gets it, or it is a name of its own after a
    separator. *)
Lemma leads_suffix p c s :
  leads p c → helper_suffix s → ∃ i x, leads (p +:+ s) (i ++ [x +:+ s]) ∧ (c = i ++ [x] ∨ c = i ∧ x +:+ s = s ∨ c = i ∧ x = "."%string).
Proof.
  intros (r & -> & E) Hs. destruct (split_on_suffix slash r s (suffix_no_slash s Hs)) as (i0 & l & E1 & E2).
  rewrite E1, pieces_app in E. unfold pieces at 2 in E. cbn in E. rewrite app_nil_r in E.
  assert (∃ i, pieces i0 = Normal <$> i) as [i Hi].
  { exists (take (length (pieces i0)) c). rewrite fmap_take, <- E, take_app_length. done. }
  exists i, l. split.
  - exists (r +:+ s). split; [done|]. rewrite E2, pieces_app, Hi, fmap_app. f_equal. unfold pieces. cbn.
    by rewrite piece_suffix, app_nil_r by by apply suffix_long.
  - unfold piece in E. rewrite Hi in E.
    destruct (decide (l = ""%string)) as [->|N1].
    { right. left. rewrite bool_decide_eq_true_2, app_nil_r in E by done. apply (inj (fmap Normal)) in E. done. }
    rewrite bool_decide_eq_false_2 in E by done. destruct (decide (l = "."%string)) as [->|N2].
    { right. right. rewrite bool_decide_eq_true_2, app_nil_r in E by done. apply (inj (fmap Normal)) in E. done. }
    rewrite bool_decide_eq_false_2 in E by done. left. case_bool_decide.
    { apply (f_equal last) in E. rewrite last_snoc, fmap_last in E. by destruct (last c). }
    change [Normal l] with (Normal <$> [l]) in E. rewrite <- fmap_app in E. by apply (inj (fmap Normal)) in E.
Qed.

(** ** What every call keeps *)

Section below.
(** The path of the transfer, and the tree before it. *)
Variables (d : names) (t0 : Tree).
Hypothesis above : ∀ u v, d = u ++ v → v ≠ [] → node t0 u = Some NDir.

Record inv (w : FileWorld) : Prop := {
  i_ok : tree_ok (fw_tree w);
  i_outside : ∀ q, ¬ in_region d q → fw_tree w !! q = t0 !! q;
  i_helpers : ∀ q n, in_region d q → last q = Some n → helper_name n → is_link (fw_tree w !! q) = false;
  i_base : is_link (node (fw_tree w) d) = false;
  i_open : ∀ h hd q, fw_handles w !! h = Some hd → h_at hd = Some q → in_region d q;
}.
(** Names that are no links stay none. *)
Definition no_new_links (t t' : Tree) : Prop := ∀ q, is_link (node t q) = false → is_link (node t' q) = false.

Lemma inv_above w u v : inv w → d = u ++ v → v ≠ [] → node (fw_tree w) u = Some NDir.
Proof.
  intros Hw E Hv. pose proof (above u v E Hv) as Hu. destruct u as [|x u]; [done|].
  cbn in *. rewrite (i_outside w Hw); [done|]. by eapply above_region.
Qed.
Lemma inv_fault w : inv w → inv (next_fault w).
Proof. by intros []; constructor. Qed.
Lemma inv_tree w t :
  inv w → tree_ok t → (∀ q, ¬ in_region d q → t !! q = fw_tree w !! q) →
  (∀ q n, in_region d q → last q = Some n → helper_name n → is_link (t !! q) = false) →
  is_link (node t d) = false → inv (with_tree t w).
Proof. intros Hw Ht Ho Hh Hb. destruct Hw. constructor; try done. intros q Hq. cbn. rewrite Ho by done. auto. Qed.
Lemma inv_handles w hs :
  inv w → (∀ h hd q, hs !! h = Some hd → h_at hd = Some q → in_region d q) → inv (with_handles hs w).
Proof. by intros [] Hh; constructor. Qed.
Lemma inv_new_handle w q n : inv w → in_region d q → inv (with_new_handle (mkHandle (Some q) n) w).2.
Proof.
  intros Hw Hq. destruct Hw as [W1 W2 W3 W4 W5]. constructor; try done. cbn. intros h hd q'.
  destruct (decide (h = fw_next w)) as [->|Hne]; [rewrite lookup_insert_eq; by intros [= <-] [= <-]|].
  rewrite lookup_insert_ne by done. apply W5.
Qed.

(** A file or a directory where none was, or other contents. *)
Lemma inv_insert w q n :
  inv w → in_region d q → q ≠ [] → holds (fw_tree w) q = true → is_link (Some n) = false →
  (n = NDir ∨ node (fw_tree w) q ≠ Some NDir) → inv (with_tree (<[q := n]> (fw_tree w)) w).
Proof.
  intros Hw Hq Hne Hp Hn Hd. apply inv_tree; [done|apply tree_ok_insert; [apply Hw|done..]|..].
  - intros q' Hq'. apply lookup_insert_ne. by intros ->.
  - intros q' n' Hr Hl Hh. destruct (decide (q' = q)) as [->|Hqq]; [by rewrite lookup_insert_eq|].
    rewrite lookup_insert_ne by done. by eapply (i_helpers w Hw).
  - destruct (decide (d = q)) as [->|Hqq]; [by rewrite node_insert|]. rewrite node_insert_ne by done. apply Hw.
Qed.
Lemma no_links_insert (t : Tree) q n : is_link (Some n) = false → no_new_links t (<[q := n]> t).
Proof.
  intros Hn p Hp. destruct (decide (p = [])) as [->|Hpe]; [done|]. rewrite node_ne in * by done.
  destruct (decide (p = q)) as [->|Hne]; [by rewrite lookup_insert_eq|by rewrite lookup_insert_ne].
Qed.
Lemma inv_delete w q :
  inv w → in_region d q → (∀ s, fw_tree w !! (q ++ [s]) = None) → inv (with_tree (delete q (fw_tree w)) w).
Proof.
  intros Hw Hq Hs. apply inv_tree; [done|apply tree_ok_delete; [apply Hw|done]|..].
  - intros q' Hq'. apply lookup_delete_ne. by intros ->.
  - intros q' n' Hr Hl Hh. destruct (decide (q' = q)) as [->|Hqq]; [by rewrite lookup_delete_eq|].
    rewrite lookup_delete_ne by done. by eapply (i_helpers w Hw).
  - destruct (decide (d = [])) as [E|Hne]; [by rewrite E|]. rewrite node_ne by done.
    destruct (decide (d = q)) as [->|Hqq]; [by rewrite lookup_delete_eq|]. rewrite lookup_delete_ne by done.
    rewrite <- node_ne by done. apply Hw.
Qed.
Lemma no_links_delete (t : Tree) q : no_new_links t (delete q t).
Proof.
  intros p Hp. destruct (decide (p = [])) as [->|Hpe]; [done|]. rewrite node_ne in * by done.
  destruct (decide (p = q)) as [->|Hne]; [by rewrite lookup_delete_eq|by rewrite lookup_delete_ne].
Qed.
Lemma inv_move w f : inv w → (∀ q q', in_region d q → f q = Some q' → in_region d q') → inv (move_handles f w).
Proof.
  intros Hw Hf. apply inv_handles; [done|]. intros h hd q. rewrite lookup_fmap.
  destruct (fw_handles w !! h) as [hd0|] eqn:E; [|done]. intros [= <-]. cbn. destruct (h_at hd0) as [q0|] eqn:E0; [|done].
  cbn. intros Hq. apply (Hf q0); [|done]. by eapply (i_open w Hw).
Qed.

(** A run that keeps the invariant; its value satisfies [Q]. *)
Definition safe {A} (p : Prog FsIo A) (w : FileWorld) (Q : A → FileWorld → Prop) : Prop :=
  after fs_handler p w (λ a w', inv w' ∧ match a with Some a => Q a w' | None => True end).
Lemma safe_ret {A} (a : A) w (Q : A → FileWorld → Prop) : inv w → Q a w → safe (mret a) w Q.
Proof. done. Qed.
Lemma safe_bind {A B} (p : Prog FsIo A) (f : A → Prog FsIo B) w Q Q' :
  safe p w Q' → (∀ a w', inv w' → Q' a w' → safe (f a) w' Q) → safe (p ≫= f) w Q.
Proof.
  intros Hp Hf. apply after_bind. eapply after_mono; [|exact Hp]. intros [a|] w' [Hw HQ]; [by apply Hf|done].
Qed.
Lemma safe_mono {A} (p : Prog FsIo A) w (Q Q' : A → FileWorld → Prop) :
  (∀ a w', inv w' → Q a w' → Q' a w') → safe p w Q → safe p w Q'.
Proof. intros HQ. apply after_mono. intros [a|] w' [Hw Ha]; [split; auto|done]. Qed.
Lemma safe_ask {A} (e : FsIo A) w (Q : A → FileWorld → Prop) :
  (∀ a w', fs_handler A e w = Some (a, w') → inv w' ∧ Q a w') → safe (ask e) w Q.
Proof.
  intros He. unfold safe, after, ask. cbn [run]. destruct (fs_handler A e w) as [[a w']|] eqn:E; [|by destruct e].
  cbn. by apply He.
Qed.

(** ** Calls on paths of the region *)

(** No link on the way to [tgt], nor at its end where that would be followed. *)
Definition clear_to (t : Tree) (follow : bool) (tgt : names) : Prop :=
  ∀ u v, tgt = u ++ v → v ≠ [] ∨ follow = true → is_link (node t u) = false.
Lemma clear_mono t t' follow tgt : no_new_links t t' → clear_to t follow tgt → clear_to t' follow tgt.
Proof. intros Ht Hc u v E Hv. apply Ht. by eapply Hc. Qed.
Lemma lookup_clear w follow p tgt q :
  leads p tgt → clear_to (fw_tree w) follow tgt → lookup_path w follow p = Some q → q = tgt.
Proof.
  intros Hp Hc. unfold lookup_path, where_is. rewrite (leads_components p tgt Hp), resolve_root.
  destruct (resolve_plain LINKS follow (fw_tree w) tgt []) as [E|[e E]]; [|rewrite E; by intros [= <-]|by rewrite E].
  intros u v Eu _. by apply Hc.
Qed.
Lemma node_at_clear w follow p tgt q n :
  leads p tgt → clear_to (fw_tree w) follow tgt → node_at w follow p = Some (q, n) → q = tgt ∧ node (fw_tree w) tgt = Some n.
Proof.
  intros Hp Hc. unfold node_at. destruct (lookup_path w follow p) as [q'|] eqn:E; [|done]. cbn.
  apply (lookup_clear w follow p tgt) in E as ->; [|done..]. destruct (node (fw_tree w) tgt) as [n'|] eqn:E; [|done].
  by intros [= <- <-].
Qed.
Lemma no_links_refl t : no_new_links t t.
Proof. by intros q. Qed.

Definition shape (w : FileWorld) {A} (_ : A) (w' : FileWorld) : Prop := no_new_links (fw_tree w) (fw_tree w').
Lemma shape_trans (w w1 w2 : FileWorld) {A B} (a : A) (b : B) : shape w a w1 → shape w1 b w2 → shape w b w2.
Proof. intros H1 H2 q Hq. by apply H2, H1. Qed.

(** Calls that leave the tree. *)
Definition looks {A} (e : FsIo A) : Prop :=
  match e with
  | ReadDirNames _ | LinkMetadata _ | PathMetadata _ | FileMetadata _ | ReadWhole _ | SyncFile _ => True
  | _ => False
  end.
Lemma safe_look {A} (e : FsIo A) w : inv w → looks e → safe (ask e) w (λ _ w', w' = w).
Proof. intros Hw He. apply safe_ask. destruct e; try done; by intros a w' [= <- <-]. Qed.
Lemma safe_send m w : inv w → safe (ask (SendMessage m)) w (shape w).
Proof. intros Hw. apply safe_ask. intros a w' [= <- <-]. split; [by destruct Hw; constructor|apply no_links_refl]. Qed.

Lemma safe_opening {r w} :
  inv w → (∀ h w', r = Some (h, w') → inv w' ∧ no_new_links (fw_tree w) (fw_tree w')) →
  ∀ a w', opening r w = (a, w') → inv w' ∧ no_new_links (fw_tree w) (fw_tree w').
Proof.
  intros Hw Hr a w'. unfold opening. destruct (faulty w).
  { intros [= <- <-]. split; [by apply inv_fault|apply no_links_refl]. }
  destruct r as [[h w1]|]; intros [= <- <-]; [|split; [by apply inv_fault|apply no_links_refl]].
  destruct (Hr h w1 eq_refl) as [H1 H2]. split; [by apply inv_fault|done].
Qed.
Lemma safe_changing {A} {bad good : A} {r w} {P : FileWorld → Prop} :
  inv w → P w → (∀ w1, P w1 → P (next_fault w1)) → (∀ w', r = Some w' → inv w' ∧ P w') →
  ∀ a w', changing bad good r w = (a, w') → inv w' ∧ P w'.
Proof.
  intros Hw HP Hf Hr a w'. unfold changing. destruct (faulty w).
  { intros [= <- <-]. split; [by apply inv_fault|by apply Hf]. }
  destruct r as [w1|]; intros [= <- <-]; [|split; [by apply inv_fault|by apply Hf]].
  destruct (Hr w1 eq_refl) as [H1 H2]. split; [by apply inv_fault|by apply Hf].
Qed.

Lemma create_inv w p tgt h w' :
  inv w → leads p tgt → clear_to (fw_tree w) true tgt → in_region d tgt →
  create_file p w = Some (h, w') → inv w' ∧ no_new_links (fw_tree w) (fw_tree w').
Proof.
  intros Hw Hp Hc Hr. unfold create_file. destruct (lookup_path w true p) as [q|] eqn:E; [|done]. cbn.
  apply (lookup_clear w true p tgt) in E as ->; [|done..].
  assert (tgt ≠ [] → holds (fw_tree w) tgt = true → node (fw_tree w) tgt ≠ Some NDir →
    inv (with_new_handle (mkHandle (Some tgt) 0) (with_tree (<[tgt := NFile [] (fw_now w)]> (fw_tree w)) w)).2 ∧
    no_new_links (fw_tree w) (<[tgt := NFile [] (fw_now w)]> (fw_tree w))) as Hgo.
  { intros H1 H2 H3. split; [|by apply no_links_insert]. apply inv_new_handle; [|done]. apply inv_insert; try done. by right. }
  destruct (node (fw_tree w) tgt) as [[b m| |l]|] eqn:En; try done.
  - intros [= <- <-]. assert (tgt ≠ []) as Hne by by intros ->. apply Hgo; [done| |done].
    rewrite node_ne in En by done. eapply tree_ok_parent; [apply Hw|done|done].
  - destruct (holds _ _) eqn:Eh; [|done]. intros [= <- <-]. apply Hgo; [by intros ->|done|done].
Qed.
Lemma safe_create w p tgt :
  inv w → leads p tgt → clear_to (fw_tree w) true tgt → in_region d tgt → safe (ask (CreateFile p)) w (shape w).
Proof.
  intros Hw Hp Hc Hr. apply safe_ask. intros a w' [= E]. eapply safe_opening; [done| |exact E].
  intros h w1. by apply (create_inv w p tgt).
Qed.
Lemma safe_open_to_write w p tgt :
  inv w → leads p tgt → clear_to (fw_tree w) true tgt → in_region d tgt → safe (ask (OpenToWrite p)) w (shape w).
Proof.
  intros Hw Hp Hc Hr. apply safe_ask. intros a w' [= E]. eapply safe_opening; [done| |exact E].
  intros h w1 Ho. unfold open_to_write in Ho. pose proof (create_inv w p tgt h) as Hcr. unfold create_file in Hcr.
  destruct (lookup_path w true p) as [q|] eqn:Eq; [|done]. cbn in *.
  pose proof (lookup_clear w true p tgt q Hp Hc Eq) as ->.
  destruct (node (fw_tree w) tgt) as [[b m| |l]|] eqn:En; try done.
  - injection Ho as <- <-. split; [by apply inv_new_handle|apply no_links_refl].
  - destruct (holds _ _); [|done]. injection Ho as <- <-. by apply (Hcr _ Hw Hp Hc Hr eq_refl).
Qed.
Lemma safe_open w p tgt :
  inv w → leads p tgt → clear_to (fw_tree w) true tgt → in_region d tgt → safe (ask (OpenFile p)) w (shape w).
Proof.
  intros Hw Hp Hc Hr. apply safe_ask. intros a w' [= E]. eapply safe_opening; [done| |exact E].
  intros h w1. unfold open_file. destruct (node_at w true p) as [[q n]|] eqn:En; [|done].
  apply (node_at_clear w true p tgt) in En as [-> _]; [|done..]. intros [= <- <-].
  split; [by apply inv_new_handle|apply no_links_refl].
Qed.

Lemma write_handle_inv w h b : inv w → inv (write_handle h b w) ∧ no_new_links (fw_tree w) (fw_tree (write_handle h b w)).
Proof.
  intros Hw. unfold write_handle. destruct (fw_handles w !! h) as [hd|] eqn:Eh; [|split; [done|apply no_links_refl]].
  set (w1 := with_handles _ w). assert (inv w1) as Hw1.
  { apply inv_handles; [done|]. intros h' hd' q. destruct (decide (h' = h)) as [->|Hne].
    - rewrite lookup_insert_eq. intros [= <-]. cbn. by apply (i_open w Hw h).
    - rewrite lookup_insert_ne by done. by apply (i_open w Hw). }
  destruct (h_at hd) as [q|] eqn:Eq; [|split; [done|apply no_links_refl]].
  destruct (node (fw_tree w1) q) as [[c m| |]|] eqn:En; try (split; [done|apply no_links_refl]).
  assert (q ≠ []) as Hne by by intros ->. split; [|by apply no_links_insert].
  apply inv_insert; try done.
  - by apply (i_open w Hw h hd).
  - rewrite node_ne in En by done. eapply tree_ok_parent; [apply Hw1|done|done].
  - right. by rewrite En.
Qed.
Lemma safe_write w h b : inv w → safe (ask (WriteFile h b)) w (shape w).
Proof.
  intros Hw. apply safe_ask. intros a w' [= E]. destruct (faulty w); injection E as <- <-.
  - destruct (write_handle_inv w h (take (fw_cut w) b) Hw) as [H1 H2]. split; [by apply inv_fault|done].
  - destruct (write_handle_inv w h b Hw) as [H1 H2]. split; [by apply inv_fault|done].
Qed.
Lemma safe_write_whole w p b tgt :
  inv w → leads p tgt → clear_to (fw_tree w) true tgt → in_region d tgt → safe (ask (WriteWhole p b)) w (shape w).
Proof.
  intros Hw Hp Hc Hr. apply safe_ask. intros a w' [= E]. revert E. apply (safe_changing (P := λ w', no_new_links (fw_tree w) (fw_tree w'))); [done|apply no_links_refl|done|].
  intros w1. unfold write_whole. destruct (create_file p w) as [[h w2]|] eqn:Ec; [|done]. cbn. intros [= <-].
  destruct (create_inv w p tgt h w2 Hw Hp Hc Hr Ec) as [H1 H2].
  destruct (write_handle_inv w2 h b H1) as [H3 H4]. split.
  - apply inv_handles; [done|]. by apply Hw.
  - intros q Hq. by apply H4, H2.
Qed.
Lemma safe_seek w h pos : inv w → safe (ask (SeekFile h pos)) w (shape w).
Proof.
  intros Hw. apply safe_ask. intros a w' [= E]. destruct (fw_handles w !! h) as [hd|] eqn:Eh; injection E as <- <-; [|split; [done|apply no_links_refl]].
  split; [|apply no_links_refl]. apply inv_handles; [done|]. intros h' hd' q. destruct (decide (h' = h)) as [->|Hne].
  - rewrite lookup_insert_eq. intros [= <-]. cbn. by apply (i_open w Hw h).
  - rewrite lookup_insert_ne by done. by apply (i_open w Hw).
Qed.
Lemma safe_read w h n : inv w → safe (ask (ReadSome h n)) w (shape w).
Proof.
  intros Hw. apply safe_ask. intros a w' [= E]. change (read_handle h n w = (a, w')) in E.
  cut (inv (read_handle h n w).2 ∧ no_new_links (fw_tree w) (fw_tree (read_handle h n w).2)); [by rewrite E|].
  clear a w' E. unfold read_handle.
  destruct (fw_handles w !! h) as [[[q|] pos]|] eqn:Eh; [|split; [done|apply no_links_refl]..].
  destruct (node (fw_tree w) q) as [[c m| |]|]; cbn; (split; [|apply no_links_refl]); try done.
  apply inv_handles; [done|]. intros h' hd' q'. destruct (decide (h' = h)) as [->|Hne].
  - rewrite lookup_insert_eq. intros [= <-]. cbn. intros [= <-]. by apply (i_open w Hw h _ _ Eh).
  - rewrite lookup_insert_ne by done. by apply (i_open w Hw).
Qed.

Lemma safe_remove w p tgt :
  inv w → leads p tgt → clear_to (fw_tree w) false tgt → in_region d tgt → safe (ask (RemoveFile p)) w (shape w).
Proof.
  intros Hw Hp Hc Hr. apply safe_ask. intros a w' [= E]. revert E. apply (safe_changing (P := λ w', no_new_links (fw_tree w) (fw_tree w'))); [done|apply no_links_refl|done|].
  intros w1. unfold remove_node. destruct (node_at w false p) as [[q n]|] eqn:En; [|done].
  apply (node_at_clear w false p tgt) in En as [-> En]; [|done..]. cbn.
  assert (n ≠ NDir → inv (move_handles (unlinked tgt) (with_tree (delete tgt (fw_tree w)) w)) ∧
                     no_new_links (fw_tree w) (delete tgt (fw_tree w))) as Hgo.
  { intros Hn. split; [|apply no_links_delete]. apply inv_move.
    - apply inv_delete; [done|done|]. intros s. apply tree_ok_below; [apply Hw|congruence|done].
    - intros q q' Hq. unfold unlinked. case_bool_decide; [done|]. by intros [= <-]. }
  destruct n; [intros [= <-]; by apply Hgo|done|intros [= <-]; by apply Hgo].
Qed.
Lemma safe_mtime w p secs tgt :
  inv w → leads p tgt → clear_to (fw_tree w) true tgt → in_region d tgt → safe (ask (SetMtime p secs)) w (shape w).
Proof.
  intros Hw Hp Hc Hr. apply safe_ask. intros a w' [= E]. revert E. apply (safe_changing (P := λ w', no_new_links (fw_tree w) (fw_tree w'))); [done|apply no_links_refl|done|].
  intros w1. unfold set_mtime. destruct (node_at w true p) as [[q n]|] eqn:En; [|done].
  apply (node_at_clear w true p tgt) in En as [-> En]; [|done..]. cbn. destruct n as [b m| |l]; intros [= <-]; [|split; [done|apply no_links_refl]..].
  assert (tgt ≠ []) as Hne by by intros ->. split; [|by apply no_links_insert].
  apply inv_insert; try done; [|right; by rewrite En]. rewrite node_ne in En by done. eapply tree_ok_parent; [apply Hw|done|done].
Qed.

(** Renaming onto [tb] brings nothing but what was at [ta] there. *)
Definition renamed (w : FileWorld) (tb : names) {A} (_ : A) (w' : FileWorld) : Prop :=
  ∀ q, is_link (node (fw_tree w) q) = false → (∀ x, x ≠ [] → q ≠ tb ++ x) → is_link (node (fw_tree w') q) = false.
Lemma move_tree_spec t ta tb q n :
  (∀ r, t !! (tb ++ r) = None) → move_tree ta tb t !! q = Some n →
  (∃ x, q = tb ++ x ∧ t !! (ta ++ x) = Some n) ∨ (¬ ta `prefix_of` q ∧ t !! q = Some n).
Proof.
  intros Hf Hq. apply (lookup_moved ta tb t Hf) in Hq as (p & E & Hn).
  destruct (moved_cases ta tb p) as [(x & -> & Ex)|(Np & Ex)]; rewrite Ex in E; subst; [left; by exists x|by right].
Qed.
Lemma moved_inv w ta tb t :
  inv w → in_region d ta → in_region d tb → ta ≠ [] → tb ≠ [] → is_link (node (fw_tree w) ta) = false →
  ¬ ta `prefix_of` tb → tree_ok t → holds t tb = true → (∀ r, t !! (tb ++ r) = None) →
  (∀ q, q ≠ tb → t !! q = fw_tree w !! q) →
  inv (with_tree (move_tree ta tb t) w) ∧ renamed w tb tt (with_tree (move_tree ta tb t) w).
Proof.
  intros Hw Ha Hb Hane Hbne Hl Hab Hok Hh Hf Ht.
  assert (∀ q, is_link (t !! q) = true → is_link (fw_tree w !! q) = true) as Hlinks.
  { intros q. destruct (decide (q = tb)) as [->|Hne]; [|by rewrite Ht]. specialize (Hf []). rewrite app_nil_r in Hf. by rewrite Hf. }
  assert (∀ q, is_link (move_tree ta tb t !! q) = true →
    (∃ x, x ≠ [] ∧ q = tb ++ x ∧ is_link (fw_tree w !! (ta ++ x)) = true) ∨ is_link (fw_tree w !! q) = true) as Hfrom.
  { intros q Hq. destruct (move_tree ta tb t !! q) as [n|] eqn:E; [|done]. apply move_tree_spec in E; [|done].
    destruct E as [(x & -> & Ex)|[_ Ex]]; [left|right; apply Hlinks; by rewrite Ex].
    exists x. split_and!; [|done|apply Hlinks; by rewrite Ex]. intros ->. rewrite app_nil_r in Ex.
    rewrite node_ne in Hl by done. assert (is_link (t !! ta) = true) as Hx by by rewrite Ex. apply Hlinks in Hx. congruence. }
  split; [apply inv_tree|].
  - done.
  - by apply tree_ok_moved.
  - intros q Hq. assert (q ≠ tb) as Hne by by intros ->. apply option_eq. intros n. rewrite (lookup_moved ta tb t Hf). rewrite <- Ht by done. split.
    + intros (p & E & Hn). destruct (moved_cases ta tb p) as [(x & -> & Ex)|(Np & Ex)]; rewrite Ex in E; subst; [|done].
      exfalso. by apply Hq, region_ext.
    + intros Hn. exists q. split; [|done]. apply moved_other. intros [x ->]. by apply Hq, region_ext.
  - intros q n Hr Hlast Hn. apply not_true_is_false. intros Hq. apply Hfrom in Hq as [(x & Hx & -> & Hq)|Hq].
    + rewrite last_app in Hlast. destruct (last x) as [n'|] eqn:El; [|by apply last_None in El].
      injection Hlast as ->. rewrite (i_helpers w Hw (ta ++ x) n) in Hq; [done|by apply region_ext| |done]. by rewrite last_app, El.
    + by rewrite (i_helpers w Hw q n) in Hq.
  - apply not_true_is_false. intros Hq. pose proof (i_base w Hw) as Hbase.
    destruct (decide (d = [])) as [E|Hd]; [by rewrite E in Hq|]. rewrite node_ne in * by done.
    apply Hfrom in Hq as [(x & Hx & E & _)|Hq]; [|congruence]. by apply (above_region d tb x).
  - intros q Hq Hx. apply not_true_is_false. intros Hq'. cbn in Hq'.
    destruct (decide (q = [])) as [->|Hqe]; [done|]. rewrite node_ne in * by done.
    apply Hfrom in Hq' as [(x & Hxe & -> & _)|Hq']; [by apply (Hx x)|congruence].
Qed.
Lemma safe_rename w a b ta tb :
  inv w → leads a ta → leads b tb → clear_to (fw_tree w) false ta → clear_to (fw_tree w) false tb →
  in_region d ta → in_region d tb → is_link (node (fw_tree w) ta) = false → safe (ask (RenameFile a b)) w (renamed w tb).
Proof.
  intros Hw Ha Hb Hca Hcb Hra Hrb Hl. apply safe_ask. intros x w' [= E]. revert E.
  apply (safe_changing (P := λ w', renamed w tb tt w')); [done|by intros q Hq _|done|].
  intros w1. unfold rename_node. destruct (node_at w false a) as [[q na]|] eqn:En; [|done].
  apply (node_at_clear w false a ta) in En as [-> En]; [|done..]. cbn.
  destruct (lookup_path w false b) as [qb|] eqn:Eb; [|done]. cbn. apply (lookup_clear w false b tb) in Eb as ->; [|done..].
  case_bool_decide as Eab. { intros [= <-]. split; [done|]. by intros q Hq _. }
  destruct (_ || _) eqn:Ec; [done|]. apply orb_false_iff in Ec as [Ec Hh]. apply orb_false_iff in Ec as [Ec Hbe].
  apply orb_false_iff in Ec as [Hp Hae]. apply bool_decide_eq_false_1 in Hp, Hae, Hbe. apply negb_false_iff in Hh.
  assert (∀ q q', in_region d q → Some (moved ta tb q) = Some q' → in_region d q') as Hmv.
  { intros q q' Hq [= <-]. destruct (moved_cases ta tb q) as [(y & _ & ->)|(_ & ->)]; [by apply region_ext|done]. }
  destruct na as [c m| |l]; [| |rewrite En in Hl; done].
  - assert (node (fw_tree w) tb ≠ Some NDir → inv (move_handles
        (λ p, if bool_decide (p = tb) then None else if bool_decide (p = ta) then Some tb else Some p)
        (with_tree (<[tb := NFile c m]> (delete ta (fw_tree w))) w)) ∧
      renamed w tb tt (with_tree (<[tb := NFile c m]> (delete ta (fw_tree w))) w)) as Hgo.
    { intros Hnb. assert (inv (with_tree (delete ta (fw_tree w)) w)) as Hd.
      { apply inv_delete; [done|done|]. intros s. apply tree_ok_below; [apply Hw|congruence|done]. }
      split.
      - apply inv_move.
        + pose proof (inv_insert (with_tree (delete ta (fw_tree w)) w) tb (NFile c m) Hd Hrb Hbe) as Hi. apply Hi; [|done|].
          * cbn. unfold holds in *. rewrite node_delete_ne; [done|]. intros Et.
            assert (ta `prefix_of` tb) as Hpre; [|done]. rewrite <- Et. destruct (exists_last Hbe) as (y & z & ->).
            rewrite removelast_last. by exists [z].
          * right. cbn. by rewrite node_delete_ne.
        + intros q q' Hq. repeat case_bool_decide; intros [=]; by subst.
      - intros q Hq _. cbn. apply no_links_insert; [done|]. by apply no_links_delete. }
    destruct (node (fw_tree w) tb) as [[]|] eqn:Ent; try done; intros [= <-]; by apply Hgo.
  - destruct (node (fw_tree w) tb) as [[c m| |l]|] eqn:Ent; try done.
    + destruct (empty_dir (fw_tree w) tb) eqn:Ee; [|done]. intros [= <-].
      assert (∀ r, r ≠ [] → fw_tree w !! (tb ++ r) = None) as Hbel by (apply empty_dir_below; [apply Hw|done]).
      assert (∀ r, delete tb (fw_tree w) !! (tb ++ r) = None) as Hfree.
      { intros [|s r]; [by rewrite app_nil_r, lookup_delete_eq|]. apply lookup_delete_None. right. by apply Hbel. }
      destruct (moved_inv w ta tb (delete tb (fw_tree w))) as [Hi Hs]; try done.
      * apply tree_ok_delete; [apply Hw|]. intros s. by apply Hbel.
      * unfold holds in *. rewrite node_delete_ne; [done|]. intros Et. apply (f_equal length) in Et.
        destruct (exists_last Hbe) as (y & z & ->). rewrite removelast_last, length_app in Et. cbn in Et. lia.
      * intros q Hq. by apply lookup_delete_ne.
      * split; [by apply inv_move|done].
    + intros [= <-]. assert (∀ r, fw_tree w !! (tb ++ r) = None) as Hfree.
      { intros [|s r]; [rewrite app_nil_r, <- node_ne by done; exact Ent|]. apply tree_ok_below; [apply Hw|congruence|done]. }
      destruct (moved_inv w ta tb (fw_tree w)) as [Hi Hs]; try done; [apply Hw|]. split; [by apply inv_move|done].
Qed.

(** Missing directories. *)
Lemma make_dirs_spec l : ∀ t cur t',
  tree_ok t → node t cur = Some NDir → (∀ u v, l = u ++ v → is_link (node t (cur ++ u)) = false) →
  make_dirs t cur (Normal <$> l) = Some t' →
  tree_ok t' ∧ ∀ q, t' !! q = t !! q ∨ (t !! q = None ∧ t' !! q = Some NDir ∧ ∃ u v, l = u ++ v ∧ u ≠ [] ∧ q = cur ++ u).
Proof.
  induction l as [|s l IH]; intros t cur t' Ht Hcur Hl; cbn [fmap list_fmap make_dirs]; [intros [= <-]; auto|].
  destruct (node t (cur ++ [s])) as [n|] eqn:En.
  - rewrite resolve_normal, En. pose proof (Hl [s] l eq_refl) as Hs. rewrite En in Hs.
    assert (∀ t', match node t (cur ++ [s]) with Some NDir => make_dirs t (cur ++ [s]) (Normal <$> l) | _ => None end = Some t' →
      tree_ok t' ∧ ∀ q, t' !! q = t !! q ∨ (t !! q = None ∧ t' !! q = Some NDir ∧ ∃ u v, s :: l = u ++ v ∧ u ≠ [] ∧ q = cur ++ u)) as Hgo.
    { intros t1. rewrite En. destruct n as [| |]; try done. intros E.
      apply IH in E as [H1 H2]; [|done|done|intros u v ->; rewrite <- app_assoc; by apply (Hl (s :: u) v)].
      split; [done|]. intros q. destruct (H2 q) as [Hq|(Hq & Hq' & u & v & -> & Hu & ->)]; [by left|right].
      split_and!; [done|done|]. exists (s :: u), v. by rewrite <- app_assoc. }
    rewrite En in Hgo. destruct n as [b m| |tg]; [|rewrite resolve_nil; cbn; rewrite En; apply Hgo|done]. cbn. by rewrite En.
  - intros E. assert (cur ++ [s] ≠ []) as Hne by by destruct cur.
    assert (tree_ok (<[cur ++ [s] := NDir]> t)) as Ht'.
    { apply tree_ok_insert; [done|done| |by left]. unfold holds. rewrite removelast_last. by rewrite Hcur. }
    apply IH in E as [H1 H2]; [|done|by apply node_insert|].
    + split; [done|]. intros q. destruct (H2 q) as [Hq|(Hq & Hq' & u & v & -> & Hu & ->)].
      * rewrite Hq. destruct (decide (q = cur ++ [s])) as [->|Hqne].
        -- right. rewrite <- node_ne by done. split_and!; [done|by rewrite lookup_insert_eq|]. by exists [s], l.
        -- left. by rewrite lookup_insert_ne.
      * right. assert (cur ++ [s] ≠ (cur ++ [s]) ++ u) as Hx.
        { intros E%(f_equal length). rewrite !length_app in E. destruct u; [done|]. cbn in E. lia. }
        rewrite lookup_insert_ne in Hq by done. split_and!; [done|done|]. exists (s :: u), v. by rewrite <- app_assoc.
    + intros u v ->. apply no_links_insert; [done|]. rewrite <- app_assoc. by apply (Hl (s :: u) v).
Qed.
Lemma safe_create_dirs w p tgt :
  inv w → leads p tgt → clear_to (fw_tree w) true tgt → (∀ u v, tgt = u ++ v → in_region d u ∨ node (fw_tree w) u = Some NDir) →
  safe (ask (CreateDirAll p)) w (shape w).
Proof.
  intros Hw Hp Hc Hr. apply safe_ask. intros a w' [= E]. revert E.
  apply (safe_changing (P := λ w', no_new_links (fw_tree w) (fw_tree w'))); [done|apply no_links_refl|done|].
  intros w1. rewrite (leads_components p tgt Hp). cbn [make_dirs].
  destruct (make_dirs (fw_tree w) [] (Normal <$> tgt)) as [t'|] eqn:Em; [|done]. intros [= <-].
  apply make_dirs_spec in Em as [Hok Hq]; [|apply Hw|done|intros u v E; apply (Hc u v E); by right].
  assert (∀ q, q ≠ [] → is_link (fw_tree w !! q) = false → is_link (t' !! q) = false) as Hl.
  { intros q _ Hq'. by destruct (Hq q) as [->|(_ & -> & _)]. }
  split; [apply inv_tree; [done|done|..]|].
  - intros q Hnr. destruct (Hq q) as [?|(Hn & _ & u & v & E & Hu & ->)]; [done|]. exfalso.
    destruct (Hr u v E) as [?|Hd]; [done|]. rewrite node_ne in Hd by done. cbn in Hn. congruence.
  - intros q n Hrq Hlast Hn. apply Hl; [by intros ->|]. by eapply (i_helpers w Hw).
  - destruct (decide (d = [])) as [E|Hd]; [by rewrite E|]. rewrite node_ne by done. apply Hl; [done|].
    rewrite <- node_ne by done. apply Hw.
  - intros q Hq'. cbn. destruct (decide (q = [])) as [->|Hd]; [done|]. rewrite node_ne in * by done. by apply Hl.
Qed.

(** ** The checks of a name *)

Definition clear_below (t : Tree) (ss : names) : Prop := ∀ u v, ss = u ++ v → is_link (node t (d ++ u)) = false.
Lemma clear_below_mono t t' ss : no_new_links t t' → clear_below t ss → clear_below t' ss.
Proof. intros Ht Hc u v E. by eapply Ht, Hc. Qed.
Lemma clear_path w ss : inv w → clear_below (fw_tree w) ss → ∀ follow, clear_to (fw_tree w) follow (d ++ ss).
Proof.
  intros Hw Hc follow u v E _. apply app_eq_inv in E as [(k & Ed & Ev)|(k & Eu & Ek)].
  - destruct (decide (k = [])) as [->|Hk].
    + rewrite app_nil_r in Ed. subst u. apply Hw.
    + by rewrite (inv_above w u k Hw Ed Hk).
  - subst u. by apply (Hc k v).
Qed.

Lemma check_components_safe l : ∀ w cur c,
  inv w → leads cur c → Forall plain_name l → clear_to (fw_tree w) true c →
  safe (check_components cur (Normal <$> l)) w
    (λ r w', w' = w ∧ (r = Ok tt → clear_to (fw_tree w) true (c ++ l))).
Proof.
  induction l as [|s l IH]; intros w cur c Hw Hcur Hl Hc.
  { apply safe_ret; [done|]. by rewrite app_nil_r. }
  apply Forall_cons in Hl as [Hs Hl]. cbn [fmap list_fmap check_components].
  pose proof (leads_plain cur c s Hcur Hs) as Hj.
  eapply safe_bind; [apply safe_ask; intros a w' E; exact (conj (ltac:(injection E as <- <-; exact Hw) : inv w') E)|].
  intros a w1 _ [= <- <-].
  assert (is_link (node (fw_tree w) (c ++ [s])) = false → safe (check_components (path_join cur s) (Normal <$> l)) w
    (λ r w', w' = w ∧ (r = Ok tt → clear_to (fw_tree w) true (c ++ s :: l)))) as Hgo.
  { intros Hn. eapply safe_mono; [|apply (IH w (path_join cur s) (c ++ [s])); [done|done|done|]].
    - intros r w' _ [-> Hr]. split; [done|]. rewrite <- app_assoc in Hr. exact Hr.
    - intros u v E _. destruct v as [|x v] using rev_ind; [rewrite app_nil_r in E; by subst u|].
      rewrite app_assoc in E. apply app_inj_tail in E as [-> ->]. apply (Hc u v eq_refl). by right. }
  unfold where_is. rewrite (leads_components _ _ Hj), resolve_root.
  destruct (resolve LINKS false (fw_tree w) [] (Normal <$> (c ++ [s]))) as [q|e] eqn:Er.
  - destruct (resolve_plain LINKS false (fw_tree w) (c ++ [s]) []) as [E|[e E]].
    + intros u v E Hu [Hv|Hv]; [|done]. cbn. destruct (exists_last Hv) as (v' & x & ->). rewrite app_assoc in E.
      apply app_inj_tail in E as [-> ->]. apply (Hc u v' eq_refl). by right.
    + rewrite E in Er. injection Er as <-. cbn [app]. destruct (node (fw_tree w) (c ++ [s])) as [n|] eqn:En; [|by apply Hgo].
      destruct n as [b m| |tg]; cbn; [by apply Hgo|by apply Hgo|]. by apply safe_ret.
    + by rewrite E in Er.
  - destruct e; [|by apply safe_ret]. apply Hgo. destruct (node (fw_tree w) (c ++ [s])) as [n|] eqn:En; [|done].
    rewrite (resolve_existing LINKS (fw_tree w) (c ++ [s]) n) in Er; [done|apply Hw|done].
Qed.

(** ** The files of a job *)

Variable base : string.
Hypothesis base_leads : leads base d.
Hypothesis base_utf8 : is_utf8 base.

(** A path of the region that was checked. *)
Definition checked (w : FileWorld) (path : string) (ss : names) : Prop :=
  is_utf8 path ∧ leads path (d ++ ss) ∧ clear_below (fw_tree w) ss.
Lemma checked_shape w w' path ss {A} (a : A) : shape w a w' → checked w path ss → checked w' path ss.
Proof. intros Hs (H1 & H2 & H3). split_and!; [done|done|by eapply clear_below_mono]. Qed.
Lemma checked_string w path ss : checked w path ss → get_string path = path.
Proof. intros (Hu & _ & _). unfold get_string, to_str. by rewrite from_utf8_bytes. Qed.

Lemma join_checked w name :
  inv w → is_utf8 name →
  safe (join_validated_path base name) w (λ r w', w' = w ∧ ∀ path, r = Ok path → ∃ ss, checked w path ss).
Proof.
  intros Hw Hu. unfold join_validated_path.
  destruct (validate_file_name_no_traversal false name) as [[]|e] eqn:Ev; [|by apply safe_ret].
  apply valid_name in Ev as [Ha [ss Hss]]. unfold validate_no_symlink_components, join_name.
  destruct (bool_decide (name = ""%string)) eqn:En.
  { unfold try_bind. cbn. split; [done|]. split; [done|]. intros path [= <-]. exists []. split_and!; [done|by rewrite app_nil_r|].
    intros u v E. destruct u; [|done]. rewrite app_nil_r. apply Hw. }
  assert (safe (check_components base (components name)) w (λ r w', w' = w ∧ (r = Ok tt → clear_to (fw_tree w) true (d ++ ss)))) as Hc.
  { assert (clear_to (fw_tree w) true d) as Hd.
    { rewrite <- (app_nil_r d). apply clear_path; [done|]. intros u v E. destruct u; [|done]. rewrite app_nil_r. apply Hw. }
    pose proof (check_components_safe ss w base d Hw base_leads (pieces_plain name ss Hss) Hd) as Hcs.
    destruct (components_relative name ss Ha Hss) as [-> | ->]; exact Hcs. }
  unfold try_bind. eapply safe_bind; [exact Hc|]. intros r w' Hw' [-> Hr]. destruct r as [[]|e]; [|by apply safe_ret].
  apply safe_ret; [done|]. split; [done|]. intros path [= <-]. exists ss. split_and!.
  - unfold path_join. rewrite Ha. destruct (_ || _); [by apply is_utf8_app|]. apply is_utf8_app; [done|].
    change (String slash name) with ("/" +:+ name). by apply is_utf8_app.
  - by apply leads_join.
  - intros u v E. apply (Hr eq_refl (d ++ u) v); [by rewrite E, app_assoc|by right].
Qed.

Lemma helper_path w path ss s :
  inv w → checked w path ss → helper_suffix s →
  ∃ tgt, leads (path +:+ s) tgt ∧ in_region d tgt ∧ tgt ≠ [] ∧ ∀ follow, clear_to (fw_tree w) follow tgt.
Proof.
  intros Hw (_ & Hl & Hc) Hs. destruct (leads_suffix path (d ++ ss) s Hl Hs) as (i & x & Hi & Hcases).
  assert (in_region d (i ++ [x +:+ s]) ∧ i `prefix_of` d ++ ss) as [Hr Hp].
  { assert (d ++ ss = i → in_region d (i ++ [x +:+ s]) ∧ i `prefix_of` d ++ ss) as Hi1.
    { intros <-. split; [rewrite <- app_assoc; apply region_below|done]. }
    destruct Hcases as [E|[[E _]|[E _]]]; [|by apply Hi1..].
    split; [|rewrite E; by exists [x]]. destruct (decide (ss = [])) as [->|Hss].
    - rewrite app_nil_r in E. right. exists i, x, s. split_and!; [done|done|done].
    - destruct (exists_last Hss) as (ss' & y & ->). rewrite app_assoc in E. apply app_inj_tail in E as [<- ->].
      rewrite <- app_assoc. apply region_below. }
  exists (i ++ [x +:+ s]). split_and!; [done|done|by destruct i|].
  intros follow u v E Hv. destruct v as [|y v] using rev_ind.
  - rewrite app_nil_r in E. subst u. rewrite node_ne by (by destruct i).
    apply (i_helpers w Hw _ (x +:+ s)); [done|by rewrite last_snoc|]. by exists x, s.
  - rewrite app_assoc in E. apply app_inj_tail in E as [-> _]. destruct Hp as [k Hp].
    apply (clear_path w ss Hw Hc true u (v ++ k)); [by rewrite app_assoc|by right].
Qed.

Lemma resolve_entry_safe w j name :
  inv w → is_utf8 name → tj_type j = Generic →
  safe (resolve_entry_path j base name) w (λ r w', w' = w ∧ ∀ path, r = Some path → ∃ ss, checked w path ss).
Proof.
  intros Hw Hu Hj. unfold resolve_entry_path. rewrite bool_decide_eq_true_2 by done.
  eapply safe_bind; [by apply join_checked|]. intros [path|e] w' Hw' [-> Hr]; apply safe_ret; [done| |done|done].
  split; [done|]. intros p [= <-]. by apply Hr.
Qed.

(** What the theorems need of the job: it is over [base], and the names of its
    files are texts. *)
Record job_ok (j : TransferJob) : Prop := {
  jo_type : tj_type j = Generic;
  jo_source : tj_data_source j = FilePath base;
  jo_names : Forall (λ e, is_utf8 (fe_name e)) (tj_files j);
}.
Lemma at_index_in {A} (l : list A) n a : at_index l n = Some a → a ∈ l.
Proof. unfold at_index. destruct (_ <? _); [|done]. apply list_elem_of_lookup_2. Qed.
Lemma job_name j n e : job_ok j → at_index (tj_files j) n = Some e → is_utf8 (fe_name e).
Proof. intros Hj He%at_index_in. pose proof (jo_names j Hj) as Hn. rewrite Forall_forall in Hn. by apply Hn. Qed.

Lemma current_path_safe w j :
  inv w → job_ok j →
  safe (current_path j) w (λ r w', w' = w ∧ ∀ e path, r = Some (e, path) → ∃ ss, checked w path ss).
Proof.
  intros Hw Hj. unfold current_path. rewrite (jo_type j Hj), (jo_source j Hj). cbn [bool_decide].
  rewrite bool_decide_eq_false_2 by done.
  destruct (at_index (tj_files j) (as_usize (tj_file_num j))) as [e|] eqn:E; [|by apply safe_ret].
  eapply safe_bind; [apply resolve_entry_safe; [done|by eapply job_name|apply Hj]|].
  intros [p|] w' Hw' [-> Hr]; apply safe_ret; [done| |done|done]. split; [done|]. intros e' path [= <- <-]. by apply Hr.
Qed.

Ltac bound r := match goal with |- safe (?p ≫= _) _ _ => eapply safe_bind; [r|] end.
Definition kept {A} (_ : A) (_ : FileWorld) : Prop := True.
Lemma safe_kept {A} (p : Prog FsIo A) w (Q : A → FileWorld → Prop) : safe p w Q → safe p w kept.
Proof. by apply safe_mono. Qed.

Lemma checked_clear w path ss follow : inv w → checked w path ss → clear_to (fw_tree w) follow (d ++ ss).
Proof. intros Hw (_ & _ & Hc). by apply clear_path. Qed.
Lemma remove_helper_safe w path ss s :
  inv w → checked w path ss → helper_suffix s → safe (ask (RemoveFile (path +:+ s))) w (λ _ w', checked w' path ss).
Proof.
  intros Hw Hc Hs. destruct (helper_path w path ss s Hw Hc Hs) as (tgt & Hl & Hr & _ & Hcl).
  eapply safe_mono; [|by apply (safe_remove w _ tgt)]. intros b w' _ Hsh. by eapply checked_shape.
Qed.

Lemma modify_time_safe w j : inv w → job_ok j → safe (modify_time j) w kept.
Proof.
  intros Hw Hj. unfold modify_time. eapply safe_bind; [by apply current_path_safe|].
  intros [[e path]|] w' _ [-> Hr]; [|by apply safe_ret]. destruct (Hr e path eq_refl) as [ss Hc].
  rewrite (checked_string w path ss Hc).
  eapply safe_bind; [by apply (remove_helper_safe w path ss); [done|done|right]|]. intros b1 w1 Hw1 Hc1.
  destruct (helper_path w1 path ss ".download" Hw1 Hc1 (or_introl eq_refl)) as (ta & Ha & Hra & Hane & Hca).
  eapply safe_bind.
  { apply (safe_rename w1 _ path ta (d ++ ss)); [done|done|apply Hc1|apply Hca|by apply (checked_clear w1 path)|done|apply region_below|].
    apply (Hca true ta []); [by rewrite app_nil_r|by right]. }
  intros b2 w2 Hw2 Hren.
  assert (checked w2 path ss) as Hc2.
  { destruct Hc1 as (H1 & H2 & H3). split_and!; [done|done|]. intros u v E. apply Hren; [by eapply H3|].
    intros x Hx E'. rewrite E, <- !app_assoc in E'. apply app_inv_head in E'. apply (f_equal length) in E'. rewrite !length_app in E'.
    destruct x; [done|]. cbn in E'. lia. }
  eapply safe_bind; [|intros b3 w3 Hw3 _; by apply safe_ret].
  apply (safe_mtime w2 path _ (d ++ ss)); [done|apply Hc2|by apply (checked_clear w2 path)|apply region_below].
Qed.
Lemma remove_download_safe w j : inv w → job_ok j → safe (remove_download_file j) w kept.
Proof.
  intros Hw Hj. unfold remove_download_file. eapply safe_bind; [by apply current_path_safe|].
  intros [[e path]|] w' _ [-> Hr]; [|by apply safe_ret]. destruct (Hr e path eq_refl) as [ss Hc].
  rewrite (checked_string w path ss Hc).
  eapply safe_bind; [by apply (remove_helper_safe w path ss); [done|done|left]|]. intros b1 w1 Hw1 Hc1.
  eapply safe_bind; [by apply (remove_helper_safe w1 path ss); [done|done|right]|]. intros b2 w2 Hw2 _. by apply safe_ret.
Qed.

(** ** Methods of a job *)

Section methods.
Context `{Zstd} `{JsonLib} `{ErrorText}.

Definition jsafe {A} (p : Job A) (j : TransferJob) (w : FileWorld) (Q : A → TransferJob → FileWorld → Prop) : Prop :=
  safe (p j) w (λ r w', job_ok r.1 ∧ Q r.2 r.1 w').
Lemma jsafe_ret {A} (a : A) j w (Q : A → TransferJob → FileWorld → Prop) : inv w → job_ok j → Q a j w → jsafe (mret a) j w Q.
Proof. done. Qed.
Lemma jsafe_bind {A B} (p : Job A) (f : A → Job B) j w Q Q' :
  jsafe p j w Q' → (∀ a j' w', inv w' → job_ok j' → Q' a j' w' → jsafe (f a) j' w' Q) → jsafe (p ≫= f) j w Q.
Proof.
  intros Hp Hf. unfold jsafe. change ((p ≫= f) j) with ('(j, a) ← p j; f a j). eapply safe_bind; [exact Hp|].
  intros [j' a] w' Hw' [Hj' HQ]. by apply Hf.
Qed.
Lemma jsafe_try {A B} (p : Job (result Failure A)) (f : A → Job (result Failure B)) j w Q Q' :
  jsafe p j w Q' → (∀ e j' w', inv w' → job_ok j' → Q' (Err e) j' w' → Q (Err e) j' w') →
  (∀ a j' w', inv w' → job_ok j' → Q' (Ok a) j' w' → jsafe (f a) j' w' Q) → jsafe (job_try p f) j w Q.
Proof.
  intros Hp He Hf. unfold job_try. eapply jsafe_bind; [exact Hp|]. intros [a|e] j' w' Hw' Hj' HQ; [by apply Hf|].
  apply jsafe_ret; [done|done|by apply He].
Qed.
Lemma jsafe_self {A} (f : TransferJob → Job A) j w Q : jsafe (f j) j w Q → jsafe (self ≫= f) j w Q.
Proof. done. Qed.
Lemma jsafe_io {A} (p : Prog FsIo A) j w Q : job_ok j → safe p w (λ a w', Q a j w') → jsafe (io p) j w Q.
Proof. intros Hj Hp. unfold jsafe, io. eapply safe_bind; [exact Hp|]. intros a w' Hw' Ha. by apply safe_ret. Qed.
Lemma jsafe_modify f j w (Q : unit → TransferJob → FileWorld → Prop) : inv w → job_ok (f j) → Q tt (f j) w → jsafe (modify_self f) j w Q.
Proof. done. Qed.
Lemma jsafe_mono {A} (p : Job A) j w (Q Q' : A → TransferJob → FileWorld → Prop) :
  (∀ a j' w', inv w' → job_ok j' → Q a j' w' → Q' a j' w') → jsafe p j w Q → jsafe p j w Q'.
Proof. intros HQ. apply safe_mono. intros [j' a] w' Hw' [Hj' Ha]. split; [done|by apply HQ]. Qed.

Definition anything {A} (_ : A) (_ : TransferJob) (_ : FileWorld) : Prop := True.
Lemma jsafe_io_kept {A} (p : Prog FsIo A) j w : job_ok j → safe p w kept → jsafe (io p) j w anything.
Proof. intros Hj Hp. apply jsafe_io; [done|]. by eapply safe_mono; [|exact Hp]. Qed.
Lemma ensure_safe e (p : Prog FsIo bool) w : safe p w kept → safe (ensure e p) w kept.
Proof. intros Hp. eapply safe_bind; [exact Hp|]. intros b w' Hw' _. by apply safe_ret. Qed.
Lemma or_else_safe {A} e (p : Prog FsIo (option A)) w : safe p w kept → safe (or_else e p) w kept.
Proof. intros Hp. eapply safe_bind; [exact Hp|]. intros b w' Hw' _. by apply safe_ret. Qed.

Lemma stream_write_safe e b j w : inv w → job_ok j → jsafe (stream_write e b) j w anything.
Proof.
  intros Hw Hj. unfold stream_write. apply jsafe_self. destruct (tj_data_stream j) as [[h|c]|].
  - apply jsafe_io_kept; [done|]. apply ensure_safe. eapply safe_kept, safe_write, Hw.
  - eapply jsafe_bind; [apply (jsafe_modify _ j w anything); [done|by destruct Hj|done]|]. intros [] j' w' Hw' Hj' _. by apply jsafe_ret.
  - by apply jsafe_ret.
Qed.

(** What is above a checked path is there, or of the region. *)
Lemma parent_dirs w ss u v : inv w → removelast (d ++ ss) = u ++ v → in_region d u ∨ node (fw_tree w) u = Some NDir.
Proof.
  intros Hw E. assert (∃ v', d ++ ss = u ++ v') as [v' E'].
  { destruct (decide (d ++ ss = [])) as [En|Hne].
    - rewrite En in E. cbn in E. symmetry in E. apply app_eq_nil in E as [-> ->]. by exists (d ++ ss).
    - destruct (exists_last Hne) as (i & x & Ei). rewrite Ei, removelast_last in E. subst i. exists (v ++ [x]). by rewrite Ei, app_assoc. }
  apply app_eq_inv in E' as [(k & Ed & Ev)|(k & Eu & Ek)]; [|left; subst u; apply region_below].
  destruct (decide (k = [])) as [->|Hk]; [left; rewrite app_nil_r in Ed; subst u; rewrite <- (app_nil_r d) at 2; apply region_below|].
  right. by eapply inv_above.
Qed.
Lemma create_parent_safe w path ss :
  inv w → checked w path ss →
  safe (match parent path with Some pp => ask (CreateDirAll pp);; mret tt | None => mret tt end) w (λ _ w', checked w' path ss).
Proof.
  intros Hw Hc. destruct (parent path) as [pp|] eqn:Ep; [|by apply safe_ret].
  pose proof (leads_parent path (d ++ ss) pp (proj1 (proj2 Hc)) Ep) as Hpp.
  eapply safe_bind.
  { apply (safe_create_dirs w pp (removelast (d ++ ss))); [done|done| |intros u v; by apply parent_dirs].
    intros u v E _. destruct (decide (d ++ ss = [])) as [En|Hne].
    - rewrite En in E. cbn in E. symmetry in E. apply app_eq_nil in E as [-> ->]. done.
    - destruct (exists_last Hne) as (i & x & Ei). rewrite Ei, removelast_last in E. subst i.
      apply (checked_clear w path ss true Hw Hc u (v ++ [x])); [by rewrite Ei, app_assoc|by right]. }
  intros b w' Hw' Hs. apply safe_ret; [done|]. by eapply checked_shape.
Qed.

Definition opened (r : result Failure (string * option string)) (j : TransferJob) (w : FileWorld) : Prop :=
  ∀ ps, r = Ok ps → ∃ path ss, ps = (download_path path, Some (digest_path path)) ∧ checked w path ss.
Lemma open_for_block_safe block j w : inv w → job_ok j → jsafe (open_for_block base block) j w anything.
Proof.
  intros Hw Hj. unfold open_for_block. apply jsafe_self.
  destruct (at_index (tj_files j) (as_usize (bl_file_num block))) as [e|] eqn:Ee; [|by apply jsafe_ret].
  destruct (_ || _); [|by apply jsafe_ret]. pose proof (job_name j _ e Hj Ee) as Hu.
  eapply jsafe_bind; [apply jsafe_io_kept; [done|by apply modify_time_safe]|]. intros [] j1 w1 Hw1 Hj1 _.
  eapply (jsafe_try _ _ _ _ _ anything); [|done|].
  { destruct (tj_data_stream j) as [[h|c]|]; [|by apply jsafe_ret..]. apply jsafe_io_kept; [done|]. apply ensure_safe.
    eapply safe_kept. by apply safe_look. }
  intros [] j2 w2 Hw2 Hj2 _.
  eapply jsafe_bind; [apply (jsafe_modify _ j2 w2 anything); [done|by destruct Hj2|done]|]. intros [] j3 w3 Hw3 Hj3 _.
  rewrite (bool_decide_eq_false_2 (tj_type j = Printer)) by by rewrite (jo_type j Hj).
  eapply (jsafe_try _ _ _ _ _ opened); [|done|].
  { eapply (jsafe_try _ _ _ _ _ (λ r _ w', ∀ path, r = Ok path → ∃ ss, checked w' path ss)).
    - apply jsafe_io; [done|]. eapply safe_mono; [|by apply join_checked]. intros r w' _ [-> Hr]. exact Hr.
    - intros x j' w' _ _ _ ps [=].
    - intros path j4 w4 Hw4 Hj4 Hc. destruct (Hc path eq_refl) as [ss Hss].
      eapply (jsafe_bind _ _ _ _ _ (λ _ _ w', checked w' path ss)).
      { apply jsafe_io; [done|]. by apply create_parent_safe. }
      intros [] j5 w5 Hw5 Hj5 H5. apply jsafe_ret; [done|done|]. intros ps [= <-]. exists path, ss.
      by rewrite (checked_string w5 path ss H5). }
  intros ps j4 w4 Hw4 Hj4 Ho. destruct (Ho ps eq_refl) as (path & ss & -> & Hc4). cbn [fst snd].
  eapply (jsafe_try _ _ _ _ _ (λ _ _ w', checked w' path ss)); [|done|].
  { eapply (jsafe_bind _ _ _ _ _ (λ _ _ w', checked w' path ss)).
    - apply jsafe_io; [done|]. unfold path_exists. eapply safe_bind; [by apply safe_look|].
      intros m w' Hw' ->. by apply safe_ret.
    - intros [|] j5 w5 Hw5 Hj5 H5; [|by apply jsafe_ret]. apply jsafe_io; [done|].
      eapply safe_bind; [by apply (remove_helper_safe w5 path ss); [done|done|right]|]. intros b w6 Hw6 H6. by apply safe_ret. }
  intros [] j5 w5 Hw5 Hj5 H5.
  destruct (helper_path w5 path ss ".download" Hw5 H5 (or_introl eq_refl)) as (ta & Ha & Hra & _ & Hca).
  eapply (jsafe_try _ _ _ _ _ (λ _ _ w', checked w' path ss)); [|done|].
  { apply jsafe_io; [done|]. eapply safe_bind; [by apply (safe_create w5 _ ta)|]. intros b w6 Hw6 Hs6. apply safe_ret; [done|].
    by eapply checked_shape. }
  intros h j6 w6 Hw6 Hj6 H6.
  eapply (jsafe_bind _ _ _ _ _ (λ _ _ w', checked w' path ss)); [apply jsafe_modify; [done|by destruct Hj6|done]|].
  intros [] j7 w7 Hw7 Hj7 H7.
  destruct (helper_path w7 path ss ".digest" Hw7 H7 (or_intror eq_refl)) as (tb & Hb & Hrb & _ & Hcb).
  eapply jsafe_bind; [|intros b j8 w8 Hw8 Hj8 _; by apply jsafe_ret].
  apply jsafe_io_kept; [done|]. eapply safe_kept. by apply (safe_write_whole w7 _ _ tb).
Qed.
Lemma write_safe block j w : inv w → job_ok j → jsafe (write block) j w anything.
Proof.
  intros Hw Hj. unfold write. apply jsafe_self. destruct (negb _); [by apply jsafe_ret|]. rewrite (jo_source j Hj).
  eapply (jsafe_try _ _ _ _ _ anything); [by apply open_for_block_safe|done|]. intros [] j1 w1 Hw1 Hj1 _.
  eapply (jsafe_try _ _ _ _ _ anything); [by apply stream_write_safe|done|]. intros [] j2 w2 Hw2 Hj2 _.
  eapply jsafe_bind; [apply (jsafe_modify _ j2 w2 anything); [done|by destruct Hj2|done]|]. intros [] j3 w3 Hw3 Hj3 _.
  by apply jsafe_ret.
Qed.

Lemma check_components_looks l : ∀ cur w, inv w → safe (check_components cur l) w (λ _ w', w' = w).
Proof.
  induction l as [|[| | |s] l IH]; intros cur w Hw; cbn [check_components]; [by apply safe_ret|by apply safe_ret|by apply IH|by apply safe_ret|].
  eapply safe_bind; [by apply safe_look|]. intros m w' _ ->. destruct m as [m|[|]].
  - destruct (bool_decide _); [by apply safe_ret|by apply IH].
  - by apply IH.
  - by apply safe_ret.
Qed.
Lemma check_links_looks files : ∀ w, inv w → safe (check_links base files) w (λ _ w', w' = w).
Proof.
  induction files as [|e l IH]; intros w Hw; [by apply safe_ret|]. cbn [check_links]. unfold try_bind, validate_no_symlink_components.
  eapply safe_bind; [destruct (bool_decide _); [by apply (safe_ret _ w (λ _ w', w' = w))|by apply check_components_looks]|].
  intros [[]|err] w' Hw' ->; [by apply IH|by apply safe_ret].
Qed.
Lemma set_files_safe files j w :
  inv w → job_ok j → Forall (λ e, is_utf8 (fe_name e)) files → jsafe (set_files files) j w anything.
Proof.
  intros Hw Hj Hf. unfold set_files. eapply (jsafe_try _ _ _ _ _ anything); [by apply jsafe_ret|done|]. intros [] j1 w1 Hw1 Hj1 _.
  apply jsafe_self. rewrite (jo_source j1 Hj1).
  eapply (jsafe_try _ _ _ _ _ anything); [|done|].
  { apply jsafe_io_kept; [done|]. by eapply safe_kept, check_links_looks. }
  intros [] j2 w2 Hw2 Hj2 _.
  eapply jsafe_bind; [apply (jsafe_modify _ j2 w2 anything); [done| |done]|intros [] j3 w3 Hw3 Hj3 _; by apply jsafe_ret].
  by destruct Hj2.
Qed.

Lemma set_stream_offset_safe n offset j w : inv w → job_ok j → jsafe (set_stream_offset n offset) j w anything.
Proof.
  intros Hw Hj. unfold set_stream_offset. apply jsafe_self. rewrite (jo_source j Hj).
  destruct (at_index (tj_files j) n) as [e|] eqn:Ee; [|done]. pose proof (job_name j _ e Hj Ee) as Hu.
  eapply (jsafe_bind _ _ _ _ _ (λ r _ w', ∀ path, r = Some path → ∃ ss, checked w' path ss)).
  { apply jsafe_io; [done|]. eapply safe_mono; [|apply resolve_entry_safe; [done|done|apply Hj]]. intros r w' _ [-> Hr]. exact Hr. }
  intros [path|] j1 w1 Hw1 Hj1 Hc; [|by apply jsafe_ret]. destruct (Hc path eq_refl) as [ss Hss]. clear Hc.
  rewrite (checked_string w1 path ss Hss).
  assert (∀ p w, inv w → safe (path_exists p) w (λ _ w', w' = w)) as Hex.
  { intros p w' Hw'. eapply safe_bind; [by apply safe_look|]. intros m w'' Hw'' ->. by apply safe_ret. }
  eapply (jsafe_bind _ _ _ _ _ (λ _ _ w', w' = w1)); [apply jsafe_io; [done|by apply Hex]|]. intros g j2 w2 Hw2 Hj2 ->.
  eapply (jsafe_bind _ _ _ _ _ (λ _ _ w', w' = w1)); [apply jsafe_io; [done|destruct g; [by apply Hex|by apply safe_ret]]|].
  intros g2 j3 w3 Hw3 Hj3 ->.
  eapply (jsafe_bind _ _ _ _ _ anything).
  { apply jsafe_io_kept; [done|]. destruct g2.
    - destruct (helper_path w1 path ss ".download" Hw1 Hss (or_introl eq_refl)) as (ta & Ha & Hra & _ & Hca).
      eapply safe_kept. by apply (safe_open_to_write w1 _ ta).
    - eapply safe_bind; [by apply Hex|]. intros x w' Hw' ->. destruct x; [|by apply safe_ret].
      eapply safe_kept. apply (safe_open w1 path (d ++ ss)); [done|apply Hss|by apply (checked_clear w1 path)|apply region_below]. }
  intros [h|] j4 w4 Hw4 Hj4 _; [|by apply jsafe_ret].
  eapply jsafe_bind; [apply jsafe_io_kept; [done|]; by eapply safe_kept, safe_seek|]. intros [|] j5 w5 Hw5 Hj5 _; [|by apply jsafe_ret].
  apply jsafe_modify; [done|by destruct Hj5|done].
Qed.
Lemma confirm_safe r j w : inv w → job_ok j → jsafe (confirm r) j w anything.
Proof.
  intros Hw Hj. unfold confirm. apply jsafe_self. eapply (jsafe_bind _ _ _ _ _ anything); [|intros [] j' w' Hw' Hj' _; by apply jsafe_ret].
  destruct (negb _); [by apply jsafe_ret|]. destruct (cf_union r) as [[[|]|n]|].
  - apply jsafe_modify; [done|by destruct Hj|done].
  - apply jsafe_modify; [done|by destruct Hj|done].
  - eapply jsafe_bind; [apply (jsafe_modify _ j w anything); [done|by destruct Hj|done]|]. intros [] j' w' Hw' Hj' _.
    destruct (0 <? n); [by apply set_stream_offset_safe|by apply jsafe_ret].
  - by apply jsafe_ret.
Qed.

(** What can happen to a job that writes; the names are texts of a message. *)
Inductive PeerOp : Type :=
| PSetFiles (files : list FileEntry)
| PWrite (block : FileTransferBlock)
| PConfirm (r : FileTransferSendConfirmRequest)
| PComplete
| PGiveUp.
Definition op_texts (o : PeerOp) : Prop :=
  match o with PSetFiles files => Forall (λ e, is_utf8 (fe_name e)) files | _ => True end.
Definition peer_op (o : PeerOp) : Job unit :=
  match o with
  | PSetFiles files => set_files files;; mret tt
  | PWrite block => write block;; mret tt
  | PConfirm r => confirm r;; mret tt
  | PComplete => j ← self; io (modify_time j)
  | PGiveUp => j ← self; io (remove_download_file j)
  end.
Fixpoint peer_ops (l : list PeerOp) : Job unit := match l with [] => mret tt | o :: l => peer_op o;; peer_ops l end.

Lemma peer_op_safe o j w : inv w → job_ok j → op_texts o → jsafe (peer_op o) j w anything.
Proof.
  intros Hw Hj Ho.
  assert (∀ A (p : Job A), jsafe p j w anything → jsafe (p;; mret tt) j w anything) as Hend.
  { intros A p Hp. eapply jsafe_bind; [exact Hp|]. intros a j' w' Hw' Hj' _. by apply jsafe_ret. }
  destruct o; cbn [peer_op].
  - by apply Hend, set_files_safe.
  - by apply Hend, write_safe.
  - by apply Hend, confirm_safe.
  - apply jsafe_self, jsafe_io_kept; [done|by apply modify_time_safe].
  - apply jsafe_self, jsafe_io_kept; [done|by apply remove_download_safe].
Qed.
Lemma peer_ops_safe l : ∀ j w, inv w → job_ok j → Forall op_texts l → jsafe (peer_ops l) j w anything.
Proof.
  induction l as [|o l IH]; intros j w Hw Hj Hl; [by apply jsafe_ret|]. apply Forall_cons in Hl as [Ho Hl].
  cbn [peer_ops]. eapply jsafe_bind; [by apply peer_op_safe|]. intros [] j' w' Hw' Hj' _. by apply IH.
Qed.
End methods.
End below.

Section transfers.
Context `{Zstd} `{JsonLib} `{ErrorText}.

End transfers.

(** ** At concrete inputs *)

Definition TestZstd : Zstd :=
  {| zstd_compress := λ d, match d with b :: l => if forallb (Z.eqb b) l && bool_decide (l ≠ []) then Some [0; b; zlen d] else Some (1 :: d) | [] => Some [] end;
     zstd_decode_all := λ c, match c with 0 :: b :: n :: _ => Some (replicate (Z.to_nat n) b) | 1 :: d => Some d | [] => Some [] | _ => None end |}.
Lemma TestZstdLaws : @ZstdLaws TestZstd.
Proof.
  split. intros [|b l] c; cbn; [by intros [= <-]|]. destruct (forallb (Z.eqb b) l && bool_decide (l ≠ [])) eqn:E; intros [= <-]; [|done].
  apply andb_true_iff in E as [E _]. unfold zlen. rewrite Nat2Z.id. f_equal. cbn. f_equal.
  induction l as [|x l IH]; [done|]. cbn in *. apply andb_true_iff in E as [E1 E2]. apply Z.eqb_eq in E1 as <-. by rewrite IH.
Qed.
Definition TestErrors : ErrorText := λ e, match e with Failed why => why | _ => "error"%string end.

Section witnesses.
#[local] Existing Instance TestZstd.
#[local] Existing Instance TestJson.
#[local] Existing Instance TestErrors.

Definition entry (name : string) (size mtime : Z) : FileEntry := mkFileEntry (FileType_value File) name false size mtime.
Definition world (t : Tree) : FileWorld := mkFileWorld t [] ∅ 0 (5 * 10 ^ 9) [] 0 4 [].
(** A link below the directory of the transfer, and what it leads to. *)
Definition linked_tree : Tree :=
  {[ ["dl"] := NDir; ["dl"; "link"] := NLink "/etc"; ["etc"] := NDir; ["etc"; "passwd"] := NFile [7] 0 ]}%string.
Definition linked_job : TransferJob :=
  with_files [entry "link/passwd" 1 0; entry "../etc/passwd" 1 0; entry "a" 2 9]
    (new_write 1 Generic "/r" (FilePath "/dl") 0 false true false).
Definition linked_ops : list PeerOp :=
  [PWrite (mkFileTransferBlock 1 0 [1] false 0); PWrite (mkFileTransferBlock 1 1 [1] false 0);
   PWrite (mkFileTransferBlock 1 2 [1; 2] false 0); PComplete].
Lemma linked_nodes (q : names) n : linked_tree !! q = Some n → q = ["dl"] ∨ q = ["dl"; "link"] ∨ q = ["etc"] ∨ q = ["etc"; "passwd"].
Proof. unfold linked_tree. rewrite !lookup_insert_Some, lookup_singleton_Some. naive_solver. Qed.
Lemma linked_tree_ok : tree_ok linked_tree.
Proof.
  split; [done|]. intros p s n Hn. destruct (linked_nodes _ _ Hn) as [E|[E|[E|E]]].
  - change ["dl"%string] with ([] ++ ["dl"%string]) in E. by apply app_inj_tail in E as [-> ->].
  - change ["dl"; "link"]%string with (["dl"%string] ++ ["link"%string]) in E. by apply app_inj_tail in E as [-> ->].
  - change ["etc"%string] with ([] ++ ["etc"%string]) in E. by apply app_inj_tail in E as [-> ->].
  - change ["etc"; "passwd"]%string with (["etc"%string] ++ ["passwd"%string]) in E. by apply app_inj_tail in E as [-> ->].
Qed.

(** The helper files themselves are not checked: a link in the place of the
    download of the second file is written through. *)
Theorem helper_link_is_followed :
  let w := world {[ ["dl"] := NDir; ["dl"; "b.download"] := NLink "/etc/passwd"; ["etc"] := NDir;
                    ["etc"; "passwd"] := NFile [7] 0 ]}%string in
  let j := with_files [entry "a" 1 9; entry "b" 2 9] (new_write 1 Generic "/r" (FilePath "/dl") 0 false true false) in
  let l := [PWrite (mkFileTransferBlock 1 0 [3] false 0); PWrite (mkFileTransferBlock 1 1 [1; 2] false 0)] in
  fw_tree (run fs_handler (peer_ops l j) w).2 !! ["etc"; "passwd"]%string = Some (NFile [1; 2] (5 * 10 ^ 9)).
Proof. vm_compute. reflexivity. Qed.
End witnesses.
