(* ===== verification/TransferSend.v ===== *)
(** * What a sender sends

    Of [Transfer], in the file system of [FileWorld] with no failing calls: as
    many calls of [handle_read_jobs] as there are blocks send the contents of
    the files, cut into pieces, in order, and one more ends the job.  A read may
    return less than it was asked for. *)
From Stdlib Require Import Ascii.
From S2P Require Import Prelude Text TextFacts HostText JsonTree UnixPath Programs FileIo Transfer FileWorld TransferNames.
Local Open Scope Z_scope.

(** ** Files and blocks *)

Record SrcFile : Type := mkSrcFile { sf_names : names; sf_content : bytes; sf_mtime : Z }.
Definition src_name (f : SrcFile) : string := join "/" (sf_names f).
Definition src_entry (f : SrcFile) : FileEntry :=
  mkFileEntry (FileType_value File) (src_name f) false (zlen (sf_content f)) (sf_mtime f).

(** The numbers of files on their way through [usize] and [i32]. *)
Lemma index_of {A} (l : list A) k : zlen l < 2 ^ 31 → (k <= length l)%nat → at_index l (as_usize (Z.of_nat k)) = l !! k.
Proof.
  intros Hl Hk. unfold at_index, as_usize, zlen in *. rewrite wrap_u_small by lia. rewrite Nat2Z.id.
  destruct (Z.of_nat k <? Z.of_nat (length l)) eqn:E; [done|]. symmetry. apply lookup_ge_None. lia.
Qed.
Lemma entry_of files k : zlen files < 2 ^ 31 → (k <= length files)%nat → at_index (src_entry <$> files) (as_usize (Z.of_nat k)) = src_entry <$> files !! k.
Proof. intros Hl Hk. rewrite index_of; [by rewrite list_lookup_fmap|by unfold zlen in *; rewrite length_fmap|by rewrite length_fmap]. Qed.
Lemma num_back (k : nat) : Z.of_nat k < 2 ^ 31 → as_i32 (as_usize (Z.of_nat k)) = Z.of_nat k.
Proof. intros Hk. unfold as_usize. rewrite wrap_u_small by lia. apply as_i32_small. lia. Qed.

(** The pieces of a content as they are read. *)
Definition BUF : nat := Z.to_nat BUF_SIZE.
Lemma BUF_pos : (0 < BUF)%nat.
Proof. unfold BUF, BUF_SIZE. lia. Qed.
Lemma BUF_Z : Z.of_nat BUF = BUF_SIZE.
Proof. unfold BUF, BUF_SIZE. lia. Qed.
#[global] Opaque BUF.
Fixpoint chunks_fuel (n : nat) (c : bytes) : list bytes :=
  match n, c with
  | S n, _ :: _ => take BUF c :: chunks_fuel n (drop BUF c)
  | _, _ => []
  end.
Definition chunks (c : bytes) : list bytes := chunks_fuel (length c) c.
Lemma chunks_fuel_enough n : ∀ c m, (length c <= n)%nat → (length c <= m)%nat → chunks_fuel n c = chunks_fuel m c.
Proof.
  induction n as [|n IH]; intros [|b c] [|m] Hn Hm; try done; cbn in Hn; [lia|cbn in Hm; lia|].
  cbn [chunks_fuel]. f_equal. pose proof BUF_pos. apply IH; rewrite length_drop; cbn in *; lia.
Qed.
Lemma chunks_cons c : c ≠ [] → chunks c = take BUF c :: chunks (drop BUF c).
Proof.
  intros Hc. destruct c as [|b c]; [done|]. unfold chunks at 1. cbn [length chunks_fuel]. f_equal.
  pose proof BUF_pos. apply chunks_fuel_enough; rewrite length_drop; cbn; lia.
Qed.
Lemma chunks_concat c : concat (chunks c) = c.
Proof.
  remember (length c) as n eqn:E. revert c E. induction n as [n IH] using lt_wf_ind. intros c ->.
  destruct (decide (c = [])) as [->|Hc]; [done|]. rewrite chunks_cons by done. cbn [concat].
  rewrite (IH (length (drop BUF c))) with (c := drop BUF c); [by rewrite take_drop| |done].
  rewrite length_drop. pose proof BUF_pos. destruct c; [done|]. cbn. lia.
Qed.

Section delivery.
Context `{Zstd} `{JsonLib} `{ErrorText}.
Hypothesis zstd_compresses : ∀ data, is_Some (zstd_compress data).

(** What the messages of a file are. *)
Definition block_of (id : Z) (k : nat) (compressible : bool) (chunk : bytes) : FileTransferBlock :=
  mkFileTransferBlock id (Z.of_nat k) (pack compressible chunk).1 (pack compressible chunk).2 0.
Definition end_block (id : Z) (k : nat) : FileTransferBlock := mkFileTransferBlock id (Z.of_nat k) [] false 0.

Lemma unpack `{!ZstdLaws} compressible buf :
  (if (pack compressible buf).2 then decompress (pack compressible buf).1 else (pack compressible buf).1) = buf.
Proof.
  unfold pack. destruct compressible; [|done]. destruct (_ <? _); [|done]. cbn. unfold compress, decompress.
  destruct (zstd_compresses buf) as [c Hc]. rewrite Hc. cbn. by rewrite (zstd_roundtrip buf c Hc).
Qed.

(** ** The sender *)

Section sender.
Variables (fuel : nat) (base : string) (files : list SrcFile) (id : Z).
Hypothesis fuel_enough : (BUF < fuel)%nat.
Hypothesis few_files : zlen files < 2 ^ 31.

Record sends (j : TransferJob) (k : nat) : Prop := {
  sd_id : tj_id j = id;
  sd_type : tj_type j = Generic;
  sd_source : tj_data_source j = FilePath base;
  sd_files : tj_files j = src_entry <$> files;
  sd_file_num : tj_file_num j = Z.of_nat k;
  sd_last : tj_is_last_job j = false;
  sd_detection : tj_enable_overwrite_detection j = false;
  sd_skipped : tj_file_skipped j = false;
}.
(** Nothing fails; every file is found with its content. *)
Definition source_ok (w : FileWorld) : Prop :=
  fw_faults w = [] ∧
  ∀ f, f ∈ files → ∃ q m, node_at w true (join_name base (src_name f)) = Some (q, NFile (sf_content f) m).

(** The handle of an open file moves on. *)
Definition at_pos (h : nat) (q : names) (pos : nat) (w : FileWorld) : FileWorld :=
  with_handles (<[h := mkHandle (Some q) pos]> (fw_handles w)) w.
Lemma at_pos_twice h q pos pos' w : at_pos h q pos' (at_pos h q pos w) = at_pos h q pos' w.
Proof. unfold at_pos, with_handles. cbn. by rewrite insert_insert_eq. Qed.

Lemma run_stream_read n h j w :
  tj_data_stream j = Some (FileStream h) →
  run fs_handler (stream_read n j) w = (Finished (j, (read_handle h n w).1), (read_handle h n w).2).
Proof. intros Hs. unfold stream_read, mbind, Job_bind, job_bind, self. cbn. rewrite Hs. cbn. by destruct (read_handle h n w). Qed.
Lemma run_fill h q c m : ∀ (n r pos : nat) buf j w,
  (r < n)%nat → (0 < r)%nat → fw_handles w !! h = Some (mkHandle (Some q) pos) → node (fw_tree w) q = Some (NFile c m) →
  tj_data_stream j = Some (FileStream h) →
  run fs_handler (fill n (Z.of_nat r) buf j) w =
  (Finished (j, Ok (buf ++ take r (drop pos c))), at_pos h q (pos + length (take r (drop pos c))) w).
Proof.
  induction n as [|n IH]; intros r pos buf j w Hn Hr Hh Hq Hs; [lia|]. cbn [fill].
  unfold mbind, Job_bind, job_bind, self. cbn. rewrite Hs. cbn.
  rewrite (run_bind_eq _ _ _ _ _ _ (run_stream_read _ h j w Hs)).
  unfold read_handle. rewrite Hh, Hq. cbn. rewrite Nat2Z.id.
  set (b := take (min r (S (fw_chunk w))) (drop pos c)).
  assert (b = take (length b) (take r (drop pos c))) as Eb.
  { unfold b. rewrite length_take, take_take.
    destruct (decide (min r (S (fw_chunk w)) <= length (drop pos c))%nat); [f_equal; lia|]. rewrite !take_ge by lia. done. }
  assert (length b = min (min r (S (fw_chunk w))) (length (drop pos c))) as Lb by (unfold b; apply length_take).
  destruct (zlen b =? 0) eqn:Z0; cbn.
  { assert (length b = 0)%nat as L0 by (unfold zlen in Z0; lia).
    assert (drop pos c = []) as -> by (apply nil_length_inv; lia). rewrite take_nil. cbn.
    destruct b; [done|]. done. }
  destruct (Z.of_nat r - zlen b =? 0) eqn:Z1; cbn.
  { assert (length b = r) as L1 by (unfold zlen in Z1; lia). rewrite Eb, L1, take_take, Nat.min_id. done. }
  unfold zlen in Z0, Z1.
  replace (Z.of_nat r - zlen b) with (Z.of_nat (r - length b)) by (unfold zlen; lia).
  change (with_handles _ w) with (at_pos h q (pos + length b) w).
  rewrite (IH (r - length b)%nat (pos + length b)%nat); [|lia|lia|by apply lookup_insert_eq|done|done].
  rewrite at_pos_twice.
  assert (take r (drop pos c) = b ++ take (r - length b) (drop (pos + length b) c)) as E.
  { rewrite <- (take_drop (length b) (take r (drop pos c))), <- Eb. f_equal.
    by rewrite skipn_firstn_comm, drop_drop. }
  rewrite E, app_assoc, length_app. by rewrite Nat.add_assoc.
Qed.

Definition ends_fs {A} := @ends FsIo FileWorld A fs_handler.
(** What the sender's calls leave as it is. *)
Definition same_files (w w' : FileWorld) : Prop :=
  fw_tree w' = fw_tree w ∧ fw_cwd w' = fw_cwd w ∧ fw_faults w' = fw_faults w ∧ fw_sent w' = fw_sent w.
Lemma source_same w w' : fw_tree w' = fw_tree w → fw_cwd w' = fw_cwd w → fw_faults w' = fw_faults w → source_ok w → source_ok w'.
Proof.
  intros E1 E2 E3 [F1 F2]. split; [by rewrite E3|]. intros f Hf. destruct (F2 f Hf) as (q & m & Hq). exists q, m.
  revert Hq. unfold node_at, lookup_path, where_is. by rewrite E1, E2.
Qed.

Definition opened_at (j : TransferJob) (f : SrcFile) (pos : nat) (w : FileWorld) : Prop :=
  ∃ h q m, tj_data_stream j = Some (FileStream h) ∧ fw_handles w !! h = Some (mkHandle (Some q) pos) ∧
           node (fw_tree w) q = Some (NFile (sf_content f) m).
Definition ready (j : TransferJob) (f : SrcFile) (pos : nat) (w : FileWorld) : Prop :=
  (pos = O ∧ tj_data_stream j = None) ∨ opened_at j f pos w.

Lemma init_ready j k f pos w :
  sends j k → files !! k = Some f → source_ok w → ready j f pos w →
  ends_fs (init_data_stream j) w (λ r w', sends r.1 k ∧ r.2 = Ok tt ∧ opened_at r.1 f pos w' ∧ same_files w w').
Proof.
  intros Hj Hf Hs Hr. assert (k < length files)%nat as Hk by by eapply lookup_lt_Some.
  assert (ends_fs (open_data_stream j) w (λ r w', sends r.1 k ∧ r.2 = Ok false ∧ opened_at r.1 f pos w' ∧ same_files w w')) as Ho.
  { unfold open_data_stream, mbind, Job_bind, job_bind, self. cbn [mbind Prog_bind prog_bind mret Prog_ret].
    rewrite (sd_source j k Hj), (sd_files j k Hj), (sd_file_num j k Hj), entry_of, Hf by lia. cbn [fmap option_fmap option_map].
    destruct Hr as [[-> Hn]|Hr].
    - rewrite Hn. cbn [bool_decide]. rewrite bool_decide_eq_true_2 by done.
      destruct (proj2 Hs f ltac:(by eapply list_elem_of_lookup_2)) as (q & m & Hq).
      eexists _, _. unfold io, ask. cbn [mbind Prog_bind prog_bind run fs_handler].
      assert (opening (open_file (join_name base (fe_name (src_entry f))) w) w =
        (Some (fw_next w), next_fault (with_new_handle (mkHandle (Some q) 0) w).2)) as ->.
      { unfold opening, faulty, open_file. rewrite (proj1 Hs). cbn [fe_name src_entry]. by rewrite Hq. }
      cbn. split; [reflexivity|]. split; [by destruct Hj; constructor|]. split; [done|]. split.
      + exists (fw_next w), q, m. split; [done|]. split; [cbn; by rewrite lookup_insert_eq|]. cbn. unfold node_at in Hq.
        destruct (lookup_path w true _) as [q'|]; [|done]. cbn in Hq. destruct (node (fw_tree w) q') eqn:E; [|done]. cbn in Hq. by injection Hq as -> ->.
      + split_and!; try done. cbn. by rewrite (proj1 Hs).
    - destruct Hr as (h & q & m & Hh & Hr). rewrite bool_decide_eq_false_2 by by rewrite Hh.
      eexists _, w. split; [done|]. cbn. split; [done|]. split; [done|]. split; [by exists h, q, m|done]. }
  unfold init_data_stream, job_try, mbind, Job_bind, job_bind.
  eapply ends_bind; [exact Ho|]. intros [j' r] w' (Hj' & Er & Hop & Hsm). cbn [fst snd] in *. subst r. unfold self. cbn.
  assert (asks_confirmation j' = false) as ->.
  { unfold asks_confirmation. rewrite (sd_detection j' k Hj'). by rewrite andb_false_r. }
  by apply ends_ret.
Qed.

Definition compressible (f : SrcFile) : bool :=
  negb (is_compressed_file (if (zlen files =? 1) && bool_decide (src_name f = ""%string) then get_file_name base else src_name f)).
Lemma read_chunk j k f pos w :
  sends j k → files !! k = Some f → opened_at j f pos w →
  ends_fs (read fuel j) w (λ r w', same_files w w' ∧
    if bool_decide (drop pos (sf_content f) = []) then
      r.2 = Ok (Some (end_block id k)) ∧ sends r.1 (S k) ∧ tj_data_stream r.1 = None
    else
      r.2 = Ok (Some (block_of id k (compressible f) (take BUF (drop pos (sf_content f))))) ∧ sends r.1 k ∧
      opened_at r.1 f (pos + length (take BUF (drop pos (sf_content f)))) w').
Proof.
  intros Hj Hf (h & q & m & Hh & Hq & Hn). assert (k < length files)%nat as Hk by by eapply lookup_lt_Some.
  unfold zlen in few_files. pose proof BUF_pos as HB.
  pose proof (run_fill h q (sf_content f) m fuel BUF pos [] j w fuel_enough HB Hq Hn Hh) as Hfill.
  unfold read, job_try, mbind, Job_bind, job_bind, self. cbn [mbind Prog_bind prog_bind mret Prog_ret].
  rewrite (sd_detection j k Hj), (sd_source j k Hj), (sd_files j k Hj), (sd_file_num j k Hj), entry_of, Hf by (unfold zlen in *; lia).
  rewrite andb_false_r. cbn [andb fmap option_fmap option_map].
  rewrite BUF_Z in Hfill. eapply ends_run; [exact Hfill|]. cbn [app]. rewrite num_back by lia.
  destruct (bool_decide (drop pos (sf_content f) = [])) eqn:Ed.
  - apply bool_decide_eq_true_1 in Ed. rewrite Ed, take_nil. eexists _, _. split; [reflexivity|]. split; [done|].
    cbn. rewrite (sd_id j k Hj). split; [done|]. split; [|done].
    destruct Hj. constructor; try done. cbn. lia.
  - apply bool_decide_eq_false_1 in Ed.
    destruct (take BUF (drop pos (sf_content f))) as [|x l] eqn:Et.
    { exfalso. destruct (drop pos (sf_content f)); [done|]. destruct BUF; [lia|done]. }
    assert (block_name j (src_entry f) = if (zlen files =? 1) && bool_decide (src_name f = ""%string) then get_file_name base else src_name f) as Ebn.
    { unfold block_name. rewrite (sd_source j k Hj), (sd_files j k Hj). unfold zlen. by rewrite length_fmap. }
    rewrite Ebn. unfold block_of, compressible. destruct (pack _ (x :: l)) as [data comp] eqn:Ep.
    eexists _, _. split; [reflexivity|]. split; [done|]. cbn. rewrite (sd_id j k Hj). split; [done|].
    split; [by destruct Hj; constructor|]. exists h, q, m. split; [done|]. split; [|done]. cbn. by rewrite lookup_insert_eq.
Qed.

(** Each call of [handle_read_jobs] sends one block. *)
Fixpoint rounds (n : nat) (jobs : list TransferJob) : Prog FsIo (list TransferJob) :=
  match n with O => mret jobs | S n => r ← handle_read_jobs fuel jobs; rounds n r.1 end.

(** One job, step by step. *)
Lemma run_init_jobs j w j1 w1 :
  tj_is_last_job j = false → run fs_handler (init_data_stream j) w = (Finished (j1, Ok tt), w1) →
  run fs_handler (init_jobs [j]) w = (Finished ([j1], Ok tt), w1).
Proof. intros Hl E. cbn [init_jobs]. rewrite Hl, run_bind, run_bind, E. reflexivity. Qed.
Lemma run_read_first j w j2 log fin w2 :
  tj_is_last_job j = false → run fs_handler (read_job fuel j) w = (Finished (j2, Ok (log, fin)), w2) →
  run fs_handler (read_first fuel [j]) w = (Finished ([j2], Ok (log, if fin : bool then Some (tj_id j2) else None)), w2).
Proof. intros Hl E. cbn [read_first]. rewrite Hl, run_bind, E. reflexivity. Qed.
Lemma run_handle j w j1 w1 j2 log fin w2 :
  run fs_handler (init_jobs [j]) w = (Finished ([j1], Ok tt), w1) →
  run fs_handler (read_first fuel [j1]) w1 = (Finished ([j2], Ok (log, fin)), w2) →
  run fs_handler (handle_read_jobs fuel [j]) w =
  (Finished (match fin with Some n => match remove_job n [j2] with Some (_, jobs) => jobs | None => [j2] end | None => [j2] end, Ok log), w2).
Proof. intros E1 E2. unfold handle_read_jobs. rewrite run_bind, E1, run_bind, E2. reflexivity. Qed.
Lemma run_read_block j w j2 b w2 :
  run fs_handler (read fuel j) w = (Finished (j2, Ok (Some b)), w2) →
  run fs_handler (read_job fuel j) w = (Finished (j2, Ok (""%string, false)), with_message (RespBlock b) w2).
Proof. intros E. unfold read_job. rewrite run_bind, E. reflexivity. Qed.

Definition sent_block (w w' : FileWorld) (b : FileTransferBlock) : Prop := fw_sent w' = fw_sent w ++ [RespBlock b].
Lemma run_round j k f pos w :
  sends j k → files !! k = Some f → source_ok w → ready j f pos w →
  ends_fs (handle_read_jobs fuel [j]) w (λ r w', ∃ j', r.1 = [j'] ∧ source_ok w' ∧
    if bool_decide (drop pos (sf_content f) = []) then
      sent_block w w' (end_block id k) ∧ sends j' (S k) ∧ tj_data_stream j' = None
    else
      sent_block w w' (block_of id k (compressible f) (take BUF (drop pos (sf_content f)))) ∧ sends j' k ∧
      ready j' f (pos + length (take BUF (drop pos (sf_content f)))) w').
Proof.
  intros Hj Hf Hs Hr.
  destruct (init_ready j k f pos w Hj Hf Hs Hr) as ([j1 r1] & w1 & E1 & Hj1 & Er & Ho & T1 & T2 & T3 & T4). cbn in Er, Hj1, Ho. subst r1.
  assert (source_ok w1) as Hs1 by by apply (source_same w).
  destruct (read_chunk j1 k f pos w1 Hj1 Hf Ho) as ([j2 r2] & w2 & E2 & (U1 & U2 & U3 & U4) & Hc). cbn [fst snd] in Hc.
  assert (source_ok w2) as Hs2 by by apply (source_same w1).
  assert (∀ b, sent_block w (with_message (RespBlock b) w2) b) as Hsent by (intros b; unfold sent_block; cbn; by rewrite U4, T4).
  assert (∀ b, r2 = Ok (Some b) → run fs_handler (handle_read_jobs fuel [j]) w = (Finished ([j2], Ok ""%string), with_message (RespBlock b) w2)) as Hrun.
  { intros b ->. eapply (run_handle _ _ _ _ _ _ None); [apply run_init_jobs; [apply (sd_last j k Hj)|exact E1]|].
    apply (run_read_first _ _ _ _ false); [apply (sd_last j1 k Hj1)|]. by apply run_read_block. }
  destruct (bool_decide (drop pos (sf_content f) = [])) eqn:Ed; destruct Hc as (Er & Hj2 & Hst).
  - eexists _, _. split; [by apply Hrun|]. exists j2. split; [done|]. split; [by apply (source_same w2)|]. split; [apply Hsent|done].
  - eexists _, _. split; [by apply Hrun|]. exists j2. split; [done|]. split; [by apply (source_same w2)|]. split; [apply Hsent|].
    split; [done|]. by right.
Qed.

Definition file_blocks (k : nat) (f : SrcFile) (content : bytes) : list FileTransferBlock :=
  (block_of id k (compressible f) <$> chunks content) ++ [end_block id k].
Lemma send_file k f : files !! k = Some f → ∀ pos j w,
  sends j k → source_ok w → ready j f pos w →
  ends_fs (rounds (length (file_blocks k f (drop pos (sf_content f)))) [j]) w (λ r w', ∃ j', r = [j'] ∧ source_ok w' ∧
    fw_sent w' = fw_sent w ++ (RespBlock <$> file_blocks k f (drop pos (sf_content f))) ∧ sends j' (S k) ∧ tj_data_stream j' = None).
Proof.
  intros Hf pos. remember (length (drop pos (sf_content f))) as n eqn:E. revert pos E.
  induction n as [n IH] using lt_wf_ind. intros pos -> j w Hj Hs Hr.
  pose proof (run_round j k f pos w Hj Hf Hs Hr) as (r1 & w1 & E1 & j1 & Ej1 & Hs1 & Hc).
  destruct (bool_decide (drop pos (sf_content f) = [])) eqn:Ed.
  - apply bool_decide_eq_true_1 in Ed. rewrite Ed. destruct Hc as (Hm & Hj1 & Hst). cbn [file_blocks chunks length chunks_fuel fmap list_fmap app].
    cbn [rounds]. eapply ends_run; [exact E1|]. apply ends_ret. exists j1. split_and!; [done|done|exact Hm|done|done].
  - apply bool_decide_eq_false_1 in Ed. destruct Hc as (Hm & Hj1 & Hr1).
    unfold file_blocks. rewrite chunks_cons by done. cbn [fmap list_fmap app length rounds].
    eapply ends_run; [exact E1|]. rewrite Ej1.
    assert (drop BUF (drop pos (sf_content f)) = drop (pos + length (take BUF (drop pos (sf_content f)))) (sf_content f)) as Edrop.
    { rewrite drop_drop, length_take. destruct (decide (BUF <= length (drop pos (sf_content f)))%nat); [f_equal; lia|].
      rewrite !drop_ge; [done|..]; rewrite ?length_drop in *; lia. }
    fold (file_blocks k f (drop BUF (drop pos (sf_content f)))). rewrite Edrop.
    eapply ends_mono; [|eapply (IH _ _ (pos + length (take BUF (drop pos (sf_content f))))%nat eq_refl j1 w1 Hj1 Hs1 Hr1)].
    + intros r w' (j' & -> & Hs' & Hm' & Hj' & Hst'). exists j'. split_and!; [done|done| |done|done].
      rewrite Hm', Hm, <- app_assoc. done.
  Unshelve. rewrite <- Edrop, length_drop. pose proof BUF_pos. destruct (drop pos (sf_content f)); [done|]. cbn. lia.
Qed.

Fixpoint messages_from (k : nat) (fs : list SrcFile) : list FileTransferBlock :=
  match fs with [] => [] | f :: fs => file_blocks k f (sf_content f) ++ messages_from (S k) fs end.
Lemma rounds_app n m jobs w Q :
  ends_fs (rounds n jobs) w (λ r w', ends_fs (rounds m r) w' Q) → ends_fs (rounds (n + m) jobs) w Q.
Proof.
  revert jobs w. induction n as [|n IH]; intros jobs w.
  - intros (r & w' & [= <- <-] & Hr). exact Hr.
  - cbn [rounds Nat.add]. intros (r & w' & E & Hr). rewrite run_bind in E.
    destruct (run fs_handler (handle_read_jobs fuel jobs) w) as [[a|h|] w1] eqn:E1; [|done..].
    eapply ends_run; [exact E1|]. apply IH. by exists r, w'.
Qed.
Lemma send_all fs : ∀ k j w,
  drop k files = fs → (k <= length files)%nat → sends j k → source_ok w → tj_data_stream j = None →
  ends_fs (rounds (length (messages_from k fs) + 1) [j]) w (λ r w', r = [] ∧
    fw_sent w' = fw_sent w ++ (RespBlock <$> messages_from k fs) ++ [RespDone (mkFileTransferDone id (zlen files))]).
Proof.
  induction fs as [|f fs IH]; intros k j w Hd Hk Hj Hs Hst.
  - assert (k = length files) as -> by (apply (f_equal length) in Hd; rewrite length_drop in Hd; cbn in Hd; lia).
    cbn [messages_from length Nat.add rounds].
    assert (∀ w, run fs_handler (init_data_stream j) w = (Finished (with_data_stream None j, Ok tt), w)) as Ei.
    { intros w0. unfold init_data_stream, open_data_stream, job_try, mbind, Job_bind, job_bind, self.
      cbn [mbind Prog_bind prog_bind mret Prog_ret].
      rewrite (sd_source j _ Hj), (sd_files j _ Hj), (sd_file_num j _ Hj), entry_of, lookup_ge_None_2 by (unfold zlen in *; lia). reflexivity. }
    assert (sends (with_data_stream None j) (length files)) as Hj' by by destruct Hj; constructor.
    set (j' := with_data_stream None j) in *.
    assert (∀ w, run fs_handler (read fuel j') w = (Finished (with_data_stream None j', Ok None), w)) as Er.
    { intros w0. unfold read, job_try, mbind, Job_bind, job_bind, self. cbn [mbind Prog_bind prog_bind mret Prog_ret].
      rewrite (sd_detection j' _ Hj'), (sd_source j' _ Hj'), (sd_files j' _ Hj'), (sd_file_num j' _ Hj'), entry_of, lookup_ge_None_2 by (unfold zlen in *; lia).
      rewrite andb_false_r. reflexivity. }
    eapply ends_run.
    { eapply (run_handle _ _ _ _ _ _ (Some id)); [apply run_init_jobs; [apply (sd_last j _ Hj)|apply Ei]|].
      rewrite <- (sd_id j _ Hj). apply (run_read_first j' _ (with_data_stream None j') _ true); [apply (sd_last j' _ Hj')|].
      unfold read_job. rewrite run_bind, Er. cbv iota beta.
      unfold job_completed, job_error, job_skipped. cbn [tj_enable_overwrite_detection with_data_stream j' tj_file_skipped].
      rewrite (sd_detection j _ Hj), (sd_skipped j _ Hj). reflexivity. }
    cbn [remove_job tj_id with_data_stream j']. rewrite (sd_id j _ Hj), Z.eqb_refl. cbn. eexists _, _. split; [reflexivity|]. split; [done|].
    cbn. f_equal. by rewrite (sd_file_num j _ Hj).
  - assert (files !! k = Some f) as Hf by (rewrite <- (Nat.add_0_r k), <- lookup_drop, Hd; done).
    assert (drop (S k) files = fs) as Hd' by (rewrite <- Nat.add_1_r, <- drop_drop, Hd; done).
    cbn [messages_from]. rewrite length_app, <- Nat.add_assoc. apply rounds_app.
    eapply ends_mono; [|apply (send_file k f Hf 0 j w Hj Hs); by left]. intros r w' (j' & -> & Hs' & Hm & Hj' & Hst').
    eapply ends_mono; [|apply (IH (S k) j' w' Hd'); [|done..]].
    + intros r w2 [-> Hm2]. split; [done|]. rewrite Hm2, Hm, fmap_app, <- !app_assoc. done.
    + apply lookup_lt_Some in Hf. lia.
Qed.
End sender.
End delivery.
