(* ===== verification/TransferReceive.v ===== *)
(** * What a receiver makes of it

    Of [Transfer], in the file system of [FileWorld] with no failing calls: the
    blocks of a file, in order, build its helper file, and the first block of
    the next file, or the end, puts it in its place with its time, whatever
    was there before. *)
From Stdlib Require Import Ascii.
From S2P Require Import Prelude Text TextFacts HostText JsonTree UnixPath Programs FileIo Transfer FileWorld TransferNames TransferSend.
Local Open Scope Z_scope.

(** ** Names and places *)

(** A name that is no text of dots, no helper's and without separators. *)
Definition good_part (s : string) : Prop :=
  plain_name s ∧ is_utf8 s ∧ has_char NUL s = false ∧ ¬ helper_name s.
Definition good_file (f : SrcFile) : Prop :=
  sf_names f ≠ [] ∧ Forall good_part (sf_names f) ∧ 0 <= sf_mtime f < 2 ^ 63.
(** No file lies below another. *)
Definition apart (files : list SrcFile) : Prop :=
  ∀ i j f g, files !! i = Some f → files !! j = Some g → sf_names f `prefix_of` sf_names g → i = j.

Lemma good_plain l : Forall good_part l → Forall plain_name l.
Proof. intros Hg. eapply Forall_impl; [exact Hg|]. by intros s [? _]. Qed.
Lemma pieces_of_plain l : Forall plain_name l → pieces l = Normal <$> l.
Proof.
  induction 1 as [|s l [_ Hs] _ IH]; [done|]. change (pieces (s :: l)) with (piece s ++ pieces l). by rewrite Hs, IH.
Qed.
Lemma split_plain l : l ≠ [] → Forall plain_name l → split_on slash (join "/" l) = l.
Proof. intros Hl Hp. apply split_join; [done|]. eapply Forall_impl; [exact Hp|]. by intros s [? _]. Qed.
Lemma plain_first s : plain_name s → s ≠ ""%string ∧ is_absolute s = false.
Proof.
  intros [Hs Hp]. apply piece_normal in Hp as (_ & Hne & _). split; [done|]. destruct s as [|c s]; [done|].
  unfold is_absolute. rewrite starts_with_cons. cbn in Hs. apply orb_false_iff in Hs as [Hs _]. apply bool_decide_eq_false_1 in Hs.
  apply Ascii.eqb_neq. unfold slash in *. congruence.
Qed.
Lemma join_first s l : ∃ r, join "/" (s :: l) = s +:+ r.
Proof. destruct l as [|x l]; [exists ""%string; by rewrite app_string_nil|by exists ("/" +:+ join "/" (x :: l))]. Qed.
Lemma join_relative l : l ≠ [] → Forall plain_name l → join "/" l ≠ ""%string ∧ is_absolute (join "/" l) = false.
Proof.
  intros Hl Hp. destruct l as [|s l]; [done|]. apply Forall_cons in Hp as [Hs _]. destruct (join_first s l) as [r ->].
  destruct (plain_first s Hs) as [Hne Ha]. destruct s as [|c s]; [done|]. split; [done|].
  unfold is_absolute in *. change ((String c s +:+ r)%string) with (String c (s +:+ r)). by rewrite starts_with_cons in *.
Qed.
Lemma join_no_nul l : Forall good_part l → has_char NUL (join "/" l) = false.
Proof.
  induction 1 as [|s l (_ & _ & Hs & _) Hl IH]; [done|]. destruct l as [|x l]; [done|].
  change (join "/" (s :: x :: l)) with (s +:+ "/" +:+ join "/" (x :: l)). by rewrite !has_char_app, Hs, IH.
Qed.
Lemma join_utf8 l : Forall good_part l → is_utf8 (join "/" l).
Proof.
  induction 1 as [|s l (_ & Hs & _) Hl IH]; [done|]. destruct l as [|x l]; [done|].
  change (join "/" (s :: x :: l)) with (s +:+ "/" +:+ join "/" (x :: l)). apply is_utf8_app; [done|]. by apply is_utf8_app.
Qed.
Lemma valid_join l : l ≠ [] → Forall good_part l → validate_file_name_no_traversal false (join "/" l) = Ok tt.
Proof.
  intros Hl Hg. unfold validate_file_name_no_traversal, name_parts. rewrite join_no_nul by done.
  rewrite split_plain by (try done; by apply good_plain).
  assert (existsb (λ s, bool_decide (s = ".."%string)) (List.filter (λ s, negb (bool_decide (s = ""%string))) l) = false) as ->.
  { clear Hl. induction Hg as [|s l ((_ & Hs) & _) _ IH]; [done|]. cbn. apply piece_normal in Hs as (_ & Hn1 & _ & Hn2).
    rewrite bool_decide_eq_false_2 by done. cbn. by rewrite bool_decide_eq_false_2. }
  destruct (join_relative l Hl (good_plain l Hg)) as [_ Ha]. unfold is_absolute in Ha. by rewrite Ha.
Qed.

(** With a suffix on the last name. *)
Definition with_suffix (l : names) (s : string) : names := removelast l ++ [default ""%string (last l) +:+ s].
Lemma with_suffix_snoc l x s : with_suffix (l ++ [x]) s = l ++ [x +:+ s].
Proof. unfold with_suffix. by rewrite removelast_last, last_snoc. Qed.
Lemma join_suffix l s : l ≠ [] → join "/" l +:+ s = join "/" (with_suffix l s).
Proof.
  intros Hl. destruct (exists_last Hl) as (i & x & ->). rewrite with_suffix_snoc. clear Hl.
  induction i as [|y i IH]; [done|]. cbn [app].
  assert (∀ z, join "/" (y :: i ++ [z]) = y +:+ "/" +:+ join "/" (i ++ [z])) as E by (intros z; by destruct i).
  rewrite !E, !app_string_assoc. f_equal. f_equal. exact IH.
Qed.
Lemma suffix_plain s x : plain_name x → helper_suffix s → plain_name (x +:+ s).
Proof.
  intros [Hx _] Hs. split; [rewrite has_char_app, Hx; by apply suffix_no_slash|]. apply piece_suffix. by apply suffix_long.
Qed.
Lemma with_suffix_plain l s : l ≠ [] → Forall plain_name l → helper_suffix s → Forall plain_name (with_suffix l s).
Proof.
  intros Hl Hp Hs. destruct (exists_last Hl) as (i & x & ->). rewrite with_suffix_snoc. apply Forall_app in Hp as [Hi Hx].
  apply Forall_cons in Hx as [Hx _]. apply Forall_app. split; [done|]. constructor; [by apply suffix_plain|done].
Qed.

Section receiver.
Variables (base : string) (d : names) (files : list SrcFile).
Hypothesis base_leads : leads base d.
Hypothesis base_utf8 : is_utf8 base.
Hypothesis files_good : Forall good_file files.
Hypothesis files_apart : apart files.

(** Where a file goes, and its helper files. *)
Definition place (f : SrcFile) : names := d ++ sf_names f.
Definition helper (f : SrcFile) (s : string) : names := d ++ with_suffix (sf_names f) s.
Definition folder (f : SrcFile) : names := d ++ removelast (sf_names f).
Definition file_path (f : SrcFile) : string := path_join base (src_name f).
Definition position (q : names) : Prop := ∃ f, f ∈ files ∧ (q = place f ∨ ∃ s, helper_suffix s ∧ q = helper f s).

Lemma good f : f ∈ files → good_file f.
Proof. intros Hf. pose proof files_good as Hg. rewrite Forall_forall in Hg. by apply Hg. Qed.
Lemma path_place f : f ∈ files → leads (file_path f) (place f).
Proof.
  intros Hf. destruct (good f Hf) as (Hne & Hg & _). pose proof (good_plain _ Hg) as Hp.
  apply leads_join; [done|by apply join_relative|]. unfold src_name. rewrite split_plain by done. by apply pieces_of_plain.
Qed.
Lemma path_helper f s : f ∈ files → helper_suffix s → leads (file_path f +:+ s) (helper f s).
Proof.
  intros Hf Hs. destruct (good f Hf) as (Hne & Hg & _). pose proof (good_plain _ Hg) as Hp.
  assert (with_suffix (sf_names f) s ≠ []) as Hne' by (unfold with_suffix; by destruct (removelast (sf_names f))).
  pose proof (with_suffix_plain _ s Hne Hp Hs) as Hp'.
  assert (file_path f +:+ s = path_join base (join "/" (with_suffix (sf_names f) s))) as ->.
  { unfold file_path, src_name, path_join. rewrite <- join_suffix by done. destruct (join_relative _ Hne Hp) as [_ Ha].
    destruct (join_relative _ Hne' Hp') as [_ Ha']. rewrite <- join_suffix in Ha' by done. rewrite Ha, Ha'.
    destruct (_ || _); [by rewrite app_string_assoc|]. rewrite app_string_assoc. done. }
  apply leads_join; [done|by apply join_relative|]. rewrite split_plain by done. by apply pieces_of_plain.
Qed.
Lemma path_utf8 f : f ∈ files → is_utf8 (file_path f).
Proof.
  intros Hf. destruct (good f Hf) as (Hne & Hg & _). unfold file_path, path_join.
  destruct (join_relative _ Hne (good_plain _ Hg)) as [_ Ha]. unfold src_name. rewrite Ha. pose proof (join_utf8 _ Hg) as Hu.
  destruct (_ || _); [by apply is_utf8_app|]. apply is_utf8_app; [done|]. change (String slash (join "/" (sf_names f))) with ("/" +:+ join "/" (sf_names f)).
  by apply is_utf8_app.
Qed.
Lemma place_split f : f ∈ files → ∃ x, place f = folder f ++ [x] ∧ ∀ s, helper f s = folder f ++ [x +:+ s].
Proof.
  intros Hf. destruct (good f Hf) as (Hne & _). unfold place, helper, folder. destruct (exists_last Hne) as (i & x & ->).
  exists x. rewrite removelast_last, app_assoc. split; [done|]. intros s. by rewrite with_suffix_snoc, app_assoc.
Qed.

(** Positions are apart from each other and from the directories. *)
Lemma part_no_helper f s : f ∈ files → s ∈ sf_names f → ¬ helper_name s.
Proof. intros Hf Hs. destruct (good f Hf) as (_ & Hg & _). rewrite Forall_forall in Hg. by apply Hg. Qed.
Lemma helper_last f s : f ∈ files → helper_suffix s → ∃ n, last (helper f s) = Some n ∧ helper_name n.
Proof.
  intros Hf Hs. destruct (place_split f Hf) as (x & _ & Hh). rewrite Hh. exists (x +:+ s). rewrite last_snoc. split; [done|]. by exists x, s.
Qed.
Lemma place_last f : f ∈ files → ∃ n, last (place f) = Some n ∧ ¬ helper_name n.
Proof.
  intros Hf. destruct (good f Hf) as (Hne & _). unfold place. destruct (exists_last Hne) as (i & x & E). exists x.
  rewrite E, app_assoc, last_snoc. split; [done|]. apply (part_no_helper f); [done|]. rewrite E. apply elem_of_app. right. by apply list_elem_of_singleton.
Qed.
Lemma place_helper f g s : f ∈ files → g ∈ files → helper_suffix s → place f ≠ helper g s.
Proof.
  intros Hf Hg Hs E. destruct (place_last f Hf) as (n & Hn & Hnh), (helper_last g s Hg Hs) as (m & Hm & Hmh).
  rewrite E, Hm in Hn. by injection Hn as ->.
Qed.
Lemma place_inj f g : f ∈ files → g ∈ files → place f = place g → f = g.
Proof.
  intros [i Hi]%list_elem_of_lookup [j Hj]%list_elem_of_lookup E. apply app_inv_head in E.
  assert (i = j) as -> by (eapply (files_apart i j f g); [done|done|by rewrite E]). congruence.
Qed.
Lemma helper_inj f g s : f ∈ files → g ∈ files → helper f s = helper g s → place f = place g.
Proof.
  intros Hf Hg E. destruct (place_split f Hf) as (x & Ex & Hx), (place_split g Hg) as (y & Ey & Hy).
  rewrite Hx, Hy in E. apply app_inj_tail in E as [E1 E2]. rewrite Ex, Ey, E1. f_equal. f_equal.
  revert E2. clear. revert y. induction x as [|c x IH]; intros [|e y]; [done| | |].
  - intros E%(f_equal String.length). rewrite !length_string_app in E. cbn in E. lia.
  - intros E%(f_equal String.length). rewrite !length_string_app in E. cbn in E. lia.
  - change ((String c x +:+ s)%string) with (String c (x +:+ s)). change ((String e y +:+ s)%string) with (String e (y +:+ s)).
    intros [= -> E]. by rewrite (IH y E).
Qed.
Lemma download_digest f g : f ∈ files → g ∈ files → helper f ".download" ≠ helper g ".digest".
Proof.
  intros Hf Hg E. destruct (place_split f Hf) as (x & _ & Hx), (place_split g Hg) as (y & _ & Hy). rewrite Hx, Hy in E.
  apply app_inj_tail in E as [_ E]. pose proof (f_equal (rcut "."%char) E) as Er.
  change ".download"%string with (String "."%char "download") in Er. change ".digest"%string with (String "."%char "digest") in Er.
  rewrite !rcut_app in Er by done. injection Er. discriminate.
Qed.
Lemma position_no_dir q f u v : position q → f ∈ files → sf_names f = u ++ v → v ≠ [] → q ≠ d ++ u.
Proof.
  intros (g & Hg & [->|(s & Hs & ->)]) Hf E Hv Eq.
  - apply app_inv_head in Eq. apply list_elem_of_lookup in Hf as [j Hj]. apply list_elem_of_lookup in Hg as [i Hi].
    assert (i = j) as -> by (eapply (files_apart i j g f); [done|done|rewrite Eq, E; by exists v]).
    assert (f = g) as -> by congruence. rewrite Eq in E. destruct v; [done|]. apply (f_equal length) in E. rewrite length_app in E. cbn in E. lia.
  - destruct (helper_last g s Hg Hs) as (n & Hn & Hnh). unfold helper in *. apply app_inv_head in Eq.
    destruct (decide (u = [])) as [->|Hu]; [unfold with_suffix in Eq; by destruct (removelast (sf_names g))|].
    destruct (exists_last Hu) as (u' & x & ->). rewrite Eq, app_assoc, last_snoc in Hn. injection Hn as ->.
    apply (part_no_helper f n); [done| |done]. rewrite E. apply elem_of_app. left. apply elem_of_app. right. by apply list_elem_of_singleton.
Qed.
Lemma position_not_base q : position q → q ≠ d.
Proof.
  intros (g & Hg & Hq) E. destruct (good g Hg) as (Hne & _). apply (f_equal length) in E.
  destruct Hq as [->|(s & _ & ->)]; unfold place, helper in E; rewrite length_app in E.
  - destruct (sf_names g); [done|]. cbn in E. lia.
  - unfold with_suffix in E. rewrite length_app in E. cbn in E. lia.
Qed.
Lemma position_nonempty q : position q → q ≠ [].
Proof.
  intros (g & Hg & Hq) ->. destruct (place_split g Hg) as (x & Ex & Hx). destruct Hq as [Hq|(s & _ & Hq)];
    [rewrite Ex in Hq|rewrite Hx in Hq]; by destruct (folder g).
Qed.

(** The tree of the receiver: directories on the way, or nothing; files or
    nothing at the positions. *)
Record shaped (t : Tree) : Prop := {
  sh_ok : tree_ok t;
  sh_base : node t d = Some NDir;
  sh_dirs : ∀ f u v, f ∈ files → sf_names f = u ++ v → v ≠ [] → dir_or_none (node t (d ++ u));
  sh_files : ∀ q, position q → file_or_none (node t q);
}.
Lemma shaped_file t q c m : shaped t → position q → holds t q = true → shaped (<[q := NFile c m]> t).
Proof.
  intros Ht Hq Hh. pose proof (position_nonempty q Hq) as Hne. constructor.
  - apply tree_ok_insert; [apply Ht|done|done|right]. intros E. pose proof (sh_files t Ht q Hq) as Hf. by rewrite E in Hf.
  - rewrite node_insert_ne; [apply Ht|]. intros E. by apply (position_not_base q Hq).
  - intros f u v Hf E Hv. rewrite node_insert_ne; [by eapply (sh_dirs t Ht)|]. intros Eq. symmetry in Eq. by eapply position_no_dir.
  - intros q' Hq'. destruct (decide (q' = q)) as [->|Hne']; [by rewrite node_insert|]. rewrite node_insert_ne by done. by apply Ht.
Qed.
Lemma shaped_delete t q : shaped t → position q → shaped (delete q t).
Proof.
  intros Ht Hq. constructor.
  - apply tree_ok_delete_leaf; [apply Ht|]. intros E. pose proof (sh_files t Ht q Hq) as Hf. by rewrite E in Hf.
  - rewrite node_delete_ne; [apply Ht|]. intros E. by apply (position_not_base q Hq).
  - intros f u v Hf E Hv. rewrite node_delete_ne; [by eapply (sh_dirs t Ht)|]. intros Eq. symmetry in Eq. by eapply position_no_dir.
  - intros q' Hq'. destruct (decide (q' = q)) as [->|Hne']; [|rewrite node_delete_ne by done; by apply Ht].
    rewrite node_ne by by apply position_nonempty. by rewrite lookup_delete_eq.
Qed.
(** A file stands in a directory. *)
Lemma file_in_dir t q c m : tree_ok t → t !! q = Some (NFile c m) → q ≠ [] → holds t q = true.
Proof. intros Ht E Hne. by eapply tree_ok_parent. Qed.

(** ** Calls on positions *)

Lemma position_prefix q u v : position q → q = u ++ v → v ≠ [] → u `prefix_of` d ∨ ∃ f u' v', f ∈ files ∧ sf_names f = u' ++ v' ∧ v' ≠ [] ∧ u = d ++ u'.
Proof.
  intros (f & Hf & Hq) E Hv. destruct (place_split f Hf) as (x & Ex & Hx).
  assert (∃ y, q = folder f ++ [y]) as [y Hy] by (destruct Hq as [->|(s & _ & ->)]; eauto).
  destruct (exists_last Hv) as (v1 & z & ->). rewrite Hy, app_assoc in E. apply app_inj_tail in E as [E _].
  unfold folder in E. destruct (good f Hf) as (Hne & _). pose proof (app_removelast_last ""%string Hne) as En.
  apply app_eq_inv in E as [(k & Ed & Ev)|(k & Eu & Ek)]; [left; by exists k|right].
  exists f, k, (v1 ++ [List.last (sf_names f) ""%string]). split_and!; [done| |by destruct v1|done]. by rewrite En, Ek, <- app_assoc at 1.
Qed.
Lemma shaped_node t q u v : shaped t → position q → q = u ++ v → is_link (node t u) = false.
Proof.
  intros Ht Hq E. destruct (decide (v = [])) as [->|Hv].
  - rewrite app_nil_r in E. subst u. pose proof (sh_files t Ht q Hq) as Hf. by destruct (node t q) as [[]|].
  - destruct (position_prefix q u v Hq E Hv) as [[k Hk]|(f & u' & v' & Hf & Ef & Hv' & ->)].
    + pose proof (sh_base t Ht) as Hb. rewrite Hk in Hb. destruct (decide (k = [])) as [->|Hne]; [rewrite app_nil_r in Hb; by rewrite Hb|].
      by rewrite (tree_ok_above t u k _ (sh_ok t Ht) Hb Hne).
    + pose proof (sh_dirs t Ht f u' v' Hf Ef Hv') as Hd. by destruct (node t (d ++ u')) as [[]|].
Qed.
Lemma shaped_clear t follow q : shaped t → position q → clear_to t follow q.
Proof. intros Ht Hq u v E _. by eapply shaped_node. Qed.
Lemma at_position w follow p q :
  shaped (fw_tree w) → position q → leads p q → node_at w follow p = match fw_tree w !! q with Some n => Some (q, n) | None => None end.
Proof.
  intros Ht Hq Hp. pose proof (position_nonempty q Hq) as Hne. destruct (fw_tree w !! q) as [n|] eqn:E.
  - unfold node_at, lookup_path, where_is. rewrite (leads_components p q Hp), resolve_root.
    rewrite (resolve_there LINKS follow (fw_tree w) q n); [|apply Ht|by rewrite node_ne|]; [cbn; by rewrite node_ne, E|].
    pose proof (shaped_node (fw_tree w) q q [] Ht Hq ltac:(by rewrite app_nil_r)) as Hl. by rewrite node_ne, E in Hl.
  - destruct (node_at w follow p) as [[q' n]|] eqn:En; [|done].
    eapply node_at_clear in En as [_ En]; [|exact Hp|by apply shaped_clear]. rewrite node_ne in En by done. congruence.
Qed.
Lemma file_at t q n : shaped t → position q → t !! q = Some n → ∃ c m, n = NFile c m.
Proof.
  intros Ht Hq E. pose proof (sh_files t Ht q Hq) as Hf. rewrite node_ne, E in Hf by by apply position_nonempty.
  destruct n as [c m| |]; [by exists c, m|done|done].
Qed.

Definition now_is (w : FileWorld) (t : Tree) : Prop := fw_tree w = t ∧ fw_faults w = [].
Lemma run_changing {A} (bad good : A) r w :
  fw_faults w = [] → changing bad good r w = match r with Some w' => (good, next_fault w') | None => (bad, next_fault w) end.
Proof. intros Hf. unfold changing, faulty. by rewrite Hf. Qed.

Lemma ask_changing (e : FsIo bool) r w (Q : bool → FileWorld → Prop) :
  fw_faults w = [] → fs_handler bool e w = Some (changing false true r w) →
  match r with Some w' => Q true (next_fault w') | None => Q false (next_fault w) end → ends_fs (ask e) w Q.
Proof.
  intros Hf He HQ. rewrite run_changing in He by done. destruct r as [w'|]; by eapply ends_ask.
Qed.

Lemma run_remove w p q :
  fw_faults w = [] → shaped (fw_tree w) → position q → leads p q →
  ends_fs (ask (RemoveFile p)) w (λ r w', now_is w' (delete q (fw_tree w)) ∧ r = bool_decide (is_Some (fw_tree w !! q))).
Proof.
  intros Hf Ht Hq Hp.
  apply (ask_changing _ (remove_node p w)); [done|done|]. unfold remove_node. rewrite (at_position w false p q Ht Hq Hp).
  destruct (fw_tree w !! q) as [n|] eqn:E.
  - destruct (file_at _ q n Ht Hq E) as (c & m & ->). cbn. split; [|done].
    split; [done|]. cbn. by rewrite Hf.
  - cbn. split; [|done]. split; [cbn; by rewrite delete_id|]. cbn. by rewrite Hf.
Qed.
Lemma run_mtime w p q secs :
  fw_faults w = [] → shaped (fw_tree w) → position q → leads p q →
  ends_fs (ask (SetMtime p secs)) w (λ _ w',
    now_is w' (match fw_tree w !! q with Some (NFile c _) => <[q := NFile c (secs * 10 ^ 9)]> (fw_tree w) | _ => fw_tree w end)).
Proof.
  intros Hf Ht Hq Hp.
  apply (ask_changing _ (set_mtime p secs w)); [done|done|]. unfold set_mtime. rewrite (at_position w true p q Ht Hq Hp).
  destruct (fw_tree w !! q) as [n|] eqn:E.
  - destruct (file_at _ q n Ht Hq E) as (c & m & ->). cbn. split; [done|]. cbn. by rewrite Hf.
  - cbn. split; [done|]. cbn. by rewrite Hf.
Qed.
(** A place in a folder that is there. *)
Lemma at_place w follow p c x :
  shaped (fw_tree w) → position (c ++ [x]) → leads p (c ++ [x]) → node (fw_tree w) c = Some NDir → lookup_path w follow p = Some (c ++ [x]).
Proof.
  intros Ht Hq Hp Hc. unfold lookup_path, where_is. rewrite (leads_components p _ Hp), resolve_root, resolve_place; [done|apply Ht|done|].
  by apply (shaped_node (fw_tree w) (c ++ [x]) _ []); [| |rewrite app_nil_r].
Qed.
Lemma run_rename w f :
  fw_faults w = [] → shaped (fw_tree w) → f ∈ files →
  ends_fs (ask (RenameFile (file_path f +:+ ".download") (file_path f))) w (λ _ w',
    now_is w' (match fw_tree w !! helper f ".download" with
               | Some n => <[place f := n]> (delete (helper f ".download") (fw_tree w))
               | None => fw_tree w
               end)).
Proof.
  intros Hf Ht Hfi. set (q := helper f ".download").
  assert (position q) as Hq by (exists f; split; [done|right; exists ".download"%string; split; [by left|done]]).
  assert (position (place f)) as Hp by (exists f; auto).
  pose proof (path_helper f ".download" Hfi (or_introl eq_refl)) as Hlq. pose proof (path_place f Hfi) as Hlp. fold q in Hlq.
  apply (ask_changing _ (rename_node (file_path f +:+ ".download") (file_path f) w)); [done|done|].
  unfold rename_node. rewrite (at_position w false _ q Ht Hq Hlq).
  destruct (fw_tree w !! q) as [n|] eqn:E.
  2: { cbn. split; [done|]. cbn. by rewrite Hf. }
  destruct (file_at _ q n Ht Hq E) as (c & m & ->). cbn.
  destruct (place_split f Hfi) as (x & Ex & Hx).
  assert (q = folder f ++ [x +:+ ".download"]) as Eq by apply Hx.
  assert (node (fw_tree w) (folder f) = Some NDir) as Hdir.
  { rewrite Eq in E. by apply (sh_ok _ Ht) in E. }
  rewrite Ex in Hp, Hlp |- *. rewrite (at_place w false _ (folder f) x Ht Hp Hlp Hdir). cbn.
  assert (q ≠ folder f ++ [x]) as Hne by (rewrite <- Ex; intros Eqq; by apply (place_helper f f ".download" Hfi Hfi (or_introl eq_refl))).
  rewrite bool_decide_eq_false_2 by done.
  rewrite (bool_decide_eq_false_2 (q `prefix_of` folder f ++ [x])).
  2: { intros [k Hk]. destruct k as [|y k] using rev_ind; [by rewrite app_nil_r in Hk|]. rewrite app_assoc in Hk.
       apply app_inj_tail in Hk as [Hk _]. apply (f_equal length) in Hk. rewrite Eq, !length_app in Hk. cbn in Hk. lia. }
  rewrite (bool_decide_eq_false_2 (q = [])) by by apply position_nonempty.
  rewrite (bool_decide_eq_false_2 (folder f ++ [x] = [])) by by apply position_nonempty.
  assert (holds (fw_tree w) (folder f ++ [x]) = true) as Hh by (unfold holds; by rewrite removelast_last, Hdir).
  rewrite Hh. cbn [orb negb].
  pose proof (sh_files _ Ht _ Hp) as Hfp. destruct (node (fw_tree w) (folder f ++ [x])) as [[c' m'| |]|]; try done.
  - cbn. split; [done|]. cbn. by rewrite Hf.
  - cbn. split; [done|]. cbn. by rewrite Hf.
Qed.

(** ** The checks pass *)

Lemma run_check l w : ∀ cur c,
  leads cur c → Forall plain_name l → (∀ u v, c ++ l = u ++ v → v ≠ [] → dir_or_none (node (fw_tree w) u)) →
  is_link (node (fw_tree w) (c ++ l)) = false → run fs_handler (check_components cur (Normal <$> l)) w = (Finished (Ok tt), w).
Proof.
  induction l as [|s l IH]; intros cur c Hc Hp Hd Hl; [done|]. apply Forall_cons in Hp as [Hs Hp].
  cbn [fmap list_fmap check_components]. pose proof (leads_plain cur c s Hc Hs) as Hj.
  assert (run fs_handler (check_components (path_join cur s) (Normal <$> l)) w = (Finished (Ok tt), w)) as Hgo.
  { apply (IH _ (c ++ [s])); [done|done|by rewrite <- app_assoc|by rewrite <- app_assoc]. }
  assert (is_link (node (fw_tree w) (c ++ [s])) = false) as Hns.
  { destruct (decide (l = [])) as [->|Hne]; [done|]. pose proof (Hd (c ++ [s]) l ltac:(by rewrite <- app_assoc) Hne) as Hx.
    by destruct (node (fw_tree w) (c ++ [s])) as [[]|]. }
  assert (run fs_handler (ask (LinkMetadata (path_join cur s))) w = (Finished
    match resolve LINKS false (fw_tree w) [] (Normal <$> (c ++ [s])) with
    | Ok q => match node (fw_tree w) q with Some n => Ok (meta_of n) | None => Err NotFound end
    | Err e => Err e
    end, w)) as E by (unfold ask; cbn [run fs_handler]; unfold where_is; rewrite (leads_components _ _ Hj), resolve_root; reflexivity).
  rewrite (run_bind_eq _ _ _ _ _ _ E). destruct (resolve_missing LINKS false (fw_tree w) (c ++ [s]) []) as [-> | ->]; [|done|cbn [app]|done].
  - intros u v Eu Hu Hv. cbn. destruct (exists_last Hv) as (v' & x & ->). rewrite app_assoc in Eu. apply app_inj_tail in Eu as [-> ->].
    apply (Hd u (v' ++ x :: l)); [by rewrite <- app_assoc|by destruct v'].
  - destruct (node (fw_tree w) (c ++ [s])) as [n|]; [|done]. by destruct n.
Qed.
Lemma shaped_dirs t f u v : shaped t → f ∈ files → place f = u ++ v → v ≠ [] → dir_or_none (node t u).
Proof.
  intros Ht Hf E Hv. unfold place in E. apply app_eq_inv in E as [(k & Ed & Ev)|(k & Eu & Ek)].
  - pose proof (sh_base t Ht) as Hb. rewrite Ed in Hb. destruct (decide (k = [])) as [->|Hk]; [rewrite app_nil_r in Hb; by rewrite Hb|].
    by rewrite (tree_ok_above t u k _ (sh_ok t Ht) Hb Hk).
  - subst u. by eapply (sh_dirs t Ht).
Qed.
Lemma place_position f : f ∈ files → position (place f).
Proof. intros Hf. exists f. auto. Qed.
Lemma helper_position f s : f ∈ files → helper_suffix s → position (helper f s).
Proof. intros Hf Hs. exists f. eauto. Qed.
Lemma run_join w f :
  shaped (fw_tree w) → f ∈ files → run fs_handler (join_validated_path base (src_name f)) w = (Finished (Ok (file_path f)), w).
Proof.
  intros Ht Hf. destruct (good f Hf) as (Hne & Hg & _). pose proof (good_plain _ Hg) as Hp.
  unfold join_validated_path, src_name. rewrite valid_join by done. unfold validate_no_symlink_components, join_name.
  destruct (join_relative _ Hne Hp) as [Hn Ha]. rewrite !bool_decide_eq_false_2 by done.
  assert (run fs_handler (check_components base (components (join "/" (sf_names f)))) w = (Finished (Ok tt), w)) as E.
  { assert (run fs_handler (check_components base (Normal <$> sf_names f)) w = (Finished (Ok tt), w)) as E.
    { apply (run_check _ _ base d); [done|done| |].
      - intros u v Eu Hv. by apply (shaped_dirs _ f u v).
      - apply (shaped_node (fw_tree w) (place f) _ []); [done|by apply place_position|by rewrite app_nil_r]. }
    destruct (components_relative (join "/" (sf_names f)) (sf_names f) Ha) as [-> | ->]; [|exact E|exact E].
    rewrite split_plain by done. by apply pieces_of_plain. }
  rewrite (run_try _ _ _ _ _ _ E). done.
Qed.
Lemma file_path_string f : f ∈ files → get_string (file_path f) = file_path f.
Proof. intros Hf. unfold get_string, to_str. by rewrite from_utf8_bytes by by apply path_utf8. Qed.

(** ** Putting a file in its place *)

(** The helper file takes the place; the time is set. *)
Definition move_in (t : Tree) (f : SrcFile) : Tree :=
  match t !! helper f ".download" with
  | Some n => <[place f := n]> (delete (helper f ".download") t)
  | None => t
  end.
Definition stamp (t : Tree) (f : SrcFile) : Tree :=
  match t !! place f with Some (NFile c _) => <[place f := NFile c (sf_mtime f * 10 ^ 9)]> t | _ => t end.
Definition place_file (t : Tree) (f : SrcFile) : Tree := stamp (move_in (delete (helper f ".digest") t) f) f.

Lemma shaped_move_in t f : shaped t → f ∈ files → shaped (move_in t f).
Proof.
  intros Ht Hf. unfold move_in. destruct (t !! helper f ".download") as [n|] eqn:E; [|done].
  pose proof (helper_position f ".download" Hf (or_introl eq_refl)) as Hq.
  destruct (file_at t _ n Ht Hq E) as (c & m & ->). apply shaped_file; [by apply shaped_delete|by apply place_position|].
  pose proof (file_in_dir t _ c m (sh_ok t Ht) E (position_nonempty _ Hq)) as Hh. unfold holds in *.
  destruct (place_split f Hf) as (x & Ex & Hx). rewrite Ex, removelast_last. rewrite Hx, removelast_last in Hh. rewrite Hx.
  rewrite node_delete_ne; [done|]. intros Eq. symmetry in Eq. by apply app_single_ne in Eq.
Qed.
Lemma shaped_stamp t f : shaped t → f ∈ files → shaped (stamp t f).
Proof.
  intros Ht Hf. unfold stamp. destruct (t !! place f) as [[c m| |]|] eqn:E; try done. apply shaped_file; [done|by apply place_position|].
  eapply file_in_dir; [apply Ht|exact E|]. by apply position_nonempty, place_position.
Qed.
Lemma shaped_place t f : shaped t → f ∈ files → shaped (place_file t f).
Proof.
  intros Ht Hf. apply shaped_stamp; [|done]. apply shaped_move_in; [|done]. apply shaped_delete; [done|]. by apply helper_position; [|right].
Qed.
(** Nothing else changes. *)
Lemma place_file_other t f q : q ≠ place f → q ≠ helper f ".digest" → q ≠ helper f ".download" → place_file t f !! q = t !! q.
Proof.
  intros Q1 Q2 Q3. unfold place_file, stamp. set (t1 := move_in _ f).
  assert (t1 !! q = t !! q) as E1.
  { unfold t1, move_in. destruct (_ !! helper f ".download"); rewrite ?lookup_insert_ne, ?lookup_delete_ne by done; done. }
  destruct (t1 !! place f) as [[]|]; rewrite ?lookup_insert_ne by done; done.
Qed.
Lemma place_file_done t f c m :
  f ∈ files → t !! helper f ".download" = Some (NFile c m) → place_file t f !! place f = Some (NFile c (sf_mtime f * 10 ^ 9)).
Proof.
  intros Hf E. unfold place_file, stamp, move_in. rewrite lookup_delete_ne, E.
  - rewrite lookup_insert_eq. by rewrite lookup_insert_eq.
  - intros Eq. symmetry in Eq. by apply (download_digest f f) in Eq.
Qed.

(** A job of the receiver at the [k]-th file. *)
Record receives (id : Z) (j : TransferJob) (k : nat) : Prop := {
  rc_id : tj_id j = id;
  rc_type : tj_type j = Generic;
  rc_source : tj_data_source j = FilePath base;
  rc_files : tj_files j = src_entry <$> files;
  rc_num : tj_file_num j = Z.of_nat k;
}.
Hypothesis few_files : zlen files < 2 ^ 31.
Lemma receives_entry id j k f : receives id j k → files !! k = Some f → at_index (tj_files j) (as_usize (tj_file_num j)) = Some (src_entry f).
Proof.
  intros Hj Hf. rewrite (rc_files id j k Hj), (rc_num id j k Hj), entry_of; [by rewrite Hf|done|].
  apply lookup_lt_Some in Hf. lia.
Qed.

Lemma run_modify_time id j k f w :
  receives id j k → files !! k = Some f → fw_faults w = [] → shaped (fw_tree w) →
  ends_fs (modify_time j) w (λ _ w', now_is w' (place_file (fw_tree w) f)).
Proof.
  intros Hj Hk Hw Ht. assert (f ∈ files) as Hf by by eapply list_elem_of_lookup_2.
  assert (run fs_handler (current_path j) w = (Finished (Some (src_entry f, file_path f)), w)) as E.
  { unfold current_path. rewrite (rc_type id j k Hj), (rc_source id j k Hj), (receives_entry id j k f Hj Hk).
    rewrite bool_decide_eq_false_2 by done. unfold resolve_entry_path. rewrite (rc_type id j k Hj), bool_decide_eq_true_2 by done.
    rewrite run_bind, run_bind. cbn [fe_name src_entry]. by rewrite run_join. }
  unfold modify_time. eapply ends_run; [exact E|]. cbn [fst snd]. rewrite file_path_string by done.
  unfold digest_path, download_path.
  eapply ends_bind; [apply (run_remove w _ (helper f ".digest")); [done|done|by apply helper_position; [|right]|by apply path_helper; [|right]]|].
  intros _ w1 [[T1 F1] _]. assert (shaped (fw_tree w1)) as H1 by (rewrite T1; apply shaped_delete; [done|by apply helper_position; [|right]]).
  eapply ends_bind; [by apply (run_rename w1 f)|]. intros _ w2 [T2 F2].
  change (fw_tree w2 = move_in (fw_tree w1) f) in T2.
  assert (shaped (fw_tree w2)) as H2 by (rewrite T2; by apply shaped_move_in).
  assert (as_i64 (fe_modified_time (src_entry f)) = sf_mtime f) as Em.
  { destruct (good f Hf) as (_ & _ & Hm). cbn. unfold Transfer.as_i64. rewrite Z.mod_small by lia. lia. }
  rewrite Em. eapply ends_bind; [by apply (run_mtime w2 _ (place f)); [done|done|apply place_position|apply path_place]|].
  intros ? w3 H3. apply ends_ret. rewrite T2, T1 in H3. exact H3.
Qed.

(** ** The next file *)

Lemma position_longer q : position q → (length d < length q)%nat.
Proof.
  intros (g & Hg & Hq). destruct (good g Hg) as (Hne & _). destruct Hq as [->|(s & _ & ->)]; unfold place, helper; rewrite length_app.
  - destruct (sf_names g); [done|]. cbn. lia.
  - unfold with_suffix. rewrite length_app. cbn. lia.
Qed.
Lemma position_no_folder q f u v : position q → f ∈ files → folder f = u ++ v → q ≠ u.
Proof.
  intros Hq Hf E ->. unfold folder in E. destruct (good f Hf) as (Hne & _). pose proof (app_removelast_last ""%string Hne) as En.
  apply app_eq_inv in E as [(k & Ed & Ev)|(k & -> & Ek)].
  - pose proof (position_longer u Hq) as Hl. rewrite Ed, length_app in Hl. lia.
  - apply (position_no_dir (d ++ k) f k (v ++ [List.last (sf_names f) ""%string]) Hq Hf); [|by destruct v|done].
    by rewrite app_assoc, <- Ek.
Qed.
Lemma place_parent f : f ∈ files → ∃ pp, parent (file_path f) = Some pp ∧ leads pp (folder f).
Proof.
  intros Hf. pose proof (path_place f Hf) as Hl. destruct (place_split f Hf) as (x & Ex & _).
  destruct (parent (file_path f)) as [pp|] eqn:E.
  - exists pp. split; [done|]. pose proof (leads_parent _ _ _ Hl E) as Hpp. by rewrite Ex, removelast_last in Hpp.
  - exfalso. destruct Hl as (r & Er & Ep). rewrite Er in E. unfold parent in E. cbn [split_on] in E. rewrite Ascii.eqb_refl in E.
    unfold is_absolute in E. rewrite starts_with_cons in E. change (Ascii.eqb "/" slash) with true in E. cbv iota in E.
    rewrite Ep, Ex, fmap_app in E. by destruct (Normal <$> folder f).
Qed.
Lemma run_parent w f :
  fw_faults w = [] → shaped (fw_tree w) → f ∈ files →
  ends_fs (match parent (file_path f) with Some pp => ask (CreateDirAll pp);; mret tt | None => mret tt end) w (λ _ w', ∃ t',
    now_is w' t' ∧ shaped t' ∧ node t' (folder f) = Some NDir ∧ ∀ q, position q → t' !! q = fw_tree w !! q).
Proof.
  intros Hw Ht Hf. destruct (place_parent f Hf) as (pp & -> & Hpp). destruct (place_split f Hf) as (x & Ex & _).
  assert (∀ u v, folder f = u ++ v → dir_or_none (node (fw_tree w) u)) as Hd.
  { intros u v E. apply (shaped_dirs _ f u (v ++ [x])); [done|done|by rewrite app_assoc, <- E|by destruct v]. }
  destruct (make_dirs_total (folder f) (fw_tree w) []) as (t' & Em & Hn); [apply Ht|done|by intros u v E _; apply (Hd u v)|].
  pose proof Em as Hs. apply make_dirs_spec in Hs as [Hok Hq]; [|apply Ht|done|intros u v E; pose proof (Hd u v E) as Hx; cbn; by destruct (node (fw_tree w) u) as [[]|]].
  assert (∀ q, position q → t' !! q = fw_tree w !! q) as Hsame.
  { intros q Hpos. destruct (Hq q) as [?|(_ & _ & u & v & E & _ & ->)]; [done|]. exfalso. by apply (position_no_folder u f u v). }
  assert (∀ q, dir_or_none (node (fw_tree w) q) → dir_or_none (node t' q)) as Hdirs.
  { intros [|s q] Hq'; [done|]. cbn in *. destruct (Hq (s :: q)) as [->|(_ & -> & _)]; done. }
  eapply ends_bind; [apply (ask_changing _ ((λ t, with_tree t w) <$> make_dirs (fw_tree w) (fw_cwd w) (components pp))
      w (λ _ w', now_is w' t')); [done|done|]|].
  { rewrite (leads_components pp _ Hpp). cbn [make_dirs]. rewrite Em. cbn. split; [done|]. cbn. by rewrite Hw. }
  intros ? w' Hw'. apply ends_ret. exists t'. split; [exact Hw'|]. split; [|split; [exact Hn|exact Hsame]]. constructor.
  - done.
  - destruct (decide (d = [])) as [E|Hne]; [by rewrite E|]. pose proof (sh_base _ Ht) as Hb. rewrite node_ne in * by done.
    destruct (Hq d) as [->|(E & _)]; [done|congruence].
  - intros g u v Hg E Hv. apply Hdirs. by eapply (sh_dirs _ Ht).
  - intros q Hpos. pose proof (position_nonempty q Hpos) as Hne. rewrite node_ne, Hsame by done. rewrite <- node_ne by done. by apply Ht.
Qed.

(** ** Opening and writing the helper files *)

Lemma ask_opening (e : FsIo (option nat)) r w h w' (Q : option nat → FileWorld → Prop) :
  fw_faults w = [] → fs_handler (option nat) e w = Some (opening r w) → r = Some (h, w') → Q (Some h) (next_fault w') → ends_fs (ask e) w Q.
Proof.
  intros Hf He -> HQ. eapply ends_ask; [|exact HQ]. rewrite He. unfold opening, faulty. by rewrite Hf.
Qed.
Lemma create_at w f s :
  shaped (fw_tree w) → f ∈ files → helper_suffix s → node (fw_tree w) (folder f) = Some NDir →
  create_file (file_path f +:+ s) w =
  Some (with_new_handle (mkHandle (Some (helper f s)) 0) (with_tree (<[helper f s := NFile [] (fw_now w)]> (fw_tree w)) w)).
Proof.
  intros Ht Hf Hs Hd. pose proof (helper_position f s Hf Hs) as Hq. pose proof (path_helper f s Hf Hs) as Hl.
  destruct (place_split f Hf) as (x & _ & Hx). pose proof (sh_files _ Ht _ Hq) as Hn.
  unfold create_file. rewrite Hx in *. rewrite (at_place w true _ (folder f) (x +:+ s) Ht Hq Hl Hd). cbn.
  assert (holds (fw_tree w) (folder f ++ [x +:+ s]) = true) as -> by (unfold holds; by rewrite removelast_last, Hd).
  by destruct (node (fw_tree w) (folder f ++ [x +:+ s])) as [[]|].
Qed.
Lemma run_create w f :
  fw_faults w = [] → shaped (fw_tree w) → f ∈ files → node (fw_tree w) (folder f) = Some NDir →
  ends_fs (ask (CreateFile (file_path f +:+ ".download"))) w (λ r w', ∃ h, r = Some h ∧
    now_is w' (<[helper f ".download" := NFile [] (fw_now w)]> (fw_tree w)) ∧
    fw_handles w' !! h = Some (mkHandle (Some (helper f ".download")) 0)).
Proof.
  intros Hw Ht Hf Hd. eapply ask_opening; [done|reflexivity|apply create_at; [done|done|by left|done]|].
  exists (fw_next w). split; [done|]. split; [|cbn; by rewrite lookup_insert_eq]. split; [done|]. cbn. by rewrite Hw.
Qed.
Lemma run_digest w f b :
  fw_faults w = [] → shaped (fw_tree w) → f ∈ files → node (fw_tree w) (folder f) = Some NDir →
  ends_fs (ask (WriteWhole (file_path f +:+ ".digest") b)) w (λ _ w', (∃ c m,
    now_is w' (<[helper f ".digest" := NFile c m]> (fw_tree w))) ∧ fw_handles w' = fw_handles w).
Proof.
  intros Hw Ht Hf Hd. apply (ask_changing _ (write_whole (file_path f +:+ ".digest") b w)); [done|done|].
  unfold write_whole. rewrite (create_at w f ".digest" Ht Hf (or_intror eq_refl) Hd). cbn. unfold write_handle. cbn.
  rewrite lookup_insert_eq. cbn. rewrite node_insert by by apply position_nonempty, helper_position; [|right]. cbn. split; [|done].
  eexists _, _. split; [cbn; by rewrite insert_insert_eq|]. cbn. by rewrite Hw.
Qed.
Lemma splice_end b content : splice (length content) b content = content ++ b.
Proof. unfold splice. by rewrite take_ge, Nat.sub_diag, drop_ge, app_nil_r by lia. Qed.
Lemma run_write_file w h q buf m b :
  fw_faults w = [] → q ≠ [] → fw_handles w !! h = Some (mkHandle (Some q) (length buf)) → fw_tree w !! q = Some (NFile buf m) →
  ends_fs (ask (WriteFile h b)) w (λ r w', r = true ∧ now_is w' (<[q := NFile (buf ++ b) (fw_now w)]> (fw_tree w)) ∧
    fw_handles w' !! h = Some (mkHandle (Some q) (length (buf ++ b)))).
Proof.
  intros Hw Hq Hh Ht. assert (faulty w = false) as Hf by (unfold faulty; by rewrite Hw).
  eapply (ends_ask _ _ _ true (next_fault (write_handle h b w))); [unfold fs_handler; by rewrite Hf|].
  split; [done|]. unfold write_handle. rewrite Hh. cbn -[splice]. rewrite node_ne, Ht by done. cbn -[splice]. rewrite splice_end, length_app, lookup_insert_eq.
  split; [|done]. split; [done|]. cbn. by rewrite Hw.
Qed.

(** ** Jobs *)

Definition jends {A} (p : Job A) (j : TransferJob) (w : FileWorld) (Q : A → TransferJob → FileWorld → Prop) : Prop :=
  ends_fs (p j) w (λ r w', Q r.2 r.1 w').
Lemma jends_ret {A} (a : A) j w (Q : A → TransferJob → FileWorld → Prop) : Q a j w → jends (mret a) j w Q.
Proof. intros HQ. by apply ends_ret. Qed.
Lemma jends_bind {A B} (p : Job A) (f : A → Job B) j w Q Q' :
  jends p j w Q' → (∀ a j' w', Q' a j' w' → jends (f a) j' w' Q) → jends (p ≫= f) j w Q.
Proof. intros Hp Hf. eapply ends_bind; [exact Hp|]. intros [j' a] w' Ha. by apply Hf. Qed.
Lemma jends_try {A B} (p : Job (result Failure A)) (f : A → Job (result Failure B)) j w Q (Q' : A → TransferJob → FileWorld → Prop) :
  jends p j w (λ r j' w', ∃ a, r = Ok a ∧ Q' a j' w') → (∀ a j' w', Q' a j' w' → jends (f a) j' w' Q) → jends (job_try p f) j w Q.
Proof. intros Hp Hf. eapply jends_bind; [exact Hp|]. intros r j' w' (a & -> & Ha). by apply Hf. Qed.
Lemma jends_self {A} (f : TransferJob → Job A) j w Q : jends (f j) j w Q → jends (self ≫= f) j w Q.
Proof. intros Hf. eapply ends_run; [reflexivity|]. exact Hf. Qed.
Lemma jends_io {A} (p : Prog FsIo A) j w Q : ends_fs p w (λ a w', Q a j w') → jends (io p) j w Q.
Proof. intros Hp. eapply ends_bind; [exact Hp|]. intros a w' Ha. by apply ends_ret. Qed.
Lemma jends_modify (f : TransferJob → TransferJob) j w (Q : unit → TransferJob → FileWorld → Prop) : Q tt (f j) w → jends (modify_self f) j w Q.
Proof. intros HQ. by apply ends_ret. Qed.
Lemma jends_mono {A} (p : Job A) j w (Q Q' : A → TransferJob → FileWorld → Prop) :
  (∀ a j w, Q a j w → Q' a j w) → jends p j w Q → jends p j w Q'.
Proof. intros HQ. apply ends_mono. intros [j' a] w'. apply HQ. Qed.
Lemma jends_io_bind {A B} (p : Prog FsIo A) (f : A → Job B) j w Q (Q' : A → FileWorld → Prop) :
  ends_fs p w Q' → (∀ a w', Q' a w' → jends (f a) j w' Q) → jends (io p ≫= f) j w Q.
Proof.
  intros Hp Hf. eapply (jends_bind _ _ _ _ _ (λ a j' w', j' = j ∧ Q' a w')).
  - apply jends_io. eapply ends_mono; [|exact Hp]. done.
  - intros a j' w' [-> Ha]. by apply Hf.
Qed.
Lemma jends_io_try {A B} (p : FileProg A) (f : A → Job (result Failure B)) j w Q (Q' : A → FileWorld → Prop) :
  ends_fs p w (λ r w', ∃ a, r = Ok a ∧ Q' a w') → (∀ a w', Q' a w' → jends (f a) j w' Q) → jends (job_try (io p) f) j w Q.
Proof. intros Hp Hf. eapply jends_io_bind; [exact Hp|]. intros r w' (a & -> & Ha). by apply Hf. Qed.
Lemma jends_run_try {A B} (p : FileProg A) (f : A → Job (result Failure B)) j w a w' Q :
  run fs_handler p w = (Finished (Ok a), w') → jends (f a) j w' Q → jends (job_try (io p) f) j w Q.
Proof. intros E Hf. apply (jends_io_try _ _ _ _ _ (λ b w2, b = a ∧ w2 = w')); [by eexists _, _; split; [exact E|by exists a]|]. by intros ? ? [-> ->]. Qed.
Lemma jends_modify_bind {A} (g : TransferJob → TransferJob) (f : unit → Job A) j w Q :
  jends (f tt) (g j) w Q → jends (modify_self g ≫= f) j w Q.
Proof. intros Hf. eapply ends_run; [reflexivity|]. exact Hf. Qed.
Lemma ends_ensure e (p : Prog FsIo bool) w (Q : FileWorld → Prop) :
  ends_fs p w (λ r w', r = true ∧ Q w') → ends_fs (ensure e p) w (λ r w', ∃ a, r = Ok a ∧ Q w').
Proof. intros Hp. eapply ends_bind; [exact Hp|]. intros a w' [-> Ha]. apply ends_ret. by exists tt. Qed.

(** ** The blocks *)

(** The first [k] files are in their places, with nothing left beside them. *)
Definition arrived (t : Tree) (f : SrcFile) : Prop :=
  t !! place f = Some (NFile (sf_content f) (sf_mtime f * 10 ^ 9)) ∧ ∀ s, helper_suffix s → t !! helper f s = None.
Definition delivered (t : Tree) (k : nat) : Prop := ∀ i f, (i < k)%nat → files !! i = Some f → arrived t f.
(** Of the file after the first [k] so much has come. *)
Record writing (id : Z) (j : TransferJob) (k : nat) (f : SrcFile) (buf : bytes) (w : FileWorld) : Prop := {
  wr_job : receives id j k;
  wr_file : files !! k = Some f;
  wr_faults : fw_faults w = [];
  wr_shaped : shaped (fw_tree w);
  wr_done : delivered (fw_tree w) k;
  wr_stream : ∃ h m, tj_data_stream j = Some (FileStream h) ∧
    fw_handles w !! h = Some (mkHandle (Some (helper f ".download")) (length buf)) ∧
    fw_tree w !! helper f ".download" = Some (NFile buf m);
}.
Lemma delivered_same t t' k : (∀ q, position q → t' !! q = t !! q) → delivered t k → delivered t' k.
Proof.
  intros E Hd i f Hi Hk. assert (f ∈ files) as Hf by by eapply list_elem_of_lookup_2. destruct (Hd i f Hi Hk) as [H1 H2].
  split; [rewrite E; [done|by apply place_position]|]. intros s Hs. rewrite E; [by apply H2|by apply helper_position].
Qed.
Lemma helper_other f g s s' : f ∈ files → g ∈ files → helper_suffix s → helper_suffix s' → helper f s = helper g s' → f = g.
Proof.
  intros Hf Hg Hs Hs' E. apply place_inj; [done|done|]. destruct Hs as [-> | ->], Hs' as [-> | ->];
    [by eapply helper_inj| | |by eapply helper_inj].
  - by apply download_digest in E.
  - symmetry in E. by apply download_digest in E.
Qed.
Lemma delivered_helper t k g s n : files !! k = Some g → helper_suffix s → delivered t k → delivered (<[helper g s := n]> t) k.
Proof.
  intros Hk Hs Hd i f Hi Hf. assert (f ∈ files) as Hff by by eapply list_elem_of_lookup_2.
  assert (g ∈ files) as Hg by by eapply list_elem_of_lookup_2. destruct (Hd i f Hi Hf) as [H1 H2].
  split; [rewrite lookup_insert_ne; [done|]; intros E; symmetry in E; by apply (place_helper f g s)|].
  intros s' Hs'. rewrite lookup_insert_ne; [by apply H2|]. intros E. apply helper_other in E as ->; [|done..].
  assert (i = k); [by eapply files_apart|lia].
Qed.
Lemma delivered_delete t k g s : g ∈ files → helper_suffix s → delivered t k → delivered (delete (helper g s) t) k.
Proof.
  intros Hg Hs Hd i f Hi Hf. assert (f ∈ files) as Hff by by eapply list_elem_of_lookup_2. destruct (Hd i f Hi Hf) as [H1 H2].
  split; [rewrite lookup_delete_ne; [done|]; intros E; symmetry in E; by apply (place_helper f g s)|].
  intros s' Hs'. apply lookup_delete_None. right. by apply H2.
Qed.
Lemma place_file_helpers t f s : f ∈ files → helper_suffix s → place_file t f !! helper f s = None.
Proof.
  intros Hf Hs. pose proof (place_helper f f s Hf Hf Hs) as Hne.
  assert (move_in (delete (helper f ".digest") t) f !! helper f s = None) as E.
  { unfold move_in. destruct (delete _ t !! helper f ".download") as [n|] eqn:E.
    - rewrite lookup_insert_ne by done. apply lookup_delete_None. destruct Hs as [-> | ->]; [by left|right]. apply lookup_delete_eq.
    - destruct Hs as [-> | ->]; [done|]. apply lookup_delete_eq. }
  unfold place_file, stamp. destruct (_ !! place f) as [[]|]; rewrite ?lookup_insert_ne by done; done.
Qed.
Lemma delivered_next t k f m :
  delivered t k → files !! k = Some f → t !! helper f ".download" = Some (NFile (sf_content f) m) → delivered (place_file t f) (S k).
Proof.
  intros Hd Hk Ht i g Hi Hg. assert (f ∈ files) as Hf by by eapply list_elem_of_lookup_2.
  assert (g ∈ files) as Hgf by by eapply list_elem_of_lookup_2.
  destruct (decide (i = k)) as [->|Hne].
  { assert (g = f) as -> by congruence. split; [by eapply place_file_done|]. intros s Hs. by apply place_file_helpers. }
  assert (g ≠ f) as Hgne by (intros ->; apply Hne; by eapply files_apart).
  destruct (Hd i g ltac:(lia) Hg) as [H1 H2]. split.
  - rewrite place_file_other; [done| | |].
    + intros E. by apply place_inj in E as ->.
    + by apply place_helper; [| |right].
    + by apply place_helper; [| |left].
  - intros s Hs. rewrite place_file_other; [by apply H2| | |].
    + intros E. symmetry in E. by apply (place_helper f g s).
    + intros E. apply helper_other in E; [done|done|done|done|by right].
    + intros E. apply helper_other in E; [done|done|done|done|by left].
Qed.
Lemma shaped_helper t f s c m : shaped t → f ∈ files → helper_suffix s → node t (folder f) = Some NDir → shaped (<[helper f s := NFile c m]> t).
Proof.
  intros Ht Hf Hs Hd. apply shaped_file; [done|by apply helper_position|]. destruct (place_split f Hf) as (x & _ & Hx).
  unfold holds. by rewrite Hx, removelast_last, Hd.
Qed.
(** A helper file is no directory. *)
Lemma folder_helper f g s : f ∈ files → g ∈ files → helper_suffix s → folder f ≠ helper g s.
Proof.
  intros Hf Hg Hs E. apply (position_no_folder (helper g s) f (folder f) []); [by apply helper_position|done|by rewrite app_nil_r|done].
Qed.

Lemma run_removed_digest j w f :
  fw_faults w = [] → shaped (fw_tree w) → f ∈ files →
  jends (x ← io (path_exists (file_path f +:+ ".digest"));
         if x : bool then io (ensure Io (ask (RemoveFile (file_path f +:+ ".digest")))) else mret (Ok tt)) j w
    (λ r j' w', ∃ a, r = Ok a ∧ j' = j ∧ now_is w' (delete (helper f ".digest") (fw_tree w))).
Proof.
  intros Hw Ht Hf. pose proof (helper_position f ".digest" Hf (or_intror eq_refl)) as Hq.
  pose proof (path_helper f ".digest" Hf (or_intror eq_refl)) as Hl.
  assert (run fs_handler (path_exists (file_path f +:+ ".digest")) w =
    (Finished (bool_decide (is_Some (fw_tree w !! helper f ".digest"))), w)) as E.
  { unfold path_exists, ask. cbn [mbind Prog_bind prog_bind run fs_handler].
    rewrite (at_position w true _ _ Ht Hq Hl). by destruct (fw_tree w !! helper f ".digest"). }
  eapply (jends_io_bind _ _ _ _ _ (λ b w', b = bool_decide (is_Some (fw_tree w !! helper f ".digest")) ∧ w' = w)); [by eexists _, _|].
  intros b w' [-> ->]. destruct (bool_decide _) eqn:Eb.
  - apply jends_io. apply (ends_ensure _ _ _ (λ w', j = j ∧ now_is w' (delete (helper f ".digest") (fw_tree w)))).
    eapply ends_mono; [|by apply (run_remove w _ (helper f ".digest"))]. intros r w' [H1 ->]. done.
  - apply bool_decide_eq_false_1, eq_None_not_Some in Eb. apply jends_ret. exists tt. split_and!; [done|done|].
    split; [by rewrite delete_id|done].
Qed.

Section writer.
Context `{Zstd} `{JsonLib}.
Lemma open_next id j k f k' f' w block :
  receives id j k → files !! k = Some f → files !! k' = Some f' → bl_file_num block = Z.of_nat k' →
  k' ≠ k ∨ tj_data_stream j = None → fw_faults w = [] → shaped (fw_tree w) → delivered (place_file (fw_tree w) f) k' →
  jends (open_for_block base block) j w (λ r j' w', ∃ a, r = Ok a ∧ writing id j' k' f' [] w').
Proof.
  intros Hj Hk Hk' Hnum Hne Hw Ht Hd.
  assert (f ∈ files) as Hf by by eapply list_elem_of_lookup_2. assert (f' ∈ files) as Hf' by by eapply list_elem_of_lookup_2.
  pose proof (lookup_lt_Some _ _ _ Hk) as Lk. pose proof (lookup_lt_Some _ _ _ Hk') as Lk'. pose proof few_files as Hfew. unfold zlen in Hfew.
  unfold open_for_block. apply jends_self. rewrite Hnum, (rc_files id j k Hj), (rc_num id j k Hj), entry_of by (try done; lia).
  rewrite Hk'. cbn [fmap option_fmap option_map].
  assert (negb (as_usize (Z.of_nat k') =? as_usize (Z.of_nat k)) || bool_decide (tj_data_stream j = None) = true) as ->.
  { destruct Hne as [Hne|Hst]; [|by rewrite Hst, orb_true_r].
    assert ((as_usize (Z.of_nat k') =? as_usize (Z.of_nat k)) = false) as ->; [|done].
    unfold as_usize. rewrite !wrap_u_small by lia. lia. }
  eapply jends_io_bind; [by eapply run_modify_time|]. intros [] w1 [T1 F1].
  assert (shaped (fw_tree w1)) as H1 by (rewrite T1; by apply shaped_place). rewrite <- T1 in Hd. clear T1.
  (* the file before is synced *)
  eapply (jends_try _ _ _ _ _ (λ _ j' w', j' = j ∧ w' = w1)).
  { destruct (tj_data_stream j) as [[h|c]|]; [|by apply jends_ret; exists tt..]. apply jends_io.
    apply (ends_ensure _ _ _ (λ w', j = j ∧ w' = w1)). by eapply ends_ask. }
  intros [] j1 w1' [-> ->]. apply jends_modify_bind. set (j1 := with_file_num _ j).
  assert (receives id j1 k') as Hj1 by (destruct Hj; by constructor).
  rewrite (bool_decide_eq_false_2 (tj_type j = Printer)) by by rewrite (rc_type id j k Hj).
  (* the folder is made *)
  eapply (jends_try _ _ _ _ _ (λ ps j' w', ps = (file_path f' +:+ ".download", Some (file_path f' +:+ ".digest"))%string ∧ j' = j1 ∧
    fw_faults w' = [] ∧ shaped (fw_tree w') ∧ delivered (fw_tree w') k' ∧ node (fw_tree w') (folder f') = Some NDir)).
  { eapply jends_run_try; [by apply run_join|]. eapply jends_io_bind; [by apply run_parent|].
    intros [] w2 (t' & [T2 F2] & H2 & Hn2 & Hq2). subst t'. apply jends_ret. eexists. split; [reflexivity|]. rewrite file_path_string by done.
    split_and!; [done|done|done|done| |done]. eapply delivered_same; [|exact Hd]. exact Hq2. }
  intros ps j2 w2 (-> & -> & F2 & H2 & Hd2 & Hn2). cbn [fst snd].
  (* an old digest goes, the new file is there *)
  eapply jends_try; [by apply run_removed_digest|]. intros [] j2 w3 (-> & T3 & F3).
  pose proof (helper_position f' ".digest" Hf' (or_intror eq_refl)) as Hqd.
  assert (shaped (fw_tree w3)) as H3 by (rewrite T3; by apply shaped_delete).
  assert (delivered (fw_tree w3) k') as Hd3 by (rewrite T3; by apply delivered_delete; [|right|]).
  assert (node (fw_tree w3) (folder f') = Some NDir) as Hn3.
  { rewrite T3, node_delete_ne; [done|]. by apply folder_helper; [| |right]. }
  eapply jends_io_try.
  { eapply ends_bind; [by apply run_create|]. intros r w4 (h & -> & H4). apply ends_ret. exists h. split; [done|exact H4]. }
  intros h w4 ((T4 & F4) & Hh). apply jends_modify_bind. set (j3 := with_data_stream _ j1).
  assert (shaped (fw_tree w4)) as H4 by (rewrite T4; by apply shaped_helper; [| |left|]).
  assert (node (fw_tree w4) (folder f') = Some NDir) as Hn4.
  { rewrite T4, node_insert_ne; [done|]. by apply folder_helper; [| |left]. }
  eapply jends_io_bind; [by apply run_digest|]. intros r w5 [(c & m & T5 & F5) Hs5]. apply jends_ret. exists tt. split; [done|].
  constructor; [destruct Hj1; by constructor|done|done|rewrite T5; by apply shaped_helper; [| |right|]| |].
  - rewrite T5, T4. apply delivered_helper; [done|by right|]. by apply delivered_helper; [|left|].
  - exists h, (fw_now w3). split; [done|]. rewrite Hs5. split; [done|]. rewrite T5, lookup_insert_ne.
    + by rewrite T4, lookup_insert_eq.
    + intros E. symmetry in E. by apply (download_digest f' f') in E.
Qed.

Definition unpacked (block : FileTransferBlock) : bytes :=
  if bl_compressed block then decompress (bl_data block) else bl_data block.
(** Once the right file is open. *)
Lemma write_opened id j k f buf w block :
  (∃ k0, receives id j k0) → bl_id block = id →
  jends (open_for_block base block) j w (λ r j' w', ∃ a, r = Ok a ∧ writing id j' k f buf w') → f ∈ files →
  jends (write block) j w (λ r j' w', ∃ a, r = Ok a ∧ writing id j' k f (buf ++ unpacked block) w').
Proof.
  intros [k0 Hk0] Hid Ho Hf.
  unfold write. apply jends_self. rewrite Hid, (rc_id id j k0 Hk0), Z.eqb_refl, (rc_source id j k0 Hk0). cbn [negb].
  eapply jends_try; [exact Ho|]. intros [] j1 w1 H1. destruct (wr_stream _ _ _ _ _ _ H1) as (h & m & Hs & Hh & Ht).
  pose proof (helper_position f ".download" Hf (or_introl eq_refl)) as Hq. fold (unpacked block).
  pose (P := λ w', now_is w' (<[helper f ".download" := NFile (buf ++ unpacked block) (fw_now w1)]> (fw_tree w1)) ∧
    fw_handles w' !! h = Some (mkHandle (Some (helper f ".download")) (length (buf ++ unpacked block)))).
  eapply (jends_try _ _ _ _ _ (λ _ j' w', j' = j1 ∧ P w')).
  { unfold stream_write. apply jends_self. rewrite Hs. apply jends_io. apply (ends_ensure _ _ _ (λ w', j1 = j1 ∧ P w')).
    eapply ends_mono; [|eapply run_write_file; [apply H1|by apply position_nonempty|exact Hh|exact Ht]]. intros r w' (-> & H2). done. }
  intros [] j2 w2 (-> & (T2 & F2) & Hh2). apply jends_modify_bind. apply jends_ret. exists tt. split; [done|].
  destruct H1 as [Hj1 Hk1 F1 S1 D1 _]. constructor; [destruct Hj1; by constructor|done|done| | |].
  - rewrite T2. apply shaped_file; [done|done|]. eapply file_in_dir; [apply S1|exact Ht|by apply position_nonempty].
  - rewrite T2. by apply delivered_helper; [|left|].
  - exists h, (fw_now w1). split; [done|]. split; [done|]. by rewrite T2, lookup_insert_eq.
Qed.
(** What is before the first block of the [k]-th file. *)
Definition awaiting (id : Z) (j : TransferJob) (k : nat) (w : FileWorld) : Prop :=
  match k with
  | O => receives id j 0 ∧ tj_data_stream j = None ∧ fw_faults w = [] ∧ shaped (fw_tree w)
  | S k => ∃ f, writing id j k f (sf_content f) w
  end.
Lemma write_first id j k f w block :
  awaiting id j k w → files !! k = Some f → bl_id block = id → bl_file_num block = Z.of_nat k →
  jends (write block) j w (λ r j' w', ∃ a, r = Ok a ∧ writing id j' k f (unpacked block) w').
Proof.
  intros Ha Hk Hid Hn. assert (f ∈ files) as Hf by by eapply list_elem_of_lookup_2.
  eapply (write_opened id j k f [] w block); [|done| |done].
  - destruct k; [exists 0%nat; apply Ha|]. destruct Ha as [f0 Ha]. exists k. apply Ha.
  - destruct k as [|k].
    + destruct Ha as (Hj & Hs & Hw & Ht). eapply open_next; [exact Hj|exact Hk|exact Hk|done|by right|done|done|]. intros i g Hi. lia.
    + destruct Ha as [f0 Ha]. destruct (wr_stream _ _ _ _ _ _ Ha) as (h & m & Hs & Hh & Ht).
      eapply open_next; [apply Ha|apply Ha|exact Hk|done|left; lia|apply Ha|apply Ha|].
      eapply delivered_next; [apply Ha|apply Ha|exact Ht].
Qed.
Lemma write_more id j k f buf w block :
  writing id j k f buf w → bl_id block = id → bl_file_num block = Z.of_nat k →
  jends (write block) j w (λ r j' w', ∃ a, r = Ok a ∧ writing id j' k f (buf ++ unpacked block) w').
Proof.
  intros Hw Hid Hn. pose proof (wr_job _ _ _ _ _ _ Hw) as Hj. pose proof (wr_file _ _ _ _ _ _ Hw) as Hk.
  eapply write_opened; [by exists k|done| |by eapply list_elem_of_lookup_2].
  unfold open_for_block. apply jends_self. pose proof (lookup_lt_Some _ _ _ Hk) as Lk.
  rewrite Hn, (rc_files id j k Hj), entry_of, Hk by (try done; lia). cbn [fmap option_fmap option_map].
  destruct (wr_stream _ _ _ _ _ _ Hw) as (h & m & Hs & _). rewrite (rc_num id j k Hj), Z.eqb_refl, Hs, bool_decide_eq_false_2 by done.
  apply jends_ret. by exists tt.
Qed.

(** One message after the other: at the end the last file is put in its place. *)
Definition receive (m : FileMessage) : Job (result Failure unit) :=
  match m with
  | RespBlock b => write b
  | RespDone _ => j ← self; io (modify_time j);; mret (Ok tt)
  | _ => mret (Ok tt)
  end.
Fixpoint receive_all (l : list FileMessage) : Job (result Failure unit) :=
  match l with [] => mret (Ok tt) | m :: l => do! receive m; receive_all l end.
Lemma receive_app l1 l2 j w Q Q' :
  jends (receive_all l1) j w (λ r j' w', ∃ a, r = Ok a ∧ Q' j' w') → (∀ j' w', Q' j' w' → jends (receive_all l2) j' w' Q) →
  jends (receive_all (l1 ++ l2)) j w Q.
Proof.
  revert j w. induction l1 as [|m l1 IH]; intros j w; cbn [receive_all app].
  - intros (r & w' & [= <- <-] & _ & _ & HQ) Hl. by apply Hl.
  - intros (r & w' & E & HQ) Hl. unfold job_try, mbind, Job_bind, job_bind in E. rewrite run_bind in E.
    destruct (run fs_handler (receive m j) w) as [[[j1 r1]|s|] w1] eqn:E1; [|done..].
    destruct r1 as [[]|e]; [|cbn in E; injection E as <- <-; by destruct HQ as (? & ? & _)].
    eapply ends_run; [exact E1|]. apply IH; [by exists r, w'|done].
Qed.

(** ** What a sender sends *)

Context `{!ZstdLaws}.
Hypothesis zstd_compresses : ∀ data, is_Some (zstd_compress data).
Variables (source : string) (id : Z).
Lemma receive_block j w b l Q Q' :
  jends (write b) j w (λ r j' w', ∃ a, r = Ok a ∧ Q' j' w') → (∀ j' w', Q' j' w' → jends (receive_all l) j' w' Q) →
  jends (receive_all (RespBlock b :: l)) j w Q.
Proof. intros Hb Hl. eapply (jends_try _ _ _ _ _ (λ _, Q')); [exact Hb|]. intros _ j' w'. apply Hl. Qed.
Lemma unpacked_block k c chunk : unpacked (block_of id k c chunk) = chunk.
Proof. by apply unpack. Qed.
Lemma receive_rest k f c cs : ∀ buf j w,
  writing id j k f buf w →
  jends (receive_all (RespBlock <$> (block_of id k c <$> cs) ++ [end_block id k])) j w
    (λ r j' w', ∃ a, r = Ok a ∧ writing id j' k f (buf ++ concat cs) w').
Proof.
  induction cs as [|x cs IH]; intros buf j w Hw.
  - eapply receive_block; [by apply (write_more id j k f buf)|]. intros j' w' Hw'. apply jends_ret. by exists tt.
  - cbn [fmap list_fmap app concat]. eapply receive_block; [by apply (write_more id j k f buf)|]. intros j' w' Hw'.
    rewrite unpacked_block in Hw'. rewrite app_assoc. by apply IH.
Qed.
Lemma receive_file j k f w :
  awaiting id j k w → files !! k = Some f →
  jends (receive_all (RespBlock <$> file_blocks source files id k f (sf_content f))) j w (λ r j' w', ∃ a, r = Ok a ∧ awaiting id j' (S k) w').
Proof.
  intros Ha Hk. unfold file_blocks. pose proof (chunks_concat (sf_content f)) as Ec. destruct (chunks (sf_content f)) as [|x cs].
  - eapply receive_block; [by apply write_first|]. intros j' w' Hw'. apply jends_ret. exists tt. split; [done|]. exists f. by rewrite <- Ec.
  - cbn [fmap list_fmap app]. eapply receive_block; [by apply write_first|]. intros j' w' Hw'. rewrite unpacked_block in Hw'.
    eapply jends_mono; [|by apply receive_rest]. intros r j2 w2 (a & -> & H2). exists a. split; [done|]. exists f. by rewrite <- Ec.
Qed.
Lemma receive_files fs : ∀ k j w,
  drop k files = fs → (k <= length files)%nat → awaiting id j k w →
  jends (receive_all (RespBlock <$> messages_from source files id k fs)) j w (λ r j' w', ∃ a, r = Ok a ∧ awaiting id j' (length files) w').
Proof.
  induction fs as [|f fs IH]; intros k j w Hd Hk Ha.
  - assert (k = length files) as -> by (apply (f_equal length) in Hd; rewrite length_drop in Hd; cbn in Hd; lia).
    apply jends_ret. by exists tt.
  - assert (files !! k = Some f) as Hf by (rewrite <- (Nat.add_0_r k), <- lookup_drop, Hd; done).
    cbn [messages_from]. rewrite fmap_app. eapply receive_app; [by apply receive_file|]. intros j' w' Ha'.
    apply (IH (S k)); [|apply lookup_lt_Some in Hf; lia|done]. by rewrite <- Nat.add_1_r, <- drop_drop, Hd.
Qed.
(** The end: every file is in its place. *)
Lemma receive_done j w n :
  awaiting id j (length files) w →
  jends (receive (RespDone (mkFileTransferDone id n))) j w (λ r _ w', ∃ a, r = Ok a ∧ delivered (fw_tree w') (length files)).
Proof.
  intros Ha. unfold receive. apply jends_self. destruct (length files) as [|k] eqn:El.
  - destruct Ha as (Hj & _). eapply (jends_io_bind _ _ _ _ _ (λ _ _, True)).
    2: { intros r w' _. apply jends_ret. exists tt. split; [done|]. intros i f Hi. lia. }
    unfold modify_time, current_path. rewrite (rc_type _ _ _ Hj), (rc_source _ _ _ Hj), (rc_files _ _ _ Hj), (rc_num _ _ _ Hj).
    rewrite bool_decide_eq_false_2, entry_of, lookup_ge_None_2 by (try done; lia). by apply ends_ret.
  - destruct Ha as [f Ha]. destruct (wr_stream _ _ _ _ _ _ Ha) as (h & m & _ & _ & Ht).
    eapply jends_io_bind; [eapply run_modify_time; apply Ha|]. intros r w' [T _]. apply jends_ret. exists tt. split; [done|].
    rewrite T. eapply delivered_next; [apply Ha|apply Ha|exact Ht].
Qed.
Lemma receive_everything j w :
  receives id j 0 → tj_data_stream j = None → fw_faults w = [] → shaped (fw_tree w) →
  jends (receive_all ((RespBlock <$> messages_from source files id 0 files) ++ [RespDone (mkFileTransferDone id (zlen files))])) j w
    (λ r _ w', ∃ a, r = Ok a ∧ delivered (fw_tree w') (length files)).
Proof.
  intros Hj Hs Hw Ht. eapply receive_app; [eapply (receive_files files 0); [done|lia|done]|]. intros j' w' Ha.
  eapply (jends_try _ _ _ _ _ (λ _ _ w2, delivered (fw_tree w2) (length files))); [by apply receive_done|]. intros [] j2 w2 H2.
  apply jends_ret. by exists tt.
Qed.
End writer.
End receiver.
