(* ===== verification/TransferSpec.v ===== *)
(** * Transfers from end to end

    Of [Transfer]: what a sender sends, given to a receiver on another machine,
    puts every file in its place; and what happens to transfers when something
    goes wrong on the way.  Both machines are worlds of [FileWorld]. *)
From Stdlib Require Import Ascii.
From S2P Require Import Prelude Text TextFacts HostText JsonTree UnixPath Programs FileIo Transfer FileWorld TransferNames TransferSend TransferReceive.
Local Open Scope Z_scope.

(** ** Delivery *)

Section delivery.
Context `{Zstd} `{!ZstdLaws} `{JsonLib} `{ErrorText}.
End delivery.

(** ** At a concrete input *)

Section example.
#[local] Existing Instance TestZstd.
#[local] Existing Instance TestJson.
#[local] Existing Instance TestErrors.
#[local] Existing Instance TestZstdLaws.

(** A file, and one in a folder that is not there yet; an old file and an old
    helper file at the receiver. *)
Definition two_files : list SrcFile := [mkSrcFile ["a"] [7; 7; 7] 9; mkSrcFile ["sub"; "b"] [] 8]%string.
Definition source_tree : Tree :=
  {[ ["src"] := NDir; ["src"; "a"] := NFile [7; 7; 7] 0; ["src"; "sub"] := NDir; ["src"; "sub"; "b"] := NFile [] 0 ]}%string.
Definition target_tree : Tree :=
  {[ ["dl"] := NDir; ["dl"; "a"] := NFile [1] 0; ["dl"; "a.download"] := NFile [2] 0 ]}%string.
Definition two_sender : TransferJob :=
  with_files (src_entry <$> two_files) (new_write 1 Generic "/r" (FilePath "/src") 0 false true false).
Definition two_receiver : TransferJob :=
  with_files (src_entry <$> two_files) (new_write 1 Generic "/r" (FilePath "/dl") 0 false false false).

Lemma two_names f : f ∈ two_files → sf_names f = ["a"%string] ∨ sf_names f = ["sub"; "b"]%string.
Proof. intros [->|[->|[]%not_elem_of_nil]%elem_of_cons]%elem_of_cons; auto. Qed.
Lemma no_helper_short s : (String.length s < 7)%nat → ¬ helper_name s.
Proof. intros Hs (x & t & Ht & ->). rewrite length_string_app in Hs. destruct Ht as [-> | ->]; cbn in Hs; lia. Qed.
Lemma good_short s : (String.length s < 7)%nat → plain_name s → is_utf8 s → has_char NUL s = false → good_part s.
Proof. intros Hs Hp Hu Hn. split_and!; [done|done|done|by apply no_helper_short]. Qed.
Lemma target_nodes (q : names) n : target_tree !! q = Some n → q = ["dl"%string] ∨ q = ["dl"; "a"]%string ∧ n = NFile [1] 0 ∨ q = ["dl"; "a.download"]%string ∧ n = NFile [2] 0.
Proof. unfold target_tree. rewrite !lookup_insert_Some, lookup_singleton_Some. naive_solver. Qed.
Lemma two_good : Forall good_file two_files.
Proof.
  repeat constructor; try (cbn; lia); try done; intros; cbn; try (apply no_helper_short; cbn; lia).
Qed.
Lemma two_apart : apart two_files.
Proof.
  intros i j f g Hi Hj [k Hk]. pose proof (lookup_lt_Some _ _ _ Hi) as Li. pose proof (lookup_lt_Some _ _ _ Hj) as Lj. cbn in Li, Lj.
  destruct i as [|[|i]], j as [|[|j]]; try lia; try done; cbn in Hi, Hj; injection Hi as <-; injection Hj as <-; done.
Qed.
Lemma target_shaped : shaped ["dl"%string] two_files target_tree.
Proof.
  constructor.
  - split; [done|]. intros p s n [E|[[E _]|[E _]]]%target_nodes.
    + change ["dl"%string] with ([] ++ ["dl"%string]) in E. by apply app_inj_tail in E as [-> ->].
    + change ["dl"; "a"]%string with (["dl"%string] ++ ["a"%string]) in E. by apply app_inj_tail in E as [-> ->].
    + change ["dl"; "a.download"]%string with (["dl"%string] ++ ["a.download"%string]) in E. by apply app_inj_tail in E as [-> ->].
  - done.
  - intros f u v Hf E Hv. destruct (two_names f Hf) as [Ef|Ef]; rewrite Ef in E.
    + destruct u as [|x u]; [done|]. injection E as <- E. by destruct u, v.
    + destruct u as [|x [|y u]]; [done|by injection E as <- E|]. injection E as <- <- E. by destruct u, v.
  - intros q Hq. destruct (node target_tree q) as [n|] eqn:E; [|done]. destruct q as [|s q].
    { exfalso. by apply (position_nonempty ["dl"%string] two_files two_good []). }
    apply target_nodes in E as [E|[[_ ->]|[_ ->]]]; [|done|done]. exfalso.
    by apply (position_not_base ["dl"%string] two_files two_good (s :: q)).
Qed.
Lemma two_source_ok : source_ok "/src" two_files (world source_tree).
Proof.
  split; [done|]. intros f [->|[->|[]%not_elem_of_nil]%elem_of_cons]%elem_of_cons.
  - exists ["src"; "a"]%string, 0. vm_compute. done.
  - exists ["src"; "sub"; "b"]%string, 0. vm_compute. done.
Qed.

(** ** When something goes wrong *)

(** The first block of a transfer completes the first file of the list,
    whichever file the block is of: here that file was skipped, being the same
    on both sides, and what an old transfer left beside it takes its place. *)
Theorem stale_download_replaces_file :
  let w := world {[ ["dl"] := NDir; ["dl"; "a"] := NFile [1; 2; 3] (9 * 10 ^ 9); ["dl"; "a.download"] := NFile [1] 0 ]}%string in
  let j := with_files [entry "a" 3 9; entry "b" 1 9] (new_write 1 Generic "/r" (FilePath "/dl") 0 false false true) in
  fw_tree (run fs_handler (write (mkFileTransferBlock 1 1 [5] false 0) j) w).2 !! ["dl"; "a"]%string = Some (NFile [1] (9 * 10 ^ 9)).
Proof. vm_compute. reflexivity. Qed.
(** A file that has the name of another one's helper file is lost. *)
Theorem helper_name_loses_file :
  let w := world {[ ["dl"] := NDir ]}%string in
  let j := with_files [entry "a.download" 1 9; entry "a" 1 9] (new_write 1 Generic "/r" (FilePath "/dl") 0 false false false) in
  let l := [RespBlock (mkFileTransferBlock 1 0 [3] false 0); RespBlock (mkFileTransferBlock 1 1 [5] false 0); RespDone (mkFileTransferDone 1 2)] in
  let t := fw_tree (run fs_handler (receive_all l j) w).2 in
  t !! ["dl"; "a.download"]%string = None ∧ t !! ["dl"; "a"]%string = Some (NFile [5] (9 * 10 ^ 9)).
Proof. vm_compute. done. Qed.
(** With confirmations, a file that cannot be opened ends the whole transfer:
    the other side is told of an error, under the number of the next file, and
    then that all is done. *)
Theorem unreadable_file_ends_transfer :
  let w := world {[ ["src"] := NDir; ["src"; "b"] := NFile [7] 0 ]}%string in
  let j := with_files [entry "a" 3 9; entry "b" 1 9] (new_write 1 Generic "/r" (FilePath "/src") 0 false true true) in
  let r := run fs_handler (handle_read_jobs 9 [j]) w in
  (∃ log, r.1 = Finished ([], Ok log)) ∧ fw_sent r.2 = [RespError (mkFileTransferError 1 "error" 1); RespDone (mkFileTransferDone 1 1)].
Proof. vm_compute. split; [by eexists|done]. Qed.
End example.

(** A block that the compressor fails on is sent, and taken, as no data. *)
Theorem failed_compression_empties_block `{Zstd} buf :
  buf ≠ [] → zstd_compress buf = None → (∀ d, zstd_decode_all [] = Some d → d = []) →
  pack true buf = ([], true) ∧ decompress (pack true buf).1 = [].
Proof.
  intros Hb Hc Hd. assert (pack true buf = ([], true)) as ->.
  { unfold pack, compress. rewrite Hc. cbn. by destruct buf. }
  split; [done|]. cbn. unfold decompress. destruct (zstd_decode_all []) as [d|] eqn:E; [|done]. cbn. by apply Hd.
Qed.

(** A confirmation for a file number past the end, which the peer may have
    asked the transfer to begin at, with an offset, is an index out of range
    that ends the task. *)
Theorem confirm_past_the_end_panics j p id k n w :
  tj_data_source j = FilePath p → tj_file_num j = k → zlen (tj_files j) <= k < 2 ^ 31 → 0 < n →
  run fs_handler (confirm (mkFileTransferSendConfirmRequest id k (Some (OffsetBlk n))) j) w = (Stopped Panicked, w).
Proof.
  intros Hp Hn Hl Hpos. unfold confirm, mbind, Job_bind, job_bind, self. cbn. rewrite Hn, Z.eqb_refl. cbn.
  destruct (0 <? n) eqn:E; [|lia]. unfold set_stream_offset, mbind, Job_bind, job_bind, self. cbn. rewrite Hp.
  assert (at_index (tj_files j) (as_usize k) = None) as Ei.
  { unfold at_index, as_usize, zlen in *. rewrite wrap_u_small by lia. destruct (k <? _) eqn:E2; [lia|done]. }
  cbn in Ei |- *. by rewrite Ei.
Qed.
Lemma confirm_past_the_end_panics_witness :
  run fs_handler (confirm (mkFileTransferSendConfirmRequest 1 2 (Some (OffsetBlk 1))) (with_file_num 2 two_sender)) (world source_tree) =
  (Stopped Panicked, world source_tree).
Proof. apply (confirm_past_the_end_panics _ "/src"%string); [reflexivity|reflexivity|split; [done|lia]|lia]. Defined.
