(* ===== verification/CoreState.v ===== *)
(** * The configuration of the RustDesk parts: data, files and secrets

    Of libs/core-common: the records of [config.rs] with their files, the key
    pair and the identity of the machine (also [get_uuid] of [lib.rs]), and the
    encryption of what is stored ([password_security.rs]).  A function runs on
    the state [Core]: the globals, the two files, and what the machine answers.
    A lock is held for one function at a time here.  [confy] is a class that
    reads and writes trees of values; the derived readers and writers of the
    records are modelled. *)
From Stdlib Require Import Ascii.
From S2P Require Import Prelude Text TextFacts HostText JsonTree.
Local Open Scope Z_scope.

(** ** What is a parameter *)

Class Confy : Type := { confy_read : string → option JVal; confy_write : JVal → option string }.
(** What TOML can hold: no nulls, 64-bit integers, distinct keys, values before tables. *)
Definition is_table (v : JVal) : bool := match v with VObj _ => true | _ => false end.
Fixpoint tables_last (l : list (string * JVal)) : bool :=
  match l with [] => true | e :: r => if is_table e.2 then forallb (λ e, is_table e.2) r else tables_last r end.
Fixpoint toml_ok (v : JVal) : bool :=
  match v with
  | VNull => false
  | VBool _ | VReal | VText _ => true
  | VNum n => (- 2 ^ 63 <=? n) && (n <? 2 ^ 63)
  | VList l => forallb toml_ok l
  | VObj l => bool_decide (NoDup l.*1) && tables_last l && forallb (λ e, toml_ok e.2) l
  end.
Class ConfyLaws `{Confy} : Prop := {
  confy_roundtrip v s : confy_write v = Some s → confy_read s = Some v;
  confy_writes l : toml_ok (VObj l) = true → is_Some (confy_write (VObj l));
}.
(** sodiumoxide: [secretbox] with a nonce of zeros, [base64] in its original
    variant, [sign::gen_keypair] (public and secret key of the draw). *)
Class Sodium : Type := {
  box_seal : bytes → bytes → bytes;
  box_open : bytes → bytes → option bytes;
  base64_encode : bytes → string;
  base64_decode : bytes → option bytes;
  sign_keypair : nat → bytes * bytes;
}.
Definition MACBYTES : Z := 16.
Class SodiumLaws `{Sodium} : Prop := {
  seal_open d k : box_open (box_seal d k) k = Some d;
  seal_length d k : zlen (box_seal d k) = zlen d + MACBYTES;
  base64_back b : base64_decode (str_bytes (base64_encode b)) = Some b;
  base64_nonempty b : base64_encode b = ""%string → b = [];
}.
(** [rand]: the [usize] of a draw; [sha2]: 32 bytes. *)
Class Rng : Type := { rng : nat → Z; rng_nonneg n : 0 <= rng n }.
Class Sha2 : Type := sha256 : bytes → bytes.
Class Sha2Law `{Sha2} : Prop := sha256_length b : length (sha256 b) = 32%nat.

(** ** Data *)

Abbreviation KeyPair := (bytes * bytes)%type.
Record Socks5Server : Type := mkSocks5Server { s5_proxy : string; s5_username : string; s5_password : string }.
#[export] Instance Socks5Server_eq_dec : EqDecision Socks5Server.
Proof. solve_decision. Defined.
Record TrustedDevice : Type := mkTrustedDevice {
  td_hwid : bytes;
  td_time : Z;
  td_id : string;
  td_name : string;
  td_platform : string;
}.

Record Config : Type := mkConfig {
  cf_id : string;
  cf_enc_id : string;
  cf_password : string;
  cf_salt : string;
  cf_key_pair : KeyPair;  (* sk, pk *)
  cf_key_confirmed : bool;
  cf_keys_confirmed : gmap string bool;
}.

Definition default_Config : Config := mkConfig "" "" "" "" ([], []) false ∅.
Definition set_id (v : string) (c : Config) : Config :=
  {| cf_id := v; cf_enc_id := cf_enc_id c; cf_password := cf_password c; cf_salt := cf_salt c;
     cf_key_pair := cf_key_pair c; cf_key_confirmed := cf_key_confirmed c;
     cf_keys_confirmed := cf_keys_confirmed c |}.
Definition set_enc_id (v : string) (c : Config) : Config :=
  {| cf_id := cf_id c; cf_enc_id := v; cf_password := cf_password c; cf_salt := cf_salt c;
     cf_key_pair := cf_key_pair c; cf_key_confirmed := cf_key_confirmed c;
     cf_keys_confirmed := cf_keys_confirmed c |}.
Definition set_password (v : string) (c : Config) : Config :=
  {| cf_id := cf_id c; cf_enc_id := cf_enc_id c; cf_password := v; cf_salt := cf_salt c;
     cf_key_pair := cf_key_pair c; cf_key_confirmed := cf_key_confirmed c;
     cf_keys_confirmed := cf_keys_confirmed c |}.
Definition set_salt (v : string) (c : Config) : Config :=
  {| cf_id := cf_id c; cf_enc_id := cf_enc_id c; cf_password := cf_password c; cf_salt := v;
     cf_key_pair := cf_key_pair c; cf_key_confirmed := cf_key_confirmed c;
     cf_keys_confirmed := cf_keys_confirmed c |}.
Definition set_key_pair (v : KeyPair) (c : Config) : Config :=
  {| cf_id := cf_id c; cf_enc_id := cf_enc_id c; cf_password := cf_password c; cf_salt := cf_salt c;
     cf_key_pair := v; cf_key_confirmed := cf_key_confirmed c; cf_keys_confirmed := cf_keys_confirmed c |}.
Definition set_key_confirmed (v : bool) (c : Config) : Config :=
  {| cf_id := cf_id c; cf_enc_id := cf_enc_id c; cf_password := cf_password c; cf_salt := cf_salt c;
     cf_key_pair := cf_key_pair c; cf_key_confirmed := v; cf_keys_confirmed := cf_keys_confirmed c |}.
Definition set_keys_confirmed (v : gmap string bool) (c : Config) : Config :=
  {| cf_id := cf_id c; cf_enc_id := cf_enc_id c; cf_password := cf_password c; cf_salt := cf_salt c;
     cf_key_pair := cf_key_pair c; cf_key_confirmed := cf_key_confirmed c; cf_keys_confirmed := v |}.

Record Config2 : Type := mkConfig2 {
  c2_rendezvous_server : string;
  c2_nat_type : Z;
  c2_serial : Z;
  c2_unlock_pin : string;
  c2_trusted_devices : string;
  c2_socks : option Socks5Server;
  c2_options : gmap string string;
}.

Definition default_Config2 : Config2 := mkConfig2 "" 0 0 "" "" None ∅.
Definition set2_rendezvous_server (v : string) (c : Config2) : Config2 :=
  {| c2_rendezvous_server := v; c2_nat_type := c2_nat_type c; c2_serial := c2_serial c;
     c2_unlock_pin := c2_unlock_pin c; c2_trusted_devices := c2_trusted_devices c; c2_socks := c2_socks c;
     c2_options := c2_options c |}.
Definition set2_nat_type (v : Z) (c : Config2) : Config2 :=
  {| c2_rendezvous_server := c2_rendezvous_server c; c2_nat_type := v; c2_serial := c2_serial c;
     c2_unlock_pin := c2_unlock_pin c; c2_trusted_devices := c2_trusted_devices c; c2_socks := c2_socks c;
     c2_options := c2_options c |}.
Definition set2_serial (v : Z) (c : Config2) : Config2 :=
  {| c2_rendezvous_server := c2_rendezvous_server c; c2_nat_type := c2_nat_type c; c2_serial := v;
     c2_unlock_pin := c2_unlock_pin c; c2_trusted_devices := c2_trusted_devices c; c2_socks := c2_socks c;
     c2_options := c2_options c |}.
Definition set2_unlock_pin (v : string) (c : Config2) : Config2 :=
  {| c2_rendezvous_server := c2_rendezvous_server c; c2_nat_type := c2_nat_type c; c2_serial := c2_serial c;
     c2_unlock_pin := v; c2_trusted_devices := c2_trusted_devices c; c2_socks := c2_socks c;
     c2_options := c2_options c |}.
Definition set2_trusted_devices (v : string) (c : Config2) : Config2 :=
  {| c2_rendezvous_server := c2_rendezvous_server c; c2_nat_type := c2_nat_type c; c2_serial := c2_serial c;
     c2_unlock_pin := c2_unlock_pin c; c2_trusted_devices := v; c2_socks := c2_socks c;
     c2_options := c2_options c |}.
Definition set2_socks (v : option Socks5Server) (c : Config2) : Config2 :=
  {| c2_rendezvous_server := c2_rendezvous_server c; c2_nat_type := c2_nat_type c; c2_serial := c2_serial c;
     c2_unlock_pin := c2_unlock_pin c; c2_trusted_devices := c2_trusted_devices c; c2_socks := v;
     c2_options := c2_options c |}.
Definition set2_options (v : gmap string string) (c : Config2) : Config2 :=
  {| c2_rendezvous_server := c2_rendezvous_server c; c2_nat_type := c2_nat_type c; c2_serial := c2_serial c;
     c2_unlock_pin := c2_unlock_pin c; c2_trusted_devices := c2_trusted_devices c; c2_socks := c2_socks c;
     c2_options := v |}.

(** The globals, the two files, and what the program finds on its machine. *)
Record Core : Type := mkCore {
  co_config : Config;  (* CONFIG *)
  co_config2 : Config2;  (* CONFIG2 *)
  co_trusted : list TrustedDevice * bool;  (* TRUSTED_DEVICES *)
  co_key_pair : option KeyPair;  (* KEY_PAIR *)
  co_online : gmap string Z;  (* ONLINE *)
  co_temporary : string;  (* TEMPORARY_PASSWORD *)
  co_prod_server : string;  (* PROD_RENDEZVOUS_SERVER *)
  co_exe_server : string;  (* EXE_RENDEZVOUS_SERVER *)
  co_defaults : gmap string string;  (* DEFAULT_SETTINGS *)
  co_overwrite : gmap string string;  (* OVERWRITE_SETTINGS *)
  co_hard : gmap string string;  (* HARD_SETTINGS *)
  co_builtin : gmap string string;  (* BUILTIN_SETTINGS *)
  co_file : option string;  (* the file of Config *)
  co_file2 : option string;  (* the file of Config2 *)
  co_faults : list bool;  (* which of the next writes fail *)
  co_uid : option bytes;  (* CACHED_MACHINE_UID *)
  co_uids : list (option bytes);  (* the next results of machine_uid::get *)
  co_draws : nat;  (* random numbers drawn *)
  co_now : Z;  (* milliseconds since 1970 *)
  co_mac : option bytes;  (* the address of the first network card *)
  co_hostname : option string;
  co_spawned : list KeyPair;  (* threads that have not run yet *)
}.

Definition put_config (v : Config) (s : Core) : Core :=
  {| co_config := v; co_config2 := co_config2 s; co_trusted := co_trusted s; co_key_pair := co_key_pair s;
     co_online := co_online s; co_temporary := co_temporary s; co_prod_server := co_prod_server s;
     co_exe_server := co_exe_server s; co_defaults := co_defaults s; co_overwrite := co_overwrite s;
     co_hard := co_hard s; co_builtin := co_builtin s; co_file := co_file s; co_file2 := co_file2 s;
     co_faults := co_faults s; co_uid := co_uid s; co_uids := co_uids s; co_draws := co_draws s;
     co_now := co_now s; co_mac := co_mac s; co_hostname := co_hostname s; co_spawned := co_spawned s |}.
Definition put_config2 (v : Config2) (s : Core) : Core :=
  {| co_config := co_config s; co_config2 := v; co_trusted := co_trusted s; co_key_pair := co_key_pair s;
     co_online := co_online s; co_temporary := co_temporary s; co_prod_server := co_prod_server s;
     co_exe_server := co_exe_server s; co_defaults := co_defaults s; co_overwrite := co_overwrite s;
     co_hard := co_hard s; co_builtin := co_builtin s; co_file := co_file s; co_file2 := co_file2 s;
     co_faults := co_faults s; co_uid := co_uid s; co_uids := co_uids s; co_draws := co_draws s;
     co_now := co_now s; co_mac := co_mac s; co_hostname := co_hostname s; co_spawned := co_spawned s |}.
Definition put_trusted (v : list TrustedDevice * bool) (s : Core) : Core :=
  {| co_config := co_config s; co_config2 := co_config2 s; co_trusted := v; co_key_pair := co_key_pair s;
     co_online := co_online s; co_temporary := co_temporary s; co_prod_server := co_prod_server s;
     co_exe_server := co_exe_server s; co_defaults := co_defaults s; co_overwrite := co_overwrite s;
     co_hard := co_hard s; co_builtin := co_builtin s; co_file := co_file s; co_file2 := co_file2 s;
     co_faults := co_faults s; co_uid := co_uid s; co_uids := co_uids s; co_draws := co_draws s;
     co_now := co_now s; co_mac := co_mac s; co_hostname := co_hostname s; co_spawned := co_spawned s |}.
Definition put_key_pair (v : option KeyPair) (s : Core) : Core :=
  {| co_config := co_config s; co_config2 := co_config2 s; co_trusted := co_trusted s; co_key_pair := v;
     co_online := co_online s; co_temporary := co_temporary s; co_prod_server := co_prod_server s;
     co_exe_server := co_exe_server s; co_defaults := co_defaults s; co_overwrite := co_overwrite s;
     co_hard := co_hard s; co_builtin := co_builtin s; co_file := co_file s; co_file2 := co_file2 s;
     co_faults := co_faults s; co_uid := co_uid s; co_uids := co_uids s; co_draws := co_draws s;
     co_now := co_now s; co_mac := co_mac s; co_hostname := co_hostname s; co_spawned := co_spawned s |}.
Definition put_online (v : gmap string Z) (s : Core) : Core :=
  {| co_config := co_config s; co_config2 := co_config2 s; co_trusted := co_trusted s;
     co_key_pair := co_key_pair s; co_online := v; co_temporary := co_temporary s;
     co_prod_server := co_prod_server s; co_exe_server := co_exe_server s; co_defaults := co_defaults s;
     co_overwrite := co_overwrite s; co_hard := co_hard s; co_builtin := co_builtin s; co_file := co_file s;
     co_file2 := co_file2 s; co_faults := co_faults s; co_uid := co_uid s; co_uids := co_uids s;
     co_draws := co_draws s; co_now := co_now s; co_mac := co_mac s; co_hostname := co_hostname s;
     co_spawned := co_spawned s |}.
Definition put_temporary (v : string) (s : Core) : Core :=
  {| co_config := co_config s; co_config2 := co_config2 s; co_trusted := co_trusted s;
     co_key_pair := co_key_pair s; co_online := co_online s; co_temporary := v;
     co_prod_server := co_prod_server s; co_exe_server := co_exe_server s; co_defaults := co_defaults s;
     co_overwrite := co_overwrite s; co_hard := co_hard s; co_builtin := co_builtin s; co_file := co_file s;
     co_file2 := co_file2 s; co_faults := co_faults s; co_uid := co_uid s; co_uids := co_uids s;
     co_draws := co_draws s; co_now := co_now s; co_mac := co_mac s; co_hostname := co_hostname s;
     co_spawned := co_spawned s |}.
Definition put_file (v : option string) (s : Core) : Core :=
  {| co_config := co_config s; co_config2 := co_config2 s; co_trusted := co_trusted s;
     co_key_pair := co_key_pair s; co_online := co_online s; co_temporary := co_temporary s;
     co_prod_server := co_prod_server s; co_exe_server := co_exe_server s; co_defaults := co_defaults s;
     co_overwrite := co_overwrite s; co_hard := co_hard s; co_builtin := co_builtin s; co_file := v;
     co_file2 := co_file2 s; co_faults := co_faults s; co_uid := co_uid s; co_uids := co_uids s;
     co_draws := co_draws s; co_now := co_now s; co_mac := co_mac s; co_hostname := co_hostname s;
     co_spawned := co_spawned s |}.
Definition put_file2 (v : option string) (s : Core) : Core :=
  {| co_config := co_config s; co_config2 := co_config2 s; co_trusted := co_trusted s;
     co_key_pair := co_key_pair s; co_online := co_online s; co_temporary := co_temporary s;
     co_prod_server := co_prod_server s; co_exe_server := co_exe_server s; co_defaults := co_defaults s;
     co_overwrite := co_overwrite s; co_hard := co_hard s; co_builtin := co_builtin s; co_file := co_file s;
     co_file2 := v; co_faults := co_faults s; co_uid := co_uid s; co_uids := co_uids s;
     co_draws := co_draws s; co_now := co_now s; co_mac := co_mac s; co_hostname := co_hostname s;
     co_spawned := co_spawned s |}.
Definition put_faults (v : list bool) (s : Core) : Core :=
  {| co_config := co_config s; co_config2 := co_config2 s; co_trusted := co_trusted s;
     co_key_pair := co_key_pair s; co_online := co_online s; co_temporary := co_temporary s;
     co_prod_server := co_prod_server s; co_exe_server := co_exe_server s; co_defaults := co_defaults s;
     co_overwrite := co_overwrite s; co_hard := co_hard s; co_builtin := co_builtin s; co_file := co_file s;
     co_file2 := co_file2 s; co_faults := v; co_uid := co_uid s; co_uids := co_uids s;
     co_draws := co_draws s; co_now := co_now s; co_mac := co_mac s; co_hostname := co_hostname s;
     co_spawned := co_spawned s |}.
Definition put_uid (v : option bytes) (s : Core) : Core :=
  {| co_config := co_config s; co_config2 := co_config2 s; co_trusted := co_trusted s;
     co_key_pair := co_key_pair s; co_online := co_online s; co_temporary := co_temporary s;
     co_prod_server := co_prod_server s; co_exe_server := co_exe_server s; co_defaults := co_defaults s;
     co_overwrite := co_overwrite s; co_hard := co_hard s; co_builtin := co_builtin s; co_file := co_file s;
     co_file2 := co_file2 s; co_faults := co_faults s; co_uid := v; co_uids := co_uids s;
     co_draws := co_draws s; co_now := co_now s; co_mac := co_mac s; co_hostname := co_hostname s;
     co_spawned := co_spawned s |}.
Definition put_uids (v : list (option bytes)) (s : Core) : Core :=
  {| co_config := co_config s; co_config2 := co_config2 s; co_trusted := co_trusted s;
     co_key_pair := co_key_pair s; co_online := co_online s; co_temporary := co_temporary s;
     co_prod_server := co_prod_server s; co_exe_server := co_exe_server s; co_defaults := co_defaults s;
     co_overwrite := co_overwrite s; co_hard := co_hard s; co_builtin := co_builtin s; co_file := co_file s;
     co_file2 := co_file2 s; co_faults := co_faults s; co_uid := co_uid s; co_uids := v;
     co_draws := co_draws s; co_now := co_now s; co_mac := co_mac s; co_hostname := co_hostname s;
     co_spawned := co_spawned s |}.
Definition put_draws (v : nat) (s : Core) : Core :=
  {| co_config := co_config s; co_config2 := co_config2 s; co_trusted := co_trusted s;
     co_key_pair := co_key_pair s; co_online := co_online s; co_temporary := co_temporary s;
     co_prod_server := co_prod_server s; co_exe_server := co_exe_server s; co_defaults := co_defaults s;
     co_overwrite := co_overwrite s; co_hard := co_hard s; co_builtin := co_builtin s; co_file := co_file s;
     co_file2 := co_file2 s; co_faults := co_faults s; co_uid := co_uid s; co_uids := co_uids s;
     co_draws := v; co_now := co_now s; co_mac := co_mac s; co_hostname := co_hostname s;
     co_spawned := co_spawned s |}.
Definition put_spawned (v : list KeyPair) (s : Core) : Core :=
  {| co_config := co_config s; co_config2 := co_config2 s; co_trusted := co_trusted s;
     co_key_pair := co_key_pair s; co_online := co_online s; co_temporary := co_temporary s;
     co_prod_server := co_prod_server s; co_exe_server := co_exe_server s; co_defaults := co_defaults s;
     co_overwrite := co_overwrite s; co_hard := co_hard s; co_builtin := co_builtin s; co_file := co_file s;
     co_file2 := co_file2 s; co_faults := co_faults s; co_uid := co_uid s; co_uids := co_uids s;
     co_draws := co_draws s; co_now := co_now s; co_mac := co_mac s; co_hostname := co_hostname s;
     co_spawned := v |}.

#[export] Instance Config_eq_dec : EqDecision Config.
Proof. solve_decision. Defined.
#[export] Instance Config2_eq_dec : EqDecision Config2.
Proof. solve_decision. Defined.

Definition PASSWORD_ENC_VERSION : string := "00".
Definition ENCRYPT_MAX_LEN : Z := 128.
Definition DEFAULT_SALT_LEN : nat := 32.
Definition SERIAL : Z := 3.

(** ** Files *)

(** [deserialize_default]: a value of another type, or none, is the default. *)
Definition lenient {A} (d : JVal → option A) (a : A) (k : string) (v : JVal) : A := default a (jget k v ≫= d).
Definition dec_u8 : JVal → option Z := dec_int 0 255.
Definition dec_i32 : JVal → option Z := dec_int (- 2 ^ 31) (2 ^ 31 - 1).
Definition dec_bytes : JVal → option bytes := dec_list dec_u8.
Definition enc_bytes (b : bytes) : JVal := VList (VNum <$> b).
Definition dec_key_pair (v : JVal) : option KeyPair :=
  match v with VList [a; b] => sk ← dec_bytes a; pk ← dec_bytes b; Some (sk, pk) | _ => None end.
Definition enc_key_pair (p : KeyPair) : JVal := VList [enc_bytes p.1; enc_bytes p.2].
(** A [HashMap] with text keys. *)
Definition dec_map {A} (d : JVal → option A) (v : JVal) : option (gmap string A) :=
  match v with VObj l => list_to_map <$> mapM (λ e, a ← d e.2; Some (e.1, a)) l | _ => None end.
Definition enc_map {A} (e : A → JVal) (m : gmap string A) : JVal := VObj ((λ kv, (kv.1, e kv.2)) <$> map_to_list m).

Definition config_tree (c : Config) : JVal :=
  VObj ((if bool_decide (cf_id c = ""%string) then [] else [("id"%string, VText (cf_id c))]) ++
    [("enc_id", VText (cf_enc_id c)); ("password", VText (cf_password c)); ("salt", VText (cf_salt c));
     ("key_pair", enc_key_pair (cf_key_pair c)); ("key_confirmed", VBool (cf_key_confirmed c));
     ("keys_confirmed", enc_map VBool (cf_keys_confirmed c))]%string).
Definition config_of_tree (v : JVal) : option Config :=
  Some (mkConfig (lenient dec_str "" "id" v) (lenient dec_str "" "enc_id" v) (lenient dec_str "" "password" v)
    (lenient dec_str "" "salt" v) (lenient dec_key_pair ([], []) "key_pair" v) (lenient dec_bool false "key_confirmed" v)
    (lenient (dec_map dec_bool) ∅ "keys_confirmed" v)).
Definition socks_tree (s : Socks5Server) : JVal :=
  VObj [("proxy", VText (s5_proxy s)); ("username", VText (s5_username s)); ("password", VText (s5_password s))]%string.
Definition socks_of_tree (v : JVal) : option Socks5Server :=
  match v with
  | VObj _ => Some (mkSocks5Server (lenient dec_str "" "proxy" v) (lenient dec_str "" "username" v) (lenient dec_str "" "password" v))
  | _ => None
  end.
Definition config2_tree (c : Config2) : JVal :=
  VObj ([("rendezvous_server", VText (c2_rendezvous_server c)); ("nat_type", VNum (c2_nat_type c)); ("serial", VNum (c2_serial c));
         ("unlock_pin", VText (c2_unlock_pin c)); ("trusted_devices", VText (c2_trusted_devices c))]%string ++
        skip_none socks_tree "socks" (c2_socks c) ++ [("options"%string, enc_map VText (c2_options c))]).
Definition config2_of_tree (v : JVal) : option Config2 :=
  socks ← optional socks_of_tree "socks" v;
  Some (mkConfig2 (lenient dec_str "" "rendezvous_server" v) (lenient dec_i32 0 "nat_type" v) (lenient dec_i32 0 "serial" v)
    (lenient dec_str "" "unlock_pin" v) (lenient dec_str "" "trusted_devices" v) socks (lenient (dec_map dec_str) ∅ "options" v)).

Section core.
Context `{Confy} `{Sodium} `{Rng} `{Sha2} `{JsonLib}.

Definition load_path {A} (dec : JVal → option A) (dflt : A) (file : option string) : A :=
  default dflt (s ← file; v ← confy_read s; dec v).
(** A write that fails is only logged. *)
Definition store_path (tree : JVal) (put : option string → Core → Core) : M Core unit :=
  modify (λ s,
    let s' := put_faults (drop 1 (co_faults s)) s in
    match co_faults s with
    | true :: _ => s'
    | _ => match confy_write tree with Some t => put (Some t) s' | None => s' end
    end).
Definition load_config (s : Core) : Config := load_path config_of_tree default_Config (co_file s).
Definition load_config2 (s : Core) : Config2 := load_path config2_of_tree default_Config2 (co_file2 s).

(** ** Random texts *)

Definition NUM_CHARS : list ascii := String.list_ascii_of_string "0123456789".
Definition CHARS : list ascii := String.list_ascii_of_string "23456789abcdefghijkmnpqrstuvwxyz".
Definition draw : M Core Z := n ← gets co_draws; modify (put_draws (S n));; mret (rng n).
Fixpoint get_auto_password_with_chars (length_ : nat) (chars : list ascii) : M Core string :=
  match length_ with
  | O => mret ""%string
  | S n =>
    r ← draw;
    let c := default "0"%char (chars !! Z.to_nat (r mod Z.of_nat (length chars))) in
    rest ← get_auto_password_with_chars n chars;
    mret (String c rest)
  end.
Definition get_auto_password (n : nat) : M Core string := get_auto_password_with_chars n CHARS.
Definition get_auto_numeric_password (n : nat) : M Core string := get_auto_password_with_chars n NUM_CHARS.

(** ** The key pair and the identity of the machine *)

Definition get_key_pair : M Core KeyPair :=
  cached ← gets co_key_pair;
  match cached with
  | Some p => mret p
  | None =>
    config ← gets load_config;
    pair ← (if bool_decide ((cf_key_pair config).1 = []) then
              n ← gets co_draws;
              modify (put_draws (S n));;
              let '(pk, sk) := sign_keypair n in
              modify (λ s, put_spawned (co_spawned s ++ [(sk, pk)]) s);;
              mret (sk, pk)
            else mret (cf_key_pair config));
    modify (put_key_pair (Some pair));;
    mret pair
  end.
Definition get_cached_pk (s : Core) : option bytes := snd <$> co_key_pair s.
Definition get_existing_key_pair : M Core (option KeyPair) :=
  cached ← gets co_key_pair;
  match cached with
  | Some p => mret (Some p)
  | None =>
    config ← gets load_config;
    if bool_decide ((cf_key_pair config).1 = []) then mret None
    else modify (put_key_pair (Some (cf_key_pair config)));; mret (Some (cf_key_pair config))
  end.

(** [get_uuid] of lib.rs, on other systems than macOS and phones. *)
Definition get_uuid : M Core bytes :=
  cached ← gets co_uid;
  match cached with
  | Some uid => mret uid
  | None =>
    results ← gets co_uids;
    modify (put_uids (drop 1 results));;
    match head results with
    | Some (Some uid) => modify (put_uid (Some uid));; mret uid
    | _ => p ← get_key_pair; mret p.2
    end
  end.

(** ** Secrets *)

Definition KEYBYTES : nat := 32.
Definition resize (v : bytes) (n : nat) : bytes := take n (v ++ replicate (n - length v) 0).
Definition symmetric_crypt (data : bytes) (encrypt : bool) : M Core (option bytes) :=
  uuid ← get_uuid;
  let key := resize uuid KEYBYTES in
  if encrypt then mret (Some (box_seal data key))
  else
    match box_open data key with
    | Some d => mret (Some d)
    | None =>
      existing ← get_existing_key_pair;
      match existing with
      | Some (_, pk) => mret (if bool_decide (pk = uuid) then None else box_open data (resize pk KEYBYTES))
      | None => mret None
      end
    end.

Definition VERSION_LEN : nat := 2.
Definition is_encrypted (v : bytes) : bool :=
  if (length v <=? VERSION_LEN)%nat || negb (bool_decide (take 2 v = str_bytes "00")) then false else
  match base64_decode (drop VERSION_LEN v) with Some decoded => MACBYTES <=? zlen decoded | None => false end.

Definition encrypt (v : bytes) : M Core (option string) :=
  if bool_decide (v = []) then mret None else
  r ← symmetric_crypt v true; mret (base64_encode <$> r).
Definition decrypt (v : bytes) : M Core (option bytes) :=
  if bool_decide (v = []) then mret None else
  match base64_decode v with Some b => symmetric_crypt b false | None => mret None end.

(** [chars().count()]: the bytes that begin a character. *)
Definition char_count (s : string) : Z := zlen (List.filter (λ b, negb ((128 <=? b) && (b <? 192))) (str_bytes s)).
Definition encrypt_str_or_original (s version : string) (max_len : Z) : M Core string :=
  if is_encrypted (str_bytes s) then mret s else
  if max_len <? char_count s then mret ""%string else
  if bool_decide (version = "00"%string) then
    r ← encrypt (str_bytes s);
    mret (match r with Some t => version +:+ t | None => s end)
  else mret s.
(** The text, whether it was decrypted, and whether to store it again. *)
Definition decrypt_str_or_original (s current_version : string) : M Core (string * bool * bool) :=
  let original := (s, false, negb (bool_decide (s = ""%string)) && negb (is_encrypted (str_bytes s))) in
  if (VERSION_LEN <? String.length s)%nat && starts_with "00" s then
    r ← decrypt (drop VERSION_LEN (str_bytes s));
    mret (match r with
          | Some v => (from_utf8_lossy v, true, negb (bool_decide ("00"%string = current_version)))
          | None => original
          end)
  else mret original.
Definition encrypt_vec_or_original (v : bytes) (version : string) (max_len : Z) : M Core bytes :=
  if is_encrypted v then mret v else
  if max_len <? zlen v then mret [] else
  if bool_decide (version = "00"%string) then
    r ← encrypt v;
    mret (match r with Some t => str_bytes version ++ str_bytes t | None => v end)
  else mret v.
Definition decrypt_vec_or_original (v : bytes) (current_version : string) : M Core (bytes * bool * bool) :=
  let original := (v, false, negb (bool_decide (v = [])) && negb (is_encrypted v)) in
  if (VERSION_LEN <? length v)%nat && bool_decide (from_utf8_lossy (take VERSION_LEN v) = "00"%string) then
    r ← decrypt (drop VERSION_LEN v);
    mret (match r with
          | Some d => (d, true, negb (bool_decide (from_utf8_lossy (take VERSION_LEN v) = current_version)))
          | None => original
          end)
  else mret original.
End core.


(** ** Libraries for the witnesses *)

#[local] Existing Instance TestJson.
Definition TestConfy : Confy := {| confy_read := json_parse; confy_write v := Some (json_text v) |}.
Lemma TestConfyLaws : @ConfyLaws TestConfy.
Proof.
  split; [|by eexists]. intros v s. cbn. intros [= <-]. apply (@json_roundtrip TestJson TestJsonLaws).
Qed.
(** A seal is the text after the first bytes of its key; a base 64 text here is
    the number of the bytes. *)
Definition tag (k : bytes) : bytes := resize k 16.
Definition TestSodium : Sodium :=
  {| box_seal d k := tag k ++ d;
     box_open d k := if bool_decide (take 16 d = tag k) then Some (drop 16 d) else None;
     base64_encode b := to_string (Zpos (encode b));
     base64_decode t := n ← digits (bytes_str t); decode (Z.to_pos n);
     sign_keypair n := (replicate 32 (Z.of_nat n), replicate 64 (Z.of_nat n)) |}.
Lemma tag_length k : length (tag k) = 16%nat.
Proof. unfold tag, resize. rewrite length_take, length_app, length_replicate. lia. Qed.
Lemma TestSodiumLaws : @SodiumLaws TestSodium.
Proof.
  split; cbn [box_seal box_open base64_encode base64_decode TestSodium].
  - intros d k. rewrite take_app_length', drop_app_length' by (symmetry; apply tag_length). by rewrite bool_decide_eq_true_2.
  - intros d k. unfold zlen, MACBYTES. rewrite length_app, tag_length. lia.
  - intros b. rewrite bytes_str_str_bytes. unfold to_string. change (Z.pos (encode b) <? 0) with false. cbv iota.
    rewrite digits_to_string_nonneg by lia. cbn [mbind option_bind].
    change (Z.to_pos (Z.abs (Z.pos (encode b)))) with (encode b). apply decode_encode.
  - intros b E. by apply to_string_nonempty in E.
Qed.
Definition TestRng : Rng := {| rng n := Z.of_nat n; rng_nonneg n := Nat2Z.is_nonneg n |}.
Definition TestSha2 : Sha2 := λ b, resize b 32.
Lemma TestSha2Law : @Sha2Law TestSha2.
Proof. intros b. unfold sha256, TestSha2, resize. rewrite length_take, length_app, length_replicate. lia. Qed.
(** A machine without files that is [u]. *)
Definition machine (u : bytes) : Core :=
  {| co_config := default_Config; co_config2 := default_Config2; co_trusted := ([], false); co_key_pair := None; co_online := ∅;
     co_temporary := ""; co_prod_server := ""; co_exe_server := ""; co_defaults := ∅; co_overwrite := ∅; co_hard := ∅;
     co_builtin := ∅; co_file := None; co_file2 := None; co_faults := []; co_uid := None; co_uids := [Some u]; co_draws := 0;
     co_now := 0; co_mac := None; co_hostname := None; co_spawned := [] |}.
