(* ===== verification/CoreConfig.v ===== *)
(** * The configuration of the RustDesk parts: operations

    [Config] and [Config2] of libs/core-common/src/config.rs with their
    accessors, the permanent and the temporary password
    ([password_security.rs]), options with their defaults and overrides, and
    the trusted devices.  Theorems are in [CoreConfigSpec]. *)
From Stdlib Require Import Ascii.
From S2P Require Import Prelude Text TextFacts HostText JsonTree CoreState.
Local Open Scope Z_scope.

(** ** Options *)

Definition get_or (a b c : gmap string string) (k : string) : option string :=
  match a !! k with Some v => Some v | None => match b !! k with Some v => Some v | None => c !! k end end.
Definition is_option_can_save (overwrite : gmap string string) (k : string) (defaults : gmap string string) (v : string) : bool :=
  negb (bool_decide (is_Some (overwrite !! k)) || bool_decide (defaults !! k = Some v)).
Definition option2bool (option value : string) : bool :=
  if starts_with "enable-" option then negb (bool_decide (value = "N"%string))
  else if starts_with "allow-" option || bool_decide (option ∈ ["stop-service"; "direct-server"; "force-always-relay"]%string)
  then bool_decide (value = "Y"%string)
  else negb (bool_decide (value = "N"%string)).
Definition setting_is (m : gmap string string) (k v : string) : bool := bool_decide (m !! k = Some v).

Definition is_incoming_only (s : Core) : bool := setting_is (co_hard s) "conn-type" "incoming".
Definition is_outgoing_only (s : Core) : bool := setting_is (co_hard s) "conn-type" "outgoing".
Definition is_some_hard_opton (name : string) (s : Core) : bool := setting_is (co_hard s) name "Y".
Definition is_disable_tcp_listen : Core → bool := is_some_hard_opton "disable-tcp-listen".
Definition is_disable_settings : Core → bool := is_some_hard_opton "disable-settings".
Definition is_disable_ab : Core → bool := is_some_hard_opton "disable-ab".
Definition is_disable_account : Core → bool := is_some_hard_opton "disable-account".
Definition is_disable_installation : Core → bool := is_some_hard_opton "disable-installation".
Definition no_register_device (s : Core) : bool := setting_is (co_builtin s) "register-device" "N".
Definition is_disable_change_permanent_password (s : Core) : bool :=
  setting_is (co_builtin s) "disable-change-permanent-password" "Y".
Definition is_disable_change_id (s : Core) : bool := setting_is (co_builtin s) "disable-change-id" "Y".
Definition is_disable_unlock_pin (s : Core) : bool := setting_is (co_builtin s) "disable-unlock-pin" "Y".

Definition get_options (s : Core) : gmap string string := co_overwrite s ∪ (c2_options (co_config2 s) ∪ co_defaults s).
Definition purify_options (s : Core) (v : gmap string string) : gmap string string :=
  filter (λ kv, is_option_can_save (co_overwrite s) kv.1 (co_defaults s) kv.2 = true) v.
Definition get_option (k : string) (s : Core) : string :=
  default ""%string (get_or (co_overwrite s) (c2_options (co_config2 s)) (co_defaults s) k).
Definition get_bool_option (k : string) (s : Core) : bool := option2bool k (get_option k s).
Definition use_ws : Core → bool := get_bool_option "allow-websocket".
Definition allow_insecure_tls_fallback : Core → bool := get_bool_option "allow-insecure-tls-fallback".

(** ** The stored form of the permanent password *)

Section core.
Context `{Confy} `{Sodium} `{Rng} `{Sha2} `{JsonLib}.

Definition compute_permanent_password_h1 (password salt : string) : bytes := sha256 (str_bytes password ++ str_bytes salt).
Definition encode_permanent_password_storage_from_h1 (h1 : bytes) : string := "01" +:+ base64_encode h1.
Definition decode_permanent_password_h1_from_storage (storage : string) : option bytes :=
  encoded ← strip_prefix "01" storage;
  v ← base64_decode (str_bytes encoded);
  if (length v =? 32)%nat then Some v else None.
Definition is_permanent_password_hashed_storage (v : string) : bool :=
  bool_decide (is_Some (decode_permanent_password_h1_from_storage v)).
Definition password_is_empty_or_not_hashed (storage : string) : bool :=
  bool_decide (storage = ""%string) || negb (is_permanent_password_hashed_storage storage).

Definition with_salt (config : Config) : M Core Config :=
  if bool_decide (cf_salt config = ""%string) then salt ← get_auto_password DEFAULT_SALT_LEN; mret (set_salt salt config)
  else mret config.
Definition hash_password (plain : string) (config : Config) : Config :=
  set_password (encode_permanent_password_storage_from_h1 (compute_permanent_password_h1 plain (cf_salt config))) config.
(** The configuration, and whether it changed. *)
Definition migrate_permanent_password_to_hashed_storage (config : Config) : M Core (Config * bool) :=
  if bool_decide (cf_password config = ""%string) || is_permanent_password_hashed_storage (cf_password config)
  then mret (config, false) else
  if starts_with PASSWORD_ENC_VERSION (cf_password config) then
    '(plain, decrypted, looks_like_plaintext) ← decrypt_str_or_original (cf_password config) PASSWORD_ENC_VERSION;
    if negb decrypted && negb looks_like_plaintext then mret (config, false) else
    config ← with_salt config;
    if is_permanent_password_hashed_storage plain then mret (set_password plain config, true)
    else mret (hash_password plain config, true)
  else
    config ← with_salt config;
    mret (hash_password (cf_password config) config, true).

(** ** Storing and loading *)

Definition store (c : Config) : M Core unit :=
  '(config, _) ← migrate_permanent_password_to_hashed_storage c;
  enc ← encrypt_str_or_original (cf_id config) PASSWORD_ENC_VERSION ENCRYPT_MAX_LEN;
  store_path (config_tree (set_id "" (set_enc_id enc config))) put_file.

Definition get_auto_id (s : Core) : option string :=
  bytes ← co_mac s;
  Some (to_string (Z.land (foldl (λ id x, wrap_u 32 (Z.lor (Z.shiftl id 8) x)) 0 (drop 2 bytes)) 0x1FFFFFFF)).
Definition space_to_dash (s : string) : string := map_chars (λ c, if bool_decide (c = " "%char) then "-"%char else c) s.
Definition gen_id (s : Core) : option string :=
  if match co_builtin s !! "allow-hostname-as-id"%string with Some v => option2bool "allow-hostname-as-id" v | None => false end
  then match co_hostname s with Some h => Some (space_to_dash h) | None => get_auto_id s end
  else get_auto_id s.

(** The identifier is encrypted in the file, or one is made; three attempts at
    that end alike. *)
Definition load_id (config : Config) : M Core (Config * bool) :=
  '(id, encrypted, store2) ← decrypt_str_or_original (cf_enc_id config) PASSWORD_ENC_VERSION;
  if encrypted : bool then mret (set_id id config, store2) else
  valid ← (if negb (bool_decide (cf_id config = ""%string)) && bool_decide (cf_enc_id config = ""%string)
           then r ← decrypt_str_or_original (cf_id config) PASSWORD_ENC_VERSION; mret (negb r.1.2)
           else mret false);
  if valid : bool then mret (config, true) else
  new ← gets gen_id;
  mret (match new with Some id => (set_id id config, true) | None => (config, false) end).
Definition load : M Core Config :=
  config ← gets load_config;
  '(config, store1) ← migrate_permanent_password_to_hashed_storage config;
  '(config, store2) ← load_id config;
  (if store1 || store2 then store config else mret tt);;
  mret config.

Definition with_password (p : string) (s : Socks5Server) : Socks5Server := mkSocks5Server (s5_proxy s) (s5_username s) p.
Definition store2 (c : Config2) : M Core unit :=
  socks ← (match c2_socks c with
           | Some socks => p ← encrypt_str_or_original (s5_password socks) PASSWORD_ENC_VERSION ENCRYPT_MAX_LEN;
                           mret (Some (with_password p socks))
           | None => mret None
           end);
  pin ← encrypt_str_or_original (c2_unlock_pin c) PASSWORD_ENC_VERSION ENCRYPT_MAX_LEN;
  store_path (config2_tree (set2_unlock_pin pin (set2_socks socks c))) put_file2.
Definition load2 : M Core Config2 :=
  config ← gets load_config2;
  '(config, store1) ← (match c2_socks config with
                       | Some socks =>
                         '(p, _, st) ← decrypt_str_or_original (s5_password socks) PASSWORD_ENC_VERSION;
                         mret (set2_socks (Some (with_password p socks)) config, st)
                       | None => mret (config, false)
                       end);
  '(pin, _, st) ← decrypt_str_or_original (c2_unlock_pin config) PASSWORD_ENC_VERSION;
  let config := set2_unlock_pin pin config in
  (if store1 || st then store2 config else mret tt);;
  mret config.

Definition is_empty (c : Config) : bool :=
  (bool_decide (cf_id c = ""%string) && bool_decide (cf_enc_id c = ""%string)) || bool_decide ((cf_key_pair c).1 = []).

(** A change of the global, and the file after it. *)
Definition commit (c : Config) : M Core unit := modify (put_config c);; store c.
Definition commit2 (c : Config2) : M Core unit := modify (put_config2 c);; store2 c.
(** The thread that keeps a new key pair. *)
Definition run_spawned : M Core unit :=
  l ← gets co_spawned;
  match l with
  | [] => mret tt
  | p :: l => modify (put_spawned l);; c ← gets co_config; commit (set_key_pair p c)
  end.

(** ** Identifiers, servers and flags *)

Definition set_id_ (id : string) : M Core unit :=
  c ← gets co_config; if bool_decide (id = cf_id c) then mret tt else commit (set_id id c).
Definition get_id : M Core string :=
  c ← gets co_config;
  if bool_decide (cf_id c = ""%string) then
    new ← gets gen_id;
    match new with Some id => set_id_ id;; mret id | None => mret ""%string end
  else mret (cf_id c).
Definition get_id_or (b : string) (s : Core) : string :=
  if bool_decide (cf_id (co_config s) = ""%string) then b else cf_id (co_config s).
(** [gen_range(1_000_000_000..2_000_000_000)] *)
Definition update_id : M Core unit :=
  get_id;; r ← draw; set_id_ (to_string (1000000000 + r mod 1000000000)).
Definition set_nat_type_ (nat_type : Z) : M Core unit :=
  c ← gets co_config2; if nat_type =? c2_nat_type c then mret tt else commit2 (set2_nat_type nat_type c).
Definition get_nat_type (s : Core) : Z := c2_nat_type (co_config2 s).
Definition set_serial (serial : Z) : M Core unit :=
  c ← gets co_config2; if serial =? c2_serial c then mret tt else commit2 (set2_serial serial c).
Definition get_serial (s : Core) : Z := Z.max (c2_serial (co_config2 s)) SERIAL.
Definition get_key_confirmed (s : Core) : bool := cf_key_confirmed (co_config s).
Definition set_key_confirmed_ (v : bool) : M Core unit :=
  c ← gets co_config;
  if Bool.eqb (cf_key_confirmed c) v then mret tt else
  let c := set_key_confirmed v c in
  commit (if v then c else set_keys_confirmed ∅ c).
Definition get_host_key_confirmed (host : string) (s : Core) : bool :=
  bool_decide (cf_keys_confirmed (co_config s) !! host = Some true).
Definition set_host_key_confirmed (host : string) (v : bool) : M Core unit :=
  confirmed ← gets (get_host_key_confirmed host);
  if Bool.eqb confirmed v then mret tt else
  c ← gets co_config; commit (set_keys_confirmed (<[host := v]> (cf_keys_confirmed c)) c).

Definition RENDEZVOUS_SERVERS : list string := ["rs-ny.rustdesk.com"]%string.
Definition RENDEZVOUS_PORT_ : Z := 21116.
Definition nonempty (s : string) : bool := negb (bool_decide (s = ""%string)).
Definition get_rendezvous_servers (s : Core) : list string :=
  if nonempty (co_exe_server s) then [co_exe_server s] else
  if nonempty (get_option "custom-rendezvous-server" s) then [get_option "custom-rendezvous-server" s] else
  if nonempty (co_prod_server s) then [co_prod_server s] else
  let ss := List.filter (has_char ".") (split_on "," (get_option "rendezvous-servers" s)) in
  if (SERIAL <? c2_serial (co_config2 s)) && negb (bool_decide (ss = [])) then ss else RENDEZVOUS_SERVERS.
Definition or_server (a b : string) : string := if nonempty a then a else b.
Definition get_rendezvous_server (s : Core) : string :=
  let server := or_server (co_exe_server s) (or_server (get_option "custom-rendezvous-server" s) (or_server (co_prod_server s)
    (or_server (c2_rendezvous_server (co_config2 s)) (default ""%string (head (get_rendezvous_servers s)))))) in
  if has_char ":" server then server else server +:+ ":" +:+ to_string RENDEZVOUS_PORT_.
(** The host of the least delay; of several the first in the order of the map. *)
Definition best_host (l : list (string * Z)) : string * Z :=
  foldl (λ best e, if (0 <? e.2) && (e.2 <? best.2) then e else best) (""%string, 2 ^ 63 - 1) l.
Definition reset_online : M Core unit := modify (put_online ∅).
Definition get_online_state (s : Core) : Z :=
  match (map_to_list (co_online s)).*2 with [] => 0 | x :: l => foldl Z.max x l end.
Definition update_latency (host : string) (latency : Z) : M Core unit :=
  modify (λ s, put_online (<[host := latency]> (co_online s)) s);;
  online ← gets co_online;
  let best := (best_host (map_to_list online)).1 in
  c ← gets co_config2;
  if nonempty best && negb (bool_decide (best = c2_rendezvous_server c)) then commit2 (set2_rendezvous_server best c) else mret tt.

Definition set_options_ (v : gmap string string) : M Core unit :=
  v ← gets (λ s, purify_options s v);
  c ← gets co_config2;
  if bool_decide (c2_options c = v) then mret tt else commit2 (set2_options v c).
Definition set_option (k v : string) : M Core unit :=
  ok ← gets (λ s, is_option_can_save (co_overwrite s) k (co_defaults s) v);
  c ← gets co_config2;
  if negb ok then
    if bool_decide (is_Some (c2_options c !! k)) then commit2 (set2_options (delete k (c2_options c)) c) else mret tt
  else
    let v2 := if bool_decide (v = ""%string) then None else Some v in
    if bool_decide (v2 = c2_options c !! k) then mret tt
    else commit2 (set2_options (match v2 with None => delete k (c2_options c) | Some v => <[k := v]> (c2_options c) end) c).

(** ** Proxies and the pin *)

Definition get_socks_from_custom_client_advanced_settings (settings : gmap string string) : option Socks5Server :=
  url ← settings !! "proxy-url"%string;
  Some (mkSocks5Server url (default ""%string (settings !! "proxy-username"%string)) (default ""%string (settings !! "proxy-password"%string))).
Definition get_socks (s : Core) : option Socks5Server :=
  match get_socks_from_custom_client_advanced_settings (co_overwrite s) with
  | Some v => Some v
  | None =>
    match c2_socks (co_config2 s) with
    | Some v => Some v
    | None => get_socks_from_custom_client_advanced_settings (co_defaults s)
    end
  end.
Definition set_socks (socks : option Socks5Server) : M Core unit :=
  overwrite ← gets co_overwrite;
  if bool_decide (is_Some (overwrite !! "proxy-url"%string)) then mret tt else
  c ← gets co_config2;
  if bool_decide (c2_socks c = socks) then mret tt else
  defaults ← gets co_defaults;
  let given := default (mkSocks5Server "" "" "") socks in
  if bool_decide (c2_socks c = None) && setting_is defaults "proxy-url" (s5_proxy given) &&
     setting_is defaults "proxy-username" (s5_username given) && setting_is defaults "proxy-password" (s5_password given)
  then mret tt
  else commit2 (set2_socks socks c).
Inductive NetworkType : Type := Direct | ProxySocks.
Definition get_network_type (s : Core) : NetworkType :=
  if bool_decide (is_Some (co_overwrite s !! "proxy-url"%string)) then ProxySocks
  else if bool_decide (is_Some (c2_socks (co_config2 s))) then ProxySocks
  else if bool_decide (is_Some (co_defaults s !! "proxy-url"%string)) then ProxySocks else Direct.
Definition is_proxy (s : Core) : bool := match get_network_type s with Direct => false | ProxySocks => true end.

Definition get_unlock_pin (s : Core) : string := if is_disable_unlock_pin s then ""%string else c2_unlock_pin (co_config2 s).
Definition set_unlock_pin (pin : string) : M Core unit :=
  disabled ← gets is_disable_unlock_pin;
  if disabled : bool then mret tt else
  c ← gets co_config2; if bool_decide (pin = c2_unlock_pin c) then mret tt else commit2 (set2_unlock_pin pin c).

(** ** Trusted devices *)

Definition outdate (now : Z) (d : TrustedDevice) : bool := as_i64 (td_time d + 90 * 24 * 60 * 60 * 1000) <? now.
Definition device_tree (d : TrustedDevice) : JVal :=
  VObj [("hwid", enc_bytes (td_hwid d)); ("time", VNum (td_time d)); ("id", VText (td_id d)); ("name", VText (td_name d));
        ("platform", VText (td_platform d))]%string.
Definition device_of_tree (v : JVal) : option TrustedDevice :=
  hwid ← required dec_bytes "hwid" v; time ← required dec_i64 "time" v; id ← required dec_str "id" v;
  name ← required dec_str "name" v; platform ← required dec_str "platform" v;
  Some (mkTrustedDevice hwid time id name platform).
Definition devices_text (l : list TrustedDevice) : string := json_text (VList (device_tree <$> l)).
Definition devices_of_text (t : string) : list TrustedDevice := default [] (json_parse t ≫= dec_list device_of_tree).
Definition fresh (now : Z) (l : list TrustedDevice) : list TrustedDevice := List.filter (λ d, negb (outdate now d)) l.

Definition MAX_DEVICES : Z := 1024 * 1024.
Definition set_trusted_devices (l : list TrustedDevice) : M Core unit :=
  now ← gets co_now;
  let l := fresh now l in
  let text := devices_text l in
  if MAX_DEVICES <? Z.of_nat (String.length text) then mret tt else
  enc ← encrypt_str_or_original text PASSWORD_ENC_VERSION MAX_DEVICES;
  c ← gets co_config2;
  commit2 (set2_trusted_devices enc c);;
  modify (put_trusted (l, true)).
Definition get_trusted_devices : M Core (list TrustedDevice) :=
  '(devices, synced) ← gets co_trusted;
  if synced : bool then mret devices else
  c ← gets co_config2;
  '(text, succ, st) ← decrypt_str_or_original (c2_trusted_devices c) PASSWORD_ENC_VERSION;
  if succ : bool then
    now ← gets co_now;
    let devices := devices_of_text text in
    let kept := fresh now devices in
    (if st || negb (length kept =? length devices)%nat then set_trusted_devices kept else mret tt);;
    modify (put_trusted (kept, true));;
    mret kept
  else mret [].
Definition get_trusted_devices_json : M Core string := l ← get_trusted_devices; mret (devices_text l).
Definition add_trusted_device (d : TrustedDevice) : M Core unit :=
  l ← get_trusted_devices;
  set_trusted_devices (List.filter (λ e, negb (bool_decide (td_hwid e = td_hwid d))) l ++ [d]).
Definition remove_trusted_devices (hwids : list bytes) : M Core unit :=
  l ← get_trusted_devices;
  set_trusted_devices (List.filter (λ e, negb (bool_decide (td_hwid e ∈ hwids))) l).
Definition clear_trusted_devices : M Core unit := set_trusted_devices [].

(** ** The permanent password *)

Definition hard_password (s : Core) : option string := co_hard s !! "password"%string.
Definition set_permanent_password (password : string) : M Core unit :=
  disabled ← gets is_disable_change_permanent_password;
  if disabled : bool then mret tt else
  hard ← gets hard_password;
  c ← gets co_config;
  if bool_decide (hard = Some password) && bool_decide (cf_password c = ""%string) then mret tt else
  c ← (if bool_decide (password = ""%string) then mret (set_password "" c, cf_password c)
       else c' ← with_salt c; mret (hash_password password c', cf_password c));
  (* a new salt stays in the configuration also when nothing else changes *)
  if bool_decide (cf_password c.1 = c.2) then modify (put_config c.1) else
  commit c.1;; clear_trusted_devices.
Definition get_local_permanent_password_storage_and_salt (s : Core) : string * string :=
  (cf_password (co_config s), cf_salt (co_config s)).
Definition set_permanent_password_storage_for_sync (storage salt : string) : M Core bool :=
  c ← gets co_config;
  if bool_decide (cf_password c = storage) && bool_decide (cf_salt c = salt) then mret false else
  commit (set_salt salt (set_password storage c));; clear_trusted_devices;; mret true.
Definition matches_permanent_password_plain (input : string) (s : Core) : bool :=
  if bool_decide (input = ""%string) then false else
  let storage := cf_password (co_config s) in
  let salt := cf_salt (co_config s) in
  if bool_decide (storage = ""%string) then bool_decide (hard_password s = Some input) else
  match decode_permanent_password_h1_from_storage storage with
  | Some stored_h1 =>
    if bool_decide (salt = ""%string) then false
    else bool_decide (compute_permanent_password_h1 input salt = stored_h1)
  | None => bool_decide (storage = input)
  end.
Definition has_permanent_password (s : Core) : bool :=
  nonempty (cf_password (co_config s)) || match hard_password s with Some v => nonempty v | None => false end.
Definition has_local_permanent_password (s : Core) : bool := nonempty (cf_password (co_config s)).
Definition set_salt_ (salt : string) : M Core unit :=
  c ← gets co_config;
  if bool_decide (salt = cf_salt c) then mret tt else
  if negb (password_is_empty_or_not_hashed (cf_password c)) && nonempty (cf_salt c) then mret tt
  else commit (set_salt salt c).
Definition get_salt : M Core string :=
  c ← gets co_config;
  if bool_decide (cf_salt c = ""%string) then salt ← get_auto_password DEFAULT_SALT_LEN; set_salt_ salt;; mret salt
  else mret (cf_salt c).

(** [Config::set] and [Config2::set] *)
Definition set_config (c : Config) : M Core bool :=
  old ← gets co_config; if bool_decide (old = c) then mret false else commit c;; mret true.
Definition set_config2 (c : Config2) : M Core bool :=
  old ← gets co_config2; if bool_decide (old = c) then mret false else commit2 c;; mret true.

(** ** Passwords for a session *)

Inductive VerificationMethod : Type := OnlyUseTemporaryPassword | OnlyUsePermanentPassword | UseBothPasswords.
#[local] Instance VerificationMethod_eq_dec : EqDecision VerificationMethod.
Proof. solve_decision. Defined.
Inductive ApproveMode : Type := Both | Password | Click.
#[local] Instance ApproveMode_eq_dec : EqDecision ApproveMode.
Proof. solve_decision. Defined.
Definition verification_method (s : Core) : VerificationMethod :=
  let method := get_option "verification-method" s in
  if bool_decide (method = "use-temporary-password"%string) then OnlyUseTemporaryPassword
  else if bool_decide (method = "use-permanent-password"%string) then OnlyUsePermanentPassword else UseBothPasswords.
Definition temporary_password_length (s : Core) : nat :=
  let length := get_option "temporary-password-length" s in
  if bool_decide (length = "8"%string) then 8%nat else if bool_decide (length = "10"%string) then 10%nat else 6%nat.
Definition get_auto_temporary : M Core string :=
  len ← gets temporary_password_length;
  numeric ← gets (get_bool_option "allow-numeric-one-time-password");
  if numeric : bool then get_auto_numeric_password len else get_auto_password len.
Definition update_temporary_password : M Core unit := p ← get_auto_temporary; modify (put_temporary p).
Definition temporary_password (s : Core) : string := co_temporary s.
Definition temporary_enabled (s : Core) : bool := negb (bool_decide (verification_method s = OnlyUsePermanentPassword)).
Definition permanent_enabled (s : Core) : bool := negb (bool_decide (verification_method s = OnlyUseTemporaryPassword)).
Definition has_valid_password (s : Core) : bool :=
  (temporary_enabled s && nonempty (temporary_password s)) || (permanent_enabled s && has_permanent_password s).
Definition approve_mode (s : Core) : ApproveMode :=
  let mode := get_option "approve-mode" s in
  if bool_decide (mode = "password"%string) then Password else if bool_decide (mode = "click"%string) then Click else Both.
Definition hide_cm (s : Core) : bool :=
  bool_decide (approve_mode s = Password) && bool_decide (verification_method s = OnlyUsePermanentPassword) &&
  get_bool_option "allow-hide-cm" s.

(** ** A start of the program *)

(** The globals of a process on the machine [b], which finds the files of [s];
    they are made when they are first used. *)
Definition new_process (b s : Core) : Core :=
  {| co_config := default_Config; co_config2 := default_Config2; co_trusted := ([], false); co_key_pair := None; co_online := ∅;
     co_temporary := ""; co_prod_server := ""; co_exe_server := co_exe_server b; co_defaults := co_defaults b;
     co_overwrite := co_overwrite b; co_hard := co_hard b; co_builtin := co_builtin b; co_file := co_file s; co_file2 := co_file2 s;
     co_faults := co_faults b; co_uid := None; co_uids := co_uids b; co_draws := co_draws b; co_now := co_now b; co_mac := co_mac b;
     co_hostname := co_hostname b; co_spawned := [] |}.
Definition start (b : Core) : M Core unit :=
  modify (new_process b);;
  c ← load; modify (put_config c);;
  c2 ← load2; modify (put_config2 c2);;
  update_temporary_password.
End core.
