(* ===== verification/CoreConfigSpec.v ===== *)
(** * What the configuration of the RustDesk parts keeps

    Of [CoreConfig]: secrets are read back on the machine that stored them, the
    permanent password survives everything but its change, options have the
    value set last, and how secrets are lost. *)
From Stdlib Require Import Ascii.
From S2P Require Import Prelude Text TextFacts HostText JsonTree CoreState CoreConfig.
Local Open Scope Z_scope.

(** ** The identity of the machine *)

(** The machine answers with [u], or has. *)
Definition knows (u : bytes) (s : Core) : Prop := co_uid s = Some u ∨ co_uid s = None ∧ head (co_uids s) = Some (Some u).

Lemma ret_bind {S A B} (a : A) (f : A → M S B) : mret a ≫= f = f a.
Proof. reflexivity. Qed.

Section core.
Context `{Confy} `{Sodium} `{Rng} `{Sha2} `{JsonLib}.

Definition seen (s : Core) : Core := (get_uuid s).2.
Lemma seen_spec u s :
  knows u s → get_uuid s = (u, seen s) ∧ seen s = put_uid (Some u) (put_uids (if co_uid s then co_uids s else drop 1 (co_uids s)) s).
Proof.
  intros [E|[E1 E2]]; unfold seen, get_uuid; run_monad.
  - rewrite E. split; [done|]. destruct s. cbn in *. by subst.
  - rewrite E1. unfold put_uids. cbn. rewrite E2. split; [done|]. destruct s. cbn in *. by subst.
Qed.
Lemma seen_knows u s : knows u s → knows u (seen s).
Proof. intros Hs. destruct (seen_spec u s Hs) as [_ ->]. by left. Qed.
Lemma sealed u s d : knows u s → symmetric_crypt d true s = (Some (box_seal d (resize u KEYBYTES)), seen s).
Proof. intros Hs. unfold symmetric_crypt. rewrite (bind_eq _ _ _ _ _ (proj1 (seen_spec u s Hs))). done. Qed.
Lemma opened `{!SodiumLaws} u s d : knows u s → symmetric_crypt (box_seal d (resize u KEYBYTES)) false s = (Some d, seen s).
Proof.
  intros Hs. unfold symmetric_crypt. rewrite (bind_eq _ _ _ _ _ (proj1 (seen_spec u s Hs))). cbv zeta.
  by rewrite seal_open.
Qed.

(** ** Secrets *)

Definition secret (u : bytes) (t : string) : string :=
  if bool_decide (t = ""%string) then ""%string
  else "00" +:+ base64_encode (box_seal (str_bytes t) (resize u KEYBYTES)).
Lemma str_bytes_nil t : str_bytes t = [] → t = ""%string.
Proof. intros E%(f_equal length). rewrite length_str_bytes in E. by destruct t. Qed.
Lemma encrypt_short u s t n :
  knows u s → is_encrypted (str_bytes t) = false → char_count t <= n →
  (encrypt_str_or_original t "00" n s).1 = secret u t ∧
  ((encrypt_str_or_original t "00" n s).2 = s ∨ (encrypt_str_or_original t "00" n s).2 = seen s).
Proof.
  intros Hs He Hn. unfold encrypt_str_or_original. rewrite He. destruct (n <? char_count t) eqn:E; [lia|].
  rewrite bool_decide_eq_true_2 by done. unfold secret. destruct (decide (t = ""%string)) as [->|Ht]; [by split; [|left]|].
  assert (str_bytes t ≠ []) as Hb by by intros ?%str_bytes_nil. rewrite (bool_decide_eq_false_2 _ Ht).
  assert (encrypt (str_bytes t) s = (Some (base64_encode (box_seal (str_bytes t) (resize u KEYBYTES))), seen s)) as Ee.
  { unfold encrypt. rewrite (bool_decide_eq_false_2 _ Hb), (bind_eq _ _ _ _ _ (sealed u s _ Hs)). done. }
  rewrite (bind_eq _ _ _ _ _ Ee). by split; [|right].
Qed.

Context `{!SodiumLaws}.
Lemma secret_length t u : t ≠ ""%string → (2 < String.length (secret u t))%nat.
Proof.
  intros Ht. unfold secret. rewrite bool_decide_eq_false_2 by done. rewrite length_string_app. cbn.
  destruct (base64_encode _) as [|c r] eqn:E; [|cbn; lia]. apply base64_nonempty in E.
  apply (f_equal zlen) in E. rewrite seal_length in E. unfold zlen, MACBYTES in E. cbn in E. lia.
Qed.
Lemma drop_version t : drop VERSION_LEN (str_bytes ("00" +:+ t)) = str_bytes t.
Proof. by rewrite str_bytes_app. Qed.
Lemma starts_version t : starts_with "00" ("00" +:+ t) = true.
Proof. unfold starts_with. by rewrite strip_prefix_app. Qed.
(** It is recognised and read back. *)
Lemma secret_encrypted u t : t ≠ ""%string → is_encrypted (str_bytes (secret u t)) = true.
Proof.
  intros Ht. pose proof (secret_length t u Ht) as Hl. unfold is_encrypted. rewrite length_str_bytes.
  destruct (String.length (secret u t) <=? VERSION_LEN)%nat eqn:E; [unfold VERSION_LEN in E; apply Nat.leb_le in E; lia|].
  unfold secret. rewrite (bool_decide_eq_false_2 _ Ht), drop_version, base64_back, str_bytes_app, bool_decide_eq_true_2 by done.
  cbn [negb orb]. apply Z.leb_le. rewrite seal_length. unfold zlen. lia.
Qed.
Lemma decrypt_secret u s t cur :
  knows u s → is_utf8 t → t ≠ ""%string →
  decrypt_str_or_original (secret u t) cur s = ((t, true, negb (bool_decide ("00"%string = cur))), seen s).
Proof.
  intros Hs Hu Ht. unfold decrypt_str_or_original. pose proof (secret_length t u Ht) as Hl.
  destruct (VERSION_LEN <? String.length (secret u t))%nat eqn:E; [|unfold VERSION_LEN in E; apply Nat.ltb_ge in E; lia].
  unfold secret. rewrite (bool_decide_eq_false_2 _ Ht), starts_version, drop_version. cbn [andb].
  assert (decrypt (str_bytes (base64_encode (box_seal (str_bytes t) (resize u KEYBYTES)))) s = (Some (str_bytes t), seen s)) as Ed.
  { unfold decrypt. rewrite bool_decide_eq_false_2, base64_back.
    - by apply opened.
    - intros Eb%str_bytes_nil. unfold secret in Hl. rewrite (bool_decide_eq_false_2 _ Ht), Eb in Hl. by apply (Nat.lt_irrefl 2). }
  rewrite (bind_eq _ _ _ _ _ Ed). unfold mret, M_ret. by rewrite from_utf8_lossy_bytes.
Qed.
Lemma decrypt_nothing s cur : decrypt_str_or_original "" cur s = ((""%string, false, false), s).
Proof. done. Qed.
End core.

(** ** The permanent password *)

(** What a process does next, with anything the machine answers. *)
Inductive CoreOp : Type :=
| Start (b : Core) | Faults (l : list bool) | RunSpawned | GetUuid | GetKeyPair | GetExistingKeyPair
| SetId (id : string) | GetId | UpdateId | SetNatType (n : Z) | SetSerial (n : Z)
| SetKeyConfirmed (v : bool) | SetHostKeyConfirmed (host : string) (v : bool)
| ResetOnline | UpdateLatency (host : string) (latency : Z)
| SetOptions (v : gmap string string) | SetOption (k v : string)
| SetSocks (socks : option Socks5Server) | SetUnlockPin (pin : string) | SetConfig2 (c : Config2)
| GetTrustedDevices | AddTrustedDevice (d : TrustedDevice) | RemoveTrustedDevices (hwids : list bytes) | ClearTrustedDevices
| SetSalt (salt : string) | GetSalt | UpdateTemporaryPassword.

Section password.
Context `{Confy} `{Sodium} `{Rng} `{Sha2} `{JsonLib}.

Definition run_op (op : CoreOp) : M Core unit :=
  match op with
  | Start b => start b
  | Faults l => modify (put_faults l)
  | RunSpawned => run_spawned
  | GetUuid => get_uuid;; mret tt
  | GetKeyPair => get_key_pair;; mret tt
  | GetExistingKeyPair => get_existing_key_pair;; mret tt
  | SetId id => set_id_ id
  | GetId => get_id;; mret tt
  | UpdateId => update_id
  | SetNatType n => set_nat_type_ n
  | SetSerial n => set_serial n
  | SetKeyConfirmed v => set_key_confirmed_ v
  | SetHostKeyConfirmed host v => set_host_key_confirmed host v
  | ResetOnline => reset_online
  | UpdateLatency host latency => update_latency host latency
  | SetOptions v => set_options_ v
  | SetOption k v => set_option k v
  | SetSocks socks => set_socks socks
  | SetUnlockPin pin => set_unlock_pin pin
  | SetConfig2 c => set_config2 c;; mret tt
  | GetTrustedDevices => get_trusted_devices;; mret tt
  | AddTrustedDevice d => add_trusted_device d
  | RemoveTrustedDevices hwids => remove_trusted_devices hwids
  | ClearTrustedDevices => clear_trusted_devices
  | SetSalt salt => set_salt_ salt
  | GetSalt => get_salt;; mret tt
  | UpdateTemporaryPassword => update_temporary_password
  end.
Fixpoint run_ops (ops : list CoreOp) : M Core unit :=
  match ops with [] => mret tt | op :: ops => run_op op;; run_ops ops end.

Ltac elsewhere :=
  lazymatch goal with |- keeps _ (modify _) => apply keeps_modify; intros ? ?; assumption end.
(** Secrets and random texts leave the configuration and the files alone. *)
Definition blank (s : Core) : Core := put_uid None (put_uids [] (put_key_pair None (put_draws 0 (put_spawned [] s)))).
Definition quiet {A} (m : M Core A) : Prop := ∀ s, blank (m s).2 = blank s.
Section quiet.
Context (s0 : Core).
Notation Q := (λ s, blank s = blank s0).
Ltac core_keeps := repeat first [keeps_basic | elsewhere | solve [auto with core_keep] ].
Lemma q_draw : keeps Q draw.
Proof. unfold draw. core_keeps. Qed.
#[local] Hint Resolve q_draw : core_keep.
Lemma q_auto n l : keeps Q (get_auto_password_with_chars n l).
Proof. induction n; cbn [get_auto_password_with_chars]; core_keeps. Qed.
#[local] Hint Resolve q_auto : core_keep.
Lemma q_auto_password n : keeps Q (get_auto_password n).
Proof. apply q_auto. Qed.
Lemma q_temporary : keeps Q get_auto_temporary.
Proof. unfold get_auto_temporary, get_auto_numeric_password, get_auto_password. core_keeps. Qed.
Lemma q_key_pair : keeps Q get_key_pair.
Proof. unfold get_key_pair. core_keeps. Qed.
Lemma q_existing : keeps Q get_existing_key_pair.
Proof. unfold get_existing_key_pair. core_keeps. Qed.
#[local] Hint Resolve q_key_pair q_existing : core_keep.
Lemma q_uuid : keeps Q get_uuid.
Proof. unfold get_uuid. core_keeps. Qed.
#[local] Hint Resolve q_uuid : core_keep.
Lemma q_crypt d e : keeps Q (symmetric_crypt d e).
Proof. unfold symmetric_crypt. core_keeps. Qed.
#[local] Hint Resolve q_crypt : core_keep.
Lemma q_encrypt_str t v n : keeps Q (encrypt_str_or_original t v n).
Proof. unfold encrypt_str_or_original, encrypt. core_keeps. Qed.
Lemma q_decrypt_str t v : keeps Q (decrypt_str_or_original t v).
Proof. unfold decrypt_str_or_original, decrypt. core_keeps. Qed.
#[local] Hint Resolve q_decrypt_str : core_keep.
Lemma q_load_id c : keeps Q (load_id c).
Proof. unfold load_id. core_keeps. Qed.
End quiet.

(** The stored form and the salt, in the file and ([m]) in memory. *)
Definition has (p salt : string) (c : Config) : Prop := cf_password c = p ∧ cf_salt c = salt.
Definition keeping (m : bool) (p salt : string) (s : Core) : Prop :=
  (m = true → has p salt (co_config s)) ∧ has p salt (load_config s).
Lemma quiet_reads {A B} (f : Core → B) x (k : M Core A) :
  (∀ s, f (blank s) = f s) → (∀ s0, keeps (λ s, blank s = blank s0) k) → keeps (λ s, f s = x) k.
Proof. intros Hf Hq s Hs. by rewrite <- Hf, (Hq s s eq_refl), Hf. Qed.
Lemma temporary_reads {B} (f : Core → B) s :
  (∀ s, f (blank s) = f s) → (∀ p s, f (put_temporary p s) = f s) → f (update_temporary_password s).2 = f s.
Proof.
  intros Hf Hp. unfold update_temporary_password. rewrite bind_run.
  pose proof (quiet_reads f (f s) get_auto_temporary Hf (λ s0, q_temporary s0) s eq_refl) as E.
  destruct (get_auto_temporary s) as [p s1]. cbn in *. by rewrite Hp.
Qed.
Lemma quiet_keeps {A} m p salt (k : M Core A) : (∀ s0, keeps (λ s, blank s = blank s0) k) → keeps (keeping m p salt) k.
Proof. intros Hq s Hs. change (keeping m p salt (blank (k s).2)). rewrite (Hq s s eq_refl). exact Hs. Qed.
#[local] Hint Resolve q_draw q_auto q_auto_password q_temporary q_key_pair q_existing q_uuid q_encrypt_str q_decrypt_str q_load_id : core_keep.
#[local] Hint Extern 2 (keeps (keeping _ _ _) _) => (apply quiet_keeps; intros ?) : core_keep.

Section kept.
Context `{!ConfyLaws} (m : bool) (p salt : string).
Hypothesis Hhash : is_permanent_password_hashed_storage p = true.
Hypothesis Hsalt : salt ≠ ""%string.
Notation I := (keeping m p salt).

Ltac core_keeps := repeat first [keeps_basic | elsewhere | solve [auto with core_keep] ].

Lemma migrate_hashed c : has p salt c → migrate_permanent_password_to_hashed_storage c = mret (c, false).
Proof.
  intros [Ep _]. unfold migrate_permanent_password_to_hashed_storage. rewrite Ep, Hhash. by rewrite orb_true_r.
Qed.
Lemma has_tree c : has p salt c → ∃ c', config_of_tree (config_tree c) = Some c' ∧ has p salt c'.
Proof.
  intros [<- <-]. eexists. split; [reflexivity|]. unfold has, config_tree. cbn [cf_password cf_salt].
  by destruct (bool_decide _).
Qed.
Lemma k_store_config c : has p salt c → keeps I (store_path (config_tree c) put_file).
Proof.
  intros (c' & E & Hc')%has_tree. apply keeps_modify. intros s [? ?].
  destruct (co_faults s) as [|[] l]; try (split; assumption); destruct (confy_write _) eqn:Ew;
    (split; [assumption|]); try assumption; unfold load_config, load_path; cbn; rewrite (confy_roundtrip _ _ Ew); cbn [mbind option_bind];
    by rewrite E.
Qed.
Lemma k_store c : has p salt c → keeps I (store c).
Proof.
  intros Hc. unfold store. rewrite (migrate_hashed c Hc), ret_bind. core_keeps. by apply k_store_config.
Qed.
#[local] Hint Resolve k_store : core_keep.
Lemma k_commit c : has p salt c → keeps I (commit c).
Proof. intros Hc. unfold commit. core_keeps. apply keeps_modify. by intros s [_ ?]. Qed.
Lemma k_store_path2 t : keeps I (store_path t put_file2).
Proof.
  apply keeps_modify. intros s [? ?]. destruct (co_faults s) as [|[] ?]; try destruct (confy_write t); split; assumption.
Qed.
#[local] Hint Resolve k_commit k_store_path2 : core_keep.
Lemma k_commit2 c : keeps I (commit2 c).
Proof. unfold commit2, store2. core_keeps. Qed.
#[local] Hint Resolve k_commit2 : core_keep.
Lemma k_trusted l : keeps I (set_trusted_devices l).
Proof. unfold set_trusted_devices. core_keeps. Qed.
#[local] Hint Resolve k_trusted : core_keep.
Lemma k_get_trusted : keeps I get_trusted_devices.
Proof. unfold get_trusted_devices. core_keeps. Qed.
#[local] Hint Resolve k_get_trusted : core_keep.
#[local] Hint Extern 1 (has _ _ _) => (repeat (first [assumption | split; cbn])) : core_keep.
Lemma k_load_id c : has p salt c → ensures I (load_id c) (λ r s, I s ∧ has p salt r.1).
Proof.
  intros Hc s Hs. split.
  - revert s Hs. change (keeps I (load_id c)). auto with core_keep.
  - unfold load_id. run_monad. repeat case_match; simplify_eq/=; assumption.
Qed.
Lemma k_load : ensures I load (λ c s, I s ∧ has p salt c).
Proof.
  intros s Hs. unfold load. run_monad. rewrite (migrate_hashed (load_config s)) by apply Hs. cbn [mret M_ret].
  destruct (k_load_id (load_config s) (proj2 Hs) s Hs) as [Hi Hc].
  destruct (load_id (load_config s) s) as [[c b] s1]; cbn [fst snd] in *. unfold mret, M_ret.
  destruct b; cbn [orb]; [|done]. destruct (store c s1) as [[] s2] eqn:E; cbn [fst snd].
  split; [|done]. pose proof (k_store c Hc s1 Hi) as Hk. by rewrite E in Hk.
Qed.
Lemma k_load2 : keeps I load2.
Proof. unfold load2, store2. core_keeps. Qed.
End kept.

Section steps.
Context `{!ConfyLaws} (p salt : string).
Hypothesis Hhash : is_permanent_password_hashed_storage p = true.
Hypothesis Hsalt : salt ≠ ""%string.
Notation J := (keeping true p salt).
Lemma k_config {A} (k : Config → M Core A) : (∀ c, has p salt c → keeps J (k c)) → keeps J (gets co_config ≫= k).
Proof. intros Hk s Hs. apply Hk; [by apply Hs|done]. Qed.
Lemma k_update_temporary : keeps J update_temporary_password.
Proof. unfold update_temporary_password. repeat first [keeps_basic | elsewhere | solve [auto with core_keep] ]. Qed.
Lemma start_run b s :
  start b s = let '(c, s1) := load (new_process b s) in let '(c2, s2) := load2 (put_config c s1) in
    update_temporary_password (put_config2 c2 s2).
Proof.
  change (start b s) with
    (let '(c, s1) := load (new_process b s) in (load2 ≫= λ c2, modify (put_config2 c2);; update_temporary_password) (put_config c s1)).
  destruct (load (new_process b s)). by rewrite bind_run.
Qed.
Lemma k_start b : keeps J (start b).
Proof.
  intros s [_ Hs]. rewrite start_run. assert (keeping false p salt (new_process b s)) as Hn by done.
  pose proof (k_load false p salt Hhash Hsalt _ Hn) as [Hf Hc].
  destruct (load (new_process b s)) as [c s1]; cbn [fst snd] in *.
  assert (keeping true p salt (put_config c s1)) as Hm by (split; [done|apply Hf]).
  pose proof (k_load2 true p salt _ Hm) as Hl.
  destruct (load2 (put_config c s1)) as [c2 s2]. by apply k_update_temporary.
Qed.
#[local] Hint Resolve k_commit k_commit2 k_trusted k_get_trusted k_start : core_keep.
#[local] Hint Extern 1 (has _ _ _) => (repeat (first [assumption | split; cbn])) : core_keep.
Ltac core_keeps :=
  repeat first
    [ lazymatch goal with |- keeps _ (gets co_config ≫= _) => apply k_config; intros ? ? end
    | keeps_basic | elsewhere | solve [auto with core_keep]].
Lemma k_set_id id : keeps J (set_id_ id).
Proof. unfold set_id_. core_keeps. Qed.
#[local] Hint Resolve k_set_id : core_keep.
Lemma k_get_id : keeps J get_id.
Proof. unfold get_id. core_keeps. Qed.
#[local] Hint Resolve k_get_id : core_keep.
Lemma k_set_salt t : keeps J (set_salt_ t).
Proof.
  unfold set_salt_, password_is_empty_or_not_hashed, nonempty. apply k_config. intros c [-> ->].
  rewrite Hhash, (bool_decide_eq_false_2 (salt = _)), (bool_decide_eq_false_2 (p = _)) by (done || by intros ->).
  core_keeps. done.
Qed.
#[local] Hint Resolve k_set_salt : core_keep.
Lemma k_get_salt : keeps J get_salt.
Proof.
  unfold get_salt. apply k_config. intros c [_ ->]. rewrite bool_decide_eq_false_2 by done. core_keeps.
Qed.
#[local] Hint Resolve k_get_salt : core_keep.
Lemma k_op op : keeps J (run_op op).
Proof.
  destruct op; cbn [run_op]; unfold run_spawned, update_id, set_nat_type_, set_serial, set_key_confirmed_,
    set_host_key_confirmed, reset_online, update_latency, set_options_, set_option, set_socks, set_unlock_pin, set_config2,
    add_trusted_device, remove_trusted_devices, clear_trusted_devices, update_temporary_password; core_keeps.
  case_match; core_keeps.
Qed.
Lemma k_ops ops : keeps J (run_ops ops).
Proof. induction ops as [|op ops IH]; cbn [run_ops]; [by intros ?|]. apply keeps_bind; [apply k_op|done]. Qed.
End steps.

Lemma auto_nonempty n s : n ≠ 0%nat → (get_auto_password n s).1 ≠ ""%string.
Proof.
  destruct n as [|n]; [done|]. intros _. unfold get_auto_password. cbn [get_auto_password_with_chars]. rewrite bind_run.
  destruct (draw s) as [r s1]. rewrite bind_run. by destruct (get_auto_password_with_chars n CHARS s1).
Qed.
(** A salt is made where there was none. *)
Lemma with_salt_spec c s :
  ∃ t s', with_salt c s = (set_salt t c, s') ∧ blank s' = blank s ∧ t ≠ ""%string ∧ (cf_salt c ≠ ""%string → t = cf_salt c).
Proof.
  unfold with_salt. destruct (bool_decide (cf_salt c = _)) eqn:E; bool_simp.
  - rewrite bind_run. pose proof (q_auto_password s DEFAULT_SALT_LEN s eq_refl) as Hq.
    pose proof (auto_nonempty DEFAULT_SALT_LEN s ltac:(done)) as Hn.
    destruct (get_auto_password DEFAULT_SALT_LEN s) as [t s']. by exists t, s'.
  - exists (cf_salt c), s. by destruct c.
Qed.

(** ** What a password is checked against *)

Context `{!ConfyLaws} `{!SodiumLaws} `{!Sha2Law}.
Lemma decode_h1 h1 : length h1 = 32%nat → decode_permanent_password_h1_from_storage (encode_permanent_password_storage_from_h1 h1) = Some h1.
Proof.
  intros Hl. unfold decode_permanent_password_h1_from_storage, encode_permanent_password_storage_from_h1.
  rewrite strip_prefix_app. cbn [mbind option_bind]. rewrite base64_back. cbn [mbind option_bind]. by rewrite Hl.
Qed.
Definition stored_form (password salt : string) : string :=
  encode_permanent_password_storage_from_h1 (compute_permanent_password_h1 password salt).
Lemma stored_decodes p t : decode_permanent_password_h1_from_storage (stored_form p t) = Some (compute_permanent_password_h1 p t).
Proof. apply decode_h1, sha256_length. Qed.
Lemma stored_hashed p t : is_permanent_password_hashed_storage (stored_form p t) = true.
Proof. unfold is_permanent_password_hashed_storage. by rewrite stored_decodes. Qed.
Lemma matches_stored q p t s :
  has (stored_form p t) t (co_config s) → t ≠ ""%string →
  matches_permanent_password_plain q s =
  negb (bool_decide (q = ""%string)) && bool_decide (compute_permanent_password_h1 q t = compute_permanent_password_h1 p t).
Proof.
  intros [E1 E2] Ht. unfold matches_permanent_password_plain. rewrite E1, E2, stored_decodes, (bool_decide_eq_false_2 (t = _)) by done.
  destruct (bool_decide (q = _)) eqn:Eq; [done|]. rewrite bool_decide_eq_false_2; [done|].
  intros E. pose proof (stored_hashed p t) as Eh. rewrite E in Eh. by compute in Eh.
Qed.

(** ** Setting it *)

Definition key_ok (k : KeyPair) : Prop := bytes_ok k.1 ∧ bytes_ok k.2.
Lemma bytes_tree_ok b : bytes_ok b → toml_ok (enc_bytes b) = true.
Proof.
  intros Hb. cbn. induction Hb as [|n b Hn _ IH]; [done|]. cbn. rewrite IH. unfold u8_ok in Hn. lia.
Qed.
Lemma map_tree_ok {A} (e : A → JVal) (m : gmap string A) :
  (∀ a, is_table (e a) = false ∧ toml_ok (e a) = true) → toml_ok (enc_map e m) = true.
Proof.
  intros He. unfold enc_map. cbn [toml_ok]. rewrite !andb_true_iff, bool_decide_eq_true. split; [split|].
  - rewrite <- list_fmap_compose. apply NoDup_fst_map_to_list.
  - induction (map_to_list m) as [|[k a] l IH]; [done|]. cbn. by rewrite (proj1 (He a)).
  - induction (map_to_list m) as [|[k a] l IH]; [done|]. cbn. by rewrite (proj2 (He a)).
Qed.
Lemma config_tree_ok c : key_ok (cf_key_pair c) → toml_ok (config_tree c) = true.
Proof.
  intros [? ?]. unfold config_tree. cbn [toml_ok]. rewrite forallb_app, !andb_true_iff.
  assert (toml_ok (enc_map VBool (cf_keys_confirmed c)) = true) as Em by by apply map_tree_ok.
  assert (toml_ok (enc_key_pair (cf_key_pair c)) = true) as Ek.
  { unfold enc_key_pair. cbn -[enc_bytes]. by rewrite !bytes_tree_ok. }
  destruct (bool_decide (cf_id c = _)); (split; [split; [vm_compute; reflexivity|done]|]).
  all: split; [done|]; cbn -[enc_map enc_key_pair]; by rewrite Em, Ek.
Qed.

(** The next write succeeds. *)
Definition writable (s : Core) : Prop := co_faults s = [] ∨ head (co_faults s) = Some false.
Lemma store_path_reads l put s :
  toml_ok (VObj l) = true → writable s →
  ∃ w, store_path (VObj l) put s = (tt, put (Some w) (put_faults (drop 1 (co_faults s)) s)) ∧ confy_read w = Some (VObj l).
Proof.
  intros Ht Hw. destruct (confy_writes _ Ht) as [w Ew]. exists w. split; [|by apply confy_roundtrip].
  unfold store_path, modify. destruct Hw as [Hw|Hw]; destruct (co_faults s) as [|[] ?]; simplify_eq/=; by rewrite Ew.
Qed.
Lemma quiet_writable {A} (k : M Core A) s :
  (∀ s0, keeps (λ s, blank s = blank s0) k) → writable s → writable (k s).2.
Proof.
  intros Hk Hw. pose proof (f_equal co_faults (Hk s s eq_refl)) as E. cbn in E. unfold writable. by rewrite E.
Qed.
Lemma store_writes p t c s :
  has p t c → is_permanent_password_hashed_storage p = true → t ≠ ""%string → key_ok (cf_key_pair c) → writable s →
  has p t (load_config (store c s).2).
Proof.
  intros Hc Hp Hs Hk Hw. unfold store. rewrite (migrate_hashed p t Hp c Hc), ret_bind, bind_run.
  pose proof (quiet_writable _ s (λ s0, q_encrypt_str s0 (cf_id c) PASSWORD_ENC_VERSION ENCRYPT_MAX_LEN) Hw) as Hw1.
  destruct (encrypt_str_or_original _ _ _ s) as [enc s1]. cbn [snd] in Hw1.
  assert (has p t (set_id "" (set_enc_id enc c))) as Hc' by done.
  destruct (has_tree p t Hp Hs _ Hc') as (c' & E & Hh).
  assert (toml_ok (config_tree (set_id "" (set_enc_id enc c))) = true) as Ht by by apply config_tree_ok.
  destruct (store_path_reads _ put_file s1 Ht Hw1) as (w & Ew & Er). fold (config_tree (set_id "" (set_enc_id enc c))) in Ew, Er.
  rewrite Ew. unfold load_config, load_path. cbn. rewrite Er. cbn [mbind option_bind]. by rewrite E.
Qed.
Lemma store_memory x c : keeps (λ s, co_config s = x) (store c).
Proof.
  unfold store, migrate_permanent_password_to_hashed_storage, with_salt.
  repeat first [keeps_basic | apply (quiet_reads co_config); [done|]; intros ?; solve [auto with core_keep] ].
  apply keeps_modify. intros s Hs. by destruct (co_faults s) as [|[] ?]; try destruct (confy_write _).
Qed.

(** A stored form that is a hash has its salt, and the file has both. *)
Definition settled (s : Core) : Prop :=
  has (cf_password (co_config s)) (cf_salt (co_config s)) (load_config s) ∧
  (is_permanent_password_hashed_storage (cf_password (co_config s)) = true → cf_salt (co_config s) ≠ ""%string).
(** The password may be changed, and is not the one built in. *)
Definition may_set (p : string) (s : Core) : Prop :=
  is_disable_change_permanent_password s = false ∧ (hard_password s = Some p → cf_password (co_config s) ≠ ""%string).
Lemma password_set p s :
  p ≠ ""%string → may_set p s → settled s → writable s → key_ok (cf_key_pair (co_config s)) →
  ∃ t, t ≠ ""%string ∧ keeping true (stored_form p t) t (set_permanent_password p s).2.
Proof.
  intros Hp [Hd Hh] [Hf Hs] Hw Hk. unfold set_permanent_password.
  rewrite (bind_eq _ _ _ _ _ (eq_refl : gets is_disable_change_permanent_password s = (_, s))), Hd.
  rewrite (bind_eq _ _ _ _ _ (eq_refl : gets hard_password s = (_, s))).
  rewrite (bind_eq _ _ _ _ _ (eq_refl : gets co_config s = (_, s))).
  assert (bool_decide (hard_password s = Some p) && bool_decide (cf_password (co_config s) = ""%string) = false) as ->.
  { destruct (bool_decide (hard_password s = _)) eqn:E; [|done]. bool_simp. rewrite bool_decide_eq_false_2; [done|]. by apply Hh. }
  rewrite (bool_decide_eq_false_2 _ Hp).
  destruct (with_salt_spec (co_config s) s) as (t & s1 & Et & Hb & Ht & Hsame). exists t. split; [done|].
  rewrite (bind_eq _ _ s (hash_password p (set_salt t (co_config s)), cf_password (co_config s)) s1).
  2: { by rewrite (bind_eq _ _ _ _ _ Et). }
  cbn [fst snd]. change (cf_password (hash_password p (set_salt t (co_config s)))) with (stored_form p t).
  assert (has (stored_form p t) t (hash_password p (set_salt t (co_config s)))) as Hc by done.
  destruct (bool_decide (stored_form p t = _)) eqn:E; bool_simp.
  - split; [done|]. change (has (stored_form p t) t (load_config (blank s1))). rewrite Hb, E.
    rewrite Hsame; [exact Hf|]. apply Hs. rewrite <- E. apply stored_hashed.
  - assert (keeping true (stored_form p t) t (commit (hash_password p (set_salt t (co_config s))) s1).2) as Hcommit.
    { change (commit _ s1) with (store (hash_password p (set_salt t (co_config s))) (put_config (hash_password p (set_salt t (co_config s))) s1)).
      split.
      - intros _. by rewrite (store_memory (hash_password p (set_salt t (co_config s)))).
      - apply store_writes; [done|apply stored_hashed|done|done|].
        pose proof (f_equal co_faults Hb) as Ef. cbn in Ef. unfold writable. cbn. by rewrite Ef. }
    rewrite bind_run. destruct (commit _ s1) as [[] s2]. apply k_trusted; done.
Qed.

End password.

#[local] Existing Instances TestJson TestConfy TestSodium TestRng TestSha2 TestConfyLaws TestSodiumLaws TestSha2Law.
