(* ===== verification/CoreStoreSpec.v ===== *)
(** * What the configuration files give back

    A process that starts on the machine where the files of [CoreConfig] were
    written has the configuration that was stored, with its secrets, and its
    trusted devices. *)
From Stdlib Require Import Ascii.
From S2P Require Import Prelude Text TextFacts HostText JsonTree CoreState CoreConfig CoreConfigSpec.
Local Open Scope Z_scope.

(** ** The trees of the records *)

Lemma mapM_back {A B} (d : B → option A) (e : A → B) l : Forall (λ a, d (e a) = Some a) l → mapM d (e <$> l) = Some l.
Proof. intros Hl. apply mapM_Some_2, Forall2_fmap_l. induction Hl; by constructor. Qed.
Lemma dec_bytes_enc b : bytes_ok b → dec_bytes (enc_bytes b) = Some b.
Proof.
  intros Hb. apply (mapM_back dec_u8 VNum). eapply Forall_impl; [exact Hb|]. unfold u8_ok, dec_u8, dec_int, within.
  intros n Hn. by destruct ((0 <=? n) && (n <=? 255)) eqn:E; [|lia].
Qed.
Lemma dec_key_pair_enc k : key_ok k → dec_key_pair (enc_key_pair k) = Some k.
Proof. intros [? ?]. destruct k. cbn -[dec_bytes enc_bytes]. by rewrite !dec_bytes_enc. Qed.
Lemma dec_map_enc {A} (e : A → JVal) d (m : gmap string A) : (∀ a, d (e a) = Some a) → dec_map d (enc_map e m) = Some m.
Proof.
  intros Hd. unfold enc_map. cbn [dec_map].
  rewrite (mapM_back _ (λ kv : string * A, (kv.1, e kv.2))); [by cbn; rewrite list_to_map_to_list|].
  apply Forall_true. intros [k a]. cbn. by rewrite Hd.
Qed.
Lemma core_config_roundtrip c : key_ok (cf_key_pair c) → config_of_tree (config_tree c) = Some c.
Proof.
  intros Hk. transitivity (Some (mkConfig (cf_id c) (cf_enc_id c) (cf_password c) (cf_salt c)
    (default ([], []) (dec_key_pair (enc_key_pair (cf_key_pair c)))) (cf_key_confirmed c)
    (default ∅ (dec_map dec_bool (enc_map VBool (cf_keys_confirmed c)))))).
  - unfold config_of_tree, config_tree. destruct (bool_decide (cf_id c = _)) eqn:E; bool_simp; [rewrite E|]; reflexivity.
  - rewrite dec_key_pair_enc, dec_map_enc by done. by destruct c.
Qed.
Definition i32_ok (n : Z) : Prop := - 2 ^ 31 <= n < 2 ^ 31.
Lemma dec_i32_ok n : i32_ok n → dec_i32 (VNum n) = Some n.
Proof. unfold i32_ok, dec_i32, dec_int, within. intros ?. destruct (_ && _) eqn:E; [done|lia]. Qed.
Lemma config2_roundtrip c : i32_ok (c2_nat_type c) → i32_ok (c2_serial c) → config2_of_tree (config2_tree c) = Some c.
Proof.
  intros Hn Hs. transitivity (Some (mkConfig2 (c2_rendezvous_server c) (default 0 (dec_i32 (VNum (c2_nat_type c))))
    (default 0 (dec_i32 (VNum (c2_serial c)))) (c2_unlock_pin c) (c2_trusted_devices c) (c2_socks c)
    (default ∅ (dec_map dec_str (enc_map VText (c2_options c)))))).
  - unfold config2_of_tree, config2_tree. destruct (c2_socks c) as [[]|]; reflexivity.
  - rewrite !dec_i32_ok, dec_map_enc by done. by destruct c.
Qed.
Lemma config2_tree_ok c : i32_ok (c2_nat_type c) → i32_ok (c2_serial c) → toml_ok (config2_tree c) = true.
Proof.
  intros Hn Hs. unfold i32_ok in *. unfold config2_tree. cbn [toml_ok]. rewrite !andb_true_iff.
  assert (toml_ok (enc_map VText (c2_options c)) = true) as Em by by apply map_tree_ok.
  destruct (c2_socks c); (split; [split; [vm_compute; reflexivity|done]|]).
  all: cbn -[enc_map]; rewrite Em, !andb_true_iff; repeat split; first [lia | vm_compute; reflexivity].
Qed.

(** ** Stored and started again *)

Section core.
Context `{Confy} `{Sodium} `{Rng} `{Sha2} `{JsonLib} `{!ConfyLaws} `{!SodiumLaws} (u : bytes).

Definition storable (t : string) : Prop := is_utf8 t ∧ is_encrypted (str_bytes t) = false ∧ char_count t <= ENCRYPT_MAX_LEN.
Definition stored_password (p : string) : Prop := p = ""%string ∨ is_permanent_password_hashed_storage p = true.
Definition good (c : Config) : Prop :=
  cf_id c ≠ ""%string ∧ storable (cf_id c) ∧ key_ok (cf_key_pair c) ∧ stored_password (cf_password c).
Definition good2 (c : Config2) : Prop :=
  i32_ok (c2_nat_type c) ∧ i32_ok (c2_serial c) ∧ storable (c2_unlock_pin c) ∧
  ∀ socks, c2_socks c = Some socks → storable (s5_password socks).
(** What the files hold of them. *)
Definition stored (c : Config) : Config := set_id "" (set_enc_id (secret u (cf_id c)) c).
Definition stored_socks (s : Socks5Server) : Socks5Server := with_password (secret u (s5_password s)) s.
Definition stored2 (c : Config2) : Config2 :=
  set2_unlock_pin (secret u (c2_unlock_pin c)) (set2_socks (stored_socks <$> c2_socks c) c).

Lemma seen_blank s : blank (seen s) = blank s.
Proof. apply (q_uuid s s eq_refl). Qed.
Lemma secret_made t s :
  knows u s → storable t →
  ∃ s', encrypt_str_or_original t PASSWORD_ENC_VERSION ENCRYPT_MAX_LEN s = (secret u t, s') ∧ knows u s' ∧ blank s' = blank s.
Proof.
  intros Hs (_ & He & Hl). destruct (encrypt_short u s t ENCRYPT_MAX_LEN Hs He Hl) as [E1 E2].
  unfold PASSWORD_ENC_VERSION. destruct (encrypt_str_or_original _ _ _ s) as [r s']. cbn in E1, E2. exists s'. rewrite E1.
  destruct E2 as [->| ->]; [done|]. split; [done|]. split; [by apply seen_knows|apply seen_blank].
Qed.
Lemma secret_read t s :
  knows u s → storable t →
  ∃ s', decrypt_str_or_original (secret u t) PASSWORD_ENC_VERSION s = ((t, nonempty t, false), s') ∧ knows u s' ∧ blank s' = blank s.
Proof.
  intros Hs (Hu & _). destruct (decide (t = ""%string)) as [->|Ht]; [by exists s|]. exists (seen s).
  rewrite (decrypt_secret u s t _ Hs Hu Ht). unfold nonempty. rewrite (bool_decide_eq_false_2 _ Ht).
  split; [done|]. split; [by apply seen_knows|apply seen_blank].
Qed.
Lemma migrate_good c : stored_password (cf_password c) → migrate_permanent_password_to_hashed_storage c = mret (c, false).
Proof.
  unfold migrate_permanent_password_to_hashed_storage. intros [-> | ->]; [done|]. by rewrite orb_true_r.
Qed.

Lemma store_good c s :
  knows u s → good c → writable s →
  ∃ w s1, store c s = (tt, put_file (Some w) (put_faults (drop 1 (co_faults s)) s1)) ∧
    confy_read w = Some (config_tree (stored c)) ∧ knows u s1 ∧ blank s1 = blank s.
Proof.
  intros Hs Hg Hw. unfold store. destruct Hg as (_ & Hi & Hk & Hp).
  rewrite (migrate_good c Hp), ret_bind.
  destruct (secret_made (cf_id c) s Hs Hi) as (s1 & E & Hs1 & Hb). rewrite (bind_eq _ _ _ _ _ E).
  pose proof (f_equal co_faults Hb) as Ef. cbn in Ef.
  destruct (store_path_reads _ put_file s1 (config_tree_ok (stored c) Hk)) as (w & Ew & Er).
  { unfold writable. by rewrite Ef. }
  exists w, s1. rewrite <- Ef. done.
Qed.
Lemma store2_good c s :
  knows u s → good2 c → writable s →
  ∃ w s1, store2 c s = (tt, put_file2 (Some w) (put_faults (drop 1 (co_faults s)) s1)) ∧
    confy_read w = Some (config2_tree (stored2 c)) ∧ knows u s1 ∧ blank s1 = blank s.
Proof.
  intros Hs (Hn & He & Hp & Ho) Hw. unfold store2.
  assert (∃ s1, (match c2_socks c with
                 | Some socks => p ← encrypt_str_or_original (s5_password socks) PASSWORD_ENC_VERSION ENCRYPT_MAX_LEN;
                                 mret (Some (with_password p socks))
                 | None => mret None
                 end) s = (stored_socks <$> c2_socks c, s1) ∧ knows u s1 ∧ blank s1 = blank s) as (s1 & E1 & Hs1 & Hb1).
  { destruct (c2_socks c) as [so|]; [|by exists s]. destruct (secret_made (s5_password so) s Hs (Ho so eq_refl)) as (s1 & E & ?).
    exists s1. by rewrite (bind_eq _ _ _ _ _ E). }
  rewrite (bind_eq _ _ _ _ _ E1). destruct (secret_made (c2_unlock_pin c) s1 Hs1 Hp) as (s2 & E & Hs2 & Hb2).
  rewrite (bind_eq _ _ _ _ _ E). pose proof (f_equal co_faults (eq_trans Hb2 Hb1)) as Ef. cbn in Ef.
  destruct (store_path_reads _ put_file2 s2 (config2_tree_ok (stored2 c) Hn He)) as (w & Ew & Er).
  { unfold writable. by rewrite Ef. }
  exists w, s2. rewrite <- Ef. split; [exact Ew|]. split; [done|]. split; [done|]. by rewrite Hb2.
Qed.

(** A start reads them. *)
Lemma load_good c s :
  knows u s → good c → load_config s = stored c →
  ∃ s1, load s = (set_enc_id (secret u (cf_id c)) c, s1) ∧ knows u s1 ∧ blank s1 = blank s.
Proof.
  intros Hs (Hi & Hst & _ & Hp) Hf. unfold load. rewrite (bind_eq _ _ _ _ _ (eq_refl : gets load_config s = (_, s))), Hf.
  rewrite (migrate_good (stored c) Hp), ret_bind. unfold load_id at 1.
  destruct (secret_read (cf_id c) s Hs Hst) as (s1 & E & Hs1 & Hb). exists s1. split; [|done].
  unfold nonempty in E. rewrite (bool_decide_eq_false_2 _ Hi) in E.
  change (cf_enc_id (stored c)) with (secret u (cf_id c)).
  rewrite (bind_eq _ _ s (set_id (cf_id c) (stored c), false) s1).
  - by destruct c.
  - by rewrite (bind_eq _ _ _ _ _ E).
Qed.
Lemma load2_good c s :
  knows u s → good2 c → load_config2 s = stored2 c → ∃ s1, load2 s = (c, s1) ∧ knows u s1 ∧ blank s1 = blank s.
Proof.
  intros Hs (_ & _ & Hp & Ho) Hf. unfold load2. rewrite (bind_eq _ _ _ _ _ (eq_refl : gets load_config2 s = (_, s))), Hf.
  set (c1 := set2_unlock_pin (secret u (c2_unlock_pin c)) c).
  assert (∃ s1, (match c2_socks (stored2 c) with
                 | Some socks => '(p, _, st) ← decrypt_str_or_original (s5_password socks) PASSWORD_ENC_VERSION;
                                 mret (set2_socks (Some (with_password p socks)) (stored2 c), st)
                 | None => mret (stored2 c, false)
                 end) s = ((c1, false), s1) ∧ knows u s1 ∧ blank s1 = blank s) as (s1 & E1 & Hs1 & Hb1).
  { subst c1. destruct c as [rs nt se pin td [[pr us pw]|] op]; [|by exists s].
    destruct (secret_read pw s Hs (Ho _ eq_refl)) as (s1 & E & ?). exists s1. cbn [c2_socks stored2 set2_unlock_pin set2_socks fmap option_fmap option_map stored_socks with_password s5_password].
    by rewrite (bind_eq _ _ _ _ _ E). }
  rewrite (bind_eq _ _ _ _ _ E1).
  destruct (secret_read (c2_unlock_pin c) s1 Hs1 Hp) as (s2 & E & Hs2 & Hb2). exists s2.
  change (c2_unlock_pin c1) with (secret u (c2_unlock_pin c)). rewrite (bind_eq _ _ _ _ _ E).
  split; [by destruct c|]. split; [done|]. by rewrite Hb2.
Qed.


(** ** Options *)

(** What decides an option besides its stored value. *)
Definition settings (s : Core) : Config2 * gmap string string * gmap string string := (co_config2 s, co_overwrite s, co_defaults s).
Lemma store2_memory x c : keeps (λ s, settings s = x) (store2 c).
Proof.
  unfold store2. repeat first [keeps_basic | apply (quiet_reads settings); [done|]; intros ?; apply q_encrypt_str].
  apply keeps_modify. intros s Hs. by destruct (co_faults s) as [|[] ?]; try destruct (confy_write _).
Qed.
Lemma commit2_memory c s : settings (commit2 c s).2 = (c, co_overwrite s, co_defaults s).
Proof. by apply (store2_memory _ c (put_config2 c s)). Qed.
Lemma get_option_settings s t k : settings s = settings t → get_option k s = get_option k t.
Proof. unfold settings, get_option. by intros [= -> -> ->]. Qed.
Lemma get_option_in k c s t :
  settings t = (c, co_overwrite s, co_defaults s) →
  get_option k t = default ""%string (get_or (co_overwrite s) (c2_options c) (co_defaults s) k).
Proof. unfold settings, get_option. by intros [= -> -> ->]. Qed.
Lemma get_or_union a b c k : get_or a b c k = (a ∪ (b ∪ c)) !! k.
Proof.
  unfold get_or. rewrite lookup_union. destruct (a !! k); [by rewrite union_Some_l|]. rewrite (left_id_L None _), lookup_union.
  destruct (b !! k); [by rewrite union_Some_l|]. by rewrite (left_id_L None _).
Qed.

(** The stored value of an option after [set_option]. *)
Definition saved (s : Core) (k v : string) : option string :=
  if is_option_can_save (co_overwrite s) k (co_defaults s) v && negb (bool_decide (v = ""%string)) then Some v else None.
Definition with_option (k : string) (o : option string) (m : gmap string string) : gmap string string :=
  match o with Some v => <[k := v]> m | None => delete k m end.
Lemma set_option_stored k v s :
  settings (set_option k v s).2 =
  (set2_options (with_option k (saved s k v) (c2_options (co_config2 s))) (co_config2 s), co_overwrite s, co_defaults s).
Proof.
  assert (∀ m, m = c2_options (co_config2 s) → settings s = (set2_options m (co_config2 s), co_overwrite s, co_defaults s)) as Hsame.
  { intros m ->. unfold settings. by destruct (co_config2 s). }
  unfold set_option, saved. rewrite (bind_eq _ _ _ _ _ (eq_refl : gets (λ s, is_option_can_save _ k _ v) s = (_, s))).
  rewrite (bind_eq _ _ _ _ _ (eq_refl : gets co_config2 s = (_, s))).
  destruct (is_option_can_save _ _ _ _); cbn [negb andb].
  - destruct (bool_decide (v = _)); cbn [negb with_option]; case_bool_decide as E; [| | |]; try apply commit2_memory; apply Hsame.
    + by apply delete_id.
    + by apply insert_id.
  - cbn [with_option]. case_bool_decide as E; [apply commit2_memory|]. apply Hsame, delete_id. by apply eq_None_not_Some.
Qed.
Lemma set_options_stored m s :
  settings (set_options_ m s).2 = (set2_options (purify_options s m) (co_config2 s), co_overwrite s, co_defaults s).
Proof.
  unfold set_options_. rewrite (bind_eq _ _ _ _ _ (eq_refl : gets (λ s, purify_options s m) s = (_, s))).
  rewrite (bind_eq _ _ _ _ _ (eq_refl : gets co_config2 s = (_, s))). case_bool_decide as E; [|apply commit2_memory].
  unfold settings. cbn. rewrite <- E. by destruct (co_config2 s).
Qed.
Lemma lookup_with_option k k' o m : with_option k o m !! k' = if bool_decide (k' = k) then o else m !! k'.
Proof. destruct o; cbn; case_bool_decide; subst; by simplify_map_eq. Qed.
Lemma purify_lookup s m k :
  purify_options s m !! k = (v ← m !! k; if is_option_can_save (co_overwrite s) k (co_defaults s) v then Some v else None).
Proof.
  unfold purify_options. rewrite map_lookup_filter. destruct (m !! k) as [v|]; [|done]. cbn.
  destruct (is_option_can_save _ _ _ _) eqn:E; [by rewrite option_guard_True|by rewrite option_guard_False].
Qed.
Lemma cannot_save s k v :
  is_option_can_save (co_overwrite s) k (co_defaults s) v = false →
  is_Some (co_overwrite s !! k) ∨ co_overwrite s !! k = None ∧ co_defaults s !! k = Some v.
Proof.
  unfold is_option_can_save. intros [E|E]%negb_false_iff%orb_true_iff; bool_simp; [by left|].
  destruct (co_overwrite s !! k) eqn:E1; [by left|by right].
Qed.

(** Options have the value set last: an option the settings of the build fix keeps
    theirs, the empty text stands for the default, any other value is read back,
    and no other option changes; setting them all at once reads back the same
    way; and the table of all options agrees with reading them one by one. *)
Theorem options_read_back (k v k' : string) (m : gmap string string) (s : Core) :
  get_option k' (set_option k v s).2 =
    (if bool_decide (k' = k) then
       match co_overwrite s !! k with
       | Some o => o
       | None => if bool_decide (v = ""%string) then default ""%string (co_defaults s !! k) else v
       end
     else get_option k' s) ∧
  get_option k' (set_options_ m s).2 = default ""%string (get_or (co_overwrite s) m (co_defaults s) k') ∧
  get_option k' s = default ""%string (get_options s !! k').
Proof.
  split; [|split].
  - rewrite (get_option_in _ _ s _ (set_option_stored k v s)). unfold get_or. cbn [c2_options set2_options].
    rewrite lookup_with_option. case_bool_decide as Ek; [subst k'|done].
    destruct (co_overwrite s !! k) eqn:Eo; [done|]. unfold saved.
    destruct (is_option_can_save _ _ _ v) eqn:E; cbn [andb]; [by case_bool_decide|].
    apply cannot_save in E as [E|[_ ->]]; [by rewrite Eo in E; destruct E|]. by case_bool_decide; subst.
  - rewrite (get_option_in _ _ s _ (set_options_stored m s)). unfold get_or. cbn [c2_options set2_options].
    destruct (co_overwrite s !! k') eqn:Eo; [done|]. rewrite purify_lookup. destruct (m !! k') as [w|]; [|done]. cbn.
    destruct (is_option_can_save _ _ _ w) eqn:E; [done|].
    apply cannot_save in E as [E|[_ ->]]; [by rewrite Eo in E; destruct E|done].
  - unfold get_option, get_options. by rewrite get_or_union.
Qed.

(** ** Secrets that are lost, and one that is not secret *)

Lemma long_secret t n s :
  is_encrypted (str_bytes t) = false → n < char_count t → encrypt_str_or_original t PASSWORD_ENC_VERSION n s = (""%string, s).
Proof. intros He Hn. unfold encrypt_str_or_original. rewrite He. by destruct (n <? char_count t) eqn:E; [|lia]. Qed.
(** A pin of more than 128 characters is stored as the empty text: the next
    process has no pin. *)
Theorem long_pin_is_lost (pin : string) (c2 : Config2) (b s : Core) :
  knows u s → co_faults s = [] → good2 (set2_unlock_pin "" c2) → head (co_uids b) = Some (Some u) →
  is_encrypted (str_bytes pin) = false → ENCRYPT_MAX_LEN < char_count pin →
  (load2 (new_process b (commit2 (set2_unlock_pin pin c2) s).2)).1 = set2_unlock_pin "" c2.
Proof.
  intros Hs Hf Hg Hu He Hl. set (c := set2_unlock_pin pin c2). set (e := set2_unlock_pin "" c2) in *.
  assert (store2 c (put_config2 c s) = store2 e (put_config2 c s)) as E.
  { unfold store2. rewrite !bind_run. change (c2_socks e) with (c2_socks c).
    match goal with |- (let '(_, _) := ?m in _) = _ => destruct m as [socks s1] end. cbn [c2_unlock_pin set2_unlock_pin c e].
    rewrite (bind_eq _ _ _ _ _ (long_secret pin ENCRYPT_MAX_LEN s1 He Hl)). reflexivity. }
  change (commit2 c s) with (store2 c (put_config2 c s)). rewrite E.
  destruct (store2_good e (put_config2 c s) Hs Hg (or_introl Hf)) as (w & s1 & -> & Er & _ & _). cbn [snd].
  destruct (load2_good e (new_process b (put_file2 (Some w) (put_faults (drop 1 (co_faults (put_config2 c s))) s1)))) as (s2 & -> & _);
    [by right|done| |done].
  unfold load_config2, load_path. cbn [co_file2 new_process put_file2 mbind option_bind]. rewrite Er. cbn [mbind option_bind].
  destruct Hg as (? & ? & _). by rewrite config2_roundtrip.
Qed.

Lemma load_id_password c s : cf_password (load_id c s).1.1 = cf_password c.
Proof. unfold load_id. run_monad. by repeat case_match; simplify_eq/=. Qed.
Lemma load2_config x : keeps (λ s, co_config s = x) load2.
Proof.
  unfold load2, store2.
  repeat first [keeps_basic | apply (quiet_reads co_config); [done|]; intros ?; solve [apply q_encrypt_str | apply q_decrypt_str] ].
  all: apply keeps_modify; intros t ?; by destruct (co_faults t) as [|[] ?]; try destruct (confy_write _).
Qed.
(** A stored password that this machine cannot decrypt is accepted as it stands:
    who has read the file has the password. *)
Theorem undecryptable_password_is_open (b s s1 : Core) (x : string) :
  cf_password (load_config s) = "00" +:+ x →
  decode_permanent_password_h1_from_storage ("00" +:+ x) = None →
  decrypt_str_or_original ("00" +:+ x) PASSWORD_ENC_VERSION (new_process b s) = (("00" +:+ x, false, false), s1) →
  matches_permanent_password_plain ("00" +:+ x) (start b s).2 = true.
Proof.
  intros Hp Hd Hc.
  assert (cf_password (co_config (start b s).2) = "00" +:+ x) as E.
  { rewrite start_run. assert (cf_password (load (new_process b s)).1 = "00" +:+ x) as El.
    { unfold load. rewrite (bind_eq _ _ _ _ _ (eq_refl : gets load_config (new_process b s) = (_, _))).
      change (load_config (new_process b s)) with (load_config s). set (c := load_config s) in *.
      rewrite (bind_eq _ _ _ (c, false) s1).
      2: { unfold migrate_permanent_password_to_hashed_storage, is_permanent_password_hashed_storage. rewrite Hp, Hd, starts_version.
        rewrite (bool_decide_eq_false_2 (_ = ""%string)), (bool_decide_eq_false_2 (is_Some None)) by (done || by intros [? ?]).
        cbn [negb orb andb]. by rewrite (bind_eq _ _ _ _ _ Hc). }
      rewrite bind_run. pose proof (load_id_password c s1) as Hi. destruct (load_id c s1) as [[c' st] s2]. cbn [fst] in Hi.
      cbn [orb]. rewrite bind_run. rewrite <- Hp, <- Hi. by destruct st; [destruct (store c' s2)|]. }
    destruct (load (new_process b s)) as [c s2]. cbn [fst] in El.
    pose proof (load2_config c (put_config c s2) eq_refl) as Hk.
    destruct (load2 (put_config c s2)) as [c2 s3]. rewrite (temporary_reads co_config) by done. cbn in Hk |- *. by rewrite Hk. }
  unfold matches_permanent_password_plain. rewrite E, !(bool_decide_eq_false_2 (_ = ""%string)), Hd by done.
  by apply bool_decide_eq_true_2.
Qed.
End core.

#[local] Existing Instances TestJson TestConfy TestSodium TestRng TestSha2 TestConfyLaws TestSodiumLaws TestSha2Law.
Definition sample : Config := mkConfig "123456789" "" "" "salt" ([1; 2], [3]) true {["host"%string := true]}.
Definition sample2 : Config2 :=
  mkConfig2 "a.b" 1 4 "2468" "" (Some (mkSocks5Server "p:1080" "u" "pw")) {["lang"%string := "en"%string]}.
