(* ===== verification/Pages.v ===== *)
(** * Pages and languages: [src/web.rs] (pages, [set_lang], CORS), [detect] and [get] of [src/i18n.rs]

    What the HTML pages are rendered from: the template, its title, the token of
    a reset, and the language with its table of texts.  The templates and the
    tables themselves are not here. *)
From Stdlib Require Import Ascii.
From S2P Require Import Prelude Text TextFacts Database Api.
Local Open Scope Z_scope.

Definition i18n_detect (lang_cookie accept_lang : option string) : string :=
  if bool_decide (lang_cookie = Some "en"%string) then "en"%string
  else if bool_decide (lang_cookie = Some "zh"%string) then "zh"%string
  else match accept_lang with
       | Some al => if contains "zh" al then "zh"%string else "zh"%string
       | None => "zh"%string
       end.
(** The two tables of texts. *)
Inductive Texts : Type := zh | en.
Definition texts_of (lang : string) : Texts := if bool_decide (lang = "en"%string) then en else zh.

(** [headers.get(..).and_then(to_str)] *)
Definition header (name : string) (h : HeaderMap) : option string := default None (h !! name).
Definition lang_part (part : string) : option string := trim <$> strip_prefix "lang=" (trim part).
Fixpoint find_map {A B} (f : A → option B) (l : list A) : option B :=
  match l with [] => None | a :: l => match f a with Some b => Some b | None => find_map f l end end.
Definition detect_lang (h : HeaderMap) : string :=
  i18n_detect (cookies ← header "cookie" h; find_map lang_part (split_on ";" cookies)) (header "accept-language" h).

Inductive PageName : Type :=
| home | login | register | forgot_password | reset_password (params : gmap string string)
| dashboard | devices | users | monitor | subscription | admin_subscriptions | admin_settings.
(** The title: a text of its own or a field of the table. *)
Inductive Title : Type := Own (t : string) | Field (name : string).
Record PageData : Type := mkPageData {
  pg_template : string;
  pg_title : Title;
  pg_token : option string;
  pg_texts : Texts;
  pg_lang : string;
}.
Definition page_of (p : PageName) (h : HeaderMap) : PageData :=
  let lang := detect_lang h in
  let data template title := mkPageData template title None (texts_of lang) lang in
  match p with
  | home => data "home.html" (Own "NAT Server — 安全内网穿透服务")
  | login => data "login.html" (Field "login_title")
  | register => data "register.html" (Field "register_title")
  | forgot_password => data "forgot_password.html" (Field "forgot_password")
  | reset_password params =>
    mkPageData "reset_password.html" (Own "重置密码") (Some (default ""%string (params !! "token"%string))) (texts_of lang) lang
  | dashboard => data "dashboard.html" (Field "dashboard_title")
  | devices => data "devices.html" (Field "devices_title")
  | users => data "users.html" (Field "users_title")
  | monitor => data "monitor.html" (Field "monitor_title")
  | subscription => data "subscription.html" (Field "subscription_title")
  | admin_subscriptions => data "admin_subscriptions.html" (Field "admin_sub_title")
  | admin_settings => data "admin_settings.html" (Field "settings_title")
  end%string.

Record Redirect : Type := mkRedirect { rd_status : Z; rd_location : string; rd_set_cookie : string }.
Definition set_lang (h : HeaderMap) (lang : option string) : Redirect :=
  let lang := if bool_decide (lang = Some "en"%string) then "en"%string else "zh"%string in
  mkRedirect 302 (default "/dashboard"%string (header "referer" h)) ("lang=" +:+ lang +:+ "; Path=/; SameSite=Lax; Max-Age=31536000").

(** [cors_middleware]: the headers every answer gets. *)
Definition cors_headers (m : gmap string string) : gmap string string :=
  <["Access-Control-Allow-Headers" := "Content-Type, Authorization"]>
    (<["Access-Control-Allow-Methods" := "GET, POST, PUT, DELETE, OPTIONS"]> (<["Access-Control-Allow-Origin" := "*"]> m))%string.

(** ** Properties *)

(** What a browser sends back of a cookie: all before its attributes. *)
Definition cookie_pair (set_cookie : string) : string := default ""%string (head (split_on ";" set_cookie)).

Lemma split_on_join c l :
  l ≠ [] → Forall (λ w, has_char c w = false) l → split_on c (join (String c "") l) = l.
Proof.
  intros Hne Hl. induction Hl as [|w l Hw Hl IH]; [done|]. destruct l as [|v l]; [by apply split_on_none|].
  change (join (String c "") (w :: v :: l)) with (w +:+ (String c "" +:+ join (String c "") (v :: l))).
  change (String c "" +:+ join (String c "") (v :: l)) with (String c (join (String c "") (v :: l))).
  by rewrite split_on_app, split_on_none, IH.
Qed.
Lemma find_map_app {A B} (f : A → option B) l r : Forall (λ a, f a = None) l → find_map f (l ++ r) = find_map f r.
Proof. intros Hl. induction Hl as [|a l Ha _ IH]; [done|]. cbn. by rewrite Ha. Qed.

(** The language that was chosen is that of the pages a browser asks for
    afterwards, whatever cookies of other names it sends along. *)
Theorem chosen_language_is_shown h lang p h' before sent after :
  header "cookie" h' = Some (join ";" (before ++ sent :: after)) → trim sent = cookie_pair (rd_set_cookie (set_lang h lang)) →
  Forall (λ c, lang_part c = None) before → Forall (λ c, has_char ";" c = false) (before ++ sent :: after) →
  pg_lang (page_of p h') = (if bool_decide (lang = Some "en"%string) then "en"%string else "zh"%string).
Proof.
  intros Hc Hs Hb Hl. assert (pg_lang (page_of p h') = detect_lang h') as -> by by destruct p.
  unfold detect_lang. rewrite Hc. cbn [mbind option_bind]. rewrite split_on_join by (done || by destruct before).
  rewrite find_map_app by done. cbn [find_map]. unfold lang_part. rewrite Hs. unfold set_lang.
  by destruct (bool_decide (lang = _)).
Qed.

(** The preference a browser sends is not used. *)
Theorem accept_language_is_ignored c al : i18n_detect c al = i18n_detect c None.
Proof. unfold i18n_detect. by destruct al as [al|]; [destruct (contains "zh" al)|]. Qed.
