(* ===== verification/ServerStart.v ===== *)
(** * How the servers start: arguments, files, environment, keys

    [init_args] and [get_arg] of src/common.rs, [main] of src/main.rs, [start]
    and the loop around [io_loop] of src/rendezvous_server.rs, [PeerMap::new] of
    src/peer.rs, [start] of src/relay_server.rs, and the key utility
    (src/utils.rs) with its questions to the network ([DocIo]).  clap gives the options it recognised and rust-ini the
    entries of a file; the machine says which ports are free. *)
From Stdlib Require Import Ascii.
From S2P Require Import Prelude Programs AddrMangle Text TextFacts HostText Auth Proto RendezvousCodec Database Keys Peer Rendezvous Api SettingsApi ClientIo.
Local Open Scope Z_scope.

(** ** Arguments: [src/common.rs] *)

Abbreviation Environment := (gmap string string) (only parsing).
Definition arg_name (name : string) : string :=
  map_chars (λ c, if bool_decide (c = "_"%char) then "-"%char else c) (to_uppercase name).
Definition set_vars (l : list (string * string)) (env : Environment) : Environment :=
  foldl (λ env kv, <[arg_name kv.1 := kv.2]> env) env l.
Definition find_arg (name : string) (args : list (string * string)) : option string :=
  snd <$> List.find (λ kv, String.eqb kv.1 name) args.
Definition init_args (ini : string → list (string * string)) (args : list (string * string)) (env : Environment) : Environment :=
  let env := set_vars (ini ".env"%string) env in
  let env := set_vars (ini (default CONFIG_TOML (find_arg "config" args))) env in
  set_vars args env.
Definition get_arg_or (name dflt : string) (env : Environment) : string := default dflt (env !! arg_name name).
Definition get_arg (name : string) : Environment → string := get_arg_or name "".

(** ** [main] of hbbs *)

Definition RMEM : Z := 0.
Record HbbsArgs : Type := mkHbbsArgs {
  ha_port : Z;
  ha_rmem : Z;
  ha_serial : Z;
  ha_db_url : string;
  ha_jwt_secret : string;
  ha_key : string;
}.
Definition db_url (env : Environment) : string := default "./db_v2.sqlite3"%string (env !! "DB_URL"%string).
Definition hbbs_main (env : Environment) : option HbbsArgs :=
  port ← parse_i32 (get_arg_or "port" (to_string RENDEZVOUS_PORT) env);
  if port <? 3 then None else
  Some (mkHbbsArgs port (default RMEM (parse_usize (get_arg "rmem" env))) (default 0 (parse_i32 (get_arg "serial" env)))
    (db_url env) (default "your-secret-key-change-in-production"%string (env !! "JWT_SECRET"%string)) (get_arg_or "key" "-" env)).

(** ** [RendezvousServer::start] *)

Record Machine : Type := mkMachine {
  open_db : string → option Db;
  free_udp6 : Z → bool;
  free_udp4 : Z → bool;
  free_tcp : Z → bool;
  own_ip : option string;
  parse_network : string → option (IpAddr → bool);
  boot_time : Instant;
  key_files : KeyFiles;
}.
Record Running : Type := mkRunning {
  rn_srv : Srv;
  rn_world : World;
  rn_key : string;
  rn_udp : Z;
  rn_tcp : list Z;  (* main, NAT test, WebSocket *)
  rn_test : option SocketAddr;
  rn_env : Environment;
  rn_files : KeyFiles;
}.
Inductive Started (A : Type) : Type :=
| Exited                 (* the process ends *)
| Failed (why : string)  (* an error is returned *)
| Up (a : A).
Arguments Exited {A}.
Arguments Failed {A} _.
Arguments Up {A} _.

(** [port as _] *)
Definition as_port (p : Z) : Z := wrap_u 16 p.
Definition create_udp_listener (m : Machine) (port : Z) : bool := free_udp6 m (as_port port) || free_udp4 m (as_port port).
Definition create_tcp_listener (m : Machine) (port : Z) : bool := free_tcp m (as_port port).
(** The address [TEST_HBBS] asks to test; [None] where the start fails. *)
Definition test_target (test : string) (listening : SocketAddr) : option (option SocketAddr) :=
  if bool_decide (to_lowercase test = "yes"%string) then
    if bool_decide (test = ""%string) then Some (Some listening) else Some <$> parse_socket_addr test
  else Some None.

Section start.
Context `{KeyLib} `{ServerLib}.

Definition start (m : Machine) (env : Environment) (port serial : Z) (key : string) : Started Running :=
  match rendezvous_server_sk key (key_files m) with
  | (None, _) => Exited
  | (Some (key, sk), files) =>
    let nat_port := port - 1 in
    let ws_port := as_i32 (port + 2) in
    match open_db m (db_url env) with
    | None => Failed "database"
    | Some db =>
      let rendezvous_servers := get_servers (get_arg "rendezvous-servers" env) in
      if negb (create_udp_listener m port) then Failed "udp" else
      let software_url := get_arg "software-url" env in
      let mask := parse_network m (get_arg "mask" env) in
      let local_ip := match mask with None => ""%string | Some _ => get_arg_or "local-ip" (default ""%string (own_ip m)) env end in
      let rs := mkSrv [] [] rendezvous_servers (mkInner serial (get_version_from_url software_url) software_url mask local_ip sk) in
      let env := <["PORT_FOR_API"%string := to_string port]> env in
      let rs := parse_relay_servers rs (get_arg "relay-servers" env) in
      if negb (create_tcp_listener m port && create_tcp_listener m nat_port && create_tcp_listener m ws_port) then Failed "tcp" else
      let always := bool_decide (to_uppercase (default ""%string (env !! "ALWAYS_USE_RELAY"%string)) = "Y"%string) in
      match test_target (default ""%string (env !! "TEST_HBBS"%string)) (mkAddr (IpV6 (replicate 16 0)) (as_port port)) with
      | None => Failed "test address"
      | Some test =>
        Up (mkRunning rs (upd_always_use_relay (λ b, b || always) (Rendezvous.start (boot_time m) db)) key (as_port port)
              [as_port port; as_port nat_port; as_port ws_port] test env files)
      end
    end
  end.

(** The process: the arguments, the database, then the server. *)
Definition hbbs (m : Machine) (ini : string → list (string * string)) (args : list (string * string)) (env : Environment)
    : Started (HbbsArgs * Running) :=
  let env := init_args ini args env in
  match hbbs_main env with
  | None => Failed "port"
  | Some a =>
    match open_db m (ha_db_url a) with
    | None => Failed "database"
    | Some _ =>
      match start m env (ha_port a) (ha_serial a) (ha_key a) with
      | Up r => Up (a, r)
      | Failed why => Failed why
      | Exited => Exited
      end
    end
  end.

(** [start] of relay_server.rs: the key to show and the two ports. *)
Definition hbbr_start (files : KeyFiles) (port key : string) : Started (string * Z * Z) :=
  match relay_server_sk key files with
  | (None, _) => Exited
  | (Some key, _) =>
    match parse_int 0 65535 port with None => Failed "port" | Some p => Up (key, p, as_port (p + 2)) end
  end.
End start.

(** The loop of [start]: after a failure of a socket it is made anew, or the
    server ends. *)
Inductive LoopFailure : Type := UdpSocket | Listener3 | Listener2 | Listener.
Definition create_again (m : Machine) (port : Z) (f : LoopFailure) : bool :=
  match f with
  | UdpSocket => create_udp_listener m port
  | Listener => create_tcp_listener m port
  | Listener2 => create_tcp_listener m (port - 1)
  | Listener3 => create_tcp_listener m (as_i32 (port + 2))
  end.
Section loop.
Context `{Bcrypt} `{Uuid} `{Serde} `{SqlTime} `{Jwt} `{Env} `{WireLib} `{ServerLib}.
(** What happens until each failure, and the machine at that time. *)
Fixpoint main_task (port : Z) (key : string) (rs : Srv) (l : list (list Event * LoopFailure * Machine)) : WM (option Srv) :=
  match l with
  | [] => mret (Some rs)
  | (es, f, m) :: l =>
    rs ← io_loop key rs es;
    if create_again m port f then main_task port key rs l else mret None
  end.
End loop.

(** ** The key utility: [src/utils.rs] *)

(** [sign::verify] with the public key. *)
Class VerifyLib : Type := sign_verify : bytes → bytes → option bytes.
Class VerifyLaws `{KeyLib} `{ServerLib} `{VerifyLib} : Prop := {
  verify_signed n m : sign_verify (gen_keypair n).1 (sign (gen_keypair n).2 m) = Some m;
  public_length n : length (gen_keypair n).1 = 32%nat;
}.
Inductive UtilRun : Type :=
| Printed (lines : list string)   (* exit code 0 *)
| Refused (lines : list string)   (* exit code 1 *)
| Doctor (server : string).       (* asks the network *)
Definition print_help : list string :=
  ["Usage:"; "    rustdesk-utils [command]"; ""; "Available Commands:";
   "    genkeypair                                   Generate a new keypair";
   "    validatekeypair [public key] [secret key]    Validate an existing keypair";
   "    doctor [rustdesk-server]                     Check for server connection problems"]%string.
Definition error_then_help (msg : string) : UtilRun := Refused (["ERROR: " +:+ msg; ""%string] ++ print_help).

Section utils.
Context `{KeyLib} `{ServerLib} `{VerifyLib}.

Definition gen_keypair_ (n : nat) : list string :=
  let '(pk, sk) := gen_keypair n in ["Public Key:  " +:+ b64_encode pk; "Secret Key:  " +:+ b64_encode sk].
Definition TEST_DATA : bytes := str_bytes "This is meh.".
Definition validate_keypair (pk sk : string) : result string unit :=
  match b64_decode sk with
  | None => Err "Invalid secret key"%string
  | Some secret_key =>
    if negb (length secret_key =? SECRETKEYBYTES)%nat then Err "Invalid Secret key"%string else
    match b64_decode pk with
    | None => Err "Invalid public key"%string
    | Some public_key =>
      if negb (length public_key =? 32)%nat then Err "Invalid Public key"%string else
      match sign_verify public_key (sign secret_key TEST_DATA) with
      | Some data => if bool_decide (data = TEST_DATA) then Ok tt else Err "Key pair is INVALID"%string
      | None => Err "Key pair is INVALID"%string
      end
    end
  end.
(** [main] with the arguments after the name; [n] numbers the drawn pair. *)
Definition utils_main (n : nat) (args : list string) : UtilRun :=
  match args with
  | [] => Refused print_help
  | command :: args =>
    let command := to_lowercase command in
    if bool_decide (command = "genkeypair"%string) then Printed (gen_keypair_ n)
    else if bool_decide (command = "validatekeypair"%string) then
      match args with
      | pk :: sk :: _ =>
        match validate_keypair pk sk with Ok _ => Printed ["Key pair is VALID"%string] | Err e => Refused [e] end
      | _ => error_then_help "You must supply both the public and secret key"
      end
    else if bool_decide (command = "doctor"%string) then
      match args with server :: _ => Doctor server | [] => error_then_help "You must supply a rustdesk-server address" end
    else Refused print_help
  end.
End utils.

(** ** The checks of [doctor]: [src/utils.rs] *)

(** A connection that is tried, with the milliseconds it took; both directions
    of the names of machines; a line that is printed. *)
Inductive DocIo : Type → Type :=
| DConnect (addr : string) : DocIo (option Z)
| DReverse (ip : IpAddr) : DocIo (option string)
| DLookup (name : string) : DocIo (option (list IpAddr))
| DPrint (line : string) : DocIo unit.
Definition doctor_tcp (address : IpAddr) (port desc : string) : Prog DocIo unit :=
  r ← ask (DConnect (ip_string address +:+ ":" +:+ port));
  ask (DPrint (match r with
               | Some elapsed => "TCP Port " +:+ port +:+ " (" +:+ desc +:+ "): OK in " +:+ to_string elapsed +:+ " ms"
               | None => "TCP Port " +:+ port +:+ " (" +:+ desc +:+ "): ERROR"
               end)).
Definition DOCTOR_PORTS : list (string * string) :=
  [("21114", "API"); ("21115", "hbbs extra port for nat test"); ("21116", "hbbs"); ("21117", "hbbr tcp");
   ("21118", "hbbs websocket"); ("21119", "hbbr websocket")]%string.
Fixpoint each {E : Type → Type} {A} (f : A → Prog E unit) (l : list A) : Prog E unit :=
  match l with [] => mret tt | a :: l => f a;; each f l end.
Definition is_v4 (ip : IpAddr) : bool := match ip with IpV4 _ _ _ _ => true | IpV6 _ => false end.
Definition truth (b : bool) : string := if b then "true" else "false".
Definition doctor_ip (server_ip_address : IpAddr) (server_address : option string) : Prog DocIo unit :=
  ask (DPrint (nl +:+ "Checking IP address: " +:+ ip_string server_ip_address));;
  ask (DPrint ("Is IPV4: " +:+ truth (is_v4 server_ip_address)));;
  ask (DPrint ("Is IPV6: " +:+ truth (negb (is_v4 server_ip_address))));;
  r ← ask (DReverse server_ip_address);
  match r with
  | None => Stop Panicked
  | Some reverse =>
    match server_address with
    | None => mret tt
    | Some name =>
      ask (DPrint (if String.eqb reverse name then "Reverse DNS lookup: '" +:+ reverse +:+ "' MATCHES server address"
                   else "Reverse DNS lookup: '" +:+ reverse +:+ "' DOESN'T MATCH server address '" +:+ name +:+ "'"))
    end;;
    each (λ p, doctor_tcp server_ip_address p.1 p.2) DOCTOR_PORTS
  end.
Definition doctor (server_address_unclean : string) : Prog DocIo unit :=
  let server_address := to_lowercase (trim server_address_unclean) in
  ask (DPrint ("Checking server:  " +:+ server_address +:+ nl));;
  match parse_ip server_address with
  | Some ip => doctor_ip ip None
  | None =>
    r ← ask (DLookup server_address);
    match r with
    | None => Stop Panicked
    | Some ips =>
      ask (DPrint ("Found " +:+ to_string (zlen ips) +:+ " IP addresses: "));;
      each (λ ip, ask (DPrint (" - " +:+ ip_string ip))) ips;;
      each (λ ip, doctor_ip ip (Some server_address)) ips
    end
  end.
