(* ===== verification/ServerStartSpec.v ===== *)
(** * What a start of the servers does

    Of [ServerStart]: which source of an argument wins, what the files cannot
    set and what follows for the tokens of the web server, the ports, starts
    that always fail, the keys of the key utility and what its checks ask. *)
From Stdlib Require Import Ascii.
From S2P Require Import Prelude Programs AddrMangle Text TextFacts HostText Auth Proto RendezvousCodec Database Instances Subscription Orders.
From S2P Require Import Keys Peer Rendezvous Api Payment SettingsApi Web WebSpec ClientIo ServerStart.
Local Open Scope Z_scope.

(** ** Arguments *)

(** The last value a source has for the variable [k]. *)
Definition last_named (k : string) (l : list (string * string)) : option string :=
  snd <$> last (filter (λ kv, arg_name kv.1 = k) l).
Definition first_of {A} (a b : option A) : option A := match a with Some _ => a | None => b end.
Lemma set_vars_lookup l env k : set_vars l env !! k = first_of (last_named k l) (env !! k).
Proof.
  unfold set_vars, last_named. induction l as [|[n v] l IH] using rev_ind; [done|].
  rewrite foldl_app, filter_app. cbn [foldl fst snd]. rewrite filter_cons, filter_nil. cbn [fst].
  destruct (decide (arg_name n = k)) as [<-|Hn].
  - rewrite last_snoc. by simplify_map_eq.
  - rewrite app_nil_r. by simplify_map_eq.
Qed.

(** Of an argument the command line wins over the configuration file, that
    over the file .env, and that over the environment; in a file the last entry
    counts, and the default only where there is none. *)
Theorem argument_sources (name dflt : string) ini args (env : gmap string string) :
  let k := arg_name name in
  get_arg_or name dflt (init_args ini args env) =
  default dflt (first_of (last_named k args)
    (first_of (last_named k (ini (default CONFIG_TOML (find_arg "config" args))))
      (first_of (last_named k (ini ".env"%string)) (env !! k)))).
Proof. unfold get_arg_or, init_args. by rewrite !set_vars_lookup. Qed.

(** No source but the environment has a name with a low line. *)
Lemma arg_name_no_low_line s : has_char "_" (arg_name s) = false.
Proof.
  unfold arg_name. induction (to_uppercase s) as [|c r IH]; [done|]. cbn [map_chars has_char]. rewrite IH.
  destruct (bool_decide (c = _)) eqn:E; [done|]. by rewrite E.
Qed.
Lemma low_line_from_environment ini args (env : gmap string string) k :
  has_char "_" k = true → init_args ini args env !! k = env !! k.
Proof.
  intros Hk. unfold init_args. rewrite !set_vars_lookup.
  assert (∀ l, last_named k l = None) as Hl; [|by rewrite !Hl].
  intros l. unfold last_named. induction l as [|kv l IH]; [done|]. rewrite filter_cons_False; [done|].
  intros E. pose proof (arg_name_no_low_line kv.1) as Ha. by rewrite E, Hk in Ha.
Qed.

(** ** The secret of the tokens *)

Section secret.
Context `{Jwt} `{!JwtLaws}.

(** A secret for tokens that is written to .env or to a configuration file is
    not used: unless the environment of the process has one, tokens are signed
    with the secret of the source code, and whoever signs with that one is let
    in as the administrator. *)
Theorem secret_in_files_is_ignored {A} ini args (env : gmap string string) a (u : User) tk h (k : Z → Handler A) d :
  env !! "JWT_SECRET"%string = None → hbbs_main (init_args ini args env) = Some a →
  faults d = [] → users d !! user_id u = Some u → is_admin_row u = true → - 2 ^ 63 <= user_id u < 2 ^ 63 →
  jwt_encode "your-secret-key-change-in-production" (claims_json (Web.login_claims u None (clock d))) = Some tk →
  extract_bearer_token h = Ok tk →
  with_caller (ha_jwt_secret a) h (λ c, require_admin c (k c)) d = k (user_id u) d.
Proof.
  intros He Ha Hf Hu Hadm Hid Htk Hh.
  assert (ha_jwt_secret a = "your-secret-key-change-in-production"%string) as ->.
  { unfold hbbs_main in Ha. rewrite (low_line_from_environment ini args env "JWT_SECRET"), He in Ha by done.
    destruct (parse_i32 (get_arg_or _ _ _)) as [p|]; cbn [mbind option_bind] in Ha; [|done]. destruct (p <? 3); [done|]. by injection Ha as <-. }
  unfold with_caller. rewrite bind_run. cbn [gets].
  rewrite (login_token_caller _ u None (clock d) tk h (clock d)) by (done || lia).
  unfold require_admin, db_user_is_admin, get_user_by_id. rewrite !bind_run, query_ok, Hu by done. cbn [mret M_ret].
  by rewrite Hadm.
Qed.
End secret.

(** ** Ports *)

(** A server that is up listens on the ports of its number, the one below and
    the second above, modulo 2^16, and the numbers it takes are at least 3. *)
Theorem hbbs_listens `{KeyLib} `{ServerLib} m ini args env a r :
  hbbs m ini args env = Up (a, r) →
  3 <= ha_port a ∧ rn_udp r = ha_port a mod 2 ^ 16 ∧
  rn_tcp r = [ha_port a mod 2 ^ 16; (ha_port a - 1) mod 2 ^ 16; (ha_port a + 2) mod 2 ^ 16].
Proof.
  unfold hbbs. intros E. destruct (hbbs_main _) as [a'|] eqn:Ea; [|done]. destruct (open_db _ _); [|done].
  assert (3 <= ha_port a') as Hp.
  { unfold hbbs_main in Ea. destruct (parse_i32 (get_arg_or _ _ _)) as [p|]; cbn [mbind option_bind] in Ea; [|done].
    destruct (p <? 3) eqn:Ep; [done|]. injection Ea as <-. cbn. lia. }
  destruct (start _ _ _ _ _) as [| |r'] eqn:Es; [done..|]. injection E as -> ->. split; [done|].
  unfold start in Es. destruct (rendezvous_server_sk _ _) as [[[key sk]|] files]; [|done].
  destruct (open_db _ _); [|done]. cbv zeta in Es. destruct (negb _); [done|]. destruct (negb _); [done|].
  destruct (test_target _ _); [|done]. injection Es as <-. cbn [rn_udp rn_tcp]. unfold as_port, wrap_u. split; [done|].
  do 3 f_equal. unfold as_i32. rewrite (Z.mod_eq _ (2 ^ 32)) by done.
  replace (ha_port a + 2 + 2 ^ 31 - 2 ^ 32 * ((ha_port a + 2 + 2 ^ 31) / 2 ^ 32) - 2 ^ 31)
    with (ha_port a + 2 + (- (2 ^ 16) * ((ha_port a + 2 + 2 ^ 31) / 2 ^ 32)) * 2 ^ 16) by lia.
  by rewrite Z.mod_add.
Qed.

(** With a port of the configuration file alone, and no file of its own, the
    relay listens on the port of the rendezvous server. *)
Theorem relay_takes_port_of_hbbs ini fs args (env : gmap string string) a v :
  hbbs_main (init_args ini args env) = Some a → args = [] → fs !! HBBR_TOML = None →
  ini CONFIG_TOML = [("port"%string, v)] → (hbbr_main ini fs env None None).1 = to_string (ha_port a).
Proof.
  intros Ha -> Hfs Hini.
  assert (get_arg_or "port" (to_string RENDEZVOUS_PORT) (init_args ini [] env) = v) as Hv.
  { unfold get_arg_or, init_args. rewrite !set_vars_lookup. change (default CONFIG_TOML (find_arg "config" [])) with CONFIG_TOML.
    by rewrite Hini. }
  unfold hbbs_main in Ha. rewrite Hv in Ha. destruct (parse_i32 v) as [p|] eqn:Ep; [|done]. cbn [mbind option_bind] in Ha.
  destruct (p <? 3) eqn:E3; [done|]. injection Ha as <-. cbn [ha_port].
  unfold hbbr_main. rewrite Hini, Hfs. unfold load_flat_env at 1, load_hbbr_toml_env. cbn [foldl fst snd default].
  change (to_uppercase "port") with "PORT"%string. rewrite lookup_insert_eq. cbn [mbind option_bind]. rewrite Ep.
  destruct (0 <? p) eqn:E0; [done|lia].
Qed.

(** ** Starts that fail, and sockets that do *)

Lemma has_char_lower s : has_char ":" s = true → has_char ":" (to_lowercase s) = true.
Proof.
  unfold to_lowercase. induction s as [|c s IH]; [done|]. cbn [has_char map_chars]. intros [E|E]%orb_true_iff.
  - bool_simp. by subst.
  - rewrite IH by done. by rewrite orb_true_r.
Qed.
Lemma yes_is_no_address t : to_lowercase t = "yes"%string → parse_socket_addr t = None.
Proof.
  intros E. assert (has_char ":" t = false) as Hc.
  { destruct (has_char ":" t) eqn:Hc; [|done]. apply has_char_lower in Hc. by rewrite E in Hc. }
  unfold parse_socket_addr. destruct (strip_prefix "[" t) as [rest|] eqn:Es.
  - apply strip_prefix_some in Es as ->. by vm_compute in E.
  - by rewrite cut_none.
Qed.
(** With [TEST_HBBS] set to yes, which asks for the test of the server, it never
    starts: the address to test is read from the same text. *)
Theorem asked_test_never_starts `{KeyLib} `{ServerLib} m (env : gmap string string) port serial key t r :
  env !! "TEST_HBBS"%string = Some t → to_lowercase t = "yes"%string → start m env port serial key ≠ Up r.
Proof.
  intros Ht Hy. unfold start. destruct (rendezvous_server_sk _ _) as [[[k sk]|] files]; [|done].
  destruct (open_db _ _); [|done]. cbv zeta. destruct (negb _); [done|]. destruct (negb _); [done|].
  rewrite lookup_insert_ne, Ht by done. cbn [default from_option id]. unfold test_target.
  rewrite bool_decide_eq_true_2, bool_decide_eq_false_2, yes_is_no_address by (done || by intros ->). done.
Qed.

Section loop.
Context `{Bcrypt} `{Uuid} `{Serde} `{SqlTime} `{Jwt} `{Env} `{WireLib} `{ServerLib}.
Lemma io_loop_app key rs es1 es2 w :
  io_loop key rs (es1 ++ es2) w = (rs ← io_loop key rs es1; io_loop key rs es2) w.
Proof.
  revert rs w. induction es1 as [|e es1 IH]; intros rs w; cbn [app io_loop]; [done|].
  rewrite !bind_run. destruct (io_loop_step key rs e w) as [rs1 w1]. rewrite IH. by rewrite !bind_run.
Qed.
(** As long as its sockets can be made again, failures of them are not seen in
    what the server keeps and does. *)
Theorem failures_of_sockets_keep_state port key rs l w :
  Forall (λ x, create_again x.2 port x.1.2 = true) l →
  main_task port key rs l w = (rs ← io_loop key rs (l ≫= λ x, x.1.1); mret (Some rs)) w.
Proof.
  intros Hl. revert rs w. induction Hl as [|[[es f] m] l Hf _ IH]; intros rs w; [done|].
  rewrite bind_cons. cbn [main_task fst]. cbn in Hf. rewrite Hf, !bind_run, io_loop_app, bind_run.
  destruct (io_loop key rs es w) as [rs1 w1]. by rewrite IH, bind_run.
Qed.
End loop.

(** ** Keys *)

(** A pair the key utility prints is valid for it, and servers started with the
    secret key ask for the public key. *)
Theorem printed_keys_work `{KeyLib} `{ServerLib} `{VerifyLib} `{!KeyLaws} `{!VerifyLaws} n f port p :
  let '(pk, sk) := gen_keypair n in
  b64_encode pk ≠ ""%string → asks_generation (b64_encode pk) = false → parse_int 0 65535 port = Some p →
  utils_main n ["validatekeypair"; b64_encode pk; b64_encode sk]%string = Printed ["Key pair is VALID"%string] ∧
  rendezvous_server_sk (b64_encode sk) f = (Some (b64_encode pk, Some sk), f) ∧
  hbbr_start f port (b64_encode sk) = Up (b64_encode pk, p, as_port (p + 2)).
Proof.
  pose proof (keypair_length n) as Hl. pose proof (keypair_public n) as Hp. pose proof (public_length n) as Hl'.
  pose proof (verify_signed n TEST_DATA) as Hv. destruct (gen_keypair n) as [pk sk]. cbn [fst snd] in *. intros He Ha Hport.
  assert (secret_given (b64_encode sk) = Some (b64_encode pk, sk)) as Hs.
  { unfold secret_given. rewrite b64_roundtrip. cbn [mbind option_bind]. by rewrite Hl, Nat.eqb_refl, Hp. }
  split; [|split].
  - assert (validate_keypair (b64_encode pk) (b64_encode sk) = Ok tt) as E.
    { unfold validate_keypair. rewrite !b64_roundtrip, Hl, Hl', Nat.eqb_refl, Hv. cbn [negb Nat.eqb].
      by rewrite bool_decide_eq_true_2. }
    change (utils_main n _) with
      (match validate_keypair (b64_encode pk) (b64_encode sk) with Ok _ => Printed ["Key pair is VALID"%string] | Err e => Refused [e] end).
    by rewrite E.
  - unfold rendezvous_server_sk. by rewrite Hs, bool_decide_eq_false_2, Ha.
  - unfold hbbr_start, relay_server_sk. by rewrite Hs, Ha, Hport.
Qed.

(** ** The checks of the key utility *)

(** The connections that were tried. *)
Definition tried (tr : Trace DocIo) : list string := omap (λ o, match o with obs (DConnect a) _ => Some a | _ => None end) tr.
Definition port_addrs (ip : IpAddr) : list string := (λ p, ip_string ip +:+ ":" +:+ p.1) <$> DOCTOR_PORTS.
(** The quiet questions: what is printed and the names of machines. *)
Lemma tried_skip tr o : match o with obs (DConnect _) _ => False | _ => True end → tried (tr ++ [o]) = tried tr.
Proof. intros Ho. unfold tried. rewrite omap_app. destruct o as [X [] x]; [done|..]; cbn; by rewrite app_nil_r. Qed.
Lemma wp_tcp ip p d tr : wp (doctor_tcp ip p d) tr (λ tr' _, tried tr' = tried tr ++ [ip_string ip +:+ ":" +:+ p]).
Proof. intros r u. cbn [wp]. rewrite tried_skip by done. unfold tried. by rewrite omap_app. Qed.
Lemma wp_ports ip l : ∀ tr, wp (each (λ p : string * string, doctor_tcp ip p.1 p.2) l) tr
  (λ tr' _, tried tr' = tried tr ++ ((λ p, ip_string ip +:+ ":" +:+ p.1) <$> l)).
Proof.
  induction l as [|p l IH]; intros tr; [cbn; by rewrite app_nil_r|]. cbn [each]. apply wp_bind. eapply wp_mono; [|apply wp_tcp].
  intros tr1 [] E1. eapply wp_mono; [|apply IH]. intros tr2 [] E2. cbn [fmap list_fmap]. rewrite E2, E1. by rewrite <- app_assoc.
Qed.
Lemma wp_said {X B} (e : DocIo X) (k : X → Prog DocIo B) tr Q :
  (∀ x, wp (k x) (tr ++ [obs e x]) Q) → wp (ask e ≫= k) tr Q.
Proof. intros Hk. apply wp_bind. intros x. apply Hk. Qed.
Lemma wp_doctor_ip ip name tr : wp (doctor_ip ip name) tr (λ tr' _, tried tr' = tried tr ++ port_addrs ip).
Proof.
  unfold doctor_ip. apply wp_said. intros []. apply wp_said. intros []. apply wp_said. intros []. apply wp_said. intros [reverse|]; [|exact I].
  destruct name as [name|].
  - apply wp_said. intros [].  eapply wp_mono; [|apply wp_ports]. intros tr' [] Ht. cbn beta in Ht. rewrite Ht. by rewrite !tried_skip.
  - eapply wp_mono; [|apply wp_ports]. intros tr' [] Ht. cbn beta in Ht. rewrite Ht. by rewrite !tried_skip.
Qed.
(** What was asked stays asked. *)
Lemma wp_keeps {X} (q : Obs DocIo) (p : Prog DocIo X) : ∀ tr (R : Trace DocIo → X → Prop),
  q ∈ tr → wp p tr R → wp p tr (λ tr' x, q ∈ tr' ∧ R tr' x).
Proof.
  induction p as [a|h|Y e k IHp]; intros tr R Hq Hp; [done|done|]. intros x. apply IHp; [|apply Hp].
  apply elem_of_app. by left.
Qed.
Lemma wp_lines (ips : list IpAddr) : ∀ tr,
  wp (each (λ ip, ask (DPrint (" - " +:+ ip_string ip))) ips) tr (λ tr' _, tried tr' = tried tr).
Proof.
  induction ips as [|ip l IH]; intros tr; [done|]. cbn [each]. apply wp_said. intros [].
  eapply wp_mono; [|apply IH]. intros tr' [] Ht. cbn beta in Ht. by rewrite Ht, tried_skip.
Qed.
Lemma wp_addresses (ips : list IpAddr) name : ∀ tr,
  wp (each (λ ip, doctor_ip ip name) ips) tr (λ tr' _, tried tr' = tried tr ++ (ips ≫= port_addrs)).
Proof.
  induction ips as [|ip l IH]; intros tr; [cbn; by rewrite app_nil_r|]. cbn [each]. apply wp_bind.
  eapply wp_mono; [|apply wp_doctor_ip]. intros tr1 [] E1. eapply wp_mono; [|apply IH]. intros tr2 [] E2.
  cbn beta in E1, E2. rewrite E2, E1. symmetry. apply app_assoc.
Qed.
(** A check that comes to its end has tried the six ports of every address of
    the server, each once and in their order. *)
Theorem doctor_tries_every_port server :
  wp (doctor server) [] (λ tr _,
    match parse_ip (to_lowercase (trim server)) with
    | Some ip => tried tr = port_addrs ip
    | None => ∃ ips : list IpAddr,
        obs (DLookup (to_lowercase (trim server))) (Some ips) ∈ tr ∧ tried tr = ips ≫= port_addrs
    end).
Proof.
  unfold doctor. apply wp_said. intros []. destruct (parse_ip _) as [ip|]; [apply wp_doctor_ip|].
  apply wp_said. intros [ips|]; [|exact I]. apply wp_said. intros [].
  eapply wp_mono; [|apply (wp_keeps (obs (DLookup (to_lowercase (trim server))) (Some ips)) _ _ (λ tr _, tried tr = ips ≫= port_addrs))].
  - intros tr [] Ht. exists ips. exact Ht.
  - rewrite !elem_of_app, !list_elem_of_singleton. auto.
  - apply wp_bind. eapply wp_mono; [|apply wp_lines]. intros tr1 [] E1. eapply wp_mono; [|apply wp_addresses].
    intros tr2 [] E2. cbn beta in E1, E2. by rewrite E2, E1, !tried_skip.
Qed.
(** An address that has no name ends the check before any port was tried. *)
Theorem doctor_needs_a_name {W} (h : Programs.Handler DocIo W) ip name w :
  (∀ line w, h _ (DPrint line) w = Some (tt, w)) → h _ (DReverse ip) w = Some (None, w) →
  run h (doctor_ip ip name) w = (Stopped Panicked, w).
Proof. intros Hp Hr. unfold doctor_ip. cbn. by rewrite !Hp, Hr. Qed.

(** ** At concrete inputs *)

Definition env_file (f : string) : list (string * string) :=
  if bool_decide (f = ".env"%string) then [("JWT_SECRET", "5f1d9c")]%string else [].
Definition hbbs_args : HbbsArgs := default (mkHbbsArgs 0 0 0 "" "" "") (hbbs_main (init_args env_file [] ∅)).
Definition forged : string :=
  default ""%string (demo_encode "your-secret-key-change-in-production" (claims_json (Web.login_claims ann None 0))).
Definition forged_headers : HeaderMap := {["authorization"%string := Some ("Bearer " +:+ forged)%string]}.
Lemma secret_in_files_is_ignored_witness :
  ha_port hbbs_args = 21116 ∧
  (@with_caller DemoJwt Z (ha_jwt_secret hbbs_args) forged_headers (λ c, require_admin c (mret (Ok (api_success c)))) admin_db).1
  = Ok (api_success 1).
Proof.
  split; [vm_compute; reflexivity|].
  rewrite (@secret_in_files_is_ignored DemoJwt DemoJwtLaws Z env_file [] ∅ hbbs_args ann forged
    forged_headers (λ c, mret (Ok (api_success c))) admin_db).
  all: first [reflexivity | vm_compute; reflexivity | cbn; lia | idtac].
Defined.
