(* ===== verification/Secure.v ===== *)
(** * Streams with a key: [tcp.rs], [websocket.rs] and [stream.rs]

    The secret boxes of a connection ([Encrypt]), frames over TCP
    ([FramedStream]), messages over a web socket ([WsFramedStream]) and the
    stream that is one of them.  The transport itself, [Framed] and
    tungstenite, is what a stream is handed: the payloads that arrive, and how
    a flush ends.  Theorems are in [SecureSpec]. *)
From S2P Require Import Prelude AddrMangle BytesCodec.
Local Open Scope Z_scope.
Import AddrMangle.

(** sodiumoxide: [secretbox] with data, nonce and key, and [box_::open] with
    data, nonce, public and secret key. *)
Class SecretBox : Type := {
  seal : bytes → bytes → bytes → bytes;
  open : bytes → bytes → bytes → option bytes;
  public_open : bytes → bytes → bytes → bytes → option bytes;
}.
Definition NONCEBYTES : nat := 24.
Definition KEYBYTES_ : Z := 32.
Definition PUBLICKEYBYTES : Z := 32.

(** ** Secret boxes with counters *)

(** The key, and the numbers of the boxes made and opened. *)
Record Encrypt : Type := mkEncrypt { en_key : bytes; en_sealed : Z; en_opened : Z }.
Definition Encrypt_new (key : bytes) : Encrypt := mkEncrypt key 0 0.

Definition get_nonce (seqnum : Z) : bytes := le_bytes 8 seqnum ++ replicate (NONCEBYTES - 8) 0.
(** [+= 1] of a [u64], which wraps in a release build. *)
Definition next_seq (n : Z) : Z := wrap_u 64 (n + 1).

Inductive StreamError : Type :=
| DecryptionError | CodecFailure (e : BytesCodec.CodecError) | WebSocketError | IoFailure | TimedOut_ | NotSerialized.

Section secure.
Context `{SecretBox}.

Definition dec (e : Encrypt) (b : bytes) : result StreamError bytes * Encrypt :=
  if zlen b <=? 1 then (Ok b, e) else
  let e := mkEncrypt (en_key e) (en_sealed e) (next_seq (en_opened e)) in
  match open b (get_nonce (en_opened e)) (en_key e) with
  | Some res => (Ok res, e)
  | None => (Err DecryptionError, e)
  end.

Definition enc (e : Encrypt) (data : bytes) : bytes * Encrypt :=
  let e := mkEncrypt (en_key e) (next_seq (en_sealed e)) (en_opened e) in
  (seal data (get_nonce (en_sealed e)) (en_key e), e).

(** The handshake: the symmetric key a box of the other side holds. *)
Inductive HandshakeError : Type := PkLength (n : Z) | BoxFailure | SecretKeyLength.
Definition decode_handshake (symmetric_data their_pk_b our_sk_b : bytes) : result HandshakeError bytes :=
  if negb (zlen their_pk_b =? PUBLICKEYBYTES) then Err (PkLength (zlen their_pk_b)) else
  match public_open symmetric_data (replicate NONCEBYTES 0) their_pk_b our_sk_b with
  | None => Err BoxFailure
  | Some symmetric_key =>
    if negb (zlen symmetric_key =? KEYBYTES_) then Err SecretKeyLength else Ok symmetric_key
  end.

(** ** Frames over TCP *)

(** [fs_out] are the bytes given to the write buffer of [Framed]. *)
Record FramedStream : Type := mkFramedStream {
  fs_codec : BytesCodec.BytesCodec;
  fs_addr : SocketAddr;
  fs_encrypt : option Encrypt;
  fs_timeout : Z;
  fs_out : bytes;
}.
Definition framed (addr : SocketAddr) : FramedStream := mkFramedStream BytesCodec.new addr None 0 [].
Definition fs_with_encrypt (e : option Encrypt) (s : FramedStream) : FramedStream :=
  mkFramedStream (fs_codec s) (fs_addr s) e (fs_timeout s) (fs_out s).
Definition fs_with_out (out : bytes) (s : FramedStream) : FramedStream :=
  mkFramedStream (fs_codec s) (fs_addr s) (fs_encrypt s) (fs_timeout s) out.
Definition fs_set_key (key : bytes) : FramedStream → FramedStream := fs_with_encrypt (Some (Encrypt_new key)).
Definition fs_set_raw (s : FramedStream) : FramedStream :=
  mkFramedStream (BytesCodec.set_raw (fs_codec s)) (fs_addr s) None (fs_timeout s) (fs_out s).
Definition fs_set_send_timeout (ms : Z) (s : FramedStream) : FramedStream :=
  mkFramedStream (fs_codec s) (fs_addr s) (fs_encrypt s) ms (fs_out s).
Definition fs_is_secured (s : FramedStream) : bool := bool_decide (is_Some (fs_encrypt s)).

(** How the flush of a write ends, if it does. *)
Inductive Flush : Type := Flushed | Broken_ | Blocked.

(** A value, or a wait without an end. *)
Definition flush_result (timeout : Z) (f : Flush) : option (result StreamError unit) :=
  match f with
  | Flushed => Some (Ok tt)
  | Broken_ => Some (Err IoFailure)
  | Blocked => if 0 <? timeout then Some (Err TimedOut_) else None
  end.

Definition fs_send_bytes (f : Flush) (b : bytes) : M FramedStream (option (result StreamError unit)) := λ s,
  match BytesCodec.encode (fs_codec s) b (fs_out s) with
  | Err e => (Some (Err (CodecFailure e)), s)
  | Ok out => (flush_result (fs_timeout s) f, fs_with_out out s)
  end.
(** The message as it goes out: in a box, with a key. *)
Definition sealed (e : option Encrypt) (msg : bytes) : bytes * option Encrypt :=
  match e with
  | None => (msg, None)
  | Some e => let '(b, e) := enc e msg in (b, Some e)
  end.
Definition fs_send_raw (f : Flush) (msg : bytes) : M FramedStream (option (result StreamError unit)) :=
  e ← gets fs_encrypt;
  let '(b, e) := sealed e msg in
  modify (fs_with_encrypt e);;
  fs_send_bytes f b.
(** [msg.write_to_bytes()] is the argument. *)
Definition fs_send (f : Flush) (msg : option bytes) : M FramedStream (option (result StreamError unit)) :=
  match msg with
  | Some b => fs_send_raw f b
  | None => mret (Some (Err NotSerialized))
  end.

(** What the frame layer hands out: a payload, an error, or the end. *)
Definition Item : Type := option (result StreamError bytes).
Definition unsealed (e : option Encrypt) (b : bytes) : result StreamError bytes * option Encrypt :=
  match e with
  | None => (Ok b, None)
  | Some e => let '(r, e) := dec e b in (r, Some e)
  end.
Definition fs_next (item : Item) : M FramedStream Item := λ s,
  match item with
  | Some (Ok b) => let '(r, e) := unsealed (fs_encrypt s) b in (Some r, fs_with_encrypt e s)
  | _ => (item, s)
  end.
(** [None] for a frame that is not there in time. *)
Definition fs_next_timeout (item : option Item) : M FramedStream Item :=
  match item with
  | Some item => fs_next item
  | None => mret None
  end.

(** ** Messages over a web socket *)

Inductive WsMessage : Type := Binary (b : bytes) | TextMessage (b : bytes) | Control | Close.
Record WsFramedStream : Type := mkWsFramedStream {
  ws_addr : SocketAddr;
  ws_encrypt : option Encrypt;
  ws_send_timeout : Z;
  ws_out : list WsMessage;
}.
Definition ws_new (addr : SocketAddr) (ms_timeout : Z) : WsFramedStream := mkWsFramedStream addr None ms_timeout [].
Definition ws_from_tcp_stream (addr : SocketAddr) : WsFramedStream := mkWsFramedStream addr None 0 [].
Definition ws_with_encrypt (e : option Encrypt) (s : WsFramedStream) : WsFramedStream :=
  mkWsFramedStream (ws_addr s) e (ws_send_timeout s) (ws_out s).
Definition ws_set_key (key : bytes) : WsFramedStream → WsFramedStream := ws_with_encrypt (Some (Encrypt_new key)).
Definition ws_set_raw : WsFramedStream → WsFramedStream := ws_with_encrypt None.
Definition ws_set_send_timeout (ms : Z) (s : WsFramedStream) : WsFramedStream :=
  mkWsFramedStream (ws_addr s) (ws_encrypt s) ms (ws_out s).
Definition ws_is_secured (s : WsFramedStream) : bool := bool_decide (is_Some (ws_encrypt s)).

Definition ws_send_bytes (f : Flush) (b : bytes) : M WsFramedStream (option (result StreamError unit)) := λ s,
  (flush_result (ws_send_timeout s) f,
   mkWsFramedStream (ws_addr s) (ws_encrypt s) (ws_send_timeout s) (ws_out s ++ [Binary b])).
Definition ws_send_raw (f : Flush) (msg : bytes) : M WsFramedStream (option (result StreamError unit)) :=
  e ← gets ws_encrypt;
  let '(b, e) := sealed e msg in
  modify (ws_with_encrypt e);;
  ws_send_bytes f b.
Definition ws_send (f : Flush) (msg : option bytes) : M WsFramedStream (option (result StreamError unit)) :=
  match msg with
  | Some b => ws_send_raw f b
  | None => mret (Some (Err NotSerialized))
  end.

(** [next] over the messages that arrive until the socket ends or fails
    ([None]); the rest of them is given back. *)
Fixpoint ws_next (incoming : list (option WsMessage)) (s : WsFramedStream)
    : Item * list (option WsMessage) * WsFramedStream :=
  match incoming with
  | [] => (None, [], s)
  | None :: rest => (Some (Err WebSocketError), rest, s)
  | Some (Binary b) :: rest =>
    let '(r, e) := unsealed (ws_encrypt s) b in (Some r, rest, ws_with_encrypt e s)
  | Some (TextMessage b) :: rest => (Some (Ok b), rest, s)
  | Some Close :: rest => (None, rest, s)
  | Some Control :: rest => ws_next rest s
  end.

(** ** One of them *)

Inductive Stream : Type := WebSocket (s : WsFramedStream) | Tcp (s : FramedStream).
Definition set_send_timeout (ms : Z) (s : Stream) : Stream :=
  match s with WebSocket s => WebSocket (ws_set_send_timeout ms s) | Tcp s => Tcp (fs_set_send_timeout ms s) end.
Definition stream_set_raw (s : Stream) : Stream :=
  match s with WebSocket s => WebSocket (ws_set_raw s) | Tcp s => Tcp (fs_set_raw s) end.
Definition stream_set_key (key : bytes) (s : Stream) : Stream :=
  match s with WebSocket s => WebSocket (ws_set_key key s) | Tcp s => Tcp (fs_set_key key s) end.
Definition is_secured (s : Stream) : bool :=
  match s with WebSocket s => ws_is_secured s | Tcp s => fs_is_secured s end.
Definition local_addr (s : Stream) : SocketAddr :=
  match s with WebSocket s => ws_addr s | Tcp s => fs_addr s end.
Definition on_stream {A} (w : M WsFramedStream A) (t : M FramedStream A) : M Stream A := λ s,
  match s with
  | WebSocket s => let '(a, s) := w s in (a, WebSocket s)
  | Tcp s => let '(a, s) := t s in (a, Tcp s)
  end.
Definition stream_send_bytes (f : Flush) (b : bytes) : M Stream (option (result StreamError unit)) :=
  on_stream (ws_send_bytes f b) (fs_send_bytes f b).
Definition stream_send_raw (f : Flush) (msg : bytes) : M Stream (option (result StreamError unit)) :=
  on_stream (ws_send_raw f msg) (fs_send_raw f msg).
Definition stream_send (f : Flush) (msg : option bytes) : M Stream (option (result StreamError unit)) :=
  on_stream (ws_send f msg) (fs_send f msg).
(** [incoming] is what arrives on a web socket, [item] over TCP. *)
Definition stream_next (incoming : list (option WsMessage)) (item : Item) : M Stream Item :=
  on_stream (λ s, let '(r, _, s) := ws_next incoming s in (r, s)) (fs_next item).
Definition ws_next_timeout (incoming : option (list (option WsMessage))) (s : WsFramedStream)
    : Item * list (option WsMessage) * WsFramedStream :=
  match incoming with
  | Some l => ws_next l s
  | None => (None, [], s)
  end.
Definition stream_next_timeout (incoming : option (list (option WsMessage))) (item : option Item) : M Stream Item :=
  on_stream (λ s, let '(r, _, s) := ws_next_timeout incoming s in (r, s)) (fs_next_timeout item).
End secure.
