(* ===== verification/SecureSpec.v ===== *)
(** * What a key gives a stream, and what it does not

    Messages over a stream whose two ends have the same key arrive in order,
    however the network cuts them, and frames that other machines put into the
    stream are never taken for a message, only for one of at most a byte.  A
    stream takes its own frames for those of the other end, as both count from
    one; and a send that fails, or a frame that does not belong, ends the
    stream for good. *)
From S2P Require Import Prelude AddrMangle BytesCodec Secure.
Local Open Scope Z_scope.
Import AddrMangle.

(** The documented behaviour of secret boxes: they open with their key and
    nonce, and what opens was sealed with them. *)
Class SecretBoxLaws `{SecretBox} : Prop := {
  open_seal d n k : open (seal d n k) n k = Some d;
  seal_length d n k : zlen (seal d n k) = zlen d + 16;
  open_only_seal c n k d : open c n k = Some d → c = seal d n k;
  open_other_nonce d i j k :
    0 <= i < 2 ^ 64 → 0 <= j < 2 ^ 64 → i ≠ j → open (seal d (get_nonce i) k) (get_nonce j) k = None;
}.

(** The boxes of [msgs], made by a side that made [i] boxes before. *)
Fixpoint boxes `{SecretBox} (k : bytes) (i : Z) (msgs : list bytes) : list bytes :=
  match msgs with
  | [] => []
  | m :: r => seal m (get_nonce (i + 1)) k :: boxes k (i + 1) r
  end.

Section secure.
Context `{SecretBox} `{!SecretBoxLaws}.
Implicit Types (k m : bytes) (msgs fs : list bytes).

Definition box_fits (m : bytes) : Prop := zlen m + 16 <= 0x3FFFFFFF.

Fixpoint send_each (msgs : list bytes) : M FramedStream (list (option (result StreamError unit))) :=
  match msgs with
  | [] => mret []
  | m :: r => x ← fs_send_raw Flushed m; l ← send_each r; mret (x :: l)
  end.
Fixpoint next_each (fs : list bytes) : M FramedStream (list Item) :=
  match fs with
  | [] => mret []
  | f :: r => x ← fs_next (Some (Ok f)); l ← next_each r; mret (x :: l)
  end.

Lemma next_seq_small n : 0 <= n → n + 1 < 2 ^ 64 → next_seq n = n + 1.
Proof. intros. unfold next_seq, wrap_u. rewrite Z.mod_small; lia. Qed.

Lemma boxes_length k i msgs : length (boxes k i msgs) = length msgs.
Proof. revert i. induction msgs as [|m r IH]; intros i; cbn; [done|]. by rewrite IH. Qed.
Lemma boxes_fit k i msgs :
  Forall box_fits msgs → Forall (λ b, zlen b <= 0x3FFFFFFF ∧ zlen b <= usize_max) (boxes k i msgs).
Proof.
  intros Hf. revert i. induction Hf as [|m r Hm _ IH]; intros i; cbn; [by constructor|].
  constructor; [|apply IH]. rewrite seal_length. unfold box_fits, usize_max in *. lia.
Qed.
Lemma boxes_take k n i msgs : take n (boxes k i msgs) = boxes k i (take n msgs).
Proof. revert n i. induction msgs as [|m r IH]; intros [|n] i; cbn; [done..|]. by rewrite IH. Qed.

Lemma send_each_frames k msgs s i o :
  fs_encrypt s = Some (mkEncrypt k i o) → BytesCodec.raw (fs_codec s) = false →
  0 <= i → i + zlen msgs < 2 ^ 64 → Forall box_fits msgs →
  send_each msgs s =
  (replicate (length msgs) (Some (Ok tt)),
   fs_with_out (fs_out s ++ BytesCodec.frames (boxes k i msgs)) (fs_with_encrypt (Some (mkEncrypt k (i + zlen msgs) o)) s)).
Proof.
  intros He Hr Hi Hn Hf. revert s i He Hr Hi Hn. induction Hf as [|m r Hm _ IH]; intros s i He Hr Hi Hn.
  { cbn. change (zlen []) with 0. rewrite app_nil_r, Z.add_0_r. destruct s; cbn in *. by subst. }
  change (m :: r) with ([m] ++ r) in Hn |- *. rewrite zlen_app in *. change (zlen [m]) with 1 in *.
  pose proof (zlen_nonneg r). cbn [app send_each length replicate boxes].
  erewrite bind_eq; last first.
  { unfold fs_send_raw. rewrite bind_run. cbn [gets]. rewrite He. cbn [sealed enc].
    rewrite bind_run. cbn [modify]. unfold fs_send_bytes. cbn [fs_with_encrypt fs_codec en_sealed en_key fs_out].
    rewrite next_seq_small by lia.
    rewrite BytesCodec.encode_frame; [reflexivity|done|]. rewrite seal_length. unfold box_fits in Hm. lia. }
  erewrite bind_eq; [|apply (IH _ (i + 1)); [reflexivity|done|lia|lia]].
  cbn. unfold fs_with_out, fs_with_encrypt; cbn. unfold BytesCodec.frames. cbn. rewrite <- app_assoc.
  by replace (i + 1 + zlen r) with (i + (1 + zlen r)) by lia.
Qed.

(** ** Receiving *)

Definition after_next (k : bytes) (i o : Z) (s : FramedStream) : FramedStream := fs_with_encrypt (Some (mkEncrypt k i o)) s.
Lemma fs_next_short s b : zlen b <= 1 → (fs_next (Some (Ok b)) s) = (Some (Ok b), s).
Proof.
  intros Hb. unfold fs_next, unsealed. destruct s as [c a [e|] t o]; cbn; [|done].
  unfold dec. by rewrite (proj2 (Z.leb_le _ _)).
Qed.
Lemma fs_next_long s k i o b :
  fs_encrypt s = Some (mkEncrypt k i o) → 1 < zlen b →
  fs_next (Some (Ok b)) s =
  (Some (match open b (get_nonce (next_seq o)) k with Some d => Ok d | None => Err DecryptionError end),
   after_next k i (next_seq o) s).
Proof.
  intros He Hb. unfold fs_next. rewrite He. cbn [unsealed]. unfold dec. rewrite (proj2 (Z.leb_gt _ _)) by done.
  cbn [en_key en_sealed en_opened]. by destruct (open _ _ _).
Qed.
Lemma box_long d n k : 1 < zlen (seal d n k).
Proof. rewrite seal_length. pose proof (zlen_nonneg d). lia. Qed.

Lemma next_each_boxes k msgs s i o :
  fs_encrypt s = Some (mkEncrypt k i o) → 0 <= o → o + zlen msgs < 2 ^ 64 →
  next_each (boxes k o msgs) s = ((λ m, Some (Ok m)) <$> msgs, after_next k i (o + zlen msgs) s).
Proof.
  revert s o. induction msgs as [|m r IH]; intros s o He Ho Hn.
  { cbn. change (zlen []) with 0. rewrite Z.add_0_r. destruct s; cbn in *. by subst. }
  change (m :: r) with ([m] ++ r) in Hn |- *. rewrite zlen_app in *. change (zlen [m]) with 1 in *.
  pose proof (zlen_nonneg r). cbn [app boxes next_each fmap list_fmap].
  rewrite <- (next_seq_small o) at 1 by lia.
  erewrite bind_eq; [|eapply fs_next_long; [done|apply box_long]]. rewrite open_seal, next_seq_small by lia.
  erewrite bind_eq; [|apply IH; [reflexivity|lia|lia]]. cbn. unfold after_next, fs_with_encrypt; cbn.
  by replace (o + 1 + zlen r) with (o + (1 + zlen r)) by lia.
Qed.

(** C36. Two ends with the same key: whatever messages one sends (each with its
    seal within the limit of the codec), every send succeeds, and however TCP
    cuts the bytes and whenever the other end looks, the frames it has got are
    opened to the first messages, in order; none is refused; and when everything
    has arrived it has all of them. *)
Theorem secured_stream_in_order k msgs (a b : SocketAddr) rs s1 r :
  Forall box_fits msgs → zlen msgs < 2 ^ 64 →
  send_each msgs (fs_set_key k (framed a)) = (rs, s1) →
  rtc BytesCodec.rx_step (BytesCodec.mkRx BytesCodec.new [] [] (fs_out s1)) r →
  Forall (λ x, x = Some (Ok tt)) rs ∧
  ∃ n c' buf' x,
    (next_each (BytesCodec.rx_got r) (fs_set_key k (framed b))).1 = (λ m, Some (Ok m)) <$> take n msgs ∧
    BytesCodec.decode (BytesCodec.rx_codec r) (BytesCodec.rx_buf r) = (c', buf', Ok x) ∧
    (x = None → BytesCodec.rx_wire r = [] → take n msgs = msgs).
Proof.
  intros Hf Hn Hs Hr. rewrite (send_each_frames k msgs _ 0 0) in Hs by (done || lia).
  injection Hs as <- <-. split; [by apply Forall_replicate|].
  cbn [fs_with_out fs_out fs_with_encrypt fs_set_key framed app] in Hr.
  pose proof (boxes_fit k 0 msgs Hf) as Hb. set (bs := boxes k 0 msgs) in *.
  assert (BytesCodec.rx_inv usize_max bs r) as Hi.
  { eapply (BytesCodec.rx_inv_reach _ _ Hb); [|exact Hr]. split_and!; [done..|]. exists bs. by split. }
  destruct (BytesCodec.rx_inv_decode _ _ Hb r Hi) as (c' & buf' & x & Hd & _ & Hall).
  destruct Hi as (_ & _ & p & Hp & _). set (n := length (BytesCodec.rx_got r)).
  assert (BytesCodec.rx_got r = boxes k 0 (take n msgs)) as Hg.
  { rewrite <- boxes_take. fold bs. rewrite Hp. subst n. by rewrite take_app_length. }
  exists n, c', buf', x. split_and!; [|done|].
  - rewrite Hg. rewrite (next_each_boxes k _ _ 0 0); [done|done|lia|].
    unfold zlen in *. rewrite length_take. lia.
  - intros Hx Hw. apply take_ge. subst n. rewrite (Hall Hx Hw). subst bs. by rewrite boxes_length.
Qed.

(** ** Frames of others *)

Definition long (b : bytes) : bool := 1 <? zlen b.
Definition count_long (fs : list bytes) : nat := length (List.filter long fs).

(** A frame that someone without the key can bring: one that was sent, or one
    that is no box of the key. *)
Definition bringable (k : bytes) (sent : list bytes) (f : bytes) : Prop :=
  f ∈ sent ∨ ∀ d n, f ≠ seal d n k.

Lemma boxes_elem k i msgs f :
  f ∈ boxes k i msgs → ∃ j m, msgs !! j = Some m ∧ f = seal m (get_nonce (i + 1 + Z.of_nat j)) k.
Proof.
  revert i. induction msgs as [|m r IH]; intros i; cbn; [by intros ?%elem_of_nil|].
  intros [->|(j & m' & Hj & ->)%IH]%elem_of_cons.
  - exists O, m. split; [done|]. by rewrite Z.add_0_r.
  - exists (S j), m'. split; [done|]. by replace (i + 1 + 1 + Z.of_nat j) with (i + 1 + Z.of_nat (S j)) by lia.
Qed.

(** The box with the number [o + 1], if it was sent, or none. *)
Lemma open_bringable k msgs f o d :
  zlen msgs < 2 ^ 64 → 0 <= o → o + 1 < 2 ^ 64 → bringable k (boxes k 0 msgs) f →
  open f (get_nonce (o + 1)) k = Some d → msgs !! Z.to_nat o = Some d.
Proof.
  intros Hn Ho Ho' [(j & m & Hj & ->)%boxes_elem|Hno] E; [|by apply open_only_seal, Hno in E].
  assert (Z.of_nat j < zlen msgs) as Hlt by (apply lookup_lt_Some in Hj; unfold zlen; lia).
  destruct (decide (0 + 1 + Z.of_nat j = o + 1)) as [Hjo|Hjo].
  - rewrite Hjo, open_seal in E. injection E as <-. by replace (Z.to_nat o) with j by lia.
  - rewrite open_other_nonce in E by lia. done.
Qed.

Lemma next_each_app fs gs s : (next_each (fs ++ gs) s).1 = (next_each fs s).1 ++ (next_each gs (next_each fs s).2).1.
Proof.
  revert s. induction fs as [|f r IH]; intros s; [done|]. cbn [app next_each]. rewrite !bind_run.
  destruct (fs_next _ s) as [x s1]. rewrite !bind_run. specialize (IH s1).
  destruct (next_each (r ++ gs) s1) as [l s2], (next_each r s1) as [l' s3]. cbn in *. by rewrite IH.
Qed.

Definition answered (msgs : list bytes) (o : nat) (fs : list bytes) (j : nat) (f : bytes) (x : result StreamError bytes) : Prop :=
  (long f = false → x = Ok f) ∧
  (long f = true → ∀ d, x = Ok d → msgs !! (o + count_long (take j fs))%nat = Some d).

(** The same from any number [o] of boxes opened before. *)
Lemma answers_from k msgs fs s o j f :
  zlen msgs < 2 ^ 64 → fs_encrypt s = Some (mkEncrypt k 0 o) → 0 <= o → o + zlen fs < 2 ^ 64 →
  Forall (λ f, long f = true → bringable k (boxes k 0 msgs) f) fs → fs !! j = Some f →
  ∃ x, (next_each fs s).1 !! j = Some (Some x) ∧ answered msgs (Z.to_nat o) fs j f x.
Proof.
  intros Hn. revert s o j. induction fs as [|g r IH]; intros s o j He Ho Hl Hb Hj; [done|].
  apply Forall_cons in Hb as [Hg Hb].
  assert (zlen (g :: r) = 1 + zlen r) as Ez by (unfold zlen; cbn [length]; lia). pose proof (zlen_nonneg r).
  cbn [next_each]. rewrite bind_run. destruct (long g) eqn:Eg.
  - assert (1 < zlen g) as Hlen by (unfold long in Eg; lia).
    rewrite (fs_next_long _ k 0 o) by done. rewrite next_seq_small by lia. rewrite bind_run.
    destruct j as [|j]; cbn in Hj.
    + injection Hj as ->. destruct (next_each r _) as [l s2]. cbn. eexists. split; [done|].
      split; [by rewrite Eg|]. intros _ d Hd. unfold count_long. cbn. rewrite Nat.add_0_r.
      destruct (open f _ _) as [d'|] eqn:E; [|done]. injection Hd as ->.
      eapply open_bringable; [done|lia|lia|by apply Hg|exact E].
    + destruct (IH (after_next k 0 (o + 1) s) (o + 1) j) as (x & Hx & Hs & Hlong); [done|lia|lia|done|done|].
      destruct (next_each r _) as [l s2]. cbn in *. exists x. split; [done|]. split; [done|].
      intros Hf d Hd. rewrite <- (Hlong Hf d Hd). unfold count_long. cbn. rewrite Eg. cbn [length]. f_equal. lia.
  - rewrite fs_next_short by (unfold long in Eg; lia). rewrite bind_run. destruct j as [|j]; cbn in Hj.
    + injection Hj as ->. destruct (next_each r _) as [l s2]. cbn. eexists. split; [done|].
      split; [done|by rewrite Eg].
    + destruct (IH s o j) as (x & Hx & Hs & Hlong); [done|lia|lia|done|done|].
      destruct (next_each r _) as [l s2]. cbn in *. exists x. split; [done|]. split; [done|].
      intros Hf d Hd. rewrite <- (Hlong Hf d Hd). unfold count_long. cbn. by rewrite Eg.
Qed.


(** Both ends count from one with one key: what an end sent, brought back to it,
    is taken for the messages of the other end. *)
Theorem own_frames_accepted k msgs a rs s1 :
  Forall box_fits msgs → zlen msgs < 2 ^ 64 →
  send_each msgs (fs_set_key k (framed a)) = (rs, s1) →
  (next_each (boxes k 0 msgs) s1).1 = (λ m, Some (Ok m)) <$> msgs ∧ fs_out s1 = BytesCodec.frames (boxes k 0 msgs).
Proof.
  intros Hf Hn Hs. rewrite (send_each_frames k msgs _ 0 0) in Hs by (done || lia). injection Hs as _ <-.
  split; [|done]. by rewrite (next_each_boxes k msgs _ (0 + zlen msgs) 0) by (done || lia).
Qed.

(** ** Counters that differ *)

Lemma lagging_counter k msgs s i o p :
  fs_encrypt s = Some (mkEncrypt k i o) → 0 <= o → 0 <= p → o ≠ p → o + zlen msgs < 2 ^ 64 → p + zlen msgs < 2 ^ 64 →
  (next_each (boxes k p msgs) s).1 = replicate (length msgs) (Some (Err DecryptionError)).
Proof.
  revert s o p. induction msgs as [|m r IH]; intros s o p He Ho Hp Hop H1 H2; [done|].
  assert (zlen (m :: r) = 1 + zlen r) as Ez by (unfold zlen; cbn [length]; lia). pose proof (zlen_nonneg r).
  cbn [boxes next_each length replicate]. rewrite bind_run.
  rewrite (fs_next_long _ k i o) by (done || apply box_long). rewrite next_seq_small by lia.
  rewrite open_other_nonce by lia. rewrite bind_run.
  specialize (IH (after_next k i (o + 1) s) (o + 1) (p + 1)). destruct (next_each _ _) as [l s2]. cbn in *.
  rewrite IH; [done|done|lia..].
Qed.

(** A message too long for a frame is refused, but has taken a number: every
    message the end sends from then on is sent without an error, and none of
    them can be opened at the other end. *)
Theorem refused_send_ends_stream k big msgs (a b : SocketAddr) :
  0x3FFFFFFF < zlen big + 16 → Forall box_fits msgs → zlen msgs + 1 < 2 ^ 64 →
  ∃ s1 rs s2, fs_send_raw Flushed big (fs_set_key k (framed a)) = (Some (Err (CodecFailure BytesCodec.Overflow)), s1) ∧
    fs_out s1 = [] ∧ send_each msgs s1 = (rs, s2) ∧ Forall (λ x, x = Some (Ok tt)) rs ∧
    ∃ bs, fs_out s2 = BytesCodec.frames bs ∧ length bs = length msgs ∧
      (next_each bs (fs_set_key k (framed b))).1 = replicate (length msgs) (Some (Err DecryptionError)).
Proof.
  intros Hbig Hf Hn. pose proof (zlen_nonneg msgs).
  set (s1 := fs_with_encrypt (Some (mkEncrypt k 1 0)) (framed a)).
  assert (fs_send_raw Flushed big (fs_set_key k (framed a)) = (Some (Err (CodecFailure BytesCodec.Overflow)), s1)) as E1.
  { unfold fs_send_raw. rewrite bind_run. cbn [gets fs_set_key fs_with_encrypt fs_encrypt sealed].
    unfold Encrypt_new, enc. cbn [en_key en_sealed en_opened]. change (next_seq 0) with 1. rewrite bind_run. cbn [modify].
    unfold fs_send_bytes, BytesCodec.encode. cbn [fs_codec framed fs_with_encrypt BytesCodec.raw BytesCodec.new fs_set_key].
    unfold BytesCodec.encode_head. rewrite seal_length.
    rewrite !(proj2 (Z.leb_gt _ _)) by lia. done. }
  exists s1. pose proof (send_each_frames k msgs s1 1 0 eq_refl eq_refl ltac:(lia) ltac:(lia) Hf) as E2.
  eexists _, _. split_and!; [done|done|exact E2|by apply Forall_replicate|].
  exists (boxes k 1 msgs). split_and!; [done|apply boxes_length|].
  apply (lagging_counter k msgs _ 0 0 1); done || lia.
Qed.

(** One frame that does not belong, longer than a byte, takes the number of the
    next message: it and all after it are refused. *)
Theorem foreign_frame_ends_stream k msgs f a :
  1 < zlen f → (∀ d n, f ≠ seal d n k) → zlen msgs + 1 < 2 ^ 64 →
  (next_each (f :: boxes k 0 msgs) (fs_set_key k (framed a))).1 = replicate (S (length msgs)) (Some (Err DecryptionError)).
Proof.
  intros Hf Hno Hn. pose proof (zlen_nonneg msgs). cbn [next_each]. rewrite bind_run.
  rewrite (fs_next_long _ k 0 0) by done.
  destruct (open f _ _) as [d|] eqn:E; [by apply open_only_seal, Hno in E|].
  rewrite bind_run. pose proof (lagging_counter k msgs (after_next k 0 1 (fs_set_key k (framed a))) 0 1 0) as Hl.
  change (next_seq 0) with 1. destruct (next_each _ _) as [l s2]. cbn in *. by rewrite Hl by (done || lia).
Qed.

(** ** Web sockets *)

Fixpoint ws_send_each (msgs : list bytes) : M WsFramedStream (list (option (result StreamError unit))) :=
  match msgs with
  | [] => mret []
  | m :: r => x ← ws_send_raw Flushed m; l ← ws_send_each r; mret (x :: l)
  end.
Fixpoint ws_next_each (n : nat) (incoming : list (option WsMessage)) (s : WsFramedStream) : list Item :=
  match n with
  | O => []
  | S n => let '(x, rest, s) := ws_next incoming s in x :: ws_next_each n rest s
  end.
Definition is_control (m : option WsMessage) : bool := match m with Some Control => true | _ => false end.

Lemma ws_send_each_boxes k msgs s i o :
  ws_encrypt s = Some (mkEncrypt k i o) → 0 <= i → i + zlen msgs < 2 ^ 64 →
  ws_out (ws_send_each msgs s).2 = ws_out s ++ (Binary <$> boxes k i msgs) ∧
  (ws_send_each msgs s).1 = replicate (length msgs) (Some (Ok tt)).
Proof.
  revert s i. induction msgs as [|m r IH]; intros s i He Hi Hn; [by rewrite app_nil_r|].
  assert (zlen (m :: r) = 1 + zlen r) as Ez by (unfold zlen; cbn [length]; lia). pose proof (zlen_nonneg r).
  cbn [ws_send_each]. rewrite bind_run. unfold ws_send_raw. rewrite bind_run. cbn [gets]. rewrite He.
  cbn [sealed]. unfold enc. cbn [en_key en_sealed en_opened]. rewrite next_seq_small by lia. rewrite bind_run. cbn [modify].
  unfold ws_send_bytes, flush_result. rewrite bind_run.
  match goal with |- context [ws_send_each r ?t] => destruct (IH t (i + 1) eq_refl) as [E1 E2]; [lia|lia|];
    destruct (ws_send_each r t) as [l s2] end.
  cbn in *. rewrite E1, E2. by rewrite <- app_assoc.
Qed.
Lemma ws_next_control incoming s x rest :
  List.filter (λ x, negb (is_control x)) incoming = x :: rest →
  ∃ more, ws_next incoming s = ws_next (x :: more) s ∧ List.filter (λ x, negb (is_control x)) more = rest.
Proof.
  induction incoming as [|m l IH]; [done|]. cbn. destruct (is_control m) eqn:E; cbn.
  - intros Hf. destruct m as [[| | |]|]; try done. by apply IH.
  - intros [= -> <-]. by exists l.
Qed.
Lemma ws_next_each_boxes k msgs incoming s i o :
  ws_encrypt s = Some (mkEncrypt k i o) → 0 <= o → o + zlen msgs < 2 ^ 64 →
  List.filter (λ x, negb (is_control x)) incoming = Some <$> (Binary <$> boxes k o msgs) →
  ws_next_each (length msgs) incoming s = (λ m, Some (Ok m)) <$> msgs.
Proof.
  revert incoming s o. induction msgs as [|m r IH]; intros incoming s o He Ho Hn Hf; [done|].
  assert (zlen (m :: r) = 1 + zlen r) as Ez by (unfold zlen; cbn [length]; lia). pose proof (zlen_nonneg r).
  cbn [boxes fmap list_fmap] in Hf. destruct (ws_next_control _ s _ _ Hf) as (more & E & Hm).
  cbn [length ws_next_each]. rewrite E. cbn [ws_next]. rewrite He. cbn [unsealed]. unfold dec.
  rewrite (proj2 (Z.leb_gt _ _)) by apply box_long. cbn [en_key en_sealed en_opened].
  rewrite next_seq_small, open_seal by lia. cbn [fmap list_fmap]. f_equal. apply (IH _ _ (o + 1)); [done|lia|lia|done].
Qed.

(** Over a web socket too: whatever the socket puts between the messages, the
    other end gets every message, in order. *)
Theorem secured_socket_in_order k msgs (a b : SocketAddr) ms ms' incoming :
  zlen msgs < 2 ^ 64 →
  List.filter (λ x, negb (is_control x)) incoming = Some <$> ws_out (ws_send_each msgs (ws_set_key k (ws_new a ms))).2 →
  ws_next_each (length msgs) incoming (ws_set_key k (ws_new b ms')) = (λ m, Some (Ok m)) <$> msgs.
Proof.
  intros Hn Hf. destruct (ws_send_each_boxes k msgs (ws_set_key k (ws_new a ms)) 0 0) as [E _]; [done|lia|lia|].
  rewrite E in Hf. by apply (ws_next_each_boxes k msgs incoming _ 0 0).
Qed.

(** But the other kind of message passes by the key: a text is handed on as it
    is, whoever sent it, at any place of the stream. *)
Theorem text_passes_key k n (b : SocketAddr) ms t rest :
  ws_next (replicate n (Some Control) ++ Some (TextMessage t) :: rest) (ws_set_key k (ws_new b ms)) =
  (Some (Ok t), rest, ws_set_key k (ws_new b ms)).
Proof. by induction n. Qed.
End secure.

(** ** Boxes for the witnesses *)

Definition pad_to (v : bytes) (n : nat) : bytes := take n (v ++ replicate n 0).
Lemma pad_to_length v n : length (pad_to v n) = n.
Proof. unfold pad_to. rewrite length_take, length_app, length_replicate. lia. Qed.
Definition TestBox : SecretBox :=
  {| seal d n k := (pad_to n 8 ++ pad_to k 8) ++ d;
     open c n k := if bool_decide (take 16 c = pad_to n 8 ++ pad_to k 8) then Some (drop 16 c) else None;
     public_open d n p s := Some d |}.
Lemma pad_to_nonce i : pad_to (get_nonce i) 8 = le_bytes 8 i.
Proof.
  unfold pad_to, get_nonce. rewrite <- app_assoc. rewrite take_app_length'; [done|]. by rewrite length_le_bytes.
Qed.
Lemma head_length n k : length (pad_to n 8 ++ pad_to k 8) = 16%nat.
Proof. by rewrite length_app, !pad_to_length. Qed.
Lemma TestBoxLaws : @SecretBoxLaws TestBox.
Proof.
  split; cbn [open seal TestBox].
  - intros d n k. rewrite take_app_length', drop_app_length' by (symmetry; apply head_length).
    by rewrite bool_decide_eq_true_2.
  - intros d n k. unfold zlen. rewrite length_app, head_length. lia.
  - intros c n k d. case_bool_decide as E; [|done]. intros [= <-]. rewrite <- E. symmetry. apply take_drop.
  - intros d i j k Hi Hj Hij. rewrite take_app_length' by (symmetry; apply head_length).
    rewrite bool_decide_eq_false_2; [done|]. rewrite !pad_to_nonce. intros E.
    apply app_inj_1 in E as [E _]; [|by rewrite !length_le_bytes].
    apply (f_equal le_num) in E. rewrite !le_num_le_bytes in E. change (8 * Z.of_nat 8) with 64 in E.
    rewrite !Z.mod_small in E by lia. done.
Qed.

Definition test_address : SocketAddr := mkAddr (IpV4 127 0 0 1) 5.
Definition test_wire : bytes := Eval vm_compute in BytesCodec.frames (@boxes TestBox [9] 0 [[1]; [2; 3]]).
Lemma secured_stream_in_order_witness :
  ∃ rs s1 r, @send_each TestBox [[1]; [2; 3]] (fs_set_key [9] (framed test_address)) = (rs, s1) ∧
  Forall (λ x, x = Some (Ok tt)) rs ∧
  ∃ n c' buf' x,
    (@next_each TestBox (BytesCodec.rx_got r) (fs_set_key [9] (framed test_address))).1 = (λ m, Some (Ok m)) <$> take n [[1]; [2; 3]] ∧
    BytesCodec.decode (BytesCodec.rx_codec r) (BytesCodec.rx_buf r) = (c', buf', Ok x) ∧
    (x = None → BytesCodec.rx_wire r = [] → take n [[1]; [2; 3]] = [[1]; [2; 3]]).
Proof.
  eexists _, _, _. split; [vm_compute; reflexivity|].
  eapply (@secured_stream_in_order TestBox TestBoxLaws [9] [[1]; [2; 3]] test_address test_address).
  - repeat constructor; vm_compute; discriminate.
  - vm_compute. reflexivity.
  - vm_compute. reflexivity.
  - eapply rtc_l; [apply (BytesCodec.rx_read BytesCodec.new [] [] test_wire [])|].
    eapply rtc_l; [eapply BytesCodec.rx_decode; vm_compute; reflexivity|]. apply rtc_refl.
Defined.

(** The second message comes first, then a made up frame, then one byte. *)
Definition test_frames : list bytes := Eval vm_compute in drop 1 (@boxes TestBox [9] 0 [[1]; [2; 3]]) ++ [[7; 7]; [7]].
