(* ===== verification/Transport.v ===== *)
(** * Connections: [tls.rs], [websocket.rs], [proxy.rs], [socket_client.rs]

    How core-common reaches another machine: directly, through an HTTP, HTTPS or
    SOCKS5 proxy, or over a web socket, with what it remembers of the TLS of a
    host.  A function that waits is a [Programs.Prog] over the questions [Link];
    connections are known by numbers.  The crates url, httparse, tokio-socks,
    tungstenite and the TLS libraries are questions or classes.  Theorems are in
    [TransportSpec]. *)
From Stdlib Require Import Ascii.
From S2P Require Import Prelude Programs AddrMangle Text TextFacts HostText JsonTree ClientIo CoreState CoreConfig BytesCodec Secure.
Local Open Scope Z_scope.
Import AddrMangle.

(** ** What is remembered of TLS *)

Inductive TlsType : Type := Plain | NativeTls | Rustls.
#[export] Instance TlsType_eq_dec : EqDecision TlsType.
Proof. solve_decision. Defined.

(** [URL_TLS_TYPE] and [URL_TLS_DANGER_ACCEPT_INVALID_CERTS] *)
Record TlsCache : Type := mkTlsCache { tc_type : gmap string TlsType; tc_danger : gmap string bool }.

Definition is_plain (url : string) : bool := starts_with "ws://" url || starts_with "http://" url.

(** The text up to the first character that [p] holds of. *)
Fixpoint until (p : ascii → bool) (s : string) : string :=
  match s with
  | String c r => if p c then ""%string else String c (until p r)
  | EmptyString => ""%string
  end.
Definition get_domain_and_port_from_url (url : string) : string :=
  let url2 := match cut_str "://" url with Some (_, r) => r | None => url end in
  let after_at := match rcut "@" url2 with Some (_, r) => r | None => url2 end in
  until (λ c, Ascii.eqb c "/" || Ascii.eqb c "?") after_at.

Definition upsert_tls_cache (url : string) (tls_type : TlsType) (danger_accept_invalid_cert : bool) (t : TlsCache) : TlsCache :=
  if is_plain url then t else
  let domain_port := get_domain_and_port_from_url url in
  mkTlsCache (<[domain_port := tls_type]> (tc_type t)) (<[domain_port := danger_accept_invalid_cert]> (tc_danger t)).
Definition reset_tls_cache (t : TlsCache) : TlsCache := mkTlsCache ∅ ∅.
Definition get_cached_tls_type (url : string) (t : TlsCache) : option TlsType :=
  if is_plain url then Some Plain else tc_type t !! get_domain_and_port_from_url url.
Definition get_cached_tls_accept_invalid_cert (url : string) (s : Core) (t : TlsCache) : option bool :=
  if negb (allow_insecure_tls_fallback s) then Some false else
  if is_plain url then Some false else tc_danger t !! get_domain_and_port_from_url url.

(** ** Addresses of targets and of proxies *)

(** [tokio_socks::TargetAddr] *)
Inductive TargetAddr : Type := TargetIp (a : SocketAddr) | TargetDomain (name : string) (port : Z).

(** A target is given as an address or as a text ([IsResolvedSocketAddr]). *)
Inductive Target : Type := TAddr (a : SocketAddr) | TText (s : string).
Definition resolve (t : Target) : option SocketAddr := match t with TAddr a => Some a | TText _ => None end.
Definition target_string (t : Target) : string := match t with TAddr a => socket_addr_string a | TText s => s end.

(** url: what the program reads of a parsed URL ([u_host_port] is the text from
    the host to the port); tokio-socks: the reading of a target. *)
Record Url : Type := mkUrl {
  u_scheme : string; u_username : string; u_password : option string; u_has_host : bool; u_host_port : string; u_text : string;
}.
Class UrlLib : Type := { url_parse : string → option Url; text_target_addr : string → option TargetAddr }.
Definition into_target_addr `{UrlLib} (t : Target) : option TargetAddr :=
  match t with TAddr a => Some (TargetIp a) | TText s => text_target_addr s end.
Definition target_is_ipv4 (t : TargetAddr) : bool := match t with TargetIp a => is_ipv4 (ip a) | TargetDomain _ _ => true end.

Inductive ProxyError : Type :=
| TargetParseError | MaximumResponseHeaderLengthExceeded (n : Z) | EndOfFile | UrlBadScheme (s : string)
| UrlParseScheme | HttpParse | NoHttpCode | HttpCode200 (n : Z) | AddressResolutionFailed (s : string) | ProxyIo | ProxyElapsed | TlsFailed.

Record ProxyAuth : Type := mkProxyAuth { user_name : string; proxy_password : string }.
Inductive ProxyScheme : Type :=
| Http (auth : option ProxyAuth) (host : string)
| Https (auth : option ProxyAuth) (host : string)
| Socks5 (addr : SocketAddr) (auth : option ProxyAuth) (remote_dns : bool).
Definition maybe_auth (p : ProxyScheme) : option ProxyAuth :=
  match p with Http a _ | Https a _ | Socks5 _ a _ => a end.
Definition set_basic_auth (username password : string) (p : ProxyScheme) : ProxyScheme :=
  let auth := Some (mkProxyAuth username password) in
  match p with Http _ h => Http auth h | Https _ h => Https auth h | Socks5 a _ r => Socks5 a auth r end.
Definition get_basic_authorization `{Sodium} (a : ProxyAuth) : string :=
  base64_encode (str_bytes (user_name a +:+ ":" +:+ proxy_password a)).
Definition crlf : string := String (chr 13) (String (chr 10) "").
Definition get_proxy_authorization `{Sodium} (a : ProxyAuth) : string :=
  "Proxy-Authorization: Basic " +:+ get_basic_authorization a +:+ crlf.

Definition append_default_port (host : string) (default_port : Z) : string :=
  if has_char ":" host then host else host +:+ ":" +:+ to_string default_port.
Definition get_host_and_port (p : ProxyScheme) : string :=
  match p with
  | Http _ h => append_default_port h 80
  | Https _ h => append_default_port h 443
  | Socks5 a _ _ => socket_addr_string a
  end.
Definition get_domain (p : ProxyScheme) : string :=
  match p with
  | Http _ h | Https _ h => default ""%string (head (split_on ":" h))
  | Socks5 a _ _ => ip_string (ip a)
  end.

(** ** Questions *)

(** [connect_async_tls_with_config]: open, refused by an error, or not tried to
    the end: the time is over, or the request or the connector cannot be made. *)
Inductive WsAnswer : Type := WsOpen (c : nat) | WsRefused | WsStopped.

Inductive Link : Type → Type :=
| GetCore : Link Core
| GetTls : Link TlsCache
| PutTls (f : TlsCache → TlsCache) : Link unit
(** [lookup_host] of a text or an address; [(host, port).to_socket_addrs()]; [url.socket_addrs] *)
| LookupHost (t : Target) : Link (option (list SocketAddr))
| ResolveHost (host : string) (port : Z) : Link (option (list SocketAddr))
| UrlAddrs (u : Url) (default_port : option Z) : Link (option (list SocketAddr))
(** [new_socket] bound to an address and [connect] within a time; [TcpStream::connect] *)
| ConnectFrom (local peer : SocketAddr) (ms : Z) : Link (result ProxyError nat)
| ConnectText (s : string) (ms : Z) : Link (option nat)
| LocalAddrOf (c : nat) : Link (option SocketAddr)
| PeerAddrOf (c : nat) : Link (option SocketAddr)
(** a handshake over a connection; the one of a web socket with its own connection *)
| TlsConnect (c : nat) (kind : TlsType) (danger : bool) (domain : string) : Link (option nat)
| WsConnect (url : string) (kind : TlsType) (danger : bool) (ms : Z) : Link WsAnswer
| Socks5Connect (c : nat) (target : TargetAddr) (auth : option ProxyAuth) : Link (option nat)
(** a buffered stream; the time of [timeout] is over *)
| WriteFlush (c : nat) (b : bytes) : Link bool
| ReadLine (c : nat) : Link (option bytes)
| TimeOver (ms : Z) : Link bool
(** datagrams *)
| BindDatagram (local : SocketAddr) : Link (option nat)
| Socks5Udp (proxy : string) (local : SocketAddr) (auth : option (string * string)) (ms : Z) : Link (option nat)
| SendDatagram (u : nat) (b : bytes) (to : TargetAddr) : Link bool.

Abbreviation Try A := (Prog Link (result ProxyError A)).

(** The question mark. *)
Definition and_then {A B} (p : Try A) (k : A → Try B) : Try B :=
  r ← p; match r with Ok a => k a | Err e => mret (Err e) end.
Notation "x ←! p ; k" := (and_then p (λ x, k))
  (at level 20, p at level 100, k at level 200, format "x  ←!  p ;  '/' k").
Definition or_error {A} (e : ProxyError) (p : Prog Link (option A)) : Try A :=
  r ← p; mret (match r with Some a => Ok a | None => Err e end).
Definition done_or_error (e : ProxyError) (p : Prog Link bool) : Try unit :=
  r ← p; mret (if r : bool then Ok tt else Err e).
(** [timeout(ms, p).await?] *)
Definition within_time {A} (ms : Z) (p : Try A) : Prog Link (result ProxyError (result ProxyError A)) :=
  r ← cancellable (TimeOver ms) p; mret (match r with Some a => Ok a | None => Err ProxyElapsed end).
(** [timeout(ms, p).await??] *)
Definition timed {A} (ms : Z) (p : Try A) : Try A := r ←! within_time ms p; mret r.

Definition get_any_listen_addr (is_ipv4 : bool) : SocketAddr :=
  mkAddr (if is_ipv4 then IpV4 0 0 0 0 else IpV6 (replicate 16 0)) 0.

Section transport.
Context `{UrlLib} `{Sodium}.

(** ** Proxies: reading the configuration *)

Definition into_url (s : string) : result ProxyError Url :=
  match url_parse s with
  | None => Err UrlParseScheme
  | Some u => if u_has_host u then Ok u else Err (UrlBadScheme (u_text u))
  end.
Definition first_addr (e : ProxyError) (l : list SocketAddr) : result ProxyError SocketAddr :=
  match l with a :: _ => Ok a | [] => Err e end.
Definition parse_scheme (u : Url) : Try ProxyScheme :=
  scheme ←!
    (if bool_decide (u_scheme u = "http"%string) then mret (Ok (Http None (u_host_port u)))
     else if bool_decide (u_scheme u = "https"%string) then mret (Ok (Https None (u_host_port u)))
     else if bool_decide (u_scheme u = "socks5"%string) then
       l ←! or_error ProxyIo (ask (UrlAddrs u (Some 1080)));
       a ←! mret (first_addr UrlParseScheme l);
       mret (Ok (Socks5 a None false))
     else mret (Err (UrlBadScheme (u_scheme u))));
  mret (Ok (match u_password u with Some pwd => set_basic_auth (u_username u) pwd scheme | None => scheme end)).
(** A text that is no URL is tried as the address of a SOCKS5 proxy. *)
Definition into_proxy_scheme (s : string) : Try ProxyScheme :=
  match into_url s with
  | Ok u => parse_scheme u
  | Err UrlParseScheme => u ←! mret (into_url ("socks5://" +:+ s)); parse_scheme u
  | Err e => mret (Err e)
  end.

Record Proxy : Type := mkProxy { intercept : ProxyScheme; ms_timeout : Z }.
Definition DEFINE_TIME_OUT : Z := 600.
Definition is_http_or_https (p : Proxy) : bool := match intercept p with Socks5 _ _ _ => false | _ => true end.
Definition from_conf (conf : Socks5Server) (ms : option Z) : Try Proxy :=
  scheme ←! into_proxy_scheme (s5_proxy conf);
  let scheme := if nonempty (s5_password conf) && nonempty (s5_username conf)
                then set_basic_auth (s5_username conf) (s5_password conf) scheme else scheme in
  mret (Ok (mkProxy scheme (default DEFINE_TIME_OUT ms))).

Definition resolve_host (host : string) (default_port : Z) : Try SocketAddr :=
  let '(host_str, port) := match cut ":" host with Some (h, p) => (h, parse_u16 p) | None => (host, None) end in
  l ←! or_error ProxyIo (ask (ResolveHost host_str (default default_port port)));
  mret (first_addr (AddressResolutionFailed host) l).
Definition proxy_addrs (p : ProxyScheme) : Try SocketAddr :=
  match p with
  | Http _ host => resolve_host host 80
  | Https _ host => resolve_host host 443
  | Socks5 addr _ _ => mret (Ok addr)
  end.

(** ** Proxies: the CONNECT request and its answer *)

Definition get_domain_and_port (t : TargetAddr) : string * Z :=
  match t with TargetIp a => (ip_string (ip a), port a) | TargetDomain name p => (name, p) end.
Definition make_request (p : ProxyScheme) (host : string) (port : Z) : string :=
  let authority := host +:+ ":" +:+ to_string port in
  "CONNECT " +:+ authority +:+ " HTTP/1.1" +:+ crlf +:+ "Host: " +:+ authority +:+ crlf +:+
  match maybe_auth p with Some a => get_proxy_authorization a | None => ""%string end +:+ crlf.

Definition MAXIMUM_RESPONSE_HEADER_LENGTH : Z := 4096.
Definition MAXIMUM_RESPONSE_HEADERS : nat := 16.
Definition header_end : bytes := [13; 10; 13; 10].
Definition ends_with (suffix l : bytes) : bool := bool_decide (drop (length l - length suffix) l = suffix).
(** [read_line] until the empty line; every line takes one unit of fuel. *)
Fixpoint get_response (fuel : nat) (c : nat) (response : bytes) : Try bytes :=
  match fuel with
  | O => Stop OutOfFuel
  | S fuel =>
    line ←! or_error ProxyIo (ask (ReadLine c));
    if bool_decide (line = []) then mret (Err EndOfFile) else
    let response := response ++ line in
    if MAXIMUM_RESPONSE_HEADER_LENGTH <? zlen response then mret (Err (MaximumResponseHeaderLengthExceeded (zlen response)))
    else if ends_with header_end response then mret (Ok response)
    else get_response fuel c response
  end.
(** httparse: the code of the status line, with room for so many headers. *)
Context (httparse : nat → bytes → option (option Z)).
Definition recv_and_check_response (fuel : nat) (c : nat) : Try unit :=
  response ←! get_response fuel c [];
  mret (match httparse MAXIMUM_RESPONSE_HEADERS response with
        | None => Err HttpParse
        | Some None => Err NoHttpCode
        | Some (Some code) => if code =? 200 then Ok tt else Err (HttpCode200 code)
        end).
Definition http_connect (fuel : nat) (p : ProxyScheme) (c : nat) (target : TargetAddr) : Try nat :=
  let '(domain, port) := get_domain_and_port target in
  _ ←! done_or_error ProxyIo (ask (WriteFlush c (str_bytes (make_request p domain port))));
  _ ←! recv_and_check_response fuel c;
  mret (Ok c).

(** ** Proxies: connections through them *)

Definition new_stream (ms : Z) (local proxy : SocketAddr) : Try nat := ask (ConnectFrom local proxy ms).
Definition https_connect (fuel : nat) (p : ProxyScheme) (kind : TlsType) (c : nat) (target : TargetAddr) (danger : bool) : Try nat :=
  s ←! or_error TlsFailed (ask (TlsConnect c kind danger (get_domain p)));
  http_connect fuel p s target.
Definition https_connect_nativetls (fuel : nat) (p : ProxyScheme) : nat → TargetAddr → bool → Try nat := https_connect fuel p NativeTls.
Definition https_connect_rustls (fuel : nat) (p : ProxyScheme) : nat → TargetAddr → bool → Try nat := https_connect fuel p Rustls.
Definition upsert (url : string) (kind : TlsType) (danger : bool) : Prog Link unit := ask (PutTls (upsert_tls_cache url kind danger)).
Definition https_connect_nativetls_wrap_danger (fuel : nat) (p : Proxy) (url : string) (local proxy : SocketAddr)
    (target : TargetAddr) (danger : option bool) : Try nat :=
  stream ←! new_stream (ms_timeout p) local proxy;
  s ←! timed (ms_timeout p) (https_connect_nativetls fuel (intercept p) stream target (default false danger));
  upsert url NativeTls (default false danger);;
  mret (Ok s).
(** [stream.unwrap_or(self.new_stream(..).await?)] connects in either case.  The
    recursion ends after two calls ([tries]). *)
Fixpoint https_connect_rustls_wrap_danger (tries fuel : nat) (p : Proxy) (url : string) (local proxy : SocketAddr)
    (stream : option nat) (target : TargetAddr) (is_tls_type_cached : bool) (danger origin_danger : option bool) : Try nat :=
  match tries with
  | O => Stop OutOfFuel
  | S tries =>
    fresh ←! new_stream (ms_timeout p) local proxy;
    let stream := default fresh stream in
    r ←! within_time (ms_timeout p) (https_connect_rustls fuel (intercept p) stream target (default false danger));
    match r with
    | Ok s => upsert url Rustls (default false danger);; mret (Ok s)
    | Err e =>
      match danger with
      | None => https_connect_rustls_wrap_danger tries fuel p url local proxy None target is_tls_type_cached (Some true) origin_danger
      | Some _ =>
        if negb is_tls_type_cached
        then https_connect_nativetls_wrap_danger fuel p url local proxy target origin_danger
        else mret (Err e)
      end
    end
  end.
Definition framed_of (c : nat) (addr : SocketAddr) : nat * Stream := (c, Tcp (framed addr)).
Definition proxy_connect (fuel : nat) (p : Proxy) (target : Target) (local_addr : option SocketAddr) : Try (nat * Stream) :=
  proxy ←! proxy_addrs (intercept p);
  target_addr ←! mret (match into_target_addr target with Some t => Ok t | None => Err TargetParseError end);
  let local := default (get_any_listen_addr (is_ipv4 (ip proxy))) local_addr in
  stream ←! new_stream (ms_timeout p) local proxy;
  addr ←! or_error ProxyIo (ask (LocalAddrOf stream));
  s ←!
    match intercept p with
    | Http _ _ => timed (ms_timeout p) (http_connect fuel (intercept p) stream target_addr)
    | Https _ _ =>
      let url := "https://" +:+ get_host_and_port (intercept p) in
      tls_type ← get_cached_tls_type url <$> ask GetTls;
      core ← ask GetCore;
      danger ← get_cached_tls_accept_invalid_cert url core <$> ask GetTls;
      match default Rustls tls_type with
      | Rustls => https_connect_rustls_wrap_danger 2 fuel p url local proxy (Some stream) target_addr
                    (bool_decide (is_Some tls_type)) danger danger
      | NativeTls => https_connect_nativetls_wrap_danger fuel p url local proxy target_addr danger
      | Plain => mret (Err TlsFailed)
      end
    | Socks5 _ auth _ => timed (ms_timeout p) (or_error ProxyIo (ask (Socks5Connect stream target_addr auth)))
    end;
  mret (Ok (framed_of s addr)).

(** ** TCP *)

Fixpoint connect_first (l : list SocketAddr) (local_addr : option SocketAddr) (ms : Z) : Try (nat * Stream) :=
  match l with
  | [] => mret (Err ProxyIo)
  | remote :: l =>
    let local := default (get_any_listen_addr (is_ipv4 (ip remote))) local_addr in
    r ← ask (ConnectFrom local remote ms);
    match r with
    | Ok c => addr ←! or_error ProxyIo (ask (LocalAddrOf c)); mret (Ok (framed_of c addr))
    | Err _ => connect_first l local_addr ms
    end
  end.
Definition framed_new (remote : Target) (local_addr : option SocketAddr) (ms : Z) : Try (nat * Stream) :=
  l ←! or_error ProxyIo (ask (LookupHost remote));
  connect_first l local_addr ms.
Definition framed_connect (fuel : nat) (target : Target) (local_addr : option SocketAddr) (conf : Socks5Server) (ms : Z) : Try (nat * Stream) :=
  proxy ←! from_conf conf (Some ms);
  proxy_connect fuel proxy target local_addr.

Definition query_nip_io (addr : SocketAddr) : Try SocketAddr :=
  l ←! or_error ProxyIo (ask (LookupHost (TText (ip_string (ip addr) +:+ ".nip.io:" +:+ to_string (port addr)))));
  mret (match List.find (λ a, negb (is_ipv4 (ip a))) l with Some a => Ok a | None => Err ProxyIo end).
Definition connect_tcp_local (fuel : nat) (target : Target) (local : option SocketAddr) (ms : Z) : Try (nat * Stream) :=
  core ← ask GetCore;
  match get_socks core with
  | Some conf => framed_connect fuel target local conf ms
  | None =>
    match resolve target, local with
    | Some target_addr, Some local_addr =>
      if negb (is_ipv4 (ip local_addr)) && is_ipv4 (ip target_addr) then
        resolved ←! query_nip_io target_addr;
        framed_new (TAddr resolved) (Some local_addr) ms
      else framed_new target local ms
    | _, _ => framed_new target local ms
    end
  end.

(** ** Web sockets *)

Definition is_ws_endpoint (endpoint : string) : bool := starts_with "ws://" endpoint || starts_with "wss://" endpoint.
Definition RELAY_PORT_ : Z := 21117.
Definition port_or (s : string) (port : Z) : Z := match split_host_port s with Some (_, p) => p | None => port end.
(** Whether an address is of the relay, and the port of its web socket. *)
Definition ws_port (endpoint_port rendezvous_port relay_port : Z) : bool * Z :=
  if endpoint_port =? rendezvous_port then (false, as_i32 (endpoint_port + 2))
  else if endpoint_port =? as_i32 (rendezvous_port - 1) then (false, as_i32 (endpoint_port + 3))
  else if (endpoint_port =? relay_port) || (endpoint_port =? as_i32 (rendezvous_port + 1)) then (true, as_i32 (endpoint_port + 2))
  else (true, as_i32 (endpoint_port + 2)).
Definition check_ws (s : Core) (endpoint : string) : string :=
  if negb (use_ws s) then endpoint else
  if bool_decide (endpoint = ""%string) then endpoint else
  if is_ws_endpoint endpoint then endpoint else
  match split_host_port endpoint with
  | None => endpoint
  | Some (endpoint_host, endpoint_port) =>
    let rendezvous_port := port_or (get_rendezvous_server s) RENDEZVOUS_PORT_ in
    let relay_port := port_or (get_option "relay-server" s) RELAY_PORT_ in
    let '(relay, dst_port) := ws_port endpoint_port rendezvous_port relay_port in
    if is_ip_str endpoint then "ws://" +:+ endpoint_host +:+ ":" +:+ to_string dst_port
    else
      (if starts_with "https" (get_option "api-server" s) then "wss" else "ws") +:+ "://" +:+
      endpoint_host +:+ (if relay : bool then "/ws/relay" else "/ws/id")
  end.

(** The rejections of [try_connect] and what it does after each. *)
Fixpoint try_connect (tries : nat) (url : string) (ms : Z) (tls_type : TlsType) (is_tls_type_cached : bool)
    (danger original_danger : option bool) : Try nat :=
  match tries with
  | O => Stop OutOfFuel
  | S tries =>
    r ← ask (WsConnect url tls_type (default false danger) ms);
    match r with
    | WsOpen c => upsert url tls_type (default false danger);; mret (Ok c)
    | WsStopped => mret (Err ProxyElapsed)
    | WsRefused =>
      match tls_type, is_tls_type_cached, danger with
      | Rustls, _, None => try_connect tries url ms tls_type is_tls_type_cached (Some true) original_danger
      | Rustls, false, Some _ => try_connect tries url ms NativeTls is_tls_type_cached original_danger original_danger
      | NativeTls, _, None => try_connect tries url ms tls_type is_tls_type_cached (Some true) original_danger
      | _, _, _ => mret (Err TlsFailed)
      end
    end
  end.
Definition TRIES : nat := 4.
Definition ws_connect (url : string) (ms : Z) : Try nat :=
  tls_type ← get_cached_tls_type url <$> ask GetTls;
  core ← ask GetCore;
  danger ← get_cached_tls_accept_invalid_cert url core <$> ask GetTls;
  try_connect TRIES url ms (default Rustls tls_type) (bool_decide (is_Some tls_type)) danger danger.
Definition ws_framed_new (url : string) (ms : Z) : Try (nat * Stream) :=
  c ←! ws_connect url ms;
  addr ←! or_error ProxyIo (ask (PeerAddrOf c));
  mret (Ok (c, WebSocket (ws_new addr ms))).

Definition connect_tcp (fuel : nat) (target : Target) (ms : Z) : Try (nat * Stream) :=
  core ← ask GetCore;
  let target_str := check_ws core (target_string target) in
  if is_ws_endpoint target_str then ws_framed_new target_str ms
  else connect_tcp_local fuel target None ms.

(** ** Datagrams *)

Definition test_target (target : string) : Try SocketAddr :=
  c ← ask (ConnectText target 1000);
  peer ← match c with Some c => ask (PeerAddrOf c) | None => mret None end;
  match peer with
  | Some a => mret (Ok a)
  | None => l ←! or_error ProxyIo (ask (LookupHost (TText target))); mret (first_addr ProxyIo l)
  end.
Definition new_direct_udp_for (target : string) : Try (nat * SocketAddr) :=
  peer_addr ←! test_target target;
  u ←! or_error ProxyIo (ask (BindDatagram (get_any_listen_addr (is_ipv4 (ip peer_addr)))));
  mret (Ok (u, peer_addr)).

Inductive FramedSocket : Type := DirectSocket (u : nat) | ProxySocket (u : nat).
(** The text of the proxy, the user unless its name is blank. *)
Definition udp_new_proxy (proxy : string) (local : SocketAddr) (username password : string) (ms : Z) : Try FramedSocket :=
  u ←! or_error ProxyIo (ask (Socks5Udp proxy local
         (if bool_decide (trim username = ""%string) then None else Some (username, password)) ms));
  mret (Ok (ProxySocket u)).
Definition udp_direct (local : SocketAddr) : Try FramedSocket :=
  u ←! or_error ProxyIo (ask (BindDatagram local)); mret (Ok (DirectSocket u)).
Definition new_udp (local : SocketAddr) (ms : Z) : Try FramedSocket :=
  core ← ask GetCore;
  match get_socks core with
  | None => udp_direct local
  | Some conf => udp_new_proxy (s5_proxy conf) local (s5_username conf) (s5_password conf) ms
  end.
Definition new_udp_for (target : string) (ms : Z) : Try (FramedSocket * TargetAddr) :=
  core ← ask GetCore;
  r ←! (if is_proxy core
        then mret (match text_target_addr target with Some t => Ok (true, t) | None => Err TargetParseError end)
        else addr ←! test_target target; mret (Ok (is_ipv4 (ip addr), TargetIp addr)));
  socket ←! new_udp (get_any_listen_addr r.1) ms;
  mret (Ok (socket, r.2)).
Definition rebind_udp_for (target : string) : Try (option (FramedSocket * TargetAddr)) :=
  core ← ask GetCore;
  if is_proxy core then mret (Ok None) else
  addr ←! test_target target;
  socket ←! udp_direct (get_any_listen_addr (is_ipv4 (ip addr)));
  mret (Ok (Some (socket, TargetIp addr))).
Definition udp_send (s : FramedSocket) (b : bytes) (addr : TargetAddr) : Try unit :=
  match s, addr with
  | DirectSocket u, TargetIp _ => done_or_error ProxyIo (ask (SendDatagram u b addr))
  | DirectSocket _, TargetDomain _ _ => mret (Ok tt)
  | ProxySocket u, _ => done_or_error ProxyIo (ask (SendDatagram u b addr))
  end.
Definition udp_send_bytes (s : FramedSocket) (b : bytes) (addr : SocketAddr) : Try unit :=
  match s with DirectSocket u | ProxySocket u => done_or_error ProxyIo (ask (SendDatagram u b (TargetIp addr))) end.
(** [FramedSocket::new_reuse]: the first address of a name. *)
Definition udp_new_reuse (addr : Target) : Try FramedSocket :=
  l ←! or_error ProxyIo (ask (LookupHost addr));
  a ←! mret (first_addr ProxyIo l);
  udp_direct a.

(** Whether the text of a server will do: the empty text of the code is [true]. *)
Definition test_if_valid_server_for_proxy_ (host : string) : bool := bool_decide (is_Some (text_target_addr host)).
Definition test_if_valid_server (host : string) (test_with_proxy : bool) : Prog Link bool :=
  let host := check_port host 0 in
  core ← ask GetCore;
  if test_with_proxy && is_proxy core then mret (test_if_valid_server_for_proxy_ host)
  else l ← ask (LookupHost (TText host)); mret (bool_decide (is_Some l)).
End transport.
