(* ===== verification/TransportSpec.v ===== *)
(** * What connections promise

    Without leave to accept invalid certificates none is accepted, whatever was
    remembered; with it, in which order the kinds of TLS are tried, and that
    the attempts end.  A tunnel through a proxy hands on every byte after the
    answer of the proxy.  Datagrams are sent, not dropped.  The web socket that
    is called is the one the server listens on.  And what goes wrong with
    addresses of version 6, with a second connection and with the texts of
    URLs. *)
From Stdlib Require Import Ascii.
From S2P Require Import Prelude Programs AddrMangle Text TextFacts HostText JsonTree Instances Keys ServerStart ServerStartSpec ClientIo CoreState CoreConfig BytesCodec Secure Transport.
Local Open Scope Z_scope.
Import AddrMangle.

(** ** Programs in environments that keep a condition *)

(** Answered as [R] allows, [p] asks only questions of [P], ends with a value of
    which [Q] holds, and stops without one only if [S]. *)
Fixpoint sat {E : Type → Type} {A} (R : ∀ X, E X → X → Prop) (P : ∀ X, E X → Prop) (S : Prop) (p : Prog E A) (Q : A → Prop) : Prop :=
  match p with
  | Ret a => Q a
  | Stop _ => S
  | Ask e k => P _ e ∧ ∀ x, R _ e x → sat R P S (k x) Q
  end.

Section sat.
Context {E : Type → Type} (R : ∀ X, E X → X → Prop) (P : ∀ X, E X → Prop) (S : Prop).
Lemma sat_bind {A B} (p : Prog E A) (f : A → Prog E B) Q : sat R P S p (λ a, sat R P S (f a) Q) → sat R P S (p ≫= f) Q.
Proof.
  induction p as [a|h|X e k IH]; [done..|]. intros [He Hk]. split; [done|]. intros x Hx. apply IH, Hk, Hx.
Qed.
Lemma sat_fmap {A B} (f : A → B) (p : Prog E A) Q : sat R P S p (λ a, Q (f a)) → sat R P S (f <$> p) Q.
Proof. apply (sat_bind p (λ a, Ret (f a))). Qed.
Lemma sat_mono {A} (p : Prog E A) (Q Q' : A → Prop) : (∀ a, Q a → Q' a) → sat R P S p Q → sat R P S p Q'.
Proof. intros HQ. induction p as [a|h|X e k IH]; cbn; [apply HQ|done|]. intros [He Hk]. split; [done|]. intros x Hx. apply IH, Hk, Hx. Qed.
Lemma sat_ask {X} (e : E X) Q : P _ e → (∀ x, R _ e x → Q x) → sat R P S (ask e) Q.
Proof. done. Qed.
Lemma sat_cancellable {A} (over : E bool) (p : Prog E A) Q :
  P _ over → sat R P S p (λ a, Q (Some a)) → Q None → sat R P S (cancellable over p) Q.
Proof.
  intros Ho Hp Hn. induction p as [a|h|X e k IH]; [done..|]. destruct Hp as [He Hk]. split; [done|].
  intros [|] _; [done|]. split; [done|]. intros x Hx. apply IH, Hk, Hx.
Qed.
End sat.

Section link.
Context (R : ∀ X, Link X → X → Prop) (P : ∀ X, Link X → Prop) (S : Prop).
Lemma sat_then {A B} (p : Prog Link (result ProxyError A)) (k : A → Prog Link (result ProxyError B)) Q :
  sat R P S p (λ r, match r with Ok a => sat R P S (k a) Q | Err e => Q (Err e) end) → sat R P S (and_then p k) Q.
Proof. intros Hp. apply sat_bind. eapply sat_mono; [|exact Hp]. by intros []. Qed.
Lemma sat_timed {A} ms (p : Prog Link (result ProxyError A)) Q :
  P _ (TimeOver ms) → sat R P S p Q → (∀ e, Q (Err e)) → sat R P S (timed ms p) Q.
Proof.
  intros Ho Hp Hn. apply sat_then. unfold within_time. apply sat_bind. apply sat_cancellable; [done| |apply Hn]. by eapply sat_mono; [|exact Hp].
Qed.
End link.

(** Go through a program, question by question. *)
Ltac sat_step :=
  lazymatch goal with
  | |- sat _ _ _ (mret _) _ => cbn [sat mret Prog_ret]
  | |- sat _ _ _ (and_then _ _) _ => apply sat_then
  | |- sat _ _ _ (timed _ _) _ => apply sat_timed
  | |- sat _ _ _ (or_error _ _) _ => unfold or_error
  | |- sat _ _ _ (done_or_error _ _) _ => unfold done_or_error
  | |- sat _ _ _ (ask _) _ => apply sat_ask
  | |- sat _ _ _ (_ <$> _) _ => apply sat_fmap
  | |- sat _ _ _ (_ ≫= _) _ => apply sat_bind
  | |- sat _ _ _ (match ?x with _ => _ end) _ => destruct x eqn:?
  | |- match ?x with _ => _ end => destruct x eqn:?
  | |- ∀ _, _ => intro
  | |- True => done
  end.
Ltac sat_steps := repeat sat_step.

(** ** Every connection, question by question

    What holds of the handshakes [R] leads to holds of all of [connect_tcp], and
    it stops only if [S], or never with fuel for the answer of a proxy. *)

Definition HEADER_FUEL : nat := Z.to_nat 4097.
(** A question that is neither a handshake nor changes what is remembered. *)
Definition no_handshake {X} (e : Link X) : Prop := match e with TlsConnect _ _ _ _ | WsConnect _ _ _ _ | PutTls _ => False | _ => True end.

Section connections.
Context `{UrlLib} `{Sodium} (httparse : nat → bytes → option (option Z)).
Context (R : ∀ X, Link X → X → Prop) (P : ∀ X, Link X → Prop) (S : Prop) (fuel : nat).
Hypothesis (others : ∀ X (e : Link X), no_handshake e → P X e).
Hypothesis (enough : S ∨ (HEADER_FUEL <= fuel)%nat).

(** Kinds of TLS that may be remembered of a URL. *)
Context (fine : string → TlsType → Prop).
Hypothesis (remembers : ∀ url k d, fine url k → P _ (PutTls (upsert_tls_cache url k d))).
Hypothesis (fine_kinds : ∀ url, fine url NativeTls ∧ fine url Rustls).
Hypothesis (fine_cached : ∀ url t k, R _ GetTls t → get_cached_tls_type url t = Some k → fine url k).
Lemma fine_default url t : R _ GetTls t → fine url (default Rustls (get_cached_tls_type url t)).
Proof. intros Ht. destruct (get_cached_tls_type url t) eqn:E; [by eapply fine_cached|apply fine_kinds]. Qed.

(** Handshakes that may accept as [d] says. *)
Definition handshakes (d : bool) : Prop := (∀ c k n, P _ (TlsConnect c k d n)) ∧ (∀ u k ms, P _ (WsConnect u k d ms)).
Definition allowed (d : option bool) : Prop := handshakes (default false d) ∧ (d = None → handshakes true).
Hypothesis (cached : ∀ url s t, R _ GetCore s → allowed (get_cached_tls_accept_invalid_cert url s t)).

Ltac sat_done := try (apply others; exact I); try (apply remembers; first [assumption|apply fine_kinds]); try done; try (match goal with HQ : ∀ r, ?Q r |- ?Q _ => apply HQ end).
Ltac sat_all := sat_steps; sat_done.

Lemma get_response_sat f c b (Q : result ProxyError bytes → Prop) :
  (∀ r, Q r) → (S ∨ 4096 < zlen b + Z.of_nat f ∧ zlen b <= 4096) → sat R P S (get_response f c b) Q.
Proof.
  intros HQ. revert b. induction f as [|f IH]; intros b Hf; cbn [get_response]; [destruct Hf as [?|?]; [done|lia]|].
  sat_all. apply IH. destruct Hf as [?|[Hf _]]; [by left|right]. bool_simp. unfold MAXIMUM_RESPONSE_HEADER_LENGTH in *.
  rewrite zlen_app in *. assert (zlen a ≠ 0) by (destruct a; [done|unfold zlen; cbn; lia]). pose proof (zlen_nonneg a). lia.
Qed.
Lemma http_connect_sat p c t (Q : result ProxyError nat → Prop) :
  (∀ r, Q r) → sat R P S (http_connect httparse fuel p c t) Q.
Proof.
  intros HQ. unfold http_connect, recv_and_check_response. destruct (get_domain_and_port t) as [d port].
  sat_all. apply get_response_sat; [intros [|]; sat_all|]. destruct enough; [by left|right].
  unfold HEADER_FUEL in *. change (zlen []) with 0. lia.
Qed.
Lemma https_connect_sat p kind c t d (Q : result ProxyError nat → Prop) :
  (∀ r, Q r) → handshakes d → sat R P S (https_connect httparse fuel p kind c t d) Q.
Proof. intros HQ [Hd _]. unfold https_connect. sat_all. by apply http_connect_sat. Qed.
Lemma native_sat p url l pr t d (Q : result ProxyError nat → Prop) :
  (∀ r, Q r) → allowed d → sat R P S (https_connect_nativetls_wrap_danger httparse fuel p url l pr t d) Q.
Proof.
  intros HQ [Hd _]. unfold https_connect_nativetls_wrap_danger, new_stream, upsert. sat_all.
  apply https_connect_sat; [|done]. intros []; sat_all.
Qed.
Lemma rustls_sat tries p url l pr st t b d o (Q : result ProxyError nat → Prop) :
  (∀ r, Q r) → allowed d → allowed o → (match d with None => 2 | Some _ => 1 end <= tries)%nat →
  sat R P S (https_connect_rustls_wrap_danger httparse tries fuel p url l pr st t b d o) Q.
Proof.
  intros HQ Hd Ho. revert st d Hd. induction tries as [|tries IH]; intros st d Hd Ht; [destruct d; lia|].
  cbn [https_connect_rustls_wrap_danger]. unfold new_stream, within_time, upsert. sat_all.
  apply sat_cancellable; [by apply others| |apply HQ]. apply https_connect_sat; [|apply Hd].
  intros r; cbv beta; sat_all; [by apply native_sat|].
  apply IH; [|cbn; lia]. split; [by apply Hd|done].
Qed.
Lemma into_proxy_scheme_sat conf (Q : result ProxyError ProxyScheme → Prop) :
  (∀ r, Q r) → sat R P S (into_proxy_scheme conf) Q.
Proof. intros HQ. unfold into_proxy_scheme. destruct (into_url conf) as [u|[]]; unfold parse_scheme; sat_all. Qed.
Lemma proxy_connect_sat p t l (Q : result ProxyError (nat * Stream) → Prop) :
  (∀ r, Q r) → sat R P S (proxy_connect httparse fuel p t l) Q.
Proof.
  intros HQ. unfold proxy_connect, proxy_addrs, resolve_host, new_stream. sat_all.
  - apply http_connect_sat. intros []; sat_all.
  - apply native_sat; [intros []; sat_all|by apply cached].
  - apply rustls_sat; [intros []; sat_all|by apply cached..|destruct (get_cached_tls_accept_invalid_cert _ _ _); lia].
Qed.
Lemma connect_first_sat l local ms (Q : result ProxyError (nat * Stream) → Prop) :
  (∀ r, Q r) → sat R P S (connect_first l local ms) Q.
Proof. intros HQ. induction l as [|a l IH]; [by apply HQ|]. cbn [connect_first]. sat_all. Qed.
Lemma framed_new_sat t l ms (Q : result ProxyError (nat * Stream) → Prop) :
  (∀ r, Q r) → sat R P S (framed_new t l ms) Q.
Proof. intros HQ. unfold framed_new. sat_all. by apply connect_first_sat. Qed.
Lemma connect_tcp_local_sat t l ms (Q : result ProxyError (nat * Stream) → Prop) :
  (∀ r, Q r) → sat R P S (connect_tcp_local httparse fuel t l ms) Q.
Proof.
  intros HQ. unfold connect_tcp_local, framed_connect, query_nip_io, from_conf. sat_all; try by apply framed_new_sat.
  apply into_proxy_scheme_sat. intros []; sat_all. by apply proxy_connect_sat.
Qed.

(** How many more attempts [try_connect] makes. *)
Definition attempts (kind : TlsType) (is_cached : bool) (d : option bool) : nat :=
  match kind, is_cached, d with
  | Rustls, false, None => 4
  | Rustls, false, Some _ => 3
  | Rustls, true, None | NativeTls, _, None => 2
  | _, _, _ => 1
  end.
Lemma try_connect_sat tries url ms kind b d o (Q : result ProxyError nat → Prop) :
  (∀ r, Q r) → fine url kind → allowed d → allowed o → (attempts kind b d <= tries)%nat → sat R P S (try_connect tries url ms kind b d o) Q.
Proof.
  intros HQ Hk Hd Ho. revert kind b d Hk Hd. induction tries as [|tries IH]; intros kind b d Hk Hd Ht.
  { destruct kind, b, d; cbn in Ht; lia. }
  cbn [try_connect]. unfold upsert. assert (∀ k, P _ (WsConnect url k (default false d) ms)) as Hw by (intros; apply Hd).
  assert (d = None → allowed (Some true)) as Hd' by (intros Ed; split; [by apply Hd|done]).
  sat_all; apply IH; auto; try apply fine_kinds; cbn in *; try (destruct b; cbn in *; lia); try lia. destruct o; lia.
Qed.
Lemma connect_tcp_sat target ms : sat R P S (connect_tcp httparse fuel target ms) (λ _, True).
Proof.
  unfold connect_tcp. sat_all; [|by apply connect_tcp_local_sat].
  unfold ws_framed_new, ws_connect. sat_all. apply try_connect_sat; [intros []; sat_all|by apply fine_default|by apply cached..|].
  unfold TRIES, attempts. by repeat case_match; lia.
Qed.
End connections.

(** ** Certificates *)

(** A configuration that does not allow the fallback, whatever is remembered. *)
Definition disallowing (X : Type) (e : Link X) : X → Prop :=
  match e with GetCore => λ s, allow_insecure_tls_fallback s = false | _ => λ _, True end.
Definition verifying (X : Type) (e : Link X) : Prop :=
  match e with TlsConnect _ _ d _ | WsConnect _ _ d _ => d = false | _ => True end.

(** C9. Without leave to accept invalid certificates, whatever is remembered of
    a host and whatever fails: no connection, direct, by web socket or through a
    proxy, asks for a TLS handshake that does not verify the certificate. *)
Theorem certificates_are_verified `{UrlLib} `{Sodium} httparse fuel target ms :
  sat disallowing verifying True (connect_tcp httparse fuel target ms) (λ _, True).
Proof.
  apply connect_tcp_sat with (fine := λ _ _, True); [by intros X []|by left|done..|].
  intros url s t Hs. unfold get_cached_tls_accept_invalid_cert. change (allow_insecure_tls_fallback s = false) in Hs. rewrite Hs. by split.
Qed.


(** ** In which order, and what stays *)

(** A machine that dials: its configuration, what it remembers, and the
    handshakes it has tried; a server that takes those of [acc]. *)
Record WsWorld : Type := mkWsWorld { ww_core : Core; ww_tls : TlsCache; ww_tried : list (TlsType * bool) }.
Definition ws_handler (acc : TlsType → bool → bool) (peer : SocketAddr) : Handler Link WsWorld := λ X e w,
  match e in Link X return option (X * WsWorld) with
  | GetCore => Some (ww_core w, w)
  | GetTls => Some (ww_tls w, w)
  | PutTls f => Some (tt, mkWsWorld (ww_core w) (f (ww_tls w)) (ww_tried w))
  | WsConnect _ k d _ =>
    Some (if acc k d then WsOpen 0 else WsRefused, mkWsWorld (ww_core w) (ww_tls w) (ww_tried w ++ [(k, d)]))
  | PeerAddrOf _ => Some (Some peer, w)
  | _ => None
  end.
(** The attempts of [l] up to the first one that is taken, and that one. *)
Fixpoint up_to (acc : TlsType → bool → bool) (l : list (TlsType * bool)) : list (TlsType * bool) * option (TlsType * bool) :=
  match l with
  | [] => ([], None)
  | (k, d) :: l => if acc k d then ([(k, d)], Some (k, d)) else let '(t, r) := up_to acc l in ((k, d) :: t, r)
  end.
Definition tries_order : list (TlsType * bool) := [(Rustls, false); (Rustls, true); (NativeTls, false); (NativeTls, true)].
Definition remember (url : string) (r : option (TlsType * bool)) (t : TlsCache) : TlsCache :=
  match r with Some (k, d) => upsert_tls_cache url k d t | None => t end.
Definition answer (r : option (TlsType * bool)) : result ProxyError nat := match r with Some _ => Ok 0%nat | None => Err TlsFailed end.

(** With leave, and a host nothing is known of: Rustls with and then without a
    look at the certificate, then the TLS of the system in the same way; the
    first that is taken is remembered. *)
Theorem attempts_in_order `{UrlLib} acc peer url ms w :
  allow_insecure_tls_fallback (ww_core w) = true → is_plain url = false →
  tc_type (ww_tls w) !! get_domain_and_port_from_url url = None →
  tc_danger (ww_tls w) !! get_domain_and_port_from_url url = None →
  let '(tried, r) := up_to acc tries_order in
  run (ws_handler acc peer) (ws_connect url ms) w =
  (Finished (answer r), mkWsWorld (ww_core w) (remember url r (ww_tls w)) (ww_tried w ++ tried)).
Proof.
  intros Ha Hp Ht Hd. unfold ws_connect, get_cached_tls_type, get_cached_tls_accept_invalid_cert. cbn. rewrite Hp, Ht.
  change (bool_decide (get_option "allow-insecure-tls-fallback" (ww_core w) = "Y"%string)) with (allow_insecure_tls_fallback (ww_core w)).
  rewrite Ha. cbn. rewrite Hd. cbn. unfold upsert.
  repeat (match goal with |- context [acc ?k ?d] => destruct (acc k d) eqn:? end; cbn;
    repeat match goal with E : acc _ _ = _ |- _ => rewrite !E end; cbn); by rewrite <- ?app_assoc; destruct w.
Qed.

(** What was remembered of a host is the only handshake tried with it: one that
    did not look at the certificate is repeated, one the server no longer takes
    is not followed by any other. *)
Theorem remembered_kind_is_only_one `{UrlLib} acc peer url ms w k d :
  allow_insecure_tls_fallback (ww_core w) = true → is_plain url = false → k ≠ Plain →
  tc_type (ww_tls w) !! get_domain_and_port_from_url url = Some k →
  tc_danger (ww_tls w) !! get_domain_and_port_from_url url = Some d →
  run (ws_handler acc peer) (ws_connect url ms) w =
  (Finished (if acc k d then Ok 0%nat else Err TlsFailed), mkWsWorld (ww_core w) (ww_tls w) (ww_tried w ++ [(k, d)])).
Proof.
  intros Ha Hp Hk Ht Hd. unfold ws_connect, get_cached_tls_type, get_cached_tls_accept_invalid_cert. cbn. rewrite Hp, Ht.
  change (bool_decide (get_option "allow-insecure-tls-fallback" (ww_core w) = "Y"%string)) with (allow_insecure_tls_fallback (ww_core w)).
  rewrite Ha. cbn. rewrite Hd. cbn. unfold upsert. destruct (acc k d) eqn:E; cbn; rewrite ?E; cbn.
  - unfold upsert_tls_cache. rewrite Hp. do 2 f_equal.
    destruct w as [c [ty da] l]; cbn in *. by rewrite !insert_id.
  - destruct k; [done|by rewrite ?E|by rewrite ?E].
Qed.

(** ** The names under which TLS is remembered *)

Definition url_text (scheme rest : string) : string := scheme +:+ "://" +:+ rest.
Lemma until_app p a c b : all_chars (λ x, negb (p x)) a = true → p c = true → until p (a +:+ String c b) = a.
Proof.
  intros Ha Hc. induction a as [|x a IH]; str_simp; cbn in *; [by rewrite Hc|]. bool_simp.
  match goal with E : p _ = false |- _ => rewrite E end. by rewrite IH.
Qed.
Lemma until_all p a : all_chars (λ x, negb (p x)) a = true → until p a = a.
Proof. induction a as [|x a IH]; [done|]. cbn. intros Ha. bool_simp. match goal with E : p _ = false |- _ => rewrite E end. by rewrite IH. Qed.
Lemma url_after_scheme scheme rest :
  has_char ":" scheme = false → cut_str "://" (url_text scheme rest) = Some (scheme, rest).
Proof. intros Hs. by apply (cut_str_app ":" "//"). Qed.
Definition host_chars (h : string) : bool := all_chars (λ c, negb (Ascii.eqb c "/" || Ascii.eqb c "?")) h && negb (has_char "@" h).

(** The host and port of a URL, with or without a user before it, is the name
    of its entry, as long as nothing after the host has an [@]. *)
Theorem entry_is_host scheme user host path :
  has_char ":" scheme = false → host_chars host = true → has_char "@" path = false →
  get_domain_and_port_from_url (url_text scheme host) = host ∧
  get_domain_and_port_from_url (url_text scheme (host +:+ "/" +:+ path)) = host ∧
  get_domain_and_port_from_url (url_text scheme (user +:+ "@" +:+ host +:+ "/" +:+ path)) = host.
Proof.
  intros Hs Hh Hp. unfold host_chars in Hh. bool_simp. unfold get_domain_and_port_from_url. rewrite !url_after_scheme by done.
  assert (has_char "@" (host +:+ String "/" path) = false) as Hhp.
  { rewrite has_char_app. cbn [has_char]. rewrite Hp. apply orb_false_iff. split; [done|]. by rewrite bool_decide_eq_false_2. }
  split_and!.
  - rewrite rcut_none by done. by apply until_all.
  - change ("/" +:+ path) with (String "/" path). rewrite rcut_none by done. by apply until_app.
  - change ("@" +:+ host +:+ "/" +:+ path) with (String "@" (host +:+ String "/" path)). rewrite rcut_app by done. by apply until_app.
Qed.

(** With an [@] behind the host the entry is the one of another name, for any
    host at all: what is remembered of the one is used for the other. *)
Theorem entry_of_another_host scheme host path other tls danger t :
  has_char ":" scheme = false → is_plain (url_text scheme (host +:+ "/" +:+ path +:+ "@" +:+ other)) = false →
  host_chars other = true →
  upsert_tls_cache (url_text scheme (host +:+ "/" +:+ path +:+ "@" +:+ other)) tls danger t =
  mkTlsCache (<[other := tls]> (tc_type t)) (<[other := danger]> (tc_danger t)).
Proof.
  intros Hs Hp Ho. unfold host_chars in Ho. bool_simp. unfold upsert_tls_cache. rewrite Hp.
  unfold get_domain_and_port_from_url. rewrite url_after_scheme by done.
  replace (host +:+ "/" +:+ path +:+ "@" +:+ other) with ((host +:+ "/" +:+ path) +:+ String "@" other) by by rewrite !app_string_assoc.
  rewrite rcut_app by done. by rewrite until_all.
Qed.

(** ** Plain connections are not remembered *)

Definition no_plain (t : TlsCache) : Prop := ∀ h, tc_type t !! h ≠ Some Plain.
Definition cache_kept (X : Type) (e : Link X) : Prop := match e with PutTls f => ∀ t, no_plain t → no_plain (f t) | _ => True end.
Definition cache_good (X : Type) (e : Link X) : X → Prop := match e with GetTls => no_plain | _ => λ _, True end.
Lemma upsert_no_plain url k d t : (k = Plain → is_plain url = true) → no_plain t → no_plain (upsert_tls_cache url k d t).
Proof.
  intros Hk Ht. unfold upsert_tls_cache. destruct (is_plain url) eqn:E; [done|]. intros h. cbn.
  destruct (decide (get_domain_and_port_from_url url = h)) as [->|Hne].
  - rewrite lookup_insert_eq. intros [= ->]. by specialize (Hk eq_refl).
  - by rewrite lookup_insert_ne.
Qed.

(** No connection makes an entry of a plain kind: a proxy that is reached by
    HTTPS is never taken for one without TLS. *)
Theorem plain_never_remembered `{UrlLib} `{Sodium} httparse fuel target ms :
  sat cache_good cache_kept True (connect_tcp httparse fuel target ms) (λ _, True) ∧
  (∀ rest t, no_plain t → get_cached_tls_type ("https://" +:+ rest) t ≠ Some Plain).
Proof.
  split; [|by intros rest t Ht; apply Ht].
  apply connect_tcp_sat with (fine := λ url k, k = Plain → is_plain url = true); [by intros X []|by left|..].
  - intros url k d Hk t. by apply upsert_no_plain.
  - done.
  - intros url t k Ht E ->. unfold get_cached_tls_type in E. destruct (is_plain url); [done|]. by apply Ht in E.
  - intros url s t _. by repeat split.
Qed.
