(* ===== verification/ProxySpec.v ===== *)
(** * Proxies, datagrams and web sockets at work

    The programs of [Transport] in worlds: a tunnel through a proxy hands on
    what follows the answer of the proxy, whatever that is; datagrams have an
    address their socket can send to; the web socket that is called is one the
    server has open.  And what fails: proxies and targets with addresses of
    version 6, an HTTPS proxy that takes one connection, the address of a web
    socket. *)
From Stdlib Require Import Ascii.
From S2P Require Import Prelude Programs AddrMangle Text TextFacts Regex HostText JsonTree Instances Keys Rendezvous ServerStart ServerStartSpec ClientIo CoreState CoreConfig BytesCodec Secure Transport TransportSpec.
Local Open Scope Z_scope.
Import AddrMangle.

(** ** A tunnel *)

(** What the proxy sent and is not read, and what was written to it. *)
Record TunnelWorld : Type := mkTunnelWorld { tw_in : bytes; tw_out : bytes }.
(** [read_line]: up to a line feed, or the end. *)
Fixpoint take_line (b : bytes) : bytes * bytes :=
  match b with
  | [] => ([], [])
  | x :: r => if x =? 10 then ([x], r) else let '(l, rest) := take_line r in (x :: l, rest)
  end.
Definition tunnel_handler : Handler Link TunnelWorld := λ X e w,
  match e in Link X return option (X * TunnelWorld) with
  | WriteFlush _ b => Some (true, mkTunnelWorld (tw_in w) (tw_out w ++ b))
  | ReadLine _ =>
    let '(l, rest) := take_line (tw_in w) in
    Some (if bool_decide (is_Some (from_utf8 l)) then Some l else None, mkTunnelWorld rest (tw_out w))
  | TimeOver _ => Some (false, w)
  | _ => None
  end.

Definition is_line (l : bytes) : Prop := ∃ t, l = t ++ [10] ∧ 10 ∉ t.
Lemma take_line_line l rest : is_line l → take_line (l ++ rest) = (l, rest).
Proof.
  intros (t & -> & Ht). rewrite <- app_assoc. induction t as [|x t IH]; [done|]. apply not_elem_of_cons in Ht as [Hx Ht].
  change ((x :: t) ++ [10] ++ rest) with (x :: (t ++ [10] ++ rest)). cbn [take_line].
  rewrite (proj2 (Z.eqb_neq x 10)) by congruence. by rewrite IH.
Qed.
Lemma line_nonempty l : is_line l → l ≠ [].
Proof. intros (t & -> & _) E. by apply app_nil in E as []. Qed.

Section tunnel.
Context `{UrlLib} `{Sodium} (httparse : nat → bytes → option (option Z)).

(** The lines of an answer: none of its beginnings ends as the answer does. *)
Definition is_answer (ls : list bytes) : Prop :=
  Forall is_line ls ∧ Forall (λ l, is_Some (from_utf8 l)) ls ∧ zlen (concat ls) <= 4096 ∧
  ends_with header_end (concat ls) = true ∧
  ∀ i, (i < length ls)%nat → ends_with header_end (concat (take i ls)) = false.

Lemma get_response_lines ls before rest c fuel out :
  Forall is_line ls → Forall (λ l, is_Some (from_utf8 l)) ls → zlen (before ++ concat ls) <= 4096 →
  ends_with header_end (before ++ concat ls) = true →
  (∀ i, (i < length ls)%nat → ends_with header_end (before ++ concat (take i ls)) = false) → (length ls <= fuel)%nat → ls ≠ [] →
  run tunnel_handler (get_response fuel c before) (mkTunnelWorld (concat ls ++ rest) out) =
  (Finished (Ok (before ++ concat ls)), mkTunnelWorld rest out).
Proof.
  revert before fuel. induction ls as [|l ls IH]; intros before fuel Hl Hu Hn He Hi Hf Hne; [done|].
  destruct fuel as [|fuel]; [cbn in Hf; lia|]. apply Forall_cons in Hl as [Hl Hls], Hu as [Hu Hus].
  cbn [concat] in *. cbn [get_response and_then or_error ask mbind Prog_bind prog_bind run tunnel_handler tw_in tw_out].
  rewrite <- app_assoc, take_line_line, bool_decide_eq_true_2 by done. cbn [mret Prog_ret mbind Prog_bind prog_bind run].
  rewrite bool_decide_eq_false_2 by by apply line_nonempty. rewrite app_assoc in Hn, He.
  assert (zlen (before ++ l) <= 4096) as Hb by (rewrite zlen_app in Hn; pose proof (zlen_nonneg (concat ls)); lia).
  unfold MAXIMUM_RESPONSE_HEADER_LENGTH. rewrite (proj2 (Z.ltb_ge _ _)) by done.
  destruct ls as [|l2 ls].
  { cbn [concat] in *. rewrite !app_nil_r in *. by rewrite He. }
  specialize (Hi 1%nat) as H1. cbn in H1. rewrite app_nil_r in H1. rewrite H1 by lia.
  rewrite IH; [by rewrite app_assoc|done|done|done|done| |cbn in *; lia|done].
  intros i Hlt. rewrite <- app_assoc. apply (Hi (S i)). cbn in *. lia.
Qed.

(** C38. A proxy that answers with lines up to an empty one, of at most 4096 bytes,
    gets one request, for the target and with the credentials there are; the
    tunnel is there when the code is 200 and refused otherwise; and the first
    byte read from it is the first byte after the answer. *)
Theorem tunnel_begins_after_answer p target ls rest c fuel :
  is_answer ls → (length ls <= fuel)%nat →
  run tunnel_handler (http_connect httparse fuel p c target) (mkTunnelWorld (concat ls ++ rest) []) =
  (Finished (match httparse MAXIMUM_RESPONSE_HEADERS (concat ls) with
             | None => Err HttpParse | Some None => Err NoHttpCode
             | Some (Some code) => if code =? 200 then Ok c else Err (HttpCode200 code) end),
   mkTunnelWorld rest (str_bytes (make_request p (get_domain_and_port target).1 (get_domain_and_port target).2))).
Proof.
  intros (Hl & Hu & Hn & He & Hi) Hf. unfold http_connect. destruct (get_domain_and_port target) as [dom port]. cbn [fst snd].
  cbn [and_then done_or_error ask mbind Prog_bind prog_bind run tunnel_handler tw_in tw_out mret Prog_ret app].
  assert (ls ≠ []) as Hne by (intros ->; cbn in He; vm_compute in He; discriminate).
  unfold and_then, recv_and_check_response.
  erewrite run_bind_eq; last first.
  { unfold and_then. erewrite run_bind_eq; [|by apply (get_response_lines ls [] rest c fuel)]. cbn [app run mret Prog_ret]. reflexivity. }
  destruct (httparse _ _) as [[code|]|]; [|done..]. by destruct (code =? 200).
Qed.

(** A line is read to its end before its length is looked at: of [n] bytes all
    are read. *)
Theorem header_limit_comes_late c fuel l rest out :
  is_line l → is_Some (from_utf8 l) → 4096 < zlen l →
  run tunnel_handler (get_response (S fuel) c []) (mkTunnelWorld (l ++ rest) out) =
  (Finished (Err (MaximumResponseHeaderLengthExceeded (zlen l))), mkTunnelWorld rest out).
Proof.
  intros Hl Hu Hn. cbn [get_response and_then or_error ask mbind Prog_bind prog_bind run tunnel_handler tw_in tw_out].
  rewrite take_line_line, bool_decide_eq_true_2 by done. cbn [mret Prog_ret mbind Prog_bind prog_bind run].
  rewrite bool_decide_eq_false_2 by by apply line_nonempty. cbn [app].
  unfold MAXIMUM_RESPONSE_HEADER_LENGTH. by rewrite (proj2 (Z.ltb_lt _ _)).
Qed.
End tunnel.

(** ** Two connections to one proxy *)

(** A proxy that takes [cw_free] more connections; every handshake and every
    request succeeds. *)
Record CountWorld : Type := mkCountWorld { cw_free : nat; cw_made : nat; cw_core : Core; cw_tls : TlsCache }.
Definition count_handler (answer_ : bytes) (proxy : SocketAddr) : Handler Link CountWorld := λ X e w,
  match e in Link X return option (X * CountWorld) with
  | GetCore => Some (cw_core w, w)
  | GetTls => Some (cw_tls w, w)
  | PutTls f => Some (tt, mkCountWorld (cw_free w) (cw_made w) (cw_core w) (f (cw_tls w)))
  | ResolveHost _ _ => Some (Some [proxy], w)
  | ConnectFrom _ _ _ =>
    match cw_free w with
    | O => Some (Err ProxyIo, w)
    | S n => Some (Ok (cw_made w), mkCountWorld n (S (cw_made w)) (cw_core w) (cw_tls w))
    end
  | LocalAddrOf _ => Some (Some proxy, w)
  | TlsConnect c _ _ _ => Some (Some c, w)
  | WriteFlush _ _ => Some (true, w)
  | ReadLine _ => Some (Some answer_, w)
  | TimeOver _ => Some (false, w)
  | _ => None
  end.
Definition established : bytes := str_bytes ("HTTP/1.1 200 OK" +:+ crlf +:+ crlf).

(** Through an HTTPS proxy that nothing is remembered of, the tunnel needs two
    connections at a time: the first goes unused when there is a second, and
    is no help when there is not. *)
Theorem https_proxy_needs_two `{UrlLib} `{Sodium} httparse fuel auth host ms target t local proxy w :
  into_target_addr target = Some t → httparse MAXIMUM_RESPONSE_HEADERS established = Some (Some 200) →
  get_cached_tls_type ("https://" +:+ append_default_port host 443) (cw_tls w) = None →
  (cw_free w = 1 → ∃ w', run (count_handler established proxy) (proxy_connect httparse (S fuel) (mkProxy (Https auth host) ms) target local) w
     = (Finished (Err ProxyIo), w'))%nat ∧
  (cw_free w = 2 → ∃ w' s, run (count_handler established proxy) (proxy_connect httparse (S fuel) (mkProxy (Https auth host) ms) target local) w
     = (Finished (Ok s), w') ∧ cw_made w' = cw_made w + 2)%nat.
Proof.
  intros Ht Hh Hc. destruct w as [free made core tls]; cbn [cw_free cw_made cw_core cw_tls] in *.
  set (url := "https://" +:+ append_default_port host 443) in *.
  set (d := get_cached_tls_accept_invalid_cert url core tls).
  split; intros ->; unfold proxy_connect, proxy_addrs, resolve_host; cbn [intercept ms_timeout];
    (destruct (match cut ":" host with Some (h, p) => _ | None => _ end) as [hs pt]); cbn -[https_connect_rustls_wrap_danger];
    rewrite Ht; cbn -[https_connect_rustls_wrap_danger get_cached_tls_type get_cached_tls_accept_invalid_cert].
  - fold url. rewrite Hc. fold d. cbn. by eexists.
  - fold url. rewrite Hc. fold d. cbn -[make_request established ends_with]. unfold https_connect, http_connect, recv_and_check_response.
    destruct (get_domain_and_port t) as [dom port]. cbn -[make_request established ends_with].
    change (bool_decide (established = [])) with false. cbv iota. change (MAXIMUM_RESPONSE_HEADER_LENGTH <? zlen established) with false. cbv iota.
    change (ends_with header_end established) with true. cbn -[make_request established]. rewrite Hh. cbn. eexists _, _. split; [reflexivity|cbn; lia].
Qed.

(** ** Hosts of proxies *)

Lemma digits_from_bad c s acc : has_char c s = true → digit c = None → digits_from acc s = None.
Proof.
  revert acc. induction s as [|x s IH]; intros acc Hc Hd; [done|]. cbn in *. destruct (digit x) eqn:E; [|done]. cbn.
  apply orb_true_iff in Hc as [Hc|Hc]; [bool_simp; congruence|by apply IH].
Qed.
Lemma parse_u16_bracket s : has_char "]" s = true → parse_u16 s = None.
Proof.
  intros Hc. assert (∀ t, has_char "]" t = true → digits t = None) as Hd.
  { intros [|x t] Ht; [done|]. unfold digits. by apply (digits_from_bad "]"). }
  unfold parse_u16, parse_int. repeat case_match; subst; rewrite ?Hd by done; try done; rewrite ?Hd; try done.
Qed.

(** The proxy of a URL is looked up by its host and its port; the port is 80 or
    443 where none is written. *)
Theorem plain_proxy_host host p d :
  has_char ":" host = false → 0 <= p < 65536 →
  resolve_host (host +:+ ":" +:+ to_string p) d =
    (l ←! or_error ProxyIo (ask (ResolveHost host p)); mret (first_addr (AddressResolutionFailed (host +:+ ":" +:+ to_string p)) l)) ∧
  resolve_host host d = (l ←! or_error ProxyIo (ask (ResolveHost host d)); mret (first_addr (AddressResolutionFailed host) l)).
Proof.
  intros Hh Hp. unfold resolve_host. change (":" +:+ to_string p) with (String ":" (to_string p)).
  rewrite cut_app, cut_none by done. unfold parse_u16. rewrite parse_int_to_string by lia. done.
Qed.
(** A host of version 6, in its brackets, is cut at its first colon: whatever the
    address and the port, the name looked up is the bracket with the first
    group, at the default port. *)
Theorem v6_proxy_host t tail d :
  has_char ":" t = true →
  ∃ group, has_char ":" group = false ∧
    resolve_host ("[" +:+ t +:+ "]" +:+ tail) d =
    (l ←! or_error ProxyIo (ask (ResolveHost ("[" +:+ group) d)); mret (first_addr (AddressResolutionFailed ("[" +:+ t +:+ "]" +:+ tail)) l)).
Proof.
  intros Ht. destruct (cut ":" t) as [[a b]|] eqn:E; last first.
  { exfalso. clear -E Ht. induction t as [|x t IH]; [done|]. cbn in *. destruct (bool_decide (x = ":"%char)); [done|].
    destruct (cut ":" t) as [[? ?]|]; [done|]. by apply IH. }
  apply cut_some in E as [-> Ha]. exists a. split; [done|]. unfold resolve_host.
  assert (cut ":" ("[" +:+ (a +:+ String ":" b) +:+ "]" +:+ tail) = Some ("[" +:+ a, b +:+ "]" +:+ tail)) as ->.
  { rewrite app_string_assoc. str_simp. apply (cut_app ":" (String "[" a)). done. }
  rewrite parse_u16_bracket; [done|]. rewrite has_char_app. apply orb_true_iff. by right.
Qed.

(** ** The target of a request *)

Lemma parse_ipv4_string a b c d : bytes_ok [a; b; c; d] → parse_ipv4 (ipv4_string a b c d) = Some [a; b; c; d].
Proof.
  intros Hok. assert (∀ n, u8_ok n → parse_octet (to_string n) = Some n) as Ho.
  { intros n Hn. assert (forallb (λ n, bool_decide (parse_octet (to_string n) = Some n)) (seqZ 0 256) = true) as F by (vm_compute; done).
    rewrite List.forallb_forall in F. specialize (F n). rewrite bool_decide_eq_true in F. apply F.
    apply list_elem_of_In, elem_of_seqZ. unfold u8_ok in Hn. lia. }
  assert (∀ n, u8_ok n → has_char "." (to_string n) = false) as Hd by (intros n Hn; apply has_char_to_string; [unfold u8_ok in Hn; lia|done]).
  unfold bytes_ok in Hok. rewrite !Forall_cons in Hok. destruct Hok as (Ha & Hb & Hc & He & _).
  unfold parse_ipv4, ipv4_string. cbn [join]. str_simp.
  rewrite !split_on_app, !split_on_none by auto. cbn [app]. by rewrite !Ho by done.
Qed.
Definition hex_text (s : string) : bool := all_chars is_hex s.
Lemma hex16_text n : hex_text (hex16 n) = true.
Proof.
  assert (∀ n, is_hex (hex_digit (n mod 16)) = true) as Hd.
  { intros m. assert (forallb (λ n, is_hex (hex_digit n)) (seqZ 0 16) = true) as F by (vm_compute; done).
    rewrite List.forallb_forall in F. apply F, list_elem_of_In, elem_of_seqZ. pose proof (Z.mod_pos_bound m 16). lia. }
  unfold hex16. assert (∀ f m acc, hex_text acc = true → hex_text (hex_nonneg f m acc) = true) as G; [|by apply G].
  induction f as [|f IH]; intros m acc Ha; cbn; unfold hex_text in *; cbn; [by rewrite Hd, Ha|].
  destruct (m <? 16); [by cbn; rewrite Hd, Ha|]. apply IH. cbn. by rewrite Hd, Ha.
Qed.
(** The text of an address of version 6 begins with hexadecimal digits, if any,
    and a colon. *)
Lemma v6_text_shape o : length o = 16%nat → ∃ a b, ipv6_string o = a +:+ String ":" b ∧ hex_text a = true.
Proof.
  intros Hl. unfold ipv6_string. destruct (_ && _) eqn:Em.
  - bool_simp. destruct o as [|? [|? [|? [|? [|? [|? [|? [|? [|? [|? [|? [|? [|a [|b [|c [|d [|]]]]]]]]]]]]]]]]]; try done.
    cbn. by eexists ""%string, _.
  - destruct (longest_zeros _ _ _ _ _ _) as [start len]. destruct (Nat.ltb 1 len).
    + destruct (take start (segments o)) as [|x l].
      * by eexists ""%string, _.
      * exists (hex16 x). destruct l as [|y l]; eexists; (split; [|apply hex16_text]); cbn [fmap list_fmap join].
        -- by str_simp.
        -- rewrite !app_string_assoc. by str_simp.
    + destruct o as [|a [|b [|c [|d o]]]]; try done. cbn [segments fmap list_fmap join].
      eexists (hex16 _), _. split; [|apply hex16_text]. by str_simp.
Qed.

(** A target of version 4 stands in the request so that it can be read back; one
    of version 6 stands there without brackets, and is no address. *)
Theorem request_target `{Sodium} p a :
  addr_ok a →
  let '(host, port) := get_domain_and_port (TargetIp a) in
  let authority := host +:+ ":" +:+ to_string port in
  (∃ rest, make_request p host port = "CONNECT " +:+ authority +:+ " HTTP/1.1" +:+ rest) ∧
  parse_socket_addr authority = if is_ipv4 (ip a) then Some a else None.
Proof.
  intros [Hip Hp]. destruct a as [i n]. cbn [get_domain_and_port ip port] in *. cbv zeta. split; [by eexists|]. unfold u16_ok in Hp.
  assert (parse_port (to_string n) = Some n) as Hn.
  { unfold parse_port. unfold to_string. rewrite (proj2 (Z.ltb_ge n 0)) by lia. rewrite Z.abs_eq by lia.
    rewrite digits_to_string_nonneg by lia. cbn. unfold within. by rewrite (proj2 (andb_true_iff _ _)) by lia. }
  destruct i as [x y z w|o]; cbn [ip_string is_ipv4].
  - change (":" +:+ to_string n) with (String ":" (to_string n)). unfold parse_socket_addr.
    destruct (strip_prefix "[" _) eqn:E.
    { exfalso. apply strip_prefix_some in E. apply (f_equal (has_char "[")) in E. rewrite has_char_app in E. cbn [has_char] in E.
      rewrite (has_char_to_string "[" n) in E by (lia || done). unfold ipv4_string in E. cbn [join] in E.
      unfold bytes_ok in Hip. cbn in Hip. rewrite !has_char_app in E. unfold bytes_ok in Hip.
      rewrite !Forall_cons in Hip. destruct Hip as (? & ? & ? & ? & _). unfold u8_ok in *.
      rewrite !has_char_to_string in E by (lia || done). discriminate. }
    rewrite cut_app by by apply has_char_ipv4. cbn [mbind option_bind]. rewrite parse_ipv4_string by done. cbn [mbind option_bind]. by rewrite Hn.
  - destruct (v6_text_shape o) as (a & b & -> & Ha); [apply Hip|]. unfold parse_socket_addr.
    assert (∀ c, is_hex c = false → has_char c a = false) as Hc by (intros c; by apply has_char_all).
    replace ((a +:+ String ":" b) +:+ ":" +:+ to_string n) with (a +:+ String ":" (b +:+ ":" +:+ to_string n)) by by rewrite app_string_assoc.
    destruct (strip_prefix "[" _) eqn:E.
    { exfalso. apply strip_prefix_some in E. destruct a as [|h a]; str_simp; injection E as E _; [done|].
      subst h. specialize (Hc "["%char eq_refl). cbn in Hc. bool_simp. done. }
    rewrite cut_app by by apply Hc. cbn [mbind option_bind]. unfold parse_ipv4. by rewrite split_on_none by by apply Hc.
Qed.

(** ** Datagrams *)

Lemma proxy_is_socks s : is_proxy s = bool_decide (is_Some (get_socks s)).
Proof.
  unfold is_proxy, get_network_type, get_socks, get_socks_from_custom_client_advanced_settings.
  destruct (co_overwrite s !! "proxy-url"%string) as [u|]; cbn; [done|].
  destruct (c2_socks (co_config2 s)) as [c|]; cbn; [done|]. by destruct (co_defaults s !! "proxy-url"%string).
Qed.
(** A configuration that does not change in between. *)
Definition steady (c : Core) (X : Type) (e : Link X) : X → Prop := match e with GetCore => λ s, s = c | _ => λ _, True end.
(** Whatever is resolved and answered: the socket made for a target is one that
    sends to it; a direct socket has an address, a name goes to a proxy, and one
    datagram is one question to the network. *)
Theorem datagrams_are_sent `{UrlLib} `{Sodium} c target ms b :
  sat (steady c) (λ _ _, True) True (new_udp_for target ms) (λ r, match r with
    | Ok (s, t) => ∃ u, udp_send s b t = done_or_error ProxyIo (ask (SendDatagram u b t)) ∧
                        (s = DirectSocket u ↔ get_socks c = None)
    | Err _ => True end).
Proof.
  unfold new_udp_for, new_udp, udp_direct, udp_new_proxy, test_target. sat_steps; try done.
  all: repeat match goal with E : steady _ _ GetCore _ |- _ => cbn in E; subst end; cbn in *.
  all: rewrite proxy_is_socks in *; bool_simp; try (case_bool_decide; [|by eexists]).
  all: repeat match goal with E : get_socks _ = _ |- _ => rewrite E in * end; bool_simp.
  all: try (exfalso; match goal with E : is_Some None |- _ => by destruct E | E : ¬ is_Some (Some _) |- _ => by apply E; eexists end).
  all: simplify_eq; try by eexists.
  all: match goal with |- ∃ _, udp_send (_ ?u) _ _ = _ ∧ _ => exists u; by destruct (text_target_addr target) || by split end.
Qed.

(** ** Web sockets and the servers *)

Lemma ipv4_plain_host a b c d : bytes_ok [a; b; c; d] → plain_host (ipv4_string a b c d) = true.
Proof.
  intros Hok. unfold plain_host. rewrite has_char_ipv4 by done. cbn [negb andb].
  destruct (is_match HEX14 _) eqn:E; [|done]. exfalso. apply is_match_spec, hex14_spec in E as [E _].
  apply (has_char_all "." is_hex) in E; [|done]. unfold ipv4_string in E. cbn [join] in E.
  rewrite has_char_app in E. apply orb_false_iff in E as [_ E]. by vm_compute in E.
Qed.
Lemma split_ipv4_port a b c d p :
  bytes_ok [a; b; c; d] → 0 < p < 2 ^ 31 →
  split_host_port (ipv4_string a b c d +:+ ":" +:+ to_string p) = Some (ipv4_string a b c d, p).
Proof.
  intros Hok Hp. change (":" +:+ to_string p) with (String ":" (to_string p)).
  destruct (plain_port (ipv4_string a b c d) (to_string p)) as (E6 & Ec & Es);
    [by apply ipv4_plain_host|by apply digit_no_colon; lia|apply to_string_nonempty|].
  unfold split_host_port. rewrite E6, Ec. by apply host_and_port_two.
Qed.

(** A client that uses web sockets and is configured for a rendezvous server
    that is up: for its main port and for the port of its NAT test it calls the
    port on which the server takes web sockets. *)
Theorem web_socket_is_served `{KeyLib} `{ServerLib} m ini args env h r s a b c d p :
  hbbs m ini args env = Up (h, r) → ha_port h <= 65533 →
  use_ws s = true → port_or (get_rendezvous_server s) RENDEZVOUS_PORT_ = ha_port h →
  bytes_ok [a; b; c; d] → (p = ha_port h ∨ p = ha_port h - 1) →
  ∃ q, check_ws s (ipv4_string a b c d +:+ ":" +:+ to_string p) = "ws://" +:+ ipv4_string a b c d +:+ ":" +:+ to_string q ∧
    rn_tcp r !! 2%nat = Some q.
Proof.
  intros Hup Hport Hws Hr Hok Hp. destruct (hbbs_listens m ini args env h r Hup) as (Hlow & _ & Ht).
  exists (ha_port h + 2). rewrite Ht. split; [|cbn; f_equal; apply Z.mod_small; lia].
  unfold check_ws. rewrite Hws. cbn [negb].
  destruct (ipv4_text_recognized a b c d p Hok) as [_ Hrec]; [lia|].
  rewrite bool_decide_eq_false_2; last first.
  { intros E. by rewrite E in Hrec. }
  destruct (is_ws_endpoint _) eqn:Ew.
  { exfalso. unfold is_ws_endpoint, starts_with in Ew.
    assert (∀ x, ipv4_string a b c d +:+ ":" +:+ to_string p ≠ String "w" x) as Hne.
    { intros x E. assert (is_digit "w" = true) as F; [|done].
      unfold bytes_ok in Hok. rewrite !Forall_cons in Hok. destruct Hok as (Ha & _). unfold u8_ok in Ha.
      unfold ipv4_string in E. cbn [join] in E. pose proof (all_digits_to_string a ltac:(lia)) as Hd.
      destruct (to_string a) as [|y t] eqn:Et; [by apply to_string_nonempty in Et|]. rewrite !app_string_assoc in E. str_simp.
      injection E as -> _. cbn in Hd. by bool_simp. }
    apply orb_true_iff in Ew as [Ew|Ew]; bool_simp; destruct Ew as [x Ew]; apply strip_prefix_some in Ew; by apply Hne in Ew. }
  rewrite split_ipv4_port by (done || lia). rewrite Hr. unfold is_ip_str. rewrite Hrec. cbn [orb].
  unfold ws_port. assert (∀ z, - 2 ^ 31 <= z < 2 ^ 31 → as_i32 z = z) as Hi by (intros z Hz; unfold as_i32; rewrite Z.mod_small; lia).
  destruct Hp as [->| ->].
  - rewrite Z.eqb_refl. by rewrite Hi by lia.
  - rewrite (proj2 (Z.eqb_neq _ _)) by lia. rewrite (Hi (ha_port h - 1)) by lia. rewrite Z.eqb_refl, Hi by lia.
    by replace (ha_port h - 1 + 3) with (ha_port h + 2) by lia.
Qed.

(** What a web socket calls its local address is the address of the other end. *)
Definition peer_address (peer : SocketAddr) (X : Type) (e : Link X) : X → Prop :=
  match e with PeerAddrOf _ => λ a, a = Some peer | _ => λ _, True end.
Theorem local_address_is_peer `{UrlLib} url ms peer :
  sat (peer_address peer) (λ _ _, True) True (ws_framed_new url ms)
    (λ r, match r with Ok (_, s) => Secure.local_addr s = peer ∧ is_secured s = false | Err _ => True end).
Proof.
  unfold ws_framed_new. apply sat_then. eapply (sat_mono _ _ _ _ (λ _, True)).
  - intros [c|e] _; [|done]. sat_steps; try done; cbn in *; simplify_eq. done.
  - unfold ws_connect. sat_steps; try done. unfold TRIES.
    apply try_connect_sat with (fine := λ _ _, True) (fuel := HEADER_FUEL); try done; [by left|by repeat split..|]. unfold attempts. repeat case_match; lia.
Qed.

(** ** Concrete runs *)

Definition TestUrls : UrlLib := {| url_parse _ := None; text_target_addr s := Some (TargetDomain s 80) |}.
Definition test_httparse (headers : nat) (b : bytes) : option (option Z) :=
  if bool_decide (take 13 b = str_bytes "HTTP/1.1 200 ") then Some (Some 200) else None.
Definition test_answer : list bytes := Eval vm_compute in [str_bytes ("HTTP/1.1 200 OK" +:+ crlf); str_bytes crlf].
Lemma tunnel_begins_after_answer_witness :
  run tunnel_handler (@http_connect TestSodium test_httparse 2 (Http None "p") 5 (TargetDomain "h" 80))
    (mkTunnelWorld (concat test_answer ++ [1; 2]) []) =
  (Finished (match test_httparse MAXIMUM_RESPONSE_HEADERS (concat test_answer) with
             | None => Err HttpParse | Some None => Err NoHttpCode
             | Some (Some code) => if code =? 200 then Ok 5%nat else Err (HttpCode200 code) end),
   mkTunnelWorld [1; 2] (str_bytes (@make_request TestSodium (Http None "p") "h" 80))) ∧
  test_httparse MAXIMUM_RESPONSE_HEADERS (concat test_answer) = Some (Some 200).
Proof.
  split; [|vm_compute; reflexivity].
  apply (@tunnel_begins_after_answer TestSodium test_httparse (Http None "p") (TargetDomain "h" 80) test_answer [1; 2] 5%nat 2%nat).
  - split_and!.
    + apply Forall_cons; split; [|apply Forall_cons; split; [|by apply Forall_nil]].
      * exists (take 16 (str_bytes ("HTTP/1.1 200 OK" +:+ crlf))). split; [vm_compute; reflexivity|].
        apply (bool_decide_unpack _). vm_compute. exact I.
      * exists [13]. split; [vm_compute; reflexivity|]. apply (bool_decide_unpack _). vm_compute. exact I.
    + apply Forall_cons; split; [|apply Forall_cons; split; [|by apply Forall_nil]]; eexists; vm_compute; reflexivity.
    + vm_compute. discriminate.
    + vm_compute. reflexivity.
    + intros [|[|i]] Hi; [vm_compute; reflexivity..|cbn in Hi; lia].
  - cbn. lia.
Defined.
