(* ===== verification/Prefs.v ===== *)
(** * The settings of the interface and of this user

    Of libs/core-common/src/config.rs: the places of the files, the defaults of
    the user for sessions ([UserDefaultConfig]), the settings of the interface
    ([LocalConfig]), its state ([Status]) and the machines found in the network
    ([LanPeers]).  [Prefs] is what they share: the configuration [Core], the
    globals, and the files below the directory of the configuration (the two
    files of [Core] are in [Core]).  [PeerConfigs] has the settings of peers,
    [PrefsSpec] the theorems. *)
From Stdlib Require Import Ascii.
From S2P Require Import Prelude Text TextFacts UnixPath HostText JsonTree CoreState CoreConfig.
Local Open Scope Z_scope.

(** ** What is a parameter *)

(** The crates [directories-next] and [dirs-next], the environment, the
    commands [whoami] and [getent], and the name of the program. *)
Class Home : Type := {
  project_dir : option string;
  home_dir : option string;
  current_dir : option string;
  temp_dir : string;
  whoami : option string;
  passwd_home : string → option string;
  app_name : string;
}.
(** [peers_in_dir] gives the entries in any order. *)
Class ReadDir : Type := { dir_order : list string → list string; dir_order_perm l : dir_order l ≡ₚ l }.
(** [f64]: [parse], [to_string], the value of an integer, [<=], [as i32]. *)
Class Float64 : Type := {
  f64 : Type;
  f64_parse : string → option f64;
  f64_show : f64 → string;
  f64_of : Z → f64;
  f64_leb : f64 → f64 → bool;
  f64_to_i32 : f64 → Z;
}.
(** The text of a number is read back when it is one ([x <= x]); small integers
    are exact; a cast keeps the order. *)
Class Float64Laws `{Float64} : Prop := {
  f64_roundtrip x : f64_leb x x = true → f64_parse (f64_show x) = Some x;
  f64_number x y : f64_leb x y = true → f64_leb x x = true ∧ f64_leb y y = true;
  f64_of_leb m n : - 2 ^ 31 <= m <= n → n < 2 ^ 31 → f64_leb (f64_of m) (f64_of n) = true;
  f64_exact n : - 2 ^ 31 <= n < 2 ^ 31 → f64_to_i32 (f64_of n) = n;
  f64_mono x y : f64_leb x y = true → f64_to_i32 x <= f64_to_i32 y;
}.

(** ** Data *)

Abbreviation Size := (Z * Z * Z * Z)%type.
Record LocalConfig : Type := mkLocalConfig {
  lc_remote_id : string;
  lc_kb_layout_type : string;
  lc_size : Size;
  lc_fav : list string;
  lc_options : gmap string string;
  lc_ui_flutter : gmap string string;
}.
Definition default_LocalConfig : LocalConfig := mkLocalConfig "" "" (0, 0, 0, 0) [] ∅ ∅.
Record DiscoveryPeer : Type := mkDiscoveryPeer {
  dp_id : string;
  dp_username : string;
  dp_hostname : string;
  dp_platform : string;
  dp_online : bool;
  dp_ip_mac : gmap string string;
}.

Record StoredFile : Type := mkStoredFile { sf_bytes : bytes; sf_mtime : Z }.

Record Prefs : Type := mkPrefs {
  pf_core : Core;
  pf_local : LocalConfig;  (* LOCAL_CONFIG *)
  pf_status : gmap string string;  (* STATUS *)
  pf_user : gmap string string * Z;  (* USER_DEFAULT_CONFIG: options, when read *)
  pf_stored : gset string;  (* NEW_STORED_PEER_CONFIG *)
  pf_display : gmap string string * gmap string string;  (* OVERWRITE_ and DEFAULT_DISPLAY_SETTINGS *)
  pf_settings : gmap string string * gmap string string;  (* OVERWRITE_ and DEFAULT_LOCAL_SETTINGS *)
  pf_files : gmap (list string) StoredFile;
  pf_shut : gmap (list string) bool;  (* where no file can be; a directory is there *)
  pf_instant : Z;
}.
Definition set_core (v : Core) (s : Prefs) : Prefs :=
  {| pf_core := v; pf_local := pf_local s; pf_status := pf_status s; pf_user := pf_user s; pf_stored := pf_stored s;
     pf_display := pf_display s; pf_settings := pf_settings s; pf_files := pf_files s; pf_shut := pf_shut s; pf_instant := pf_instant s |}.
Definition set_local (v : LocalConfig) (s : Prefs) : Prefs :=
  {| pf_core := pf_core s; pf_local := v; pf_status := pf_status s; pf_user := pf_user s; pf_stored := pf_stored s;
     pf_display := pf_display s; pf_settings := pf_settings s; pf_files := pf_files s; pf_shut := pf_shut s; pf_instant := pf_instant s |}.
Definition set_status (v : gmap string string) (s : Prefs) : Prefs :=
  {| pf_core := pf_core s; pf_local := pf_local s; pf_status := v; pf_user := pf_user s; pf_stored := pf_stored s;
     pf_display := pf_display s; pf_settings := pf_settings s; pf_files := pf_files s; pf_shut := pf_shut s; pf_instant := pf_instant s |}.
Definition set_user (v : gmap string string * Z) (s : Prefs) : Prefs :=
  {| pf_core := pf_core s; pf_local := pf_local s; pf_status := pf_status s; pf_user := v; pf_stored := pf_stored s;
     pf_display := pf_display s; pf_settings := pf_settings s; pf_files := pf_files s; pf_shut := pf_shut s; pf_instant := pf_instant s |}.
Definition set_stored (v : gset string) (s : Prefs) : Prefs :=
  {| pf_core := pf_core s; pf_local := pf_local s; pf_status := pf_status s; pf_user := pf_user s; pf_stored := v;
     pf_display := pf_display s; pf_settings := pf_settings s; pf_files := pf_files s; pf_shut := pf_shut s; pf_instant := pf_instant s |}.
Definition put_files (v : gmap (list string) StoredFile) (s : Prefs) : Prefs :=
  {| pf_core := pf_core s; pf_local := pf_local s; pf_status := pf_status s; pf_user := pf_user s; pf_stored := pf_stored s;
     pf_display := pf_display s; pf_settings := pf_settings s; pf_files := v; pf_shut := pf_shut s; pf_instant := pf_instant s |}.

(** A computation on the configuration. *)
Definition on_core {A} (m : M Core A) : M Prefs A := λ s, let '(a, c) := m (pf_core s) in (a, set_core c s).

(** ** Names and extensions *)

(** [file_stem] and [extension] of a file name: cut at the last dot, unless it is
    the first character. *)
Definition cut_dot (f : string) : string * option string :=
  if bool_decide (f = ".."%string) then (f, None) else
  match rcut "." f with
  | Some (before, after) => if bool_decide (before = ""%string) then (f, None) else (before, Some after)
  | None => (f, None)
  end.
Definition file_stem (p : string) : option string := fst ∘ cut_dot <$> file_name p.
Definition extension (p : string) : option string := file_name p ≫= snd ∘ cut_dot.
(** [Path::with_extension], for an extension that is not empty: what follows the
    stem is replaced; a path without a name stays. *)
Definition path_with_extension (p ext : string) : string :=
  match file_name p with
  | None => p
  | Some f =>
    match drop_skipped (reverse (split_on slash p)) with
    | _ :: r => join "/" (reverse (((cut_dot f).1 +:+ "." +:+ ext) :: r))
    | [] => p
    end
  end.
Definition with_extension (p : string) : string :=
  match extension p with
  | Some ext => path_with_extension p (to_string_lossy ext +:+ ".toml")
  | None => path_with_extension p "toml"
  end.
Example extensions :
  with_extension "/c/peers/a" = "/c/peers/a.toml"%string ∧ with_extension "/c/peers/a.b" = "/c/peers/a.b.toml"%string ∧
  with_extension "/c/peers/" = "/c/peers.toml"%string ∧ with_extension "/c/peers/.." = "/c/peers/.."%string ∧
  with_extension "/c/.a" = "/c/.a.toml"%string ∧ with_extension "/c/a." = "/c/a..toml"%string ∧ with_extension "" = ""%string.
Proof. vm_compute. done. Qed.

(** ** Places *)

Section paths.
Context `{Home}.

Definition patch (path : string) : string :=
  if bool_decide (to_str path = Some "/root"%string) then
    match whoami with
    | Some user =>
      if bool_decide (user = "root"%string) then path
      else match passwd_home user with Some output => output | None => "/home/" +:+ user end
    | None => path
    end
  else path.
Definition get_home : string :=
  match home_dir with
  | Some path => patch path
  | None => match current_dir with Some path => path | None => temp_dir end
  end.
(** [Config::path] *)
Definition conf_path (p : string) : string :=
  match project_dir with Some project => path_join (patch project) p | None => ""%string end.
(** [Config::file_] *)
Definition conf_file (suffix : string) : string := with_extension (conf_path (app_name +:+ suffix)).
(** [Config::log_path] also makes the directory. *)
Definition log_path : string := path_join get_home (".local/share/logs/" +:+ app_name).
Definition is_service_ipc_postfix (postfix : string) : bool :=
  bool_decide (postfix = "_service"%string) || starts_with "_uinput_" postfix.
Definition ipc_parent_dir_for_uid (uid : Z) (postfix : string) : string :=
  if is_service_ipc_postfix postfix then "/tmp/" +:+ app_name +:+ "-service"
  else "/tmp/" +:+ app_name +:+ "-" +:+ to_string uid.
(** [uid] is the effective user of the process. *)
Definition ipc_path (uid : Z) (postfix : string) : string :=
  default ""%string (to_str (path_join (ipc_parent_dir_for_uid uid postfix) ("ipc" +:+ postfix))).
Definition ipc_path_for_uid (uid : Z) (postfix : string) : string :=
  ipc_parent_dir_for_uid uid postfix +:+ "/ipc" +:+ postfix.
End paths.

(** ** Files *)

(** The place of a path: where it leads, if that can be a file. *)
Definition normal_name (c : Component) : option string := match c with Normal s => Some s | _ => None end.
Definition place (p : string) : option (list string) :=
  match components p with RootDir :: l => mapM normal_name l | _ => None end.
Definition usable (s : Prefs) (k : list string) : bool := bool_decide (pf_shut s !! k = None).
Definition file_at (p : string) (s : Prefs) : option StoredFile :=
  k ← place p; if usable s k then pf_files s !! k else None.
Definition read_bytes (p : string) (s : Prefs) : option bytes := sf_bytes <$> file_at p s.
Definition read_file (p : string) (s : Prefs) : option string := bytes_str <$> read_bytes p s.
(** A write with its time; the next of [co_faults] says whether it fails. *)
Definition next_write (s : Prefs) : Prefs := set_core (put_faults (drop 1 (co_faults (pf_core s))) (pf_core s)) s.
Definition write_bytes (p : string) (b : bytes) : M Prefs unit :=
  modify (λ s,
    match co_faults (pf_core s), place p with
    | true :: _, _ | _, None => next_write s
    | _, Some k =>
      if usable s k then put_files (<[k := mkStoredFile b (co_now (pf_core s))]> (pf_files s)) (next_write s)
      else next_write s
    end).
(** [store_path]; what fails is only logged. *)
Definition save_tree `{Confy} (p : string) (tree : JVal) : M Prefs unit :=
  match confy_write tree with Some t => write_bytes p (str_bytes t) | None => modify next_write end.
Definition drop_file (p : string) : M Prefs unit :=
  modify (λ s, match place p with Some k => if usable s k then put_files (delete k (pf_files s)) s else s | None => s end).
Definition path_exists (p : string) (s : Prefs) : bool :=
  match place p with
  | Some k => match pf_shut s !! k with Some d => d | None => bool_decide (is_Some (pf_files s !! k)) end
  | None => false
  end.
(** [get_modified_time] of lib.rs *)
Definition get_modified_time (p : string) (s : Prefs) : Z := default 0 (sf_mtime <$> file_at p s).

(** ** Trees *)

Definition enc_size (z : Size) : JVal := let '(x, y, w, h) := z in VList (VNum <$> [x; y; w; h]).
Definition dec_size (v : JVal) : option Size :=
  match v with
  | VList [x; y; w; h] => x ← dec_i32 x; y ← dec_i32 y; w ← dec_i32 w; h ← dec_i32 h; Some (x, y, w, h)
  | _ => None
  end.
Definition enc_texts (l : list string) : JVal := VList (VText <$> l).
Definition dec_texts : JVal → option (list string) := dec_list dec_str.
Definition no_text (s : string) : bool := bool_decide (s = ""%string).

Definition local_tree (c : LocalConfig) : JVal :=
  VObj [("remote_id", VText (lc_remote_id c)); ("kb_layout_type", VText (lc_kb_layout_type c)); ("size", enc_size (lc_size c));
        ("fav", enc_texts (lc_fav c)); ("options", enc_map VText (lc_options c)); ("ui_flutter", enc_map VText (lc_ui_flutter c))]%string.
Definition local_of_tree (v : JVal) : option LocalConfig :=
  Some (mkLocalConfig (lenient dec_str "" "remote_id" v) (lenient dec_str "" "kb_layout_type" v)
    (lenient dec_size (0, 0, 0, 0) "size" v) (lenient dec_texts [] "fav" v)
    (lenient (dec_map dec_str) ∅ "options" v) (lenient (dec_map dec_str) ∅ "ui_flutter" v)).
Definition peer_found_tree (p : DiscoveryPeer) : JVal :=
  VObj [("id", VText (dp_id p)); ("username", VText (dp_username p)); ("hostname", VText (dp_hostname p));
        ("platform", VText (dp_platform p)); ("online", VBool (dp_online p)); ("ip_mac", enc_map VText (dp_ip_mac p))]%string.
Definition peer_found_of_tree (v : JVal) : option DiscoveryPeer :=
  match v with
  | VObj _ =>
    Some (mkDiscoveryPeer (lenient dec_str "" "id" v) (lenient dec_str "" "username" v) (lenient dec_str "" "hostname" v)
      (lenient dec_str "" "platform" v) (lenient dec_bool false "online" v) (lenient (dec_map dec_str) ∅ "ip_mac" v))
  | _ => None
  end.
(** [LanPeers] *)
Definition lan_tree (l : list DiscoveryPeer) : JVal := VObj [("peers"%string, VList (peer_found_tree <$> l))].
Definition lan_of_tree (v : JVal) : option (list DiscoveryPeer) := Some (lenient (dec_list peer_found_of_tree) [] "peers" v).
(** [Status] and [UserDefaultConfig]: a map in one field. *)
Definition map_tree (k : string) (m : gmap string string) : JVal := VObj [(k, enc_map VText m)].
Definition map_of_tree (k : string) (v : JVal) : option (gmap string string) := Some (lenient (dec_map dec_str) ∅ k v).

Section prefs.
Context `{Home} `{Confy} `{Float64}.

(** [common_load] and [common_store] (also [Config::load_], [store_]) *)
Definition common_load {A} (dec : JVal → option A) (dflt : A) (suffix : string) (s : Prefs) : A :=
  load_path dec dflt (read_file (conf_file suffix) s).
Definition common_store (tree : JVal) (suffix : string) : M Prefs unit := save_tree (conf_file suffix) tree.

(** ** The defaults of the user *)

Definition user_load (s : Prefs) : gmap string string := common_load (map_of_tree "options") ∅ "_default" s.
Definition user_store (options : gmap string string) : M Prefs unit := common_store (map_tree "options" options) "_default".
Definition get_after (options : gmap string string) (s : Prefs) (k : string) : option string :=
  get_or (pf_display s).1 options (pf_display s).2 k.
Definition user_get_string (after : option string) (dflt : string) (others : list string) : string :=
  match after with
  | Some option => if bool_decide (option ∈ others) then option else dflt
  | None => dflt
  end.
Definition user_get_num_string {T} (parse : string → option T) (show : T → string) (leb : T → T → bool)
    (after : option string) (dflt min max : T) : string :=
  match after with
  | Some option => let v := default dflt (parse option) in if leb min v && leb v max then show v else show dflt
  | None => show dflt
  end.
Definition num_string_i32 (after : option string) (dflt min max : Z) : string :=
  user_get_num_string parse_i32 to_string Z.leb after dflt min max.
Definition num_string_f64 (after : option string) (dflt min max : Z) : string :=
  user_get_num_string f64_parse f64_show f64_leb after (f64_of dflt) (f64_of min) (f64_of max).
(** [UserDefaultConfig::get], on a computer *)
Definition user_get (options : gmap string string) (s : Prefs) (key : string) : string :=
  let after := get_after options s key in
  if bool_decide (key = "view_style"%string) then user_get_string after "original" ["adaptive"]%string
  else if bool_decide (key = "scroll_style"%string) then user_get_string after "scrollauto" ["scrolledge"; "scrollbar"]%string
  else if bool_decide (key = "image_quality"%string) then user_get_string after "balanced" ["best"; "low"; "custom"]%string
  else if bool_decide (key = "codec-preference"%string) then
    user_get_string after "auto" ["vp8"; "vp9"; "av1"; "h264"; "h265"]%string
  else if bool_decide (key = "custom_image_quality"%string) then num_string_f64 after 50 10 0xFFF
  else if bool_decide (key = "custom-fps"%string) then num_string_f64 after 30 5 120
  else if bool_decide (key = "enable-file-copy-paste"%string) then user_get_string after "Y" [""; "N"]%string
  else if bool_decide (key = "edge-scroll-edge-thickness"%string) then num_string_i32 after 100 20 150
  else if bool_decide (key = "trackpad-speed"%string) then num_string_i32 after 100 10 1000
  else default ""%string after.
(** What [read] has after it looked whether a second went by; reads of one
    instant look once. *)
Definition user_refresh : M Prefs unit :=
  modify (λ s, if secs 1 <? elapsed (pf_instant s) (pf_user s).2 then set_user (user_load s, pf_instant s) s else s).
Definition user_read (key : string) : M Prefs string :=
  user_refresh;; gets (λ s, user_get (pf_user s).1 s key).
(** [UserDefaultConfig::set] on a value of that type, which its caller keeps. *)
Definition user_set (key value : string) (options : gmap string string) : M Prefs (gmap string string) :=
  ok ← gets (λ s, is_option_can_save (pf_display s).1 key (pf_display s).2 value);
  if negb ok then
    if bool_decide (is_Some (options !! key)) then user_store (delete key options);; mret (delete key options) else mret options
  else
    let options := if no_text value then delete key options else <[key := value]> options in
    user_store options;; mret options.

(** ** The settings of the interface *)

Definition local_load (s : Prefs) : LocalConfig := common_load local_of_tree default_LocalConfig "_local" s.
Definition local_store (c : LocalConfig) : M Prefs unit := common_store (local_tree c) "_local".
Definition commit_local (c : LocalConfig) : M Prefs unit := modify (set_local c);; local_store c.

Definition get_kb_layout_type (s : Prefs) : string := lc_kb_layout_type (pf_local s).
Definition set_kb_layout_type (t : string) : M Prefs unit :=
  c ← gets pf_local; commit_local (mkLocalConfig (lc_remote_id c) t (lc_size c) (lc_fav c) (lc_options c) (lc_ui_flutter c)).
Definition get_size (s : Prefs) : Size := lc_size (pf_local s).
Definition set_size (x y w h : Z) : M Prefs unit :=
  c ← gets pf_local;
  if bool_decide ((x, y, w, h) = lc_size c) || (w <? 300) || (h <? 300) then mret tt else
  commit_local (mkLocalConfig (lc_remote_id c) (lc_kb_layout_type c) (x, y, w, h) (lc_fav c) (lc_options c) (lc_ui_flutter c)).
Definition get_remote_id (s : Prefs) : string := lc_remote_id (pf_local s).
Definition set_remote_id (id : string) : M Prefs unit :=
  c ← gets pf_local;
  if bool_decide (id = lc_remote_id c) then mret tt else
  commit_local (mkLocalConfig id (lc_kb_layout_type c) (lc_size c) (lc_fav c) (lc_options c) (lc_ui_flutter c)).
Definition get_fav (s : Prefs) : list string := lc_fav (pf_local s).
Definition set_fav (fav : list string) : M Prefs unit :=
  c ← gets pf_local;
  if bool_decide (lc_fav c = fav) then mret tt else
  commit_local (mkLocalConfig (lc_remote_id c) (lc_kb_layout_type c) (lc_size c) fav (lc_options c) (lc_ui_flutter c)).

Definition with_local_options (m : gmap string string) (c : LocalConfig) : LocalConfig :=
  mkLocalConfig (lc_remote_id c) (lc_kb_layout_type c) (lc_size c) (lc_fav c) m (lc_ui_flutter c).
Definition with_ui_flutter (m : gmap string string) (c : LocalConfig) : LocalConfig :=
  mkLocalConfig (lc_remote_id c) (lc_kb_layout_type c) (lc_size c) (lc_fav c) (lc_options c) m.
Definition local_get_option (k : string) (s : Prefs) : string :=
  default ""%string (get_or (pf_settings s).1 (lc_options (pf_local s)) (pf_settings s).2 k).
Definition get_option_from_file (k : string) (s : Prefs) : string :=
  default ""%string (get_or (pf_settings s).1 (lc_options (local_load s)) (pf_settings s).2 k).
Definition local_get_bool_option (k : string) (s : Prefs) : bool := option2bool k (local_get_option k s).
Definition local_set_option (k v : string) : M Prefs unit :=
  ok ← gets (λ s, is_option_can_save (pf_settings s).1 k (pf_settings s).2 v);
  c ← gets pf_local;
  if negb ok then
    if bool_decide (is_Some (lc_options c !! k)) then commit_local (with_local_options (delete k (lc_options c)) c) else mret tt
  else if bool_decide (k = "lang"%string) && bool_decide (v = "default"%string) then
    commit_local (with_local_options (<[k := ""%string]> (lc_options c)) c)
  else
    let v2 := if no_text v then None else Some v in
    if bool_decide (v2 = lc_options c !! k) then mret tt
    else commit_local (with_local_options (match v2 with None => delete k (lc_options c) | Some v => <[k := v]> (lc_options c) end) c).
Definition get_flutter_option (k : string) (s : Prefs) : string :=
  default ""%string (get_or (pf_settings s).1 (lc_ui_flutter (pf_local s)) (pf_settings s).2 k).
Definition set_flutter_option (k v : string) : M Prefs unit :=
  c ← gets pf_local;
  let v2 := if no_text v then None else Some v in
  if bool_decide (v2 = lc_ui_flutter c !! k) then mret tt
  else commit_local (with_ui_flutter (match v2 with None => delete k (lc_ui_flutter c) | Some v => <[k := v]> (lc_ui_flutter c) end) c).

(** ** State of the interface *)

Definition status_load (s : Prefs) : gmap string string := common_load (map_of_tree "values") ∅ "_status" s.
Definition status_store (m : gmap string string) : M Prefs unit := common_store (map_tree "values" m) "_status".
Definition status_get (k : string) (s : Prefs) : string := default ""%string (pf_status s !! k).
Definition status_set (k v : string) : M Prefs unit :=
  old ← gets (status_get k);
  if bool_decide (old = v) then mret tt else
  m ← gets pf_status;
  modify (set_status (<[k := v]> m));; status_store (<[k := v]> m).

(** ** Machines found in the network *)

Definition is_same_peer (a b : DiscoveryPeer) : bool :=
  bool_decide (dp_id a = dp_id b) && bool_decide (dp_username a = dp_username b).
Definition lan_load (s : Prefs) : list DiscoveryPeer := common_load lan_of_tree [] "_lan_peers" s.
Definition lan_store (peers : list DiscoveryPeer) : M Prefs unit := common_store (lan_tree peers) "_lan_peers".
(** In milliseconds; an error without the file. *)
Definition lan_modify_time (s : Prefs) : option Z := sf_mtime <$> file_at (conf_file "_lan_peers") s.

End prefs.

(** ** A start of the program *)

Section start.
Context `{Home} `{Confy} `{Sodium} `{Rng} `{Sha2}.

(** The globals are made when they are first used. *)
Definition new_prefs (b s : Prefs) : Prefs :=
  {| pf_core := pf_core s; pf_local := default_LocalConfig; pf_status := ∅; pf_user := (∅, 0); pf_stored := ∅;
     pf_display := pf_display b; pf_settings := pf_settings b; pf_files := pf_files s; pf_shut := pf_shut s;
     pf_instant := pf_instant b |}.
Definition prefs_start (b : Prefs) : M Prefs unit :=
  on_core (start (pf_core b));;
  modify (new_prefs b);;
  modify (λ s, set_local (local_load s) s);;
  modify (λ s, set_status (status_load s) s);;
  modify (λ s, set_user (user_load s, pf_instant s) s).
End start.
