(* ===== verification/PrefsSpec.v ===== *)
(** * What the settings of the interface and of this user give back

    Of [Prefs]: where the files are, that what was stored is what the next
    process has, that options read back, and that the defaults of the user stay
    within what the code allows. *)
From Stdlib Require Import Ascii.
From S2P Require Import Prelude Text TextFacts UnixPath HostText JsonTree CoreState CoreConfig CoreConfigSpec CoreStoreSpec Prefs.
Local Open Scope Z_scope.

(** ** Names *)

(** What follows an ASCII character in a text is one. *)
Lemma utf8_first_ascii l c r n :
  c < 128 → l ≠ [] → utf8_first (l ++ c :: r) = Some (inl n) → (n <= length l)%nat.
Proof.
  intros Hc Hl. destruct l as [|b l]; [done|]. clear Hl.
  assert (cont (Some c) = false) as H1 by (cbn; lia).
  assert (∀ lo hi, 128 <= lo → between_ lo hi (Some c) = false) as H2 by (intros; cbn; lia).
  cbn [app utf8_first length].
  destruct l as [|x [|y [|z l]]]; cbn [app lookup list_lookup length]; rewrite ?H1, ?H2 by (repeat case_match; lia); cbn [negb];
    intros E; revert E; repeat case_match; intros; simplify_eq; lia.
Qed.
Lemma utf8_valid_any f g l :
  (length l <= f)%nat → (length l <= g)%nat → utf8_valid_fuel f l = utf8_valid_fuel g l.
Proof.
  revert g l. induction f as [|f IH]; intros [|g] l Hf Hg; try done; try (by destruct l; cbn in *; [|lia]).
  cbn [utf8_valid_fuel]. destruct (utf8_first l) as [[n|n]|] eqn:E; [|done|done].
  pose proof (utf8_first_le l n E). apply IH; rewrite length_drop; lia.
Qed.
Lemma utf8_tail f l c r :
  c < 128 → utf8_valid_fuel f (l ++ c :: r) = true → (length (l ++ c :: r) <= f)%nat → utf8_valid_fuel (length r) r = true.
Proof.
  intros Hc. revert l. induction f as [|f IH]; intros l Hv Hl; [rewrite length_app in Hl; cbn in Hl; lia|].
  destruct (decide (l = [])) as [->|Hn].
  - cbn [app utf8_valid_fuel utf8_first] in Hv. destruct (c <? 128) eqn:E; [|lia]. cbn [drop] in Hv.
    rewrite drop_0 in Hv. rewrite <- Hv. apply utf8_valid_any; cbn in Hl; lia.
  - cbn [utf8_valid_fuel] in Hv. destruct (utf8_first (l ++ c :: r)) as [[n|n]|] eqn:E; [|done|].
    + pose proof (utf8_first_ascii l c r n Hc Hn E) as Hle. pose proof (utf8_first_le _ _ E).
      rewrite drop_app_le in Hv by done. apply (IH (drop n l)); [done|]. rewrite length_app, length_drop in *. cbn in *. lia.
    + by destruct l.
Qed.
Lemma utf8_after_dot a b : is_utf8 (a +:+ String "." b) → is_utf8 b.
Proof.
  unfold is_utf8. rewrite str_bytes_app. cbn [str_bytes]. intros Hv.
  rewrite <- length_str_bytes. eapply utf8_tail; [|exact Hv|]; [done|]. rewrite <- length_str_bytes, str_bytes_app. done.
Qed.

Definition good_name (f : string) : Prop := has_char slash f = false ∧ f ∉ [""; "."; ".."]%string.
Lemma piece_good f : good_name f → piece f = [Normal f].
Proof.
  intros [_ Hf]. rewrite !not_elem_of_cons in Hf. destruct Hf as (? & ? & ? & _).
  unfold piece. by rewrite !bool_decide_eq_false_2.
Qed.
Lemma components_under X f : good_name f → ∃ l, components (X +:+ String slash f) = l ++ [Normal f].
Proof.
  intros Hf. unfold components. rewrite split_on_app, (split_on_none slash f) by apply Hf.
  destruct (split_on slash X) as [|s l] eqn:E; [by apply split_on_nonempty in E|]. cbn [app].
  rewrite pieces_app. cbn [pieces mbind list_bind]. rewrite (piece_good f Hf), app_nil_r.
  destruct (is_absolute _).
  - by eexists (RootDir :: pieces l).
  - eexists ((if bool_decide (s = "."%string) then [CurDir] else piece s) ++ pieces l). by rewrite <- app_assoc.
Qed.
Lemma file_name_under X f : good_name f → file_name (X +:+ String slash f) = Some f.
Proof. intros Hf. destruct (components_under X f Hf) as [l E]. unfold file_name. by rewrite E, last_snoc. Qed.
Lemma join_snoc c l f : l ≠ [] → join (String c "") (l ++ [f]) = join (String c "") l +:+ String c f.
Proof.
  induction l as [|s l IH]; [done|]. intros _. destruct l as [|s' l]; [done|].
  change (join (String c "") ((s :: s' :: l) ++ [f])) with (s +:+ String c (join (String c "") ((s' :: l) ++ [f]))).
  rewrite IH by done. change (join (String c "") (s :: s' :: l)) with (s +:+ String c (join (String c "") (s' :: l))).
  by rewrite app_string_assoc.
Qed.
Lemma join_split_on c s : join (String c "") (split_on c s) = s.
Proof.
  induction s as [|x s IH]; [done|]. cbn [split_on]. destruct (Ascii.eqb x c) eqn:E.
  - apply Ascii.eqb_eq in E as ->. destruct (split_on c s) as [|w l] eqn:Es; [by apply split_on_nonempty in Es|].
    change (join (String c "") (""%string :: w :: l)) with (String c (join (String c "") (w :: l))). by rewrite IH.
  - destruct (split_on c s) as [|w l] eqn:Es; [by apply split_on_nonempty in Es|]. destruct l as [|w' l].
    + cbn in *. by rewrite IH.
    + change (join (String c "") (String x w :: w' :: l)) with (String x (join (String c "") (w :: w' :: l))). by rewrite IH.
Qed.
Lemma with_last_under X f ext :
  good_name f → path_with_extension (X +:+ String slash f) ext = X +:+ String slash ((cut_dot f).1 +:+ "." +:+ ext).
Proof.
  intros Hf. unfold path_with_extension. rewrite (file_name_under X f Hf), split_on_app, (split_on_none slash f) by apply Hf.
  rewrite reverse_snoc. cbn [drop_skipped]. assert (skipped f = false) as ->.
  { destruct Hf as [_ Hf]. rewrite !not_elem_of_cons in Hf. unfold skipped. rewrite !bool_decide_eq_false_2; [done|apply Hf..]. }
  rewrite reverse_cons, reverse_involutive. change "/"%string with (String slash ""). rewrite join_snoc by apply split_on_nonempty.
  by rewrite join_split_on.
Qed.
(** The name with [.toml] behind it, whatever dots it has. *)
Lemma with_extension_under X f :
  good_name f → is_utf8 f → with_extension (X +:+ String slash f) = X +:+ String slash (f +:+ ".toml").
Proof.
  intros Hf Hu. unfold with_extension, extension. rewrite (file_name_under X f Hf). cbn [mbind option_bind compose].
  assert (∀ ext, (cut_dot f).2 = Some ext → f = (cut_dot f).1 +:+ String "." ext ∧ is_utf8 ext) as H1.
  { intros ext. unfold cut_dot. case_bool_decide; [done|]. destruct (rcut "." f) as [[a b]|] eqn:E; [|done].
    apply rcut_some in E as [E _]. case_bool_decide; [done|]. intros [= ->]. split; [done|]. rewrite E in Hu. by eapply utf8_after_dot. }
  assert ((cut_dot f).2 = None → (cut_dot f).1 = f) as H2.
  { unfold cut_dot. case_bool_decide; [done|]. destruct (rcut "." f) as [[a b]|]; [|done]. by case_bool_decide. }
  destruct ((cut_dot f).2) as [ext|].
  - destruct (H1 ext eq_refl) as [E Hext]. rewrite with_last_under by done. unfold to_string_lossy. rewrite from_utf8_lossy_bytes by done.
    rewrite E at 2. by rewrite app_string_assoc.
  - rewrite with_last_under by done. by rewrite H2.
Qed.
(** And what is read off such a name. *)
Lemma cut_dot_toml f : f ≠ ""%string → cut_dot (f +:+ ".toml") = (f, Some "toml"%string).
Proof.
  intros Hf. unfold cut_dot. rewrite bool_decide_eq_false_2.
  - change ".toml"%string with (String "." "toml"). rewrite rcut_app by done. by rewrite bool_decide_eq_false_2.
  - intros E%(f_equal String.length). rewrite length_string_app in E. cbn in E. lia.
Qed.
Lemma good_toml f : has_char slash f = false → good_name (f +:+ ".toml").
Proof.
  intros Hf. split; [by rewrite has_char_app, Hf|]. rewrite !not_elem_of_cons.
  split_and!; try by apply not_elem_of_nil. all: intros E%(f_equal String.length); rewrite length_string_app in E; cbn in E; lia.
Qed.

(** ** Places *)

(** The directory of the configuration is at the place [base]. *)
Definition home_at `{Home} (base : list string) : Prop :=
  ∃ r, patch <$> project_dir = Some (String slash r) ∧ pieces (split_on slash r) = Normal <$> base.
Section places.
Context `{Home} (base : list string).
Hypothesis home : home_at base.

Lemma conf_path_under : ∃ X, ∀ g, is_absolute g = false → conf_path g = X +:+ String slash g.
Proof.
  destruct home as (r & E & _). unfold conf_path. destruct project_dir as [d|]; [|done]. cbn in E. injection E as ->.
  unfold path_join. rewrite (bool_decide_eq_false_2 (String slash r = _)) by done. cbn [orb].
  destruct (ends_with_slash (String slash r)) eqn:Es.
  - unfold ends_with_slash in Es. destruct (rcut slash (String slash r)) as [[a b]|] eqn:Er; [|done]. bool_simp. subst b.
    apply rcut_some in Er as [Er _]. exists a. intros g ->. rewrite Er. by rewrite app_string_assoc.
  - exists (String slash r). by intros g ->.
Qed.
Lemma conf_path_components g :
  is_absolute g = false → components (conf_path g) = RootDir :: (Normal <$> base) ++ pieces (split_on slash g).
Proof.
  intros Hg. destruct home as (r & E & Hb). unfold conf_path. destruct project_dir as [d|]; [|done]. cbn in E. injection E as ->.
  destruct (join_abs r g Hg) as (r' & -> & Hr). by rewrite components_abs, Hr, Hb.
Qed.
Lemma normal_names l : mapM normal_name (Normal <$> l) = Some l.
Proof. apply mapM_Some_2, Forall2_fmap_l. induction l; by constructor. Qed.
Lemma conf_place g names :
  is_absolute g = false → pieces (split_on slash g) = Normal <$> names → place (conf_path g) = Some (base ++ names).
Proof. intros Hg E. unfold place. by rewrite conf_path_components, E, <- fmap_app, normal_names. Qed.
Lemma absolute_no_slash f : has_char slash f = false → is_absolute f = false.
Proof.
  intros Hf. destruct (is_absolute f) eqn:E; [|done]. apply is_absolute_spec in E as [r ->]. by cbn in Hf.
Qed.
Lemma conf_file_place suffix :
  good_name (app_name +:+ suffix) → is_utf8 (app_name +:+ suffix) →
  place (conf_file suffix) = Some (base ++ [(app_name +:+ suffix) +:+ ".toml"]).
Proof.
  intros Hg Hu. unfold conf_file. destruct conf_path_under as [X HX]. pose proof (good_toml _ (proj1 Hg)) as Ht.
  rewrite HX, with_extension_under, <- HX by (done || apply absolute_no_slash; apply Ht || apply Hg).
  apply conf_place; [apply absolute_no_slash, Ht|]. rewrite split_on_none by apply Ht. cbn. by rewrite piece_good.
Qed.
End places.

(** ** Files *)

Lemma file_at_place p k s : place p = Some k → usable s k = true → file_at p s = pf_files s !! k.
Proof. intros E Hu. unfold file_at. rewrite E. cbn. by rewrite Hu. Qed.
Lemma write_bytes_run p k b s :
  place p = Some k → usable s k = true → writable (pf_core s) →
  write_bytes p b s = (tt, put_files (<[k := mkStoredFile b (co_now (pf_core s))]> (pf_files s)) (next_write s)).
Proof.
  intros E Hu Hw. unfold write_bytes, modify. rewrite E, Hu.
  destruct Hw as [Hw|Hw]; destruct (co_faults (pf_core s)) as [|[] ?]; by simplify_eq/=.
Qed.
(** Whatever happens, only the files and the faults change. *)
Lemma write_bytes_only p b s : ∃ fs, (write_bytes p b s).2 = put_files fs (next_write s).
Proof.
  assert (∃ fs, next_write s = put_files fs (next_write s)) as Hsame by (exists (pf_files s); by destruct s).
  unfold write_bytes, modify. cbn [snd]. repeat case_match; try exact Hsame; by eexists.
Qed.

Section files.
Context `{Home} `{Confy} `{!ConfyLaws} (base : list string).

Lemma save_tree_only p t s : ∃ fs, (save_tree p t s).2 = put_files fs (next_write s).
Proof.
  unfold save_tree. destruct (confy_write t); [apply write_bytes_only|]. exists (pf_files s). by destruct s.
Qed.
Lemma save_tree_reads p k l s :
  place p = Some k → usable s k = true → writable (pf_core s) → toml_ok (VObj l) = true →
  ∃ w, save_tree p (VObj l) s = (tt, put_files (<[k := mkStoredFile (str_bytes w) (co_now (pf_core s))]> (pf_files s)) (next_write s)) ∧
    confy_read w = Some (VObj l).
Proof.
  intros E Hu Hw Ht. destruct (confy_writes _ Ht) as [w Ew]. exists w. split; [|by apply confy_roundtrip].
  unfold save_tree. rewrite Ew. by apply write_bytes_run.
Qed.

(** The file with this suffix can be there. *)
Definition file_ok (suffix : string) (s : Prefs) : Prop :=
  good_name (app_name +:+ suffix) ∧ is_utf8 (app_name +:+ suffix) ∧
  usable s (base ++ [(app_name +:+ suffix) +:+ ".toml"]) = true.
Hypothesis home : home_at base.
Lemma common_load_at {A} (dec : JVal → option A) dflt suffix s :
  file_ok suffix s →
  common_load dec dflt suffix s =
  load_path dec dflt (bytes_str ∘ sf_bytes <$> pf_files s !! (base ++ [(app_name +:+ suffix) +:+ ".toml"])).
Proof.
  intros (Hg & Hu & Hs). unfold common_load, read_file, read_bytes.
  rewrite (file_at_place _ _ _ (conf_file_place base home suffix Hg Hu) Hs). f_equal. by rewrite option_fmap_compose.
Qed.
Lemma common_store_reads l suffix s :
  file_ok suffix s → writable (pf_core s) → toml_ok (VObj l) = true →
  ∃ w, (common_store (VObj l) suffix s).2 =
      put_files (<[base ++ [(app_name +:+ suffix) +:+ ".toml"] := mkStoredFile (str_bytes w) (co_now (pf_core s))]> (pf_files s)) (next_write s) ∧
    confy_read w = Some (VObj l).
Proof.
  intros (Hg & Hu & Hs) Hw Ht. unfold common_store.
  destruct (save_tree_reads _ _ l s (conf_file_place base home suffix Hg Hu) Hs Hw Ht) as (w & -> & Er). by exists w.
Qed.
Lemma load_path_file {A} (dec : JVal → option A) dflt w t v :
  confy_read w = Some v → load_path dec dflt (bytes_str ∘ sf_bytes <$> Some (mkStoredFile (str_bytes w) t)) = default dflt (dec v).
Proof. intros E. unfold load_path. cbn. rewrite bytes_str_str_bytes. cbn. by rewrite E. Qed.

(** ** Trees *)

Lemma dec_texts_enc l : dec_texts (enc_texts l) = Some l.
Proof. apply (mapM_back dec_str VText). by apply Forall_true. Qed.
Definition size_ok (z : Size) : Prop := let '(x, y, w, h) := z in i32_ok x ∧ i32_ok y ∧ i32_ok w ∧ i32_ok h.
Lemma dec_size_enc z : size_ok z → dec_size (enc_size z) = Some z.
Proof.
  destruct z as [[[x y] w] h]. intros (Hx & Hy & Hw & Hh). cbn -[dec_i32]. by rewrite !dec_i32_ok.
Qed.
Lemma num_tree_ok n : i32_ok n → toml_ok (VNum n) = true.
Proof. unfold i32_ok. cbn. lia. Qed.
Lemma size_tree_ok z : size_ok z → toml_ok (enc_size z) = true.
Proof.
  destruct z as [[[x y] w] h]. intros (Hx & Hy & Hw & Hh). unfold enc_size. cbn [toml_ok fmap list_fmap forallb].
  apply num_tree_ok in Hx, Hy, Hw, Hh. cbn [toml_ok] in *. by rewrite Hx, Hy, Hw, Hh.
Qed.
Lemma texts_tree_ok l : toml_ok (enc_texts l) = true.
Proof. unfold enc_texts. cbn. by induction l. Qed.
Lemma text_map_ok (m : gmap string string) : toml_ok (enc_map VText m) = true.
Proof. by apply map_tree_ok. Qed.
Lemma local_tree_ok c : size_ok (lc_size c) → toml_ok (local_tree c) = true.
Proof.
  intros Hz. unfold local_tree. cbn [toml_ok]. rewrite !andb_true_iff. split; [split; [vm_compute; reflexivity|]|].
  - by destruct (lc_size c) as [[[? ?] ?] ?].
  - cbn -[enc_map enc_size enc_texts]. by rewrite (size_tree_ok _ Hz), texts_tree_ok, !text_map_ok.
Qed.
Lemma local_roundtrip c : size_ok (lc_size c) → local_of_tree (local_tree c) = Some c.
Proof.
  intros Hz. transitivity (Some (mkLocalConfig (lc_remote_id c) (lc_kb_layout_type c) (default (0, 0, 0, 0) (dec_size (enc_size (lc_size c))))
    (default [] (dec_texts (enc_texts (lc_fav c)))) (default ∅ (dec_map dec_str (enc_map VText (lc_options c))))
    (default ∅ (dec_map dec_str (enc_map VText (lc_ui_flutter c)))))); [reflexivity|].
  rewrite dec_size_enc, dec_texts_enc, !dec_map_enc by done. by destruct c.
Qed.
Lemma map_tree_reads k m : toml_ok (map_tree k m) = true ∧ map_of_tree k (map_tree k m) = Some m.
Proof.
  split.
  - unfold map_tree. cbn [toml_ok]. rewrite !andb_true_iff. split; [split; [|done]|].
    + apply bool_decide_eq_true_2. repeat constructor. by apply not_elem_of_nil.
    + cbn -[enc_map]. by rewrite text_map_ok.
  - unfold map_of_tree, map_tree, lenient. cbn [jget List.find fst]. rewrite String.eqb_refl. cbn [fmap option_fmap option_map mbind option_bind snd].
    by rewrite dec_map_enc.
Qed.
End files.

(** ** The next process *)

Section restart.
Context `{Home} `{Confy} `{Sodium} `{Rng} `{Sha2} `{JsonLib} `{!ConfyLaws} (base : list string).
Hypothesis home : home_at base.

Lemma suffix_places a b : a ≠ b → base ++ [(app_name +:+ a) +:+ ".toml"] ≠ base ++ [(app_name +:+ b) +:+ ".toml"].
Proof.
  intros Hab E%app_inv_head. injection E as E. apply Hab, (inj (String.append app_name)).
  change ".toml"%string with (String "." "toml") in E. apply (f_equal (rcut ".")) in E. rewrite !rcut_app in E by done. by injection E.
Qed.
(** A start reads the files and leaves them. *)
Lemma prefs_start_run b s :
  ∃ c, (prefs_start b s).2 =
    let s' := new_prefs b (set_core c s) in set_user (user_load s', pf_instant b) (set_status (status_load s') (set_local (local_load s') s')).
Proof.
  unfold prefs_start, on_core. rewrite bind_run. destruct (start (pf_core b) (pf_core s)) as [[] c]. by exists c.
Qed.

(** What the interface stored is what the next process has: its settings as
    [commit_local] stored them, and a value of its state. *)
Theorem interface_survives_restart (c : LocalConfig) (k v : string) (b s : Prefs) :
  file_ok base "_local" s → file_ok base "_status" s → co_faults (pf_core s) = [] → size_ok (lc_size c) → status_get k s ≠ v →
  let s1 := (prefs_start b (status_set k v (commit_local c s).2).2).2 in
  pf_local s1 = c ∧ pf_status s1 = <[k := v]> (pf_status s).
Proof.
  intros Hl Hs Hf Hz Hv. cbv zeta.
  assert (∃ w, (commit_local c s).2 = put_files (<[base ++ [(app_name +:+ "_local") +:+ ".toml"] := mkStoredFile (str_bytes w) (co_now (pf_core s))]> (pf_files s))
      (next_write (set_local c s)) ∧ confy_read w = Some (local_tree c)) as (w & -> & Ew).
  { unfold commit_local, local_store. apply (common_store_reads base home _ "_local" (set_local c s)); [done|by left|by apply local_tree_ok]. }
  set (s1 := put_files _ _).
  assert (∃ w2, (status_set k v s1).2 = put_files (<[base ++ [(app_name +:+ "_status") +:+ ".toml"] := mkStoredFile (str_bytes w2) (co_now (pf_core s1))]> (pf_files s1))
      (next_write (set_status (<[k := v]> (pf_status s)) s1)) ∧ confy_read w2 = Some (map_tree "values" (<[k := v]> (pf_status s)))) as (w2 & -> & Ew2).
  { unfold status_set. rewrite (bind_eq _ _ _ _ _ (eq_refl : gets (status_get k) s1 = (_, s1))), bool_decide_eq_false_2 by done.
    apply (common_store_reads base home _ "_status" (set_status (<[k := v]> (pf_status s)) s1)); [done|left; cbn; by rewrite Hf|apply map_tree_reads]. }
  set (s2 := put_files _ _). destruct (prefs_start_run b s2) as [c' ->]. cbn [pf_local pf_status set_user set_status set_local].
  assert (file_ok base "_local" (new_prefs b (set_core c' s2))) as Hl' by exact Hl.
  assert (file_ok base "_status" (new_prefs b (set_core c' s2))) as Hs' by exact Hs.
  unfold local_load, status_load. rewrite (common_load_at base home _ _ "_local" _ Hl'), (common_load_at base home _ _ "_status" _ Hs').
  cbn [pf_files new_prefs set_core s2 put_files]. rewrite lookup_insert_ne by by apply suffix_places.
  cbn [pf_files s1 put_files]. rewrite !lookup_insert_eq, (load_path_file _ _ _ _ _ Ew), (load_path_file _ _ _ _ _ Ew2).
  rewrite local_roundtrip by done. by rewrite (proj2 (map_tree_reads _ _)).
Qed.

(** ** Options of the interface *)

Lemma commit_local_memory c s : pf_local (commit_local c s).2 = c ∧ pf_settings (commit_local c s).2 = pf_settings s.
Proof. unfold commit_local, local_store, common_store. by destruct (save_tree_only (conf_file "_local") (local_tree c) (set_local c s)) as [fs E]; rewrite bind_run; cbn; rewrite E. Qed.
Lemma unsaved a k d v : is_option_can_save a k d v = false → is_Some (a !! k) ∨ d !! k = Some v.
Proof. unfold is_option_can_save. intros [E|E]%negb_false_iff%orb_true_iff; bool_simp; [by left|by right]. Qed.
(** The stored value after a change. *)
Definition local_saved (s : Prefs) (k v : string) : option string :=
  if negb (is_option_can_save (pf_settings s).1 k (pf_settings s).2 v) then None
  else if bool_decide (k = "lang"%string) && bool_decide (v = "default"%string) then Some ""%string
  else if no_text v then None else Some v.
Lemma local_set_stored k v s :
  pf_settings (local_set_option k v s).2 = pf_settings s ∧
  lc_options (pf_local (local_set_option k v s).2) = with_option k (local_saved s k v) (lc_options (pf_local s)).
Proof.
  unfold local_set_option, local_saved. rewrite (bind_eq _ _ _ _ _ (eq_refl : gets (λ s, is_option_can_save _ k _ v) s = (_, s))).
  rewrite (bind_eq _ _ _ _ _ (eq_refl : gets pf_local s = (_, s))).
  assert (∀ m, pf_settings (commit_local (with_local_options m (pf_local s)) s).2 = pf_settings s ∧
    lc_options (pf_local (commit_local (with_local_options m (pf_local s)) s).2) = m) as Hc.
  { intros m. destruct (commit_local_memory (with_local_options m (pf_local s)) s) as [-> ->]. done. }
  destruct (is_option_can_save _ _ _ _); cbn [negb with_option].
  - destruct (bool_decide (k = _) && _); [apply Hc|]. destruct (no_text v); case_bool_decide as E; cbn [with_option]; try apply Hc.
    + split; [done|]. symmetry. by apply delete_id.
    + split; [done|]. symmetry. by apply insert_id.
  - case_bool_decide as E; [apply Hc|]. split; [done|]. symmetry. apply delete_id. by apply eq_None_not_Some.
Qed.
(** Options of the interface have the value set last: one the settings of the
    build fix keeps theirs, the language [default] is stored as no language, the
    empty text stands for the default, any other value is read back, and no other
    option changes. *)
Theorem local_option_read_back (k v k' : string) (s : Prefs) :
  local_get_option k' (local_set_option k v s).2 =
  if bool_decide (k' = k) then
    match (pf_settings s).1 !! k with
    | Some o => o
    | None =>
      if bool_decide (k = "lang"%string) && bool_decide (v = "default"%string) && negb (bool_decide ((pf_settings s).2 !! k = Some v))
      then ""%string
      else if no_text v then default ""%string ((pf_settings s).2 !! k) else v
    end
  else local_get_option k' s.
Proof.
  destruct (local_set_stored k v s) as [E1 E2]. unfold local_get_option, get_or. rewrite E1, E2, lookup_with_option.
  case_bool_decide as Ek; [subst k'|done]. destruct ((pf_settings s).1 !! k) eqn:Eo; [done|]. unfold local_saved.
  destruct (is_option_can_save _ _ _ v) eqn:E; cbn [negb].
  - assert ((pf_settings s).2 !! k ≠ Some v) as Hd.
    { intros Hd. unfold is_option_can_save in E. by rewrite (bool_decide_eq_true_2 _ Hd), orb_true_r in E. }
    rewrite (bool_decide_eq_false_2 _ Hd), andb_true_r. destruct (_ && _); [done|]. by destruct (no_text v).
  - apply unsaved in E as [E|E]; [rewrite Eo in E; by destruct E|]. rewrite E, (bool_decide_eq_true_2 (Some v = _)) by done.
    rewrite andb_false_r. unfold no_text. by case_bool_decide; subst.
Qed.
End restart.

(** ** Defaults of the user *)

Section defaults.
Context `{Float64} `{!Float64Laws}.
Lemma num_string_i32_range after d lo hi :
  lo <= d <= hi → ∃ n, num_string_i32 after d lo hi = to_string n ∧ lo <= n <= hi.
Proof.
  intros Hd. unfold num_string_i32, user_get_num_string. destruct after as [o|]; [|by eexists]. cbv zeta.
  destruct (_ && _) eqn:E; [|by eexists]. eexists. split; [done|]. bool_simp. lia.
Qed.
Lemma num_string_f64_range after d lo hi :
  - 2 ^ 31 <= lo <= d ∧ d <= hi < 2 ^ 31 →
  ∃ x, num_string_f64 after d lo hi = f64_show x ∧ f64_leb (f64_of lo) x = true ∧ f64_leb x (f64_of hi) = true.
Proof.
  intros Hd. assert (f64_leb (f64_of lo) (f64_of d) = true) by (apply f64_of_leb; lia).
  assert (f64_leb (f64_of d) (f64_of hi) = true) by (apply f64_of_leb; lia).
  unfold num_string_f64, user_get_num_string. destruct after as [o|]; [|by eexists]. cbv zeta. destruct (_ && _) eqn:E; [|by eexists]. eexists. split; [done|]. by bool_simp.
Qed.
Lemma user_get_string_among after d others : user_get_string after d others ∈ d :: others.
Proof.
  unfold user_get_string. destruct after as [o|]; [|by left]. case_bool_decide; [by right|by left].
Qed.

(** Whatever the file holds and the build sets, each of these defaults is one of
    those the code knows. *)
Theorem user_defaults_allowed (options : gmap string string) (s : Prefs) :
  let get := user_get options s in
  get "view_style" ∈ ["original"; "adaptive"]%string ∧
  get "scroll_style" ∈ ["scrollauto"; "scrolledge"; "scrollbar"]%string ∧
  get "image_quality" ∈ ["balanced"; "best"; "low"; "custom"]%string ∧
  get "codec-preference" ∈ ["auto"; "vp8"; "vp9"; "av1"; "h264"; "h265"]%string ∧
  get "enable-file-copy-paste" ∈ ["Y"; ""; "N"]%string ∧
  (∃ n, get "trackpad-speed" = to_string n ∧ 10 <= n <= 1000) ∧
  (∃ n, get "edge-scroll-edge-thickness" = to_string n ∧ 20 <= n <= 150) ∧
  (∃ x, get "custom_image_quality" = f64_show x ∧ f64_leb (f64_of 10) x = true ∧ f64_leb x (f64_of 0xFFF) = true) ∧
  (∃ x, get "custom-fps" = f64_show x ∧ f64_leb (f64_of 5) x = true ∧ f64_leb x (f64_of 120) = true).
Proof.
  cbv zeta. unfold user_get.
  repeat match goal with |- context [bool_decide (?a = ?b)] => let v := eval vm_compute in (bool_decide (a = b)) in change (bool_decide (a = b)) with v end.
  cbv iota. split_and!; try apply user_get_string_among; try (apply num_string_i32_range; lia); apply num_string_f64_range; lia.
Qed.
End defaults.

(** ** Libraries for the witnesses *)

Definition TestHome : Home :=
  {| project_dir := Some "/c"%string; home_dir := Some "/root"%string; current_dir := None; temp_dir := "/tmp";
     whoami := Some "root"%string; passwd_home _ := None; app_name := "RustDesk" |}.
Definition TestReadDir : ReadDir := {| dir_order := id; dir_order_perm _ := Permutation_refl _ |}.
(** Integers as their own values. *)
Definition TestFloat64 : Float64 :=
  {| f64 := Z; f64_show x := to_string (Zpos (encode x)); f64_parse s := n ← digits s; decode (Z.to_pos n);
     f64_of n := n; f64_leb := Z.leb; f64_to_i32 x := x |}.
Lemma TestFloat64Laws : @Float64Laws TestFloat64.
Proof.
  split; cbn [f64_show f64_parse f64_of f64_leb f64_to_i32 TestFloat64 f64]; try (intros; lia).
  intros x _. unfold to_string. change (Z.pos (encode x) <? 0) with false. cbv iota.
  rewrite digits_to_string_nonneg by lia. cbn [mbind option_bind].
  change (Z.to_pos (Z.abs (Z.pos (encode x)))) with (encode x). apply decode_encode.
Qed.
Lemma test_home : @home_at TestHome ["c"%string].
Proof. exists "c"%string. split; vm_compute; reflexivity. Qed.
(** A process on the machine [u] without files. *)
Definition desk (u : bytes) : Prefs :=
  {| pf_core := machine u; pf_local := default_LocalConfig; pf_status := ∅; pf_user := (∅, 0); pf_stored := ∅; pf_display := (∅, ∅);
     pf_settings := (∅, ∅); pf_files := ∅; pf_shut := ∅; pf_instant := 0 |}.
Example home_paths :
  let H := TestHome in
  conf_file "_local" = "/c/RustDesk_local.toml"%string ∧ get_home = "/root"%string ∧
  log_path = "/root/.local/share/logs/RustDesk"%string ∧ ipc_path 1000 "" = "/tmp/RustDesk-1000/ipc"%string ∧
  ipc_path 1000 "_uinput_mouse" = ipc_path 0 "_uinput_mouse" ∧ ipc_path_for_uid 7 "_x" = "/tmp/RustDesk-7/ipc_x"%string.
Proof. vm_compute. done. Qed.
