(* ===== verification/PeerConfigs.v ===== *)
(** * The settings of each peer

    [PeerConfig] of libs/core-common/src/config.rs: one file for each peer in
    the directory [peers], with the password and the secrets among the options
    encrypted; the list of these files and its loading in batches.  Theorems are
    in [PeerConfigsSpec]. *)
From Stdlib Require Import Ascii.
From S2P Require Import Prelude Text TextFacts UnixPath HostText JsonTree CoreState CoreConfig Prefs.
Local Open Scope Z_scope.

(** ** Data *)

Record Resolution : Type := mkResolution { rs_w : Z; rs_h : Z }.
Record PeerInfoSerde : Type := mkPeerInfoSerde { pi_username : string; pi_hostname : string; pi_platform : string }.
Record TransferSerde : Type := mkTransferSerde { tr_write_jobs : list string; tr_read_jobs : list string }.

(** The flags have a type of one field each in the code, flattened into the tree. *)
Record PeerConfig : Type := mkPeerConfig {
  pc_password : bytes;
  pc_size : Size;
  pc_size_ft : Size;
  pc_size_pf : Size;
  pc_view_style : string;
  pc_scroll_style : string;
  pc_edge_scroll_edge_thickness : Z;
  pc_image_quality : string;
  pc_custom_image_quality : list Z;
  pc_show_remote_cursor : bool;
  pc_lock_after_session_end : bool;
  pc_terminal_persistent : bool;
  pc_privacy_mode : bool;
  pc_allow_swap_key : bool;
  pc_port_forwards : list (Z * string * Z);
  pc_direct_failures : Z;
  pc_disable_audio : bool;
  pc_disable_clipboard : bool;
  pc_enable_file_copy_paste : bool;
  pc_show_quality_monitor : bool;
  pc_follow_remote_cursor : bool;
  pc_follow_remote_window : bool;
  pc_keyboard_mode : string;
  pc_view_only : bool;
  pc_show_my_cursor : bool;
  pc_sync_init_clipboard : bool;
  pc_reverse_mouse_wheel : string;
  pc_displays_as_individual_windows : string;
  pc_use_all_my_displays_for_the_remote_session : string;
  pc_trackpad_speed : Z;
  pc_custom_resolutions : gmap string Resolution;
  pc_options : gmap string string;
  pc_ui_flutter : gmap string string;
  pc_info : PeerInfoSerde;
  pc_transfer : TransferSerde;
}.
(** The same with another password and other options. *)
Definition with_secrets (password : bytes) (options : gmap string string) (c : PeerConfig) : PeerConfig :=
  {| pc_password := password; pc_size := pc_size c; pc_size_ft := pc_size_ft c; pc_size_pf := pc_size_pf c;
     pc_view_style := pc_view_style c; pc_scroll_style := pc_scroll_style c;
     pc_edge_scroll_edge_thickness := pc_edge_scroll_edge_thickness c; pc_image_quality := pc_image_quality c;
     pc_custom_image_quality := pc_custom_image_quality c; pc_show_remote_cursor := pc_show_remote_cursor c;
     pc_lock_after_session_end := pc_lock_after_session_end c; pc_terminal_persistent := pc_terminal_persistent c;
     pc_privacy_mode := pc_privacy_mode c; pc_allow_swap_key := pc_allow_swap_key c; pc_port_forwards := pc_port_forwards c;
     pc_direct_failures := pc_direct_failures c; pc_disable_audio := pc_disable_audio c;
     pc_disable_clipboard := pc_disable_clipboard c; pc_enable_file_copy_paste := pc_enable_file_copy_paste c;
     pc_show_quality_monitor := pc_show_quality_monitor c; pc_follow_remote_cursor := pc_follow_remote_cursor c;
     pc_follow_remote_window := pc_follow_remote_window c; pc_keyboard_mode := pc_keyboard_mode c;
     pc_view_only := pc_view_only c; pc_show_my_cursor := pc_show_my_cursor c; pc_sync_init_clipboard := pc_sync_init_clipboard c;
     pc_reverse_mouse_wheel := pc_reverse_mouse_wheel c;
     pc_displays_as_individual_windows := pc_displays_as_individual_windows c;
     pc_use_all_my_displays_for_the_remote_session := pc_use_all_my_displays_for_the_remote_session c;
     pc_trackpad_speed := pc_trackpad_speed c; pc_custom_resolutions := pc_custom_resolutions c; pc_options := options;
     pc_ui_flutter := pc_ui_flutter c; pc_info := pc_info c; pc_transfer := pc_transfer c |}.

(** ** Trees *)

(** The fields that are written, those that are left out being [None]. *)
Definition fields_tree (l : list (string * option JVal)) : JVal := VObj (omap (λ e, (e.1,.) <$> e.2) l).
Definition text_unless_empty (s : string) : option JVal := if no_text s then None else Some (VText s).
Definition numbers_unless_empty (l : list Z) : option JVal := match l with [] => None | _ => Some (VList (VNum <$> l)) end.
Definition map_unless_empty {A} (e : A → JVal) (m : gmap string A) : option JVal :=
  if bool_decide (m = ∅) then None else Some (enc_map e m).

Definition resolution_tree (r : Resolution) : JVal := VObj [("w", VNum (rs_w r)); ("h", VNum (rs_h r))]%string.
Definition resolution_of_tree (v : JVal) : option Resolution :=
  w ← required dec_i32 "w" v; h ← required dec_i32 "h" v; Some (mkResolution w h).
Definition forward_tree (f : Z * string * Z) : JVal := let '(a, host, b) := f in VList [VNum a; VText host; VNum b].
Definition forward_of_tree (v : JVal) : option (Z * string * Z) :=
  match v with VList [a; h; b] => a ← dec_i32 a; h ← dec_str h; b ← dec_i32 b; Some (a, h, b) | _ => None end.
Definition info_tree (i : PeerInfoSerde) : JVal :=
  VObj [("username", VText (pi_username i)); ("hostname", VText (pi_hostname i)); ("platform", VText (pi_platform i))]%string.
Definition info_of_tree (v : JVal) : option PeerInfoSerde :=
  match v with
  | VObj _ => Some (mkPeerInfoSerde (lenient dec_str "" "username" v) (lenient dec_str "" "hostname" v) (lenient dec_str "" "platform" v))
  | _ => None
  end.
Definition transfer_tree (t : TransferSerde) : JVal :=
  VObj [("write_jobs", enc_texts (tr_write_jobs t)); ("read_jobs", enc_texts (tr_read_jobs t))]%string.
Definition transfer_of_tree (v : JVal) : option TransferSerde :=
  match v with
  | VObj _ => Some (mkTransferSerde (lenient dec_texts [] "write_jobs" v) (lenient dec_texts [] "read_jobs" v))
  | _ => None
  end.
Definition no_info : PeerInfoSerde := mkPeerInfoSerde "" "" "".
Definition no_transfer : TransferSerde := mkTransferSerde [] [].

Definition peer_fields (c : PeerConfig) : list (string * option JVal) :=
  [("password", Some (enc_bytes (pc_password c))); ("size", Some (enc_size (pc_size c)));
   ("size_ft", Some (enc_size (pc_size_ft c))); ("size_pf", Some (enc_size (pc_size_pf c)));
   ("view_style", text_unless_empty (pc_view_style c)); ("scroll_style", text_unless_empty (pc_scroll_style c));
   ("edge_scroll_edge_thickness", Some (VNum (pc_edge_scroll_edge_thickness c)));
   ("image_quality", text_unless_empty (pc_image_quality c));
   ("custom_image_quality", numbers_unless_empty (pc_custom_image_quality c));
   ("show_remote_cursor", Some (VBool (pc_show_remote_cursor c)));
   ("lock_after_session_end", Some (VBool (pc_lock_after_session_end c)));
   ("terminal-persistent", Some (VBool (pc_terminal_persistent c))); ("privacy_mode", Some (VBool (pc_privacy_mode c)));
   ("allow_swap_key", Some (VBool (pc_allow_swap_key c)));
   ("port_forwards", Some (VList (forward_tree <$> pc_port_forwards c)));
   ("direct_failures", Some (VNum (pc_direct_failures c))); ("disable_audio", Some (VBool (pc_disable_audio c)));
   ("disable_clipboard", Some (VBool (pc_disable_clipboard c)));
   ("enable-file-copy-paste", Some (VBool (pc_enable_file_copy_paste c)));
   ("show_quality_monitor", Some (VBool (pc_show_quality_monitor c)));
   ("follow_remote_cursor", Some (VBool (pc_follow_remote_cursor c)));
   ("follow_remote_window", Some (VBool (pc_follow_remote_window c)));
   ("keyboard_mode", text_unless_empty (pc_keyboard_mode c)); ("view_only", Some (VBool (pc_view_only c)));
   ("show_my_cursor", Some (VBool (pc_show_my_cursor c))); ("sync-init-clipboard", Some (VBool (pc_sync_init_clipboard c)));
   ("reverse_mouse_wheel", text_unless_empty (pc_reverse_mouse_wheel c));
   ("displays_as_individual_windows", text_unless_empty (pc_displays_as_individual_windows c));
   ("use_all_my_displays_for_the_remote_session", text_unless_empty (pc_use_all_my_displays_for_the_remote_session c));
   ("trackpad-speed", Some (VNum (pc_trackpad_speed c)));
   ("custom_resolutions", map_unless_empty resolution_tree (pc_custom_resolutions c));
   ("options", map_unless_empty VText (pc_options c));
   ("ui_flutter", Some (enc_map VText (pc_ui_flutter c)));
   ("info", Some (info_tree (pc_info c))); ("transfer", Some (transfer_tree (pc_transfer c)))]%string.
Definition peer_tree (c : PeerConfig) : JVal := fields_tree (peer_fields c).

(** An id, the time of its file, and the file. *)
Abbreviation PeerFile := (string * Z * string)%type.
Definition listed_before (a b : PeerFile) : Prop := b.1.2 <= a.1.2.
#[export] Instance listed_before_dec a b : Decision (listed_before a b).
Proof. unfold listed_before. apply _. Defined.

(** ** Reading, with the defaults of the user *)

Section peers.
Context `{Home} `{ReadDir} `{Confy} `{Sodium} `{Rng} `{Sha2} `{Float64}.

(** The defaults: [d] is [UserDefaultConfig::read]. *)
Definition default_flag (d : string → string) (key : string) : bool := bool_decide (d key = "Y"%string).
Definition default_custom_image_quality (d : string → string) : list Z :=
  [f64_to_i32 (default (f64_of 50) (f64_parse (d "custom_image_quality"%string)))].
Definition default_options (d : string → string) : gmap string string :=
  list_to_map ((λ k, (k, d k)) <$>
    ["codec-preference"; "custom-fps"; "zoom-cursor"; "i444"; "swap-left-right-mouse"; "collapse_toolbar"]%string).
Definition default_trackpad_speed (d : string → string) : Z := default 100 (parse_i32 (d "trackpad-speed"%string)).
Definition default_edge_scroll_edge_thickness (d : string → string) : Z :=
  default 100 (parse_i32 (d "edge-scroll-edge-thickness"%string)).
Definition default_PeerConfig (d : string → string) : PeerConfig :=
  {| pc_password := []; pc_size := (0, 0, 0, 0); pc_size_ft := (0, 0, 0, 0); pc_size_pf := (0, 0, 0, 0);
     pc_view_style := d "view_style"%string; pc_scroll_style := d "scroll_style"%string;
     pc_edge_scroll_edge_thickness := default_edge_scroll_edge_thickness d; pc_image_quality := d "image_quality"%string;
     pc_custom_image_quality := default_custom_image_quality d; pc_show_remote_cursor := default_flag d "show_remote_cursor";
     pc_lock_after_session_end := default_flag d "lock_after_session_end";
     pc_terminal_persistent := default_flag d "terminal-persistent"; pc_privacy_mode := default_flag d "privacy_mode";
     pc_allow_swap_key := default_flag d "allow_swap_key"; pc_port_forwards := []; pc_direct_failures := 0;
     pc_disable_audio := default_flag d "disable_audio"; pc_disable_clipboard := default_flag d "disable_clipboard";
     pc_enable_file_copy_paste := default_flag d "enable-file-copy-paste";
     pc_show_quality_monitor := default_flag d "show_quality_monitor";
     pc_follow_remote_cursor := default_flag d "follow_remote_cursor";
     pc_follow_remote_window := default_flag d "follow_remote_window"; pc_keyboard_mode := "";
     pc_view_only := default_flag d "view_only"; pc_show_my_cursor := default_flag d "show_my_cursor";
     pc_sync_init_clipboard := default_flag d "sync-init-clipboard"; pc_reverse_mouse_wheel := d "reverse_mouse_wheel"%string;
     pc_displays_as_individual_windows := d "displays_as_individual_windows"%string;
     pc_use_all_my_displays_for_the_remote_session := d "use_all_my_displays_for_the_remote_session"%string;
     pc_trackpad_speed := default_trackpad_speed d; pc_custom_resolutions := ∅; pc_options := default_options d;
     pc_ui_flutter := ∅; pc_info := no_info; pc_transfer := no_transfer |}.

(** Readers of a field: [look] gives the value of a key. *)
Definition lenient_in {A} (dec : JVal → option A) (a : A) (o : option JVal) : A := default a (o ≫= dec).
(** [serde_field_bool]: the default of the user only where there is no field. *)
Definition flag_field (d : string → string) (key : string) (o : option JVal) : bool :=
  match o with Some v => default false (dec_bool v) | None => default_flag d key end.
(** [serde_field_string] *)
Definition string_field (dflt : string) (o : option JVal) : string :=
  match o with Some v => let s := default dflt (dec_str v) in if no_text s then dflt else s | None => dflt end.
(** A number outside its range is the default; another type is an error. *)
Definition ranged_field (lo hi dflt : Z) (o : option JVal) : option Z :=
  match o with
  | Some v => n ← dec_i32 v; Some (if (lo <=? n) && (n <=? hi) then n else dflt)
  | None => Some dflt
  end.
Definition deserialize_trackpad_speed (d : string → string) : option JVal → option Z :=
  ranged_field 10 1000 (default_trackpad_speed d).
Definition deserialize_edge_scroll_edge_thickness (d : string → string) : option JVal → option Z :=
  ranged_field 20 150 (default_edge_scroll_edge_thickness d).
Definition deserialize_custom_image_quality (d : string → string) (o : option JVal) : option (list Z) :=
  match o with
  | Some v =>
    l ← dec_list dec_i32 v;
    Some (match l with [q] => if (10 <=? q) && (q <=? 0xFFF) then l else default_custom_image_quality d
          | _ => default_custom_image_quality d end)
  | None => Some (default_custom_image_quality d)
  end.
(** A struct with a default for the whole, its type checked. *)
Definition default_in {A} (dec : JVal → option A) (a : A) (o : option JVal) : option A :=
  match o with Some v => dec v | None => Some a end.

Definition peer_of (d : string → string) (look : string → option JVal) : option PeerConfig :=
  edge ← deserialize_edge_scroll_edge_thickness d (look "edge_scroll_edge_thickness"%string);
  quality ← deserialize_custom_image_quality d (look "custom_image_quality"%string);
  speed ← deserialize_trackpad_speed d (look "trackpad-speed"%string);
  info ← default_in info_of_tree no_info (look "info"%string);
  transfer ← default_in transfer_of_tree no_transfer (look "transfer"%string);
  let flag key := flag_field d key (look key) in
  let text key := string_field (d key) (look key) in
  Some {| pc_password := lenient_in dec_bytes [] (look "password"%string);
     pc_size := lenient_in dec_size (0, 0, 0, 0) (look "size"%string);
     pc_size_ft := lenient_in dec_size (0, 0, 0, 0) (look "size_ft"%string);
     pc_size_pf := lenient_in dec_size (0, 0, 0, 0) (look "size_pf"%string);
     pc_view_style := text "view_style"%string; pc_scroll_style := text "scroll_style"%string;
     pc_edge_scroll_edge_thickness := edge; pc_image_quality := text "image_quality"%string; pc_custom_image_quality := quality;
     pc_show_remote_cursor := flag "show_remote_cursor"%string; pc_lock_after_session_end := flag "lock_after_session_end"%string;
     pc_terminal_persistent := flag "terminal-persistent"%string; pc_privacy_mode := flag "privacy_mode"%string;
     pc_allow_swap_key := flag "allow_swap_key"%string;
     pc_port_forwards := lenient_in (dec_list forward_of_tree) [] (look "port_forwards"%string);
     pc_direct_failures := lenient_in dec_i32 0 (look "direct_failures"%string);
     pc_disable_audio := flag "disable_audio"%string; pc_disable_clipboard := flag "disable_clipboard"%string;
     pc_enable_file_copy_paste := flag "enable-file-copy-paste"%string;
     pc_show_quality_monitor := flag "show_quality_monitor"%string;
     pc_follow_remote_cursor := flag "follow_remote_cursor"%string;
     pc_follow_remote_window := flag "follow_remote_window"%string;
     pc_keyboard_mode := lenient_in dec_str "" (look "keyboard_mode"%string);
     pc_view_only := flag "view_only"%string; pc_show_my_cursor := flag "show_my_cursor"%string;
     pc_sync_init_clipboard := flag "sync-init-clipboard"%string; pc_reverse_mouse_wheel := text "reverse_mouse_wheel"%string;
     pc_displays_as_individual_windows := text "displays_as_individual_windows"%string;
     pc_use_all_my_displays_for_the_remote_session := text "use_all_my_displays_for_the_remote_session"%string;
     pc_trackpad_speed := speed;
     pc_custom_resolutions := lenient_in (dec_map resolution_of_tree) ∅ (look "custom_resolutions"%string);
     pc_options := lenient_in (dec_map dec_str) ∅ (look "options"%string);
     pc_ui_flutter := lenient_in (dec_map dec_str) ∅ (look "ui_flutter"%string);
     pc_info := info; pc_transfer := transfer |}.
Definition peer_of_tree (d : string → string) (v : JVal) : option PeerConfig := peer_of d (λ k, jget k v).

(** ** The file of a peer *)

Definition PEERS : string := "peers".
(** The expression [.*[<>:/\\|\?\*].*] finds one of these anywhere. *)
Definition forbidden (id : string) : bool :=
  existsb (λ c, bool_decide (c ∈ String.list_ascii_of_string "<>:/\|?*")) (String.list_ascii_of_string id).
Definition encoded_id (id : string) : string := if forbidden id then "base64_" +:+ base64_encode (str_bytes id) else id.
Definition peer_path (id : string) : string := with_extension (conf_path (path_join PEERS (encoded_id id))).

Definition SECRET_OPTIONS : list string := ["rdp_password"; "os-username"; "os-password"]%string.
(** Each of these options that is there, changed by [f]; and whether one of them
    asks for storing. *)
Fixpoint change_options (f : string → M Core (string * bool)) (keys : list string) (options : gmap string string) :
    M Core (gmap string string * bool) :=
  match keys with
  | [] => mret (options, false)
  | k :: keys =>
    match options !! k with
    | Some v =>
      '(v', st) ← f v;
      '(options, st') ← change_options f keys (<[k := v']> options);
      mret (options, st || st')
    | None => change_options f keys options
    end
  end.
Definition encrypt_option (v : string) : M Core (string * bool) :=
  t ← encrypt_str_or_original v PASSWORD_ENC_VERSION ENCRYPT_MAX_LEN; mret (t, false).
Definition decrypt_option (v : string) : M Core (string * bool) :=
  '(t, _, st) ← decrypt_str_or_original v PASSWORD_ENC_VERSION; mret (t, st).
Definition peer_store (id : string) (c : PeerConfig) : M Prefs unit :=
  password ← on_core (encrypt_vec_or_original (pc_password c) PASSWORD_ENC_VERSION ENCRYPT_MAX_LEN);
  '(options, _) ← on_core (change_options encrypt_option SECRET_OPTIONS (pc_options c));
  save_tree (peer_path id) (peer_tree (with_secrets password options c));;
  modify (λ s, set_stored ({[id]} ∪ pf_stored s) s).
(** [UserDefaultConfig::read] after the first read of this instant. *)
Definition defaults (s : Prefs) : string → string := user_get (pf_user s).1 s.
Definition peer_parsed (id : string) (s : Prefs) : option PeerConfig :=
  t ← read_file (peer_path id) s; v ← confy_read t; peer_of_tree (defaults s) v.
Definition peer_load (id : string) : M Prefs PeerConfig :=
  user_refresh;;
  parsed ← gets (peer_parsed id);
  match parsed with
  | Some c =>
    '(password, _, st) ← on_core (decrypt_vec_or_original (pc_password c) PASSWORD_ENC_VERSION);
    '(options, st') ← on_core (change_options decrypt_option SECRET_OPTIONS (pc_options c));
    let c := with_secrets password options c in
    (if st || st' then peer_store id c else mret tt);;
    mret c
  | None => gets (λ s, default_PeerConfig (defaults s))
  end.
Definition peer_remove (id : string) : M Prefs unit := drop_file (peer_path id).
Definition peer_exists (id : string) : Prefs → bool := path_exists (peer_path id).

(** ** The list of peers *)

(** The names of the files of a directory. *)
Definition files_in (dir : list string) (s : Prefs) : list string :=
  omap (λ kf, n ← last kf.1; if bool_decide (removelast kf.1 = dir) && usable s kf.1 then Some n else None)
    (map_to_list (pf_files s)).
Definition peers_in_dir (p : string) (s : Prefs) : list string :=
  match place p with Some dir => (path_join p) <$> dir_order (files_in dir s) | None => [] end.
Definition decoded_id (id : string) : string :=
  if starts_with "base64_" id && negb (Nat.eqb (String.length id) 7)
  then from_utf8_lossy (default [] (base64_decode (drop 7 (str_bytes id))))
  else id.
Definition id_of_file (p : string) : string := decoded_id (default ""%string (file_stem p ≫= to_str)).
Definition get_vec_id_modified_time_path (id_filters : option (list string)) (s : Prefs) : list PeerFile :=
  let files := List.filter (λ p, bool_decide (extension p = Some "toml"%string)) (peers_in_dir (conf_path PEERS) s) in
  let ids := (λ p, (id_of_file p, p)) <$> files in
  let wanted := List.filter (λ e, match id_filters with Some filters => bool_decide (e.1 ∈ filters) | None => true end) ids in
  merge_sort listed_before ((λ e, (e.1, get_modified_time e.2 s, e.2)) <$> wanted).

Definition BATCH_LOADING_COUNT : nat := 100.
(** One of the list: a file without a platform is removed. *)
Definition load_listed (e : PeerFile) : M Prefs (string * Z * PeerConfig) :=
  c ← peer_load e.1.1;
  (if no_text (pi_platform (pc_info c)) then drop_file e.2 else mret tt);;
  mret (e.1.1, e.1.2, c).
Definition with_platform (r : string * Z * PeerConfig) : bool := negb (no_text (pi_platform (pc_info r.2))).
Definition batch_peers (all : list PeerFile) (from : nat) (to : option nat) : M Prefs (list (string * Z * PeerConfig) * nat) :=
  if (length all <=? from)%nat then mret ([], 0%nat) else
  let to := Nat.min (match to with Some to => to | None => from + BATCH_LOADING_COUNT end)%nat (length all) in
  if (to <=? from)%nat then mret ([], from) else
  peers ← mapM load_listed (take (to - from) (drop from all));
  mret (List.filter with_platform peers, to).
Definition peers (id_filters : option (list string)) : M Prefs (list (string * Z * PeerConfig)) :=
  all ← gets (get_vec_id_modified_time_path id_filters);
  r ← batch_peers all 0 (Some (length all)); mret r.1.
End peers.
