(* ===== verification/PeerConfigsSpec.v ===== *)
(** * What the settings of peers give back

    Of [PeerConfigs]: what is loaded is within its bounds whatever the file
    holds, what is stored is loaded again with its secrets, the list of peers is
    the files of the directory, batches are the whole list; and how settings of a
    peer are lost, hidden or taken for those of another. *)
From Stdlib Require Import Ascii.
From S2P Require Import Prelude Text TextFacts UnixPath HostText JsonTree CoreState CoreConfig CoreConfigSpec CoreStoreSpec Prefs PrefsSpec PeerConfigs.
Local Open Scope Z_scope.

(** ** Trees of fields that may be left out *)

Definition field (k : string) (l : list (string * option JVal)) : option JVal :=
  match List.find (λ e, String.eqb e.1 k) l with Some e => e.2 | None => None end.
Lemma jget_cons k k' v l : jget k (VObj ((k', v) :: l)) = if String.eqb k' k then Some v else jget k (VObj l).
Proof. cbn [jget List.find fst]. by destruct (String.eqb k' k). Qed.
Lemma jget_fields k l : NoDup l.*1 → jget k (fields_tree l) = field k l.
Proof.
  induction l as [|[k' o] l IH]; [done|]. cbn [fmap list_fmap fst]. intros [Hk Hl]%NoDup_cons.
  unfold fields_tree, field in *. cbn [omap list_omap fst snd List.find].
  destruct (String.eqb k' k) eqn:E.
  - apply String.eqb_eq in E as ->. destruct o as [v|]; cbn [fmap option_fmap option_map snd fst].
    + by rewrite jget_cons, String.eqb_refl.
    + rewrite IH by done. destruct (List.find _ l) as [[k' o]|] eqn:Ef; [|done]. apply List.find_some in Ef as [Hin E].
      apply String.eqb_eq in E. cbn in E. subst. destruct Hk. apply list_elem_of_fmap. exists (k, o). by split; [|apply list_elem_of_In].
  - destruct o as [v|]; cbn [fmap option_fmap option_map snd fst]; [rewrite jget_cons, E|]; by apply IH.
Qed.
Lemma tables_last_app l1 l2 :
  forallb (λ e, negb (is_table e.2)) l1 = true → forallb (λ e : string * JVal, is_table e.2) l2 = true → tables_last (l1 ++ l2) = true.
Proof.
  intros H1 H2. induction l1 as [|[k v] l1 IH]; cbn [app tables_last].
  - destruct l2 as [|[k v] l2]; [done|]. cbn [tables_last forallb snd] in *. bool_simp. by rewrite H, H0.
  - cbn [forallb snd] in H1 |- *. apply andb_true_iff in H1 as [Hv H1]. apply negb_true_iff in Hv. rewrite Hv. by apply IH.
Qed.
(** Values first, then tables. *)
Definition values_ok (l : list (string * option JVal)) : Prop :=
  Forall (λ e, ∀ v, e.2 = Some v → is_table v = false ∧ toml_ok v = true) l.
Definition tables_ok (l : list (string * option JVal)) : Prop :=
  Forall (λ e, ∀ v, e.2 = Some v → is_table v = true ∧ toml_ok v = true) l.
Lemma written_fields P (l : list (string * option JVal)) :
  Forall (λ e, ∀ v, e.2 = Some v → P v = true) l → forallb (λ e, P e.2) (omap (λ e, (e.1,.) <$> e.2) l) = true.
Proof.
  induction 1 as [|[k o] l Ho Hl IH]; [done|]. cbn. destruct o as [v|]; cbn; [by rewrite Ho|done].
Qed.
Lemma fields_tree_ok l1 l2 : NoDup (l1 ++ l2).*1 → values_ok l1 → tables_ok l2 → toml_ok (fields_tree (l1 ++ l2)) = true.
Proof.
  intros Hn H1 H2. unfold fields_tree. rewrite omap_app. cbn [toml_ok]. rewrite !andb_true_iff. split; [split|].
  - apply bool_decide_eq_true_2. rewrite <- omap_app. revert Hn. generalize (l1 ++ l2). clear l1 l2 H1 H2. intros l.
    induction l as [|[k o] l IH]; [constructor|]. cbn. intros [Hk Hl]%NoDup_cons. destruct o as [v|]; cbn; [|by apply IH].
    constructor; [|by apply IH]. intros ([k' v'] & E & Hin)%list_elem_of_fmap. apply Hk. cbn in E. subst.
    apply list_elem_of_omap in Hin as ([k2 [v2|]] & Hin & E); [|done]. cbn in E. simplify_eq. apply list_elem_of_fmap. eexists. by split; [|exact Hin].
  - apply tables_last_app; [apply (written_fields (λ v, negb (is_table v)))|apply (written_fields is_table)];
      (eapply Forall_impl; [eassumption|]); intros e He v E; destruct (He v E) as [Ht ?]; by rewrite Ht.
  - rewrite forallb_app, andb_true_iff. split; apply (written_fields toml_ok);
      (eapply Forall_impl; [eassumption|]); intros e He v E; by apply He.
Qed.

(** ** Settings a program holds *)

(** What the types of the code say. *)
Definition forward_ok (f : Z * string * Z) : Prop := i32_ok f.1.1 ∧ i32_ok f.2.
Definition resolution_ok (r : Resolution) : Prop := i32_ok (rs_w r) ∧ i32_ok (rs_h r).
Definition typed (c : PeerConfig) : Prop :=
  bytes_ok (pc_password c) ∧ size_ok (pc_size c) ∧ size_ok (pc_size_ft c) ∧ size_ok (pc_size_pf c) ∧
  Forall forward_ok (pc_port_forwards c) ∧ i32_ok (pc_direct_failures c) ∧ map_Forall (λ _, resolution_ok) (pc_custom_resolutions c).
(** The ranges, and texts that are not empty. *)
Definition in_bounds (c : PeerConfig) : Prop :=
  10 <= pc_trackpad_speed c <= 1000 ∧ 20 <= pc_edge_scroll_edge_thickness c <= 150 ∧
  (∃ q, pc_custom_image_quality c = [q] ∧ 10 <= q <= 0xFFF) ∧
  pc_view_style c ≠ ""%string ∧ pc_scroll_style c ≠ ""%string ∧ pc_image_quality c ≠ ""%string.
(** The other texts are empty only where that is the default [d]. *)
Definition texts_fit (d : string → string) (c : PeerConfig) : Prop :=
  (pc_reverse_mouse_wheel c = "" → d "reverse_mouse_wheel" = "")%string ∧
  (pc_displays_as_individual_windows c = "" → d "displays_as_individual_windows" = "")%string ∧
  (pc_use_all_my_displays_for_the_remote_session c = "" → d "use_all_my_displays_for_the_remote_session" = "")%string.

Section trees.
Context `{Float64}.

Lemma dec_forwards l : Forall forward_ok l → dec_list forward_of_tree (VList (forward_tree <$> l)) = Some l.
Proof.
  intros Hl. apply (mapM_back forward_of_tree forward_tree). eapply Forall_impl; [exact Hl|].
  intros [[a h] b] [Ha Hb]. cbn -[dec_i32] in *. by rewrite !dec_i32_ok.
Qed.
Lemma dec_i32s l : Forall i32_ok l → dec_list dec_i32 (VList (VNum <$> l)) = Some l.
Proof. intros Hl. apply (mapM_back dec_i32 VNum). eapply Forall_impl; [exact Hl|]. apply dec_i32_ok. Qed.
Lemma resolution_back r : resolution_ok r → resolution_of_tree (resolution_tree r) = Some r.
Proof.
  intros [Hw Hh]. transitivity (w ← dec_i32 (VNum (rs_w r)); h ← dec_i32 (VNum (rs_h r)); Some (mkResolution w h)); [reflexivity|].
  rewrite !dec_i32_ok by done. by destruct r.
Qed.
Lemma dec_map_back {A} (e : A → JVal) d (m : gmap string A) :
  map_Forall (λ _ a, d (e a) = Some a) m → lenient_in (dec_map d) ∅ (map_unless_empty e m) = m.
Proof.
  intros Hm. unfold map_unless_empty. case_bool_decide as E; [by subst|]. unfold lenient_in, enc_map. cbn [dec_map mbind option_bind].
  rewrite (mapM_back _ (λ kv : string * A, (kv.1, e kv.2))); [cbn; apply list_to_map_to_list|].
  apply Forall_forall. intros [k a] Ha%elem_of_map_to_list. cbn. by rewrite (Hm k a Ha).
Qed.
Lemma string_field_back dflt s : (s = "" → dflt = "")%string → string_field dflt (text_unless_empty s) = s.
Proof.
  intros Hs. unfold text_unless_empty, string_field. destruct (no_text s) eqn:E.
  - apply bool_decide_eq_true_1 in E. subst. by apply Hs.
  - cbn. by rewrite E.
Qed.
Lemma lenient_text_back s : lenient_in dec_str "" (text_unless_empty s) = s.
Proof. unfold text_unless_empty. destruct (no_text s) eqn:E; [|done]. by apply bool_decide_eq_true_1 in E. Qed.
Lemma ranged_back lo hi dflt n : lo <= n <= hi → i32_ok n → ranged_field lo hi dflt (Some (VNum n)) = Some n.
Proof.
  intros Hn Hi. unfold ranged_field. rewrite dec_i32_ok by done. cbn [mbind option_bind]. by destruct (_ && _) eqn:E; [|lia].
Qed.
Lemma quality_back d l q : l = [q] → 10 <= q <= 0xFFF →
  deserialize_custom_image_quality d (numbers_unless_empty l) = Some l.
Proof.
  intros -> Hq. unfold numbers_unless_empty, deserialize_custom_image_quality. rewrite dec_i32s by (repeat constructor; unfold i32_ok; lia).
  cbn [mbind option_bind]. by destruct (_ && _) eqn:E; [|lia].
Qed.
Lemma info_back i : info_of_tree (info_tree i) = Some i.
Proof. by destruct i. Qed.
Lemma transfer_back t : transfer_of_tree (transfer_tree t) = Some t.
Proof.
  transitivity (Some (mkTransferSerde (default [] (dec_texts (enc_texts (tr_write_jobs t)))) (default [] (dec_texts (enc_texts (tr_read_jobs t))))));
    [reflexivity|]. rewrite !dec_texts_enc. by destruct t.
Qed.
Lemma peer_fields_apart c : NoDup (peer_fields c).*1.
Proof. apply (bool_decide_eq_true_1 _). vm_compute. reflexivity. Qed.
Lemma peer_field k c : jget k (peer_tree c) = field k (peer_fields c).
Proof. apply jget_fields, peer_fields_apart. Qed.
Lemma map_field_ok {A} (e : A → JVal) (m : gmap string A) :
  toml_ok (enc_map e m) = true → ∀ v, map_unless_empty e m = Some v → is_table v = true ∧ toml_ok v = true.
Proof. intros He v. unfold map_unless_empty. by case_bool_decide; intros [= <-]. Qed.
(** A table of tables. *)
Lemma table_map_ok {A} (e : A → JVal) (m : gmap string A) :
  map_Forall (λ _ a, is_table (e a) = true ∧ toml_ok (e a) = true) m → toml_ok (enc_map e m) = true.
Proof.
  intros He. unfold enc_map. cbn [toml_ok]. rewrite !andb_true_iff, bool_decide_eq_true. split; [split|].
  - rewrite <- list_fmap_compose. apply NoDup_fst_map_to_list.
  - apply (tables_last_app []); [done|]. apply forallb_forall. intros kv [[k a] [-> Ha]]%list_elem_of_In%list_elem_of_fmap.
    apply elem_of_map_to_list in Ha. apply (He k a Ha).
  - apply forallb_forall. intros kv [[k a] [-> Ha]]%list_elem_of_In%list_elem_of_fmap. apply elem_of_map_to_list in Ha. apply (He k a Ha).
Qed.
Lemma resolution_tree_ok r : resolution_ok r → is_table (resolution_tree r) = true ∧ toml_ok (resolution_tree r) = true.
Proof. intros [Hw%num_tree_ok Hh%num_tree_ok]. split; [done|]. cbn in *. by rewrite Hw, Hh. Qed.
Lemma forwards_tree_ok l : Forall forward_ok l → toml_ok (VList (forward_tree <$> l)) = true.
Proof.
  cbn. induction 1 as [|[[a h] b] l [Ha%num_tree_ok Hb%num_tree_ok] _ IH]; [done|]. cbn in *. by rewrite Ha, Hb, IH.
Qed.
Lemma text_field_ok s v : text_unless_empty s = Some v → is_table v = false ∧ toml_ok v = true.
Proof. unfold text_unless_empty. by destruct (no_text s); intros [= <-]. Qed.
Lemma transfer_tree_ok t : toml_ok (transfer_tree t) = true.
Proof.
  unfold transfer_tree. cbn [toml_ok]. rewrite !andb_true_iff. split; [split; [vm_compute; reflexivity|done]|].
  cbn -[enc_texts]. by rewrite !texts_tree_ok.
Qed.
Lemma size_no_table z : is_table (enc_size z) = false.
Proof. by destruct z as [[[? ?] ?] ?]. Qed.
Lemma peer_tree_ok c : typed c → in_bounds c → toml_ok (peer_tree c) = true.
Proof.
  intros (Hp & H1 & H2 & H3 & Hf & Hd & Hr) (Hs & He & (q & Hq & Hb) & _).
  unfold peer_tree. rewrite <- (take_drop 30 (peer_fields c)). apply fields_tree_ok.
  - rewrite take_drop. apply peer_fields_apart.
  - cbn [take peer_fields]. rewrite Hq. cbn [fmap list_fmap numbers_unless_empty]. unfold values_ok.
    repeat apply Forall_cons_2; [..|apply Forall_nil_2]; cbn [snd]; intros v Hv;
      first [by apply text_field_ok in Hv | injection Hv as <-]; (split; [first [done | apply size_no_table]|]);
      try done; first [by apply bytes_tree_ok | by apply size_tree_ok | by apply forwards_tree_ok | by apply num_tree_ok
                      | cbn; lia].
  - cbn [drop peer_fields]. unfold tables_ok. repeat apply Forall_cons_2; [..|apply Forall_nil_2]; cbn [snd].
    + apply map_field_ok, table_map_ok. eapply map_Forall_impl; [exact Hr|]. intros k r. apply resolution_tree_ok.
    + apply map_field_ok, text_map_ok.
    + intros v [= <-]. split; [done|apply text_map_ok].
    + by intros v [= <-].
    + intros v [= <-]. split; [done|apply transfer_tree_ok].
Qed.
Ltac read_fields c :=
  repeat match goal with
    | |- context [field ?k (peer_fields c)] =>
      let v := eval cbv beta iota delta [field peer_fields List.find fst snd String.eqb Ascii.eqb Bool.eqb] in (field k (peer_fields c)) in
      change (field k (peer_fields c)) with v
    end.
Lemma peer_roundtrip d c : typed c → in_bounds c → texts_fit d c → peer_of_tree d (peer_tree c) = Some c.
Proof.
  intros (Hp & H1 & H2 & H3 & Hf & Hd & Hr) (Hs & He & (q & Hq & Hb) & Hv & Hc & Hi) (T1 & T2 & T3).
  unfold peer_of_tree, peer_of. rewrite !peer_field. read_fields c.
  unfold deserialize_edge_scroll_edge_thickness, deserialize_trackpad_speed.
  rewrite (quality_back d _ q Hq Hb), !ranged_back by (unfold i32_ok; lia).
  unfold default_in, flag_field. cbn [mbind option_bind dec_bool default]. rewrite info_back, transfer_back. cbn [mbind option_bind].
  rewrite !string_field_back by tauto. rewrite lenient_text_back, dec_map_back, dec_map_back by
    first [by intros k t | eapply map_Forall_impl; [exact Hr|]; intros k r; apply resolution_back].
  unfold lenient_in. cbn [mbind option_bind]. rewrite dec_bytes_enc, !dec_size_enc, dec_forwards, dec_i32_ok, dec_map_enc by done.
  by destruct c.
Qed.
End trees.

(** ** What is loaded is within its bounds *)

Section bounds.
Context `{Home} `{Confy} `{Sodium} `{Rng} `{Sha2} `{Float64} `{!Float64Laws}.

Lemma numbers_allowed s :
  10 <= default_trackpad_speed (defaults s) <= 1000 ∧ 20 <= default_edge_scroll_edge_thickness (defaults s) <= 150 ∧
  ∃ q, default_custom_image_quality (defaults s) = [q] ∧ 10 <= q <= 0xFFF.
Proof.
  destruct (user_defaults_allowed (pf_user s).1 s) as (_ & _ & _ & _ & _ & (n & En & Hn) & (m & Em & Hm) & (x & Ex & Hl & Hh) & _).
  unfold default_trackpad_speed, default_edge_scroll_edge_thickness, default_custom_image_quality, defaults. rewrite En, Em, Ex.
  unfold parse_i32. rewrite !parse_int_to_string by lia. destruct (f64_number _ _ Hl) as [_ Hx]. rewrite f64_roundtrip by done.
  cbn [from_option id]. split; [lia|]. split; [lia|]. eexists. split; [done|]. apply f64_mono in Hl, Hh. rewrite f64_exact in Hl, Hh by lia. lia.
Qed.
Lemma texts_allowed s : defaults s "view_style" ≠ ""%string ∧ defaults s "scroll_style" ≠ ""%string ∧ defaults s "image_quality" ≠ ""%string.
Proof.
  destruct (user_defaults_allowed (pf_user s).1 s) as (G1 & G2 & G3 & _). unfold defaults.
  split_and!; intros E; rewrite E in *; repeat match goal with Hin : _ ∈ _ :: _ |- _ => apply elem_of_cons in Hin as [?|Hin]; [done|] end;
    by eapply not_elem_of_nil.
Qed.
Lemma default_in_bounds s : in_bounds (default_PeerConfig (defaults s)).
Proof. destruct (numbers_allowed s) as (? & ? & ?), (texts_allowed s) as (? & ? & ?). done. Qed.
Lemma string_field_nonempty dflt o : dflt ≠ ""%string → string_field dflt o ≠ ""%string.
Proof.
  intros Hd. unfold string_field. destruct o as [v|]; [|done]. cbv zeta. destruct (no_text _) eqn:E; [done|]. by apply bool_decide_eq_false_1 in E.
Qed.
Lemma ranged_in lo hi dflt o n : lo <= dflt <= hi → ranged_field lo hi dflt o = Some n → lo <= n <= hi.
Proof.
  intros Hd. unfold ranged_field. destruct o as [v|]; [|by intros [= <-]]. destruct (dec_i32 v) as [m|]; [|done].
  cbn. destruct (_ && _) eqn:E; intros [= <-]; [bool_simp; lia|done].
Qed.
Lemma parsed_in_bounds id s c : peer_parsed id s = Some c → in_bounds c.
Proof.
  unfold peer_parsed. destruct (read_file _ s) as [t|]; [|done]. cbn. destruct (confy_read t) as [v|]; [|done]. cbn.
  destruct (numbers_allowed s) as (Hs & He & (q & Eq & Hq)), (texts_allowed s) as (T1 & T2 & T3).
  unfold peer_of_tree, peer_of. destruct (deserialize_edge_scroll_edge_thickness _ _) as [edge|] eqn:E1; [|done].
  destruct (deserialize_custom_image_quality _ _) as [quality|] eqn:E2; [|done].
  destruct (deserialize_trackpad_speed _ _) as [speed|] eqn:E3; [|done]. cbn [mbind option_bind].
  destruct (default_in info_of_tree _ _); [|done]. destruct (default_in transfer_of_tree _ _); [|done]. cbn [mbind option_bind]. intros [= <-].
  unfold in_bounds. cbn [pc_trackpad_speed pc_edge_scroll_edge_thickness pc_custom_image_quality pc_view_style pc_scroll_style pc_image_quality].
  split; [exact (ranged_in 10 1000 _ _ _ Hs E3)|]. split; [exact (ranged_in 20 150 _ _ _ He E1)|].
  split; [|split_and!; by apply string_field_nonempty].
  - unfold deserialize_custom_image_quality in E2. destruct (jget "custom_image_quality" v) as [w|]; [|injection E2 as <-; by exists q].
    destruct (dec_list dec_i32 w) as [l|]; [|done]. cbn in E2. injection E2 as <-.
    destruct l as [|x [|y l]]; [by exists q| |by exists q]. destruct (_ && _) eqn:E; [|by exists q]. exists x. bool_simp. split; [done|lia].
Qed.
(** A load looks at the defaults, then at the file. *)
Definition refreshed (s : Prefs) : Prefs := (user_refresh s).2.
Lemma peer_load_result id s :
  match peer_parsed id (refreshed s) with
  | Some c => ∃ p o, (peer_load id s).1 = with_secrets p o c
  | None => peer_load id s = (default_PeerConfig (defaults (refreshed s)), refreshed s)
  end.
Proof.
  unfold peer_load. rewrite (bind_eq user_refresh _ s tt (refreshed s)) by done.
  rewrite (bind_eq _ _ _ _ _ (eq_refl : gets (peer_parsed id) (refreshed s) = (_, refreshed s))).
  destruct (peer_parsed id (refreshed s)) as [c|]; [|done]. rewrite bind_run. destruct (on_core _ _) as [[[p b] st] s1].
  rewrite bind_run. destruct (on_core _ s1) as [[o st'] s2]. exists p, o. cbv zeta. rewrite bind_run. by destruct (_ s2).
Qed.

(** Whatever a file holds, what is loaded for a peer is within the ranges of the
    code: the speed of the trackpad, the thickness of the edge, one quality of the
    image, and styles that are not empty. *)
Theorem loaded_settings_in_bounds (id : string) (s : Prefs) : in_bounds (peer_load id s).1.
Proof.
  pose proof (peer_load_result id s) as Hl. destruct (peer_parsed id (refreshed s)) as [c|] eqn:E.
  - destruct Hl as (p & o & ->). by apply parsed_in_bounds in E.
  - rewrite Hl. apply default_in_bounds.
Qed.
End bounds.

(** ** Secrets *)

Section secrets.
Context `{Confy} `{Sodium} `{Rng} `{Sha2} `{JsonLib} `{!SodiumLaws} (u : bytes).

Definition secret_vec (b : bytes) : bytes :=
  if bool_decide (b = []) then [] else str_bytes "00" ++ str_bytes (base64_encode (box_seal b (resize u KEYBYTES))).
Definition storable_vec (b : bytes) : Prop := bytes_ok b ∧ is_encrypted b = false ∧ zlen b <= ENCRYPT_MAX_LEN.
(** A state the computation may end in: the machine stays known. *)
Definition calm (s s' : Core) : Prop := knows u s' ∧ blank s' = blank s.
Lemma calm_trans s s1 s2 : calm s s1 → calm s1 s2 → calm s s2.
Proof. intros [_ E1] [? E2]. split; [done|congruence]. Qed.
Lemma calm_seen s : knows u s → calm s (seen s).
Proof. intros Hs. split; [by apply seen_knows|apply seen_blank]. Qed.

Lemma vec_made b s : knows u s → storable_vec b →
  ∃ s', encrypt_vec_or_original b PASSWORD_ENC_VERSION ENCRYPT_MAX_LEN s = (secret_vec b, s') ∧ calm s s'.
Proof.
  intros Hs (_ & He & Hl). unfold encrypt_vec_or_original. rewrite He. destruct (ENCRYPT_MAX_LEN <? zlen b) eqn:E; [lia|].
  rewrite bool_decide_eq_true_2 by done. unfold secret_vec, encrypt. case_bool_decide as Hb; [subst; by exists s|].
  exists (seen s). rewrite (bind_eq _ _ s (Some (base64_encode (box_seal b (resize u KEYBYTES)))) (seen s)).
  - split; [done|by apply calm_seen].
  - by rewrite (bind_eq _ _ _ _ _ (sealed u s b Hs)).
Qed.
Lemma seal_nonempty b : str_bytes (base64_encode (box_seal b (resize u KEYBYTES))) ≠ [].
Proof.
  intros E%str_bytes_nil%base64_nonempty. apply (f_equal zlen) in E. rewrite seal_length in E. unfold zlen, MACBYTES in E. cbn in E. lia.
Qed.
Lemma vec_read b s : knows u s →
  ∃ s' d, decrypt_vec_or_original (secret_vec b) PASSWORD_ENC_VERSION s = ((b, d, false), s') ∧ calm s s'.
Proof.
  intros Hs. unfold secret_vec. case_bool_decide as Hb; [subst; by exists s, false|]. exists (seen s), true.
  pose proof (seal_nonempty b) as Hn. set (t := str_bytes (base64_encode _)) in *. unfold decrypt_vec_or_original.
  replace (VERSION_LEN <? length (str_bytes "00" ++ t))%nat with true by (symmetry; apply Nat.ltb_lt; destruct t; [done|cbn; unfold VERSION_LEN; lia]).
  change (from_utf8_lossy (take VERSION_LEN (str_bytes "00" ++ t))) with "00"%string. rewrite bool_decide_eq_true_2 by done. cbn [andb].
  change (drop VERSION_LEN (str_bytes "00" ++ t)) with t.
  assert (decrypt t s = (Some b, seen s)) as Ed.
  { unfold decrypt. rewrite bool_decide_eq_false_2 by done. unfold t. rewrite base64_back. by apply opened. }
  rewrite (bind_eq _ _ _ _ _ Ed). split; [done|by apply calm_seen].
Qed.

(** Options changed one by one are changed all. *)
Lemma change_options_run f keys options options' :
  NoDup keys →
  (∀ k, k ∉ keys → options' !! k = options !! k) →
  (∀ k, k ∈ keys → match options !! k, options' !! k with
                   | Some v, Some v' => ∀ t, knows u t → ∃ t', f v t = ((v', false), t') ∧ calm t t'
                   | None, None => True
                   | _, _ => False
                   end) →
  ∀ s, knows u s → ∃ s', change_options f keys options s = ((options', false), s') ∧ calm s s'.
Proof.
  revert options. induction keys as [|k keys IH]; intros options Hn Hout Hin s Hs.
  { exists s. split; [|done]. unfold change_options. do 3 f_equal. apply map_eq. intros k. symmetry. apply Hout, not_elem_of_nil. }
  apply NoDup_cons in Hn as [Hk Hn]. cbn [change_options]. pose proof (Hin k ltac:(left)) as Hhead.
  destruct (options !! k) as [v|] eqn:Ek, (options' !! k) as [v'|] eqn:Ek'; try done.
  - destruct (Hhead s Hs) as (s1 & E1 & Hs1). rewrite (bind_eq _ _ _ _ _ E1). cbn beta iota.
    destruct (IH (<[k := v']> options) Hn) with (s := s1) as (s2 & E2 & Hs2).
    + intros k' Hk'. destruct (decide (k' = k)) as [->|Hne]; [by rewrite lookup_insert_eq|].
      rewrite lookup_insert_ne by done. apply Hout. rewrite not_elem_of_cons. done.
    + intros k' Hk'. rewrite lookup_insert_ne by by intros ->. apply Hin. by right.
    + apply Hs1.
    + exists s2. rewrite (bind_eq _ _ _ _ _ E2). split; [done|]. by eapply calm_trans.
  - destruct (IH options Hn) with (s := s) as (s2 & E2 & Hs2); [|by intros k' Hk'; apply Hin; right|done|by exists s2].
    intros k' Hk'. destruct (decide (k' = k)) as [->|Hne]; [by rewrite Ek, Ek'|]. apply Hout. rewrite not_elem_of_cons. done.
Qed.
Definition sealed_options (options : gmap string string) : gmap string string :=
  map_imap (λ k v, Some (if bool_decide (k ∈ SECRET_OPTIONS) then secret u v else v)) options.
Definition storable_options (options : gmap string string) : Prop :=
  ∀ k v, k ∈ SECRET_OPTIONS → options !! k = Some v → storable v.
Lemma sealed_lookup options k :
  sealed_options options !! k = (λ v, if bool_decide (k ∈ SECRET_OPTIONS) then secret u v else v) <$> options !! k.
Proof. unfold sealed_options. rewrite map_lookup_imap. by destruct (options !! k). Qed.
Lemma secret_options_apart : NoDup SECRET_OPTIONS.
Proof. apply (bool_decide_eq_true_1 _). vm_compute. reflexivity. Qed.
Lemma options_made options s : knows u s → storable_options options →
  ∃ s', change_options encrypt_option SECRET_OPTIONS options s = ((sealed_options options, false), s') ∧ calm s s'.
Proof.
  intros Hs Ho. apply change_options_run; [apply secret_options_apart| | |done].
  - intros k Hk. rewrite sealed_lookup, bool_decide_eq_false_2 by done. by destruct (options !! k).
  - intros k Hk. rewrite sealed_lookup, bool_decide_eq_true_2 by done. destruct (options !! k) as [v|] eqn:Ek; [|done]. cbn.
    intros t Ht. destruct (secret_made u v t Ht (Ho k v Hk Ek)) as (t' & E & Ht'). exists t'. unfold encrypt_option.
    by rewrite (bind_eq _ _ _ _ _ E).
Qed.
Lemma options_read options s : knows u s → storable_options options →
  ∃ s', change_options decrypt_option SECRET_OPTIONS (sealed_options options) s = ((options, false), s') ∧ calm s s'.
Proof.
  intros Hs Ho. apply change_options_run; [apply secret_options_apart| | |done].
  - intros k Hk. rewrite sealed_lookup, bool_decide_eq_false_2 by done. by destruct (options !! k).
  - intros k Hk. rewrite sealed_lookup, bool_decide_eq_true_2 by done. destruct (options !! k) as [v|] eqn:Ek; [|done]. cbn.
    intros t Ht. destruct (secret_read u v t Ht (Ho k v Hk Ek)) as (t' & E & Ht'). exists t'. unfold decrypt_option.
    by rewrite (bind_eq _ _ _ _ _ E).
Qed.
End secrets.

(** ** The file of a peer *)

Section peers.
Context `{Home} `{ReadDir} `{Confy} `{Sodium} `{Rng} `{Sha2} `{Float64} `{JsonLib} `{!ConfyLaws} `{!SodiumLaws} (base : list string).
Hypothesis home : home_at base.

(** An id whose file is in the directory of the peers. *)
Definition good_id (id : string) : Prop := good_name (encoded_id id) ∧ is_utf8 (encoded_id id).
Definition peer_place (id : string) : list string := base ++ [PEERS; encoded_id id +:+ ".toml"].
Lemma peers_name f : has_char slash f = false → good_name f →
  is_absolute (PEERS +:+ String slash f) = false ∧ pieces (split_on slash (PEERS +:+ String slash f)) = Normal <$> [PEERS; f].
Proof.
  intros Hf Hg. split; [done|]. rewrite split_on_app, (split_on_none slash f) by done. cbn. rewrite (piece_good f) by done. vm_compute. reflexivity.
Qed.
Lemma peer_path_is id : good_id id → peer_path id = conf_path (PEERS +:+ String slash (encoded_id id +:+ ".toml")).
Proof.
  intros [Hg Hu]. unfold peer_path. set (f := encoded_id id) in *. destruct (conf_path_under base home) as [X HX].
  assert (path_join PEERS f = PEERS +:+ String slash f) as ->.
  { unfold path_join. rewrite (absolute_no_slash f) by apply Hg. done. }
  rewrite !HX by done. change (PEERS +:+ String slash f) with ("peers" +:+ String slash f).
  change (String slash ("peers" +:+ String slash f)) with (String slash "peers" +:+ String slash f).
  rewrite <- app_string_assoc, with_extension_under by done. by rewrite app_string_assoc.
Qed.
Lemma peer_path_place id : good_id id → place (peer_path id) = Some (peer_place id).
Proof.
  intros Hi. rewrite peer_path_is by done. assert (has_char slash (encoded_id id +:+ ".toml") = false) as Hs.
  { destruct Hi as [[Hs _] _]. by rewrite has_char_app, Hs. }
  pose proof (good_toml (encoded_id id) (proj1 (proj1 Hi))) as Hg. destruct (peers_name _ Hs Hg) as [Ha E].
  by apply conf_place.
Qed.
Lemma toml_inj a b : a +:+ ".toml" = b +:+ ".toml" → a = b.
Proof.
  change ".toml"%string with (String "." "toml"). intros E%(f_equal (rcut ".")). rewrite !rcut_app in E by done. by injection E.
Qed.
Lemma peer_place_inj id id' : peer_place id = peer_place id' → encoded_id id = encoded_id id'.
Proof. unfold peer_place. intros E%app_inv_head. injection E as E. by apply toml_inj. Qed.

(** Ids have files of their own, unless one looks like an encoded one. *)
Lemma starts_base64 t : starts_with "base64_" ("base64_" +:+ t) = true.
Proof. unfold starts_with. by rewrite strip_prefix_app. Qed.
Lemma encoded_id_inj id id' :
  starts_with "base64_" id = false → starts_with "base64_" id' = false → encoded_id id = encoded_id id' → id = id'.
Proof.
  unfold encoded_id. destruct (forbidden id), (forbidden id'); intros H1' H2' E; try done.
  - apply (inj (String.append "base64_")), (f_equal (base64_decode ∘ str_bytes)) in E. cbn [compose] in E. rewrite !base64_back in E.
    injection E as E. apply (f_equal bytes_str) in E. by rewrite !bytes_str_str_bytes in E.
  - by rewrite <- E, starts_base64 in H2'.
  - by rewrite E, starts_base64 in H1'.
Qed.

(** What [peer_store] leaves. *)
Definition sealed_peer (u : bytes) (c : PeerConfig) : PeerConfig :=
  with_secrets (secret_vec u (pc_password c)) (sealed_options u (pc_options c)) c.
Definition secrets_storable (c : PeerConfig) : Prop := storable_vec (pc_password c) ∧ storable_options (pc_options c).
Lemma secret_vec_ok u b : bytes_ok (secret_vec u b).
Proof.
  unfold secret_vec. case_bool_decide; [constructor|]. apply Forall_app. split; [|apply str_bytes_ok]. repeat constructor; by vm_compute.
Qed.
Lemma peer_store_run u id c s :
  good_id id → usable s (peer_place id) = true → writable (pf_core s) → knows u (pf_core s) →
  typed c → in_bounds c → secrets_storable c →
  ∃ w c', peer_store id c s = (tt, set_stored ({[id]} ∪ pf_stored s)
      (put_files (<[peer_place id := mkStoredFile (str_bytes w) (co_now (pf_core s))]> (pf_files s)) (next_write (set_core c' s)))) ∧
    confy_read w = Some (peer_tree (sealed_peer u c)) ∧ calm u (pf_core s) c'.
Proof.
  intros Hi Hu Hw Hk Ht Hb [Hp Ho]. unfold peer_store.
  destruct (vec_made u (pc_password c) (pf_core s) Hk Hp) as (c1 & E1 & Hc1).
  destruct (options_made u (pc_options c) c1 (proj1 Hc1) Ho) as (c2 & E2 & Hc2).
  rewrite (bind_eq _ _ s (secret_vec u (pc_password c)) (set_core c1 s)) by (unfold on_core; by rewrite E1).
  rewrite (bind_eq _ _ _ (sealed_options u (pc_options c), false) (set_core c2 s)) by (unfold on_core; cbn [pf_core set_core]; by rewrite E2).
  pose proof (calm_trans u _ _ _ Hc1 Hc2) as Hc. pose proof (f_equal co_faults (proj2 Hc)) as Ef. pose proof (f_equal co_now (proj2 Hc)) as En.
  cbn in Ef, En. cbn beta iota.
  assert (toml_ok (peer_tree (sealed_peer u c)) = true) as Hok.
  { apply peer_tree_ok; [|exact Hb]. destruct Ht as (_ & Ht). split; [apply secret_vec_ok|exact Ht]. }
  destruct (save_tree_reads (peer_path id) (peer_place id) (omap (λ e, (e.1,.) <$> e.2) (peer_fields (sealed_peer u c))) (set_core c2 s) (peer_path_place id Hi)) as (w & Ew & Er); [exact Hu| |exact Hok|].
  { unfold writable. cbn. by rewrite Ef. }
  exists w, c2. change (VObj _) with (peer_tree (sealed_peer u c)) in Ew. fold (sealed_peer u c). rewrite (bind_eq _ _ _ _ _ Ew).
  cbn [pf_core set_core]. rewrite <- En. done.
Qed.
(** A file that holds them gives them back. *)
Lemma peer_load_run u id c s f w :
  good_id id → usable s (peer_place id) = true → knows u (pf_core s) → typed c → in_bounds c → secrets_storable c →
  texts_fit (defaults (refreshed s)) c →
  pf_files s !! peer_place id = Some f → sf_bytes f = str_bytes w → confy_read w = Some (peer_tree (sealed_peer u c)) →
  ∃ c', peer_load id s = (c, set_core c' (refreshed s)) ∧ calm u (pf_core s) c'.
Proof.
  intros Hi Hu Hk Ht Hb [Hp Ho] Hx Hf Ew Er.
  assert (∃ us, refreshed s = set_user us s) as [us Es].
  { unfold refreshed, user_refresh, modify. cbn [snd]. destruct (_ <? _); [by eexists|]. exists (pf_user s). by destruct s. }
  assert (peer_parsed id (refreshed s) = Some (sealed_peer u c)) as Ep.
  { unfold peer_parsed, read_file, read_bytes. rewrite (file_at_place _ _ _ (peer_path_place id Hi)) by by rewrite Es.
    rewrite Es at 1. cbn [pf_files set_user]. rewrite Hf. cbn [fmap option_fmap option_map mbind option_bind].
    rewrite Ew, bytes_str_str_bytes, Er. cbn [mbind option_bind]. apply peer_roundtrip; [|exact Hb|exact Hx].
    destruct Ht as (_ & Ht). split; [apply secret_vec_ok|exact Ht]. }
  unfold peer_load. rewrite (bind_eq user_refresh _ s tt (refreshed s)) by done.
  rewrite (bind_eq _ _ _ _ _ (eq_refl : gets (peer_parsed id) (refreshed s) = (_, refreshed s))), Ep.
  destruct (vec_read u (pc_password c) (pf_core s) Hk) as (c1 & d & E1 & Hc1).
  destruct (options_read u (pc_options c) c1 (proj1 Hc1) Ho) as (c2 & E2 & Hc2).
  assert (pf_core (refreshed s) = pf_core s) as Ec by by rewrite Es.
  rewrite (bind_eq _ _ _ (pc_password c, d, false) (set_core c1 (refreshed s))) by (unfold on_core; rewrite Ec; cbn [pc_password sealed_peer with_secrets]; by rewrite E1).
  cbn beta iota.
  rewrite (bind_eq _ _ _ (pc_options c, false) (set_core c2 (refreshed s))) by (unfold on_core; cbn [pf_core set_core pc_options sealed_peer with_secrets]; by rewrite E2).
  exists c2. split; [by destruct c|]. by eapply calm_trans.
Qed.


(** ** The list of peers *)

Lemma last_split {A} (k : list A) n dir : last k = Some n ∧ removelast k = dir ↔ k = dir ++ [n].
Proof.
  split; [|intros ->; by rewrite last_snoc, removelast_last]. intros [Hl <-].
  induction k as [|x k IH]; [done|]. destruct k as [|y k]; [by injection Hl as ->|]. change (x :: y :: k = x :: (removelast (y :: k) ++ [n])).
  f_equal. by apply IH.
Qed.
Lemma elem_of_files_in n dir s : n ∈ files_in dir s ↔ is_Some (pf_files s !! (dir ++ [n])) ∧ usable s (dir ++ [n]) = true.
Proof.
  unfold files_in. rewrite list_elem_of_omap. split.
  - intros ([k f] & Hk%elem_of_map_to_list & E). cbn [fst] in E. destruct (last k) as [m|] eqn:El; [|done]. cbn in E.
    destruct (bool_decide (removelast k = dir)) eqn:Er; [|done]. bool_simp. destruct (usable s k) eqn:Eu; [|done]. cbn in E. injection E as ->.
    assert (k = dir ++ [n]) as -> by by apply last_split. by split; [eexists|].
  - intros [[f Hf] Hu]. exists (dir ++ [n], f). split; [by apply elem_of_map_to_list|]. cbn [fst].
    destruct (proj2 (last_split (dir ++ [n]) n dir) eq_refl) as [-> ->]. cbn. by rewrite Hu, bool_decide_eq_true_2.
Qed.
Lemma peers_dir : place (conf_path PEERS) = Some (base ++ [PEERS]).
Proof. by apply conf_place. Qed.
(** A file of the directory, by its name. *)
Definition listed_path (name : string) : string := conf_path (PEERS +:+ String slash name).
Lemma join_listed name : is_absolute name = false → path_join (conf_path PEERS) name = listed_path name.
Proof.
  intros Hn. unfold listed_path. destruct (conf_path_under base home) as [X HX]. rewrite !HX by done.
  change (String slash (PEERS +:+ String slash name)) with (String slash PEERS +:+ String slash name).
  rewrite <- app_string_assoc. unfold path_join. rewrite Hn. rewrite bool_decide_eq_false_2.
  - unfold ends_with_slash. change (String slash PEERS) with (String slash "peers"). by rewrite rcut_app.
  - intros E%(f_equal String.length). rewrite length_string_app in E. cbn in E. lia.
Qed.
Lemma listed_file_name name : good_name name → file_name (listed_path name) = Some name.
Proof.
  intros Hn. unfold listed_path. destruct (conf_path_under base home) as [X HX]. rewrite HX by done.
  change (String slash (PEERS +:+ String slash name)) with (String slash PEERS +:+ String slash name).
  rewrite <- app_string_assoc. by apply file_name_under.
Qed.
Lemma listed_place name : good_name name → place (listed_path name) = Some (base ++ [PEERS; name]).
Proof. intros Hn. destruct (peers_name name (proj1 Hn) Hn). by apply conf_place. Qed.
#[export] Instance listed_before_total : Total listed_before.
Proof. intros a b. unfold listed_before. lia. Qed.
#[export] Instance listed_before_trans : Transitive listed_before.
Proof. intros a b c. unfold listed_before. lia. Qed.

(** The names of files are names. *)
Definition names_ok (s : Prefs) : Prop := ∀ name, is_Some (pf_files s !! (base ++ [PEERS; name])) → good_name name.
Definition wanted (filters : option (list string)) (id : string) : Prop :=
  match filters with Some l => id ∈ l | None => True end.
(** The list of peers is the files of the directory with the extension
    [toml], each with the id its name stands for, its time and its path, as far as
    the filter wants them, the newest first. *)
Theorem listed_peers_are_files (filters : option (list string)) (s : Prefs) :
  names_ok s →
  let l := get_vec_id_modified_time_path filters s in
  StronglySorted listed_before l ∧
  ∀ id t p, (id, t, p) ∈ l ↔
    ∃ name f, pf_files s !! (base ++ [PEERS; name]) = Some f ∧ usable s (base ++ [PEERS; name]) = true ∧
      (cut_dot name).2 = Some "toml"%string ∧ id = decoded_id (default ""%string (to_str (cut_dot name).1)) ∧
      t = sf_mtime f ∧ p = listed_path name ∧ wanted filters id.
Proof.
  intros Hn. cbv zeta. unfold get_vec_id_modified_time_path. split; [apply Sorted_StronglySorted; [apply _|]; apply Sorted_merge_sort, _|].
  intros id t p. rewrite merge_sort_Permutation.
  assert (∀ name, name ∈ files_in (base ++ [PEERS]) s ↔ is_Some (pf_files s !! (base ++ [PEERS; name])) ∧ usable s (base ++ [PEERS; name]) = true) as Hin.
  { intros name. rewrite elem_of_files_in, <- !app_assoc. done. }
  assert (∀ q, q ∈ peers_in_dir (conf_path PEERS) s ↔ ∃ name, q = listed_path name ∧ good_name name ∧
    is_Some (pf_files s !! (base ++ [PEERS; name])) ∧ usable s (base ++ [PEERS; name]) = true) as Hdir.
  { intros q. unfold peers_in_dir. rewrite peers_dir, list_elem_of_fmap. setoid_rewrite dir_order_perm. setoid_rewrite Hin.
    split; intros (name & E & G); exists name.
    - destruct G as [Hs Hu]. pose proof (Hn name Hs) as Hg. by rewrite E, join_listed by apply absolute_no_slash, Hg.
    - destruct G as (Hg & Hs & Hu). by rewrite E, join_listed by apply absolute_no_slash, Hg. }
  rewrite list_elem_of_fmap. split.
  - intros ([id' q] & E & Hq). injection E as -> -> ->. apply list_elem_of_In, filter_In in Hq as [Hq Hw].
    apply list_elem_of_In, list_elem_of_fmap in Hq as (q' & E & Hq). injection E as -> ->.
    apply list_elem_of_In, filter_In in Hq as [Hq Ht]. apply list_elem_of_In, Hdir in Hq as (name & -> & Hg & [f Hf] & Hu). bool_simp.
    exists name, f. cbn [fst snd] in *. unfold extension in Ht. rewrite listed_file_name in Ht by done. cbn in Ht.
    unfold id_of_file, file_stem, get_modified_time in *. rewrite listed_file_name in * by done.
    rewrite (file_at_place _ _ _ (listed_place name Hg) Hu), Hf. split_and!; try done. by destruct filters; bool_simp.
  - intros (name & f & Hf & Hu & Ht & -> & -> & -> & Hw). assert (good_name name) as Hg by by apply Hn; eexists.
    exists (id_of_file (listed_path name), listed_path name). cbn [fst snd]. unfold get_modified_time.
    rewrite (file_at_place _ _ _ (listed_place name Hg) Hu), Hf. cbn. split.
    { unfold id_of_file, file_stem. by rewrite listed_file_name. }
    apply list_elem_of_In, filter_In. split.
    + apply list_elem_of_In, list_elem_of_fmap. exists (listed_path name). split; [done|]. apply list_elem_of_In, filter_In. split.
      * apply list_elem_of_In, Hdir. exists name. split_and!; done.
      * apply bool_decide_eq_true_2. unfold extension. by rewrite listed_file_name.
    + unfold id_of_file, file_stem. rewrite listed_file_name by done. cbn. destruct filters; [by apply bool_decide_eq_true_2|done].
Qed.

(** An encoded id is decoded again. *)
Lemma decoded_encoded id : is_utf8 id → starts_with "base64_" id = false → decoded_id (encoded_id id) = id.
Proof.
  intros Hu Hs. unfold encoded_id. destruct (forbidden id) eqn:Ef; unfold decoded_id; [|by rewrite Hs].
  rewrite starts_base64. set (t := base64_encode (str_bytes id)). destruct (Nat.eqb (String.length ("base64_" +:+ t)) 7) eqn:El; cbn [negb andb].
  - apply Nat.eqb_eq in El. rewrite length_string_app in El. cbn in El. assert (t = ""%string) as Et by by destruct t; cbn in *; [|lia].
    apply base64_nonempty, str_bytes_nil in Et. by subst.
  - rewrite str_bytes_app. change (drop 7 (str_bytes "base64_" ++ str_bytes t)) with (str_bytes t). unfold t. rewrite base64_back. cbn.
    by apply from_utf8_lossy_bytes.
Qed.
Lemma file_names_after f k s : names_ok s → (∀ name, k = base ++ [PEERS; name] → good_name name) →
  names_ok (put_files (<[k := f]> (pf_files s)) s).
Proof.
  intros Hn Hk name. cbn [pf_files put_files]. destruct (decide (k = base ++ [PEERS; name])) as [E|E]; [intros _; by apply Hk|].
  rewrite lookup_insert_ne by done. apply Hn.
Qed.
(** A stored peer is listed by its id, with the time of the storing. *)
Theorem stored_peer_is_listed (u : bytes) (id : string) (c : PeerConfig) (s : Prefs) :
  good_id id → is_utf8 id → starts_with "base64_" id = false → names_ok s →
  usable s (peer_place id) = true → writable (pf_core s) → knows u (pf_core s) → typed c → in_bounds c → secrets_storable c →
  (id, co_now (pf_core s), peer_path id) ∈ get_vec_id_modified_time_path None (peer_store id c s).2.
Proof.
  intros Hi Hid Hb Hn Hu Hw Hk Ht Hbd Hs.
  destruct (peer_store_run u id c s Hi Hu Hw Hk Ht Hbd Hs) as (w & c' & -> & _). cbn [snd].
  assert (good_name (encoded_id id +:+ ".toml")) as Hg by apply good_toml, Hi.
  apply listed_peers_are_files.
  - intros name. cbn [pf_files set_stored put_files]. destruct (decide (peer_place id = base ++ [PEERS; name])) as [E|E].
    + intros _. apply app_inv_head in E. by injection E as <-.
    + rewrite lookup_insert_ne by done. apply Hn.
  - exists (encoded_id id +:+ ".toml"), (mkStoredFile (str_bytes w) (co_now (pf_core s))).
    cbn [pf_files set_stored put_files]. rewrite lookup_insert_eq. destruct Hi as [Hgi Hui].
    assert (encoded_id id ≠ ""%string) as Hne by (intros E; destruct Hgi as [_ Hgi]; apply Hgi; rewrite E; by left).
    rewrite cut_dot_toml by done. cbn [fst snd]. unfold to_str. rewrite from_utf8_bytes by done. cbn.
    rewrite decoded_encoded by done. split_and!; try done. by apply peer_path_is.
Qed.

(** ** Batches *)

(** Calling [batch_peers] from where the last call stopped. *)
Fixpoint batches (n : nat) (all : list PeerFile) (from : nat) : M Prefs (list (string * Z * PeerConfig)) :=
  match n with
  | O => mret []
  | S n =>
    if (length all <=? from)%nat then mret [] else
    '(l, to) ← batch_peers all from None;
    rest ← batches n all to;
    mret (l ++ rest)
  end.
Lemma mapM_app_run {S A B} (f : A → M S B) l1 l2 s :
  mapM f (l1 ++ l2) s = let '(a, s1) := mapM f l1 s in let '(b, s2) := mapM f l2 s1 in (a ++ b, s2).
Proof.
  revert s. induction l1 as [|x l1 IH]; intros s; cbn [app mapM].
  - cbn. by destruct (mapM f l2 s).
  - rewrite !bind_run. destruct (f x s) as [y s1]. rewrite !bind_run, IH. destruct (mapM f l1 s1) as [a s2]. cbn.
    by destruct (mapM f l2 s2) as [b s3].
Qed.
Definition loaded_all (l : list PeerFile) (s : Prefs) : list (string * Z * PeerConfig) * Prefs :=
  let '(r, s') := mapM load_listed l s in (List.filter with_platform r, s').
Lemma batches_from n all from s : (length all <= from + n * BATCH_LOADING_COUNT)%nat → batches n all from s = loaded_all (drop from all) s.
Proof.
  revert from s. induction n as [|n IH]; intros from s Hn; cbn [batches].
  { rewrite drop_ge by lia. done. }
  destruct (length all <=? from)%nat eqn:E; [apply Nat.leb_le in E; by rewrite drop_ge|]. apply Nat.leb_gt in E.
  set (to := Nat.min (from + BATCH_LOADING_COUNT) (length all)). assert (from < to)%nat as Hto by (unfold to, BATCH_LOADING_COUNT; lia).
  assert (drop from all = take (to - from) (drop from all) ++ drop to all) as Ed.
  { rewrite <- (take_drop (to - from) (drop from all)) at 1. f_equal. rewrite drop_drop. f_equal. lia. }
  rewrite bind_run. unfold batch_peers at 1. destruct (length all <=? from)%nat eqn:E'; [apply Nat.leb_le in E'; lia|]. fold to. cbv zeta.
  destruct (to <=? from)%nat eqn:E2; [apply Nat.leb_le in E2; lia|]. unfold loaded_all.
  set (chunk := take (to - from) (drop from all)) in *. clearbody chunk. rewrite Ed, mapM_app_run, bind_run.
  destruct (mapM load_listed chunk s) as [a s1]. cbn [mret M_ret]. rewrite bind_run, IH.
  - unfold loaded_all. destruct (mapM load_listed (drop to all) s1) as [b s2]. by rewrite List.filter_app.
  - unfold to. destruct (Nat.min_spec (from + BATCH_LOADING_COUNT) (length all)) as [[? ->]|[? ->]]; lia.
Qed.
(** Loading a list in batches, each from where the last one stopped, ends after
    one batch for each hundred of the list and gives what loading it at once
    gives, in the same order, and the same files and settings afterwards. *)
Theorem batches_are_the_list (n : nat) (all : list PeerFile) (s : Prefs) :
  (length all <= n * BATCH_LOADING_COUNT)%nat →
  batches n all 0 s = let '(r, s') := batch_peers all 0 (Some (length all)) s in (r.1, s').
Proof.
  intros Hn. rewrite batches_from by done. rewrite drop_0. unfold loaded_all, batch_peers.
  destruct all as [|e all]; [done|]. cbn [length Nat.leb]. rewrite drop_0, Nat.min_id, Nat.sub_0_r. cbn [Nat.leb].
  rewrite (take_ge (e :: all)), bind_run by (cbn; lia). by destruct (mapM load_listed (e :: all) s).
Qed.

(** ** How settings are lost, hidden or shared *)

Lemma refreshed_only s : ∃ us, refreshed s = set_user us s.
Proof.
  unfold refreshed, user_refresh, modify. cbn [snd]. destruct (_ <? _); [by eexists|]. exists (pf_user s). by destruct s.
Qed.
Lemma wrong_speed d v w : jget "trackpad-speed" v = Some w → dec_i32 w = None → peer_of_tree d v = None.
Proof.
  intros Ew Hw. unfold peer_of_tree, peer_of. destruct (deserialize_edge_scroll_edge_thickness _ _); [|done].
  destruct (deserialize_custom_image_quality _ _); [|done]. cbn [mbind option_bind].
  unfold deserialize_trackpad_speed, ranged_field. rewrite Ew. cbn [mbind option_bind]. by rewrite Hw.
Qed.
(** A value of a wrong type is not replaced by its default where the code writes
    [?]: with a speed of the trackpad that is no 32-bit integer the whole file
    counts as unreadable, the peer is left out of the list, and showing the list
    deletes the file with everything else it held. *)
Theorem wrong_number_deletes_settings (id p : string) (t : Z) (k : list string) (f : StoredFile) (v w : JVal) (s : Prefs) :
  place p = Some k → usable s k = true → file_at (peer_path id) s = Some f → confy_read (bytes_str (sf_bytes f)) = Some v →
  jget "trackpad-speed" v = Some w → dec_i32 w = None →
  with_platform (load_listed (id, t, p) s).1 = false ∧ pf_files (load_listed (id, t, p) s).2 !! k = None.
Proof.
  intros Hp Hu Hf Hv Hw Hd. destruct (refreshed_only s) as [us Es]. pose proof (peer_load_result id s) as Hl.
  assert (peer_parsed id (refreshed s) = None) as E.
  { unfold peer_parsed, read_file, read_bytes. rewrite Es. change (file_at (peer_path id) (set_user us s)) with (file_at (peer_path id) s).
    rewrite Hf. cbn. rewrite Hv. cbn. by eapply wrong_speed. }
  rewrite E in Hl. unfold load_listed. cbn [fst snd]. rewrite (bind_eq _ _ _ _ _ Hl).
  change (no_text (pi_platform (pc_info (default_PeerConfig (defaults (refreshed s)))))) with true. cbn iota.
  rewrite bind_run. unfold drop_file, modify. rewrite Hp. cbn [mret M_ret fst snd]. split; [done|].
  assert (usable (refreshed s) k = true) as -> by by rewrite Es. cbn. apply lookup_delete_eq.
Qed.

Lemma split_on_first c p a : has_char c p = false → ∃ r l, split_on c (p +:+ a) = (p +:+ r) :: l.
Proof.
  induction p as [|x p IH]; intros Hp.
  - destruct (split_on c a) as [|w l] eqn:Ea; [by apply split_on_nonempty in Ea|]. by exists w, l.
  - cbn in Hp. bool_simp. destruct IH as (r & l & E); [done|]. rewrite app_cons. cbn [split_on]. rewrite E.
    destruct (Ascii.eqb x c) eqn:Ex; [by apply Ascii.eqb_eq in Ex|]. by exists r, l.
Qed.
Lemma slash_path id a f :
  forbidden id = true → base64_encode (str_bytes id) = a +:+ String slash f → good_name f → is_utf8 f →
  peer_path id = conf_path ((PEERS +:+ String slash ("base64_" +:+ a)) +:+ String slash (f +:+ ".toml")).
Proof.
  intros Hf Ec Hg Hu. set (q := PEERS +:+ String slash ("base64_" +:+ a)).
  unfold peer_path, encoded_id. rewrite Hf, Ec. destruct (conf_path_under base home) as [X HX].
  assert (path_join PEERS ("base64_" +:+ a +:+ String slash f) = q +:+ String slash f) as ->.
  { unfold path_join. change (is_absolute ("base64_" +:+ a +:+ String slash f)) with false. cbv iota.
    rewrite bool_decide_eq_false_2 by done. cbn [orb]. change (ends_with_slash PEERS) with false. cbv iota. unfold q.
    rewrite app_string_assoc. change (String slash ("base64_" +:+ a)) with (String slash "base64_" +:+ a).
    by rewrite app_string_assoc. }
  assert (∀ g, is_absolute (q +:+ String slash g) = false) as Ha by done. rewrite !HX by apply Ha.
  change (String slash (q +:+ String slash f)) with (String slash q +:+ String slash f).
  rewrite <- app_string_assoc, with_extension_under by done. by rewrite app_string_assoc.
Qed.
Lemma slash_place_deep id a f k :
  forbidden id = true → base64_encode (str_bytes id) = a +:+ String slash f → good_name f → is_utf8 f →
  place (peer_path id) = Some k → (length base + 2 < length k)%nat.
Proof.
  intros Hf Ec Hg Hu Hk. pose proof (good_toml f (proj1 Hg)) as Ht. rewrite (slash_path id a f Hf Ec Hg Hu) in Hk.
  unfold place in Hk. rewrite (conf_path_components base home) in Hk by done. apply length_mapM in Hk. rewrite <- Hk. clear Hk.
  rewrite split_on_app, (split_on_none slash (f +:+ ".toml")), pieces_app, split_on_app, pieces_app, !length_app, length_fmap by apply Ht.
  cbn [pieces mbind list_bind]. rewrite (piece_good _ Ht). change (length (pieces (split_on slash PEERS))) with 1%nat.
  assert (∃ r l, split_on slash ("base64_" +:+ a) = ("base64_" +:+ r) :: l) as (r & l & ->).
  { by apply split_on_first. }
  change (pieces (("base64_" +:+ r) :: l)) with (piece ("base64_" +:+ r) ++ pieces l). assert (piece ("base64_" +:+ r) = [Normal ("base64_" +:+ r)]) as ->.
  { unfold piece. by rewrite !bool_decide_eq_false_2. }
  rewrite !length_app. cbn [length]. lia.
Qed.
(** The code of an id is base 64 with slashes: then the file is in a directory of
    its own and no list shows the peer. *)
Theorem slash_in_code_hides_peer (id a f : string) (s : Prefs) :
  forbidden id = true → base64_encode (str_bytes id) = a +:+ String slash f → good_name f → is_utf8 f →
  ∀ k, place (peer_path id) = Some k → ∀ b,
  let s1 := (write_bytes (peer_path id) b s).2 in
  ∀ name, name ∈ files_in (base ++ [PEERS]) s1 ↔ name ∈ files_in (base ++ [PEERS]) s.
Proof.
  intros Hf Ec Hg Hu k Hk b. cbv zeta. intros name.
  assert (length base + 2 < length k)%nat as Hlen by by eapply slash_place_deep.
  assert (∀ s', usable s' = usable s → (∀ k', k' ≠ k → pf_files s' !! k' = pf_files s !! k') →
    name ∈ files_in (base ++ [PEERS]) s' ↔ name ∈ files_in (base ++ [PEERS]) s) as Hsame.
  { intros s' Eu Ek. rewrite !elem_of_files_in, Eu, Ek; [done|]. intros E. rewrite <- E, !length_app in Hlen. cbn in Hlen. lia. }
  unfold write_bytes, modify. cbn [snd]. rewrite Hk. destruct (co_faults (pf_core s)) as [|[] ?];
    try destruct (usable s k); apply Hsame; try done; intros k' Hne; cbn; by rewrite lookup_insert_ne.
Qed.

Lemma trailing_skipped p f t :
  file_name p = Some f → skipped t = true → has_char slash t = false → with_extension (p +:+ String slash t) = with_extension p.
Proof.
  intros Hp Ht Hs. assert (piece t = []) as Et.
  { unfold skipped in Ht. unfold piece. destruct (bool_decide (t = ""%string)); [done|]. cbn in Ht. by rewrite Ht. }
  assert (file_name (p +:+ String slash t) = Some f) as Ef.
  { rewrite <- Hp. unfold file_name, components in *. rewrite split_on_app, (split_on_none slash t) by done.
    assert (is_absolute (p +:+ String slash t) = is_absolute p) as ->.
    { destruct p as [|x p]; [done|]. unfold is_absolute. rewrite app_cons. by rewrite !starts_with_cons. }
    destruct (split_on slash p) as [|s l] eqn:E; [by apply split_on_nonempty in E|]. cbn [app]. rewrite pieces_app.
    assert (pieces [t] = []) as -> by (unfold pieces; cbn; by rewrite Et). by rewrite app_nil_r. }
  unfold with_extension, extension, path_with_extension. rewrite Ef, Hp, split_on_app, (split_on_none slash t), reverse_snoc by done.
  cbn [drop_skipped]. rewrite Ht. destruct (drop_skipped (reverse (split_on slash p))) as [|x l] eqn:E; [|done].
  exfalso. unfold file_name in Hp. destruct (drop_skipped_split (reverse (split_on slash p))) as (k & Ek & Hk & _).
  rewrite E, app_nil_r in Ek. unfold components in Hp. destruct (split_on slash p) as [|s l'] eqn:Es; [done|].
  assert (pieces (s :: l') = []) as Hn by (rewrite <- (reverse_involutive (s :: l')), pieces_reverse, Ek, Hk; done).
  change (piece s ++ pieces l' = []) in Hn. apply app_eq_nil in Hn as [Hn1 Hn2]. rewrite Hn1, Hn2 in Hp.
  by destruct (is_absolute p), (bool_decide (s = "."%string)).
Qed.
(** The ids that are dots or nothing: two of them share a file outside of the
    directory of the peers, the third has none. *)
Theorem ids_of_dots :
  peer_path "." = peer_path "" ∧ place (peer_path "") = Some (base ++ ["peers.toml"%string]) ∧ place (peer_path "..") = None.
Proof.
  destruct (conf_path_under base home) as [X HX].
  assert (good_name "peers") as Hg by by split; [|set_solver].
  assert (∀ t, skipped t = true → has_char slash t = false → with_extension (conf_path (PEERS +:+ String slash t)) = conf_path "peers.toml") as Ht.
  { intros t Ht Hs. rewrite !HX by done. change (String slash (PEERS +:+ String slash t)) with (String slash "peers" +:+ String slash t).
    rewrite <- app_string_assoc, (trailing_skipped _ "peers") by (done || by apply file_name_under).
    by rewrite with_extension_under. }
  assert (peer_path "" = conf_path "peers.toml") as E0 by by apply (Ht ""%string).
  split_and!; [by rewrite E0; apply (Ht "."%string)| |].
  - rewrite E0. by apply conf_place.
  - unfold peer_path. change (conf_path (path_join PEERS (encoded_id ".."))) with (conf_path "peers/..").
    assert (components (conf_path "peers/..") = RootDir :: (Normal <$> base) ++ [Normal "peers"; ParentDir]) as Ec by by apply conf_path_components.
    assert (file_name (conf_path "peers/..") = None) as Ef.
    { unfold file_name. rewrite Ec. change [Normal "peers"; ParentDir] with ([Normal "peers"] ++ [ParentDir]).
      by rewrite app_comm_cons, app_assoc, last_snoc. }
    unfold with_extension, extension, path_with_extension. rewrite Ef. cbn [mbind option_bind].
    unfold place. rewrite Ec. apply eq_None_not_Some. intros [k Hk]. apply mapM_Some_1, Forall2_app_inv_l in Hk as (k1 & k2 & _ & Hk & _).
    by inversion_clear Hk as [|? ? ? ? _ Hk2]; inversion_clear Hk2.
Qed.
(** An id that is the code of another one has its file. *)
Theorem code_shares_file (id : string) :
  let code := "base64_" +:+ base64_encode (str_bytes id) in
  forbidden id = true → forbidden code = false → peer_path code = peer_path id.
Proof. intros code Hf Hc. unfold peer_path, encoded_id. by rewrite Hf, Hc. Qed.
End peers.

(** ** Witnesses *)

#[local] Existing Instances TestJson TestConfy TestSodium TestRng TestSha2 TestConfyLaws TestSodiumLaws TestSha2Law
  TestHome TestReadDir TestFloat64 TestFloat64Laws.
Definition chosen : Prefs :=
  set_user ({["reverse_mouse_wheel" := "N"; "displays_as_individual_windows" := "N";
              "use_all_my_displays_for_the_remote_session" := "Y"]}%string, 0) (desk [7]).
Definition sample_peer : PeerConfig :=
  with_secrets [1; 2; 3] {["os-password"%string := "pw"%string]} (default_PeerConfig (defaults chosen)).
Definition listed_desk : Prefs := put_files {[ ["c"; "peers"; "a.toml"]%string := mkStoredFile [] 5 ]} (desk [7]).
Lemma listed_peers_are_files_witness :
  names_ok ["c"%string] listed_desk ∧ ("a"%string, 5, "/c/peers/a.toml"%string) ∈ get_vec_id_modified_time_path None listed_desk.
Proof.
  assert (names_ok ["c"%string] listed_desk) as Hn.
  { intros name [f Hf]. cbn in Hf. apply lookup_singleton_Some in Hf as [E _]. injection E as <-.
    split; [by vm_compute|]. apply (bool_decide_eq_false_1 _). vm_compute. reflexivity. }
  split; [done|]. apply (listed_peers_are_files ["c"%string] test_home None listed_desk Hn).
  exists "a.toml"%string, (mkStoredFile [] 5). split_and!; vm_compute; reflexivity || exact I.
Defined.
Lemma batches_are_the_list_witness :
  batches 1 [("a", 5, "/c/peers/a.toml")]%string 0 listed_desk =
  let '(r, s') := batch_peers [("a", 5, "/c/peers/a.toml")]%string 0 (Some 1%nat) listed_desk in (r.1, s').
Proof. apply (batches_are_the_list 1). cbn. unfold BATCH_LOADING_COUNT. lia. Defined.
