(* ===== verification/AddressBooks.v ===== *)
(** * Address books and groups

    [Ab] and [Group] of libs/core-common/src/config.rs: what the server sent, kept
    as JSON, compressed and encrypted in a file each.  Both are stored and loaded
    alike; the reading of their JSON is a parameter, since a value of a wrong
    type inside stops the streaming reader of [serde_json] at places the source
    does not show.  A book that was stored is loaded on the machine that stored
    it ([books_read_back]), and one that is too large costs the old one. *)
From Stdlib Require Import Ascii.
From S2P Require Import Prelude Text TextFacts UnixPath HostText JsonTree Transfer CoreState CoreConfig CoreConfigSpec Prefs PrefsSpec.
Local Open Scope Z_scope.

(** ** Data *)

Record AbPeer : Type := mkAbPeer {
  ap_id : string;
  ap_hash : string;
  ap_username : string;
  ap_hostname : string;
  ap_platform : string;
  ap_alias : string;
  ap_tags : list string;
}.
Record AbEntry : Type := mkAbEntry {
  ae_guid : string;
  ae_name : string;
  ae_peers : list AbPeer;
  ae_tags : list string;
  ae_tag_colors : string;
}.
Record Ab : Type := mkAb { ab_access_token : string; ab_entries : list AbEntry }.
Record GroupPeer : Type := mkGroupPeer {
  gp_id : string;
  gp_username : string;
  gp_hostname : string;
  gp_platform : string;
  gp_login_name : string;
}.
Record GroupUser : Type := mkGroupUser { gu_name : string; gu_display_name : string }.
Record DeviceGroup : Type := mkDeviceGroup { dg_name : string }.
Record Group : Type := mkGroup {
  gr_access_token : string;
  gr_users : list GroupUser;
  gr_peers : list GroupPeer;
  gr_device_groups : list DeviceGroup;
}.
Definition default_Ab : Ab := mkAb "" [].
Definition default_Group : Group := mkGroup "" [] [] [].
Definition personal (e : AbEntry) : bool :=
  bool_decide (ae_name e = "My address book"%string) || bool_decide (ae_name e = "Legacy address book"%string).

(** [serde_json::from_str] for the two types. *)
Class BookJson : Type := { ab_from_str : string → option Ab; group_from_str : string → option Group }.

(** ** Files *)

Section books.
Context `{Home} `{Confy} `{Sodium} `{Rng} `{Zstd} `{BookJson}.

Definition MAX_BOOK : Z := 64 * 1024 * 1024.
Definition ab_path : string := conf_path (app_name +:+ "_ab").
Definition group_path : string := conf_path (app_name +:+ "_group").

(** [File::create] empties the file, or fails; the write after it may fail too. *)
Definition create_book (p : string) : M Prefs bool :=
  faults ← gets (co_faults ∘ pf_core);
  write_bytes p [];;
  gets (λ s, match faults with true :: _ => false | _ => bool_decide (is_Some (file_at p s)) end).
Definition book_store (p json : string) : M Prefs unit :=
  created ← create_book p;
  if negb created then mret tt else
  let data := compress (str_bytes json) in
  if MAX_BOOK <? zlen data then mret tt else
  crypted ← on_core (symmetric_crypt data true);
  match crypted with Some data => write_bytes p data | None => mret tt end.
Definition book_read {A} (from_str : string → option A) (p : string) : M Prefs (option A) :=
  file ← gets (read_bytes p);
  match file with
  | Some data =>
    crypted ← on_core (symmetric_crypt data false);
    mret (data ← crypted; from_str (from_utf8_lossy (decompress data)))
  | None => mret None
  end.
Definition book_load {A} (from_str : string → option A) (dflt : A) (p : string) : M Prefs A :=
  r ← book_read from_str p;
  match r with Some book => mret book | None => drop_file p;; mret dflt end.
Definition ab_store (json : string) : M Prefs unit := book_store ab_path json.
Definition ab_load : M Prefs Ab := book_load ab_from_str default_Ab ab_path.
Definition ab_remove : M Prefs unit := drop_file ab_path.
Definition group_store (json : string) : M Prefs unit := book_store group_path json.
Definition group_load : M Prefs Group := book_load group_from_str default_Group group_path.
Definition group_remove : M Prefs unit := drop_file group_path.
End books.

(** ** What books give back *)

Section book_facts.
Context `{Home} `{Confy} `{Sodium} `{Rng} `{Zstd} `{BookJson} `{!SodiumLaws} `{!ZstdLaws} (base : list string).
Hypothesis home : home_at base.

(** Both writes of a [book_store]. *)
Lemma create_book_run p k s :
  place p = Some k → usable s k = true → co_faults (pf_core s) = [] →
  create_book p s = (true, put_files (<[k := mkStoredFile [] (co_now (pf_core s))]> (pf_files s)) (next_write s)).
Proof.
  intros Hp Hu Hf. unfold create_book.
  rewrite (bind_eq _ _ _ _ _ (eq_refl : gets (co_faults ∘ pf_core) s = (co_faults (pf_core s), s))), Hf.
  rewrite (bind_eq _ _ _ _ _ (write_bytes_run p k [] s Hp Hu (or_introl Hf))). unfold gets. f_equal.
  rewrite (file_at_place p k) by done. cbn. rewrite lookup_insert_eq. by apply bool_decide_eq_true_2.
Qed.
Lemma book_store_run u p k json c s :
  place p = Some k → usable s k = true → co_faults (pf_core s) = [] → knows u (pf_core s) →
  zstd_compress (str_bytes json) = Some c → zlen c <= MAX_BOOK →
  ∃ s', book_store p json s = (tt, s') ∧ pf_files s' !! k = Some (mkStoredFile (box_seal c (resize u KEYBYTES)) (co_now (pf_core s))) ∧
    usable s' k = true ∧ knows u (pf_core s').
Proof.
  intros Hp Hu Hf Hk Hc Hl. unfold book_store. rewrite (bind_eq _ _ _ _ _ (create_book_run p k s Hp Hu Hf)). cbn [negb].
  set (s1 := put_files _ _). unfold compress. rewrite Hc. cbn [from_option id]. destruct (MAX_BOOK <? zlen c) eqn:E; [lia|].
  assert (knows u (pf_core s1)) as Hk1 by exact Hk.
  rewrite (bind_eq _ _ s1 (Some (box_seal c (resize u KEYBYTES))) (set_core (seen (pf_core s1)) s1)) by (unfold on_core; by rewrite (sealed u _ _ Hk1)).
  destruct (seen_spec u (pf_core s1) Hk1) as [_ Es].
  rewrite (write_bytes_run p k); [|done|exact Hu|left; cbn [pf_core set_core]; rewrite Es; cbn; by rewrite Hf].
  eexists. split; [done|]. cbn [pf_files put_files]. rewrite lookup_insert_eq. split; [cbn [pf_core set_core]; by rewrite Es|].
  split; [exact Hu|]. cbn [pf_core put_files next_write set_core]. pose proof (seen_knows u _ Hk1) as Hs. exact Hs.
Qed.
Lemma book_load_run {A} (from_str : string → option A) dflt u p k json c f s :
  place p = Some k → usable s k = true → knows u (pf_core s) → is_utf8 json → zstd_compress (str_bytes json) = Some c →
  pf_files s !! k = Some f → sf_bytes f = box_seal c (resize u KEYBYTES) →
  book_load from_str dflt p s =
    match from_str json with Some book => (book, set_core (seen (pf_core s)) s) | None => (drop_file p;; mret dflt) (set_core (seen (pf_core s)) s) end.
Proof.
  intros Hp Hu Hk Hj Hc Hf Eb. unfold book_load.
  assert (book_read from_str p s = (from_str json, set_core (seen (pf_core s)) s)) as E.
  { unfold book_read. rewrite (bind_eq _ _ _ _ _ (eq_refl : gets (read_bytes p) s = (read_bytes p s, s))). unfold read_bytes.
    rewrite (file_at_place p k) by done. rewrite Hf. cbn [fmap option_fmap option_map]. rewrite Eb.
    rewrite (bind_eq _ _ s (Some c) (set_core (seen (pf_core s)) s)) by (unfold on_core; by rewrite (opened u _ _ Hk)).
    cbn [mbind option_bind]. unfold decompress. rewrite (zstd_roundtrip _ _ Hc). cbn [from_option id]. by rewrite from_utf8_lossy_bytes. }
  rewrite (bind_eq _ _ _ _ _ E). by destruct (from_str json).
Qed.

Definition book_ok (suffix : string) (s : Prefs) : Prop :=
  good_name (app_name +:+ suffix) ∧ usable s (base ++ [app_name +:+ suffix]) = true.
Lemma book_place suffix : good_name (app_name +:+ suffix) → place (conf_path (app_name +:+ suffix)) = Some (base ++ [app_name +:+ suffix]).
Proof.
  intros Hg. apply conf_place; [done|apply absolute_no_slash, Hg|]. rewrite split_on_none by apply Hg. cbn. by rewrite piece_good.
Qed.
(** An address book or a group the server sent, that is valid and can be compressed
    to less than 64 MB, is what the next load on this machine gives. *)
Theorem books_read_back (u : bytes) (json : string) (c : bytes) (s : Prefs) :
  book_ok "_ab" s → book_ok "_group" s → co_faults (pf_core s) = [] → knows u (pf_core s) → is_utf8 json →
  zstd_compress (str_bytes json) = Some c → zlen c <= MAX_BOOK →
  (∀ book, ab_from_str json = Some book → (ab_load (ab_store json s).2).1 = book) ∧
  (∀ book, group_from_str json = Some book → (group_load (group_store json s).2).1 = book).
Proof.
  intros [Ha Hua] [Hg Hug] Hf Hk Hj Hc Hl. split; intros book Hb.
  - unfold ab_load, ab_store. destruct (book_store_run u ab_path _ json c s (book_place "_ab" Ha) Hua Hf Hk Hc Hl) as (s' & -> & Ef & Hu' & Hk').
    cbn [snd]. by rewrite (book_load_run _ _ u _ _ json c _ s' (book_place "_ab" Ha) Hu' Hk' Hj Hc Ef eq_refl), Hb.
  - unfold group_load, group_store.
    destruct (book_store_run u group_path _ json c s (book_place "_group" Hg) Hug Hf Hk Hc Hl) as (s' & -> & Ef & Hu' & Hk').
    cbn [snd]. by rewrite (book_load_run _ _ u _ _ json c _ s' (book_place "_group" Hg) Hu' Hk' Hj Hc Ef eq_refl), Hb.
Qed.
(** The file is emptied before the size is looked at: a book that is too large is
    not stored, and the old one is gone. *)
Theorem large_book_loses_old (json : string) (c : bytes) (s : Prefs) :
  book_ok "_ab" s → co_faults (pf_core s) = [] → zstd_compress (str_bytes json) = Some c → MAX_BOOK < zlen c →
  pf_files (ab_store json s).2 !! (base ++ [app_name +:+ "_ab"]) = Some (mkStoredFile [] (co_now (pf_core s))).
Proof.
  intros [Ha Hu] Hf Hc Hl. unfold ab_store, book_store. rewrite (bind_eq _ _ _ _ _ (create_book_run ab_path _ s (book_place "_ab" Ha) Hu Hf)).
  cbn [negb]. unfold compress. rewrite Hc. cbn [from_option id]. destruct (MAX_BOOK <? zlen c) eqn:E; [|lia]. cbn. apply lookup_insert_eq.
Qed.
End book_facts.
