(* ===== verification/Gui.v ===== *)
(** * The window of the client: nat-client/src/ui and i18n.rs

    The texts of both languages (i18n.rs); what the window shows and how it is
    brought up to date (ui/app.rs): the properties of the window ([Win]), the
    texts it makes of numbers, the call of the daemon over its local port
    ([ipc_call]) and the poll of its state ([collect_poll_data],
    [apply_poll_snapshot]); what the buttons do, the start and the timers; and
    the menu (ui/tray.rs).  A callback runs on the thread of the window and
    starts a thread of its own, which calls the daemon and hands its result back
    ([Callback], [Thread]).  Theorems are in [GuiSpec]. *)
From Stdlib Require Import Ascii SpecFloat.
From S2P Require Import Prelude Text TextFacts HostText JsonTree ClientConfig Programs ClientIo Ipc Updater.
Import JsonPlain.
Local Open Scope Z_scope.

(** ** The texts of the window *)

Definition GuiTranslations : Type := list (string * string).
Definition zh : GuiTranslations :=
  [("nav_dashboard", "首页"); ("nav_connections", "连接"); ("nav_peers", "局域网"); ("nav_account", "账户");
   ("nav_devices", "设备"); ("nav_settings", "设置"); ("btn_save", "保存"); ("btn_cancel", "取消"); ("btn_refresh", "刷新");
   ("btn_add", "新增"); ("btn_delete", "删除"); ("btn_connect", "连接"); ("btn_login", "登录"); ("btn_logout", "退出登录");
   ("btn_register", "注册"); ("btn_change_password", "确认修改"); ("status_online", "在线"); ("status_offline", "离线");
   ("status_loading", "加载中…"); ("status_processing", "处理中…"); ("dashboard_title", "首页");
   ("dashboard_peer_id", "设备 ID"); ("dashboard_server", "服务器"); ("dashboard_nat_type", "NAT 类型");
   ("dashboard_online", "在线"); ("dashboard_offline", "离线"); ("conn_title", "连接"); ("conn_peer_id", "Peer ID");
   ("conn_local_port", "本地端口"); ("conn_type", "类型"); ("conn_sent", "发送"); ("conn_recv", "接收"); ("conn_close", "断开");
   ("conn_no_connections", "暂无活跃连接"); ("conn_input_peer_id", "目标 Peer ID"); ("conn_input_port", "本地端口（0=自动）");
   ("peers_title", "局域网"); ("peers_scanning", "扫描中…"); ("peers_discover", "扫描"); ("peers_no_peers", "未发现局域网节点");
   ("peers_connect", "连接"); ("account_title", "账户"); ("account_username", "用户名"); ("account_password", "密码");
   ("account_email", "邮箱"); ("account_device_name", "设备名称（可选）"); ("account_old_password", "旧密码");
   ("account_new_password", "新密码"); ("account_change_password", "修改密码"); ("account_token_remaining", "Token 剩余：");
   ("account_register_link", "注册账户 →"); ("account_login_link", "← 返回登录"); ("account_sub_plan", "我的套餐");
   ("account_sub_current", "当前套餐"); ("account_sub_device_usage", "设备使用"); ("account_sub_expires", "到期时间");
   ("account_sub_forever", "永久"); ("devices_title", "设备"); ("devices_id", "设备 ID"); ("devices_name", "名称");
   ("devices_remove", "移除"); ("devices_no_devices", "暂无绑定设备"); ("settings_title", "设置");
   ("settings_server", "服务器地址"); ("settings_relay", "中继服务器"); ("settings_peer_id", "设备 ID");
   ("settings_protocol", "协议"); ("settings_language", "界面语言"); ("settings_open_config", "打开配置文件");
   ("settings_save", "保存设置"); ("lang_zh", "中文"); ("lang_en", "English")]%string.
Definition en : GuiTranslations :=
  [("nav_dashboard", "Home"); ("nav_connections", "Connections"); ("nav_peers", "LAN"); ("nav_account", "Account");
   ("nav_devices", "Devices"); ("nav_settings", "Settings"); ("btn_save", "Save"); ("btn_cancel", "Cancel");
   ("btn_refresh", "Refresh"); ("btn_add", "Add"); ("btn_delete", "Delete"); ("btn_connect", "Connect");
   ("btn_login", "Login"); ("btn_logout", "Logout"); ("btn_register", "Register");
   ("btn_change_password", "Confirm"); ("status_online", "Online"); ("status_offline", "Offline");
   ("status_loading", "Loading…"); ("status_processing", "Processing…"); ("dashboard_title", "Home");
   ("dashboard_peer_id", "Peer ID"); ("dashboard_server", "Server"); ("dashboard_nat_type", "NAT Type");
   ("dashboard_online", "Online"); ("dashboard_offline", "Offline"); ("conn_title", "Connections");
   ("conn_peer_id", "Peer ID"); ("conn_local_port", "Local Port"); ("conn_type", "Type"); ("conn_sent", "Sent");
   ("conn_recv", "Recv"); ("conn_close", "Close"); ("conn_no_connections", "No active connections");
   ("conn_input_peer_id", "Target Peer ID"); ("conn_input_port", "Local port (0=auto)"); ("peers_title", "LAN");
   ("peers_scanning", "Scanning…"); ("peers_discover", "Scan"); ("peers_no_peers", "No LAN peers found");
   ("peers_connect", "Connect"); ("account_title", "Account"); ("account_username", "Username");
   ("account_password", "Password"); ("account_email", "Email"); ("account_device_name", "Device name (optional)");
   ("account_old_password", "Old password"); ("account_new_password", "New password");
   ("account_change_password", "Change Password"); ("account_token_remaining", "Token remaining: ");
   ("account_register_link", "Register →"); ("account_login_link", "← Back to login");
   ("account_sub_plan", "My Plan"); ("account_sub_current", "Current Plan");
   ("account_sub_device_usage", "Device Usage"); ("account_sub_expires", "Expires");
   ("account_sub_forever", "Forever"); ("devices_title", "Devices"); ("devices_id", "Device ID");
   ("devices_name", "Name"); ("devices_remove", "Remove"); ("devices_no_devices", "No devices yet");
   ("settings_title", "Settings"); ("settings_server", "Server Address"); ("settings_relay", "Relay Server");
   ("settings_peer_id", "Peer ID"); ("settings_protocol", "Protocol"); ("settings_language", "Language");
   ("settings_open_config", "Open Config File"); ("settings_save", "Save"); ("lang_zh", "中文");
   ("lang_en", "English")]%string.
Definition gui_texts (lang : string) : GuiTranslations := if String.eqb lang "en" then en else zh.
(** A field of a table. *)
Definition text_of (tr : GuiTranslations) (field : string) : string :=
  match List.find (λ e, String.eqb e.1 field) tr with Some e => e.2 | None => "" end.

(** The fields [init_config_fields] and [apply_translations] set. *)
Definition INIT_TEXTS : list string :=
  ["nav_dashboard"; "nav_connections"; "nav_peers"; "nav_account"; "nav_devices"; "nav_settings"; "btn_save";
   "btn_cancel"; "btn_refresh"; "btn_add"; "btn_delete"; "btn_connect"; "btn_login"; "btn_logout"; "btn_register";
   "btn_change_password"; "status_online"; "status_offline"; "status_loading"; "status_processing";
   "dashboard_title"; "dashboard_peer_id"; "dashboard_server"; "dashboard_nat_type"; "dashboard_online";
   "dashboard_offline"; "conn_title"; "conn_peer_id"; "conn_local_port"; "conn_type"; "conn_sent"; "conn_recv";
   "conn_close"; "conn_no_connections"; "conn_input_peer_id"; "conn_input_port"; "peers_title"; "peers_scanning";
   "peers_discover"; "peers_no_peers"; "peers_connect"; "account_title"; "account_username"; "account_password";
   "account_email"; "account_device_name"; "account_old_password"; "account_new_password"; "account_change_password";
   "account_token_remaining"; "account_register_link"; "account_login_link"; "account_sub_plan";
   "account_sub_current"; "account_sub_device_usage"; "account_sub_expires"; "account_sub_forever"; "devices_title";
   "devices_id"; "devices_name"; "devices_remove"; "devices_no_devices"; "settings_title"; "settings_server";
   "settings_relay"; "settings_peer_id"; "settings_protocol"; "settings_language"; "settings_open_config";
   "settings_save"; "lang_zh"; "lang_en"]%string.
Definition CHANGED_TEXTS : list string :=
  ["nav_dashboard"; "nav_connections"; "nav_peers"; "nav_account"; "nav_devices"; "nav_settings"; "btn_save";
   "btn_cancel"; "btn_refresh"; "btn_add"; "btn_delete"; "btn_connect"; "btn_login"; "btn_logout"; "btn_register";
   "btn_change_password"; "status_online"; "status_offline"; "status_loading"; "status_processing"; "lang_zh";
   "lang_en"]%string.

(** ** What is shown *)

(** [RawConn], [RawPeer], [RawDevice] and [RawRule], and the same fields in the
    models of the window. *)
Record ShownConn : Type := mkShownConn {
  sc_uuid : string; sc_conn_type : string; sc_peer_addr : string; sc_local_port : Z;
  sc_bytes_sent : string; sc_bytes_recv : string; sc_created_at : string }.
Record ShownPeer : Type := mkShownPeer {
  sp_id : string; sp_ip : string; sp_hostname : string; sp_username : string; sp_platform : string; sp_online : bool }.
Record ShownDevice : Type := mkShownDevice {
  sd_id : Z; sd_device_id : string; sd_device_name : string; sd_is_active : bool; sd_online : bool; sd_created_at : string }.
Record ShownRule : Type := mkShownRule {
  sr_rule_id : string; sr_name : string; sr_target_host : string; sr_target_port : string; sr_peer_id_filter : string }.
Record RawSub : Type := mkRawSub { rs_plan : string; rs_device_used : Z; rs_device_limit : Z; rs_expires : string }.
(** A price with a fraction is [None]: [JVal] does not keep such numbers. *)
Record PlanItem : Type := mkPlanItem {
  pl_id : Z; pl_name : string; pl_display_name : string; pl_price_monthly : option Z; pl_device_limit : Z;
  pl_speed_limit_kbps : Z; pl_description : string; pl_is_current : bool }.
(** The picture of a text as a code: the text. *)
Abbreviation QrImage := string (only parsing).
(** What is there of what there is to be. *)
Abbreviation Progress := (Z * Z)%type (only parsing).

(** The properties of the window, by its pages; whether it is visible, and whether
    the poll of the timer is under way. *)
Record WinHome : Type := mkWinHome {
  w_visible : bool;
  w_page : Z;
  w_online : bool;
  w_nat_type : string;
  w_peer_id : string;
  w_server_addr : string;
  w_connections : list ShownConn;
  w_lan_peers : list ShownPeer;
  w_connecting : bool;
  w_connect_result : string;
  w_discovering : bool;
  w_polling : bool;
}.
Record WinAccount : Type := mkWinAccount {
  w_logged_in : bool;
  w_username : string;
  w_role : string;
  w_token_remaining : string;
  w_login_user : string;
  w_login_pass : string;
  w_reg_email : string;
  w_reg_device_name : string;
  w_account_busy : bool;
  w_account_status : string;
  w_show_register : bool;
  w_old_pass : string;
  w_new_pass : string;
}.
Record WinPlan : Type := mkWinPlan {
  w_sub_plan : string;
  w_sub_device_used : Z;
  w_sub_device_limit : Z;
  w_sub_expires : string;
  w_devices : list ShownDevice;
  w_devices_loading : bool;
}.
Record WinSettings : Type := mkWinSettings {
  w_cfg_server : string;
  w_cfg_relay : string;
  w_cfg_api_url : string;
  w_cfg_ipc_port : string;
  w_socks5_enabled : bool;
  w_socks5_exit_peer : string;
  w_socks5_port_str : string;
  w_settings_status : string;
  w_dark : bool;
  w_texts : gmap string string;
}.
Record WinTunnel : Type := mkWinTunnel {
  w_tunnel_rules : list ShownRule;
  w_tunnel_rules_loading : bool;
  w_tunnel_new_name : string;
  w_tunnel_new_port : string;
  w_tunnel_new_host : string;
  w_tunnel_new_filter : string;
  w_tunnel_status_msg : string;
  w_tunnel_status_ok : bool;
}.
Record WinPay : Type := mkWinPay {
  w_pay_plans : list PlanItem;
  w_pay_loading : bool;
  w_pay_status_msg : string;
  w_pay_status_ok : bool;
  w_pay_qr_visible : bool;
  w_pay_qr_image : option QrImage;
  w_pay_selected_plan_name : string;
}.
Record WinUpdate : Type := mkWinUpdate {
  w_update_available : bool;
  w_update_latest_ver : string;
  w_update_changelog : string;
  w_update_msg : string;
  w_update_msg_ok : bool;
  w_update_checking : bool;
  w_update_downloading : bool;
  w_update_progress : Progress;
  w_update_current_ver : string;
}.
Record Win : Type := mkWin {
  on_home : WinHome;
  on_account : WinAccount;
  on_plan : WinPlan;
  on_settings : WinSettings;
  on_tunnel : WinTunnel;
  on_pay : WinPay;
  on_update : WinUpdate;
}.

(** Reading and setting a property. *)
Definition ui_visible (w : Win) : bool := w_visible (on_home w).
Definition ui_page (w : Win) : Z := w_page (on_home w).
Definition ui_online (w : Win) : bool := w_online (on_home w).
Definition ui_nat_type (w : Win) : string := w_nat_type (on_home w).
Definition ui_peer_id (w : Win) : string := w_peer_id (on_home w).
Definition ui_server_addr (w : Win) : string := w_server_addr (on_home w).
Definition ui_connections (w : Win) : list ShownConn := w_connections (on_home w).
Definition ui_lan_peers (w : Win) : list ShownPeer := w_lan_peers (on_home w).
Definition ui_connecting (w : Win) : bool := w_connecting (on_home w).
Definition ui_connect_result (w : Win) : string := w_connect_result (on_home w).
Definition ui_discovering (w : Win) : bool := w_discovering (on_home w).
Definition ui_polling (w : Win) : bool := w_polling (on_home w).
Definition ui_logged_in (w : Win) : bool := w_logged_in (on_account w).
Definition ui_username (w : Win) : string := w_username (on_account w).
Definition ui_role (w : Win) : string := w_role (on_account w).
Definition ui_token_remaining (w : Win) : string := w_token_remaining (on_account w).
Definition ui_login_user (w : Win) : string := w_login_user (on_account w).
Definition ui_login_pass (w : Win) : string := w_login_pass (on_account w).
Definition ui_reg_email (w : Win) : string := w_reg_email (on_account w).
Definition ui_reg_device_name (w : Win) : string := w_reg_device_name (on_account w).
Definition ui_account_busy (w : Win) : bool := w_account_busy (on_account w).
Definition ui_account_status (w : Win) : string := w_account_status (on_account w).
Definition ui_show_register (w : Win) : bool := w_show_register (on_account w).
Definition ui_old_pass (w : Win) : string := w_old_pass (on_account w).
Definition ui_new_pass (w : Win) : string := w_new_pass (on_account w).
Definition ui_sub_plan (w : Win) : string := w_sub_plan (on_plan w).
Definition ui_sub_device_used (w : Win) : Z := w_sub_device_used (on_plan w).
Definition ui_sub_device_limit (w : Win) : Z := w_sub_device_limit (on_plan w).
Definition ui_sub_expires (w : Win) : string := w_sub_expires (on_plan w).
Definition ui_devices (w : Win) : list ShownDevice := w_devices (on_plan w).
Definition ui_devices_loading (w : Win) : bool := w_devices_loading (on_plan w).
Definition ui_cfg_server (w : Win) : string := w_cfg_server (on_settings w).
Definition ui_cfg_relay (w : Win) : string := w_cfg_relay (on_settings w).
Definition ui_cfg_api_url (w : Win) : string := w_cfg_api_url (on_settings w).
Definition ui_cfg_ipc_port (w : Win) : string := w_cfg_ipc_port (on_settings w).
Definition ui_socks5_enabled (w : Win) : bool := w_socks5_enabled (on_settings w).
Definition ui_socks5_exit_peer (w : Win) : string := w_socks5_exit_peer (on_settings w).
Definition ui_socks5_port_str (w : Win) : string := w_socks5_port_str (on_settings w).
Definition ui_settings_status (w : Win) : string := w_settings_status (on_settings w).
Definition ui_dark (w : Win) : bool := w_dark (on_settings w).
Definition ui_texts (w : Win) : gmap string string := w_texts (on_settings w).
Definition ui_tunnel_rules (w : Win) : list ShownRule := w_tunnel_rules (on_tunnel w).
Definition ui_tunnel_rules_loading (w : Win) : bool := w_tunnel_rules_loading (on_tunnel w).
Definition ui_tunnel_new_name (w : Win) : string := w_tunnel_new_name (on_tunnel w).
Definition ui_tunnel_new_port (w : Win) : string := w_tunnel_new_port (on_tunnel w).
Definition ui_tunnel_new_host (w : Win) : string := w_tunnel_new_host (on_tunnel w).
Definition ui_tunnel_new_filter (w : Win) : string := w_tunnel_new_filter (on_tunnel w).
Definition ui_tunnel_status_msg (w : Win) : string := w_tunnel_status_msg (on_tunnel w).
Definition ui_tunnel_status_ok (w : Win) : bool := w_tunnel_status_ok (on_tunnel w).
Definition ui_pay_plans (w : Win) : list PlanItem := w_pay_plans (on_pay w).
Definition ui_pay_loading (w : Win) : bool := w_pay_loading (on_pay w).
Definition ui_pay_status_msg (w : Win) : string := w_pay_status_msg (on_pay w).
Definition ui_pay_status_ok (w : Win) : bool := w_pay_status_ok (on_pay w).
Definition ui_pay_qr_visible (w : Win) : bool := w_pay_qr_visible (on_pay w).
Definition ui_pay_qr_image (w : Win) : option QrImage := w_pay_qr_image (on_pay w).
Definition ui_pay_selected_plan_name (w : Win) : string := w_pay_selected_plan_name (on_pay w).
Definition ui_update_available (w : Win) : bool := w_update_available (on_update w).
Definition ui_update_latest_ver (w : Win) : string := w_update_latest_ver (on_update w).
Definition ui_update_changelog (w : Win) : string := w_update_changelog (on_update w).
Definition ui_update_msg (w : Win) : string := w_update_msg (on_update w).
Definition ui_update_msg_ok (w : Win) : bool := w_update_msg_ok (on_update w).
Definition ui_update_checking (w : Win) : bool := w_update_checking (on_update w).
Definition ui_update_downloading (w : Win) : bool := w_update_downloading (on_update w).
Definition ui_update_progress (w : Win) : Progress := w_update_progress (on_update w).
Definition ui_update_current_ver (w : Win) : string := w_update_current_ver (on_update w).
Definition on_home_ (f : WinHome → WinHome) (w : Win) : Win :=
  mkWin (f (on_home w)) (on_account w) (on_plan w) (on_settings w) (on_tunnel w) (on_pay w) (on_update w).
Definition on_account_ (f : WinAccount → WinAccount) (w : Win) : Win :=
  mkWin (on_home w) (f (on_account w)) (on_plan w) (on_settings w) (on_tunnel w) (on_pay w) (on_update w).
Definition on_plan_ (f : WinPlan → WinPlan) (w : Win) : Win :=
  mkWin (on_home w) (on_account w) (f (on_plan w)) (on_settings w) (on_tunnel w) (on_pay w) (on_update w).
Definition on_settings_ (f : WinSettings → WinSettings) (w : Win) : Win :=
  mkWin (on_home w) (on_account w) (on_plan w) (f (on_settings w)) (on_tunnel w) (on_pay w) (on_update w).
Definition on_tunnel_ (f : WinTunnel → WinTunnel) (w : Win) : Win :=
  mkWin (on_home w) (on_account w) (on_plan w) (on_settings w) (f (on_tunnel w)) (on_pay w) (on_update w).
Definition on_pay_ (f : WinPay → WinPay) (w : Win) : Win :=
  mkWin (on_home w) (on_account w) (on_plan w) (on_settings w) (on_tunnel w) (f (on_pay w)) (on_update w).
Definition on_update_ (f : WinUpdate → WinUpdate) (w : Win) : Win :=
  mkWin (on_home w) (on_account w) (on_plan w) (on_settings w) (on_tunnel w) (on_pay w) (f (on_update w)).
Definition ui_set_visible (v : bool) : Win → Win :=
  on_home_ (λ p, mkWinHome
    v (w_page p) (w_online p) (w_nat_type p) (w_peer_id p) (w_server_addr p) (w_connections p) (w_lan_peers p) (w_connecting p) (w_connect_result p) (w_discovering p) (w_polling p)).
Definition ui_set_page (v : Z) : Win → Win :=
  on_home_ (λ p, mkWinHome
    (w_visible p) v (w_online p) (w_nat_type p) (w_peer_id p) (w_server_addr p) (w_connections p) (w_lan_peers p) (w_connecting p) (w_connect_result p) (w_discovering p) (w_polling p)).
Definition ui_set_online (v : bool) : Win → Win :=
  on_home_ (λ p, mkWinHome
    (w_visible p) (w_page p) v (w_nat_type p) (w_peer_id p) (w_server_addr p) (w_connections p) (w_lan_peers p) (w_connecting p) (w_connect_result p) (w_discovering p) (w_polling p)).
Definition ui_set_nat_type (v : string) : Win → Win :=
  on_home_ (λ p, mkWinHome
    (w_visible p) (w_page p) (w_online p) v (w_peer_id p) (w_server_addr p) (w_connections p) (w_lan_peers p) (w_connecting p) (w_connect_result p) (w_discovering p) (w_polling p)).
Definition ui_set_peer_id (v : string) : Win → Win :=
  on_home_ (λ p, mkWinHome
    (w_visible p) (w_page p) (w_online p) (w_nat_type p) v (w_server_addr p) (w_connections p) (w_lan_peers p) (w_connecting p) (w_connect_result p) (w_discovering p) (w_polling p)).
Definition ui_set_server_addr (v : string) : Win → Win :=
  on_home_ (λ p, mkWinHome
    (w_visible p) (w_page p) (w_online p) (w_nat_type p) (w_peer_id p) v (w_connections p) (w_lan_peers p) (w_connecting p) (w_connect_result p) (w_discovering p) (w_polling p)).
Definition ui_set_connections (v : list ShownConn) : Win → Win :=
  on_home_ (λ p, mkWinHome
    (w_visible p) (w_page p) (w_online p) (w_nat_type p) (w_peer_id p) (w_server_addr p) v (w_lan_peers p) (w_connecting p) (w_connect_result p) (w_discovering p) (w_polling p)).
Definition ui_set_lan_peers (v : list ShownPeer) : Win → Win :=
  on_home_ (λ p, mkWinHome
    (w_visible p) (w_page p) (w_online p) (w_nat_type p) (w_peer_id p) (w_server_addr p) (w_connections p) v (w_connecting p) (w_connect_result p) (w_discovering p) (w_polling p)).
Definition ui_set_connecting (v : bool) : Win → Win :=
  on_home_ (λ p, mkWinHome
    (w_visible p) (w_page p) (w_online p) (w_nat_type p) (w_peer_id p) (w_server_addr p) (w_connections p) (w_lan_peers p) v (w_connect_result p) (w_discovering p) (w_polling p)).
Definition ui_set_connect_result (v : string) : Win → Win :=
  on_home_ (λ p, mkWinHome
    (w_visible p) (w_page p) (w_online p) (w_nat_type p) (w_peer_id p) (w_server_addr p) (w_connections p) (w_lan_peers p) (w_connecting p) v (w_discovering p) (w_polling p)).
Definition ui_set_discovering (v : bool) : Win → Win :=
  on_home_ (λ p, mkWinHome
    (w_visible p) (w_page p) (w_online p) (w_nat_type p) (w_peer_id p) (w_server_addr p) (w_connections p) (w_lan_peers p) (w_connecting p) (w_connect_result p) v (w_polling p)).
Definition ui_set_polling (v : bool) : Win → Win :=
  on_home_ (λ p, mkWinHome
    (w_visible p) (w_page p) (w_online p) (w_nat_type p) (w_peer_id p) (w_server_addr p) (w_connections p) (w_lan_peers p) (w_connecting p) (w_connect_result p) (w_discovering p) v).
Definition ui_set_logged_in (v : bool) : Win → Win :=
  on_account_ (λ p, mkWinAccount
    v (w_username p) (w_role p) (w_token_remaining p) (w_login_user p) (w_login_pass p) (w_reg_email p) (w_reg_device_name p) (w_account_busy p) (w_account_status p) (w_show_register p) (w_old_pass p) (w_new_pass p)).
Definition ui_set_username (v : string) : Win → Win :=
  on_account_ (λ p, mkWinAccount
    (w_logged_in p) v (w_role p) (w_token_remaining p) (w_login_user p) (w_login_pass p) (w_reg_email p) (w_reg_device_name p) (w_account_busy p) (w_account_status p) (w_show_register p) (w_old_pass p) (w_new_pass p)).
Definition ui_set_role (v : string) : Win → Win :=
  on_account_ (λ p, mkWinAccount
    (w_logged_in p) (w_username p) v (w_token_remaining p) (w_login_user p) (w_login_pass p) (w_reg_email p) (w_reg_device_name p) (w_account_busy p) (w_account_status p) (w_show_register p) (w_old_pass p) (w_new_pass p)).
Definition ui_set_token_remaining (v : string) : Win → Win :=
  on_account_ (λ p, mkWinAccount
    (w_logged_in p) (w_username p) (w_role p) v (w_login_user p) (w_login_pass p) (w_reg_email p) (w_reg_device_name p) (w_account_busy p) (w_account_status p) (w_show_register p) (w_old_pass p) (w_new_pass p)).
Definition ui_set_login_user (v : string) : Win → Win :=
  on_account_ (λ p, mkWinAccount
    (w_logged_in p) (w_username p) (w_role p) (w_token_remaining p) v (w_login_pass p) (w_reg_email p) (w_reg_device_name p) (w_account_busy p) (w_account_status p) (w_show_register p) (w_old_pass p) (w_new_pass p)).
Definition ui_set_login_pass (v : string) : Win → Win :=
  on_account_ (λ p, mkWinAccount
    (w_logged_in p) (w_username p) (w_role p) (w_token_remaining p) (w_login_user p) v (w_reg_email p) (w_reg_device_name p) (w_account_busy p) (w_account_status p) (w_show_register p) (w_old_pass p) (w_new_pass p)).
Definition ui_set_reg_email (v : string) : Win → Win :=
  on_account_ (λ p, mkWinAccount
    (w_logged_in p) (w_username p) (w_role p) (w_token_remaining p) (w_login_user p) (w_login_pass p) v (w_reg_device_name p) (w_account_busy p) (w_account_status p) (w_show_register p) (w_old_pass p) (w_new_pass p)).
Definition ui_set_reg_device_name (v : string) : Win → Win :=
  on_account_ (λ p, mkWinAccount
    (w_logged_in p) (w_username p) (w_role p) (w_token_remaining p) (w_login_user p) (w_login_pass p) (w_reg_email p) v (w_account_busy p) (w_account_status p) (w_show_register p) (w_old_pass p) (w_new_pass p)).
Definition ui_set_account_busy (v : bool) : Win → Win :=
  on_account_ (λ p, mkWinAccount
    (w_logged_in p) (w_username p) (w_role p) (w_token_remaining p) (w_login_user p) (w_login_pass p) (w_reg_email p) (w_reg_device_name p) v (w_account_status p) (w_show_register p) (w_old_pass p) (w_new_pass p)).
Definition ui_set_account_status (v : string) : Win → Win :=
  on_account_ (λ p, mkWinAccount
    (w_logged_in p) (w_username p) (w_role p) (w_token_remaining p) (w_login_user p) (w_login_pass p) (w_reg_email p) (w_reg_device_name p) (w_account_busy p) v (w_show_register p) (w_old_pass p) (w_new_pass p)).
Definition ui_set_show_register (v : bool) : Win → Win :=
  on_account_ (λ p, mkWinAccount
    (w_logged_in p) (w_username p) (w_role p) (w_token_remaining p) (w_login_user p) (w_login_pass p) (w_reg_email p) (w_reg_device_name p) (w_account_busy p) (w_account_status p) v (w_old_pass p) (w_new_pass p)).
Definition ui_set_old_pass (v : string) : Win → Win :=
  on_account_ (λ p, mkWinAccount
    (w_logged_in p) (w_username p) (w_role p) (w_token_remaining p) (w_login_user p) (w_login_pass p) (w_reg_email p) (w_reg_device_name p) (w_account_busy p) (w_account_status p) (w_show_register p) v (w_new_pass p)).
Definition ui_set_new_pass (v : string) : Win → Win :=
  on_account_ (λ p, mkWinAccount
    (w_logged_in p) (w_username p) (w_role p) (w_token_remaining p) (w_login_user p) (w_login_pass p) (w_reg_email p) (w_reg_device_name p) (w_account_busy p) (w_account_status p) (w_show_register p) (w_old_pass p) v).
Definition ui_set_sub_plan (v : string) : Win → Win :=
  on_plan_ (λ p, mkWinPlan
    v (w_sub_device_used p) (w_sub_device_limit p) (w_sub_expires p) (w_devices p) (w_devices_loading p)).
Definition ui_set_sub_device_used (v : Z) : Win → Win :=
  on_plan_ (λ p, mkWinPlan
    (w_sub_plan p) v (w_sub_device_limit p) (w_sub_expires p) (w_devices p) (w_devices_loading p)).
Definition ui_set_sub_device_limit (v : Z) : Win → Win :=
  on_plan_ (λ p, mkWinPlan
    (w_sub_plan p) (w_sub_device_used p) v (w_sub_expires p) (w_devices p) (w_devices_loading p)).
Definition ui_set_sub_expires (v : string) : Win → Win :=
  on_plan_ (λ p, mkWinPlan
    (w_sub_plan p) (w_sub_device_used p) (w_sub_device_limit p) v (w_devices p) (w_devices_loading p)).
Definition ui_set_devices (v : list ShownDevice) : Win → Win :=
  on_plan_ (λ p, mkWinPlan
    (w_sub_plan p) (w_sub_device_used p) (w_sub_device_limit p) (w_sub_expires p) v (w_devices_loading p)).
Definition ui_set_devices_loading (v : bool) : Win → Win :=
  on_plan_ (λ p, mkWinPlan
    (w_sub_plan p) (w_sub_device_used p) (w_sub_device_limit p) (w_sub_expires p) (w_devices p) v).
Definition ui_set_cfg_server (v : string) : Win → Win :=
  on_settings_ (λ p, mkWinSettings
    v (w_cfg_relay p) (w_cfg_api_url p) (w_cfg_ipc_port p) (w_socks5_enabled p) (w_socks5_exit_peer p) (w_socks5_port_str p) (w_settings_status p) (w_dark p) (w_texts p)).
Definition ui_set_cfg_relay (v : string) : Win → Win :=
  on_settings_ (λ p, mkWinSettings
    (w_cfg_server p) v (w_cfg_api_url p) (w_cfg_ipc_port p) (w_socks5_enabled p) (w_socks5_exit_peer p) (w_socks5_port_str p) (w_settings_status p) (w_dark p) (w_texts p)).
Definition ui_set_cfg_api_url (v : string) : Win → Win :=
  on_settings_ (λ p, mkWinSettings
    (w_cfg_server p) (w_cfg_relay p) v (w_cfg_ipc_port p) (w_socks5_enabled p) (w_socks5_exit_peer p) (w_socks5_port_str p) (w_settings_status p) (w_dark p) (w_texts p)).
Definition ui_set_cfg_ipc_port (v : string) : Win → Win :=
  on_settings_ (λ p, mkWinSettings
    (w_cfg_server p) (w_cfg_relay p) (w_cfg_api_url p) v (w_socks5_enabled p) (w_socks5_exit_peer p) (w_socks5_port_str p) (w_settings_status p) (w_dark p) (w_texts p)).
Definition ui_set_socks5_enabled (v : bool) : Win → Win :=
  on_settings_ (λ p, mkWinSettings
    (w_cfg_server p) (w_cfg_relay p) (w_cfg_api_url p) (w_cfg_ipc_port p) v (w_socks5_exit_peer p) (w_socks5_port_str p) (w_settings_status p) (w_dark p) (w_texts p)).
Definition ui_set_socks5_exit_peer (v : string) : Win → Win :=
  on_settings_ (λ p, mkWinSettings
    (w_cfg_server p) (w_cfg_relay p) (w_cfg_api_url p) (w_cfg_ipc_port p) (w_socks5_enabled p) v (w_socks5_port_str p) (w_settings_status p) (w_dark p) (w_texts p)).
Definition ui_set_socks5_port_str (v : string) : Win → Win :=
  on_settings_ (λ p, mkWinSettings
    (w_cfg_server p) (w_cfg_relay p) (w_cfg_api_url p) (w_cfg_ipc_port p) (w_socks5_enabled p) (w_socks5_exit_peer p) v (w_settings_status p) (w_dark p) (w_texts p)).
Definition ui_set_settings_status (v : string) : Win → Win :=
  on_settings_ (λ p, mkWinSettings
    (w_cfg_server p) (w_cfg_relay p) (w_cfg_api_url p) (w_cfg_ipc_port p) (w_socks5_enabled p) (w_socks5_exit_peer p) (w_socks5_port_str p) v (w_dark p) (w_texts p)).
Definition ui_set_dark (v : bool) : Win → Win :=
  on_settings_ (λ p, mkWinSettings
    (w_cfg_server p) (w_cfg_relay p) (w_cfg_api_url p) (w_cfg_ipc_port p) (w_socks5_enabled p) (w_socks5_exit_peer p) (w_socks5_port_str p) (w_settings_status p) v (w_texts p)).
Definition ui_set_texts (v : gmap string string) : Win → Win :=
  on_settings_ (λ p, mkWinSettings
    (w_cfg_server p) (w_cfg_relay p) (w_cfg_api_url p) (w_cfg_ipc_port p) (w_socks5_enabled p) (w_socks5_exit_peer p) (w_socks5_port_str p) (w_settings_status p) (w_dark p) v).
Definition ui_set_tunnel_rules (v : list ShownRule) : Win → Win :=
  on_tunnel_ (λ p, mkWinTunnel
    v (w_tunnel_rules_loading p) (w_tunnel_new_name p) (w_tunnel_new_port p) (w_tunnel_new_host p) (w_tunnel_new_filter p) (w_tunnel_status_msg p) (w_tunnel_status_ok p)).
Definition ui_set_tunnel_rules_loading (v : bool) : Win → Win :=
  on_tunnel_ (λ p, mkWinTunnel
    (w_tunnel_rules p) v (w_tunnel_new_name p) (w_tunnel_new_port p) (w_tunnel_new_host p) (w_tunnel_new_filter p) (w_tunnel_status_msg p) (w_tunnel_status_ok p)).
Definition ui_set_tunnel_new_name (v : string) : Win → Win :=
  on_tunnel_ (λ p, mkWinTunnel
    (w_tunnel_rules p) (w_tunnel_rules_loading p) v (w_tunnel_new_port p) (w_tunnel_new_host p) (w_tunnel_new_filter p) (w_tunnel_status_msg p) (w_tunnel_status_ok p)).
Definition ui_set_tunnel_new_port (v : string) : Win → Win :=
  on_tunnel_ (λ p, mkWinTunnel
    (w_tunnel_rules p) (w_tunnel_rules_loading p) (w_tunnel_new_name p) v (w_tunnel_new_host p) (w_tunnel_new_filter p) (w_tunnel_status_msg p) (w_tunnel_status_ok p)).
Definition ui_set_tunnel_new_host (v : string) : Win → Win :=
  on_tunnel_ (λ p, mkWinTunnel
    (w_tunnel_rules p) (w_tunnel_rules_loading p) (w_tunnel_new_name p) (w_tunnel_new_port p) v (w_tunnel_new_filter p) (w_tunnel_status_msg p) (w_tunnel_status_ok p)).
Definition ui_set_tunnel_new_filter (v : string) : Win → Win :=
  on_tunnel_ (λ p, mkWinTunnel
    (w_tunnel_rules p) (w_tunnel_rules_loading p) (w_tunnel_new_name p) (w_tunnel_new_port p) (w_tunnel_new_host p) v (w_tunnel_status_msg p) (w_tunnel_status_ok p)).
Definition ui_set_tunnel_status_msg (v : string) : Win → Win :=
  on_tunnel_ (λ p, mkWinTunnel
    (w_tunnel_rules p) (w_tunnel_rules_loading p) (w_tunnel_new_name p) (w_tunnel_new_port p) (w_tunnel_new_host p) (w_tunnel_new_filter p) v (w_tunnel_status_ok p)).
Definition ui_set_tunnel_status_ok (v : bool) : Win → Win :=
  on_tunnel_ (λ p, mkWinTunnel
    (w_tunnel_rules p) (w_tunnel_rules_loading p) (w_tunnel_new_name p) (w_tunnel_new_port p) (w_tunnel_new_host p) (w_tunnel_new_filter p) (w_tunnel_status_msg p) v).
Definition ui_set_pay_plans (v : list PlanItem) : Win → Win :=
  on_pay_ (λ p, mkWinPay
    v (w_pay_loading p) (w_pay_status_msg p) (w_pay_status_ok p) (w_pay_qr_visible p) (w_pay_qr_image p) (w_pay_selected_plan_name p)).
Definition ui_set_pay_loading (v : bool) : Win → Win :=
  on_pay_ (λ p, mkWinPay
    (w_pay_plans p) v (w_pay_status_msg p) (w_pay_status_ok p) (w_pay_qr_visible p) (w_pay_qr_image p) (w_pay_selected_plan_name p)).
Definition ui_set_pay_status_msg (v : string) : Win → Win :=
  on_pay_ (λ p, mkWinPay
    (w_pay_plans p) (w_pay_loading p) v (w_pay_status_ok p) (w_pay_qr_visible p) (w_pay_qr_image p) (w_pay_selected_plan_name p)).
Definition ui_set_pay_status_ok (v : bool) : Win → Win :=
  on_pay_ (λ p, mkWinPay
    (w_pay_plans p) (w_pay_loading p) (w_pay_status_msg p) v (w_pay_qr_visible p) (w_pay_qr_image p) (w_pay_selected_plan_name p)).
Definition ui_set_pay_qr_visible (v : bool) : Win → Win :=
  on_pay_ (λ p, mkWinPay
    (w_pay_plans p) (w_pay_loading p) (w_pay_status_msg p) (w_pay_status_ok p) v (w_pay_qr_image p) (w_pay_selected_plan_name p)).
Definition ui_set_pay_qr_image (v : option QrImage) : Win → Win :=
  on_pay_ (λ p, mkWinPay
    (w_pay_plans p) (w_pay_loading p) (w_pay_status_msg p) (w_pay_status_ok p) (w_pay_qr_visible p) v (w_pay_selected_plan_name p)).
Definition ui_set_pay_selected_plan_name (v : string) : Win → Win :=
  on_pay_ (λ p, mkWinPay
    (w_pay_plans p) (w_pay_loading p) (w_pay_status_msg p) (w_pay_status_ok p) (w_pay_qr_visible p) (w_pay_qr_image p) v).
Definition ui_set_update_available (v : bool) : Win → Win :=
  on_update_ (λ p, mkWinUpdate
    v (w_update_latest_ver p) (w_update_changelog p) (w_update_msg p) (w_update_msg_ok p) (w_update_checking p) (w_update_downloading p) (w_update_progress p) (w_update_current_ver p)).
Definition ui_set_update_latest_ver (v : string) : Win → Win :=
  on_update_ (λ p, mkWinUpdate
    (w_update_available p) v (w_update_changelog p) (w_update_msg p) (w_update_msg_ok p) (w_update_checking p) (w_update_downloading p) (w_update_progress p) (w_update_current_ver p)).
Definition ui_set_update_changelog (v : string) : Win → Win :=
  on_update_ (λ p, mkWinUpdate
    (w_update_available p) (w_update_latest_ver p) v (w_update_msg p) (w_update_msg_ok p) (w_update_checking p) (w_update_downloading p) (w_update_progress p) (w_update_current_ver p)).
Definition ui_set_update_msg (v : string) : Win → Win :=
  on_update_ (λ p, mkWinUpdate
    (w_update_available p) (w_update_latest_ver p) (w_update_changelog p) v (w_update_msg_ok p) (w_update_checking p) (w_update_downloading p) (w_update_progress p) (w_update_current_ver p)).
Definition ui_set_update_msg_ok (v : bool) : Win → Win :=
  on_update_ (λ p, mkWinUpdate
    (w_update_available p) (w_update_latest_ver p) (w_update_changelog p) (w_update_msg p) v (w_update_checking p) (w_update_downloading p) (w_update_progress p) (w_update_current_ver p)).
Definition ui_set_update_checking (v : bool) : Win → Win :=
  on_update_ (λ p, mkWinUpdate
    (w_update_available p) (w_update_latest_ver p) (w_update_changelog p) (w_update_msg p) (w_update_msg_ok p) v (w_update_downloading p) (w_update_progress p) (w_update_current_ver p)).
Definition ui_set_update_downloading (v : bool) : Win → Win :=
  on_update_ (λ p, mkWinUpdate
    (w_update_available p) (w_update_latest_ver p) (w_update_changelog p) (w_update_msg p) (w_update_msg_ok p) (w_update_checking p) v (w_update_progress p) (w_update_current_ver p)).
Definition ui_set_update_progress (v : Progress) : Win → Win :=
  on_update_ (λ p, mkWinUpdate
    (w_update_available p) (w_update_latest_ver p) (w_update_changelog p) (w_update_msg p) (w_update_msg_ok p) (w_update_checking p) (w_update_downloading p) v (w_update_current_ver p)).
Definition ui_set_update_current_ver (v : string) : Win → Win :=
  on_update_ (λ p, mkWinUpdate
    (w_update_available p) (w_update_latest_ver p) (w_update_changelog p) (w_update_msg p) (w_update_msg_ok p) (w_update_checking p) (w_update_downloading p) (w_update_progress p) v).

(** ** Texts of numbers *)

(** [as f64], the division, and [{:.d}] of a number that is not negative: the
    exact value is rounded to the nearest decimal, a tie to the even one. *)
Definition f64_of (n : Z) : spec_float := binary_normalize 53 1024 n 0 false.
Definition f64_div : spec_float → spec_float → spec_float := SFdiv 53 1024.
Definition round_even (num den : Z) : Z :=
  let q := num / den in let r := num mod den in
  if (den <? 2 * r) || ((den =? 2 * r) && Z.odd q) then q + 1 else q.
Definition decimals (d : nat) (n : Z) : string :=
  let p := 10 ^ Z.of_nat d in
  let frac := to_string (n mod p) in
  to_string (n / p) +:+ "." +:+ zeros (d - String.length frac) +:+ frac.
Definition fixed_text (d : nat) (f : spec_float) : string :=
  match f with
  | S754_finite false m e =>
    decimals d (round_even (Zpos m * 10 ^ Z.of_nat d * 2 ^ Z.max 0 e) (2 ^ Z.max 0 (- e)))
  | S754_zero false => decimals d 0
  | S754_infinity false => "inf"
  | _ => "NaN"
  end.

Definition nat_type_name (t : Z) : string :=
  if t =? 1 then "锥形 NAT（可直连）" else if t =? 2 then "对称 NAT（仅中继）" else "未知".
Definition format_bytes (bytes : Z) : string :=
  if bytes <? 1024 then to_string bytes +:+ " B"
  else if bytes <? 1024 * 1024 then fixed_text 1 (f64_div (f64_of bytes) (f64_of 1024)) +:+ " KB"
  else fixed_text 2 (f64_div (f64_div (f64_of bytes) (f64_of 1024)) (f64_of 1024)) +:+ " MB".
(** At the time [now]. *)
Definition ago (now ts : Z) : string :=
  let diff := Z.max 0 (now - ts) in
  if diff <? 60 then to_string diff +:+ "秒前"
  else if diff <? 3600 then to_string (diff / 60) +:+ "分钟前"
  else to_string (diff / 3600) +:+ "小时前".
Definition format_duration (secs : Z) : string :=
  if secs <=? 0 then "已过期"
  else if secs <? 60 then to_string secs +:+ "秒"
  else if secs <? 3600 then to_string (secs / 60) +:+ "分钟"
  else fixed_text 1 (f64_div (f64_of secs) (f64_of 3600)) +:+ "小时".

(** ** Lines *)

(** The texts the [format!] and raw strings of this file make: an object whose
    values are put between quotes as they are, or stand there as numbers. *)
Inductive Slot : Type := InQuotes (s : string) | Bare (n : Z).
Definition slot_text (x : Slot) : string :=
  match x with InQuotes s => String dquote (s +:+ String dquote "") | Bare n => to_string n end.
Definition format_line (l : list (string * Slot)) : string :=
  "{" +:+ join "," (List.map (λ e, String dquote (e.1 +:+ String dquote "") +:+ ":" +:+ slot_text e.2) l) +:+ "}".
Definition command (name : string) (l : list (string * Slot)) : string := format_line (("cmd"%string, InQuotes name) :: l).
Definition escape_json (s : string) : string :=
  replace (String (chr 13) "") "\r" (replace nl "\n" (replace (String dquote "") (String "\" (String dquote "")) (replace "\" "\\" s))).

(** ** Questions *)

(** A connection to the daemon: opened within 800 ms, written to, one line read
    (none where that fails); what runs on the thread of the window
    ([invoke_from_event_loop] and the bodies of the callbacks); the
    configuration of the process; the time; [open::that], which gives the text
    of its failure; the questions of [Updater], and what it stored. *)
Inductive GuiIo : Type → Type :=
| GDial (port : Z) : GuiIo (option nat)
| GWrite (c : nat) (b : bytes) : GuiIo bool
| GReadLine (c : nat) : GuiIo (option string)
| GWindow {X} (f : Win → X * Win) : GuiIo X
| GStore : GuiIo Store
| GPut (f : Store → Store) : GuiIo unit
| GUnix : GuiIo Z
| GSleep (ms : Z) : GuiIo unit
| GOpen (what : string) : GuiIo (option string)
| GUpd {X} (e : UpdIo X) : GuiIo X
| GStored : GuiIo (option UpdateInfo).
Definition on_window (f : Win → Win) : Prog GuiIo unit := ask (GWindow (λ w, (tt, f w))).
Definition of_window {A} (f : Win → A) : Prog GuiIo A := ask (GWindow (λ w, (f w, w))).

(** The body and texts of the crates chrono, qrcode and of errors: the day of a
    time in RFC 3339, why a text has no code, what went wrong. *)
Class GuiTextLib : Type := {
  rfc3339_day : string → option string;
  qr_refused : string → option string;
  update_failure : Failure → string;
}.

Section gui.
Context `{JsonLib} `{GuiTextLib}.

(** ** The call of the daemon *)

Definition say_failed (why : string) : string := format_line [("error", InQuotes why)]%string.
Definition ipc_call (ipc_port : Z) (cmd : string) : Prog GuiIo string :=
  c ← ask (GDial ipc_port);
  match c with
  | None => mret (say_failed "IPC 连接失败（守护进程未运行？）")
  | Some c =>
    written ← ask (GWrite c (str_bytes (cmd +:+ nl)));
    if negb written then mret (say_failed "IPC 写入失败") else
    resp ← ask (GReadLine c);
    mret (match resp with None => say_failed "IPC 读取失败" | Some s => trim s end)
  end.

(** ** Reading answers *)

Definition answer (resp : string) : JVal := default VNull (json_parse resp).
Definition as_array (v : JVal) : option (list JVal) := match v with VList l => Some l | _ => None end.
Definition as_u64_val (v : JVal) : option Z := match v with VNum n => within 0 (2 ^ 64 - 1) n | _ => None end.
Definition text_at (k : string) (v : JVal) : string := default ""%string (as_str (jindex k v)).
Definition flag_at (k : string) (v : JVal) : bool := default false (dec_bool (jindex k v)).
Definition i64_at (k : string) (v : JVal) : Z := default 0 (as_i64_val (jindex k v)).
Definition u64_at (k : string) (v : JVal) : Z := default 0 (as_u64_val (jindex k v)).
Definition i32_at (k : string) (v : JVal) : Z := as_i32 (i64_at k v).

Definition format_ts (ts : Z) : Prog GuiIo string :=
  if ts =? 0 then mret "—"%string else now ← ask GUnix; mret (ago now ts).
Definition shown_conn (c : JVal) : Prog GuiIo ShownConn :=
  created ← format_ts (u64_at "created_at" c);
  mret (mkShownConn (text_at "uuid" c) (text_at "conn_type" c) (text_at "peer_addr" c) (i32_at "local_port" c)
          (format_bytes (u64_at "bytes_sent" c)) (format_bytes (u64_at "bytes_recv" c)) created).
Definition shown_peer (p : JVal) : ShownPeer :=
  mkShownPeer (text_at "id" p) (text_at "ip" p) (text_at "hostname" p) (text_at "username" p) (text_at "platform" p)
    (flag_at "online" p).
Definition shown_device (d : JVal) : ShownDevice :=
  mkShownDevice (i32_at "id" d) (text_at "device_id" d) (text_at "device_name" d) (flag_at "is_active" d)
    (flag_at "online" d) (text_at "created_at" d).
Definition shown_rule (r : JVal) : ShownRule :=
  mkShownRule (text_at "rule_id" r) (text_at "name" r)
    (default "127.0.0.1"%string (as_str (jindex "target_host" r))) (to_string (u64_at "target_port" r))
    (text_at "peer_id_filter" r).
Definition expires_text (exp : string) : string :=
  if String.eqb exp "" then ""%string else default exp (rfc3339_day exp).
Definition shown_sub (s : JVal) : RawSub :=
  mkRawSub (default "免费版"%string (as_str (jindex "plan_display_name" s))) (i32_at "device_used" s)
    (i32_at "device_limit" s) (expires_text (text_at "expires_at" s)).

(** ** The poll *)

Record PollSnapshot : Type := mkPollSnapshot {
  sn_online : bool; sn_nat_type : Z; sn_peer_id : string; sn_server_addr : string;
  sn_connections : list ShownConn; sn_peers : list ShownPeer;
  sn_logged_in : bool; sn_username : string; sn_role : string; sn_token_remaining_secs : Z;
  sn_sub : option RawSub; sn_devices : option (list ShownDevice); sn_rules : option (list ShownRule);
}.
Definition collect_poll_data (ipc_port page : Z) : Prog GuiIo PollSnapshot :=
  let call name := ipc_call ipc_port (command name []) in
  status_raw ← call "get_status"%string;
  config_raw ← call "get_config"%string;
  conns_raw ← call "get_connections"%string;
  peers_raw ← call "get_peers"%string;
  auth_raw ← call "auth_status"%string;
  let sv := answer status_raw in
  st ← ask GStore;
  connections ← mapM shown_conn (default [] (as_array (jindex "connections" (answer conns_raw))));
  let peers := shown_peer <$> default [] (as_array (jindex "peers" (answer peers_raw))) in
  let '(logged_in, username, role, remaining) :=
    match jget "auth" (answer auth_raw) with
    | Some a => (flag_at "logged_in" a, text_at "username" a, text_at "role" a, i64_at "token_remaining_secs" a)
    | None => (false, ""%string, ""%string, 0)
    end in
  sub ← (if logged_in : bool then
           sub_raw ← call "auth_subscription"%string; mret (shown_sub <$> jget "subscription" (answer sub_raw))
         else mret None);
  devices ← (if (page =? 4) && logged_in then
               dev_raw ← call "auth_list_devices"%string;
               mret (Some (shown_device <$> default [] (as_array (jindex "devices" (answer dev_raw)))))
             else mret None);
  rules ← (if page =? 6 then
             rules_raw ← call "list_rules"%string;
             mret (Some (shown_rule <$> default [] (as_array (jindex "rules" (answer rules_raw)))))
           else mret None);
  mret (mkPollSnapshot (flag_at "online" sv) (i32_at "nat_type" sv) (text_at "id" (answer config_raw))
          (cc_rendezvous_servers (CONFIG st)) connections peers logged_in username role remaining sub devices rules).

Definition apply_poll_snapshot (snap : PollSnapshot) (w : Win) : Win :=
  let w := ui_set_online (sn_online snap) w in
  let w := ui_set_nat_type (nat_type_name (sn_nat_type snap)) w in
  let w := ui_set_peer_id (sn_peer_id snap) w in
  let w := ui_set_server_addr (sn_server_addr snap) w in
  let w := ui_set_connections (sn_connections snap) w in
  let w := ui_set_lan_peers (sn_peers snap) w in
  let w := ui_set_logged_in (sn_logged_in snap) w in
  let w := ui_set_username (sn_username snap) w in
  let w := ui_set_role (sn_role snap) w in
  let w := ui_set_token_remaining (format_duration (sn_token_remaining_secs snap)) w in
  let w := match sn_sub snap with
           | Some s =>
             ui_set_sub_expires (rs_expires s) (ui_set_sub_device_limit (rs_device_limit s)
               (ui_set_sub_device_used (rs_device_used s) (ui_set_sub_plan (rs_plan s) w)))
           | None => w
           end in
  let w := match sn_devices snap with Some l => ui_set_devices l (ui_set_devices_loading false w) | None => w end in
  match sn_rules snap with Some l => ui_set_tunnel_rules l (ui_set_tunnel_rules_loading false w) | None => w end.
(** What a thread does that brings the window up to date. *)
Definition poll (ipc_port page : Z) : Prog GuiIo unit :=
  snap ← collect_poll_data ipc_port page; on_window (apply_poll_snapshot snap).
End gui.

Example number_texts :
  format_bytes 1023 = "1023 B"%string ∧ format_bytes 1024 = "1.0 KB"%string ∧ format_bytes 1331 = "1.3 KB"%string ∧
  format_bytes (1024 * 1024) = "1.00 MB"%string ∧ format_bytes 5431234 = "5.18 MB"%string ∧
  format_duration 4140 = "1.1小时"%string ∧ format_duration 4500 = "1.2小时"%string ∧ format_duration 59 = "59秒"%string.
Proof. vm_compute. done. Qed.

(** ** What the buttons do *)

Abbreviation Thread := (Prog GuiIo unit).
(** What runs at once, and the thread it starts. *)
Abbreviation Callback := (Prog GuiIo (Prog GuiIo unit)).
Definition no_task : Thread := mret tt.

Section actions.
Context `{JsonLib} `{GuiTextLib} `{TomlLib} `{Sha256}.
Variable target : Target.
Variable ipc_port : Z.

Definition with_config (f : ClientConfig → ClientConfig) : Prog GuiIo unit := ask (GPut (update f)).
Definition send (line : string) : Prog GuiIo string := ipc_call ipc_port line.
Definition command_call (name : string) : Prog GuiIo string := send (command name []).
Definition error_of (unknown : string) (v : JVal) : string := "❌ " +:+ default unknown (as_str (jindex "error" v)).
(** The last part of most threads: the answer, where it is JSON. *)
Definition answered (resp : string) (f : JVal → Win → Win) (w : Win) : Win :=
  match json_parse resp with Some v => f v w | None => w end.
Definition listed (k : string) (v : JVal) (f : list JVal → Win → Win) (w : Win) : Win :=
  match as_array (jindex k v) with Some l => f l w | None => w end.

(** The lines with arguments. *)
Definition tunnel_line (peer_id : string) (local_port : Z) : string :=
  command "connect" [("peer_id", InQuotes peer_id); ("local_port", Bare local_port)]%string.
Definition close_line (uuid : string) : string := command "close_conn" [("uuid", InQuotes uuid)]%string.
Definition login_line (username password : string) : string :=
  command "auth_login" [("username", InQuotes (escape_json username)); ("password", InQuotes (escape_json password))]%string.
Definition register_line (username email password dname : string) : string :=
  command "auth_register" [("username", InQuotes (escape_json username)); ("email", InQuotes (escape_json email));
                           ("password", InQuotes (escape_json password)); ("device_name", InQuotes (escape_json dname))]%string.
Definition change_password_line (old new : string) : string :=
  command "auth_change_password" [("old_password", InQuotes (escape_json old)); ("new_password", InQuotes (escape_json new))]%string.
Definition remove_device_line (device_id : string) : string := command "auth_remove_device" [("device_id", InQuotes device_id)]%string.
Definition proxy_save_line (port : Z) (exit_peer : string) : string :=
  command "proxy_save" [("port", Bare port); ("exit_peer", InQuotes exit_peer)]%string.
Definition add_rule_line (name : string) (target_port : Z) (target_host peer_filter : string) : string :=
  json_text (VObj [("cmd", VText "add_rule"); ("rule_name", VText name); ("target_port", VNum target_port);
                   ("target_host", VText target_host); ("peer_id_filter", VText peer_filter)])%string.
Definition remove_rule_line (rule_id : string) : string :=
  json_text (VObj [("cmd", VText "remove_rule"); ("rule_id", VText rule_id)])%string.
Definition payment_create_line (plan_id : Z) (method : string) : string :=
  command "payment_create" [("plan_id", Bare plan_id); ("method", InQuotes method)]%string.
Definition payment_status_line (order_no : string) : string := command "payment_status" [("order_no", InQuotes order_no)]%string.

(** *** Connections *)

Definition do_refresh : Callback := page ← of_window ui_page; mret (poll ipc_port page).
Definition connect_answered (shown : Z → string) (unknown : string) (v : JVal) : Win → Win :=
  ui_set_connect_result (match as_u64_val (jindex "local_port" v) with Some port => shown port | None => error_of unknown v end).
Definition do_connect (peer_id local_port : string) : Callback :=
  on_window (λ w, ui_set_connect_result "" (ui_set_connecting true w));;
  mret (resp ← send (tunnel_line peer_id (default 0 (parse_u16 local_port)));
        on_window (λ w, answered resp (connect_answered (λ port, "✅ 隧道已建立！连接 127.0.0.1:" +:+ to_string port +:+ " 访问对端")
                                         "未知错误") (ui_set_connecting false w)))%string.
Definition do_discover : Callback :=
  on_window (ui_set_discovering true);;
  mret (resp ← command_call "discover";
        on_window (λ w, answered resp (λ v, listed "peers" v (λ l, ui_set_lan_peers (shown_peer <$> l)))
                          (ui_set_discovering false w))).
Definition close_conn (uuid : string) : Callback :=
  mret (send (close_line uuid);; poll ipc_port 1)%string.
Definition connect_peer (peer_id : string) : Callback :=
  on_window (λ w, ui_set_page 0 (ui_set_connecting true w));;
  mret (resp ← send (tunnel_line peer_id 0);
        on_window (λ w, answered resp (connect_answered (λ port, "✅ 已连接！本地端口 " +:+ to_string port) "连接失败")
                          (ui_set_connecting false w)))%string.

(** *** The account *)

(** The answer to a login or a registration. *)
Definition account_answered (done : Win → Win) (v : JVal) (w : Win) : Win :=
  match jget "auth" v with
  | Some a => done (ui_set_role (text_at "role" a) (ui_set_username (text_at "username" a) (ui_set_logged_in (flag_at "logged_in" a) w)))
  | None => match as_str (jindex "error" v) with Some e => ui_set_account_status ("❌ " +:+ e) w | None => w end
  end.
Definition do_login : Callback :=
  given ← ask (GWindow (λ w,
    let username := ui_login_user w in let password := ui_login_pass w in
    if blank username || blank password then (None, w)
    else (Some (username, password), ui_set_account_status "" (ui_set_account_busy true w))));
  match given with
  | None => mret no_task
  | Some (username, password) =>
    mret (resp ← send (login_line username password);
          on_window (λ w, answered resp (account_answered (λ w, ui_set_login_pass "" (ui_set_account_status "✅ 登录成功" w)))
                            (ui_set_account_busy false w)))%string
  end.
Definition do_logout : Callback :=
  mret (command_call "auth_logout";;
        on_window (λ w, ui_set_account_status "✅ 已退出登录"
                          (ui_set_role "" (ui_set_username "" (ui_set_logged_in false w))))).
Definition do_register : Callback :=
  given ← ask (GWindow (λ w,
    let username := ui_login_user w in let password := ui_login_pass w in
    let email := ui_reg_email w in let dname := ui_reg_device_name w in
    if blank username || blank password || blank email then (None, w)
    else (Some (username, password, email, dname), ui_set_account_busy true w)));
  match given with
  | None => mret no_task
  | Some (username, password, email, dname) =>
    mret (resp ← send (register_line username email password dname);
          on_window (λ w, answered resp (account_answered (λ w, ui_set_show_register false (ui_set_account_status "✅ 注册并登录成功" w)))
                            (ui_set_account_busy false w)))%string
  end.
Definition do_change_password : Callback :=
  given ← ask (GWindow (λ w,
    let old := ui_old_pass w in let new := ui_new_pass w in
    if blank old || blank new then (None, w) else (Some (old, new), ui_set_account_busy true w)));
  match given with
  | None => mret no_task
  | Some (old, new) =>
    mret (resp ← send (change_password_line old new);
          on_window (λ w, answered resp (λ v w,
            if flag_at "ok" v then
              ui_set_new_pass "" (ui_set_old_pass "" (ui_set_logged_in false (ui_set_account_status "✅ 密码已修改，请重新登录" w)))
            else ui_set_account_status (error_of "修改失败" v) w) (ui_set_account_busy false w)))%string
  end.
Definition do_remove_device (device_id : string) : Callback :=
  mret (send (remove_device_line device_id);;
        dev_raw ← command_call "auth_list_devices";
        on_window (answered dev_raw (λ v, listed "devices" v (λ l, ui_set_devices (shown_device <$> l)))))%string.
Definition toggle_register : Callback :=
  on_window (λ w, ui_set_account_status "" (ui_set_show_register (negb (ui_show_register w)) w));; mret no_task.

(** *** Settings *)

Definition do_save_settings : Callback :=
  fields ← of_window (λ w, (ui_cfg_server w, ui_cfg_relay w, ui_cfg_api_url w, ui_cfg_ipc_port w));
  let '(server, relay, api_url, ipc_port_str) := fields in
  with_config (λ c,
    let c := set_api_url api_url (set_relay_server relay (set_rendezvous_servers server c)) in
    match parse_u16 ipc_port_str with Some p => set_ipc_port p c | None => c end);;
  on_window (ui_set_settings_status "✅ 配置已保存");;
  mret (command_call "restart_mediator";; on_window (ui_set_settings_status "✅ 配置已保存，中介已重启"))%string.
Definition do_restart_mediator : Callback :=
  mret (command_call "restart_mediator";; on_window (ui_set_settings_status "✅ 中介已重启")).
Definition do_open_config (config_path : string) : Callback := ask (GOpen config_path);; mret no_task.
Definition set_texts (tr : GuiTranslations) (fields : list string) (w : Win) : Win :=
  ui_set_texts (list_to_map ((λ k, (k, text_of tr k)) <$> fields) ∪ ui_texts w) w.
Definition apply_translations (lang : string) : Win → Win := set_texts (gui_texts lang) CHANGED_TEXTS.
Definition set_language_clicked (lang : string) : Callback :=
  ask (GPut (set_language_ lang));; on_window (apply_translations lang);; mret no_task.
Definition do_toggle_theme : Callback :=
  dark ← of_window ui_dark;
  on_window (ui_set_dark (negb dark));; ask (GPut (set_dark_mode_ (negb dark)));; mret no_task.
Definition toggle_socks5 : Callback :=
  with_config (λ c, set_socks5_enabled (negb (cc_socks5_enabled c)) c);;
  st ← ask GStore;
  let s5_en := (get_socks5_config st).1.1 in
  on_window (λ w, ui_set_settings_status (if s5_en : bool then "✅ SOCKS5 代理已启用（重启后生效）" else "SOCKS5 代理已禁用")
                    (ui_set_socks5_enabled s5_en w));;
  mret no_task.
Definition save_proxy_settings : Callback :=
  fields ← of_window (λ w, (ui_socks5_exit_peer w, ui_socks5_port_str w));
  let '(exit_peer, port_str) := fields in
  let port := default 1080 (parse_u16 port_str) in
  with_config (λ c, set_socks5_port port (set_socks5_exit_peer exit_peer c));;
  on_window (ui_set_settings_status "✅ 代理设置已保存（重启后生效）");;
  mret (send (proxy_save_line port exit_peer);; mret tt)%string.

(** *** Rules *)

Definition show_rules (resp : string) : Win → Win :=
  answered resp (λ v, listed "rules" v (λ l, ui_set_tunnel_rules (shown_rule <$> l))).
Definition do_refresh_rules : Callback :=
  on_window (ui_set_tunnel_rules_loading true);;
  mret (resp ← command_call "list_rules"; on_window (λ w, show_rules resp (ui_set_tunnel_rules_loading false w))).
Definition tunnel_status (msg : string) (ok : bool) (w : Win) : Win := ui_set_tunnel_status_ok ok (ui_set_tunnel_status_msg msg w).
Definition do_add_rule : Callback :=
  fields ← of_window (λ w, (ui_tunnel_new_name w, ui_tunnel_new_port w, ui_tunnel_new_host w, ui_tunnel_new_filter w));
  let '(name, port_str, target_host, peer_filter) := fields in
  match parse_u16 port_str with
  | None => on_window (tunnel_status "端口必须为 1-65535 的整数" false);; mret no_task
  | Some target_port =>
    mret (resp ← send (add_rule_line name target_port target_host peer_filter);
          rules_resp ← command_call "list_rules";
          on_window (λ w, show_rules rules_resp (answered resp (λ v w,
            if flag_at "ok" v then
              ui_set_tunnel_new_filter "" (ui_set_tunnel_new_port "" (ui_set_tunnel_new_name ""
                (tunnel_status ("✅ 规则「" +:+ name +:+ "」已添加") true w)))
            else tunnel_status (error_of "添加失败" v) false w) w)))
  end.
Definition do_remove_rule (rule_id : string) : Callback :=
  mret (send (remove_rule_line rule_id);;
        rules_resp ← command_call "list_rules";
        on_window (λ w, show_rules rules_resp (tunnel_status "规则已删除" true w))).

(** *** Plans and payments *)

Definition price_of (v : JVal) : option Z := match v with VNum n => Some n | VReal => None | _ => Some 0 end.
Definition plan_item (current_plan_name : string) (p : JVal) : PlanItem :=
  mkPlanItem (i32_at "id" p) (text_at "name" p) (text_at "display_name" p) (price_of (jindex "price_monthly" p))
    (i32_at "device_limit" p) (i32_at "speed_limit_kbps" p) (text_at "description" p)
    (String.eqb (text_at "name" p) current_plan_name).
Definition show_plans (resp_plans resp_my : string) : Win → Win :=
  let current_plan_name := default ""%string (v ← json_parse resp_my; as_str (jindex "plan_name" (jindex "subscription" v))) in
  answered resp_plans (λ v, listed "plans" v (λ l, ui_set_pay_plans (plan_item current_plan_name <$> l))).
Definition pay_status (msg : string) (ok : bool) (w : Win) : Win := ui_set_pay_status_ok ok (ui_set_pay_status_msg msg w).
Definition do_refresh_plans : Callback :=
  on_window (ui_set_pay_loading true);;
  mret (resp_plans ← command_call "get_plans";
        resp_my ← command_call "auth_subscription";
        on_window (λ w, show_plans resp_plans resp_my (ui_set_pay_loading false w))).
Fixpoint payment_poll (times : nat) (order_no : string) : Thread :=
  match times with
  | O => mret tt
  | S times =>
    ask (GSleep 3000);;
    resp ← send (payment_status_line order_no);
    if bool_decide (text_at "status" <$> json_parse resp = Some "paid"%string) then
      resp_plans ← command_call "get_plans";
      resp_my ← command_call "auth_subscription";
      on_window (λ w, show_plans resp_plans resp_my
                        (pay_status "✅ 支付成功！订阅已激活" true (ui_set_pay_qr_visible false w)))
    else payment_poll times order_no
  end.
Definition start_payment_poll (order_no : option string) : Thread :=
  match order_no with Some order_no => payment_poll 40 order_no | None => mret tt end.
Definition make_qr_image (content : string) : result string QrImage :=
  match qr_refused content with Some e => Err ("QR 编码失败: " +:+ e) | None => Ok content end.
(** The data of an answer; the window after it, and the order to ask for. *)
Definition data_of (v : JVal) : JVal := default v (jget "data" v).
Definition alipay_answered (resp : string) (w : Win) : option string * Win :=
  match json_parse resp with
  | None => (None, pay_status "❌ 网络错误" false w)
  | Some v =>
    let d := data_of v in
    match as_str (jindex "qr_content" d) with
    | Some qr =>
      let w := match as_str (jindex "plan_name" d) with Some name => ui_set_pay_selected_plan_name name w | None => w end in
      match make_qr_image qr with
      | Ok img =>
        (as_str (jindex "order_no" d),
         pay_status "请使用支付宝扫码完成支付" true (ui_set_pay_qr_visible true (ui_set_pay_qr_image (Some img) w)))
      | Err e => (None, pay_status ("二维码生成失败: " +:+ e) false w)
      end
    | None => (None, pay_status ("❌ " +:+ default "下单失败，请检查支付宝配置"%string (as_str (jindex "message" v))) false w)
    end
  end.
Definition do_pay_alipay (plan_id : Z) : Callback :=
  on_window (λ w, ui_set_pay_qr_visible false (pay_status "正在创建支付宝订单…" false w));;
  mret (resp ← send (payment_create_line plan_id "alipay"); order_no ← ask (GWindow (alipay_answered resp)); start_payment_poll order_no).
Definition do_pay_stripe (plan_id : Z) : Callback :=
  on_window (pay_status "正在创建 Stripe 会话…" false);;
  mret (resp ← send (payment_create_line plan_id "stripe");
        match json_parse resp with
        | None => on_window (pay_status "❌ 网络错误" false)
        | Some v =>
          let d := data_of v in
          match as_str (jindex "checkout_url" d) with
          | Some url =>
            failed ← ask (GOpen url);
            match failed with
            | Some e => on_window (pay_status ("❌ 无法打开浏览器: " +:+ e) false)
            | None =>
              on_window (pay_status "✅ 已在浏览器打开 Stripe，请完成支付后刷新套餐" true);;
              start_payment_poll (as_str (jindex "order_no" d))
            end
          | None => on_window (pay_status ("❌ " +:+ default "Stripe 下单失败"%string (as_str (jindex "message" v))) false)
          end
        end).
Definition do_close_qr : Callback := on_window (λ w, ui_set_pay_status_msg "" (ui_set_pay_qr_visible false w));; mret no_task.

(** *** Updates *)

Definition update_status (msg : string) (ok : bool) (w : Win) : Win := ui_set_update_msg_ok ok (ui_set_update_msg msg w).
Definition show_update (info : UpdateInfo) (msg : string) (w : Win) : Win :=
  update_status msg true
    (ui_set_update_changelog (up_changelog info) (ui_set_update_latest_ver (up_version info) (ui_set_update_available true w))).
(** The questions of [Updater], with what the window passes to it. *)
Definition up_gui (X : Type) (e : UpdIo X) : GuiIo X :=
  match e in UpdIo X return GuiIo X with
  | UFound info => GWindow (λ w, (tt, show_update info "发现新版本，请前往设置页更新" w))
  | UProgress downloaded total => GWindow (λ w, (tt, ui_set_update_progress (downloaded, total) w))
  | e => GUpd e
  end.
Definition by_updater {A} : Prog UpdIo A → Prog GuiIo A := embed up_gui.
Definition update_checked (result : result Failure (option UpdateInfo)) (w : Win) : Win :=
  match result with
  | Ok (Some info) => show_update info "发现新版本！" w
  | Ok None => update_status "已是最新版本" true w
  | Err e => update_status ("检查失败: " +:+ update_failure e) false w
  end.
Definition do_check_update : Callback :=
  st ← ask GStore;
  let api_url := get_api_url st in
  if blank api_url then on_window (update_status "请先在设置中配置 API 地址" false);; mret no_task
  else
    on_window (λ w, ui_set_update_available false (ui_set_update_msg "" (ui_set_update_checking true w)));;
    mret (result ← by_updater (check_update target api_url);
          (match result with Ok (Some info) => by_updater (ask (UStore info)) | _ => mret tt end);;
          on_window (λ w, update_checked result (ui_set_update_checking false w))).
Definition do_apply_update (fuel : nat) : Callback :=
  stored ← ask GStored;
  match stored with
  | None => on_window (update_status "请先点击 [检查更新]" false);; mret no_task
  | Some info =>
    on_window (λ w, update_status "正在下载…" true (ui_set_update_progress (0, 1) (ui_set_update_downloading true w)));;
    mret (result ← by_updater (download_and_apply target fuel info);
          on_window (λ w, match result with
                          | Ok _ => ui_set_update_downloading false w
                          | Err e => update_status ("更新失败: " +:+ update_failure e) false (ui_set_update_downloading false w)
                          end))
  end.

(** *** The start and the timers of [run_gui] *)

Definition init_config_fields : Prog GuiIo unit :=
  st ← ask GStore;
  let cfg := CONFIG st in
  on_window (λ w, ui_set_cfg_ipc_port (to_string (cc_ipc_port cfg)) (ui_set_cfg_api_url (cc_api_url cfg)
    (ui_set_cfg_relay (cc_relay_server cfg) (ui_set_cfg_server (cc_rendezvous_servers cfg) w))));;
  st ← ask GStore;
  let '(s5_en, s5_peer, s5_port) := get_socks5_config st in
  on_window (λ w, ui_set_socks5_port_str s5_port (ui_set_socks5_exit_peer (to_string s5_peer) (ui_set_socks5_enabled s5_en w)));;
  on_window (set_texts (gui_texts "zh") INIT_TEXTS).
(** The window before the event loop, and the threads that are started. *)
Definition run_gui (fuel : nat) : Prog GuiIo (list Thread) :=
  init_config_fields;;
  on_window (ui_set_update_current_ver CARGO_PKG_VERSION);;
  st ← ask GStore;
  let api_url := get_api_url st in
  let updates := if blank api_url then [] else [by_updater (auto_update_thread target fuel api_url)] in
  st ← ask GStore;
  on_window (ui_set_dark (get_dark_mode st));;
  st ← ask GStore;
  on_window (apply_translations (get_language st));;
  mret (updates ++ [ask (GSleep 400);; poll ipc_port 0]).
(** The timer of 500 ms: nothing while its last poll is under way. *)
Definition poll_timer : Callback :=
  go ← ask (GWindow (λ w, if ui_polling w then (None, w) else (Some (ui_page w), ui_set_polling true w)));
  match go with
  | None => mret no_task
  | Some page =>
    mret (snap ← collect_poll_data ipc_port page;
          on_window (λ w, ui_set_polling false (apply_poll_snapshot snap w)))
  end.
End actions.

(** ** The menu: ui/tray.rs *)

Inductive TrayAction : Type := ToggleWindow | GoHome | GoConnect | GoAccount | Quit.
Inductive TrayIconEvent : Type := LeftClickUp | OtherEvent.
(** The ids of the items of the menu. *)
Record TrayManager : Type := mkTrayManager {
  tm_show_hide_item_id : string; tm_home_item_id : string; tm_connect_item_id : string; tm_account_item_id : string;
  tm_quit_item_id : string; tm_online : bool; tm_tooltip : string }.
Definition tooltip_of (online : bool) : string := if online then "NAT Client — 已上线" else "NAT Client — 离线".
Definition set_tray_online (online : bool) (t : TrayManager) : TrayManager :=
  if Bool.eqb (tm_online t) online then t else
  mkTrayManager (tm_show_hide_item_id t) (tm_home_item_id t) (tm_connect_item_id t) (tm_account_item_id t)
    (tm_quit_item_id t) online (tooltip_of online).
Definition menu_action (t : TrayManager) (id : string) : option TrayAction :=
  if String.eqb id (tm_show_hide_item_id t) then Some ToggleWindow
  else if String.eqb id (tm_home_item_id t) then Some GoHome
  else if String.eqb id (tm_connect_item_id t) then Some GoConnect
  else if String.eqb id (tm_account_item_id t) then Some GoAccount
  else if String.eqb id (tm_quit_item_id t) then Some Quit else None.
(** [TrayManager::poll] over the queues of both kinds of events. *)
Definition tray_poll (t : TrayManager) (icons : list TrayIconEvent) (menus : list string) :
    option TrayAction * list TrayIconEvent * list string :=
  let from_menu icons := match menus with m :: menus => (menu_action t m, icons, menus) | [] => (None, icons, []) end in
  match icons with
  | LeftClickUp :: icons => (Some ToggleWindow, icons, menus)
  | OtherEvent :: icons => from_menu icons
  | [] => from_menu []
  end.
(** The window after an action, and whether the event loop goes on. *)
Definition handle_tray_action (a : TrayAction) (w : Win) : Win * bool :=
  match a with
  | ToggleWindow => (ui_set_visible (negb (ui_visible w)) w, true)
  | GoHome | GoConnect => (ui_set_page 0 (ui_set_visible true w), true)
  | GoAccount => (ui_set_page 3 (ui_set_visible true w), true)
  | Quit => (w, false)
  end.
(** The timer of 50 ms. *)
Definition tray_timer (t : TrayManager) (icons : list TrayIconEvent) (menus : list string) (w : Win) :
    TrayManager * list TrayIconEvent * list string * (Win * bool) :=
  let t := set_tray_online (ui_online w) t in
  let '(a, icons, menus) := tray_poll t icons menus in
  (t, icons, menus, match a with Some a => handle_tray_action a w | None => (w, true) end).
