(* ===== verification/GuiSpec.v ===== *)
(** * What the window of the client shows and does

    The window together with the daemon of [Ipc]: lines are read as they are
    meant, the poll shows the state of the daemon, a login arrives; buttons
    become usable again; and what the window asks for in vain. *)
From Stdlib Require Import Ascii.
From S2P Require Import Prelude AddrMangle Text TextFacts HostText JsonTree Proto RendezvousCodec Database Keys ClientConfig ClientConfigSpec Programs ClientIo PortForward Socks5 Socks5Spec ClientAuth Lan Mediator Ipc IpcSpec Updater Gui.
Import JsonPlain.
Local Open Scope Z_scope.

(** ** Lines *)

(** Characters that are written as they are, or with one of the four escapes of
    [escape_json]. *)
Definition typed_char (c : ascii) : bool := (32 <=? code c) || (code c =? 10) || (code c =? 13).
Definition typed (s : string) : Prop := all_chars typed_char s = true.

(** [replace] of one character. *)
Fixpoint subst (c : ascii) (new s : string) : string :=
  match s with
  | EmptyString => ""
  | String x s => (if Ascii.eqb x c then new else String x "") +:+ subst c new s
  end.
Lemma subst_app c new a b : subst c new (a +:+ b) = subst c new a +:+ subst c new b.
Proof. induction a as [|x a IH]; [done|]. rewrite app_cons. cbn [subst]. by rewrite IH, app_string_assoc. Qed.
Lemma cut_str_char c s : cut_str (String c "") s = cut c s.
Proof.
  induction s as [|x s IH]; [done|]. cbn [cut_str strip_prefix cut]. rewrite IH. destruct (Ascii.eqb_spec c x) as [->|Hx].
  - by rewrite bool_decide_eq_true_2.
  - by rewrite bool_decide_eq_false_2 by congruence.
Qed.
Lemma split_str_char c : ∀ f s, (String.length s <= f)%nat → split_str_fuel f (String c "") s = split_on c s.
Proof.
  induction f as [|f IH]; intros s Hs; [by destruct s; [|cbn in Hs; lia]|]. cbn [split_str_fuel]. rewrite cut_str_char.
  destruct (cut c s) as [[a b]|] eqn:E.
  - apply cut_some in E as [-> Ha]. rewrite length_string_app in Hs. cbn [String.length] in Hs. rewrite IH by lia.
    by rewrite split_on_app, (split_on_none c a) by done.
  - rewrite split_on_none; [done|]. clear Hs. induction s as [|x s IHs]; [done|]. cbn [cut has_char] in *.
    case_bool_decide as Hx; [done|]. destruct (cut c s) as [p|]; [done|]. rewrite IHs by done. by destruct (Ascii.eqb_spec c x) as [->|_].
Qed.
Lemma replace_char c new s : replace (String c "") new s = subst c new s.
Proof.
  unfold replace, split_str. rewrite split_str_char by lia. induction s as [|x s IH]; [done|]. cbn [split_on subst].
  pose proof (split_on_nonempty c s) as Hn. destruct (split_on c s) as [|w ws]; [done|]. rewrite <- IH. destruct (Ascii.eqb x c).
  - done.
  - rewrite app_cons. change (""%string +:+ ?x) with x. by destruct ws.
Qed.
(** For such characters the window writes what a JSON library writes. *)
Lemma escape_json_typed s : typed s → escape_json s = json_escape s.
Proof.
  unfold escape_json, typed, nl. rewrite !replace_char. induction s as [|c s IH]; [done|]. cbn [all_chars]. intros [Hc Hs]%andb_true_iff.
  cbn [json_escape]. rewrite <- IH by done. change (String c s) with (String c "" +:+ s). rewrite !subst_app. f_equal. clear - Hc.
  by destruct c as [[] [] [] [] [] [] [] []]; first [done | discriminate Hc].
Qed.
(** Characters that need no escape. *)
Definition plain_char (c : ascii) : bool := (32 <=? code c) && negb (code c =? 34) && negb (code c =? 92).
Definition plain (s : string) : Prop := all_chars plain_char s = true.
Lemma json_escape_plain s : plain s → json_escape s = s.
Proof.
  unfold plain. induction s as [|c s IH]; [done|]. cbn [all_chars json_escape]. intros [Hc Hs]%andb_true_iff. rewrite IH by done.
  clear - Hc. by destruct c as [[] [] [] [] [] [] [] []]; first [done | discriminate Hc].
Qed.

(** What stands in a line for a value. *)
Definition slot_of (f : Flat) : Slot := match f with FText s => InQuotes (json_escape s) | FNum n => Bare n end.
Definition slots (l : list (string * Flat)) : list (string * Slot) := List.map (λ e, (e.1, slot_of e.2)) l.
Lemma format_line_flat l : Forall (λ e, json_escape e.1 = e.1) l → format_line (slots l) = flat_text l.
Proof.
  intros Hl. unfold format_line, flat_text, slots. do 3 f_equal. induction Hl as [|[k f] l Hk _ IH]; [done|].
  cbn [List.map fst snd] in *. rewrite IH. f_equal. unfold quoted. rewrite Hk. by destruct f.
Qed.

Section gui_spec.
Context `{WireLib} `{UrlBase64} `{PaddedBase64} `{JsonLib} `{TomlLib} `{IpcTexts} `{GuiTextLib} `{Sha256}.

Lemma command_reads `{!JsonReads} name l :
  plain name → Forall (λ e, json_escape e.1 = e.1) l →
  json_parse (command name (slots l)) = Some (VObj (("cmd"%string, VText name) :: List.map (λ e, (e.1, flat_val e.2)) l)).
Proof.
  intros Hn Hl. unfold command.
  assert (("cmd"%string, InQuotes name) :: slots l = slots (("cmd"%string, FText name) :: l)) as ->.
  { cbn. by rewrite json_escape_plain. }
  rewrite format_line_flat by by constructor. apply json_reads.
Qed.
(** A line of texts only begins and ends with a bracket. *)
Lemma format_line_trim l : trim (format_line l) = format_line l ∧ blank (format_line l) = false.
Proof.
  unfold format_line. split; [|done]. unfold trim.
  set (t := join "," _). change (trim_start ("{" +:+ t +:+ "}")) with (String "{" (t +:+ "}")).
  change (String "{" (t +:+ "}")) with (("{" +:+ t) +:+ "}"). by apply trim_end_visible.
Qed.

(** ** The daemon behind the port *)

Section daemon.
Context {D : Type} (h : Handler IpcIo D) (fuel : nat) (now : Z).

(** One line of a connection: the daemon reads it, answers it and waits for the
    next one. *)
Definition served : Type := D * list bytes * list bytes.
Definition line_handler : Handler IpcIo served := λ X e s,
  let '(d, inp, out) := s in
  match e in IpcIo X return option (X * served) with
  | IReadLine => match inp with b :: inp => Some (Some b, (d, inp, out)) | [] => None end
  | IWrite b => Some (true, (d, inp, out ++ [b]))
  | e => match h _ e d with Some (x, d) => Some (x, (d, inp, out)) | None => None end
  end.
(** The environment of the window: the daemon in the same process, the line
    that was written, the time. *)
Definition gui_daemon : Handler GuiIo (D * bytes) := λ X e s,
  let '(d, sent) := s in
  match e in GuiIo X return option (X * (D * bytes)) with
  | GDial _ => Some (Some 0%nat, (d, []))
  | GWrite _ b => Some (true, (d, sent ++ b))
  | GReadLine _ =>
    match (run line_handler (handle_client 2 fuel) (d, [sent], [])).2 with
    | (d, _, b :: _) => Some (Some (bytes_str b), (d, []))
    | _ => None
    end
  | GStore => match h _ (INet GetStore) d with Some (st, d) => Some (st, (d, sent)) | None => None end
  | GPut f => match h _ (INet (PutStore f)) d with Some (u, d) => Some (u, (d, sent)) | None => None end
  | GUnix => Some (now, (d, sent))
  | _ => None
  end.
End daemon.

(** The window itself, with the rest answered by [o]. *)
Definition with_window {E} (o : Handler GuiIo E) : Handler GuiIo (Win * E) := λ X e s,
  match e in GuiIo X return option (X * (Win * E)) with
  | GWindow f => let '(x, w) := f s.1 in Some (x, (w, s.2))
  | e => match o _ e s.2 with Some (x, s2) => Some (x, (s.1, s2)) | None => None end
  end.

(** ** A call *)

Lemma run_quiet {D A} (h : Handler IpcIo D) (p : Prog IpcIo A) d inp out :
  asks (λ X (e : IpcIo X), off_line e = true) p →
  run (line_handler h) p (d, inp, out) = match run h p d with (r, d') => (r, (d', inp, out)) end.
Proof.
  revert d. induction p as [a|s|X e k IH]; intros d; [done|done|]. intros [He Hk]. cbn [run].
  assert (line_handler h X e (d, inp, out) = match h X e d with Some (x, d) => Some (x, (d, inp, out)) | None => None end) as -> by by destruct e.
  destruct (h X e d) as [[x d']|]; [|done]. cbn. apply IH, Hk.
Qed.
Lemma line_served {D} (h : Handler IpcIo D) fuel line r d d' :
  is_utf8 (line +:+ nl) → trim (line +:+ nl) = line → blank line = false → run h (answer_line fuel line) d = (Finished r, d') →
  (run (line_handler h) (handle_client 2 fuel) (d, [str_bytes (line +:+ nl)], [])).2 = (d', [], [str_bytes (response_text r)]).
Proof.
  intros Hu Ht Hb Hr. cbn [handle_client].
  match goal with |- context [ask IReadLine ≫= ?f] => change (ask IReadLine ≫= f) with (Ask IReadLine f) end.
  cbn [run line_handler]. cbn [mbind option_bind].
  rewrite from_utf8_bytes by done. destruct (line +:+ nl) as [|c s] eqn:E; [destruct line; discriminate E|]. rewrite Ht, Hb.
  erewrite run_bind_eq; [|rewrite run_quiet by apply answer_line_quiet; by rewrite Hr].
  reflexivity.
Qed.
Lemma trim_command name l : trim (command name l +:+ nl) = command name l.
Proof.
  destruct (format_line_trim (("cmd"%string, InQuotes name) :: l)) as [Ht Hb]. unfold command, nl. apply trim_line; [done|].
  intros E. rewrite E in Hb. done.
Qed.

(** [ipc_call] gives the answer of the daemon to the line. *)
Lemma ipc_call_run `{!JsonLaws} {D} (h : Handler IpcIo D) fuel now port line r d d' sent w :
  is_utf8 line → trim (line +:+ nl) = line → blank line = false → run h (answer_line fuel line) d = (Finished r, d') →
  run (with_window (gui_daemon h fuel now)) (ipc_call port line) (w, (d, sent)) =
  (Finished (json_text (json_response r)), (w, (d', []))).
Proof.
  intros Hu Ht Hb Hr. assert (is_utf8 (line +:+ nl)) as Hu2 by (apply is_utf8_app; [done|by vm_compute]).
  cbn [run ipc_call ask with_window gui_daemon mbind option_bind fst snd Prog_bind prog_bind negb app].
  rewrite (line_served h fuel line r d d' Hu2 Ht Hb Hr). cbn [mbind option_bind run mret Prog_ret Prog_bind prog_bind].
  unfold response_text. rewrite bytes_str_str_bytes. by rewrite trim_line by apply json_not_blank.
Qed.

(** ** Lines and subcommands *)

(** The line of the window for what a subcommand of the program does. *)
Definition window_line (c : Commands) : option string :=
  match c with
  | CStatus => Some (command "get_status" [])
  | CPeers => Some (command "get_peers" [])
  | CDiscover => Some (command "discover" [])
  | CConnections => Some (command "get_connections" [])
  | CConnect peer_id local_port => Some (tunnel_line peer_id local_port)
  | CClose uuid => Some (close_line uuid)
  | CRestart => Some (command "restart_mediator" [])
  | CRegister u e p (Some n) => Some (register_line u e p n)
  | CLogin u p None => Some (login_line u p)
  | CLogout => Some (command "auth_logout" [])
  | CAuthStatus => Some (command "auth_status" [])
  | CChangePassword old new => Some (change_password_line old new)
  | CDevices => Some (command "auth_list_devices" [])
  | CRemoveDevice device_id => Some (remove_device_line device_id)
  | CListRules => Some (command "list_rules" [])
  | CAddRule n p t f => Some (add_rule_line n p t f)
  | CRemoveRule rule_id => Some (remove_rule_line rule_id)
  | _ => None
  end.
(** What was typed has no control character but the end of a line; what is put
    between quotes as it is has none, no quote and no backslash. *)
Definition texts_ok (c : Commands) : Prop :=
  match c with
  | CConnect peer_id p => plain peer_id ∧ 0 <= p <= 65535
  | CClose uuid => plain uuid
  | CRegister u e p n => typed u ∧ typed e ∧ typed p ∧ typed (default "" n)
  | CLogin u p _ => typed u ∧ typed p
  | CChangePassword old new => typed old ∧ typed new
  | CRemoveDevice device_id => plain device_id
  | CAddRule _ p _ _ => 0 <= p <= 65535
  | _ => True
  end%string.

Lemma window_line_reads `{!JsonReads} `{!JsonLaws} c line :
  window_line c = Some line → texts_ok c → json_parse line ≫= dec_request = json_parse (json_text (cli_json c)) ≫= dec_request.
Proof.
  intros Hl Hc. rewrite json_roundtrip.
  assert (∀ name l, plain name → Forall (λ e, json_escape e.1 = e.1) l →
    json_parse (command name (slots l)) ≫= dec_request =
    dec_request (VObj (("cmd"%string, VText name) :: List.map (λ e, (e.1, flat_val e.2)) l))) as Hr.
  { intros name l Hn Hk. by rewrite command_reads. }
  destruct c as [| | | | |i p|u| |u e p [n|]|u p [n|]| | |old new| |did| | |n p t f|rid|all]; try discriminate Hl; injection Hl as <-; cbn in Hc.
  all: try (unfold add_rule_line, remove_rule_line; by rewrite json_roundtrip).
  all: try by apply (Hr _ []).
  - destruct Hc as [Hi _]. unfold tunnel_line. rewrite <- (json_escape_plain i Hi) at 1.
    apply (Hr "connect" [("peer_id", FText i); ("local_port", FNum p)])%string; [done|by repeat constructor].
  - unfold close_line. rewrite <- (json_escape_plain u Hc) at 1. apply (Hr "close_conn" [("uuid", FText u)])%string; [done|by repeat constructor].
  - destruct Hc as (Hu & He & Hp & Hn). unfold register_line. rewrite !escape_json_typed by done.
    apply (Hr "auth_register" [("username", FText u); ("email", FText e); ("password", FText p); ("device_name", FText n)])%string; [done|by repeat constructor].
  - destruct Hc as [Hu Hp]. unfold login_line. rewrite !escape_json_typed by done.
    apply (Hr "auth_login" [("username", FText u); ("password", FText p)])%string; [done|by repeat constructor].
  - destruct Hc as [Ho Hn]. unfold change_password_line. rewrite !escape_json_typed by done.
    apply (Hr "auth_change_password" [("old_password", FText old); ("new_password", FText new)])%string; [done|by repeat constructor].
  - unfold remove_device_line. rewrite <- (json_escape_plain did Hc) at 1.
    apply (Hr "auth_remove_device" [("device_id", FText did)])%string; [done|by repeat constructor].
Qed.
Lemma texts_command_ok c : texts_ok c → command_ok c.
Proof. destruct c; cbn; naive_solver. Qed.
Lemma window_line_answer `{!JsonReads} `{!JsonLaws} fuel c line :
  window_line c = Some line → texts_ok c → answer_line fuel line = meaning fuel c.
Proof.
  intros Hl Hc. unfold answer_line. rewrite (window_line_reads c line Hl Hc), json_roundtrip.
  destruct (cli_request c (texts_command_ok c Hc)) as (req & E & Hm). cbn [mbind option_bind]. by rewrite E.
Qed.
Lemma window_line_trim `{!JsonLaws} c line : window_line c = Some line → trim (line +:+ nl) = line ∧ blank line = false.
Proof.
  assert (∀ name l, trim (command name l +:+ nl) = command name l ∧ blank (command name l) = false) as Hc.
  { intros name l. split; [apply trim_command|done]. }
  assert (∀ v, trim (json_text v +:+ nl) = json_text v ∧ blank (json_text v) = false) as Hj.
  { intros v. destruct (json_not_blank v) as [Ht Hn]. split; [by apply trim_line|]. by apply String.eqb_neq. }
  intros Hl. destruct c as [| | | | | | | |u e p [n|]|u p [n|]| | | | | | | | | |]; try discriminate Hl; injection Hl as <-; first [apply Hc | apply Hj].
Qed.
(** A call of the window, by what its line is for. *)
Lemma window_call `{!JsonLaws} `{!JsonReads} {D} (h : Handler IpcIo D) fuel now port c line r d d' sent w :
  window_line c = Some line → texts_ok c → is_utf8 line → run h (meaning fuel c) d = (Finished r, d') →
  run (with_window (gui_daemon h fuel now)) (ipc_call port line) (w, (d, sent)) =
  (Finished (json_text (json_response r)), (w, (d', []))).
Proof.
  intros Hl Hc Hu Hr. destruct (window_line_trim c line Hl) as [Ht Hb]. apply ipc_call_run; try done. by rewrite (window_line_answer fuel c line).
Qed.

(** ** What the answers hold *)

Lemma jget_other {A} k k' (e : A → JVal) o l x :
  String.eqb k' k = false → jget k (VObj l) = x → jget k (VObj (skip_none e k' o ++ l)) = x.
Proof. intros Hk <-. destruct o as [a|]; cbn [skip_none app jget List.find fst]; by rewrite ?Hk. Qed.
Lemma jget_this {A} k (e : A → JVal) o l : jget k (VObj l) = None → jget k (VObj (skip_none e k o ++ l)) = e <$> o.
Proof. intros Hl. destruct o as [a|]; cbn [skip_none app jget List.find fst]; [by rewrite String.eqb_refl|done]. Qed.
Lemma jget_last {A} k k' (e : A → JVal) o : String.eqb k' k = false → jget k (VObj (skip_none e k' o)) = None.
Proof. intros Hk. destruct o as [a|]; cbn [skip_none jget List.find fst]; by rewrite ?Hk. Qed.
Ltac response_field :=
  unfold json_response; repeat (apply jget_other; [reflexivity|]); apply jget_this;
  repeat (apply jget_other; [reflexivity|]); by apply jget_last.
Lemma response_auth r : jget "auth" (json_response r) = json_auth <$> ir_auth r.
Proof. response_field. Qed.
Lemma response_error r : jget "error" (json_response r) = VText <$> ir_error r.
Proof. response_field. Qed.
Lemma response_online r : jget "online" (json_response r) = VBool <$> ir_online r.
Proof. response_field. Qed.
Lemma response_nat_type r : jget "nat_type" (json_response r) = VNum <$> ir_nat_type r.
Proof. response_field. Qed.
Lemma response_id r : jget "id" (json_response r) = VText <$> ir_id r.
Proof. response_field. Qed.
Lemma response_connections r : jget "connections" (json_response r) = VList <$> ir_connections r.
Proof. response_field. Qed.
Lemma response_peers r : jget "peers" (json_response r) = VList <$> ir_peers r.
Proof. response_field. Qed.
Lemma response_devices r : jget "devices" (json_response r) = VList <$> ir_devices r.
Proof. response_field. Qed.
Lemma response_rules r : jget "rules" (json_response r) = VList <$> ir_rules r.
Proof. response_field. Qed.
Lemma response_subscription r : jget "subscription" (json_response r) = (λ v, v) <$> ir_subscription r.
Proof. response_field. Qed.

Lemma answer_response `{!JsonLaws} r : answer (json_text (json_response r)) = json_response r.
Proof. unfold answer. by rewrite json_roundtrip. Qed.

(** ** A login *)

(** The window after the answer to a login. *)
Definition login_shown (r : IpcResponse) (w : Win) : Win :=
  let w := ui_set_account_busy false (ui_set_account_status "" (ui_set_account_busy true w)) in
  match ir_auth r with
  | Some s =>
    ui_set_login_pass "" (ui_set_account_status "✅ 登录成功"
      (ui_set_role (as_role s) (ui_set_username (as_username s) (ui_set_logged_in (as_logged_in s) w))))
  | None => match ir_error r with Some e => ui_set_account_status ("❌ " +:+ e) w | None => w end
  end.

(** A click on the button for the login makes the daemon log in with the name
    and the password that were typed, whatever quotes, backslashes and ends of
    lines they hold, and the window shows what the daemon answers: who is logged
    in, or the error; the button can be used again. *)
Theorem window_login_arrives `{!JsonLaws} `{!JsonReads} {D} (h : Handler IpcIo D) fuel now port r d d' sent w :
  let u := ui_login_user w in let p := ui_login_pass w in
  u ≠ ""%string → p ≠ ""%string → typed u → typed p → is_utf8 (login_line u p) →
  run h (meaning fuel (CLogin u p None)) d = (Finished r, d') →
  run (with_window (gui_daemon h fuel now)) (thread ← do_login port; thread) (w, (d, sent)) =
  (Finished tt, (login_shown r w, (d', []))).
Proof.
  intros u p Hu Hp Tu Tp Hl Hr.
  assert (blank u || blank p = false) as Hb.
  { apply orb_false_iff. split; by apply String.eqb_neq. }
  unfold do_login. erewrite run_bind_eq.
  2: { cbn [run ask with_window fst snd mbind Prog_bind prog_bind mret Prog_ret]. fold u p. rewrite Hb. reflexivity. }
  unfold send. erewrite run_bind_eq; [|eapply window_call; try done; by split].
  cbn [run on_window ask with_window fst snd]. do 3 f_equal. unfold answered. rewrite json_roundtrip.
  unfold account_answered, login_shown. rewrite response_auth. unfold jindex. rewrite response_error.
  destruct (ir_auth r) as [s|]; [done|]. by destruct (ir_error r).
Qed.

(** ** The poll *)

(** Numbers as the readers of [serde_json] give them: those of their types are
    as they are. *)
Definition num_i64 (n : Z) : Z := default 0 (within (- 2 ^ 63) (2 ^ 63 - 1) n).
Definition num_u64 (n : Z) : Z := default 0 (within 0 (2 ^ 64 - 1) n).
Definition num_i32 (n : Z) : Z := as_i32 (num_i64 n).
Lemma num_i64_ok n : - 2 ^ 63 <= n < 2 ^ 63 → num_i64 n = n.
Proof. intros Hn. unfold num_i64, within. by destruct (_ && _) eqn:E; [|lia]. Qed.
Lemma num_u64_ok n : 0 <= n < 2 ^ 64 → num_u64 n = n.
Proof. intros Hn. unfold num_u64, within. by destruct (_ && _) eqn:E; [|lia]. Qed.
Lemma num_i32_ok n : - 2 ^ 31 <= n < 2 ^ 31 → num_i32 n = n.
Proof. intros Hn. unfold num_i32. rewrite num_i64_ok by lia. by apply as_i32_small. Qed.

Section view.
Variables (fuel : nat) (now : Z).

(** What is to be shown of the data of the daemon. *)
Definition view_conn (c : ActiveConn) : ShownConn :=
  mkShownConn (ac_uuid c) (match ac_conn_type c with Direct => "Direct" | Relayed => "Relay" end) (ac_peer_addr c)
    (match ac_local_port c with Some p => num_i32 p | None => 0 end)
    (format_bytes (num_u64 (ac_bytes_sent c))) (format_bytes (num_u64 (ac_bytes_recv c)))
    (let ts := num_u64 (ac_created_at c) in if ts =? 0 then "—" else ago now ts).
Definition view_peer (p : DiscoveredPeer) : ShownPeer :=
  mkShownPeer (dp_id p) (dp_ip p) (dp_hostname p) (dp_username p) (dp_platform p) (dp_online p).
Definition view_device (d : AccountDevice) : ShownDevice :=
  mkShownDevice (num_i32 (ad_id d)) (ad_device_id d) (default "" (ad_device_name d)) (ad_is_active d) (ad_online d) (ad_created d).
Definition view_sub (s : SubscriptionSummary) : RawSub :=
  mkRawSub (ss_plan_display_name s) (num_i32 (ss_device_used s)) (num_i32 (ss_device_limit s)) (expires_text (ss_expires_at s)).
(** Of a rule neither its id nor its peer is shown. *)
Definition view_rule (r : ForwardRule) : ShownRule :=
  mkShownRule "" (fr_name r) (fr_target_host r) (to_string (num_u64 (fr_target_port r))) "".

(** What the poll asks the daemon for, without lines and JSON. *)
Definition daemon_view (page : Z) : Prog IpcIo PollSnapshot :=
  online ← by_net (ask (GetFlag ONLINE)); st ← ipc_store;
  stc ← ipc_store; _ ← by_net (ask (GetFlag ONLINE));
  conns ← ask IConns;
  l ← by_lan get_peers;
  auth ← by_auth from_config;
  sts ← ipc_store;
  sub ← (if as_logged_in auth : bool then
           r ← by_auth get_my_subscription; mret (match r with Ok s => Some (view_sub s) | Err _ => None end)
         else mret None);
  devices ← (if (page =? 4) && as_logged_in auth then
               r ← by_auth list_devices; mret (Some (match r with Ok l => view_device <$> l | Err _ => [] end))
             else mret None);
  rules ← (if page =? 6 then str ← ipc_store; mret (Some (view_rule <$> get_rules str)) else mret None);
  mret (mkPollSnapshot online (num_i32 (get_nat_type st)) (get_id stc) (cc_rendezvous_servers (CONFIG sts))
          (view_conn <$> get_active_connections conns) (view_peer <$> l) (as_logged_in auth) (as_username auth)
          (as_role auth) (num_i64 (as_token_remaining_secs auth)) sub devices rules).

Lemma run_bind_inv {E W A B} (h : Handler E W) (p : Prog E A) (f : A → Prog E B) w b w' :
  run h (p ≫= f) w = (Finished b, w') → ∃ a w1, run h p w = (Finished a, w1) ∧ run h (f a) w1 = (Finished b, w').
Proof. rewrite run_bind. destruct (run h p w) as [[a|x|] w1]; [|done|done]. eauto. Qed.

Context {D : Type} (h : Handler IpcIo D).
Abbreviation desk := (with_window (gui_daemon h fuel now)).

Lemma run_shown_conn c s : run desk (shown_conn (json_conn c)) s = (Finished (view_conn c), s).
Proof.
  assert (run desk (format_ts (num_u64 (ac_created_at c))) s =
    (Finished (let ts := num_u64 (ac_created_at c) in if ts =? 0 then "—"%string else ago now ts), s)) as Ht.
  { unfold format_ts. cbv zeta. destruct (_ =? 0); [done|]. destruct s as [w [d b]]. reflexivity. }
  unfold shown_conn. change (u64_at "created_at" (json_conn c)) with (num_u64 (ac_created_at c)).
  rewrite (run_bind_eq _ _ _ _ _ _ Ht). destruct c as [u [] p [lp|] bs br cr]; reflexivity.
Qed.
Lemma run_shown_conns (l : list ActiveConn) s : run desk (mapM shown_conn (json_conn <$> l)) s = (Finished (view_conn <$> l), s).
Proof.
  induction l as [|c l IH]; [done|]. cbn [fmap list_fmap mapM]. rewrite (run_bind_eq _ _ _ _ _ _ (run_shown_conn c s)).
  by rewrite (run_bind_eq _ _ _ _ _ _ IH).
Qed.
Lemma shown_peers (l : list DiscoveredPeer) : shown_peer <$> (json_peer <$> l) = view_peer <$> l.
Proof. rewrite <- list_fmap_compose. reflexivity. Qed.
Lemma shown_devices (l : list AccountDevice) : shown_device <$> (json_account_device <$> l) = view_device <$> l.
Proof. rewrite <- list_fmap_compose. apply list_fmap_ext. intros _ [i d [n|] a c o] _; reflexivity. Qed.
Lemma shown_rules (l : list ForwardRule) : shown_rule <$> (json_rule <$> l) = view_rule <$> l.
Proof. rewrite <- list_fmap_compose. reflexivity. Qed.

Context `{!JsonLaws} `{!JsonReads}.

(** A command without arguments in the poll. *)
Lemma poll_call port c name r w d d' sent {A} (f : string → Prog GuiIo A) :
  window_line c = Some (command name []) → texts_ok c → is_utf8 (command name []) → run h (meaning fuel c) d = (Finished r, d') →
  run desk (ipc_call port (command name []) ≫= f) (w, (d, sent)) = run desk (f (json_text (json_response r))) (w, (d', [])).
Proof. intros Hl Hc Hu Hr. by erewrite run_bind_eq; [|by eapply window_call]. Qed.
Lemma config_call port w d d' r sent {A} (f : string → Prog GuiIo A) :
  run h ipc_get_config d = (Finished r, d') →
  run desk (ipc_call port (command "get_config" []) ≫= f) (w, (d, sent)) = run desk (f (json_text (json_response r))) (w, (d', [])).
Proof.
  intros Hr. erewrite run_bind_eq; [done|]. apply ipc_call_run; [by vm_compute|apply trim_command|done|].
  unfold answer_line. change (command "get_config" []) with (command "get_config" (slots [])).
  by rewrite command_reads.
Qed.

(** Its parts that depend on the login and the page. *)
Lemma sub_part port (logged_in : bool) sub w d d' sent :
  run h (if logged_in then r ← by_auth get_my_subscription; mret (match r with Ok s => Some (view_sub s) | Err _ => None end)
         else mret None) d = (Finished sub, d') →
  ∃ sent', run desk (if logged_in then sub_raw ← ipc_call port (command "auth_subscription" []);
                       mret (shown_sub <$> jget "subscription" (answer sub_raw)) else mret None) (w, (d, sent)) =
           (Finished sub, (w, (d', sent'))).
Proof.
  destruct logged_in; [|intros [= <- <-]; eauto]. intros (r & d1 & E & Hr)%run_bind_inv. injection Hr as <- <-.
  exists []. erewrite run_bind_eq.
  2: { apply ipc_call_run; [by vm_compute|apply trim_command|done|]. unfold answer_line.
       change (command "auth_subscription" []) with (command "auth_subscription" (slots [])). rewrite command_reads by done.
       cbn [mbind option_bind]. etransitivity; [|exact (run_bind_eq _ _ (λ r, mret (answer_with (λ s, say_subscription (json_summary s)) "" r)) _ _ _ E)]. reflexivity. }
  rewrite answer_response, response_subscription. by destruct r as [[]|].
Qed.
Lemma devices_part port page (logged_in : bool) devices w d d' sent :
  run h (if (page =? 4) && logged_in then
           r ← by_auth list_devices; mret (Some (match r with Ok l => view_device <$> l | Err _ => [] end))
         else mret None) d = (Finished devices, d') →
  ∃ sent', run desk (if (page =? 4) && logged_in then dev_raw ← ipc_call port (command "auth_list_devices" []);
                       mret (Some (shown_device <$> default [] (as_array (jindex "devices" (answer dev_raw))))) else mret None)
             (w, (d, sent)) = (Finished devices, (w, (d', sent'))).
Proof.
  destruct (_ && _); [|intros [= <- <-]; eauto]. intros (r & d1 & E & Hr)%run_bind_inv. injection Hr as <- <-.
  exists []. erewrite (poll_call port CDevices); [|reflexivity|done|by vm_compute|cbn [meaning]; by rewrite (run_bind_eq _ _ _ _ _ _ E)].
  rewrite answer_response. unfold jindex. rewrite response_devices. destruct r as [l|e]; [|done]. by rewrite <- shown_devices.
Qed.
Lemma rules_part port page rules w d d' sent :
  run h (if page =? 6 then str ← ipc_store; mret (Some (view_rule <$> get_rules str)) else mret None) d = (Finished rules, d') →
  ∃ sent', run desk (if page =? 6 then rules_raw ← ipc_call port (command "list_rules" []);
                       mret (Some (shown_rule <$> default [] (as_array (jindex "rules" (answer rules_raw))))) else mret None)
             (w, (d, sent)) = (Finished rules, (w, (d', sent'))).
Proof.
  destruct (page =? 6); [|intros [= <- <-]; eauto]. intros (str & d1 & E & Hr)%run_bind_inv. injection Hr as <- <-.
  exists []. erewrite (poll_call port CListRules); [|reflexivity|done|by vm_compute|cbn [meaning]; by rewrite (run_bind_eq _ _ _ _ _ _ E)].
  rewrite answer_response. unfold jindex. rewrite response_rules. by rewrite <- shown_rules.
Qed.
(** Its first questions. *)
Lemma first_part port w d d1 d2 d3 d4 d5 d6 d7 d8 online st stc online' conns (l : list DiscoveredPeer) auth sts sent {A}
    (f : string → string → string → string → string → Store → Prog GuiIo A) :
  run h (by_net (ask (GetFlag ONLINE))) d = (Finished online, d1) → run h ipc_store d1 = (Finished st, d2) →
  run h ipc_store d2 = (Finished stc, d3) → run h (by_net (ask (GetFlag ONLINE))) d3 = (Finished online', d4) →
  run h (ask IConns) d4 = (Finished conns, d5) → run h (by_lan get_peers) d5 = (Finished l, d6) →
  run h (by_auth from_config) d6 = (Finished auth, d7) → run h ipc_store d7 = (Finished sts, d8) →
  let call name := ipc_call port (command name []) in
  let text r := json_text (json_response r) in
  ∃ sent', run desk (a ← call "get_status"; b ← call "get_config"; c ← call "get_connections"; p ← call "get_peers"; q ← call "auth_status";
                     s ← ask GStore; f a b c p q s)%string (w, (d, sent)) =
    run desk (f (text (say_status online (get_nat_type st))) (text (say_config (get_id stc) online' (get_nat_type stc)))
                (text (say_connections (json_conn <$> get_active_connections conns))) (text (say_peers (json_peer <$> l)))
                (text (say_auth auth)) sts) (w, (d8, sent')).
Proof.
  intros E1 E2 E3 E4 E5 E6 E7 E8 call text. exists []. unfold call.
  erewrite (poll_call port CStatus); [|reflexivity|done|by vm_compute|cbn [meaning]; unfold ipc_status; rewrite (run_bind_eq _ _ _ _ _ _ E1);
    by rewrite (run_bind_eq _ _ _ _ _ _ E2)].
  erewrite config_call; [|unfold ipc_get_config; rewrite (run_bind_eq _ _ _ _ _ _ E3); by rewrite (run_bind_eq _ _ _ _ _ _ E4)].
  erewrite (poll_call port CConnections); [|reflexivity|done|by vm_compute|cbn [meaning]; by rewrite (run_bind_eq _ _ _ _ _ _ E5)].
  erewrite (poll_call port CPeers); [|reflexivity|done|by vm_compute|cbn [meaning]; by rewrite (run_bind_eq _ _ _ _ _ _ E6)].
  erewrite (poll_call port CAuthStatus); [|reflexivity|done|by vm_compute|cbn [meaning]; by rewrite (run_bind_eq _ _ _ _ _ _ E7)].
  erewrite run_bind_eq; [reflexivity|]. cbn [run ask with_window gui_daemon snd fst]. unfold ipc_store, by_net, store in E8. cbn in E8.
  destruct (h Store (INet GetStore) d7) as [[x y]|]; [|done]. by injection E8 as -> ->.
Qed.


(** ** What is asked for in vain *)

Lemma digits_ascii n : 0 <= n → all_chars is_ascii (to_string n) = true.
Proof.
  intros Hn. eapply all_chars_weaken; [|by apply all_digits_to_string]. intros c [_ Hc%Z.leb_le]%andb_true_iff.
  apply Z.ltb_lt. lia.
Qed.
(** The daemon has no command for orders. *)
Lemma payment_refused port plan_id method w d sent :
  0 <= plan_id → plain method → all_chars is_ascii method = true →
  run desk (send port (payment_create_line plan_id method)) (w, (d, sent)) =
  (Finished (json_text (json_response (say_error "未知命令: payment_create"))), (w, (d, []))).
Proof.
  intros Hp Hm Ha. apply ipc_call_run.
  - apply ascii_utf8. unfold payment_create_line, command, format_line. cbn [List.map join slot_text fst snd].
    rewrite !all_chars_app. cbn [all_chars]. rewrite !all_chars_app, digits_ascii, Ha by done. reflexivity.
  - apply trim_command.
  - done.
  - unfold answer_line, payment_create_line. rewrite <- (json_escape_plain method Hm).
    change [("plan_id", Bare plan_id); ("method", InQuotes (json_escape method))]%string
      with (slots [("plan_id", FNum plan_id); ("method", FText method)]%string).
    rewrite command_reads by (done || by repeat constructor). reflexivity.
Qed.
(** No payment can be made in the window: for whatever plan and whatever the
    server would say, both buttons end with the message of a failed order, no
    code and no page of the browser is opened, and the daemon has done nothing. *)
Theorem payments_are_never_created port plan_id w d sent :
  0 <= plan_id →
  run desk (thread ← do_pay_alipay port plan_id; thread) (w, (d, sent)) =
    (Finished tt, (pay_status "❌ 下单失败，请检查支付宝配置" false
                     (ui_set_pay_qr_visible false (pay_status "正在创建支付宝订单…" false w)), (d, []))) ∧
  run desk (thread ← do_pay_stripe port plan_id; thread) (w, (d, sent)) =
    (Finished tt, (pay_status "❌ Stripe 下单失败" false (pay_status "正在创建 Stripe 会话…" false w), (d, []))).
Proof.
  intros Hp. assert (∀ w method, plain method → all_chars is_ascii method = true →
    run desk (send port (payment_create_line plan_id method)) (w, (d, sent)) =
    (Finished (json_text (json_response (say_error "未知命令: payment_create"))), (w, (d, [])))) as Hrun.
  { intros w' m Hm Ha. by apply payment_refused. }
  split.
  - unfold do_pay_alipay.
    erewrite run_bind_eq; [|reflexivity].
    erewrite run_bind_eq; [|by apply Hrun].
    erewrite run_bind_eq; [|cbn [run ask with_window fst snd]; unfold alipay_answered; rewrite json_roundtrip; reflexivity].
    reflexivity.
  - unfold do_pay_stripe.
    erewrite run_bind_eq; [|reflexivity].
    erewrite run_bind_eq; [|by apply Hrun]. rewrite json_roundtrip. reflexivity.
Qed.
(** The rules in the window have no id, so that the button beside a rule deletes
    none: the daemon refuses, and the window says that the rule was deleted. *)
Theorem rule_button_deletes_nothing port r w d st d1 sent :
  is_utf8 (remove_rule_line "") → run h ipc_store d = (Finished st, d1) →
  run desk (thread ← do_remove_rule port (sr_rule_id (view_rule r)); thread) (w, (d, sent)) =
  (Finished tt, (ui_set_tunnel_rules (view_rule <$> get_rules st) (tunnel_status "规则已删除" true w), (d1, []))).
Proof.
  intros Hu Hs. unfold do_remove_rule. change (sr_rule_id (view_rule r)) with ""%string.
  erewrite run_bind_eq; [|reflexivity]. unfold send, command_call.
  erewrite run_bind_eq; [|by eapply (window_call h fuel now port (CRemoveRule ""))].
  erewrite run_bind_eq; [|by eapply (window_call h fuel now port CListRules); try (by vm_compute);
    cbn [meaning]; rewrite (run_bind_eq _ _ _ _ _ _ Hs)].
  cbn [run on_window ask with_window fst snd]. unfold show_rules, answered. rewrite json_roundtrip.
  unfold listed, jindex. rewrite response_rules. by rewrite <- shown_rules.
Qed.
End view.

(** ** Settings *)

(** The configuration of the process, and nothing else. *)
Definition store_handler : Handler GuiIo Store := λ X e st,
  match e in GuiIo X return option (X * Store) with GStore => Some (st, st) | GPut f => Some (tt, f st) | _ => None end.
(** At the start the port of the proxy stands in the field for the exit node and
    the exit node in the field for the port: the button that saves both then
    takes the port for the exit node, and the default for the port. *)
Theorem proxy_fields_are_exchanged port w st :
  let c := CONFIG st in
  let s := (run (with_window store_handler) (init_config_fields;; save_proxy_settings port) (w, st)).2 in
  ui_socks5_exit_peer s.1 = to_string (cc_socks5_port c) ∧ ui_socks5_port_str s.1 = cc_socks5_exit_peer c ∧
  CONFIG s.2 = set_socks5_port (default 1080 (parse_u16 (cc_socks5_exit_peer c)))
                 (set_socks5_exit_peer (to_string (cc_socks5_port c)) c).
Proof.
  cbv zeta. unfold init_config_fields. rewrite run_bind. cbn [run with_window store_handler ask on_window fst snd
    mbind Prog_bind prog_bind get_socks5_config]. unfold save_proxy_settings.
  cbn [run of_window with_config with_window store_handler ask on_window fst snd mbind Prog_bind prog_bind mret Prog_ret].
  rewrite update_CONFIG. by destruct w.
Qed.

(** ** Texts *)

Lemma lookup_texts tr fields (m : gmap string string) f :
  (list_to_map ((λ k, (k, text_of tr k)) <$> fields) ∪ m : gmap string string) !! f =
  if bool_decide (f ∈ fields) then Some (text_of tr f) else m !! f.
Proof.
  induction fields as [|k l IH].
  - cbn. rewrite left_id_L by apply _. by rewrite bool_decide_eq_false_2 by apply not_elem_of_nil.
  - cbn [fmap list_fmap list_to_map foldr]. rewrite <- insert_union_l. destruct (decide (f = k)) as [->|Hne].
    + rewrite lookup_insert_eq. by rewrite bool_decide_eq_true_2 by set_solver.
    + rewrite lookup_insert_ne, IH by done. case_bool_decide as E; case_bool_decide as E'; try done; set_solver.
Qed.
(** The start sets every text in Chinese and then those of the navigation, the
    buttons and the status in the language that was chosen, which is also all
    that a choice of the language changes: in English the pages stay Chinese. *)
Theorem pages_stay_chinese port fuel target w st f :
  f ∈ INIT_TEXTS →
  let shown w := ui_texts w !! f in
  let chosen lang := if bool_decide (f ∈ CHANGED_TEXTS) then text_of (gui_texts lang) f else text_of (gui_texts "zh") f in
  (∀ lang, get_language st = lang → shown (run (with_window store_handler) (run_gui target port fuel) (w, st)).2.1 = Some (chosen lang)) ∧
  (∀ lang, shown w = Some (chosen (get_language st)) →
     shown (run (with_window store_handler) (set_language_clicked lang) (w, st)).2.1 = Some (chosen lang)).
Proof.
  intros Hf shown chosen. split.
  - intros lang <-. unfold shown.
    transitivity ((list_to_map ((λ k, (k, text_of (gui_texts (get_language st)) k)) <$> CHANGED_TEXTS) ∪
      (list_to_map ((λ k, (k, text_of (gui_texts "zh") k)) <$> INIT_TEXTS) ∪ ui_texts w) : gmap string string) !! f).
    + unfold run_gui, init_config_fields. reflexivity.
    + rewrite !lookup_texts, (bool_decide_eq_true_2 _ Hf). unfold chosen. by case_bool_decide.
  - intros lang Hw. unfold shown in *.
    transitivity ((list_to_map ((λ k, (k, text_of (gui_texts lang) k)) <$> CHANGED_TEXTS) ∪ ui_texts w : gmap string string) !! f); [reflexivity|].
    rewrite lookup_texts, Hw. unfold chosen. by case_bool_decide.
Qed.
(** Both tables have a text for every field. *)
Theorem every_text_is_there lang f : f ∈ INIT_TEXTS → text_of (gui_texts lang) f ≠ ""%string.
Proof.
  intros Hf. assert (Forall (λ f, text_of zh f ≠ "" ∧ text_of en f ≠ "")%string INIT_TEXTS) as Hall.
  { apply (bool_decide_eq_true_1 _). by vm_compute. }
  rewrite Forall_forall in Hall. destruct (Hall f Hf) as [Hz He]. unfold gui_texts. destruct (String.eqb lang "en"); [exact He|exact Hz].
Qed.

(** ** Buttons *)

(** The flags under which the window disables its buttons, with the callbacks
    that set them. *)
Definition busy_callbacks (target : Target) (port : Z) (fuel : nat) (peer_id local_port : string) : list ((Win → bool) * Prog GuiIo (Prog GuiIo unit)) :=
  [(ui_account_busy, do_login port); (ui_account_busy, do_register port); (ui_account_busy, do_change_password port);
   (ui_discovering, do_discover port); (ui_tunnel_rules_loading, do_refresh_rules port); (ui_pay_loading, do_refresh_plans port);
   (ui_update_checking, do_check_update target); (ui_update_downloading, do_apply_update target fuel);
   (ui_polling, poll_timer port); (ui_connecting, do_connect port peer_id local_port); (ui_connecting, connect_peer port peer_id)].
Lemma after_any {E : Type → Type} {W A} (h : Handler E W) (p : Prog E A) w : after h p w (λ _ _, True).
Proof. unfold after. by destruct (run h p w) as [[]]. Qed.
Lemma after_then {E : Type → Type} {W A B} (h : Handler E W) (p : Prog E A) (f : A → Prog E B) w (P : W → Prop) :
  (∀ a w, after h (f a) w (λ r w, r = None ∨ P w)) → after h (p ≫= f) w (λ r w, r = None ∨ P w).
Proof.
  intros Hf. apply after_bind. eapply after_mono; [|apply after_any]. intros [a|] w' _; [apply Hf|by left].
Qed.
Lemma after_window {E} (o : Handler GuiIo E) (f : Win → Win) s (P : Win * E → Prop) :
  P (f s.1, s.2) → after (with_window o) (on_window f) s (λ r s, r = None ∨ P s).
Proof. intros HP. by right. Qed.
Lemma answered_keeps (busy : Win → bool) resp f w :
  (∀ v w, busy (f v w) = busy w) → busy (answered resp f w) = busy w.
Proof. intros Hf. unfold answered. by destruct (json_parse resp). Qed.
Lemma listed_keeps (busy : Win → bool) k v f w : (∀ l w, busy (f l w) = busy w) → busy (listed k v f w) = busy w.
Proof. intros Hf. unfold listed. by destruct (as_array _). Qed.
(** C40. A click leaves no button disabled: whatever the daemon, the network and the
    rest of the machine answer, a thread that comes to its end has reset the
    flag its callback had set. *)
Theorem buttons_come_back {E} (o : Handler GuiIo E) target port fuel peer_id local_port busy (cb : Callback) s :
  (busy, cb) ∈ busy_callbacks target port fuel peer_id local_port → busy s.1 = false →
  after (with_window o) (thread ← cb; thread) s (λ r s, r = None ∨ busy s.1 = false).
Proof.
  intros Hcb Hb. destruct s as [w e]. cbn [fst] in Hb.
  unfold busy_callbacks in Hcb. repeat (apply elem_of_cons in Hcb as [Hcb|Hcb]; [injection Hcb as -> ->|]); [..|by apply elem_of_nil in Hcb].
  all: unfold do_login, do_register, do_change_password, do_discover, do_refresh_rules, do_refresh_plans, do_check_update, do_apply_update, poll_timer, do_connect, connect_peer.
  all: apply after_bind; unfold after at 1; cbn [run ask of_window on_window with_window fst snd mbind Prog_bind prog_bind mret Prog_ret].
  - destruct (blank _ || blank _); cbn [run mret Prog_ret fst snd]; [by right|]. apply after_then. intros resp [w' e']. apply after_window.
    apply (answered_keeps ui_account_busy). intros v w2. unfold account_answered. by destruct (jget _ _); [|destruct (as_str _)].
  - destruct (blank _ || blank _ || blank _); cbn [run mret Prog_ret fst snd]; [by right|]. apply after_then. intros resp [w' e']. apply after_window.
    apply (answered_keeps ui_account_busy). intros v w2. unfold account_answered. by destruct (jget _ _); [|destruct (as_str _)].
  - destruct (blank _ || blank _); cbn [run mret Prog_ret fst snd]; [by right|]. apply after_then. intros resp [w' e']. apply after_window.
    apply (answered_keeps ui_account_busy). intros v w2. by destruct (flag_at _ _).
  - apply after_then. intros resp [w' e']. apply after_window. apply (answered_keeps ui_discovering). intros v w2. by apply listed_keeps.
  - apply after_then. intros resp [w' e']. apply after_window. apply (answered_keeps ui_tunnel_rules_loading). intros v w2. by apply listed_keeps.
  - apply after_then. intros resp s1. apply after_then. intros my [w' e']. apply after_window.
    apply (answered_keeps ui_pay_loading). intros v w2. by apply listed_keeps.
  - destruct (o Store GStore e) as [[st e1]|]; [|by left]. destruct (blank _); cbn [run mret Prog_ret fst snd]; [by right|].
    apply after_then. intros result s1. apply after_then. intros [] [w' e']. apply after_window. by destruct result as [[info|]|x].
  - destruct (o _ GStored e) as [[[info|] e1]|]; [| |by left]; cbn [run mret Prog_ret fst snd]; [|by right].
    apply after_then. intros result [w' e']. apply after_window. by destruct result.
  - destruct (ui_polling w); cbn [run mret Prog_ret fst snd]; [by right|]. apply after_then. intros snap [w' e']. by apply after_window.
  - apply after_then. intros resp [w' e']. apply after_window. by apply (answered_keeps ui_connecting).
  - apply after_then. intros resp [w' e']. apply after_window. by apply (answered_keeps ui_connecting).
Qed.
End gui_spec.

(** ** At concrete inputs *)
Section witnesses.
#[local] Existing Instance PlainJson.
#[local] Existing Instance TestToml.
#[local] Existing Instance TestUrl.
#[local] Instance NoWire : WireLib := TableWire [].
#[local] Instance NoPadded : PaddedBase64 := λ _, None.
#[local] Instance TestIpcTexts : IpcTexts := {| failure_text := λ _, ""%string; json_error := λ _, ""%string |}.
#[local] Instance TestGuiTexts : GuiTextLib :=
  {| rfc3339_day := λ _, None; qr_refused := λ _, None; update_failure := λ _, ""%string |}.
#[local] Instance NoSha : Sha256 := λ _, ""%string.

(** A daemon with a configuration, a connection and a time, logged out. *)
Definition small_daemon : Handler IpcIo (Store * ConnTable) := λ X e d,
  match e in IpcIo X return option (X * (Store * ConnTable)) with
  | INet e =>
    match e in Net X return option (X * (Store * ConnTable)) with
    | GetStore => Some (d.1, d)
    | GetFlag _ => Some (true, d)
    | _ => None
    end
  | IAuth e =>
    match e in AuthIo X return option (X * (Store * ConnTable)) with
    | AStore => Some (d.1, d)
    | AUnix => Some (1000, d)
    | _ => None
    end
  | ILan e =>
    match e in LanIo X return option (X * (Store * ConnTable)) with
    | LPeers => Some (∅, d)
    | LClock => Some (0, d)
    | _ => None
    end
  | IConns => Some (d.2, d)
  | _ => None
  end.
Definition small_store : Store :=
  mkStore (set_forward_rules [new_rule "r1" "SSH" 22] (set_rendezvous_servers "hbbs.example" (set_nat_type 1 (set_id "123456789" default_config))))
    None DiskOk.
Definition small_conn : ActiveConn := mkActiveConn "u1" Relayed "10.0.0.2:4000" None 2048 100 940.
Definition empty_window : Win :=
  mkWin (mkWinHome true 6 false "" "" "" [] [] false "" false false)
    (mkWinAccount false "" "" "" "ann" "it's \a" "" "" false "" false "" "") (mkWinPlan "" 0 0 "" [] false)
    (mkWinSettings "" "" "" "" false "" "" "" false ∅) (mkWinTunnel [] false "" "" "" "" "" false)
    (mkWinPay [] false "" false false None "") (mkWinUpdate false "" "" "" false false false (0, 1) "").

(** A click on the button for the login, in an environment that answers nothing
    but that the daemon cannot be reached. *)
Definition no_daemon : Handler GuiIo unit := λ X e s,
  match e in GuiIo X return option (X * unit) with GDial _ => Some (None, s) | _ => None end.
Lemma buttons_come_back_witness :
  let s := (run (with_window no_daemon) (thread ← do_login 21114; thread) (empty_window, tt)).2 in
  ui_account_busy s.1 = false ∧ ui_account_status s.1 = "❌ IPC 连接失败（守护进程未运行？）"%string.
Proof.
  cbv zeta. pose proof (buttons_come_back no_daemon Linux 21114 5 "" "" ui_account_busy (do_login 21114) (empty_window, tt)
    ltac:(by left) eq_refl) as Hb. unfold after in Hb.
  destruct (run (with_window no_daemon) (thread ← do_login 21114; thread) (empty_window, tt)) as [[[]|x|] s] eqn:E;
    [|by vm_compute in E..]. destruct Hb as [Hb|Hb]; [discriminate Hb|]. split; [exact Hb|].
  vm_compute in E. injection E as <-. reflexivity.
Defined.
(** A password with a quote and a backslash; no server is configured. *)
Definition no_server : Store := mkStore default_config None DiskOk.
Lemma window_login_arrives_witness :
  let s := (run (with_window (gui_daemon small_daemon 5 1000)) (thread ← do_login 21114; thread)
              (empty_window, ((no_server, ∅), []))).2 in
  ui_account_busy s.1 = false ∧ ui_account_status s.1 = "❌ 登录失败: "%string.
Proof.
  pose proof PlainJsonLaws as HL. pose proof PlainJsonReads as HR. cbv zeta.
  rewrite (window_login_arrives small_daemon 5 1000 21114 (say_error "登录失败: ") (no_server, ∅) (no_server, ∅) [] empty_window);
    [split; reflexivity|done|done|by vm_compute|by vm_compute|by vm_compute|by vm_compute].
Defined.
End witnesses.
